(* ===== verification/_CoqProject ===== *)
-Q . S2P
Prelude.v
Wire.v
Sshbuf.v
SshbufGetput.v
SshbufSpec.v
SshbufHeap.v
CString.v
Ssh2.v
Glob.v
AddrMatch.v
Nchan.v
Bitmap.v
Krl.v
KrlBlob.v
KrlBlobSpec.v
KrlBlobRead.v
KrlBlobSafe.v
Poly1305.v
Chacha.v
ChachaPoly.v
Algs.v
Digest.v
Kex.v
Base64.v
Deattack.v
Cipher.v
Mac.v
Packet.v
PacketSpec.v
PacketStream.v
Dispatch.v
AuthMethods.v
Auth2.v
AuthFrame.v
AuthDemo.v
AuthSafe.v
AuthDialogue.v
AuthGuess.v
Curve25519.v
X25519.v
KexRun.v
KexRunSpec.v
KexRunAgree.v
