(* ===== verification/Prelude.v ===== *)
(** * Verification of the core of OpenSSH 7.2p2

    The repository bundles several programs; the one with a logic of its own to
    verify is src/openssh-7.2p2/, and all paths below are relative to it.  The
    development models the layers on which the protocol stands: the buffers
    messages are built in, the matching of names and addresses, the channel
    state machine, key revocation lists, the packet cipher, the algorithm
    tables, the key exchange with its method curve25519-sha256, the binary packet
    protocol, and the authentication of users.

    ** Files

    - Prelude.v (this file): C integers with their wrap-around ([wrap], [u8] to
      [u64]), lists indexed by C integers, the monad [M] of computations that
      change a state and fail with an error code, tactics and hints.
    - Wire.v: the PEEK/POKE macros of sshbuf.h and positional notation.
    - Sshbuf.v: [struct sshbuf] and sshbuf.c.  SshbufGetput.v:
      sshbuf-getput-basic.c and [sshbuf_dtob16].  SshbufSpec.v: what they
      promise.  SshbufHeap.v: parents, children and reference counts on a heap
      of buffers ([sshbuf_set_parent], [sshbuf_fromb], [sshbuf_froms],
      [sshbuf_free]).
    - Ssh2.v: the numbers of ssh2.h.
    - CString.v: C strings, [strchr], [strsep], character classes.
    - Glob.v: match.c.  AddrMatch.v: addrmatch.c, which instantiates the
      parameter of Glob.v.
    - Nchan.v: nchan.c, the closing of channels, as a machine whose steps are
      the calls of the channel layer.
    - Bitmap.v: bitmap.c.  Krl.v: the lists of krl.c, in memory.  KrlBlob.v: their
      encoded form, [ssh_krl_to_blob] and [ssh_krl_from_blob].  KrlBlobSpec.v:
      what is written.  KrlBlobRead.v: reading what was written.  KrlBlobSafe.v:
      reading bytes of any origin, and concrete keys for the witnesses.
    - Poly1305.v, Chacha.v, ChachaPoly.v: poly1305.c, chacha.c and the packet
      cipher of cipher-chachapoly.c made of them.
    - Algs.v: the tables of cipher.c, mac.c and sshkey.c.  Digest.v:
      digest-openssl.c and hmac.c.  Kex.v: the negotiation and the key
      derivation of kex.c, over Glob.v, Algs.v, Digest.v and the buffers.
    - Cipher.v, Mac.v: the contexts of cipher.c and mac.c at work.  Packet.v: the
      binary packet protocol of packet.c over all of these, with the two
      functions of kex.c that start a key exchange.  PacketSpec.v: its buffers,
      the padding, the sealing of a packet and the directions of two ends in
      step.  PacketStream.v: the receiving side, and both ends together.
    - Base64.v: openbsd-compat/base64.c, uuencode.c and the base64 functions of
      sshbuf-misc.c.  Deattack.v: deattack.c and crc32.c.
    - Dispatch.v: dispatch.c, the table of message handlers and the loop that
      calls them.  AuthMethods.v: the lists of AuthenticationMethods in auth2.c.
      Auth2.v: auth2.c, auth2-chall.c and the methods, as handlers for
      Dispatch.v.  AuthFrame.v: what the parts of a request leave alone.
      AuthDemo.v: a small world for the witnesses.  AuthSafe.v, AuthDialogue.v,
      AuthGuess.v: who is let in, when answers are listened to, how often a
      client can guess.
    - Curve25519.v: smult_curve25519_ref.c.  X25519.v: the function of RFC 7748
      that it computes.  KexRun.v: the handlers of kex.c and of kexc25519.c,
      kexc25519c.c and kexc25519s.c, over Kex.v, Curve25519.v and Dispatch.v.
      KexRunSpec.v: what an accepted reply guarantees, and a hole in the check of
      public values.  KexRunAgree.v: a client and a server with each other's
      packets, and a client that never comes to the point.

    ** How the code is rendered

    A function keeps its name.  A [struct] is a record with the fields of the
    source, an unsigned integer of w bits a [Z] with [wrap w] written where the
    code can leave the range, an array or object in memory the list of its
    bytes.  A function that returns an error code is a computation of [M]: it
    takes the state, gives [Ok] or [Err] with the code, and the state as the C
    code leaves it, also on the error paths.  The allocator is a parameter that
    answers each request, so that every theorem covers running out of memory.
    A loop is a Fixpoint on the data it walks where it is structural, and
    otherwise on fuel; [None] then stands for fuel running out, and theorems
    say that this does not happen.

    ** What the theorems show

    - Buffers: every run of operations simulates a bounded byte queue
      ([sshbuf_simulates_queue]); what is written is read back
      ([message_roundtrip]); with parents and children the reference counts are
      exact and shared bytes do not move ([sshbuf_refcounts_exact],
      [sshbuf_shared_object_frozen]).
    - Matching: wildcards, lists of patterns, address and user lists decide
      their specifications ([match_pattern_glob], [match_pattern_list_spec], [addr_netmatch_cidr], [addr_match_list_spec]).
    - Channels: two ends running the code never provoke a protocol error, no
      run reaches a bad state, and closing completes ([nchan_no_protocol_error],
      [nchan_run_safe], [chan_is_dead_sound], [chan_teardown_completes]).
    - Revocation: bitmaps refine sets of bits, and after any sequence of
      revocations a key is refused exactly when one of them covers it
      ([bitmap_refines_bits], [krl_check_exact]); a list that is written and
      read again decides the same, whatever sections the cost model chose;
      reading ends on every input, and what is accepted is covered by the
      signatures ([krl_blob_roundtrip], [krl_read_terminates],
      [krl_signatures_cover]).
    - Packet cipher: Poly1305 is the one of RFC 7539 without overflow, ChaCha20
      is a stream cipher, and decryption accepts exactly the authentic packets
      ([poly1305_auth_correct], [poly1305_no_overflow],
      [chacha_encrypt_bytes_stream], [chachapoly_decrypt_authenticates]).
    - Packets: whatever one end sends the other receives, each packet once and
      in order, however the bytes are cut up and whatever the negotiated cipher
      and MAC are; with encrypt-then-mac only what carries its MAC is passed on;
      during a key exchange other packets are held back and then sent in order;
      the padding is as it must be ([packet_stream_roundtrip],
      [packet_authenticated], [rekey_holds_packets], [packet_padding_bounds]).
    - Key exchange: the validators of names are exact, both ends choose the same
      algorithms and derive the same keys ([names_valid_exact],
      [kex_both_ends_agree], [kex_derived_keys_agree], [hmac_rfc2104]).  With
      curve25519-sha256 two ends complete the exchange and agree, a client
      accepts only what the host has signed, and what is signed determines the
      exchange; the multiplication is the one of RFC 7748.  Zero in another
      encoding is not refused, and repeated KEXINIT messages pile up
      ([kex_c25519_completes], [c25519_client_authenticates],
      [transcript_injective], [curve25519_is_x25519], [shared_key_zero_point],
      [kexinit_flood]).
    - Authentication: a client is let in only with a trace that justifies it;
      the handler of answers is only there for a device that waits; the wrong
      guesses of a connection are bounded with one device, and not with two
      ([auth_success_justified], [auth_answers_expected],
      [auth_guesses_bounded], [auth_guesses_unbounded]).
    - Encodings and detectors: base64 both ways, and the compensation attack
      detector, which ends and misses nothing ([b64_pton_exact],
      [detect_attack_terminates], [detect_attack_exact]).

    ** Bounds and fuel

    [Sshbuf.v] needs no fuel: [roundup] is arithmetic.  The list loops of Glob.v
    and AddrMatch.v take one unit of fuel per byte of the string, and each round
    consumes at least one.  [derive_loop] of Kex.v is bounded by the number of
    bytes needed, since each round adds a digest that is not empty.  [grow] of
    Deattack.v has 32 units and uses at most two; [probe] has one per slot of
    the table, and finds a free one before it has seen them all.
    [ssh_packet_send2] of Packet.v calls itself when it starts a key exchange:
    the inner call is for a packet of type KEXINIT, which starts nothing more
    ([send2_with_kex]), so a depth of two is enough.  The loops around zlib
    fill 4096 bytes of a bounded buffer in every round but the last.
    [while_buf] and [check_signatures] of KrlBlob.v have one unit per byte of the
    buffer they read, and every round takes at least one byte.
    [valid_methods] and [next_device_loop] of the authentication have one unit
    per byte of the list whose elements they take.  The loops of Curve25519.v
    run a fixed number of times.

    ** Interfaces

    Code outside the repository's own is a parameter with its documented
    behaviour as laws: [Evp] with [EvpSpec] for OpenSSL's digests (Digest.v),
    [EvpCipher] with [EvpCipherSpec] for its ciphers (Cipher.v), [Zlib]
    (Packet.v), which needs no laws,
    [KeyOps] with [KeyLaws] for what krl.c uses of keys (Krl.v) and [KeyBlob] with
    [KeyBlobLaws] and [KeyCodes] for their encoding and signatures (KrlBlob.v,
    KrlBlobSpec.v), [getaddrinfo]
    (AddrMatch.v), the allocator everywhere.  [Umac] with [UmacSpec] (Mac.v) is
    the interface to umac.c, which is not modelled.  [World] and [UserKey]
    (Auth2.v) are what authentication asks of the system and of keys; they need
    no laws, since the questions and answers are recorded in a trace of which the
    theorems speak.  [KexWorld] and [HostKey] (KexRun.v) are the random numbers and
    the sending of packets, and the host keys, of a key exchange.  [Curve] with
    [CurveSpec] is what the method needs of Curve25519.v, which is an instance
    ([curve25519_spec]); that the two ends' multiples are the same is a
    hypothesis of [kex_c25519_completes], since the group law is not proved.
    Within the development [DispatchHost] (Dispatch.v) is what
    the loop uses of a connection, and [Dialogue] (AuthFrame.v) what a property
    of the keyboard-interactive context must satisfy to be kept.  Each has a concrete instance in
    the witnesses.

    ** Not modelled

    The programs around this core (ssh, sshd, ssh-agent, ssh-keygen, sftp and
    the rest), which are mostly dialogue with the operating system; of
    packet.c protocol 1, the sockets and the state that is handed over between
    processes; the channel multiplexer channels.c apart from the closing of
    channels; of authentication protocol 1, GSSAPI and the files of keys and
    hosts; privilege separation; the
    methods of key exchange over OpenSSL's groups and curves; the signatures of
    ed25519; umac.c;
    printing and logging.  Wiping memory, [free] and the addresses of objects
    are modelled only where reference counting makes them matter
    (SshbufHeap.v).  The other programs of the repository (fvd-new, Pvd,
    JsonTcpServer, SimpleTcpServer, ipsearch, linux-ftpd-0.17, wmstickynotes)
    are applications and third-party headers without a connection to this one. *)

From stdpp Require Import strings.
From Stdlib Require Import Ascii String.
From Stdlib Require Export ZArith Lia Bool List.
From stdpp Require Export base numbers list list_numbers gmap.

Export String.StringSyntax.
#[global] Open Scope Z_scope.
#[global] Set Default Goal Selector "!".

(** ** C integers

    An unsigned integer of w bits is a [Z] and every C operation that can
    leave its range is written with the wrap-around. *)

Definition wrap (w x : Z) : Z := x mod 2 ^ w.
Abbreviation u8 x := (wrap 8 x).
Abbreviation u16 x := (wrap 16 x).
Abbreviation u32 x := (wrap 32 x).
Abbreviation u64 x := (wrap 64 x).

Definition in_range (w x : Z) : Prop := 0 <= x < 2 ^ w.
Abbreviation is_byte := (in_range 8).
Abbreviation bytes := (list Z).
Abbreviation Bytes l := (Forall (in_range 8) l).

(** The truth value of a C condition. *)
Definition b2z (b : bool) : Z := if b then 1 else 0.

(** ** Lists indexed by C integers *)

Definition zlen {A} (l : list A) : Z := Z.of_nat (length l).
Definition ztake {A} (n : Z) (l : list A) : list A := take (Z.to_nat n) l.
Definition zdrop {A} (n : Z) (l : list A) : list A := drop (Z.to_nat n) l.

(** [p[i]] for a pointer [p] to the first byte of [l]. *)
Definition byte_at (l : bytes) (i : Z) : Z := nth (Z.to_nat i) l 0.

(** [memset(p, v, n)] as a value. *)
Definition zrep (n v : Z) : bytes := replicate (Z.to_nat n) v.

(** The object [l] after [memcpy(l + off, v, |v|)]. *)
Definition write_at (off : Z) (v l : bytes) : bytes :=
  ztake off l ++ v ++ zdrop (off + zlen v) l.

#[global] Arguments zlen {A} l : simpl never.
#[global] Arguments ztake {A} n l : simpl never.
#[global] Arguments zdrop {A} n l : simpl never.
#[global] Arguments wrap w x : simpl never.
#[global] Arguments Z.mul : simpl never.
#[global] Arguments Z.pow : simpl never.

(** A C string literal as the list of its bytes. *)
Definition cstr (s : string) : bytes :=
  (λ a : ascii, Z.of_N (N_of_ascii a)) <$> list_ascii_of_string s.

(** ** Functions that can fail

    A function that returns an [int] error code and results through pointers
    is a function to [result]; one that also changes the object it is given is
    a function to [result A * S], in which the object is returned whether or
    not the function failed. *)

Inductive result (A : Type) : Type :=
| Ok (a : A)
| Err (code : Z).
Arguments Ok {A} a.
Arguments Err {A} code.

Definition M (S A : Type) : Type := S -> result A * S.

Definition ret {S A} (a : A) : M S A := fun s => (Ok a, s).
Definition fail {S A} (e : Z) : M S A := fun s => (Err e, s).
Definition bind {S A B} (m : M S A) (k : A -> M S B) : M S B := fun s =>
  match m s with
  | (Ok a, s') => k a s'
  | (Err e, s') => (Err e, s')
  end.
Definition get_state {S} : M S S := fun s => (Ok s, s).
Definition put_state {S} (s : S) : M S unit := fun _ => (Ok tt, s).
Definition lift {S A} (r : result A) : M S A := fun s => (r, s).

Declare Scope ssh_scope.
Delimit Scope ssh_scope with ssh.
Notation "'let!' x := m 'in' k" := (bind m (fun x => k))
  (at level 10, x pattern, m at level 100, k at level 200) : ssh_scope.
Notation "m ;;; k" := (bind m (fun _ => k))
  (at level 100, right associativity) : ssh_scope.
#[global] Open Scope ssh_scope.

(** The return value of the C function. *)
Definition code {A} (r : result A) : Z :=
  match r with Ok _ => 0 | Err e => e end.
Definition is_ok {A} (r : result A) : bool :=
  match r with Ok _ => true | Err _ => false end.

Lemma bind_run {S X Y} (m : M S X) (k : X -> M S Y) s r :
  bind m k s = r ->
  match m s with (Ok a, s') => k a s' = r | (Err e, s') => r = (Err e, s') end.
Proof. unfold bind. destruct (m s) as [[a|e] s']; congruence. Qed.

Lemma bind_ok {S X Y} (m : M S X) (k : X -> M S Y) s a s' : m s = (Ok a, s') -> bind m k s = k a s'.
Proof. unfold bind. by intros ->. Qed.
Lemma bind_Ok {S X Y} (m : M S X) (k : X -> M S Y) s y s' :
  bind m k s = (Ok y, s') -> exists x s1, m s = (Ok x, s1) /\ k x s1 = (Ok y, s').
Proof. unfold bind. destruct (m s) as [[a|e] s1]; [eauto|discriminate]. Qed.

(** ** Error numbers (ssherr.h) *)

Definition SSH_ERR_INTERNAL_ERROR : Z := -1.
Definition SSH_ERR_ALLOC_FAIL : Z := -2.
Definition SSH_ERR_MESSAGE_INCOMPLETE : Z := -3.
Definition SSH_ERR_INVALID_FORMAT : Z := -4.
Definition SSH_ERR_BIGNUM_IS_NEGATIVE : Z := -5.
Definition SSH_ERR_STRING_TOO_LARGE : Z := -6.
Definition SSH_ERR_BIGNUM_TOO_LARGE : Z := -7.
Definition SSH_ERR_NO_BUFFER_SPACE : Z := -9.
Definition SSH_ERR_INVALID_ARGUMENT : Z := -10.
Definition SSH_ERR_SIGNATURE_INVALID : Z := -21.
Definition SSH_ERR_UNEXPECTED_TRAILING_DATA : Z := -23.
Definition SSH_ERR_LIBCRYPTO_ERROR : Z := -22.
Definition SSH_ERR_MAC_INVALID : Z := -30.
Definition SSH_ERR_NO_CIPHER_ALG_MATCH : Z := -31.
Definition SSH_ERR_NO_MAC_ALG_MATCH : Z := -32.
Definition SSH_ERR_NO_COMPRESS_ALG_MATCH : Z := -33.
Definition SSH_ERR_NO_KEX_ALG_MATCH : Z := -34.
Definition SSH_ERR_NO_HOSTKEY_ALG_MATCH : Z := -35.
Definition SSH_ERR_BUFFER_READ_ONLY : Z := -49.
Definition SSH_ERR_KRL_BAD_MAGIC : Z := -50.
Definition SSH_ERR_KEY_REVOKED : Z := -51.

(** ** Lemmas on wrap-around and bits *)

Lemma wrap_small w x : 0 <= x < 2 ^ w -> wrap w x = x.
Proof. intros; unfold wrap; by apply Z.mod_small. Qed.

Lemma wrap_range w x : 0 <= w -> in_range w (wrap w x).
Proof. intros; unfold wrap, in_range; apply Z.mod_pos_bound; lia. Qed.

Lemma wrap_idemp w x : wrap w (wrap w x) = wrap w x.
Proof.
  unfold wrap. destruct (decide (0 <= w)).
  - apply Z.mod_mod; lia.
  - rewrite (Z.pow_neg_r 2 w) by lia. by rewrite !Z.mod_0_r.
Qed.

Lemma land_ones_mod x w : 0 <= w -> Z.land x (2 ^ w - 1) = x mod 2 ^ w.
Proof.
  intros. rewrite <- Z.land_ones by done. by rewrite Z.ones_equiv, Z.sub_1_r.
Qed.

(** The bits of a sum of two numbers that do not overlap. *)
Lemma lor_shiftl_add a b n :
  0 <= n -> 0 <= b < 2 ^ n -> Z.lor (Z.shiftl a n) b = a * 2 ^ n + b.
Proof.
  intros Hn Hb. rewrite Z.shiftl_mul_pow2 by done.
  rewrite Z.add_nocarry_lxor, <- Z.lxor_lor; [done| |];
    (apply Z.bits_inj'; intros i Hi; rewrite Z.land_spec, Z.bits_0;
     destruct (decide (i < n));
     [by rewrite Z.mul_pow2_bits_low by lia|];
     rewrite <- (Z.mod_small b (2 ^ n)) by done;
     by rewrite Z.mod_pow2_bits_high, andb_false_r by lia).
Qed.

Lemma testbit_high x w i : in_range w x -> 0 <= w <= i -> Z.testbit x i = false.
Proof.
  intros Hx Hi. rewrite <- (Z.mod_small x (2 ^ w)) by done.
  apply Z.mod_pow2_bits_high; lia.
Qed.

Lemma land_range x y w : 0 <= w -> in_range w y -> 0 <= x -> in_range w (Z.land x y).
Proof.
  intros Hw Hy Hx. rewrite <- (Z.mod_small y (2 ^ w)) by done.
  rewrite <- (Z.land_ones y) by done. rewrite Z.land_assoc, Z.land_ones by done.
  unfold in_range. apply Z.mod_pos_bound; lia.
Qed.

Lemma lor_range x y w : 0 <= w -> in_range w x -> in_range w y -> in_range w (Z.lor x y).
Proof.
  intros Hw Hx Hy.
  assert (Z.lor x y = Z.lor x y mod 2 ^ w) as ->; [|by apply wrap_range].
  rewrite <- Z.land_ones by done. rewrite Z.land_lor_distr_l, !Z.land_ones by done.
  by rewrite !Z.mod_small by done.
Qed.

Lemma lxor_range x y w : 0 <= w -> in_range w x -> in_range w y -> in_range w (Z.lxor x y).
Proof.
  intros Hw Hx Hy.
  assert (Z.lxor x y = Z.lxor x y mod 2 ^ w) as ->; [|by apply wrap_range].
  apply Z.bits_inj'; intros i Hi. destruct (decide (i < w)).
  - by rewrite Z.mod_pow2_bits_low by done.
  - rewrite Z.mod_pow2_bits_high, Z.lxor_spec by lia.
    rewrite (testbit_high x w), (testbit_high y w); done || lia.
Qed.

Lemma testbit_concat a b n i :
  0 <= n -> 0 <= b < 2 ^ n -> 0 <= i ->
  Z.testbit (a * 2 ^ n + b) i = if i <? n then Z.testbit b i else Z.testbit a (i - n).
Proof.
  intros Hn Hb Hi. rewrite <- lor_shiftl_add by done. rewrite Z.lor_spec.
  destruct (Z.ltb_spec i n).
  - by rewrite Z.shiftl_spec_low.
  - rewrite Z.shiftl_spec by done. rewrite (testbit_high b n) by (done || lia).
    apply orb_false_r.
Qed.

(** ** Lemmas on lists indexed by integers *)

Section zlists.
Context {A : Type}.
Implicit Types l k : list A.

Lemma zlen_nonneg l : 0 <= zlen l.
Proof. unfold zlen; lia. Qed.
Lemma zlen_nil : zlen (@nil A) = 0.
Proof. done. Qed.
Lemma zlen_cons x l : zlen (x :: l) = 1 + zlen l.
Proof. unfold zlen; simpl; lia. Qed.
Lemma zlen_app l k : zlen (l ++ k) = zlen l + zlen k.
Proof. unfold zlen; rewrite length_app; lia. Qed.
Lemma zlen_ztake n l : 0 <= n <= zlen l -> zlen (ztake n l) = n.
Proof. unfold zlen, ztake; rewrite length_take; lia. Qed.
Lemma zlen_ztake_le n l : zlen (ztake n l) <= zlen l.
Proof. unfold zlen, ztake; rewrite length_take; lia. Qed.
Lemma zlen_zdrop n l : 0 <= n <= zlen l -> zlen (zdrop n l) = zlen l - n.
Proof. unfold zlen, zdrop; rewrite length_drop; lia. Qed.
Lemma zlen_zdrop_ge n l : zlen l <= n -> zlen (zdrop n l) = 0.
Proof. unfold zlen, zdrop; rewrite length_drop; lia. Qed.
Lemma zlen_ztake_max n l : zlen (ztake n l) = Z.max 0 (Z.min n (zlen l)).
Proof. unfold zlen, ztake; rewrite length_take; lia. Qed.
Lemma zlen_zdrop_max n l : zlen (zdrop n l) = Z.max 0 (zlen l - Z.max 0 n).
Proof. unfold zlen, zdrop; rewrite length_drop; lia. Qed.
Lemma zlen_0_nil l : zlen l = 0 -> l = [].
Proof. destruct l; [done|]. rewrite zlen_cons. pose proof (zlen_nonneg l). lia. Qed.
Lemma ztake_zdrop n l : ztake n l ++ zdrop n l = l.
Proof. apply take_drop. Qed.
Lemma ztake_0 l : ztake 0 l = [].
Proof. done. Qed.
Lemma zdrop_0 l : zdrop 0 l = l.
Proof. done. Qed.
Lemma zdrop_nil n : zdrop n (@nil A) = [].
Proof. apply drop_nil. Qed.
Lemma ztake_ge n l : zlen l <= n -> ztake n l = l.
Proof. unfold zlen, ztake; intros; apply take_ge; lia. Qed.
Lemma zdrop_ge n l : zlen l <= n -> zdrop n l = [].
Proof. unfold zlen, zdrop; intros; apply drop_ge; lia. Qed.
Lemma zdrop_zdrop n m l : 0 <= n -> 0 <= m -> zdrop n (zdrop m l) = zdrop (m + n) l.
Proof. unfold zdrop; intros; rewrite drop_drop; f_equal; lia. Qed.
Lemma ztake_ztake n m l : ztake n (ztake m l) = ztake (Z.min n m) l.
Proof. unfold ztake; rewrite take_take; f_equal; lia. Qed.
Lemma zdrop_ztake n m l : 0 <= n -> zdrop n (ztake m l) = ztake (m - n) (zdrop n l).
Proof.
  unfold zdrop, ztake; intros. destruct (decide (n <= m)).
  - rewrite take_drop_commute. do 2 f_equal. lia.
  - rewrite (drop_ge (take _ _)) by (rewrite length_take; lia).
    by replace (Z.to_nat (m - n)) with 0%nat by lia.
Qed.
Lemma ztake_app_le n l k : n <= zlen l -> ztake n (l ++ k) = ztake n l.
Proof. unfold ztake, zlen; intros; apply take_app_le; lia. Qed.
Lemma ztake_app_ge n l k : zlen l <= n -> ztake n (l ++ k) = l ++ ztake (n - zlen l) k.
Proof.
  unfold ztake, zlen; intros. rewrite take_app_ge by lia. do 2 f_equal. lia.
Qed.
Lemma zdrop_app_le n l k : n <= zlen l -> zdrop n (l ++ k) = zdrop n l ++ k.
Proof. unfold zdrop, zlen; intros; apply drop_app_le; lia. Qed.
Lemma zdrop_app_ge n l k : zlen l <= n -> zdrop n (l ++ k) = zdrop (n - zlen l) k.
Proof.
  unfold zdrop, zlen; intros. rewrite drop_app_ge by lia. f_equal. lia.
Qed.
Lemma ztake_app n l k : n = zlen l -> ztake n (l ++ k) = l.
Proof. intros ->. by rewrite ztake_app_le, ztake_ge by lia. Qed.
Lemma zdrop_app n l k : n = zlen l -> zdrop n (l ++ k) = k.
Proof. intros ->. rewrite zdrop_app_ge, Z.sub_diag by lia. done. Qed.
Lemma nth_ztake i n l d : 0 <= i < n -> nth (Z.to_nat i) (ztake n l) d = nth (Z.to_nat i) l d.
Proof. intros. unfold ztake. rewrite !nth_lookup, lookup_take_lt by lia. done. Qed.
Lemma nth_zdrop i n l d :
  0 <= i -> 0 <= n -> nth (Z.to_nat i) (zdrop n l) d = nth (Z.to_nat (n + i)) l d.
Proof.
  intros. unfold zdrop. rewrite !nth_lookup, lookup_drop. by rewrite Z2Nat.inj_add by lia.
Qed.
Lemma Forall_ztake (P : A -> Prop) n l : Forall P l -> Forall P (ztake n l).
Proof. apply Forall_take. Qed.
Lemma Forall_zdrop (P : A -> Prop) n l : Forall P l -> Forall P (zdrop n l).
Proof. apply Forall_drop. Qed.
End zlists.

Lemma zlen_fmap {A B} (f : A -> B) l : zlen (f <$> l) = zlen l.
Proof. unfold zlen. by rewrite length_fmap. Qed.
Lemma zlen_seqZ a n : zlen (seqZ a n) = Z.max 0 n.
Proof. unfold zlen. rewrite length_seqZ. lia. Qed.

Lemma zlen_zrep n v : 0 <= n -> zlen (zrep n v) = n.
Proof. unfold zlen, zrep; rewrite length_replicate; lia. Qed.
Lemma zlen_zrep_max n v : zlen (zrep n v) = Z.max 0 n.
Proof. unfold zlen, zrep; rewrite length_replicate; lia. Qed.
Lemma Bytes_zrep n v : is_byte v -> Bytes (zrep n v).
Proof. intros; apply Forall_replicate; done. Qed.

Lemma zlen_write_at off v l :
  0 <= off -> off + zlen v <= zlen l -> zlen (write_at off v l) = zlen l.
Proof.
  intros. pose proof (zlen_nonneg v). unfold write_at.
  rewrite !zlen_app, zlen_ztake, zlen_zdrop; lia.
Qed.
Lemma Bytes_write_at off v l : Bytes v -> Bytes l -> Bytes (write_at off v l).
Proof.
  intros. unfold write_at. rewrite !Forall_app.
  auto using Forall_ztake, Forall_zdrop.
Qed.

(** ** Hints *)

Create HintDb ssh.
#[export] Hint Resolve Forall_ztake Forall_zdrop Bytes_zrep Bytes_write_at
  zlen_nonneg wrap_range : ssh.
#[export] Hint Extern 1 (in_range _ _) => unfold in_range; lia : ssh.
Create Rewrite HintDb zlist.
#[export] Hint Rewrite (@zlen_nil Z) @zlen_cons @zlen_app @ztake_0 @zdrop_0 @zdrop_nil : zlist.
#[export] Hint Rewrite @zlen_ztake_max @zlen_zdrop_max zlen_zrep_max @zlen_fmap
  zlen_seqZ : zlist.
#[export] Hint Rewrite @zdrop_zdrop zlen_write_at using lia : zlist.

(** [zl]: arithmetic on the lengths of lists. *)
Ltac zl_nonneg :=
  repeat match goal with
  | |- context [zlen ?l] => lazymatch goal with
      | _ : 0 <= zlen l |- _ => fail | _ => pose proof (zlen_nonneg l) end
  | _ : context [zlen ?l] |- _ => lazymatch goal with
      | _ : 0 <= zlen l |- _ => fail | _ => pose proof (zlen_nonneg l) end
  end.
Ltac zl := zl_nonneg; autorewrite with zlist in *; zl_nonneg; lia.
