(* ===== verification/Wire.v ===== *)
(** Byte-order conversions and the SSH wire encoding.

    The macros [PEEK_U64] ... [POKE_U16] of sshbuf.h and the little-endian
    [U8TO32_LE]/[U32TO8_LE] of poly1305.c and chacha.c, and the reference
    encoding they are compared with: [be_value]/[be_bytes] and
    [le_value]/[le_bytes], positional notation in base 256.  The second half
    is the abstract specification of a buffer's readers: functions on the
    list of bytes still to be read. *)

From S2P Require Import Prelude.

(** ** The macros of sshbuf.h *)

Definition PEEK_U64 (p : bytes) : Z :=
  Z.lor (Z.lor (Z.lor (Z.lor (Z.lor (Z.lor (Z.lor
    (Z.shiftl (byte_at p 0) 56) (Z.shiftl (byte_at p 1) 48))
    (Z.shiftl (byte_at p 2) 40)) (Z.shiftl (byte_at p 3) 32))
    (Z.shiftl (byte_at p 4) 24)) (Z.shiftl (byte_at p 5) 16))
    (Z.shiftl (byte_at p 6) 8)) (byte_at p 7).
Definition PEEK_U32 (p : bytes) : Z :=
  Z.lor (Z.lor (Z.lor
    (Z.shiftl (byte_at p 0) 24) (Z.shiftl (byte_at p 1) 16))
    (Z.shiftl (byte_at p 2) 8)) (byte_at p 3).
Definition PEEK_U16 (p : bytes) : Z :=
  Z.lor (Z.shiftl (byte_at p 0) 8) (byte_at p 1).

Definition POKE_U64 (v : Z) : bytes :=
  let v := u64 v in
  [Z.land (Z.shiftr v 56) 255; Z.land (Z.shiftr v 48) 255;
   Z.land (Z.shiftr v 40) 255; Z.land (Z.shiftr v 32) 255;
   Z.land (Z.shiftr v 24) 255; Z.land (Z.shiftr v 16) 255;
   Z.land (Z.shiftr v 8) 255; Z.land v 255].
Definition POKE_U32 (v : Z) : bytes :=
  let v := u32 v in
  [Z.land (Z.shiftr v 24) 255; Z.land (Z.shiftr v 16) 255;
   Z.land (Z.shiftr v 8) 255; Z.land v 255].
Definition POKE_U16 (v : Z) : bytes :=
  let v := u16 v in
  [Z.land (Z.shiftr v 8) 255; Z.land v 255].

(** ** The macros of poly1305.c and chacha.c *)

Definition U8TO32_LE (p : bytes) : Z :=
  Z.lor (Z.lor (Z.lor
    (byte_at p 0) (Z.shiftl (byte_at p 1) 8))
    (Z.shiftl (byte_at p 2) 16)) (Z.shiftl (byte_at p 3) 24).
Definition U32TO8_LE (v : Z) : bytes :=
  [u8 v; u8 (Z.shiftr v 8); u8 (Z.shiftr v 16); u8 (Z.shiftr v 24)].

(** ** Reference encodings *)

Definition be_value (l : bytes) : Z := fold_left (fun acc b => acc * 256 + b) l 0.
Fixpoint le_value (l : bytes) : Z :=
  match l with [] => 0 | b :: l => b + 256 * le_value l end.
Fixpoint le_bytes (n : nat) (v : Z) : bytes :=
  match n with O => [] | S n => v mod 256 :: le_bytes n (v / 256) end.
Definition be_bytes (n : nat) (v : Z) : bytes := rev (le_bytes n v).
#[global] Arguments be_bytes n v : simpl never.
#[global] Arguments be_value l : simpl never.

(** ** Readers of the SSH wire format, on the bytes still to be read *)

Definition reader (A : Type) : Type := bytes -> result (A * bytes).

Definition rd_bytes (n : Z) : reader bytes := fun l =>
  if zlen l <? n then Err SSH_ERR_MESSAGE_INCOMPLETE
  else Ok (ztake n l, zdrop n l).
Definition rd_be (n : Z) : reader Z := fun l =>
  match rd_bytes n l with
  | Ok (v, l') => Ok (be_value v, l')
  | Err e => Err e
  end.

(** The largest string a buffer of SSHBUF_SIZE_MAX bytes can hold. *)
Definition WIRE_STRING_MAX : Z := 0x8000000 - 4.

Definition rd_string : reader bytes := fun l =>
  match rd_be 4 l with
  | Err e => Err e
  | Ok (n, l') =>
      if WIRE_STRING_MAX <? n then Err SSH_ERR_STRING_TOO_LARGE
      else rd_bytes n l'
  end.

(** A string with no NUL except possibly its last byte. *)
Definition cstring_ok (v : bytes) : bool :=
  forallb (fun c => negb (c =? 0)) (ztake (zlen v - 1) v).

Definition rd_cstring : reader bytes := fun l =>
  match rd_string l with
  | Err e => Err e
  | Ok (v, l') => if cstring_ok v then Ok (v, l') else Err SSH_ERR_INVALID_FORMAT
  end.

(** The loop that trims leading zero bytes. *)
Fixpoint trim_zeros (s : bytes) : bytes :=
  match s with
  | 0 :: s => trim_zeros s
  | _ => s
  end.

Definition SSHBUF_MAX_BIGNUM : Z := 16384 / 8.

(** A non-negative multiple-precision integer of at most [SSHBUF_MAX_BIGNUM]
    significant bytes. *)
Definition rd_bignum2 : reader bytes := fun l =>
  match rd_string l with
  | Err e => Err e
  | Ok (v, l') =>
      if negb (zlen v =? 0) && negb (Z.land (byte_at v 0) 0x80 =? 0)
      then Err SSH_ERR_BIGNUM_IS_NEGATIVE
      else if (SSHBUF_MAX_BIGNUM + 1 <? zlen v) ||
              ((zlen v =? SSHBUF_MAX_BIGNUM + 1) && negb (byte_at v 0 =? 0))
      then Err SSH_ERR_BIGNUM_TOO_LARGE
      else Ok (trim_zeros v, l')
  end.

Definition rd_ret {A} (a : A) : reader A := fun l => Ok (a, l).
Definition rd_fail {A} (e : Z) : reader A := fun l => Err e.
Definition rd_bind {A B} (m : reader A) (k : A -> reader B) : reader B := fun l =>
  match m l with
  | Err e => Err e
  | Ok (a, l') => k a l'
  end.

Definition wr_string (v : bytes) : bytes := be_bytes 4 (zlen v) ++ v.

(** Most significant byte first, without leading zeros, with a zero byte in
    front when the top bit is set. *)
Definition bignum2_body (v : bytes) : bytes :=
  let s := trim_zeros v in
  if (0 <? zlen s) && negb (Z.land (byte_at s 0) 0x80 =? 0) then 0 :: s else s.
Definition wr_bignum2 (v : bytes) : bytes := wr_string (bignum2_body v).

(** ** Lemmas: reference encodings *)

Lemma le_value_app l k : le_value (l ++ k) = le_value l + 256 ^ zlen l * le_value k.
Proof.
  induction l as [|b l IH]; simpl.
  - rewrite (@zlen_nil Z). lia.
  - rewrite IH, zlen_cons, Z.pow_add_r by zl. lia.
Qed.

Lemma le_value_range l : Bytes l -> 0 <= le_value l < 256 ^ zlen l.
Proof.
  induction 1 as [|b l Hb Hl IH]; simpl; [done|].
  rewrite zlen_cons, Z.pow_add_r by zl. unfold in_range in Hb. lia.
Qed.

Lemma le_bytes_length n v : length (le_bytes n v) = n.
Proof. revert v; induction n; intros; simpl; auto. Qed.

Lemma le_bytes_Bytes n v : Bytes (le_bytes n v).
Proof.
  revert v; induction n; intros; simpl; constructor; auto.
  unfold in_range. change (2 ^ 8) with 256. apply Z.mod_pos_bound; lia.
Qed.

Lemma le_value_bytes n v : le_value (le_bytes n v) = v mod 256 ^ Z.of_nat n.
Proof.
  revert v; induction n as [|n IH]; intros v; simpl le_bytes; simpl le_value.
  - by rewrite Z.mod_1_r.
  - rewrite IH, Nat2Z.inj_succ, Z.pow_succ_r by lia.
    rewrite Z.rem_mul_r by lia. lia.
Qed.

Lemma le_bytes_value l : Bytes l -> le_bytes (length l) (le_value l) = l.
Proof.
  induction 1 as [|b l Hb Hl IH]; simpl; [done|]. unfold in_range in Hb.
  assert (b mod 256 = b) by (apply Z.mod_small; lia).
  rewrite (Z.mul_comm 256). f_equal.
  - by rewrite Z.mod_add by lia.
  - rewrite Z.div_add, Z.div_small by lia. by rewrite Z.add_0_l.
Qed.

Lemma be_value_fold l acc :
  fold_left (fun acc b => acc * 256 + b) l acc = acc * 256 ^ zlen l + be_value l.
Proof.
  unfold be_value. revert acc. induction l as [|b l IH]; intros acc; simpl.
  - rewrite (@zlen_nil Z). lia.
  - rewrite (IH (acc * 256 + b)), (IH (0 * 256 + b)), zlen_cons, Z.pow_add_r by zl. lia.
Qed.

Lemma be_value_cons b l : be_value (b :: l) = b * 256 ^ zlen l + be_value l.
Proof. unfold be_value at 1; simpl. by rewrite be_value_fold. Qed.

Lemma be_value_rev l : be_value (rev l) = le_value l.
Proof.
  unfold be_value. rewrite <- fold_left_rev_right, rev_involutive.
  induction l as [|b l IH]; simpl; [done|]. rewrite IH. lia.
Qed.

Lemma be_value_le l : be_value l = le_value (rev l).
Proof. by rewrite <- (rev_involutive l) at 1; rewrite be_value_rev. Qed.

Lemma be_bytes_zlen n v : zlen (be_bytes n v) = Z.of_nat n.
Proof. unfold zlen, be_bytes. by rewrite length_rev, le_bytes_length. Qed.

Lemma be_bytes_Bytes n v : Bytes (be_bytes n v).
Proof. unfold be_bytes. apply Forall_rev, le_bytes_Bytes. Qed.

Lemma be_value_bytes n v : be_value (be_bytes n v) = v mod 256 ^ Z.of_nat n.
Proof. unfold be_bytes. by rewrite be_value_rev, le_value_bytes. Qed.

Lemma be_bytes_value l : Bytes l -> be_bytes (length l) (be_value l) = l.
Proof.
  intros. unfold be_bytes. rewrite be_value_le, <- length_rev, le_bytes_value.
  - apply rev_involutive.
  - by apply Forall_rev.
Qed.

Lemma be_value_range l : Bytes l -> 0 <= be_value l < 256 ^ zlen l.
Proof.
  intros. rewrite be_value_le. unfold zlen. rewrite <- length_rev.
  by apply le_value_range, Forall_rev.
Qed.

(** ** Lemmas: the macros compute the reference encodings *)

Lemma lor_add_shift x y n :
  0 <= n -> x mod 2 ^ n = 0 -> 0 <= y < 2 ^ n -> Z.lor x y = x + y.
Proof.
  intros Hn Hx Hy. pose proof (Z.div_mod x (2 ^ n) ltac:(lia)) as E.
  rewrite Hx, Z.add_0_r, Z.mul_comm in E. rewrite E at 1.
  rewrite <- Z.shiftl_mul_pow2 by done. rewrite lor_shiftl_add by done. lia.
Qed.

Lemma land_255 x : Z.land x 255 = x mod 256.
Proof. exact (land_ones_mod x 8 ltac:(lia)). Qed.

(** [lor_sum]: a chain of [Z.lor]s of shifted bytes is a sum. *)
Ltac lor_sum :=
  rewrite ?Z.shiftl_mul_pow2 by lia;
  repeat match goal with
  | |- context [Z.lor ?x ?y] =>
      first
      [ rewrite (lor_add_shift x y 56) by (Z.div_mod_to_equations; lia)
      | rewrite (lor_add_shift x y 48) by (Z.div_mod_to_equations; lia)
      | rewrite (lor_add_shift x y 40) by (Z.div_mod_to_equations; lia)
      | rewrite (lor_add_shift x y 32) by (Z.div_mod_to_equations; lia)
      | rewrite (lor_add_shift x y 24) by (Z.div_mod_to_equations; lia)
      | rewrite (lor_add_shift x y 16) by (Z.div_mod_to_equations; lia)
      | rewrite (lor_add_shift x y 8) by (Z.div_mod_to_equations; lia) ]
  end.

Ltac bytes_inv :=
  repeat match goal with
  | H : Forall _ (_ :: _) |- _ => apply Forall_cons in H; destruct H
  | H : in_range 8 _ |- _ => unfold in_range in H
  end; change (2 ^ 8) with 256 in *.

Lemma PEEK_U16_be p : Bytes p -> 2 <= zlen p -> PEEK_U16 p = be_value (ztake 2 p).
Proof.
  intros HB HL. destruct p as [|a [|b p]]; try zl. bytes_inv.
  unfold PEEK_U16, be_value, byte_at; simpl. lor_sum. lia.
Qed.

Lemma PEEK_U32_be p : Bytes p -> 4 <= zlen p -> PEEK_U32 p = be_value (ztake 4 p).
Proof.
  intros HB HL. destruct p as [|a [|b [|c [|d p]]]]; try zl. bytes_inv.
  unfold PEEK_U32, be_value, byte_at; simpl. lor_sum. lia.
Qed.

Lemma PEEK_U64_be p : Bytes p -> 8 <= zlen p -> PEEK_U64 p = be_value (ztake 8 p).
Proof.
  intros HB HL.
  destruct p as [|a [|b [|c [|d [|e [|f [|g [|h p]]]]]]]]; try zl. bytes_inv.
  unfold PEEK_U64, be_value, byte_at; simpl. lor_sum. lia.
Qed.

Lemma U8TO32_LE_le p : Bytes p -> 4 <= zlen p -> U8TO32_LE p = le_value (ztake 4 p).
Proof.
  intros HB HL. destruct p as [|a [|b [|c [|d p]]]]; try zl. bytes_inv.
  unfold U8TO32_LE, byte_at; simpl.
  rewrite (Z.lor_comm a), !(Z.lor_comm _ (Z.shiftl _ 16)), (Z.lor_comm _ (Z.shiftl _ 24)).
  lor_sum. lia.
Qed.

Lemma shiftr_land_255 v n :
  0 <= n -> Z.land (Z.shiftr v n) 255 = (v / 2 ^ n) mod 256.
Proof. intros. by rewrite land_255, Z.shiftr_div_pow2 by done. Qed.

Lemma POKE_U64_be v : POKE_U64 v = be_bytes 8 (u64 v).
Proof.
  unfold POKE_U64, be_bytes. rewrite !shiftr_land_255, land_255 by lia.
  simpl. by rewrite !Z.div_div by lia.
Qed.

Lemma POKE_U32_be v : POKE_U32 v = be_bytes 4 (u32 v).
Proof.
  unfold POKE_U32, be_bytes. rewrite !shiftr_land_255, land_255 by lia.
  simpl. by rewrite !Z.div_div by lia.
Qed.

Lemma POKE_U16_be v : POKE_U16 v = be_bytes 2 (u16 v).
Proof.
  unfold POKE_U16, be_bytes. rewrite !shiftr_land_255, land_255 by lia. done.
Qed.

Lemma U32TO8_LE_le v : U32TO8_LE v = le_bytes 4 v.
Proof.
  unfold U32TO8_LE, wrap. rewrite !Z.shiftr_div_pow2 by lia. simpl.
  by rewrite !Z.div_div by lia.
Qed.

Lemma be_value_be_bytes n v :
  0 <= v < 256 ^ Z.of_nat n -> be_value (be_bytes n v) = v.
Proof. intros. rewrite be_value_bytes. by apply Z.mod_small. Qed.

(** ** Lemmas: reading back what was written *)

Lemma rd_bytes_app v l : rd_bytes (zlen v) (v ++ l) = Ok (v, l).
Proof.
  unfold rd_bytes. rewrite zlen_app. pose proof (zlen_nonneg l).
  destruct (Z.ltb_spec (zlen v + zlen l) (zlen v)); [lia|].
  by rewrite ztake_app, zdrop_app by done.
Qed.

Lemma rd_be_app n v l :
  0 <= v < 256 ^ Z.of_nat n ->
  rd_be (Z.of_nat n) (be_bytes n v ++ l) = Ok (v, l).
Proof.
  intros. unfold rd_be. rewrite <- (be_bytes_zlen n v), rd_bytes_app.
  by rewrite be_value_be_bytes by done.
Qed.

Lemma rd_string_app v l :
  zlen v <= WIRE_STRING_MAX -> rd_string (wr_string v ++ l) = Ok (v, l).
Proof.
  intros. unfold rd_string, wr_string. rewrite <- (assoc_L (++)).
  unfold WIRE_STRING_MAX in *. pose proof (zlen_nonneg v).
  change 4 with (Z.of_nat 4). rewrite rd_be_app by (simpl Z.of_nat; lia).
  destruct (Z.ltb_spec (0x8000000 - Z.of_nat 4) (zlen v)); [simpl Z.of_nat in *; lia|].
  by rewrite rd_bytes_app.
Qed.

Lemma wr_string_zlen v : zlen (wr_string v) = 4 + zlen v.
Proof. unfold wr_string. rewrite zlen_app, be_bytes_zlen. lia. Qed.

Lemma rd_string_reads l : Bytes l ->
  match rd_string l with Ok (v, r) => l = wr_string v ++ r | Err e => e < 0 end.
Proof.
  intros HBl. unfold rd_string, rd_be, rd_bytes at 1. destruct (Z.ltb_spec (zlen l) 4); [done|].
  set (n := be_value (ztake 4 l)). destruct (Z.ltb_spec WIRE_STRING_MAX n); [done|].
  unfold rd_bytes. destruct (Z.ltb_spec (zlen (zdrop 4 l)) n); [done|].
  assert (Bytes (ztake 4 l)) as HB4 by auto with ssh.
  pose proof (be_value_range _ HB4). fold n in H2.
  unfold wr_string. rewrite zlen_ztake by lia.
  assert (be_bytes 4 n = ztake 4 l) as ->.
  { unfold n. rewrite <- (be_bytes_value (ztake 4 l)) at 2 by done.
    f_equal. unfold ztake. rewrite length_take. unfold zlen in *. lia. }
  by rewrite <- (assoc_L (++)), !ztake_zdrop.
Qed.
