(* ===== verification/Sshbuf.v ===== *)
(** The buffer of sshbuf.c: one [struct sshbuf] and every operation of
    sshbuf.c that works on a single buffer.  Reference-counted parents and
    children, which need a store of buffers, are in SshbufHeap.v; the readers
    and writers of sshbuf-getput-basic.c are in SshbufGetput.v.

    A pointer is an [option positive] ([None] is NULL); the bytes of the
    object [cd] points to are the field [b_mem].  The allocator is a parameter:
    it answers a request of n bytes with failure or with an address and the
    unspecified initial bytes of the new object. *)

From S2P Require Import Prelude Wire.

(** ** Data *)

Definition SSHBUF_SIZE_MAX : Z := 0x8000000.
Definition SSHBUF_REFS_MAX : Z := 0x100000.
Definition SSHBUF_SIZE_INIT : Z := 256.
Definition SSHBUF_SIZE_INC : Z := 256.
Definition SSHBUF_PACK_MIN : Z := 8192.

Record sshbuf : Type := mk_sshbuf {
  b_d : option positive;
  b_cd : option positive;
  b_off : Z;
  b_size : Z;
  b_max_size : Z;
  b_alloc : Z;
  b_readonly : bool;
  b_dont_free : bool;
  b_refcount : Z;
  b_parent : option nat;
  b_mem : bytes
}.

Definition allocator : Type := Z -> option (positive * (Z -> Z)).

Definition set_off (v : Z) (b : sshbuf) : sshbuf :=
  mk_sshbuf (b_d b) (b_cd b) v (b_size b) (b_max_size b) (b_alloc b) (b_readonly b)
    (b_dont_free b) (b_refcount b) (b_parent b) (b_mem b).
Definition set_size (v : Z) (b : sshbuf) : sshbuf :=
  mk_sshbuf (b_d b) (b_cd b) (b_off b) v (b_max_size b) (b_alloc b) (b_readonly b)
    (b_dont_free b) (b_refcount b) (b_parent b) (b_mem b).
Definition set_max (v : Z) (b : sshbuf) : sshbuf :=
  mk_sshbuf (b_d b) (b_cd b) (b_off b) (b_size b) v (b_alloc b) (b_readonly b)
    (b_dont_free b) (b_refcount b) (b_parent b) (b_mem b).
Definition set_refcount (v : Z) (b : sshbuf) : sshbuf :=
  mk_sshbuf (b_d b) (b_cd b) (b_off b) (b_size b) (b_max_size b) (b_alloc b) (b_readonly b)
    (b_dont_free b) v (b_parent b) (b_mem b).
Definition set_parent (v : option nat) (b : sshbuf) : sshbuf :=
  mk_sshbuf (b_d b) (b_cd b) (b_off b) (b_size b) (b_max_size b) (b_alloc b) (b_readonly b)
    (b_dont_free b) (b_refcount b) v (b_mem b).
Definition set_mem (v : bytes) (b : sshbuf) : sshbuf :=
  mk_sshbuf (b_d b) (b_cd b) (b_off b) (b_size b) (b_max_size b) (b_alloc b) (b_readonly b)
    (b_dont_free b) (b_refcount b) (b_parent b) v.
(** [buf->cd = buf->d = p; buf->alloc = n]. *)
Definition set_object (p : positive) (n : Z) (v : bytes) (b : sshbuf) : sshbuf :=
  mk_sshbuf (Some p) (Some p) (b_off b) (b_size b) (b_max_size b) n (b_readonly b)
    (b_dont_free b) (b_refcount b) (b_parent b) v.

(** [realloc]: the old bytes up to the new size, then unspecified bytes. *)
Definition realloc_mem (n : Z) (junk : Z -> Z) (m : bytes) : bytes :=
  ztake n m ++ ((fun i => u8 (junk i)) <$> seqZ (zlen m) (n - zlen m)).

Definition roundup (x y : Z) : Z := u64 (u64 (x + (y - 1)) / y * y).

(** ** Operations *)

(** A failed check is reported as [SSH_ERR_INTERNAL_ERROR]; the [raise] of
    SIGSEGV before it is not modelled. *)
Definition sshbuf_check_sanity (b : sshbuf) : result unit :=
  if (negb (b_readonly b) && negb (bool_decide (b_d b = b_cd b))) ||
     (b_refcount b <? 1) || (SSHBUF_REFS_MAX <? b_refcount b) ||
     bool_decide (b_cd b = None) ||
     (b_dont_free b && (b_readonly b || negb (bool_decide (b_parent b = None)))) ||
     (SSHBUF_SIZE_MAX <? b_max_size b) ||
     (b_max_size b <? b_alloc b) ||
     (b_alloc b <? b_size b) ||
     (b_size b <? b_off b)
  then Err SSH_ERR_INTERNAL_ERROR
  else Ok tt.

Definition sshbuf_maybe_pack (force : bool) (b : sshbuf) : sshbuf :=
  if (b_off b =? 0) || b_readonly b || (1 <? b_refcount b) then b
  else if force ||
          ((SSHBUF_PACK_MIN <=? b_off b) && (b_size b / 2 <=? b_off b)) then
    let n := u64 (b_size b - b_off b) in
    set_off 0 (set_size n
      (set_mem (write_at 0 (ztake n (zdrop (b_off b) (b_mem b))) (b_mem b)) b))
  else b.

(** [sizeof(struct sshbuf)] on a 64-bit machine. *)
Definition SIZEOF_SSHBUF : Z := 72.

(** The first allocation is the struct itself, the second its data. *)
Definition sshbuf_new (A : allocator) : option sshbuf :=
  match A SIZEOF_SSHBUF with
  | None => None
  | Some _ =>
      match A SSHBUF_SIZE_INIT with
      | None => None
      | Some (p, _) =>
          Some (mk_sshbuf (Some p) (Some p) 0 0 SSHBUF_SIZE_MAX SSHBUF_SIZE_INIT
                  false false 1 None (zrep SSHBUF_SIZE_INIT 0))
      end
  end.

(** [blob] is a pointer, NULL or [p] to the bytes [l], of which the first [len]
    are used. *)
Definition sshbuf_from (A : allocator) (blob : option (positive * bytes)) (len : Z)
    : option sshbuf :=
  match blob with
  | None => None
  | Some (p, l) =>
      if SSHBUF_SIZE_MAX <? len then None
      else match A SIZEOF_SSHBUF with
           | None => None
           | Some _ =>
               Some (mk_sshbuf None (Some p) 0 len len len true false 1 None (ztake len l))
           end
  end.

Definition sshbuf_init (A : allocator) : sshbuf :=
  match A SSHBUF_SIZE_INIT with
  | None => mk_sshbuf None None 0 0 SSHBUF_SIZE_MAX 0 false true 1 None []
  | Some (p, _) =>
      mk_sshbuf (Some p) (Some p) 0 0 SSHBUF_SIZE_MAX SSHBUF_SIZE_INIT
        false true 1 None (zrep SSHBUF_SIZE_INIT 0)
  end.

Definition sshbuf_reset (A : allocator) (b : sshbuf) : sshbuf :=
  if b_readonly b || (1 <? b_refcount b) then set_off (b_size b) b
  else
    let b := match sshbuf_check_sanity b with
             | Ok _ => set_mem (zrep (b_alloc b) 0) b
             | Err _ => b
             end in
    let b := set_off 0 (set_size 0 b) in
    if negb (b_alloc b =? SSHBUF_SIZE_INIT) then
      match A SSHBUF_SIZE_INIT with
      | Some (p, junk) =>
          set_object p SSHBUF_SIZE_INIT (realloc_mem SSHBUF_SIZE_INIT junk (b_mem b)) b
      | None => b
      end
    else b.

Definition sshbuf_set_max_size (A : allocator) (max : Z) : M sshbuf unit :=
  let! b := get_state in
  lift (sshbuf_check_sanity b) ;;;
  if max =? b_max_size b then ret tt
  else if b_readonly b || (1 <? b_refcount b) then fail SSH_ERR_BUFFER_READ_ONLY
  else if SSHBUF_SIZE_MAX <? max then fail SSH_ERR_NO_BUFFER_SPACE
  else
    let b := sshbuf_maybe_pack (max <? b_size b) b in
    put_state b ;;;
    (if (max <? b_alloc b) && (b_size b <? max) then
       let rlen := if b_size b <? SSHBUF_SIZE_INIT then SSHBUF_SIZE_INIT
                   else roundup (b_size b) SSHBUF_SIZE_INC in
       let rlen := if max <? rlen then max else rlen in
       let b := set_mem (write_at (b_size b) (zrep (u64 (b_alloc b - b_size b)) 0) (b_mem b)) b in
       put_state b ;;;
       match A rlen with
       | None => fail SSH_ERR_ALLOC_FAIL
       | Some (p, junk) => put_state (set_object p rlen (realloc_mem rlen junk (b_mem b)) b)
       end
     else ret tt) ;;;
    let! b := get_state in
    if max <? b_alloc b then fail SSH_ERR_NO_BUFFER_SPACE
    else put_state (set_max max b).

Definition sshbuf_len (b : sshbuf) : Z :=
  match sshbuf_check_sanity b with
  | Err _ => 0
  | Ok _ => u64 (b_size b - b_off b)
  end.

Definition sshbuf_avail (b : sshbuf) : Z :=
  if negb (is_ok (sshbuf_check_sanity b)) || b_readonly b || (1 <? b_refcount b) then 0
  else u64 (b_max_size b - u64 (b_size b - b_off b)).

(** [buf->cd + buf->off], as the bytes from there to the end of the object. *)
Definition sshbuf_ptr (b : sshbuf) : option bytes :=
  match sshbuf_check_sanity b with
  | Err _ => None
  | Ok _ => Some (zdrop (b_off b) (b_mem b))
  end.

(** [buf->d + buf->off], as an index into the object. *)
Definition sshbuf_mutable_ptr (b : sshbuf) : option Z :=
  if negb (is_ok (sshbuf_check_sanity b)) || b_readonly b || (1 <? b_refcount b) then None
  else Some (b_off b).

Definition sshbuf_check_reserve (len : Z) (b : sshbuf) : result unit :=
  match sshbuf_check_sanity b with
  | Err r => Err r
  | Ok _ =>
      if b_readonly b || (1 <? b_refcount b) then Err SSH_ERR_BUFFER_READ_ONLY
      else if (b_max_size b <? len) ||
              (u64 (b_max_size b - len) <? u64 (b_size b - b_off b))
      then Err SSH_ERR_NO_BUFFER_SPACE
      else Ok tt
  end.

Definition sshbuf_allocate (A : allocator) (len : Z) : M sshbuf unit :=
  let! b := get_state in
  lift (sshbuf_check_reserve len b) ;;;
  let b := sshbuf_maybe_pack (b_max_size b <? u64 (b_size b + len)) b in
  put_state b ;;;
  if u64 (len + b_size b) <=? b_alloc b then ret tt
  else
    let need := u64 (u64 (len + b_size b) - b_alloc b) in
    let rlen := roundup (u64 (b_alloc b + need)) SSHBUF_SIZE_INC in
    let rlen := if b_max_size b <? rlen then u64 (b_alloc b + need) else rlen in
    match A rlen with
    | None => fail SSH_ERR_ALLOC_FAIL
    | Some (p, junk) =>
        let b := set_object p rlen (realloc_mem rlen junk (b_mem b)) b in
        put_state b ;;;
        lift (sshbuf_check_reserve len b)
    end.

(** The result is the index in the object at which [len] bytes were reserved. *)
Definition sshbuf_reserve (A : allocator) (len : Z) : M sshbuf Z :=
  sshbuf_allocate A len ;;;
  let! b := get_state in
  put_state (set_size (u64 (b_size b + len)) b) ;;;
  ret (b_size b).

Definition sshbuf_consume (len : Z) : M sshbuf unit :=
  let! b := get_state in
  lift (sshbuf_check_sanity b) ;;;
  if len =? 0 then ret tt
  else if sshbuf_len b <? len then fail SSH_ERR_MESSAGE_INCOMPLETE
  else put_state (set_off (u64 (b_off b + len)) b).

Definition sshbuf_consume_end (len : Z) : M sshbuf unit :=
  let! b := get_state in
  lift (sshbuf_check_sanity b) ;;;
  if len =? 0 then ret tt
  else if sshbuf_len b <? len then fail SSH_ERR_MESSAGE_INCOMPLETE
  else put_state (set_size (u64 (b_size b - len)) b).

(** ** Abstraction and invariant *)

(** The bytes between the read and the write pointer. *)
Definition contents (b : sshbuf) : bytes :=
  ztake (b_size b - b_off b) (zdrop (b_off b) (b_mem b)).

(** What every operation keeps. *)
Record wf (b : sshbuf) : Prop := {
  wf_sane : sshbuf_check_sanity b = Ok tt;
  wf_off : 0 <= b_off b <= b_size b;
  wf_size : b_size b <= b_alloc b;
  wf_alloc : b_alloc b <= b_max_size b;
  wf_max : b_max_size b <= SSHBUF_SIZE_MAX;
  wf_mem : zlen (b_mem b) = b_alloc b;
  wf_bytes : Bytes (b_mem b)
}.

(** A buffer that may be changed: not read-only and without children. *)
Definition writable (b : sshbuf) : bool :=
  negb (b_readonly b) && negb (1 <? b_refcount b).

(** ** Lemmas: sanity and the invariant *)

Lemma sane_iff b :
  sshbuf_check_sanity b = Ok tt <->
  (b_readonly b = true \/ b_d b = b_cd b) /\
  1 <= b_refcount b <= SSHBUF_REFS_MAX /\ b_cd b <> None /\
  (b_dont_free b = true -> b_readonly b = false /\ b_parent b = None) /\
  b_max_size b <= SSHBUF_SIZE_MAX /\ b_alloc b <= b_max_size b /\
  b_size b <= b_alloc b /\ b_off b <= b_size b.
Proof.
  unfold sshbuf_check_sanity.
  set (cond := _ || (b_size b <? b_off b)).
  transitivity (cond = false); [destruct cond; split; congruence|]. unfold cond.
  rewrite !orb_false_iff, !andb_false_iff, orb_false_iff, !negb_false_iff,
    !Z.ltb_ge, !bool_decide_eq_true, bool_decide_eq_false.
  destruct (b_readonly b), (b_dont_free b); intuition (congruence || lia).
Qed.

(** The part of a buffer that only [sshbuf_set_max_size] and the reference
    counting change. *)
Definition same_frame (b b' : sshbuf) : Prop :=
  b_max_size b' = b_max_size b /\ b_readonly b' = b_readonly b /\
  b_dont_free b' = b_dont_free b /\ b_refcount b' = b_refcount b /\
  b_parent b' = b_parent b.

Lemma same_frame_refl b : same_frame b b.
Proof. done. Qed.
Lemma same_frame_trans a b c : same_frame a b -> same_frame b c -> same_frame a c.
Proof. unfold same_frame; intuition congruence. Qed.
Lemma same_frame_writable b b' : same_frame b b' -> writable b' = writable b.
Proof. unfold writable. by intros (_ & -> & _ & -> & _). Qed.
#[export] Hint Resolve same_frame_refl : ssh.
#[export] Hint Extern 1 (same_frame _ _) => unfold same_frame; simpl; tauto : ssh.

Lemma wf_intro b b' :
  wf b -> same_frame b b' ->
  b_readonly b = true \/ b_d b' = b_cd b' -> b_cd b' <> None ->
  0 <= b_off b' <= b_size b' -> b_size b' <= b_alloc b' -> b_alloc b' <= b_max_size b ->
  zlen (b_mem b') = b_alloc b' -> Bytes (b_mem b') -> wf b'.
Proof.
  intros Hwf (E1 & E2 & E3 & E4 & E5) Hd Hc Ho Hs Ha Hm HB.
  pose proof (proj1 (sane_iff b) (wf_sane _ Hwf)) as (S1&S2&S3&S4&S5&_).
  pose proof (wf_max _ Hwf). constructor; rewrite ?E1; try done.
  apply sane_iff. rewrite E1, E2, E3, E4, E5. repeat split; try tauto; lia.
Qed.

Lemma wf_ptr_facts b :
  wf b -> (b_readonly b = true \/ b_d b = b_cd b) /\ b_cd b <> None.
Proof. intros H. pose proof (proj1 (sane_iff b) (wf_sane _ H)). tauto. Qed.

Lemma wf_ranges b :
  wf b -> 0 <= b_off b <= b_size b /\ b_size b <= b_alloc b <= b_max_size b /\
  b_max_size b <= 134217728 /\ zlen (b_mem b) = b_alloc b.
Proof. intros [? ? ? ? H ? ?]. unfold SSHBUF_SIZE_MAX in H. lia. Qed.

(** [wf_unpack H]: the ranges of the fields, for [lia]. *)
Ltac wf_unpack H :=
  let R := fresh "R" in pose proof (wf_ranges _ H) as R;
  destruct R as (? & ? & ? & ?).

(** Removes the wrap-arounds whose argument is in range. *)
Ltac unwrap :=
  repeat match goal with
  | |- context [wrap ?w ?x] => rewrite (wrap_small w x) by (zl_nonneg; lia)
  end.

Lemma contents_zlen b : wf b -> zlen (contents b) = b_size b - b_off b.
Proof. intros H. wf_unpack H. unfold contents. zl. Qed.

Lemma contents_Bytes b : wf b -> Bytes (contents b).
Proof. intros H. unfold contents. pose proof (wf_bytes _ H). eauto with ssh. Qed.
#[export] Hint Resolve contents_Bytes : ssh.

Lemma sshbuf_len_contents b : wf b -> sshbuf_len b = zlen (contents b).
Proof.
  intros H. rewrite contents_zlen by done. wf_unpack H.
  unfold sshbuf_len. rewrite (wf_sane _ H). by unwrap.
Qed.

(** ** Lemmas: packing and reserving *)

Lemma sshbuf_maybe_pack_spec force b :
  wf b ->
  let b' := sshbuf_maybe_pack force b in
  wf b' /\ same_frame b b' /\ contents b' = contents b /\
  b_alloc b' = b_alloc b /\ b_cd b' = b_cd b /\ b_size b' <= b_size b /\
  b_size b' - b_off b' = b_size b - b_off b /\
  (force = true -> writable b = true -> b_off b' = 0).
Proof.
  intros Hwf b'. wf_unpack Hwf.
  subst b'. unfold sshbuf_maybe_pack.
  destruct (Z.eqb_spec (b_off b) 0) as [E|E]; simpl.
  { split_and!; auto with ssh; done || lia. }
  destruct (b_readonly b || (1 <? b_refcount b)) eqn:W.
  { split_and!; auto with ssh; try (done || lia).
    intros _. unfold writable. destruct (b_readonly b); simpl in *; [done|].
    by rewrite W. }
  destruct (force || _) eqn:F.
  2: { split_and!; auto with ssh; try (done || lia). intros ->. done. }
  unwrap. set (n := b_size b - b_off b).
  assert (Hn : zlen (ztake n (zdrop (b_off b) (b_mem b))) = n) by (unfold n; zl).
  assert (Hw : wf (set_off 0 (set_size n (set_mem
     (write_at 0 (ztake n (zdrop (b_off b) (b_mem b))) (b_mem b)) b)))).
  { pose proof (wf_ptr_facts _ Hwf). pose proof (wf_bytes _ Hwf).
    apply (wf_intro b); simpl; try tauto; try (unfold n; lia); auto with ssh.
    rewrite zlen_write_at; unfold n in *; lia. }
  split_and!; auto with ssh; simpl; try (unfold n; lia).
  unfold contents; simpl. unfold write_at. rewrite Z.sub_0_r, ztake_0, zdrop_0.
  simpl. by rewrite ztake_app.
Qed.

Lemma zlen_realloc_mem n junk m : 0 <= n -> zlen (realloc_mem n junk m) = n.
Proof.
  intros. unfold realloc_mem. zl.
Qed.

Lemma Bytes_realloc_mem n junk m : Bytes m -> Bytes (realloc_mem n junk m).
Proof.
  intros. unfold realloc_mem. apply Forall_app; split; [auto with ssh|].
  apply Forall_fmap, Forall_true. intros. apply wrap_range. lia.
Qed.
#[export] Hint Resolve Bytes_realloc_mem : ssh.

(** A buffer moved to a larger object keeps its contents. *)
Lemma set_object_grow p n junk b :
  wf b -> writable b = true -> b_size b <= n <= b_max_size b ->
  let b' := set_object p n (realloc_mem n junk (b_mem b)) b in
  wf b' /\ same_frame b b' /\ contents b' = contents b.
Proof.
  intros Hwf W Hn b'. wf_unpack Hwf. pose proof (wf_bytes _ Hwf).
  pose proof (zlen_realloc_mem n junk (b_mem b)).
  assert (wf b').
  { apply (wf_intro b); simpl; auto with ssh; try done; try lia. }
  split_and!; auto with ssh. unfold contents; simpl. unfold realloc_mem.
  rewrite zdrop_app_le by zl. rewrite zdrop_ztake, ztake_app_le by zl.
  rewrite ztake_ztake. f_equal. lia.
Qed.

Lemma writable_true b :
  writable b = true -> b_readonly b = false /\ b_refcount b <= 1.
Proof. unfold writable. rewrite andb_true_iff, !negb_true_iff, Z.ltb_ge. tauto. Qed.

Lemma writable_test b :
  b_readonly b || (1 <? b_refcount b) = negb (writable b).
Proof. unfold writable. by rewrite negb_andb, !negb_involutive. Qed.

Lemma sshbuf_check_reserve_spec len b :
  wf b -> 0 <= len ->
  sshbuf_check_reserve len b =
    if negb (writable b) then Err SSH_ERR_BUFFER_READ_ONLY
    else if b_max_size b <? zlen (contents b) + len then Err SSH_ERR_NO_BUFFER_SPACE
    else Ok tt.
Proof.
  intros Hwf Hlen. wf_unpack Hwf. unfold sshbuf_check_reserve.
  rewrite (wf_sane _ Hwf), writable_test, contents_zlen by done.
  destruct (negb (writable b)); [done|].
  destruct (Z.ltb_spec (b_max_size b) len); simpl.
  - destruct (Z.ltb_spec (b_max_size b) (b_size b - b_off b + len)); [done|lia].
  - unwrap. destruct (Z.ltb_spec (b_max_size b - len) (b_size b - b_off b)),
      (Z.ltb_spec (b_max_size b) (b_size b - b_off b + len)); done || lia.
Qed.

Lemma roundup_bounds x :
  0 <= x < 2 ^ 32 -> x <= roundup x SSHBUF_SIZE_INC < x + 256.
Proof.
  intros. unfold roundup, SSHBUF_SIZE_INC.
  assert (0 <= (x + (256 - 1)) / 256 * 256 < 2 ^ 33) by (Z.div_mod_to_equations; lia).
  unwrap. Z.div_mod_to_equations; lia.
Qed.

(** [sshbuf_allocate]: on success there is room for [len] more bytes behind
    the contents; on every outcome the contents and the frame are kept. *)
Lemma sshbuf_allocate_spec A len b :
  wf b -> 0 <= len ->
  let '(r, b') := sshbuf_allocate A len b in
  wf b' /\ same_frame b b' /\ contents b' = contents b /\
  match r with
  | Ok _ => sshbuf_check_reserve len b = Ok tt /\ b_size b' + len <= b_alloc b'
  | Err e => sshbuf_check_reserve len b = Err e \/
             (e = SSH_ERR_ALLOC_FAIL /\ exists n, A n = None)
  end.
Proof.
  intros Hwf Hlen. unfold sshbuf_allocate, bind, get_state, lift, put_state, ret, fail.
  destruct (sshbuf_check_reserve len b) as [[]|e] eqn:E; [|by auto with ssh].
  rewrite sshbuf_check_reserve_spec in E by done.
  destruct (writable b) eqn:W; [simpl in E|done].
  destruct (Z.ltb_spec (b_max_size b) (zlen (contents b) + len)) as [|Hfit]; [done|clear E].
  pose proof (sshbuf_maybe_pack_spec (b_max_size b <? u64 (b_size b + len)) b Hwf) as P.
  set (b1 := sshbuf_maybe_pack _ b) in *. destruct P as (Hwf1&F1&C1&A1&_&S1&D1&O1).
  pose proof Hwf as Hwf0. wf_unpack Hwf0. wf_unpack Hwf1.
  rewrite contents_zlen in Hfit by done. pose proof F1 as (Fm&_).
  assert (Hs : b_size b1 + len <= b_max_size b).
  { rewrite wrap_small in O1 by lia.
    destruct (Z.ltb_spec (b_max_size b) (b_size b + len)); [|lia].
    specialize (O1 eq_refl W). lia. }
  unwrap. destruct (Z.leb_spec (len + b_size b1) (b_alloc b1)) as [Hle|Hgt].
  { split_and!; auto. lia. }
  unwrap. replace (b_alloc b1 + (len + b_size b1 - b_alloc b1)) with (len + b_size b1) by lia.
  pose proof (roundup_bounds (len + b_size b1) ltac:(lia)) as Hr.
  set (rlen := if _ <? _ then _ else _).
  assert (Hrl : len + b_size b1 <= rlen <= b_max_size b1).
  { unfold rlen. destruct (Z.ltb_spec (b_max_size b1) (roundup (len + b_size b1) SSHBUF_SIZE_INC)); lia. }
  destruct (A rlen) as [[p junk]|] eqn:EA; [|by eauto 10].
  rewrite <- (same_frame_writable _ _ F1) in W.
  destruct (set_object_grow p rlen junk b1 Hwf1 W ltac:(lia)) as (Hw2 & F2 & C2).
  rewrite sshbuf_check_reserve_spec by done.
  rewrite (same_frame_writable _ _ F2), W, C2, C1, contents_zlen by done. simpl.
  destruct (Z.ltb_spec (b_max_size b1) (b_size b - b_off b + len)); [lia|].
  split_and!; auto; try congruence. lia.
Qed.

(** [sshbuf_reserve]: on success the object has [len] unspecified bytes behind
    the contents, at the index returned; otherwise nothing visible changes. *)
Lemma sshbuf_reserve_spec A len b :
  wf b -> 0 <= len ->
  let '(r, b') := sshbuf_reserve A len b in
  wf b' /\ same_frame b b' /\
  match r with
  | Ok i => sshbuf_check_reserve len b = Ok tt /\ b_size b' = i + len /\
            0 <= b_off b' <= i /\
            ztake (i - b_off b') (zdrop (b_off b') (b_mem b')) = contents b
  | Err e => contents b' = contents b /\
             (sshbuf_check_reserve len b = Err e \/
              (e = SSH_ERR_ALLOC_FAIL /\ exists n, A n = None))
  end.
Proof.
  intros Hwf Hlen. unfold sshbuf_reserve, bind, get_state, put_state, ret.
  pose proof (sshbuf_allocate_spec A len b Hwf Hlen) as P.
  destruct (sshbuf_allocate A len b) as [[[]|e] b1]; [|naive_solver].
  destruct P as (Hwf1 & F1 & C1 & E1 & Hsz). wf_unpack Hwf1. unwrap.
  assert (wf (set_size (b_size b1 + len) b1)).
  { pose proof (wf_ptr_facts _ Hwf1). pose proof (wf_bytes _ Hwf1).
    apply (wf_intro b1); simpl; try tauto; auto with ssh; lia. }
  split_and!; auto; simpl; lia.
Qed.

(** Writing the reserved bytes appends them to the contents. *)
Lemma write_reserved b0 b i v :
  wf b -> Bytes v -> b_size b = i + zlen v -> 0 <= b_off b <= i ->
  ztake (i - b_off b) (zdrop (b_off b) (b_mem b)) = contents b0 ->
  let b' := set_mem (write_at i v (b_mem b)) b in
  wf b' /\ same_frame b b' /\ contents b' = contents b0 ++ v.
Proof.
  intros Hwf HB Hi Ho Hc b'. wf_unpack Hwf. pose proof (zlen_nonneg v).
  assert (wf b').
  { pose proof (wf_ptr_facts _ Hwf). pose proof (wf_bytes _ Hwf).
    apply (wf_intro b); simpl; try tauto; auto with ssh; try lia.
    rewrite zlen_write_at; lia. }
  split_and!; auto with ssh. rewrite <- Hc. unfold contents, b'; simpl.
  unfold write_at. rewrite zdrop_app_le by zl. rewrite zdrop_ztake by lia.
  rewrite ztake_app_ge by zl. f_equal.
  rewrite ztake_app; [done|zl].
Qed.

Lemma sshbuf_consume_spec len b :
  wf b -> 0 <= len ->
  let '(r, b') := sshbuf_consume len b in
  wf b' /\ same_frame b b' /\
  if zlen (contents b) <? len
  then r = Err SSH_ERR_MESSAGE_INCOMPLETE /\ b' = b
  else r = Ok tt /\ contents b' = zdrop len (contents b).
Proof.
  intros Hwf Hlen. unfold sshbuf_consume, bind, get_state, lift, put_state, ret, fail.
  rewrite (wf_sane _ Hwf), sshbuf_len_contents by done.
  destruct (Z.eqb_spec len 0) as [->|Hn].
  { pose proof (zlen_nonneg (contents b)).
    destruct (Z.ltb_spec (zlen (contents b)) 0); [lia|]. split_and!; auto with ssh. }
  destruct (Z.ltb_spec (zlen (contents b)) len) as [|Hle]; [by auto with ssh|].
  rewrite contents_zlen in Hle by done. wf_unpack Hwf. unwrap.
  assert (wf (set_off (b_off b + len) b)).
  { pose proof (wf_ptr_facts _ Hwf). pose proof (wf_bytes _ Hwf).
    apply (wf_intro b); simpl; try tauto; auto with ssh; lia. }
  split_and!; auto with ssh. unfold contents; simpl.
  rewrite zdrop_ztake, zdrop_zdrop by lia. f_equal. lia.
Qed.

Lemma sshbuf_consume_end_spec len b :
  wf b -> 0 <= len ->
  let '(r, b') := sshbuf_consume_end len b in
  wf b' /\ same_frame b b' /\
  if zlen (contents b) <? len
  then r = Err SSH_ERR_MESSAGE_INCOMPLETE /\ b' = b
  else r = Ok tt /\ contents b' = ztake (zlen (contents b) - len) (contents b).
Proof.
  intros Hwf Hlen. unfold sshbuf_consume_end, bind, get_state, lift, put_state, ret, fail.
  rewrite (wf_sane _ Hwf), sshbuf_len_contents by done.
  destruct (Z.eqb_spec len 0) as [->|Hn].
  { pose proof (zlen_nonneg (contents b)).
    destruct (Z.ltb_spec (zlen (contents b)) 0); [lia|].
    rewrite Z.sub_0_r, ztake_ge by lia. split_and!; auto with ssh. }
  destruct (Z.ltb_spec (zlen (contents b)) len) as [|Hle]; [by auto with ssh|].
  pose proof Hle as Hle2. rewrite contents_zlen in Hle by done. wf_unpack Hwf. unwrap.
  assert (wf (set_size (b_size b - len) b)).
  { pose proof (wf_ptr_facts _ Hwf). pose proof (wf_bytes _ Hwf).
    apply (wf_intro b); simpl; try tauto; auto with ssh; lia. }
  split_and!; auto with ssh. rewrite contents_zlen by done. unfold contents; simpl.
  rewrite ztake_ztake. f_equal. lia.
Qed.

Lemma wrap_range_nonneg w x : 0 <= w -> 0 <= wrap w x.
Proof. intros. unfold wrap. apply Z.mod_pos_bound. lia. Qed.

(** [sshbuf_set_max_size] reallocating a buffer to a smaller object. *)
Lemma set_object_shrink p n junk b :
  wf b -> writable b = true -> b_size b <= n <= b_max_size b ->
  let m := write_at (b_size b) (zrep (u64 (b_alloc b - b_size b)) 0) (b_mem b) in
  let b' := set_object p n (realloc_mem n junk m) (set_mem m b) in
  wf b' /\ same_frame b b' /\ contents b' = contents b /\ wf (set_mem m b) /\
  contents (set_mem m b) = contents b.
Proof.
  intros Hwf W Hn m b'. wf_unpack Hwf.
  assert (Hm : wf (set_mem m b) /\ contents (set_mem m b) = contents b).
  { pose proof (wf_ptr_facts _ Hwf). pose proof (wf_bytes _ Hwf). unfold m. unwrap.
    assert (zlen (write_at (b_size b) (zrep (b_alloc b - b_size b) 0) (b_mem b)) = b_alloc b)
      by (rewrite zlen_write_at; zl).
    split.
    - apply (wf_intro b); simpl; try tauto; auto with ssh; lia.
    - unfold contents; simpl. unfold write_at. rewrite zdrop_app_le by zl.
      rewrite zdrop_ztake, ztake_app_le by zl. rewrite ztake_ztake. f_equal. lia. }
  destruct Hm as (Hwm & Hcm).
  destruct (set_object_grow p n junk (set_mem m b) Hwm W ltac:(simpl; lia)) as (? & ? & Hc).
  split_and!; auto. etransitivity; [exact Hc|exact Hcm].
Qed.

Definition same_fixed (b b' : sshbuf) : Prop :=
  b_readonly b' = b_readonly b /\ b_dont_free b' = b_dont_free b /\
  b_refcount b' = b_refcount b /\ b_parent b' = b_parent b.

Lemma same_fixed_refl b : same_fixed b b.
Proof. done. Qed.
Lemma same_frame_fixed b b' : same_frame b b' -> same_fixed b b'.
Proof. by intros (_ & ?). Qed.
#[export] Hint Resolve same_fixed_refl same_frame_fixed : ssh.

(** Raising or lowering the limit of a well-formed buffer. *)
Lemma set_max_wf max b :
  wf b -> b_alloc b <= max <= SSHBUF_SIZE_MAX -> wf (set_max max b).
Proof.
  intros Hwf Hm. pose proof (wf_ptr_facts _ Hwf). pose proof (wf_ranges _ Hwf).
  pose proof (wf_bytes _ Hwf). pose proof (proj1 (sane_iff b) (wf_sane _ Hwf)).
  constructor; simpl; try done; try lia. apply sane_iff; simpl. intuition lia.
Qed.

Lemma sshbuf_set_max_size_spec A max b :
  wf b -> 0 <= max ->
  let '(r, b') := sshbuf_set_max_size A max b in
  wf b' /\ same_fixed b b' /\ contents b' = contents b /\
  match r with
  | Ok _ => b_max_size b' = max
  | Err e => b_max_size b' = b_max_size b /\ max <> b_max_size b /\
      ((writable b = false /\ e = SSH_ERR_BUFFER_READ_ONLY) \/
       (e = SSH_ERR_NO_BUFFER_SPACE /\ (SSHBUF_SIZE_MAX < max \/ max <= b_size b)) \/
       (e = SSH_ERR_ALLOC_FAIL /\ exists n, A n = None))
  end.
Proof.
  intros Hwf Hmax. unfold sshbuf_set_max_size, bind, get_state, lift, put_state, ret, fail.
  rewrite (wf_sane _ Hwf), writable_test.
  destruct (Z.eqb_spec max (b_max_size b)) as [->|Hne]; [done|].
  destruct (writable b) eqn:W; simpl; [|by auto 10 with ssh].
  destruct (Z.ltb_spec SSHBUF_SIZE_MAX max) as [|Hle]; [by auto 10 with ssh|].
  pose proof (sshbuf_maybe_pack_spec (max <? b_size b) b Hwf) as P.
  set (b1 := sshbuf_maybe_pack _ b) in *. destruct P as (Hwf1&F1&C1&A1&_&S1&D1&O1).
  wf_unpack Hwf1. rewrite <- (same_frame_writable _ _ F1) in W.
  pose proof F1 as (Fm & F1'). rewrite <- C1.
  destruct ((max <? b_alloc b1) && (b_size b1 <? max)) eqn:T.
  - apply andb_true_iff in T as [T1%Z.ltb_lt T2%Z.ltb_lt].
    set (rlen := if max <? _ then max else _).
    assert (b_size b1 <= rlen <= max).
    { pose proof (roundup_bounds (b_size b1) ltac:(lia)). unfold rlen, SSHBUF_SIZE_INIT.
      destruct (Z.ltb_spec (b_size b1) 256);
        match goal with |- context [max <? ?x] => destruct (Z.ltb_spec max x) end; lia. }
    set (m := write_at _ _ _).
    destruct (A rlen) as [[p junk]|] eqn:EA; simpl.
    + destruct (set_object_shrink p rlen junk b1 Hwf1 W ltac:(lia)) as (Hw2 & F2 & C2 & _).
      fold m in Hw2, F2, C2. destruct (Z.ltb_spec max rlen); [lia|].
      split_and!; auto with ssh. apply set_max_wf; [done|simpl; lia].
    + destruct (set_object_shrink 1%positive (b_alloc b1) (fun _ => 0) b1 Hwf1 W ltac:(lia))
        as (_ & _ & _ & Hw2 & C2). split_and!; eauto 10 with ssh.
  - apply andb_false_iff in T. rewrite !Z.ltb_ge in T.
    destruct (Z.ltb_spec max (b_alloc b1)).
    + split_and!; auto with ssh. right; left. split; [done|]. right. lia.
    + split_and!; auto with ssh. by apply set_max_wf.
Qed.

Lemma sshbuf_reset_spec A b :
  wf b -> (writable b = true -> SSHBUF_SIZE_INIT <= b_max_size b) ->
  let b' := sshbuf_reset A b in
  wf b' /\ same_frame b b' /\ contents b' = [].
Proof.
  intros Hwf Hmax b'. subst b'. unfold sshbuf_reset. rewrite writable_test.
  wf_unpack Hwf. pose proof (wf_ptr_facts _ Hwf).
  destruct (writable b) eqn:W; cbn [negb].
  2: { assert (wf (set_off (b_size b) b)).
       { pose proof (wf_bytes _ Hwf). apply (wf_intro b); simpl; try tauto; auto with ssh; lia. }
       split_and!; auto with ssh. apply zlen_0_nil. rewrite contents_zlen by done. simpl. lia. }
  specialize (Hmax eq_refl). rewrite (wf_sane _ Hwf). unfold SSHBUF_SIZE_INIT in *.
  set (b1 := set_off 0 (set_size 0 (set_mem (zrep (b_alloc b) 0) b))).
  assert (Hwf1 : wf b1).
  { apply (wf_intro b); simpl; try tauto; auto with ssh; try lia. zl. }
  assert (contents b1 = []) by (apply zlen_0_nil; rewrite contents_zlen by done; simpl; lia).
  change (b_alloc b1) with (b_alloc b).
  destruct (Z.eqb_spec (b_alloc b) 256); simpl; [by auto with ssh|].
  destruct (A 256) as [[p junk]|]; [|by auto with ssh].
  destruct (set_object_grow p 256 junk b1 Hwf1 W ltac:(simpl; lia)) as (? & ? & E).
  split_and!; auto.
Qed.
