(* ===== verification/SshbufGetput.v ===== *)
(** The readers and writers of sshbuf-getput-basic.c, on the buffer of
    Sshbuf.v, and sshbuf_dtob16 of sshbuf-misc.c.

    The out-parameters [valp] and [lenp] are results; where a NULL [valp]
    changes what a function does (no allocation) it is a boolean argument.
    A reader is proved to refine a function on the bytes still to be read
    (Wire.v), a writer to append the wire encoding of its argument. *)

From S2P Require Import Prelude Wire Sshbuf.

(** ** Readers *)

(** [p = sshbuf_ptr(buf)], before the bytes are consumed. *)
Definition ptr_of (b : sshbuf) : bytes := default [] (sshbuf_ptr b).

(** The bytes of a buffer as an argument: sshbuf_ptr and sshbuf_len. *)
Definition buf_bytes (b : sshbuf) : bytes := ztake (sshbuf_len b) (ptr_of b).

Definition sshbuf_get (len : Z) : M sshbuf bytes :=
  let! b := get_state in
  let p := ptr_of b in
  sshbuf_consume len ;;;
  ret (ztake len p).

Definition sshbuf_get_u64 : M sshbuf Z :=
  let! b := get_state in
  let p := ptr_of b in
  sshbuf_consume 8 ;;;
  ret (PEEK_U64 p).

Definition sshbuf_get_u32 : M sshbuf Z :=
  let! b := get_state in
  let p := ptr_of b in
  sshbuf_consume 4 ;;;
  ret (PEEK_U32 p).

Definition sshbuf_get_u16 : M sshbuf Z :=
  let! b := get_state in
  let p := ptr_of b in
  sshbuf_consume 2 ;;;
  ret (PEEK_U16 p).

Definition sshbuf_get_u8 : M sshbuf Z :=
  let! b := get_state in
  let p := ptr_of b in
  sshbuf_consume 1 ;;;
  ret (byte_at p 0).

(** The pointer [p + 4] and the length, as the bytes from there on. *)
Definition sshbuf_peek_string_direct (b : sshbuf) : result (bytes * Z) :=
  let p := ptr_of b in
  if sshbuf_len b <? 4 then Err SSH_ERR_MESSAGE_INCOMPLETE
  else
    let len := PEEK_U32 p in
    if SSHBUF_SIZE_MAX - 4 <? len then Err SSH_ERR_STRING_TOO_LARGE
    else if u64 (sshbuf_len b - 4) <? len then Err SSH_ERR_MESSAGE_INCOMPLETE
    else Ok (zdrop 4 p, len).

Definition sshbuf_get_string_direct : M sshbuf (bytes * Z) :=
  let! b := get_state in
  let! (p, len) := lift (sshbuf_peek_string_direct b) in
  fun b => match sshbuf_consume (u64 (len + 4)) b with
           | (Ok _, b') => (Ok (p, len), b')
           | (Err _, b') => (Err SSH_ERR_INTERNAL_ERROR, b')
           end.

(** [sshbuf_skip_string(buf)]. *)
Definition sshbuf_skip_string : M sshbuf unit :=
  let! _ := sshbuf_get_string_direct in ret tt.

(** The [malloc(len + 1)] copy of a string, with its final NUL. *)
Definition copy_string (A : allocator) (valp : bool) (v : bytes) (len : Z)
    : M sshbuf (option bytes * Z) :=
  if valp then
    match A (u64 (len + 1)) with
    | None => fail SSH_ERR_ALLOC_FAIL
    | Some _ => ret (Some (ztake len v ++ [0]), len)
    end
  else ret (None, len).

Definition sshbuf_get_string (A : allocator) (valp : bool)
    : M sshbuf (option bytes * Z) :=
  let! (v, len) := sshbuf_get_string_direct in
  copy_string A valp v len.

(** [memchr(p, 0, len)], as an index. *)
Fixpoint memchr0 (p : bytes) (i : Z) : option Z :=
  match p with
  | [] => None
  | c :: p => if c =? 0 then Some i else memchr0 p (i + 1)
  end.

Definition sshbuf_get_cstring (A : allocator) (valp : bool)
    : M sshbuf (option bytes * Z) :=
  let! b := get_state in
  let! (p, len) := lift (sshbuf_peek_string_direct b) in
  if (0 <? len) &&
     match memchr0 (ztake len p) 0 with
     | Some z => z <? len - 1
     | None => false
     end
  then fail SSH_ERR_INVALID_FORMAT
  else
    (fun b => match sshbuf_skip_string b with
              | (Ok _, b') => (Ok tt, b')
              | (Err _, b') => (Err (-1), b')
              end) ;;;
    copy_string A valp p len.

Definition sshbuf_get_bignum2_bytes_direct : M sshbuf bytes :=
  let! b := get_state in
  let! (p, olen) := lift (sshbuf_peek_string_direct b) in
  let d := ztake olen p in
  if negb (olen =? 0) && negb (Z.land (byte_at d 0) 0x80 =? 0)
  then fail SSH_ERR_BIGNUM_IS_NEGATIVE
  else if (SSHBUF_MAX_BIGNUM + 1 <? olen) ||
          ((olen =? SSHBUF_MAX_BIGNUM + 1) && negb (byte_at d 0 =? 0))
  then fail SSH_ERR_BIGNUM_TOO_LARGE
  else
    fun b => match sshbuf_consume (u64 (olen + 4)) b with
             | (Ok _, b') => (Ok (trim_zeros d), b')
             | (Err _, b') => (Err SSH_ERR_INTERNAL_ERROR, b')
             end.

(** ** Writers *)

(** The bytes stored through the pointer [sshbuf_reserve] returned. *)
Definition store (i : Z) (v : bytes) : M sshbuf unit := fun b =>
  (Ok tt, set_mem (write_at i v (b_mem b)) b).

Definition sshbuf_put (A : allocator) (v : bytes) (len : Z) : M sshbuf unit :=
  let! p := sshbuf_reserve A len in
  if negb (len =? 0) then store p (ztake len v) else ret tt.

Definition sshbuf_putb (A : allocator) (v : sshbuf) : M sshbuf unit :=
  sshbuf_put A (ptr_of v) (sshbuf_len v).

(** [out] is what [vsnprintf] makes of the format and its arguments, [None]
    when it fails. *)
Definition sshbuf_putfv (A : allocator) (out : option bytes) : M sshbuf unit :=
  match out with
  | None => fail SSH_ERR_INVALID_ARGUMENT
  | Some out =>
      let len := zlen out in
      if len =? 0 then ret tt
      else
        let! p := sshbuf_reserve A (u64 (len + 1)) in
        store p (out ++ [0]) ;;;
        sshbuf_consume_end 1
  end.
Definition sshbuf_putf := sshbuf_putfv.

Definition sshbuf_put_u64 (A : allocator) (val : Z) : M sshbuf unit :=
  let! p := sshbuf_reserve A 8 in store p (POKE_U64 val).
Definition sshbuf_put_u32 (A : allocator) (val : Z) : M sshbuf unit :=
  let! p := sshbuf_reserve A 4 in store p (POKE_U32 val).
Definition sshbuf_put_u16 (A : allocator) (val : Z) : M sshbuf unit :=
  let! p := sshbuf_reserve A 2 in store p (POKE_U16 val).
Definition sshbuf_put_u8 (A : allocator) (val : Z) : M sshbuf unit :=
  let! p := sshbuf_reserve A 1 in store p [u8 val].

Definition sshbuf_put_string (A : allocator) (v : bytes) (len : Z) : M sshbuf unit :=
  if SSHBUF_SIZE_MAX - 4 <? len then fail SSH_ERR_NO_BUFFER_SPACE
  else
    let! d := sshbuf_reserve A (u64 (len + 4)) in
    store d (POKE_U32 len) ;;;
    if negb (len =? 0) then store (d + 4) (ztake len v) else ret tt.

(** [None] is the NULL string. *)
Definition sshbuf_put_cstring (A : allocator) (v : option bytes) : M sshbuf unit :=
  sshbuf_put_string A (default [] v) (match v with None => 0 | Some v => zlen v end).

Definition sshbuf_put_stringb (A : allocator) (v : sshbuf) : M sshbuf unit :=
  sshbuf_put_string A (ptr_of v) (sshbuf_len v).

(** [buf] is read, [v] is written. *)
Definition sshbuf_get_stringb (A : allocator) : M (sshbuf * sshbuf) unit := fun '(buf, v) =>
  match sshbuf_peek_string_direct buf with
  | Err r => (Err r, (buf, v))
  | Ok _ =>
      match sshbuf_get_u32 buf with
      | (Err r, buf) => (Err r, (buf, v))
      | (Ok len, buf) =>
          match sshbuf_reserve A len v with
          | (Err r, v) => (Err r, (buf, v))
          | (Ok p, v) =>
              match sshbuf_get len buf with
              | (Err r, buf) => (Err r, (buf, v))
              | (Ok s, buf) => (Ok tt, (buf, snd (store p s v)))
              end
          end
      end
  end.

Definition sshbuf_put_bignum2_bytes (A : allocator) (v : bytes) (len : Z) : M sshbuf unit :=
  if SSHBUF_SIZE_MAX - 5 <? len then fail SSH_ERR_NO_BUFFER_SPACE
  else
    let s := trim_zeros (ztake len v) in
    let len := zlen s in
    let prepend := (0 <? len) && negb (Z.land (byte_at s 0) 0x80 =? 0) in
    let! d := sshbuf_reserve A (u64 (u64 (len + 4) + b2z prepend)) in
    store d (POKE_U32 (u64 (len + b2z prepend))) ;;;
    (if prepend then store (d + 4) [0] else ret tt) ;;;
    if negb (len =? 0) then store (d + 4 + b2z prepend) s else ret tt.

Definition hex_digits : bytes := cstr "0123456789abcdef".

(** [None] is a failed allocation. *)
Definition sshbuf_dtob16 (A : allocator) (b : sshbuf) : option bytes :=
  let len := sshbuf_len b in
  let p := ptr_of b in
  if len =? 0 then Some []
  else if (0xffffffffffffffff / 2 <=? len) then None
  else match A (u64 (u64 (len * 2) + 1)) with
       | None => None
       | Some _ =>
           Some (concat ((fun c => [byte_at hex_digits (Z.land (Z.shiftr c 4) 0xf);
                                    byte_at hex_digits (Z.land c 0xf)])
                           <$> ztake len p))
       end.

(** ** What a reader and a writer promise *)

(** [m] reads what [spec] reads from the contents; when it fails it returns the
    same error and keeps the invariant. *)
Class Refines {A} (m : M sshbuf A) (spec : reader A) : Prop :=
  refines b : wf b ->
    match spec (contents b) with
    | Ok (a, rest) =>
        exists b', m b = (Ok a, b') /\ wf b' /\ same_frame b b' /\ contents b' = rest
    | Err e => exists b', m b = (Err e, b') /\ wf b' /\ same_frame b b'
    end.

(** Why a write of [n] bytes to [b] can fail with [e]. *)
Definition put_fails (A : allocator) (b : sshbuf) (n e : Z) : Prop :=
  (writable b = false /\ e = SSH_ERR_BUFFER_READ_ONLY) \/
  (b_max_size b < zlen (contents b) + n /\ e = SSH_ERR_NO_BUFFER_SPACE) \/
  (e = SSH_ERR_ALLOC_FAIL /\ exists k, A k = None).

(** [m] appends [out], or fails for lack of room after appending a prefix of it. *)
Class Appends (A : allocator) (m : M sshbuf unit) (out : bytes) : Prop :=
  appends b : wf b ->
    let '(r, b') := m b in
    wf b' /\ same_frame b b' /\
    match r with
    | Ok _ => contents b' = contents b ++ out
    | Err e => (exists pre, contents b' = contents b ++ pre /\ pre `prefix_of` out) /\
               put_fails A b (zlen out) e
    end.

(** The same, all or nothing. *)
Definition appends_atomic (A : allocator) (m : M sshbuf unit) (out : bytes) : Prop :=
  forall b, wf b ->
    let '(r, b') := m b in
    wf b' /\ same_frame b b' /\
    match r with
    | Ok _ => contents b' = contents b ++ out /\ writable b = true /\
              zlen (contents b) + zlen out <= b_max_size b
    | Err e => contents b' = contents b /\ put_fails A b (zlen out) e
    end.

Definition alloc_ok (A : allocator) : Prop := forall n, A n <> None.

(** ** Lemmas: readers *)

Lemma ptr_of_contents b :
  wf b -> ptr_of b = contents b ++ zdrop (zlen (contents b)) (ptr_of b).
Proof.
  intros Hwf. wf_unpack Hwf. unfold ptr_of, sshbuf_ptr. rewrite (wf_sane _ Hwf).
  simpl. rewrite contents_zlen by done. unfold contents at 1. by rewrite ztake_zdrop.
Qed.

Lemma ztake_ptr_of n b :
  wf b -> n <= zlen (contents b) -> ztake n (ptr_of b) = ztake n (contents b).
Proof. intros Hwf Hn. rewrite ptr_of_contents by done. by apply ztake_app_le. Qed.

Lemma ptr_of_Bytes b : wf b -> Bytes (ptr_of b).
Proof.
  intros Hwf. unfold ptr_of, sshbuf_ptr. rewrite (wf_sane _ Hwf). simpl.
  pose proof (wf_bytes _ Hwf). auto with ssh.
Qed.
#[export] Hint Resolve ptr_of_Bytes : ssh.

Lemma ptr_of_zlen b : wf b -> zlen (contents b) <= zlen (ptr_of b).
Proof. intros. rewrite (ptr_of_contents b) by done. zl. Qed.

(** Reading n bytes at the pointer and consuming them. *)
Lemma read_consume {X} n (f : bytes -> X) (g : bytes -> X) :
  0 <= n -> (forall b, wf b -> n <= zlen (contents b) ->
               f (ptr_of b) = g (ztake n (contents b))) ->
  Refines (let! b := get_state in let p := ptr_of b in
           sshbuf_consume n ;;; ret (f p))
          (rd_bind (rd_bytes n) (fun v => rd_ret (g v))).
Proof.
  intros Hn Hf b Hwf. unfold rd_bind, rd_bytes, rd_ret, bind, get_state, ret.
  pose proof (sshbuf_consume_spec n b Hwf Hn) as P.
  destruct (sshbuf_consume n b) as [r b']. destruct P as (? & ? & P).
  destruct (Z.ltb_spec (zlen (contents b)) n).
  - destruct P as [-> ->]. eauto.
  - destruct P as [-> ?]. exists b'. rewrite Hf by done. eauto.
Qed.

#[export] Instance sshbuf_get_refines n :
  Refines (sshbuf_get (Z.of_nat n)) (rd_bytes (Z.of_nat n)).
Proof.
  intros b Hwf. generalize (read_consume (Z.of_nat n) (ztake (Z.of_nat n)) (fun v => v)
    ltac:(lia) (fun b H1 H2 => ztake_ptr_of _ b H1 H2) b Hwf).
  unfold rd_bind, rd_bytes, rd_ret. by destruct (zlen (contents b) <? Z.of_nat n).
Qed.

(** Solves a reader that applies the macro of lemma [L] at the pointer. *)
Ltac read_consume n f L :=
  let b := fresh "b" in let Hwf := fresh "Hwf" in let Hl := fresh "Hl" in
  let Hp := fresh "Hp" in
  intros b Hwf; refine (read_consume n f be_value _ _ b Hwf); [lia|clear b Hwf];
  intros b Hwf Hl; pose proof (ptr_of_zlen b Hwf) as Hp;
  rewrite L, ztake_ptr_of by (auto with ssh; lia); reflexivity.

#[export] Instance sshbuf_get_u64_refines : Refines sshbuf_get_u64 (rd_be 8).
Proof. read_consume 8 PEEK_U64 PEEK_U64_be. Qed.
#[export] Instance sshbuf_get_u32_refines : Refines sshbuf_get_u32 (rd_be 4).
Proof. read_consume 4 PEEK_U32 PEEK_U32_be. Qed.
#[export] Instance sshbuf_get_u16_refines : Refines sshbuf_get_u16 (rd_be 2).
Proof. read_consume 2 PEEK_U16 PEEK_U16_be. Qed.

Lemma byte_at_be p : 1 <= zlen p -> byte_at p 0 = be_value (ztake 1 p).
Proof. intros. destruct p as [|a p]; [zl|]. done. Qed.

#[export] Instance sshbuf_get_u8_refines : Refines sshbuf_get_u8 (rd_be 1).
Proof.
  intros b Hwf. refine (read_consume 1 (fun p => byte_at p 0) be_value _ _ b Hwf); [lia|].
  intros b0 Hwf0 Hl. pose proof (ptr_of_zlen b0 Hwf0).
  by rewrite byte_at_be, ztake_ptr_of by (done || lia).
Qed.

(** [sshbuf_peek_string_direct] reads what [rd_string] reads. *)
Lemma peek_string_spec b :
  wf b ->
  match rd_string (contents b) with
  | Ok (v, rest) =>
      sshbuf_peek_string_direct b = Ok (zdrop 4 (ptr_of b), zlen v) /\
      ztake (zlen v) (zdrop 4 (ptr_of b)) = v /\
      rest = zdrop (zlen v + 4) (contents b) /\
      zlen v + 4 <= zlen (contents b) /\ Bytes v
  | Err e => sshbuf_peek_string_direct b = Err e
  end.
Proof.
  intros Hwf. pose proof (ptr_of_zlen b Hwf). pose proof (contents_zlen b Hwf) as HL.
  pose proof (contents_Bytes b Hwf) as HB. wf_unpack Hwf.
  unfold rd_string, rd_be, rd_bytes, sshbuf_peek_string_direct.
  rewrite !sshbuf_len_contents by done.
  destruct (Z.ltb_spec (zlen (contents b)) 4); [done|].
  rewrite PEEK_U32_be, ztake_ptr_of by (auto with ssh; lia).
  set (n := be_value (ztake 4 (contents b))). change WIRE_STRING_MAX with (SSHBUF_SIZE_MAX - 4).
  assert (0 <= n).
  { pose proof (be_value_range (ztake 4 (contents b)) ltac:(auto with ssh)). lia. }
  destruct (Z.ltb_spec (SSHBUF_SIZE_MAX - 4) n); [done|].
  unwrap. rewrite zlen_zdrop by lia.
  destruct (Z.ltb_spec (zlen (contents b) - 4) n); [done|].
  assert (Hn : zlen (ztake n (zdrop 4 (contents b))) = n) by zl.
  rewrite Hn. split_and!; auto with ssh; try lia.
  - rewrite (ptr_of_contents b) by done. rewrite zdrop_app_le, ztake_app_le by zl. done.
  - rewrite zdrop_zdrop by lia. f_equal. lia.
Qed.

(** A successful peek followed by consuming the string. *)
Lemma peek_consume {X} b v rest (a : X) :
  wf b -> rd_string (contents b) = Ok (v, rest) ->
  exists b', sshbuf_consume (u64 (zlen v + 4)) b = (Ok tt, b') /\
             wf b' /\ same_frame b b' /\ contents b' = rest.
Proof.
  intros Hwf E. pose proof (peek_string_spec b Hwf) as P. rewrite E in P.
  destruct P as (_ & _ & -> & Hl & _). pose proof (contents_zlen b Hwf).
  wf_unpack Hwf. pose proof (zlen_nonneg v). unwrap.
  pose proof (sshbuf_consume_spec (zlen v + 4) b Hwf ltac:(lia)) as Q.
  destruct (sshbuf_consume (zlen v + 4) b) as [r b']. destruct Q as (? & ? & Q).
  destruct (Z.ltb_spec (zlen (contents b)) (zlen v + 4)); [lia|].
  destruct Q as [-> ?]. eauto.
Qed.

Lemma get_string_direct_spec b :
  wf b ->
  match rd_string (contents b) with
  | Ok (v, rest) => exists b',
      sshbuf_get_string_direct b = (Ok (zdrop 4 (ptr_of b), zlen v), b') /\
      ztake (zlen v) (zdrop 4 (ptr_of b)) = v /\
      wf b' /\ same_frame b b' /\ contents b' = rest
  | Err e => sshbuf_get_string_direct b = (Err e, b)
  end.
Proof.
  intros Hwf. pose proof (peek_string_spec b Hwf) as P.
  unfold sshbuf_get_string_direct, bind, get_state, lift.
  destruct (rd_string (contents b)) as [[v rest]|e] eqn:E; [|by rewrite P].
  destruct P as (-> & Hv & _). simpl.
  destruct (peek_consume b v rest tt Hwf E) as (b' & -> & ?). eauto 10.
Qed.

#[export] Instance sshbuf_skip_string_refines :
  Refines sshbuf_skip_string (rd_bind rd_string (fun _ => rd_ret tt)).
Proof.
  intros b Hwf. unfold sshbuf_skip_string, rd_bind, rd_ret, bind, ret.
  pose proof (get_string_direct_spec b Hwf) as P.
  destruct (rd_string (contents b)) as [[v rest]|e].
  - destruct P as (b' & -> & ? & ? & ? & ?). eauto.
  - rewrite P. eauto with ssh.
Qed.

(** The string of [sshbuf_get_string_direct] as a value. *)
Definition direct_bytes (r : bytes * Z) : bytes := ztake (snd r) (fst r).

#[export] Instance sshbuf_get_string_direct_refines {X} (k : bytes -> M sshbuf X) sk :
  (forall v, Refines (k v) (sk v)) ->
  Refines (let! r := sshbuf_get_string_direct in k (direct_bytes r))
          (rd_bind rd_string sk).
Proof.
  intros Hk b Hwf. pose proof (get_string_direct_spec b Hwf) as P.
  unfold rd_bind, bind. destruct (rd_string (contents b)) as [[v rest]|e].
  - destruct P as (b' & -> & Hv & Hwf' & F & <-). unfold direct_bytes; simpl. rewrite Hv.
    specialize (Hk v b' Hwf'). destruct (sk v (contents b')) as [[x rest']|e];
      [destruct Hk as (b2 & -> & ? & ? & ?)|destruct Hk as (b2 & -> & ? & ?)];
      exists b2; split_and!; eauto using same_frame_trans.
  - rewrite P. eauto with ssh.
Qed.

#[export] Instance refines_bind {X Y} (m : M sshbuf X) s (k : X -> M sshbuf Y) sk :
  Refines m s -> (forall x, Refines (k x) (sk x)) ->
  Refines (bind m k) (rd_bind s sk).
Proof.
  intros Hm Hk b Hwf. specialize (Hm b Hwf). unfold rd_bind, bind.
  destruct (s (contents b)) as [[x rest]|e].
  - destruct Hm as (b' & -> & Hwf' & F & <-).
    specialize (Hk x b' Hwf'). destruct (sk x (contents b')) as [[y rest']|e];
      [destruct Hk as (b2 & -> & ? & ? & ?)|destruct Hk as (b2 & -> & ? & ?)];
      exists b2; split_and!; eauto using same_frame_trans.
  - destruct Hm as (b' & -> & ? & ?). eauto.
Qed.

#[export] Instance refines_ret {X} (x : X) : Refines (ret x) (rd_ret x).
Proof. intros b Hwf. simpl. exists b. auto with ssh. Qed.
#[export] Instance refines_fail {X} e : Refines (@fail sshbuf X e) (rd_fail e).
Proof. intros b Hwf. simpl. exists b. auto with ssh. Qed.

(** The copy a caller of [sshbuf_get_string] receives. *)
Definition string_copy (valp : bool) (v : bytes) : option bytes * Z :=
  (if valp then Some (v ++ [0]) else None, zlen v).

Lemma copy_string_ok A valp p n b :
  alloc_ok A -> 
  copy_string A valp p n b = (Ok (if valp then Some (ztake n p ++ [0]) else None, n), b).
Proof.
  intros HA. unfold copy_string. destruct valp; [|done].
  specialize (HA (u64 (n + 1))). by destruct (A _).
Qed.

Lemma sshbuf_get_string_refines A valp :
  alloc_ok A ->
  Refines (sshbuf_get_string A valp)
          (rd_bind rd_string (fun v => rd_ret (string_copy valp v))).
Proof.
  intros HA b Hwf. unfold sshbuf_get_string, rd_bind, rd_ret, bind.
  pose proof (get_string_direct_spec b Hwf) as P.
  destruct (rd_string (contents b)) as [[v rest]|e].
  - destruct P as (b' & -> & Hv & ? & ? & ?). exists b'.
    by rewrite copy_string_ok, Hv by done.
  - rewrite P. eauto with ssh.
Qed.

Lemma memchr0_spec p i :
  match memchr0 p i with
  | Some z => i <= z < i + zlen p /\ nth (Z.to_nat (z - i)) p 1 = 0 /\
              forallb (fun c => negb (c =? 0)) (ztake (z - i) p) = true
  | None => forallb (fun c => negb (c =? 0)) p = true
  end.
Proof.
  revert i. induction p as [|c p IH]; intros i; [done|]. simpl.
  destruct (Z.eqb_spec c 0) as [->|Hc].
  - rewrite Z.sub_diag. zl_nonneg. split; [zl|]. done.
  - specialize (IH (i + 1)). destruct (memchr0 p (i + 1)) as [z|]; [|done].
    destruct IH as (Hz & Hn & Hf). rewrite zlen_cons. split; [lia|].
    replace (Z.to_nat (z - i)) with (S (Z.to_nat (z - (i + 1)))) by lia.
    split; [done|]. unfold ztake in *.
    replace (Z.to_nat (z - i)) with (S (Z.to_nat (z - (i + 1)))) by lia.
    simpl. rewrite Hf. by destruct (Z.eqb_spec c 0).
Qed.

Lemma forallb_ztake {X} (f : X -> bool) n l : forallb f l = true -> forallb f (ztake n l) = true.
Proof.
  rewrite !forallb_forall. intros H x Hx. apply H.
  rewrite <- (ztake_zdrop n l). apply in_or_app. by left.
Qed.

(** The test of [sshbuf_get_cstring] for an embedded NUL. *)
Lemma embedded_nul v :
  (0 <? zlen v) && match memchr0 v 0 with Some z => z <? zlen v - 1 | None => false end
  = negb (cstring_ok v).
Proof.
  unfold cstring_ok. pose proof (memchr0_spec v 0) as P.
  destruct (Z.ltb_spec 0 (zlen v)); simpl.
  2: { by replace (ztake (zlen v - 1) v) with (@nil Z) by (symmetry; apply zlen_0_nil; zl). }
  destruct (memchr0 v 0) as [z|]; [|by rewrite forallb_ztake].
  rewrite Z.sub_0_r in P. destruct P as (Hz & Hn & Hf).
  destruct (Z.ltb_spec z (zlen v - 1)).
  - symmetry. apply negb_true_iff, not_true_is_false. intros Ha.
    rewrite forallb_forall in Ha. specialize (Ha 0).
    rewrite Z.eqb_refl in Ha. discriminate Ha. rewrite <- Hn.
    rewrite <- (nth_ztake z (zlen v - 1)) by lia.
    apply nth_In. pose proof (zlen_ztake_max (zlen v - 1) v). unfold zlen in *. lia.
  - by replace (zlen v - 1) with z by lia; rewrite Hf.
Qed.

Lemma sshbuf_get_cstring_refines A valp :
  alloc_ok A ->
  Refines (sshbuf_get_cstring A valp)
          (rd_bind rd_cstring (fun v => rd_ret (string_copy valp v))).
Proof.
  intros HA b Hwf. unfold sshbuf_get_cstring, rd_cstring, rd_bind, rd_ret, bind, get_state, lift.
  pose proof (peek_string_spec b Hwf) as P. pose proof (sshbuf_skip_string_refines b Hwf) as Q.
  unfold rd_bind, rd_ret in Q.
  destruct (rd_string (contents b)) as [[v rest]|e]; [|rewrite P; eauto with ssh].
  destruct P as (-> & Hv & _). rewrite Hv, embedded_nul.
  destruct (cstring_ok v); simpl; [|by eauto with ssh].
  destruct Q as (b' & -> & ? & ? & ?). exists b'. by rewrite copy_string_ok, Hv by done.
Qed.

#[export] Instance sshbuf_get_bignum2_bytes_direct_refines :
  Refines sshbuf_get_bignum2_bytes_direct rd_bignum2.
Proof.
  intros b Hwf. unfold sshbuf_get_bignum2_bytes_direct, rd_bignum2, bind, get_state, lift.
  pose proof (peek_string_spec b Hwf) as P.
  destruct (rd_string (contents b)) as [[v rest]|e] eqn:E; [|rewrite P; eauto with ssh].
  destruct P as (-> & Hv & _). rewrite Hv.
  destruct (negb (zlen v =? 0) && _); [eauto with ssh|].
  destruct ((SSHBUF_MAX_BIGNUM + 1 <? zlen v) || _); [eauto with ssh|].
  destruct (peek_consume b v rest tt Hwf E) as (b' & -> & ? & ? & ?). eauto.
Qed.

(** ** Lemmas: writers *)

Lemma write_at_app i u w l :
  0 <= i -> i + zlen u + zlen w <= zlen l ->
  write_at (i + zlen u) w (write_at i u l) = write_at i (u ++ w) l.
Proof.
  intros Hi Hl. zl_nonneg. unfold write_at.
  rewrite ztake_app_ge by zl. rewrite zdrop_app_ge by zl.
  rewrite zlen_ztake by lia. rewrite <- !(assoc_L (++)). f_equal.
  rewrite ztake_app by lia. f_equal. f_equal.
  rewrite zdrop_app_ge by lia. rewrite zdrop_zdrop by lia. f_equal. zl.
Qed.

Lemma check_reserve_fails A b n e :
  wf b -> 0 <= n -> sshbuf_check_reserve n b = Err e -> put_fails A b n e.
Proof.
  intros Hwf Hn. rewrite sshbuf_check_reserve_spec by done. unfold put_fails.
  destruct (writable b); simpl; [|intros [= <-]; auto].
  destruct (Z.ltb_spec (b_max_size b) (zlen (contents b) + n)); [|done].
  intros [= <-]; auto.
Qed.

Lemma check_reserve_ok b n :
  wf b -> 0 <= n -> sshbuf_check_reserve n b = Ok tt ->
  writable b = true /\ zlen (contents b) + n <= b_max_size b.
Proof.
  intros Hwf Hn. rewrite sshbuf_check_reserve_spec by done.
  destruct (writable b); [|done]. simpl.
  by destruct (Z.ltb_spec (b_max_size b) (zlen (contents b) + n)).
Qed.

(** Reserving and filling exactly the reserved bytes. *)
Lemma reserve_store A v k :
  Bytes v ->
  (forall p b, wf b -> 0 <= p -> p + zlen v <= zlen (b_mem b) ->
     k p b = (Ok tt, set_mem (write_at p v (b_mem b)) b)) ->
  appends_atomic A (bind (sshbuf_reserve A (zlen v)) k) v.
Proof.
  intros HB Hk b Hwf. unfold bind.
  pose proof (sshbuf_reserve_spec A (zlen v) b Hwf (zlen_nonneg v)) as P.
  destruct (sshbuf_reserve A (zlen v) b) as [[i|e] b1].
  - destruct P as (Hwf1 & F1 & Hr & Hsz & Hoff & Hc). wf_unpack Hwf1.
    rewrite Hk by (done || lia).
    destruct (write_reserved b b1 i v Hwf1 HB Hsz Hoff Hc) as (? & ? & ?).
    destruct (check_reserve_ok b (zlen v) Hwf (zlen_nonneg v) Hr).
    split_and!; eauto using same_frame_trans.
  - destruct P as (? & ? & ? & [Hr|?]); split_and!; auto.
    + eapply check_reserve_fails; eauto using zlen_nonneg.
    + unfold put_fails; auto.
Qed.

#[export] Instance atomic_appends A m out :
  appends_atomic A m out -> Appends A m out.
Proof.
  intros H b Hwf. specialize (H b Hwf). destruct (m b) as [[[]|e] b'].
  - by destruct H as (? & ? & ? & ?).
  - destruct H as (? & ? & ? & ?). split_and!; auto.
    exists []. rewrite app_nil_r. split; [done|apply prefix_nil].
Qed.

Lemma sshbuf_put_atomic A v :
  Bytes v -> appends_atomic A (sshbuf_put A v (zlen v)) v.
Proof.
  intros HB. apply reserve_store; [done|]. intros p b Hwf Hp Hl.
  destruct (Z.eqb_spec (zlen v) 0) as [E|]; simpl.
  - apply zlen_0_nil in E as ->. unfold write_at. rewrite Z.add_0_r.
    simpl. rewrite ztake_zdrop. by destruct b.
  - unfold store. by rewrite ztake_ge by lia.
Qed.

Lemma sshbuf_put_u64_atomic A v :
  in_range 64 v -> appends_atomic A (sshbuf_put_u64 A v) (be_bytes 8 v).
Proof.
  intros. unfold sshbuf_put_u64. rewrite POKE_U64_be, wrap_small by done.
  apply (reserve_store A (be_bytes 8 v)); [apply be_bytes_Bytes|done].
Qed.
Lemma sshbuf_put_u32_atomic A v :
  in_range 32 v -> appends_atomic A (sshbuf_put_u32 A v) (be_bytes 4 v).
Proof.
  intros. unfold sshbuf_put_u32. rewrite POKE_U32_be, wrap_small by done.
  apply (reserve_store A (be_bytes 4 v)); [apply be_bytes_Bytes|done].
Qed.
Lemma sshbuf_put_u16_atomic A v :
  in_range 16 v -> appends_atomic A (sshbuf_put_u16 A v) (be_bytes 2 v).
Proof.
  intros. unfold sshbuf_put_u16. rewrite POKE_U16_be, wrap_small by done.
  apply (reserve_store A (be_bytes 2 v)); [apply be_bytes_Bytes|done].
Qed.
Lemma sshbuf_put_u8_atomic A v :
  is_byte v -> appends_atomic A (sshbuf_put_u8 A v) [v].
Proof.
  intros. unfold sshbuf_put_u8. rewrite wrap_small by done.
  apply (reserve_store A [v]); [by constructor|done].
Qed.

Lemma sshbuf_put_string_atomic A v :
  Bytes v -> appends_atomic A (sshbuf_put_string A v (zlen v)) (wr_string v).
Proof.
  intros HB. pose proof (zlen_nonneg v). unfold sshbuf_put_string.
  assert (Hw : zlen (wr_string v) = zlen v + 4) by (unfold wr_string; rewrite zlen_app, be_bytes_zlen; lia).
  destruct (Z.ltb_spec (SSHBUF_SIZE_MAX - 4) (zlen v)).
  { intros b Hwf. simpl. pose proof (wf_max _ Hwf). split_and!; auto with ssh.
    right; left. zl. }
  assert (zlen v < 2 ^ 32) by (unfold SSHBUF_SIZE_MAX in *; lia).
  unwrap. rewrite <- Hw. apply reserve_store.
  { unfold wr_string. apply Forall_app. auto using be_bytes_Bytes. }
  intros p b Hwf Hp Hl. unfold bind, store, ret. rewrite POKE_U32_be, wrap_small by lia.
  destruct (Z.eqb_spec (zlen v) 0) as [E|]; simpl.
  - apply zlen_0_nil in E as ->. by rewrite zlen_nil.
  - rewrite ztake_ge by lia. unfold wr_string. rewrite <- write_at_app; [|lia|].
    + by rewrite be_bytes_zlen.
    + rewrite be_bytes_zlen. lia.
Qed.

Lemma trim_zeros_suffix v : exists n, v = zrep n 0 ++ trim_zeros v /\ 0 <= n.
Proof.
  induction v as [|a v IH]; [by exists 0|]. destruct a; [|by exists 0..].
  destruct IH as (n & E & Hn). exists (n + 1). simpl. rewrite E at 1.
  split; [|lia]. unfold zrep. by replace (Z.to_nat (n + 1)) with (S (Z.to_nat n)) by lia.
Qed.

Lemma trim_zeros_zlen v : zlen (trim_zeros v) <= zlen v.
Proof. destruct (trim_zeros_suffix v) as (n & E & Hn). rewrite E at 2. zl. Qed.

Lemma trim_zeros_Bytes v : Bytes v -> Bytes (trim_zeros v).
Proof.
  destruct (trim_zeros_suffix v) as (n & E & Hn). rewrite E at 1. by intros [_ ?]%Forall_app.
Qed.

Lemma bignum2_body_Bytes v : Bytes v -> Bytes (bignum2_body v).
Proof.
  intros H%trim_zeros_Bytes. unfold bignum2_body.
  destruct (_ && _); [constructor; [done|]|]; done.
Qed.

Lemma sshbuf_put_bignum2_bytes_atomic A v :
  Bytes v -> zlen v <= SSHBUF_SIZE_MAX - 5 ->
  appends_atomic A (sshbuf_put_bignum2_bytes A v (zlen v)) (wr_bignum2 v).
Proof.
  intros HB Hlen. pose proof (zlen_nonneg v). pose proof (trim_zeros_zlen v).
  pose proof (trim_zeros_Bytes v HB) as HT. pose proof (bignum2_body_Bytes v HB) as HBB.
  unfold sshbuf_put_bignum2_bytes, wr_bignum2. unfold SSHBUF_SIZE_MAX in *.
  destruct (Z.ltb_spec (134217728 - 5) (zlen v)); [lia|].
  rewrite (ztake_ge (zlen v)) by lia. unfold bignum2_body in *. cbv zeta in *.
  set (s := trim_zeros v) in *. set (pre := (0 <? zlen s) && _) in *.
  pose proof (zlen_nonneg s). set (body := if pre then 0 :: s else s) in *.
  assert (Hbody : zlen body = zlen s + b2z pre) by (unfold body; destruct pre; simpl; zl).
  assert (Hw : zlen (wr_string body) = zlen s + 4 + b2z pre)
    by (unfold wr_string; rewrite zlen_app, be_bytes_zlen; lia).
  assert (0 <= b2z pre <= 1) by (destruct pre; simpl; lia).
  rewrite (wrap_small 64 (zlen s + 4)) by lia. rewrite !(wrap_small 64) by lia. rewrite <- Hw. apply reserve_store.
  { unfold wr_string. apply Forall_app. auto using be_bytes_Bytes. }
  intros p b Hwf Hp Hl. unfold bind, store, ret. rewrite POKE_U32_be, wrap_small by lia.
  rewrite <- Hbody. unfold wr_string in *. rewrite <- write_at_app;
    rewrite ?be_bytes_zlen; try lia. change (Z.of_nat 4) with 4.
  unfold body in *. destruct pre; simpl b2z in *.
  - destruct (Z.eqb_spec (zlen s) 0) as [E|]; simpl.
    + apply zlen_0_nil in E as ->. done.
    + change (0 :: s) with ([0] ++ s). rewrite <- write_at_app; [done|lia|].
      rewrite zlen_write_at; rewrite ?be_bytes_zlen; zl.
  - rewrite Z.add_0_r. destruct (Z.eqb_spec (zlen s) 0) as [E|]; simpl; [|done].
    apply zlen_0_nil in E as ->. unfold write_at at 2. simpl app.
    rewrite zlen_nil, Z.add_0_r, ztake_zdrop. done.
Qed.

Lemma sshbuf_put_cstring_atomic A v :
  Bytes v -> appends_atomic A (sshbuf_put_cstring A (Some v)) (wr_string v).
Proof. apply sshbuf_put_string_atomic. Qed.

Lemma sshbuf_put_null_atomic A : appends_atomic A (sshbuf_put_cstring A None) (wr_string []).
Proof. apply sshbuf_put_string_atomic. constructor. Qed.

(** Appending the contents of another buffer, plain or as a string. *)
Lemma sshbuf_putb_eq A v :
  wf v -> sshbuf_putb A v = sshbuf_put A (ptr_of v) (zlen (contents v)).
Proof. intros. unfold sshbuf_putb. by rewrite sshbuf_len_contents. Qed.

Lemma sshbuf_put_ztake A p n b :
  0 <= n <= zlen p -> sshbuf_put A p n b = sshbuf_put A (ztake n p) n b.
Proof. intros. unfold sshbuf_put. by rewrite ztake_ztake, Z.min_id. Qed.

Lemma sshbuf_put_string_ztake A p n b :
  0 <= n <= zlen p -> sshbuf_put_string A p n b = sshbuf_put_string A (ztake n p) n b.
Proof. intros. unfold sshbuf_put_string. by rewrite ztake_ztake, Z.min_id. Qed.

Lemma ptr_of_take b : wf b -> ztake (zlen (contents b)) (ptr_of b) = contents b.
Proof. intros. rewrite ztake_ptr_of by (done || lia). by rewrite ztake_ge by lia. Qed.

Lemma sshbuf_putb_atomic A v :
  wf v -> appends_atomic A (sshbuf_putb A v) (contents v).
Proof.
  intros Hv b Hwf. rewrite sshbuf_putb_eq by done. pose proof (ptr_of_zlen v Hv).
  rewrite sshbuf_put_ztake, ptr_of_take by (zl || done).
  apply sshbuf_put_atomic; auto with ssh.
Qed.

Lemma sshbuf_put_stringb_atomic A v :
  wf v -> appends_atomic A (sshbuf_put_stringb A v) (wr_string (contents v)).
Proof.
  intros Hv b Hwf. unfold sshbuf_put_stringb. rewrite sshbuf_len_contents by done.
  pose proof (ptr_of_zlen v Hv).
  rewrite sshbuf_put_string_ztake, ptr_of_take by (zl || done).
  apply sshbuf_put_string_atomic; auto with ssh.
Qed.

#[export] Instance sshbuf_put_appends A v :
  Bytes v -> Appends A (sshbuf_put A v (zlen v)) v.
Proof. intros. by apply atomic_appends, sshbuf_put_atomic. Qed.

Lemma put_fails_mono A b n m e : n <= m -> put_fails A b n e -> put_fails A b m e.
Proof.
  intros ? [?|[[? ?]|?]]; unfold put_fails; auto. right; left. split; [lia|done].
Qed.

#[export] Instance appends_bind A m1 m2 o1 o2 :
  Appends A m1 o1 -> Appends A m2 o2 -> Appends A (m1 ;;; m2) (o1 ++ o2).
Proof.
  intros H1 H2 b Hwf. specialize (H1 b Hwf). unfold bind.
  destruct (m1 b) as [[[]|e] b1]; destruct H1 as (Hwf1 & F1 & H1).
  - specialize (H2 b1 Hwf1). destruct (m2 b1) as [[[]|e] b2]; destruct H2 as (Hwf2 & F2 & H2).
    + rewrite H2, H1, (assoc_L (++)). eauto using same_frame_trans.
    + destruct H2 as ((pre & Hp & Hpre) & Hf). split_and!; eauto using same_frame_trans.
      { exists (o1 ++ pre). rewrite Hp, H1, (assoc_L (++)). split; [done|].
        by apply prefix_app. }
      destruct F1 as (Em & F1). unfold put_fails in *.
      rewrite H1, zlen_app, Em in Hf. rewrite zlen_app.
      rewrite (same_frame_writable b b1) in Hf by done.
      destruct Hf as [?|[[? ?]|?]]; auto. right; left. split; [lia|done].
  - destruct H1 as ((pre & Hp & Hpre) & Hf). split_and!; auto.
    + exists pre. split; [done|]. by apply prefix_app_r.
    + eapply put_fails_mono; [|done]. zl.
Qed.

#[export] Instance appends_ret A : Appends A (ret tt) [].
Proof. intros b Hwf. simpl. rewrite app_nil_r. auto with ssh. Qed.

(** A write succeeds where there is room for it. *)
Lemma appends_ok A m out b :
  Appends A m out -> alloc_ok A -> wf b -> writable b = true ->
  zlen (contents b) + zlen out <= b_max_size b ->
  exists b', m b = (Ok tt, b') /\ wf b' /\ same_frame b b' /\
             contents b' = contents b ++ out.
Proof.
  intros H HA Hwf W Hm. specialize (H b Hwf). destruct (m b) as [[[]|e] b'].
  - exists b'. by destruct H as (? & ? & ?).
  - destruct H as (_ & _ & _ & [[? _]|[[? _]|[_ (k & Hk)]]]).
    + congruence.
    + lia.
    + by apply HA in Hk.
Qed.

(** ** Lemmas: bignums *)

Lemma land_128 a : is_byte a -> (Z.land a 0x80 =? 0) = (a <? 128).
Proof.
  intros Ha. unfold in_range in Ha. change (Z.land a 0x80) with (Z.land a (2 ^ 7)).
  destruct (Z.ltb_spec a 128).
  - apply Z.eqb_eq. apply Z.bits_inj'. intros i Hi. rewrite Z.land_spec, Z.bits_0.
    destruct (decide (i = 7)) as [->|].
    + rewrite (testbit_high a 7); [done|unfold in_range; lia|lia].
    + by rewrite Z.pow2_bits_false, andb_false_r by done.
  - apply Z.eqb_neq. intros E. apply (f_equal (fun x => Z.testbit x 7)) in E.
    rewrite Z.land_spec, Z.pow2_bits_true, andb_true_r, Z.bits_0 in E by lia.
    assert (E' : Z.testbit (a - 128) 7 = negb (Z.testbit a 7)).
    { rewrite !Z.testbit_odd, !Z.shiftr_div_pow2 by lia.
      replace ((a - 128) / 2 ^ 7) with 0 by (Z.div_mod_to_equations; lia).
      replace (a / 2 ^ 7) with 1 by (Z.div_mod_to_equations; lia). done. }
    rewrite E in E'. rewrite (testbit_high (a - 128) 7) in E';
      [done|unfold in_range; lia|lia].
Qed.

Lemma trim_zeros_head v :
  trim_zeros v = [] \/ exists a s, trim_zeros v = a :: s /\ a <> 0.
Proof.
  induction v as [|a v IH]; [by left|]. destruct a; simpl; [done|right..]; eauto.
Qed.

Lemma trim_zeros_idemp v : trim_zeros (trim_zeros v) = trim_zeros v.
Proof.
  destruct (trim_zeros_head v) as [->|(a & s & -> & Ha)]; [done|]. by destruct a.
Qed.

Lemma bignum2_body_trim v : trim_zeros (bignum2_body v) = trim_zeros v.
Proof.
  unfold bignum2_body. destruct (_ && _); simpl; apply trim_zeros_idemp.
Qed.

Lemma be_value_trim v : be_value (trim_zeros v) = be_value v.
Proof.
  induction v as [|a v IH]; [done|]. destruct a; simpl; [|done..].
  rewrite IH, be_value_cons. lia.
Qed.

Lemma rd_bignum2_app v l :
  Bytes v -> zlen (trim_zeros v) <= SSHBUF_MAX_BIGNUM ->
  rd_bignum2 (wr_bignum2 v ++ l) = Ok (trim_zeros v, l).
Proof.
  intros HB Hl. unfold rd_bignum2, wr_bignum2.
  change SSHBUF_MAX_BIGNUM with 2048 in *. pose proof (zlen_nonneg (trim_zeros v)).
  assert (Hb : zlen (bignum2_body v) <= 1 + zlen (trim_zeros v))
    by (unfold bignum2_body; destruct (_ && _); zl).
  rewrite rd_string_app by (unfold WIRE_STRING_MAX; lia).
  rewrite bignum2_body_trim. apply trim_zeros_Bytes in HB.
  destruct (Z.ltb_spec (2048 + 1) (zlen (bignum2_body v))); [lia|]. simpl orb.
  unfold bignum2_body in *. destruct (trim_zeros v) as [|a s]; [done|].
  apply Forall_cons in HB as [Ha HB].
  change (byte_at (a :: s) 0) with a in *. rewrite land_128 in * by done.
  destruct (Z.ltb_spec 0 (zlen (a :: s))); [|zl]. simpl andb in *.
  destruct (Z.ltb_spec a 128) as [Ha'|Ha']; simpl negb in *; cbv iota in *.
  - change (byte_at (a :: s) 0) with a. rewrite land_128 by done.
    destruct (Z.ltb_spec a 128); [|lia]. rewrite andb_false_r.
    destruct (Z.eqb_spec (zlen (a :: s)) (2048 + 1)); [lia|done].
  - change (byte_at (0 :: a :: s) 0) with 0. rewrite !andb_false_r. done.
Qed.
