(* ===== verification/SshbufSpec.v ===== *)
(** The contract of the buffer: an abstract byte queue with a size limit that
    every sequence of buffer operations simulates, the invariant of every
    reachable buffer, and the round trip of whole messages. *)

From S2P Require Import Prelude Wire Sshbuf SshbufGetput.

(** ** Operations as data *)

Inductive buf_op : Type :=
| OpPut (v : bytes)
| OpPutU8 (v : Z) | OpPutU16 (v : Z) | OpPutU32 (v : Z) | OpPutU64 (v : Z)
| OpPutString (v : bytes)
| OpPutBignum (v : bytes)
| OpReserve (n : Z)
| OpConsume (n : Z)
| OpConsumeEnd (n : Z)
| OpSkipString
| OpSetMax (n : Z)
| OpReset.

(** The buffer after the call, whatever the call returned. *)
Definition exec (A : allocator) (op : buf_op) (b : sshbuf) : sshbuf :=
  match op with
  | OpPut v => snd (sshbuf_put A v (zlen v) b)
  | OpPutU8 v => snd (sshbuf_put_u8 A v b)
  | OpPutU16 v => snd (sshbuf_put_u16 A v b)
  | OpPutU32 v => snd (sshbuf_put_u32 A v b)
  | OpPutU64 v => snd (sshbuf_put_u64 A v b)
  | OpPutString v => snd (sshbuf_put_string A v (zlen v) b)
  | OpPutBignum v => snd (sshbuf_put_bignum2_bytes A v (zlen v) b)
  | OpReserve n => snd (sshbuf_reserve A n b)
  | OpConsume n => snd (sshbuf_consume n b)
  | OpConsumeEnd n => snd (sshbuf_consume_end n b)
  | OpSkipString => snd (sshbuf_skip_string b)
  | OpSetMax n => snd (sshbuf_set_max_size A n b)
  | OpReset => sshbuf_reset A b
  end.

(** A run: each call has its own allocator, so any pattern of allocation
    failures is covered. *)
Definition exec_all (ops : list (allocator * buf_op)) (b : sshbuf) : sshbuf :=
  fold_left (fun b '(A, op) => exec A op b) ops b.

(** Arguments in the range of their C types.  A size limit below the initial
    allocation is excluded: see [sshbuf_reset_small_max]. *)
Definition op_ok (op : buf_op) : Prop :=
  match op with
  | OpPut v | OpPutString v => Bytes v
  | OpPutBignum v => Bytes v /\ zlen v <= SSHBUF_SIZE_MAX - 5
  | OpPutU8 v => in_range 8 v
  | OpPutU16 v => in_range 16 v
  | OpPutU32 v => in_range 32 v
  | OpPutU64 v => in_range 64 v
  | OpReserve n | OpConsume n | OpConsumeEnd n => 0 <= n
  | OpSetMax n => SSHBUF_SIZE_INIT <= n
  | OpSkipString | OpReset => True
  end.

(** ** The abstract queue *)

Definition op_writes (op : buf_op) : option bytes :=
  match op with
  | OpPut v => Some v
  | OpPutU8 v => Some [v]
  | OpPutU16 v => Some (be_bytes 2 v)
  | OpPutU32 v => Some (be_bytes 4 v)
  | OpPutU64 v => Some (be_bytes 8 v)
  | OpPutString v => Some (wr_string v)
  | OpPutBignum v => Some (wr_bignum2 v)
  | _ => None
  end.

(** One call on the queue: the bytes to be read and the size limit. *)
Inductive qstep : buf_op -> bytes * Z -> bytes * Z -> Prop :=
| q_write op v q m :
    op_writes op = Some v -> zlen q + zlen v <= m -> qstep op (q, m) (q ++ v, m)
| q_reserve n v q m :
    zlen v = n -> zlen q + n <= m -> qstep (OpReserve n) (q, m) (q ++ v, m)
| q_consume n q m :
    n <= zlen q -> qstep (OpConsume n) (q, m) (zdrop n q, m)
| q_consume_end n q m :
    n <= zlen q -> qstep (OpConsumeEnd n) (q, m) (ztake (zlen q - n) q, m)
| q_skip q m v q' :
    rd_string q = Ok (v, q') -> qstep OpSkipString (q, m) (q', m)
| q_set_max n q m :
    zlen q <= n -> qstep (OpSetMax n) (q, m) (q, n)
| q_reset q m : qstep OpReset (q, m) ([], m)
| q_fail op q m : op <> OpReset -> qstep op (q, m) (q, m).

Inductive qsteps : list buf_op -> bytes * Z -> bytes * Z -> Prop :=
| qs_nil s : qsteps [] s s
| qs_cons op ops s1 s2 s3 : qstep op s1 s2 -> qsteps ops s2 s3 -> qsteps (op :: ops) s1 s3.

Definition abs (b : sshbuf) : bytes * Z := (contents b, b_max_size b).

(** ** Messages *)

Inductive field : Type :=
| FU8 (v : Z) | FU16 (v : Z) | FU32 (v : Z) | FU64 (v : Z)
| FString (v : bytes) | FBignum (v : bytes).
Inductive kind : Type := KU8 | KU16 | KU32 | KU64 | KString | KBignum.

Definition kind_of (f : field) : kind :=
  match f with
  | FU8 _ => KU8 | FU16 _ => KU16 | FU32 _ => KU32 | FU64 _ => KU64
  | FString _ => KString | FBignum _ => KBignum
  end.

Definition put_field (A : allocator) (f : field) : M sshbuf unit :=
  match f with
  | FU8 v => sshbuf_put_u8 A v
  | FU16 v => sshbuf_put_u16 A v
  | FU32 v => sshbuf_put_u32 A v
  | FU64 v => sshbuf_put_u64 A v
  | FString v => sshbuf_put_string A v (zlen v)
  | FBignum v => sshbuf_put_bignum2_bytes A v (zlen v)
  end.

Definition get_field (k : kind) : M sshbuf field :=
  match k with
  | KU8 => let! v := sshbuf_get_u8 in ret (FU8 v)
  | KU16 => let! v := sshbuf_get_u16 in ret (FU16 v)
  | KU32 => let! v := sshbuf_get_u32 in ret (FU32 v)
  | KU64 => let! v := sshbuf_get_u64 in ret (FU64 v)
  | KString => let! r := sshbuf_get_string_direct in ret (FString (direct_bytes r))
  | KBignum => let! v := sshbuf_get_bignum2_bytes_direct in ret (FBignum v)
  end.

Fixpoint put_fields (A : allocator) (fs : list field) : M sshbuf unit :=
  match fs with
  | [] => ret tt
  | f :: fs => put_field A f ;;; put_fields A fs
  end.

Fixpoint get_fields (ks : list kind) : M sshbuf (list field) :=
  match ks with
  | [] => ret []
  | k :: ks => let! f := get_field k in let! fs := get_fields ks in ret (f :: fs)
  end.

(** What a field reads back as: a bignum loses its leading zeros. *)
Definition canonical (f : field) : field :=
  match f with FBignum v => FBignum (trim_zeros v) | _ => f end.

Definition field_ok (f : field) : Prop :=
  match f with
  | FU8 v => in_range 8 v
  | FU16 v => in_range 16 v
  | FU32 v => in_range 32 v
  | FU64 v => in_range 64 v
  | FString v => Bytes v /\ zlen v <= WIRE_STRING_MAX
  | FBignum v => Bytes v /\ zlen v <= SSHBUF_SIZE_MAX - 5 /\
                 zlen (trim_zeros v) <= SSHBUF_MAX_BIGNUM
  end.

Definition field_wire (f : field) : bytes :=
  match f with
  | FU8 v => [v]
  | FU16 v => be_bytes 2 v
  | FU32 v => be_bytes 4 v
  | FU64 v => be_bytes 8 v
  | FString v => wr_string v
  | FBignum v => wr_bignum2 v
  end.

Definition message_wire (fs : list field) : bytes := concat (field_wire <$> fs).

Definition rd_field (k : kind) : reader field :=
  match k with
  | KU8 => rd_bind (rd_be 1) (fun v => rd_ret (FU8 v))
  | KU16 => rd_bind (rd_be 2) (fun v => rd_ret (FU16 v))
  | KU32 => rd_bind (rd_be 4) (fun v => rd_ret (FU32 v))
  | KU64 => rd_bind (rd_be 8) (fun v => rd_ret (FU64 v))
  | KString => rd_bind rd_string (fun v => rd_ret (FString v))
  | KBignum => rd_bind rd_bignum2 (fun v => rd_ret (FBignum v))
  end.

Fixpoint rd_fields (ks : list kind) : reader (list field) :=
  match ks with
  | [] => rd_ret []
  | k :: ks => rd_bind (rd_field k) (fun f => rd_bind (rd_fields ks) (fun fs => rd_ret (f :: fs)))
  end.

(** ** Lemmas *)

Lemma get_field_refines k : Refines (get_field k) (rd_field k).
Proof.
  destruct k; simpl; try apply _.
  apply (sshbuf_get_string_direct_refines (fun v => ret (FString v))). apply _.
Qed.

Lemma get_fields_refines ks : Refines (get_fields ks) (rd_fields ks).
Proof.
  induction ks as [|k ks IH]; simpl; [apply _|].
  apply refines_bind; [apply get_field_refines|]. intros f. apply _.
Qed.

Lemma put_field_appends A f : field_ok f -> Appends A (put_field A f) (field_wire f).
Proof.
  intros H. apply atomic_appends. destruct f; simpl in *.
  - by apply sshbuf_put_u8_atomic.
  - by apply sshbuf_put_u16_atomic.
  - by apply sshbuf_put_u32_atomic.
  - by apply sshbuf_put_u64_atomic.
  - by apply sshbuf_put_string_atomic, H.
  - by apply sshbuf_put_bignum2_bytes_atomic; apply H.
Qed.

Lemma put_fields_appends A fs :
  Forall field_ok fs -> Appends A (put_fields A fs) (message_wire fs).
Proof.
  induction 1 as [|f fs Hf Hfs IH]; simpl; [apply _|].
  apply appends_bind; [by apply put_field_appends|done].
Qed.

Lemma rd_field_wire f l :
  field_ok f -> rd_field (kind_of f) (field_wire f ++ l) = Ok (canonical f, l).
Proof.
  intros H. destruct f; cbv [kind_of rd_field field_wire canonical rd_bind rd_ret field_ok] in *.
  - assert (Hv : [v] = be_bytes 1 v).
    { unfold in_range in H. unfold be_bytes; simpl. by rewrite Z.mod_small by lia. }
    rewrite Hv. pose proof (rd_be_app 1 v l H) as E.
    change (Z.of_nat 1) with 1 in E. by rewrite E.
  - pose proof (rd_be_app 2 v l H) as E. change (Z.of_nat 2) with 2 in E. by rewrite E.
  - pose proof (rd_be_app 4 v l H) as E. change (Z.of_nat 4) with 4 in E. by rewrite E.
  - pose proof (rd_be_app 8 v l H) as E. change (Z.of_nat 8) with 8 in E. by rewrite E.
  - destruct H. by rewrite rd_string_app.
  - destruct H as (? & ? & ?). by rewrite rd_bignum2_app.
Qed.

Lemma message_wire_cons f fs : message_wire (f :: fs) = field_wire f ++ message_wire fs.
Proof. done. Qed.

Lemma rd_fields_wire fs l :
  Forall field_ok fs ->
  rd_fields (kind_of <$> fs) (message_wire fs ++ l) = Ok (canonical <$> fs, l).
Proof.
  induction 1 as [|f fs Hf Hfs IH]; [done|].
  rewrite message_wire_cons, <- (assoc_L (++)), !fmap_cons.
  cbn [rd_fields]. unfold rd_bind at 1. rewrite rd_field_wire by done.
  unfold rd_bind, rd_ret. by rewrite IH.
Qed.

(** *** Every operation simulates a step of the queue *)

(** The invariant of a run. *)
Definition inv (b : sshbuf) : Prop :=
  wf b /\ writable b = true /\ SSHBUF_SIZE_INIT <= b_max_size b.

Lemma same_frame_inv b b' : inv b -> wf b' -> same_frame b b' -> inv b'.
Proof.
  intros (_ & W & Hm) Hwf F. split_and!; [done| |].
  - by rewrite (same_frame_writable _ _ F).
  - by destruct F as (-> & _).
Qed.

Lemma appends_run A m out b b' :
  Appends A m out -> inv b -> m b = (Ok tt, b') -> inv b' /\ contents b' = contents b ++ out.
Proof.
  intros Hm Hb E. specialize (Hm b (proj1 Hb)). rewrite E in Hm. destruct Hm as (Hw & F & Hc).
  split; [by eapply same_frame_inv|done].
Qed.

Lemma buf_bytes_contents b : wf b -> buf_bytes b = contents b.
Proof. intros Hb. unfold buf_bytes. rewrite sshbuf_len_contents by done. by apply ptr_of_take. Qed.

Definition simulates (op : buf_op) (b b' : sshbuf) : Prop :=
  inv b' /\ qstep op (abs b) (abs b').

Lemma abs_frame b b' : same_frame b b' -> abs b' = (contents b', b_max_size b).
Proof. intros (E & _). unfold abs. by rewrite E. Qed.

Lemma exec_write A op m v b :
  op <> OpReset -> op_writes op = Some v -> appends_atomic A m v -> inv b ->
  simulates op b (snd (m b)).
Proof.
  intros Hop Hv H Hinv. specialize (H b (proj1 Hinv)). destruct (m b) as [r b'].
  destruct H as (Hwf & F & H). simpl. split; [by eapply same_frame_inv|].
  rewrite (abs_frame _ _ F). destruct r as [[]|e].
  - destruct H as (-> & _ & ?). by constructor.
  - destruct H as (-> & _). by apply q_fail.
Qed.

Lemma exec_reserve A n b : 0 <= n -> inv b -> simulates (OpReserve n) b (snd (sshbuf_reserve A n b)).
Proof.
  intros Hn Hinv. pose proof (sshbuf_reserve_spec A n b (proj1 Hinv) Hn) as P.
  destruct (sshbuf_reserve A n b) as [r b']. simpl.
  destruct P as (Hwf & F & P). split; [by eapply same_frame_inv|].
  rewrite (abs_frame _ _ F). destruct r as [i|e].
  - destruct P as (Hr & Hsz & Hoff & Hc). wf_unpack Hwf.
    destruct (check_reserve_ok b n (proj1 Hinv) Hn Hr).
    assert (contents b' = contents b ++ ztake n (zdrop i (b_mem b'))) as ->.
    { rewrite <- Hc. unfold contents. rewrite <- (ztake_zdrop (i - b_off b') (ztake _ _)).
      rewrite ztake_ztake, zdrop_ztake, zdrop_zdrop by lia. f_equal; f_equal; f_equal; lia. }
    apply q_reserve; zl.
  - destruct P as (-> & _). by apply q_fail.
Qed.

(** *** Runs *)

Lemma exec_simulates A op b : op_ok op -> inv b -> simulates op b (exec A op b).
Proof.
  intros Hop Hinv. pose proof (proj1 Hinv) as Hwf. destruct op; simpl in *.
  - by apply (exec_write A _ _ v), Hinv; [..|apply sshbuf_put_atomic].
  - by apply (exec_write A _ _ [v]), Hinv; [..|apply sshbuf_put_u8_atomic].
  - by apply (exec_write A _ _ (be_bytes 2 v)), Hinv; [..|apply sshbuf_put_u16_atomic].
  - by apply (exec_write A _ _ (be_bytes 4 v)), Hinv; [..|apply sshbuf_put_u32_atomic].
  - by apply (exec_write A _ _ (be_bytes 8 v)), Hinv; [..|apply sshbuf_put_u64_atomic].
  - by apply (exec_write A _ _ (wr_string v)), Hinv; [..|apply sshbuf_put_string_atomic].
  - by apply (exec_write A _ _ (wr_bignum2 v)), Hinv;
      [..|apply sshbuf_put_bignum2_bytes_atomic; apply Hop].
  - by apply exec_reserve.
  - pose proof (sshbuf_consume_spec n b Hwf Hop) as P.
    destruct (sshbuf_consume n b) as [r b']. destruct P as (Hwf' & F & P).
    split; [by eapply same_frame_inv|]. simpl. rewrite (abs_frame _ _ F).
    destruct (Z.ltb_spec (zlen (contents b)) n); destruct P as [_ ->];
      [by apply q_fail|by apply q_consume].
  - pose proof (sshbuf_consume_end_spec n b Hwf Hop) as P.
    destruct (sshbuf_consume_end n b) as [r b']. destruct P as (Hwf' & F & P).
    split; [by eapply same_frame_inv|]. simpl. rewrite (abs_frame _ _ F).
    destruct (Z.ltb_spec (zlen (contents b)) n); destruct P as [_ ->];
      [by apply q_fail|by apply q_consume_end].
  - pose proof (get_string_direct_spec b Hwf) as P.
    unfold sshbuf_skip_string, bind, ret.
    destruct (rd_string (contents b)) as [[v rest]|e] eqn:E.
    + destruct P as (b' & -> & _ & Hwf' & F & C). simpl.
      split; [by eapply same_frame_inv|]. rewrite (abs_frame _ _ F), C. by eapply q_skip.
    + rewrite P. simpl. split; [done|]. by apply q_fail.
  - assert (Hn : 0 <= n) by (unfold SSHBUF_SIZE_INIT in Hop; lia).
    pose proof (sshbuf_set_max_size_spec A n b Hwf Hn) as P.
    destruct (sshbuf_set_max_size A n b) as [r b']. destruct P as (Hwf' & F & C & P). simpl.
    assert (W : writable b' = true).
    { destruct F as (E1 & _ & E3 & _). destruct Hinv as (_ & <- & _).
      unfold writable. by rewrite E1, E3. }
    unfold simulates, inv, abs. rewrite C. destruct r as [[]|e].
    + rewrite P. split_and!; auto. apply q_set_max.
      rewrite <- C, contents_zlen by done. wf_unpack Hwf'. lia.
    + destruct P as (-> & _). split_and!; auto; [apply Hinv|]. by apply q_fail.
  - destruct (sshbuf_reset_spec A b Hwf) as (Hwf' & F & C); [intros _; apply Hinv|].
    split; [by eapply same_frame_inv|]. rewrite (abs_frame _ _ F), C. apply q_reset.
Qed.

Lemma exec_all_simulates ops b :
  Forall (fun '(_, op) => op_ok op) ops -> inv b ->
  inv (exec_all ops b) /\ qsteps (snd <$> ops) (abs b) (abs (exec_all ops b)).
Proof.
  revert b. induction ops as [|[A op] ops IH]; intros b Hops Hinv.
  - split; [done|constructor].
  - apply Forall_cons in Hops as [Hop Hops].
    destruct (exec_simulates A op b Hop Hinv) as (Hinv' & Hq).
    destruct (IH _ Hops Hinv') as (? & ?). split; [done|]. by econstructor.
Qed.

Lemma sshbuf_new_inv A b : sshbuf_new A = Some b -> inv b /\ contents b = [].
Proof.
  unfold sshbuf_new. destruct (A SIZEOF_SSHBUF) as [_|]; [|done].
  destruct (A SSHBUF_SIZE_INIT) as [[p junk]|]; [|done].
  intros [= <-]. unfold inv, SSHBUF_SIZE_INIT, SSHBUF_SIZE_MAX. simpl. split_and!; [|done|lia|done].
  constructor; simpl; unfold SSHBUF_SIZE_MAX, SSHBUF_SIZE_INIT; try lia; auto with ssh.
  apply sane_iff; simpl. unfold SSHBUF_SIZE_MAX, SSHBUF_REFS_MAX. intuition (congruence || lia).
Qed.

(** ** Buffers of a session: they are never shared or limited *)

Definition full (b : sshbuf) : Prop := wf b /\ writable b = true /\ b_max_size b = SSHBUF_SIZE_MAX.

Lemma same_frame_full b b' : full b -> wf b' -> same_frame b b' -> full b'.
Proof.
  intros (_ & Hw & Hm) Hwf Hf. split; [done|]. split; [by rewrite (same_frame_writable _ _ Hf)|].
  destruct Hf as [-> _]. done.
Qed.

Lemma full_new Al b : sshbuf_new Al = Some b -> full b /\ contents b = [].
Proof.
  intros E. destruct (sshbuf_new_inv _ _ E) as [(Hwf & Hw & _) Hc]. split; [|done]. split; [done|].
  split; [done|]. unfold sshbuf_new in E. destruct (Al SIZEOF_SSHBUF); [|done].
  destruct (Al SSHBUF_SIZE_INIT) as [[q j]|]; [|done]. by injection E as <-.
Qed.

Lemma full_reset Al b : full b -> full (sshbuf_reset Al b) /\ contents (sshbuf_reset Al b) = [].
Proof.
  intros Hb. pose proof Hb as (Hwf & Hw & Hm).
  destruct (sshbuf_reset_spec Al b Hwf) as (Hwf' & Hf & Hc); [intros _; rewrite Hm; done|].
  split; [by eapply same_frame_full|done].
Qed.

Lemma full_len b : full b -> sshbuf_len b = zlen (contents b) /\ zlen (contents b) <= SSHBUF_SIZE_MAX.
Proof.
  intros (Hwf & _ & Hm). split; [by apply sshbuf_len_contents|].
  rewrite contents_zlen by done. destruct (wf_ranges b Hwf) as (? & ? & ? & ?). rewrite <- Hm. lia.
Qed.

Lemma full_appends Al m v b :
  alloc_ok Al -> full b -> Appends Al m v -> zlen (contents b) + zlen v <= SSHBUF_SIZE_MAX ->
  exists b', m b = (Ok tt, b') /\ full b' /\ contents b' = contents b ++ v.
Proof.
  intros HA Hb Hap Hl. pose proof Hb as (Hwf & Hw & Hm).
  destruct (appends_ok Al m v b Hap HA Hwf Hw) as (b' & E & Hwf' & Hf & Hc); [by rewrite Hm|].
  exists b'. split; [done|]. split; [by eapply same_frame_full|done].
Qed.

Lemma full_put Al v b :
  alloc_ok Al -> full b -> Bytes v -> zlen (contents b) + zlen v <= SSHBUF_SIZE_MAX ->
  exists b', sshbuf_put Al v (zlen v) b = (Ok tt, b') /\ full b' /\ contents b' = contents b ++ v.
Proof. intros. apply (full_appends Al); auto. by apply atomic_appends, sshbuf_put_atomic. Qed.

Lemma full_consume n b :
  full b -> 0 <= n <= zlen (contents b) ->
  exists b', sshbuf_consume n b = (Ok tt, b') /\ full b' /\ contents b' = zdrop n (contents b).
Proof.
  intros Hb Hn. pose proof Hb as (Hwf & _ & _). pose proof (sshbuf_consume_spec n b Hwf ltac:(lia)) as H.
  destruct (sshbuf_consume n b) as [r b']. destruct H as (Hwf' & Hf & H).
  destruct (Z.ltb_spec (zlen (contents b)) n); [lia|]. destruct H as [-> Hc].
  exists b'. split; [done|]. split; [by eapply same_frame_full|done].
Qed.

Lemma full_consume_end n b :
  full b -> 0 <= n <= zlen (contents b) ->
  exists b', sshbuf_consume_end n b = (Ok tt, b') /\ full b' /\
    contents b' = ztake (zlen (contents b) - n) (contents b).
Proof.
  intros Hb Hn. pose proof Hb as (Hwf & _ & _). pose proof (sshbuf_consume_end_spec n b Hwf ltac:(lia)) as H.
  destruct (sshbuf_consume_end n b) as [r b']. destruct H as (Hwf' & Hf & H).
  destruct (Z.ltb_spec (zlen (contents b)) n); [lia|]. destruct H as [-> Hc].
  exists b'. split; [done|]. split; [by eapply same_frame_full|done].
Qed.

Lemma full_refines {X} (m : M sshbuf X) spec a rest b :
  Refines m spec -> full b -> spec (contents b) = Ok (a, rest) ->
  exists b', m b = (Ok a, b') /\ full b' /\ contents b' = rest.
Proof.
  intros Hm Hb E. pose proof (Hm b (proj1 Hb)) as H. rewrite E in H.
  destruct H as (b' & Em & Hwf & Hf & Hc). exists b'. split; [done|]. split; [by eapply same_frame_full|done].
Qed.

Lemma full_get_u8 b v rest :
  full b -> contents b = v :: rest ->
  exists b', sshbuf_get_u8 b = (Ok v, b') /\ full b' /\ contents b' = rest.
Proof.
  intros Hb Hc. apply (full_refines _ (rd_be 1)); [apply _|done|]. rewrite Hc. unfold rd_be, rd_bytes.
  destruct (Z.ltb_spec (zlen (v :: rest)) 1) as [Hl|]; [rewrite zlen_cons in Hl; pose proof (zlen_nonneg rest); lia|].
  done.
Qed.

(** Storing into what the buffer holds. *)
Lemma full_store b i v :
  full b -> Bytes v -> 0 <= i -> i + zlen v <= zlen (contents b) ->
  full (set_mem (write_at (b_off b + i) v (b_mem b)) b) /\
  contents (set_mem (write_at (b_off b + i) v (b_mem b)) b) = write_at i v (contents b).
Proof.
  intros Hb HB Hi Hl. pose proof Hb as (Hwf & Hw & Hm). rewrite contents_zlen in Hl by done.
  destruct (wf_ranges b Hwf) as (R1 & R2 & R3 & R4). destruct (wf_ptr_facts b Hwf) as (P1 & P2).
  pose proof (zlen_nonneg v) as Hv. assert (Hz : zlen (write_at (b_off b + i) v (b_mem b)) = zlen (b_mem b))
    by (apply zlen_write_at; lia).
  split.
  - split; [|done]. apply (wf_intro b); try done; cbn; try lia.
    apply Bytes_write_at; [done|]. apply wf_bytes, Hwf.
  - unfold contents. cbn. unfold write_at.
    rewrite zdrop_app_le by (rewrite zlen_ztake; lia). rewrite zdrop_ztake by lia.
    replace (b_off b + i - b_off b) with i by lia.
    rewrite ztake_app_ge by (rewrite zlen_ztake by (rewrite zlen_zdrop; lia); lia).
    rewrite zlen_ztake by (rewrite zlen_zdrop; lia). rewrite ztake_app_ge by lia.
    rewrite ztake_ztake, Z.min_l by lia. do 2 f_equal. rewrite zdrop_ztake, zdrop_zdrop by lia.
    replace (b_size b - b_off b - i - zlen v) with (b_size b - b_off b - (i + zlen v)) by lia.
    by replace (b_off b + i + zlen v) with (b_off b + (i + zlen v)) by lia.
Qed.

Lemma sshbuf_new_some A : alloc_ok A -> exists b, sshbuf_new A = Some b.
Proof.
  intros HA. unfold sshbuf_new. pose proof (HA SIZEOF_SSHBUF). pose proof (HA SSHBUF_SIZE_INIT).
  destruct (A SIZEOF_SSHBUF); [|done]. destruct (A SSHBUF_SIZE_INIT) as [[q l]|]; [|done]. eauto.
Qed.

(** An allocator that never fails, for the witnesses. *)
Definition test_alloc : allocator := fun n => Some (Z.to_pos (n + 1), fun i => i * 7 + 3).

Lemma test_alloc_ok : alloc_ok test_alloc.
Proof. done. Qed.

(** A new buffer whose limit has been set to [n]. *)
Definition small_buf (n : Z) : sshbuf :=
  match sshbuf_new test_alloc with
  | Some b => snd (sshbuf_set_max_size test_alloc n b)
  | None => sshbuf_init test_alloc
  end.

Lemma small_buf_wf n : 0 <= n -> wf (small_buf n).
Proof.
  intros Hn. unfold small_buf. destruct (sshbuf_new test_alloc) as [b|] eqn:E; [|done].
  destruct (sshbuf_new_inv _ _ E) as ((Hwf & _) & _).
  pose proof (sshbuf_set_max_size_spec test_alloc n b Hwf Hn) as P.
  by destruct (sshbuf_set_max_size test_alloc n b) as [r b']; destruct P.
Qed.

(** ** Properties *)


Definition demo_ops : list (allocator * buf_op) :=
  [(test_alloc, OpPutString (cstr "ssh-rsa")); (test_alloc, OpPutBignum [0; 200; 1]);
   (fun _ => None, OpPut (zrep 300 1)); (test_alloc, OpSkipString);
   (test_alloc, OpConsume 2); (test_alloc, OpReset)].


(** C17. A message of any fields written to an empty buffer that has room for it
    is read back field by field, bignums without leading zeros, and the buffer
    is empty again. *)
Theorem message_roundtrip A fs b :
  wf b -> writable b = true -> contents b = [] -> alloc_ok A ->
  Forall field_ok fs -> zlen (message_wire fs) <= b_max_size b ->
  exists b1 b2,
    put_fields A fs b = (Ok tt, b1) /\
    get_fields (kind_of <$> fs) b1 = (Ok (canonical <$> fs), b2) /\
    wf b2 /\ contents b2 = [].
Proof.
  intros Hwf W Hc HA Hfs Hlen.
  destruct (appends_ok A (put_fields A fs) (message_wire fs) b) as (b1 & E1 & Hwf1 & _ & C1);
    auto using put_fields_appends.
  { rewrite Hc, zlen_nil. lia. }
  rewrite Hc in C1. simpl in C1.
  pose proof (get_fields_refines (kind_of <$> fs) b1 Hwf1) as R.
  rewrite C1, <- (app_nil_r (message_wire fs)), rd_fields_wire in R by done.
  destruct R as (b2 & E2 & Hwf2 & _ & C2). eauto 10.
Qed.

Definition demo_fields : list field :=
  [FU8 20; FString (cstr "ssh-rsa"); FBignum [0; 200; 1]; FU64 12345678901234].

Lemma message_roundtrip_witness :
  exists b1 b2,
    put_fields test_alloc demo_fields (small_buf 100) = (Ok tt, b1) /\
    get_fields (kind_of <$> demo_fields) b1 = (Ok (canonical <$> demo_fields), b2) /\
    wf b2 /\ contents b2 = [].
Proof.
  apply (message_roundtrip test_alloc demo_fields (small_buf 100)).
  - apply small_buf_wf. lia.
  - reflexivity.
  - vm_compute; reflexivity.
  - apply test_alloc_ok.
  - repeat constructor; vm_compute; congruence.
  - vm_compute; congruence.
Defined.

(** What [sshbuf_put] returns and does, on every branch, when memory does
    not run out: a read-only or shared buffer and a write beyond the size
    limit are refused without any change of the contents. *)
Theorem sshbuf_put_functional A v b :
  wf b -> Bytes v -> alloc_ok A ->
  let '(r, b') := sshbuf_put A v (zlen v) b in
  wf b' /\
  if negb (writable b) then r = Err SSH_ERR_BUFFER_READ_ONLY /\ contents b' = contents b
  else if b_max_size b <? zlen (contents b) + zlen v
       then r = Err SSH_ERR_NO_BUFFER_SPACE /\ contents b' = contents b
       else r = Ok tt /\ contents b' = contents b ++ v.
Proof.
  intros Hwf HB HA. pose proof (sshbuf_put_atomic A v HB b Hwf) as H.
  pose proof (sshbuf_reserve_spec A (zlen v) b Hwf (zlen_nonneg v)) as P.
  pose proof (sshbuf_check_reserve_spec (zlen v) b Hwf (zlen_nonneg v)) as C.
  unfold sshbuf_put, bind in *. destruct (sshbuf_reserve A (zlen v) b) as [[i|e] b1].
  - destruct P as (_ & _ & Hr & _). rewrite Hr in C.
    destruct (negb (writable b)); [done|]. destruct (_ <? _); [done|].
    destruct (negb (zlen v =? 0)); simpl in *; tauto.
  - destruct P as (? & _ & ? & [Hr|[_ (n & Hn)]]); [|by apply HA in Hn].
    rewrite Hr in C. split; [done|]. destruct (negb (writable b)); [by simplify_eq|].
    by destruct (_ <? _); simplify_eq.
Qed.

Lemma sshbuf_put_functional_witness :
  let b := small_buf 300 in
  let '(r, b') := sshbuf_put test_alloc (zrep 301 7) 301 b in
  r = Err SSH_ERR_NO_BUFFER_SPACE /\ contents b' = [].
Proof.
  pose proof (sshbuf_put_functional test_alloc (zrep 301 7) (small_buf 300)
    (small_buf_wf 300 ltac:(lia)) (Bytes_zrep 301 7 ltac:(vm_compute; split; congruence))
    test_alloc_ok) as H.
  revert H. vm_compute. intros [_ H]. exact H.
Defined.

(** What [sshbuf_get_string_direct] reads is exactly what the wire format
    says: the length-prefixed string with the rest left in the buffer, or
    the error for a short buffer or an oversized length, with the buffer
    unchanged. *)
Theorem sshbuf_get_string_direct_functional b :
  wf b ->
  match rd_string (contents b) with
  | Ok (v, rest) => exists p b',
      sshbuf_get_string_direct b = (Ok (p, zlen v), b') /\ ztake (zlen v) p = v /\
      wf b' /\ contents b' = rest
  | Err e => sshbuf_get_string_direct b = (Err e, b)
  end.
Proof.
  intros Hwf. pose proof (get_string_direct_spec b Hwf) as P.
  destruct (rd_string (contents b)) as [[v rest]|e]; [|done].
  destruct P as (b' & ? & ? & ? & ? & ?). eauto 10.
Qed.

Lemma sshbuf_get_string_direct_functional_witness :
  sshbuf_get_string_direct (snd (sshbuf_put test_alloc [0; 0; 0; 9; 1] 5 (small_buf 300)))
  = (Err SSH_ERR_MESSAGE_INCOMPLETE, snd (sshbuf_put test_alloc [0; 0; 0; 9; 1] 5 (small_buf 300))).
Proof.
  set (b := snd _). assert (Hwf : wf b).
  { pose proof (sshbuf_put_atomic test_alloc [0; 0; 0; 9; 1]
      ltac:(repeat constructor; vm_compute; congruence) (small_buf 300)
      (small_buf_wf 300 ltac:(lia))) as H.
    change (zlen [0; 0; 0; 9; 1]) with 5 in H. unfold b.
    destruct (sshbuf_put test_alloc [0; 0; 0; 9; 1] 5 (small_buf 300)) as [r b'].
    exact (proj1 H). }
  pose proof (sshbuf_get_string_direct_functional b Hwf) as H.
  replace (rd_string (contents b)) with (@Err (bytes * bytes) SSH_ERR_MESSAGE_INCOMPLETE) in H
    by (vm_compute; reflexivity).
  exact H.
Defined.

(** [sshbuf_reset] breaks a buffer whose size limit is below the initial
    allocation: it reallocates to SSHBUF_SIZE_INIT bytes regardless of the
    limit, and the next operation's sanity check fails. *)
Theorem sshbuf_reset_small_max A b :
  wf b -> writable b = true -> b_max_size b < SSHBUF_SIZE_INIT ->
  A SSHBUF_SIZE_INIT <> None ->
  sshbuf_check_sanity (sshbuf_reset A b) = Err SSH_ERR_INTERNAL_ERROR /\
  b_max_size (sshbuf_reset A b) < b_alloc (sshbuf_reset A b).
Proof.
  intros Hwf W Hm HA. wf_unpack Hwf. unfold SSHBUF_SIZE_INIT in *.
  assert (E : b_max_size (sshbuf_reset A b) = b_max_size b /\
              b_alloc (sshbuf_reset A b) = 256).
  { unfold sshbuf_reset. rewrite writable_test, W, (wf_sane _ Hwf). simpl.
    change SSHBUF_SIZE_INIT with 256. destruct (Z.eqb_spec (b_alloc b) 256); [lia|]. simpl.
    by destruct (A 256) as [[p junk]|]. }
  destruct E as [E1 E2]. rewrite E1, E2. split; [|lia].
  destruct (sshbuf_check_sanity (sshbuf_reset A b)) as [[]|e] eqn:E.
  - apply sane_iff in E. lia.
  - unfold sshbuf_check_sanity in E. by destruct (_ || _); simplify_eq.
Qed.

Lemma sshbuf_reset_small_max_witness :
  sshbuf_check_sanity (sshbuf_reset test_alloc (small_buf 100)) = Err SSH_ERR_INTERNAL_ERROR /\
  b_max_size (sshbuf_reset test_alloc (small_buf 100)) <
  b_alloc (sshbuf_reset test_alloc (small_buf 100)).
Proof.
  apply sshbuf_reset_small_max.
  - apply small_buf_wf. lia.
  - vm_compute; reflexivity.
  - vm_compute; reflexivity.
  - apply test_alloc_ok.
Defined.
