(* ===== verification/SshbufHeap.v ===== *)
(** Parents and children: the reference counting of sshbuf.c
    ([sshbuf_set_parent], [sshbuf_fromb], [sshbuf_free]) and [sshbuf_froms] of
    sshbuf-getput-basic.c, on a heap of buffers.

    A [struct sshbuf *] is an index of the heap.  [freed] records the objects
    given back to the allocator, so that a buffer whose bytes have been freed
    can be told apart from a live one. *)

From S2P Require Import Prelude Wire Sshbuf SshbufGetput SshbufSpec.

Record heap : Type := mk_heap {
  bufs : gmap nat sshbuf;
  next : nat;
  freed : list (positive * Z)
}.

Definition upd (i : nat) (b : sshbuf) (h : heap) : heap :=
  mk_heap (<[i := b]> (bufs h)) (next h) (freed h).

(** [calloc] of a [struct sshbuf] at a fresh address. *)
Definition new_buf (b : sshbuf) (h : heap) : nat * heap :=
  (next h, mk_heap (<[next h := b]> (bufs h)) (S (next h)) (freed h)).

(** ** Operations *)

(** The sanity check of a pointer; a pointer that is not in the heap is a
    dangling one and fails the check. *)
Definition sane_at (i : nat) (h : heap) : result sshbuf :=
  match bufs h !! i with
  | None => Err SSH_ERR_INTERNAL_ERROR
  | Some b => match sshbuf_check_sanity b with Ok _ => Ok b | Err r => Err r end
  end.

Definition sshbuf_set_parent (child parent : nat) : M heap unit := fun h =>
  match sane_at child h with
  | Err r => (Err r, h)
  | Ok c =>
      match sane_at parent h with
      | Err r => (Err r, h)
      | Ok _ =>
          let h := upd child (set_parent (Some parent) c) h in
          match bufs h !! parent with
          | Some p => (Ok tt, upd parent (set_refcount (u32 (b_refcount p + 1)) p) h)
          | None => (Ok tt, h)
          end
      end
  end.

(** [free(buf->d)] of a buffer that is not read-only, and [free(buf)] unless
    [dont_free]; the struct is zeroed first. *)
Definition release (i : nat) (b : sshbuf) (h : heap) : heap :=
  let fr := if b_readonly b then freed h
            else match b_d b with Some p => (p, b_alloc b) :: freed h | None => freed h end in
  if b_dont_free b
  then mk_heap (<[i := mk_sshbuf None None 0 0 0 0 false false 0 None []]> (bufs h)) (next h) fr
  else mk_heap (delete i (bufs h)) (next h) fr.

(** The recursion follows the chain of parents; [fuel] bounds its length. *)
Fixpoint sshbuf_free (fuel : nat) (buf : option nat) (h : heap) : heap :=
  match fuel, buf with
  | _, None => h
  | O, _ => h
  | S fuel, Some i =>
      match sane_at i h with
      | Err _ => h
      | Ok b =>
          let h := sshbuf_free fuel (b_parent b) h in
          let b := default b (bufs h !! i) in
          let b := set_parent None b in
          let b := set_refcount (u32 (b_refcount b - 1)) b in
          let h := upd i b h in
          if 0 <? b_refcount b then h else release i b h
      end
  end.

(** [buf->cd + buf->off] as an address. *)
Definition addr_of (b : sshbuf) : positive :=
  Z.to_pos (match b_cd b with Some p => Zpos p | None => 0 end + b_off b).

Definition sshbuf_fromb (A : allocator) (i : nat) : M heap (option nat) := fun h =>
  match sane_at i h with
  | Err _ => (Ok None, h)
  | Ok b =>
      match sshbuf_from A (Some (addr_of b, ptr_of b)) (sshbuf_len b) with
      | None => (Ok None, h)
      | Some c =>
          let '(j, h) := new_buf c h in
          match sshbuf_set_parent j i h with
          | (Ok _, h) => (Ok (Some j), h)
          | (Err _, h) => (Ok None, sshbuf_free (S j) (Some j) h)
          end
      end
  end.

Definition sshbuf_froms (A : allocator) (i : nat) : M heap nat := fun h =>
  match bufs h !! i with
  | None => (Err SSH_ERR_INVALID_ARGUMENT, h)
  | Some b =>
      match sshbuf_peek_string_direct b with
      | Err r => (Err r, h)
      | Ok (p, len) =>
          match sshbuf_from A (Some (Pos.add (addr_of b) 4, p)) len with
          | None => (Err SSH_ERR_ALLOC_FAIL, h)
          | Some c =>
              let '(j, h) := new_buf c h in
              match sshbuf_consume (u64 (len + 4)) b with
              | (Err r, b) => (Err r, sshbuf_free (S j) (Some j) (upd i b h))
              | (Ok _, b) =>
                  match sshbuf_set_parent j i (upd i b h) with
                  | (Err r, h) => (Err r, sshbuf_free (S j) (Some j) h)
                  | (Ok _, h) => (Ok j, h)
                  end
              end
          end
      end
  end.

(** ** The invariant of the heap *)

Definition children (m : gmap nat sshbuf) (i : nat) : nat :=
  size (filter (fun kb => b_parent kb.2 = Some i) m).

(** What holds of each buffer made by [sshbuf_new], [sshbuf_fromb] and
    [sshbuf_froms]. *)
Definition buf_ok (b : sshbuf) : Prop :=
  wf b /\ b_dont_free b = false /\ (b_readonly b = false -> SSHBUF_SIZE_INIT <= b_max_size b).

(** [held i] is the number of references to buffer [i] that the program itself
    holds: 1 from its creation to the call of [sshbuf_free]. *)
Record heap_ok (held : nat -> Z) (h : heap) : Prop := {
  ok_wf i b : bufs h !! i = Some b -> buf_ok b;
  ok_parent i b p : bufs h !! i = Some b -> b_parent b = Some p ->
                    (p < i)%nat /\ is_Some (bufs h !! p);
  ok_count i b : bufs h !! i = Some b -> b_refcount b = held i + Z.of_nat (children (bufs h) i);
  ok_held i : 0 <= held i /\ (0 < held i -> is_Some (bufs h !! i));
  ok_next i b : bufs h !! i = Some b -> (i < next h)%nat
}.

Definition add_held (held : nat -> Z) (i : nat) (n : Z) : nat -> Z :=
  fun j => if decide (j = i) then held j + n else held j.

(** ** Lemmas: counting children *)

Lemma children_insert_new m i b j :
  m !! i = None ->
  children (<[i := b]> m) j = (children m j + if decide (b_parent b = Some j) then 1 else 0)%nat.
Proof.
  intros Hi. unfold children. case_decide as E.
  - rewrite map_filter_insert_True by done. rewrite map_size_insert_None; [lia|].
    apply map_lookup_filter_None. auto.
  - rewrite map_filter_insert_not' by (intros; simplify_eq/=; congruence). lia.
Qed.

Lemma children_delete m i b j :
  m !! i = Some b ->
  children m j = (children (delete i m) j + if decide (b_parent b = Some j) then 1 else 0)%nat.
Proof.
  intros Hi. rewrite <- (insert_delete_id m i b Hi) at 1.
  apply children_insert_new, lookup_delete_eq.
Qed.

Lemma children_replace m i b b' j :
  m !! i = Some b ->
  (children (<[i := b']> m) j + (if decide (b_parent b = Some j) then 1 else 0) =
   children m j + if decide (b_parent b' = Some j) then 1 else 0)%nat.
Proof.
  intros Hi. rewrite <- insert_delete_eq. rewrite children_insert_new by apply lookup_delete_eq.
  rewrite (children_delete m i b j Hi). lia.
Qed.

(** ** Lemmas: the invariant does not depend on how [held] is written *)

#[export] Instance heap_ok_proper :
  Proper (pointwise_relation nat eq ==> eq ==> iff) heap_ok.
Proof.
  assert (H : forall held held' h, pointwise_relation nat eq held held' ->
                heap_ok held h -> heap_ok held' h).
  { intros held held' h E [H1 H2 H3 H4 H5]. constructor; eauto.
    - intros i b Hi. rewrite <- E. eauto.
    - intros i. rewrite <- E. eauto. }
  intros held held' E h ? <-. split; apply H; [done|by symmetry].
Qed.

Lemma add_held_cancel held i n :
  pointwise_relation nat eq (add_held (add_held held i n) i (- n)) held.
Proof. intros j. unfold add_held. case_decide; lia. Qed.

(** ** Lemmas: [sshbuf_free] *)

Lemma wf_set_parent_None b : wf b -> wf (set_parent None b).
Proof.
  intros H. pose proof (proj1 (sane_iff b) (wf_sane _ H)). destruct H.
  constructor; simpl; try done. apply sane_iff; simpl. tauto.
Qed.

Lemma wf_set_parent_Some p b : wf b -> b_dont_free b = false -> wf (set_parent (Some p) b).
Proof.
  intros H Hd. pose proof (proj1 (sane_iff b) (wf_sane _ H)). destruct H.
  constructor; simpl; try done. apply sane_iff; simpl. rewrite Hd. intuition congruence.
Qed.

Lemma wf_set_refcount n b : wf b -> 1 <= n <= SSHBUF_REFS_MAX -> wf (set_refcount n b).
Proof.
  intros H Hn. pose proof (proj1 (sane_iff b) (wf_sane _ H)). destruct H.
  constructor; simpl; try done. apply sane_iff; simpl. tauto.
Qed.

Lemma wf_refcount b : wf b -> 1 <= b_refcount b <= 1048576.
Proof. intros H. pose proof (proj1 (sane_iff b) (wf_sane _ H)). unfold SSHBUF_REFS_MAX in *. tauto. Qed.

Lemma sane_at_wf h i b : bufs h !! i = Some b -> wf b -> sane_at i h = Ok b.
Proof. intros E H. unfold sane_at. by rewrite E, (wf_sane _ H). Qed.

Lemma children_pos m i j b : m !! j = Some b -> b_parent b = Some i -> (0 < children m i)%nat.
Proof.
  intros Hj Hp. rewrite (children_delete m j b i Hj). rewrite decide_True by done. lia.
Qed.

(** A buffer above the whole chain is not touched by [sshbuf_free]. *)
Definition chain_dec (h : heap) : Prop :=
  forall i b p, bufs h !! i = Some b -> b_parent b = Some p -> (p < i)%nat.

Lemma upd_upd i b b' h : upd i b' (upd i b h) = upd i b' h.
Proof. unfold upd; simpl. by rewrite insert_insert_eq. Qed.
Lemma upd_comm i j b b' h : i <> j -> upd i b (upd j b' h) = upd j b' (upd i b h).
Proof. intros. unfold upd; simpl. by rewrite insert_insert_ne. Qed.
Lemma release_upd_comm i j b b' h :
  i <> j -> release i b (upd j b' h) = upd j b' (release i b h).
Proof.
  intros. unfold release, upd. destruct (b_dont_free b); simpl; f_equal.
  - by rewrite insert_insert_ne.
  - by rewrite delete_insert_ne.
Qed.
Lemma release_lookup_ne i j b h : i <> j -> bufs (release i b h) !! j = bufs h !! j.
Proof.
  intros. unfold release. destruct (b_dont_free b); simpl.
  - by rewrite lookup_insert_ne.
  - by rewrite lookup_delete_ne.
Qed.

Lemma sshbuf_free_frame fuel : forall q h, chain_dec h ->
  (forall i, (q < i)%nat -> bufs (sshbuf_free fuel (Some q) h) !! i = bufs h !! i) /\
  (forall i b, (q < i)%nat ->
     sshbuf_free fuel (Some q) (upd i b h) = upd i b (sshbuf_free fuel (Some q) h)).
Proof.
  induction fuel as [|fuel IH]; intros q h Hdec; [done|].
  assert (Hlk : forall i b, (q < i)%nat -> sane_at q (upd i b h) = sane_at q h).
  { intros. unfold sane_at, upd; simpl. by rewrite lookup_insert_ne by lia. }
  cbn [sshbuf_free]. destruct (sane_at q h) as [b0|e] eqn:Hs.
  2: { split; [done|]. intros i b Hi. by rewrite Hlk by done. }
  assert (Hb0 : bufs h !! q = Some b0).
  { unfold sane_at in Hs. destruct (bufs h !! q) as [b1|]; [|done].
    destruct (sshbuf_check_sanity b1); [|done]. by simplify_eq. }
  assert (Hrec : exists g : heap -> heap,
     (forall i, (q <= i)%nat -> bufs (g h) !! i = bufs h !! i) /\
     (forall i b, (q < i)%nat -> g (upd i b h) = upd i b (g h)) /\
     g = sshbuf_free fuel (b_parent b0)).
  { eexists; split_and!; [| |done]; destruct (b_parent b0) as [r|] eqn:Hp;
      try (by destruct fuel);
      destruct (IH r h Hdec) as (F1 & F2); pose proof (Hdec _ _ _ Hb0 Hp).
    - intros. apply F1. lia.
    - intros. apply F2. lia. }
  destruct Hrec as (g & G1 & G2 & Hg). rewrite <- Hg. split.
  - intros i Hi. destruct (0 <? _); [|rewrite release_lookup_ne by lia];
      unfold upd; simpl; rewrite lookup_insert_ne by lia; apply G1; lia.
  - intros i b Hi. rewrite Hlk by done. rewrite <- Hg, G2 by done.
    replace (bufs (upd i b (g h)) !! q) with (bufs (g h) !! q)
      by (unfold upd; simpl; by rewrite lookup_insert_ne by lia).
    set (b1 := set_refcount _ _). rewrite (upd_comm q i) by lia.
    destruct (0 <? b_refcount b1); [done|]. by rewrite release_upd_comm by lia.
Qed.

(** Giving up the last step: a buffer without parent loses one reference. *)
Lemma drop_reference held h i b :
  heap_ok held h -> bufs h !! i = Some b -> b_parent b = None -> 0 < held i ->
  let b' := set_refcount (u32 (b_refcount b - 1)) b in
  heap_ok (add_held held i (-1))
    (if 0 <? b_refcount b' then upd i b' h else release i b' (upd i b' h)).
Proof.
  intros [H1 H2 H3 H4 H5] Hi Hp Hh b'. destruct (H1 _ _ Hi) as (Hwf & Hdf & Hmx).
  pose proof (wf_refcount _ Hwf) as Hr. pose proof (H3 _ _ Hi) as Hc.
  assert (Hb' : b_refcount b' = b_refcount b - 1) by (simpl; unwrap; done).
  assert (Hch : forall j, children (<[i := b']> (bufs h)) j = children (bufs h) j).
  { intros j. pose proof (children_replace (bufs h) i b b' j Hi).
    simpl in *. destruct (decide (b_parent b = Some j)); lia. }
  destruct (Z.ltb_spec 0 (b_refcount b')) as [Hpos|Hzero].
  - constructor; unfold upd; simpl.
    + intros j c. rewrite lookup_insert. case_decide; [|by apply H1].
      intros [= <-]. split; [|done]. apply wf_set_refcount; [done|].
      unfold SSHBUF_REFS_MAX. unwrap. lia.
    + intros j c p. rewrite lookup_insert. case_decide.
      * intros [= <-]. simpl. by rewrite Hp.
      * intros Hj Hjp. destruct (H2 _ _ _ Hj Hjp) as (? & ?). split; [done|].
        rewrite lookup_insert. case_decide; eauto.
    + intros j c. rewrite lookup_insert. rewrite Hch. unfold add_held. case_decide.
      * intros [= <-]. subst. rewrite decide_True by done. rewrite Hb'. lia.
      * intros Hj. rewrite decide_False by done. by apply H3.
    + intros j. unfold add_held. destruct (H4 j). case_decide; [subst|]; (split; [lia|]);
        intros; rewrite lookup_insert; case_decide; eauto with lia.
    + intros j c. rewrite lookup_insert. case_decide; subst; eauto.
  - assert (Hh1 : held i = 1 /\ children (bufs h) i = 0%nat) by lia. destruct Hh1 as (Hh1 & Hc0).
    unfold release, upd. replace (b_dont_free b') with false by (symmetry; exact Hdf). cbn [bufs next]. rewrite delete_insert_eq.
    assert (Hch' : forall j, children (delete i (bufs h)) j = children (bufs h) j).
    { intros j. pose proof (children_delete (bufs h) i b j Hi).
      rewrite Hp in *. rewrite decide_False in * by done. lia. }
    constructor; simpl.
    + intros j c [_ Hj]%lookup_delete_Some. by eapply H1.
    + intros j c p [Hne Hj]%lookup_delete_Some Hjp. destruct (H2 _ _ _ Hj Hjp) as (? & ?).
      split; [done|]. rewrite lookup_delete_ne; [done|]. intros ->.
      pose proof (children_pos _ _ _ _ Hj Hjp). lia.
    + intros j c [Hne Hj]%lookup_delete_Some. rewrite Hch'. unfold add_held.
      rewrite decide_False by done. by apply H3.
    + intros j. unfold add_held. destruct (H4 j). case_decide; [subst|]; split; try lia.
      intros. rewrite lookup_delete_ne by done. eauto.
    + intros j c [_ Hj]%lookup_delete_Some. eauto.
Qed.

(** Forgetting the parent [p]: its reference is now held by the caller. *)
Lemma clear_parent held h i b p :
  heap_ok held h -> bufs h !! i = Some b -> b_parent b = Some p ->
  heap_ok (add_held held p 1) (upd i (set_parent None b) h).
Proof.
  intros [H1 H2 H3 H4 H5] Hi Hp. destruct (H2 _ _ _ Hi Hp) as (Hlt & Hpe).
  assert (Hch : forall j, (children (<[i := set_parent None b]> (bufs h)) j +
      if decide (j = p) then 1 else 0)%nat = children (bufs h) j).
  { intros j. pose proof (children_replace (bufs h) i b (set_parent None b) j Hi) as E.
    rewrite Hp in E. simpl b_parent in E.
    destruct (decide (j = p)), (decide (Some p = Some j)), (decide (None = Some j));
      simplify_eq; lia. }
  constructor; unfold upd; simpl.
  - intros j c. rewrite lookup_insert. case_decide; [|by eapply H1].
    intros [= <-]. destruct (H1 _ _ Hi). split; [by apply wf_set_parent_None|done].
  - intros j c q. rewrite lookup_insert. case_decide; [by intros [= <-]|].
    intros Hj Hjq. destruct (H2 _ _ _ Hj Hjq). split; [done|].
    rewrite lookup_insert. case_decide; eauto.
  - intros j c. rewrite lookup_insert. specialize (Hch j). unfold add_held.
    destruct (decide (i = j)).
    + intros [= <-]. subst. specialize (H3 _ _ Hi). simpl.
      rewrite decide_False in Hch by lia. rewrite decide_False by lia. lia.
    + intros Hj. specialize (H3 _ _ Hj). destruct (decide (j = p)); lia.
  - intros j. unfold add_held. destruct (H4 j). rewrite lookup_insert.
    destruct (decide (i = j)), (decide (j = p)); subst; split; try lia; eauto.
  - intros j c. rewrite lookup_insert. case_decide; subst; eauto.
Qed.

Lemma heap_ok_chain held h : heap_ok held h -> chain_dec h.
Proof. intros H i b p Hi Hp. by destruct (ok_parent _ _ H _ _ _ Hi Hp). Qed.

Lemma sshbuf_free_ok fuel : forall held h i,
  heap_ok held h -> 0 < held i -> (i < fuel)%nat ->
  heap_ok (add_held held i (-1)) (sshbuf_free fuel (Some i) h).
Proof.
  induction fuel as [|fuel IH]; intros held h i H Hh Hf; [lia|].
  destruct (ok_held _ _ H i) as (_ & [b Hi]); [done|].
  pose proof (ok_wf _ _ H _ _ Hi) as (Hwf & _). cbn [sshbuf_free].
  rewrite (sane_at_wf h i b Hi Hwf). destruct (b_parent b) as [p|] eqn:Hp.
  - destruct (ok_parent _ _ H _ _ _ Hi Hp) as (Hlt & _).
    destruct (sshbuf_free_frame fuel p h (heap_ok_chain _ _ H)) as (F1 & F2).
    rewrite F1, Hi by done. simpl default.
    pose proof (clear_parent _ _ _ _ _ H Hi Hp) as H1.
    assert (Hh' : forall j, 0 <= held j) by (intros j; apply (ok_held _ _ H)).
    apply (IH _ _ p) in H1; [|unfold add_held; rewrite decide_True by done; specialize (Hh' p); lia|lia].
    rewrite F2 in H1 by done. rewrite add_held_cancel in H1.
    apply (drop_reference _ _ i (set_parent None b)) in H1; [|apply lookup_insert_eq|done|done].
    rewrite upd_upd in H1. exact H1.
  - assert (set_parent None b = b) as Hb by (destruct b; simpl in *; by subst).
    replace (sshbuf_free fuel None h) with h by (by destruct fuel). rewrite Hi. simpl default.
    rewrite Hb. by apply drop_reference.
Qed.

(** ** Lemmas: the operations that make and change buffers *)

(** A buffer may be replaced by one with the same references. *)
Lemma upd_ok held h i b b' :
  heap_ok held h -> bufs h !! i = Some b -> buf_ok b' ->
  b_parent b' = b_parent b -> b_refcount b' = b_refcount b ->
  heap_ok held (upd i b' h).
Proof.
  intros [H1 H2 H3 H4 H5] Hi Hb Hp Hr.
  assert (Hch : forall j, children (<[i := b']> (bufs h)) j = children (bufs h) j).
  { intros j. pose proof (children_replace (bufs h) i b b' j Hi) as E. rewrite Hp in E. lia. }
  constructor; unfold upd; simpl.
  - intros j c. rewrite lookup_insert. case_decide; [by intros [= <-]|by eapply H1].
  - intros j c q. rewrite !lookup_insert. destruct (decide (i = j)) as [->|].
    + intros [= <-]. rewrite Hp. intros E. destruct (H2 _ _ _ Hi E). split; [done|].
      case_decide; eauto.
    + intros Hj E. destruct (H2 _ _ _ Hj E). split; [done|]. case_decide; eauto.
  - intros j c. rewrite lookup_insert, Hch. case_decide; [|by apply H3].
    intros [= <-]. subst. rewrite Hr. by apply H3.
  - intros j. destruct (H4 j). split; [done|]. rewrite lookup_insert. case_decide; eauto.
  - intros j c. rewrite lookup_insert. case_decide; subst; eauto.
Qed.

Lemma exec_buf_ok A op b :
  op_ok op -> buf_ok b ->
  buf_ok (exec A op b) /\ b_parent (exec A op b) = b_parent b /\
  b_refcount (exec A op b) = b_refcount b.
Proof.
  intros Hop (Hwf & Hd & Hm).
  assert (F : forall b', wf b' /\ same_frame b b' ->
     buf_ok b' /\ b_parent b' = b_parent b /\ b_refcount b' = b_refcount b).
  { intros b' (? & E1 & E2 & E3 & E4 & E5). unfold buf_ok. rewrite E1, E2, E3. auto. }
  assert (W : forall m v, appends_atomic A m v -> wf (snd (m b)) /\ same_frame b (snd (m b))).
  { intros m v H. specialize (H b Hwf). destruct (m b). simpl. tauto. }
  destruct op; simpl in *; try solve [apply F; eapply W; eauto using sshbuf_put_atomic,
    sshbuf_put_u8_atomic, sshbuf_put_u16_atomic, sshbuf_put_u32_atomic,
    sshbuf_put_u64_atomic, sshbuf_put_string_atomic].
  - apply F; eapply W. apply sshbuf_put_bignum2_bytes_atomic; apply Hop.
  - apply F. pose proof (sshbuf_reserve_spec A n b Hwf Hop). destruct (sshbuf_reserve A n b). tauto.
  - apply F. pose proof (sshbuf_consume_spec n b Hwf Hop). destruct (sshbuf_consume n b). tauto.
  - apply F. pose proof (sshbuf_consume_end_spec n b Hwf Hop).
    destruct (sshbuf_consume_end n b). tauto.
  - apply F. pose proof (sshbuf_skip_string_refines b Hwf) as P.
    unfold rd_bind, rd_ret in P.
    destruct (rd_string (contents b)) as [[x l]|e]; destruct P as (b' & -> & P); simpl; tauto.
  - assert (Hn : 0 <= n) by (unfold SSHBUF_SIZE_INIT in Hop; lia).
    pose proof (sshbuf_set_max_size_spec A n b Hwf Hn) as P.
    destruct (sshbuf_set_max_size A n b) as [r b']. destruct P as (Hwf' & (E1&E2&E3&E4) & _ & P).
    simpl. unfold buf_ok. rewrite E1, E2. split_and!; auto. intros E.
    destruct r; [by rewrite P|]. destruct P as (-> & _). auto.
  - apply F. destruct (sshbuf_reset_spec A b Hwf); [|tauto].
    intros W'. apply Hm. unfold writable in W'. by destruct (b_readonly b).
Qed.

(** A new buffer without parent, held once. *)
Definition fresh (c : sshbuf) : Prop :=
  buf_ok c /\ b_parent c = None /\ b_refcount c = 1.

Lemma new_buf_ok held h c :
  heap_ok held h -> fresh c ->
  heap_ok (add_held held (next h) 1) (snd (new_buf c h)) /\
  bufs h !! next h = None /\ held (next h) = 0.
Proof.
  intros [H1 H2 H3 H4 H5] (Hc & Hp & Hr).
  assert (Hn : bufs h !! next h = None).
  { destruct (bufs h !! next h) eqn:E; [apply H5 in E; lia|done]. }
  assert (Hh : held (next h) = 0).
  { destruct (H4 (next h)) as (G & E). destruct (decide (0 < held (next h))) as [Z0|]; [|lia].
    destruct (E Z0). congruence. }
  assert (Hch : forall j, children (<[next h := c]> (bufs h)) j = children (bufs h) j).
  { intros j. rewrite children_insert_new by done. rewrite Hp. rewrite decide_False by done. lia. }
  assert (Hch0 : children (bufs h) (next h) = 0%nat).
  { unfold children. apply map_size_empty_iff, map_empty. intros j.
    apply map_lookup_filter_None. right. intros x Hx E. simpl in E.
    destruct (H2 _ _ _ Hx E) as (_ & [? ?]). congruence. }
  split; [|done]. constructor; simpl.
  - intros j b. rewrite lookup_insert. case_decide; [by intros [= <-]|by eapply H1].
  - intros j b q. rewrite !lookup_insert. destruct (decide (next h = j)).
    + intros [= <-]. by rewrite Hp.
    + intros Hj E. destruct (H2 _ _ _ Hj E). split; [done|]. case_decide; eauto.
  - intros j b. rewrite lookup_insert, Hch. unfold add_held. destruct (decide (next h = j)).
    + intros [= <-]. subst. rewrite decide_True, Hch0, Hh, Hr by done. lia.
    + intros. rewrite decide_False by done. by apply H3.
  - intros j. unfold add_held. destruct (H4 j). rewrite lookup_insert.
    destruct (decide (next h = j)); subst.
    + rewrite decide_True by done. split; [lia|eauto].
    + rewrite decide_False by done. auto.
  - intros j b. rewrite lookup_insert. case_decide; [lia|]. intros. eapply H5 in H0. lia.
Qed.

Lemma sshbuf_set_parent_ok held h j c i b :
  heap_ok held h -> bufs h !! j = Some c -> b_parent c = None -> (i < j)%nat ->
  bufs h !! i = Some b -> b_refcount b < SSHBUF_REFS_MAX ->
  exists h', sshbuf_set_parent j i h = (Ok tt, h') /\ heap_ok held h'.
Proof.
  intros [H1 H2 H3 H4 H5] Hj Hc Hlt Hi Hr.
  destruct (H1 _ _ Hj) as (Wc & Dc & Mc). destruct (H1 _ _ Hi) as (Wb & Db & Mb).
  pose proof (wf_refcount _ Wb) as Hrb. unfold SSHBUF_REFS_MAX in Hr.
  unfold sshbuf_set_parent. rewrite (sane_at_wf h j c Hj Wc), (sane_at_wf h i b Hi Wb).
  cbn [upd bufs]. rewrite lookup_insert_ne, Hi by lia. eexists. split; [done|].
  set (c' := set_parent (Some i) c). set (b' := set_refcount _ b).
  assert (Eb : b_refcount b' = b_refcount b + 1) by (simpl; unwrap; done).
  assert (Hch : forall k, (children (<[i := b']> (<[j := c']> (bufs h))) k =
      children (bufs h) k + if decide (k = i) then 1 else 0)%nat).
  { intros k. pose proof (children_replace (<[j := c']> (bufs h)) i b b' k) as E1.
    rewrite lookup_insert_ne in E1 by lia. specialize (E1 Hi).
    pose proof (children_replace (bufs h) j c c' k Hj) as E2. simpl b_parent in *.
    rewrite Hc in E2.
    destruct (decide (k = i)), (decide (Some i = Some k)), (decide (None = Some k));
      simplify_eq; lia. }
  constructor; unfold upd; simpl bufs.
  - intros k d. rewrite !lookup_insert. destruct (decide (i = k)).
    + intros [= <-]. split; [|done]. apply wf_set_refcount; [done|].
      unfold SSHBUF_REFS_MAX. unwrap. lia.
    + case_decide; [|by eapply H1]. intros [= <-]. split; [by apply wf_set_parent_Some|done].
  - intros k d q. rewrite !lookup_insert. destruct (decide (i = k)) as [->|].
    + intros [= <-]. simpl. intros E. destruct (H2 _ _ _ Hi E). split; [done|].
      rewrite decide_False by lia. case_decide; eauto.
    + destruct (decide (j = k)) as [->|].
      * intros [= <-] [= <-]. rewrite decide_True by done. eauto.
      * intros Hk E. destruct (H2 _ _ _ Hk E). split; [done|]. repeat case_decide; eauto.
  - intros k d. rewrite Hch, !lookup_insert. destruct (decide (i = k)) as [->|].
    + intros [= <-]. rewrite (decide_True (P := k = k)) by done. rewrite Eb, (H3 _ _ Hi). lia.
    + rewrite (decide_False (P := k = i)) by congruence. destruct (decide (j = k)) as [->|].
      * intros [= <-]. simpl. rewrite (H3 _ _ Hj). lia.
      * intros Hk. rewrite (H3 _ _ Hk). lia.
  - intros k. destruct (H4 k). split; [done|]. intros. rewrite !lookup_insert.
    repeat case_decide; eauto.
  - intros k d. rewrite !lookup_insert. repeat case_decide; subst; eauto.
Qed.

(** What [sshbuf_from] makes from the front of a well-formed object. *)
Lemma sshbuf_from_fresh A p l len c :
  sshbuf_from A (Some (p, l)) len = Some c -> 0 <= len <= zlen l -> Bytes l ->
  fresh c /\ b_readonly c = true /\ contents c = ztake len l.
Proof.
  unfold sshbuf_from. intros E Hlen HB. destruct (Z.ltb_spec SSHBUF_SIZE_MAX len); [done|].
  destruct (A SIZEOF_SSHBUF); [|done]. injection E as <-. unfold SSHBUF_SIZE_MAX in *.
  assert (Hl : zlen (ztake len l) = len) by zl.
  assert (Hc : contents (mk_sshbuf None (Some p) 0 len len len true false 1 None (ztake len l))
               = ztake len l).
  { unfold contents; simpl. rewrite Z.sub_0_r, zdrop_0, ztake_ge; [done|lia]. }
  split_and!; [|done|done]. split_and!; [|done|done]. split_and!; [|done|done].
  constructor; simpl; auto with ssh; unfold SSHBUF_SIZE_MAX; try lia.
  apply sane_iff; simpl. unfold SSHBUF_SIZE_MAX, SSHBUF_REFS_MAX. intuition (congruence || lia).
Qed.

Lemma new_child_ok held h i b c :
  heap_ok held h -> bufs h !! i = Some b -> b_refcount b < SSHBUF_REFS_MAX -> fresh c ->
  exists h', sshbuf_set_parent (next h) i (snd (new_buf c h)) = (Ok tt, h') /\
             heap_ok (add_held held (next h) 1) h'.
Proof.
  intros H Hi Hr Hc. destruct (new_buf_ok held h c H Hc) as (H1 & Hn & Hh).
  pose proof (ok_next _ _ H _ _ Hi). destruct Hc as (_ & Hp & _).
  eapply (sshbuf_set_parent_ok _ _ (next h) c i b H1); auto; simpl.
  - apply lookup_insert_eq.
  - by rewrite lookup_insert_ne by lia.
Qed.

Lemma sshbuf_fromb_ok A held h i b :
  heap_ok held h -> bufs h !! i = Some b -> b_refcount b < SSHBUF_REFS_MAX ->
  let '(r, h') := sshbuf_fromb A i h in
  match r with
  | Ok (Some j) => j = next h /\ heap_ok (add_held held j 1) h'
  | _ => h' = h
  end.
Proof.
  intros H Hi Hr. destruct (ok_wf _ _ H _ _ Hi) as (Hwf & _). unfold sshbuf_fromb.
  rewrite (sane_at_wf h i b Hi Hwf), sshbuf_len_contents by done.
  destruct (sshbuf_from _ _ _) as [c|] eqn:E; [|done].
  destruct (sshbuf_from_fresh _ _ _ _ _ E) as (Hc & _).
  { pose proof (ptr_of_zlen b Hwf). zl. }
  { by apply ptr_of_Bytes. }
  destruct (new_child_ok held h i b c H Hi Hr Hc) as (h' & E1 & H'). simpl in E1.
  cbn [new_buf]. rewrite E1. done.
Qed.

Lemma sshbuf_froms_ok A held h i b :
  heap_ok held h -> bufs h !! i = Some b -> b_refcount b < SSHBUF_REFS_MAX ->
  let '(r, h') := sshbuf_froms A i h in
  match r with
  | Ok j => j = next h /\ heap_ok (add_held held j 1) h'
  | _ => h' = h
  end.
Proof.
  intros H Hi Hr. destruct (ok_wf _ _ H _ _ Hi) as (Hwf & Hd & Hm). unfold sshbuf_froms.
  rewrite Hi. pose proof (peek_string_spec b Hwf) as P.
  destruct (rd_string (contents b)) as [[v rest]|e]; [|by rewrite P].
  destruct P as (-> & P2 & P3 & P4 & P5). pose proof (zlen_nonneg v).
  destruct (sshbuf_from _ _ _) as [c|] eqn:E; [|done].
  destruct (sshbuf_from_fresh _ _ _ _ _ E) as (Hc & _).
  { split; [lia|]. rewrite <- P2 at 1. apply zlen_ztake_le. }
  { apply Forall_zdrop. by apply ptr_of_Bytes. }
  cbn [new_buf].
  assert (Hc0 := contents_zlen b Hwf). wf_unpack Hwf. unwrap.
  pose proof (sshbuf_consume_spec (zlen v + 4) b Hwf ltac:(lia)) as Q.
  destruct (sshbuf_consume (zlen v + 4) b) as [r b']. destruct Q as (Hwf' & F & Q).
  destruct (Z.ltb_spec (zlen (contents b)) (zlen v + 4)); [lia|]. destruct Q as (-> & _).
  destruct F as (F1 & F2 & F3 & F4 & F5).
  assert (HU : heap_ok held (upd i b' h)).
  { apply (upd_ok held h i b b'); auto. unfold buf_ok. by rewrite F1, F2, F3. }
  destruct (new_child_ok held (upd i b' h) i b' c HU) as (h' & E1 & H').
  { apply lookup_insert_eq. }
  { by rewrite F4. }
  { done. }
  pose proof (ok_next _ _ H _ _ Hi).
  replace (upd i b' _) with (snd (new_buf c (upd i b' h))).
  - simpl next in *. rewrite E1. done.
  - unfold new_buf, upd; simpl. by rewrite insert_insert_ne by lia.
Qed.

(** A buffer with several references refuses every write and resize. *)
Lemma exec_shared A op b :
  wf b -> 1 < b_refcount b ->
  b_d (exec A op b) = b_d b /\ b_mem (exec A op b) = b_mem b /\
  b_alloc (exec A op b) = b_alloc b.
Proof.
  intros Hwf HR%Z.ltb_lt.
  assert (C : forall n, sshbuf_check_reserve n b = Err SSH_ERR_BUFFER_READ_ONLY).
  { intros n. unfold sshbuf_check_reserve. by rewrite (wf_sane _ Hwf), HR, orb_true_r. }
  assert (K : forall n X (k : Z -> M sshbuf X),
            snd (bind (sshbuf_reserve A n) k b) = b).
  { intros n X k. unfold sshbuf_reserve, sshbuf_allocate, bind, get_state, lift. by rewrite C. }
  assert (Q : forall n, let b' := snd (sshbuf_consume n b) in
            b_d b' = b_d b /\ b_mem b' = b_mem b /\ b_alloc b' = b_alloc b).
  { intros n. unfold sshbuf_consume, bind, lift, get_state, ret, fail, put_state.
    rewrite (wf_sane _ Hwf). by repeat case_match. }
  destruct op; cbn [exec].
  - unfold sshbuf_put. by rewrite K.
  - unfold sshbuf_put_u8. by rewrite K.
  - unfold sshbuf_put_u16. by rewrite K.
  - unfold sshbuf_put_u32. by rewrite K.
  - unfold sshbuf_put_u64. by rewrite K.
  - unfold sshbuf_put_string. case_match; [done|]. by rewrite K.
  - unfold sshbuf_put_bignum2_bytes. case_match; [done|]. by rewrite K.
  - unfold sshbuf_reserve, sshbuf_allocate, bind, get_state, lift. by rewrite C.
  - apply Q.
  - unfold sshbuf_consume_end, bind, lift, get_state, ret, fail, put_state.
    rewrite (wf_sane _ Hwf). by repeat case_match.
  - unfold sshbuf_skip_string, sshbuf_get_string_direct, bind, lift, ret, get_state.
    destruct (sshbuf_peek_string_direct b) as [[p len]|e]; [|done].
    specialize (Q (u64 (len + 4))). destruct (sshbuf_consume _ b) as [[[]|e] b'];
      exact Q.
  - unfold sshbuf_set_max_size, bind, lift, get_state, ret, fail.
    rewrite (wf_sane _ Hwf), HR, orb_true_r. by repeat case_match.
  - unfold sshbuf_reset. by rewrite HR, orb_true_r.
Qed.

(** ** Runs *)

(** Every sequence of calls in which the program frees only what it holds and
    a buffer gets at most SSHBUF_REFS_MAX references.  [held] counts the
    references of the program itself; each call has its own allocator. *)
Inductive heap_run : (nat -> Z) -> heap -> Prop :=
| run_empty : heap_run (fun _ => 0) (mk_heap ∅ 0 [])
| run_new A held h b :
    heap_run held h -> sshbuf_new A = Some b ->
    heap_run (add_held held (next h) 1) (snd (new_buf b h))
| run_op A op i b held h :
    heap_run held h -> bufs h !! i = Some b -> op_ok op ->
    heap_run held (upd i (exec A op b) h)
| run_fromb A i b held h r h' :
    heap_run held h -> bufs h !! i = Some b -> b_refcount b < SSHBUF_REFS_MAX ->
    sshbuf_fromb A i h = (r, h') ->
    heap_run (match r with Ok (Some j) => add_held held j 1 | _ => held end) h'
| run_froms A i b held h r h' :
    heap_run held h -> bufs h !! i = Some b -> b_refcount b < SSHBUF_REFS_MAX ->
    sshbuf_froms A i h = (r, h') ->
    heap_run (match r with Ok j => add_held held j 1 | _ => held end) h'
| run_free fuel i held h :
    heap_run held h -> 0 < held i -> (i < fuel)%nat ->
    heap_run (add_held held i (-1)) (sshbuf_free fuel (Some i) h).

Lemma heap_empty_ok : heap_ok (fun _ => 0) (mk_heap ∅ 0 []).
Proof. constructor; simpl; intros *; rewrite ?lookup_empty; done || lia. Qed.

Lemma heap_run_ok held h : heap_run held h -> heap_ok held h.
Proof.
  induction 1 as [|A held h b H IH Hb|A op i b held h H IH Hi Hop
    |A i b held h r h' H IH Hi Hr E|A i b held h r h' H IH Hi Hr E|fuel i held h H IH Hh Hf].
  - apply heap_empty_ok.
  - destruct (sshbuf_new_inv _ _ Hb) as ((Hwf & W & Hm) & _).
    apply new_buf_ok; [done|]. unfold sshbuf_new in Hb.
    destruct (A SIZEOF_SSHBUF); [|done]. destruct (A SSHBUF_SIZE_INIT) as [[? ?]|]; [|done].
    by injection Hb as <-.
  - destruct (exec_buf_ok A op b Hop (ok_wf _ _ IH _ _ Hi)) as (? & ? & ?).
    by eapply upd_ok.
  - pose proof (sshbuf_fromb_ok A held h i b IH Hi Hr) as P. rewrite E in P.
    destruct r as [[j|]|e]; [by destruct P|by subst..].
  - pose proof (sshbuf_froms_ok A held h i b IH Hi Hr) as P. rewrite E in P.
    destruct r as [j|e]; [by destruct P|by subst].
  - by apply sshbuf_free_ok.
Qed.

Lemma heap_ok_unheld held h :
  heap_ok held h -> (forall i, held i = 0) -> bufs h = ∅.
Proof.
  intros H Hh. apply map_empty.
  assert (forall n i, (next h - i <= n)%nat -> bufs h !! i = None) as G; [|intros i; by eapply G].
  induction n as [|n IH]; intros i Hn; destruct (bufs h !! i) as [b|] eqn:Hi; try done;
    pose proof (ok_next _ _ H _ _ Hi); [lia|].
  pose proof (ok_count _ _ H _ _ Hi) as Hc. rewrite Hh in Hc.
  pose proof (wf_refcount b ltac:(by eapply ok_wf)).
  destruct (decide (children (bufs h) i = 0%nat)) as [|Hk]; [lia|].
  unfold children in Hk. rewrite map_size_empty_iff in Hk.
  apply map_choose in Hk as (j & c & [Hj Hp]%map_lookup_filter_Some). simpl in Hp.
  destruct (ok_parent _ _ H _ _ _ Hj Hp). rewrite IH in Hj; [done|lia].
Qed.

(** [sshbuf_free] on a chain of two children: the program makes A, B from A and
    C from B, and frees A and B. *)
Definition freed_under_child (v : bytes) : heap :=
  match sshbuf_new test_alloc with
  | None => mk_heap ∅ 0 []
  | Some a =>
      let '(ia, h) := new_buf (exec test_alloc (OpPut v) a) (mk_heap ∅ 0 []) in
      match sshbuf_fromb test_alloc ia h with
      | (Ok (Some ib), h) =>
          match sshbuf_fromb test_alloc ib h with
          | (Ok (Some ic), h) => sshbuf_free 3 (Some ib) (sshbuf_free 3 (Some ia) h)
          | (_, h) => h
          end
      | (_, h) => h
      end
  end.

(** ** Properties *)

(** C18. Whatever sequence of creations, operations, child buffers and releases
    a program performs, reference counts are exact: a buffer the program holds
    and the parent of every live buffer are live, and once the program has
    given up every buffer it made, nothing is left allocated. *)
Theorem sshbuf_refcounts_exact held h :
  heap_run held h ->
  (forall i, 0 < held i -> is_Some (bufs h !! i)) /\
  (forall i b, bufs h !! i = Some b ->
     wf b /\ b_refcount b = held i + Z.of_nat (children (bufs h) i) /\
     forall p, b_parent b = Some p -> is_Some (bufs h !! p)) /\
  ((forall i, held i = 0) -> bufs h = ∅).
Proof.
  intros Hrun. pose proof (heap_run_ok _ _ Hrun) as H. split_and!.
  - intros i. apply (ok_held _ _ H).
  - intros i b Hi. split_and!.
    + by eapply ok_wf.
    + by apply (ok_count _ _ H).
    + intros p Hp. by destruct (ok_parent _ _ H _ _ _ Hi Hp).
  - by apply heap_ok_unheld.
Qed.

Definition root_buf : sshbuf := default (sshbuf_init test_alloc) (sshbuf_new test_alloc).

Lemma sshbuf_refcounts_exact_witness :
  let h := snd (new_buf root_buf (mk_heap ∅ 0 [])) in
  let h' := snd (sshbuf_fromb test_alloc 0 h) in
  let h'' := sshbuf_free 2 (Some 1%nat) (sshbuf_free 1 (Some 0%nat) h') in
  bufs h'' = ∅.
Proof.
  intros h h' h''.
  assert (R : heap_run (add_held (add_held (add_held (add_held (fun _ => 0) 0 1) 1 1) 0 (-1)) 1 (-1)) h'').
  { apply run_free; [|vm_compute; reflexivity|lia].
    apply run_free; [|vm_compute; reflexivity|lia].
    apply (run_fromb test_alloc 0 root_buf (add_held (fun _ => 0) 0 1) h (Ok (Some 1%nat)) h').
    - apply (run_new test_alloc (fun _ => 0) (mk_heap ∅ 0 []) root_buf); [apply run_empty|done].
    - vm_compute; reflexivity.
    - vm_compute; reflexivity.
    - vm_compute; reflexivity. }
  apply (sshbuf_refcounts_exact _ _ R).
  intros [|[|i]]; vm_compute; reflexivity.
Defined.

(** C20. While a buffer that the program holds has a live child, no operation on
    it moves or changes the object the child points into. *)
Theorem sshbuf_shared_object_frozen held h i b j c A op :
  heap_run held h -> 0 < held i ->
  bufs h !! i = Some b -> bufs h !! j = Some c -> b_parent c = Some i ->
  b_d (exec A op b) = b_d b /\ b_mem (exec A op b) = b_mem b /\
  b_alloc (exec A op b) = b_alloc b.
Proof.
  intros Hrun Hh Hi Hj Hp. pose proof (heap_run_ok _ _ Hrun) as H.
  pose proof (ok_count _ _ H _ _ Hi) as Hc. pose proof (children_pos _ _ _ _ Hj Hp).
  destruct (ok_wf _ _ H _ _ Hi) as (Hwf & _).
  apply exec_shared; [done|lia].
Qed.

Lemma sshbuf_shared_object_frozen_witness :
  let h := snd (new_buf root_buf (mk_heap ∅ 0 [])) in
  let h' := snd (sshbuf_fromb test_alloc 0 h) in
  b_mem (exec test_alloc (OpPutU8 7) (set_refcount 2 root_buf)) = b_mem root_buf.
Proof.
  intros h h'.
  assert (R : heap_run (add_held (add_held (fun _ => 0) 0 1) 1 1) h').
  { apply (run_fromb test_alloc 0 root_buf (add_held (fun _ => 0) 0 1) h (Ok (Some 1%nat)) h').
    - apply (run_new test_alloc (fun _ => 0) (mk_heap ∅ 0 []) root_buf); [apply run_empty|done].
    - vm_compute; reflexivity.
    - vm_compute; reflexivity.
    - vm_compute; reflexivity. }
  destruct (bufs h' !! 1%nat) as [c|] eqn:E; [|by vm_compute in E].
  assert (Hc : b_parent c = Some 0%nat) by (vm_compute in E; by injection E as <-).
  apply (sshbuf_shared_object_frozen _ h' 0 (set_refcount 2 root_buf) 1 c test_alloc (OpPutU8 7) R);
    [vm_compute; reflexivity..|done|done].
Defined.

(** [sshbuf_free] of a buffer that still has children gives up the
    buffer's own reference to its parent: when A is the parent of B and B of C
    and the program frees A and B, the object of A is freed while C, which
    points into it, is still live. *)
Theorem sshbuf_free_dangling_child :
  let h := freed_under_child (cstr "secret") in
  exists c p n, bufs h !! 2%nat = Some c /\ wf c /\ contents c = cstr "secret" /\
    In (p, n) (freed h) /\ Zpos p <= Zpos (addr_of c) < Zpos p + n.
Proof.
  intros h. destruct (bufs h !! 2%nat) as [c|] eqn:E; [|by vm_compute in E].
  vm_compute in E. injection E as <-. eexists _, 257%positive, 256. split; [done|].
  split_and!; [|done|left; done|done..]. constructor; try (vm_compute; intuition congruence).
  vm_compute. repeat constructor; congruence.
Qed.
