(* ===== verification/CString.v ===== *)
(** C strings and the functions of the C library that the string code uses.

    A [char *] is the list of the bytes from it to the terminating NUL, so
    [*s == '\0'] is [s = []] and advancing the pointer drops bytes. *)

From S2P Require Import Prelude.

(** [ch "x"] is the character constant 'x'. *)
Definition ch (s : String.string) : Z := match cstr s with c :: _ => c | [] => 0 end.
#[global] Arguments ch s%_string_scope.

(** ** <ctype.h> in the C locale *)

Definition isdigit (c : Z) : bool := (ch "0" <=? c) && (c <=? ch "9").
Definition isupper (c : Z) : bool := (ch "A" <=? c) && (c <=? ch "Z").
Definition tolower (c : Z) : Z := if isupper c then c + 32 else c.
Definition isspace (c : Z) : bool := (c =? 32) || ((9 <=? c) && (c <=? 13)).

(** ** <string.h> *)

(** [strchr]: the suffix that starts with [c]. *)
Fixpoint strchr (s : bytes) (c : Z) : option bytes :=
  match s with
  | [] => None
  | x :: s' => if x =? c then Some s else strchr s' c
  end.

Fixpoint strrchr (s : bytes) (c : Z) : option bytes :=
  match s with
  | [] => None
  | x :: s' =>
      match strrchr s' c with
      | Some r => Some r
      | None => if x =? c then Some s else None
      end
  end.

(** The part of [s] before the first [c]: what is left of the string when a NUL
    is stored over that character. *)
Fixpoint before (s : bytes) (c : Z) : bytes :=
  match s with
  | [] => []
  | x :: s' => if x =? c then [] else x :: before s' c
  end.

Fixpoint strspn (s accept : bytes) : Z :=
  match s with
  | [] => 0
  | x :: s' => if existsb (Z.eqb x) accept then 1 + strspn s' accept else 0
  end.
Fixpoint strcspn (s reject : bytes) : Z :=
  match s with
  | [] => 0
  | x :: s' => if existsb (Z.eqb x) reject then 0 else 1 + strcspn s' reject
  end.

Definition strcmp_eq (a b : bytes) : bool := bool_decide (a = b).

(** [strsep(&sp, d)] for a single delimiter: the token and the new [sp], which
    is NULL when no delimiter is left. *)
Definition strsep (sp : option bytes) (d : Z) : option bytes * option bytes :=
  match sp with
  | None => (None, None)
  | Some s =>
      (Some (before s d), match strchr s d with Some r => Some (tail r) | None => None end)
  end.

(** All the tokens of a string. *)
Fixpoint split_on (d : Z) (s : bytes) : list bytes :=
  match s with
  | [] => [[]]
  | x :: s' =>
      if x =? d then [] :: split_on d s'
      else match split_on d s' with
           | t :: ts => (x :: t) :: ts
           | [] => [[x]]
           end
  end.

(** ** <stdlib.h> *)

Fixpoint digits_value (acc : Z) (s : bytes) : Z * bytes :=
  match s with
  | [] => (acc, [])
  | c :: s' => if isdigit c then digits_value (acc * 10 + (c - ch "0")) s' else (acc, s)
  end.

Fixpoint skip_spaces (s : bytes) : bytes :=
  match s with
  | c :: s' => if isspace c then skip_spaces s' else s
  | [] => []
  end.

(** The optional sign of a number. *)
Definition number_sign (s : bytes) : bool * bytes :=
  match s with
  | c :: s' => if c =? ch "-" then (true, s') else if c =? ch "+" then (false, s') else (false, s)
  | [] => (false, [])
  end.

Definition starts_digit (s : bytes) : bool :=
  match s with c :: _ => isdigit c | [] => false end.

Definition ULONG_MAX : Z := 2 ^ 64 - 1.
Definition LLONG_MAX : Z := 2 ^ 63 - 1.
Definition LLONG_MIN : Z := - 2 ^ 63.

(** [strtoul(s, &end, 10)]: the value and the string at [end]. *)
Definition strtoul (s : bytes) : Z * bytes :=
  let '(neg, t) := number_sign (skip_spaces s) in
  if starts_digit t then
    let '(v, e) := digits_value 0 t in
    (if ULONG_MAX <? v then ULONG_MAX else if neg then u64 (- v) else v, e)
  else (0, s).

(** [strtoll(s, &end, 10)]; the flag is whether [errno] is set to ERANGE. *)
Definition strtoll (s : bytes) : Z * bool * bytes :=
  let '(neg, t) := number_sign (skip_spaces s) in
  if starts_digit t then
    let '(v, e) := digits_value 0 t in
    let v := if neg then - v else v in
    if LLONG_MAX <? v then (LLONG_MAX, true, e)
    else if v <? LLONG_MIN then (LLONG_MIN, true, e)
    else (v, false, e)
  else (0, false, s).

(** ** Lemmas *)

Lemma before_strchr s d :
  match strchr s d with
  | Some r => s = before s d ++ r /\ exists t, r = d :: t
  | None => before s d = s
  end.
Proof.
  induction s as [|x s IH]; [done|]. simpl. destruct (Z.eqb_spec x d) as [->|]; [eauto|].
  destruct (strchr s d) as [r|]; simpl; [|by f_equal].
  destruct IH as (E & Ht). split; [by f_equal|done].
Qed.

Lemma before_length s d : (length (before s d) <= length s)%nat.
Proof. induction s; simpl; [lia|]. case_match; simpl; lia. Qed.

Lemma strchr_length s d r : strchr s d = Some r -> (length r <= length s)%nat /\ r <> [].
Proof.
  intros E. pose proof (before_strchr s d) as P. rewrite E in P.
  destruct P as (P & t & ->). apply (f_equal length) in P. rewrite length_app in P.
  split; [lia|done].
Qed.

Lemma before_no_delim s d : ~ In d (before s d).
Proof. induction s as [|x s IH]; simpl; [tauto|]. destruct (Z.eqb_spec x d); simpl; tauto. Qed.

Lemma split_on_unfold d s :
  split_on d s =
  before s d :: match strchr s d with Some r => split_on d (tail r) | None => [] end.
Proof.
  induction s as [|x s IH]; [done|]. simpl. destruct (Z.eqb_spec x d); [done|].
  rewrite IH. by destruct (strchr s d).
Qed.

Lemma split_on_app d s t : split_on d (s ++ d :: t) = split_on d s ++ split_on d t.
Proof.
  induction s as [|x s IH]; simpl.
  - by rewrite Z.eqb_refl.
  - destruct (x =? d); [by rewrite IH|]. rewrite IH, (split_on_unfold d s). done.
Qed.

Lemma split_on_single d p : ~ In d p -> split_on d p = [p].
Proof.
  induction p as [|x p IH]; [done|]. intros H. simpl in *.
  destruct (Z.eqb_spec x d); [tauto|]. rewrite IH by tauto. done.
Qed.

(** The first token. *)
Lemma split_on_cut d w t : ~ In d w -> split_on d (w ++ d :: t) = w :: split_on d t.
Proof. intros Hw. by rewrite split_on_app, split_on_single. Qed.

(** Joining the tokens gives the string back. *)
Fixpoint join_with (d : Z) (ts : list bytes) : bytes :=
  match ts with
  | [] => []
  | [t] => t
  | t :: ts => t ++ d :: join_with d ts
  end.

Lemma join_split d s : join_with d (split_on d s) = s.
Proof.
  induction s as [|x s IH]; [done|]. simpl. rewrite split_on_unfold in *.
  destruct (Z.eqb_spec x d) as [->|]; simpl in *; [by rewrite IH|].
  destruct (strchr s d) as [r|]; simpl in *; [|by rewrite IH].
  destruct (split_on d (tail r)); simpl in *; by rewrite IH.
Qed.

Lemma split_no_delim d s t : In t (split_on d s) -> ~ In d t.
Proof.
  revert t. induction s as [|x s IH]; intros t; simpl.
  - intros [<-|[]]; tauto.
  - destruct (Z.eqb_spec x d) as [->|Hn].
    + intros [<-|H]; [tauto|by apply IH].
    + rewrite split_on_unfold in *. simpl. intros [<-|H].
      * simpl. pose proof (IH (before s d) (or_introl eq_refl)). tauto.
      * apply IH. by right.
Qed.
