(* ===== verification/Ssh2.v ===== *)
(** ssh2.h: the numbers of messages and of reasons for a disconnection. *)

From S2P Require Import Prelude.

Definition SSH_MSG_NONE : Z := 0.
Definition SSH2_MSG_MIN : Z := 1.
Definition SSH2_MSG_TRANSPORT_MIN : Z := 1.
Definition SSH2_MSG_TRANSPORT_MAX : Z := 49.
Definition SSH2_MSG_LOCAL_MIN : Z := 192.
Definition SSH2_MSG_DISCONNECT : Z := 1.
Definition SSH2_MSG_IGNORE : Z := 2.
Definition SSH2_MSG_UNIMPLEMENTED : Z := 3.
Definition SSH2_MSG_DEBUG : Z := 4.
Definition SSH2_MSG_SERVICE_REQUEST : Z := 5.
Definition SSH2_MSG_SERVICE_ACCEPT : Z := 6.
Definition SSH2_MSG_EXT_INFO : Z := 7.
Definition SSH2_MSG_KEXINIT : Z := 20.
Definition SSH2_MSG_NEWKEYS : Z := 21.
Definition SSH2_MSG_KEX_ECDH_INIT : Z := 30.
Definition SSH2_MSG_KEX_ECDH_REPLY : Z := 31.
Definition SSH2_MSG_USERAUTH_REQUEST : Z := 50.
Definition SSH2_MSG_USERAUTH_FAILURE : Z := 51.
Definition SSH2_MSG_USERAUTH_SUCCESS : Z := 52.
Definition SSH2_MSG_USERAUTH_BANNER : Z := 53.
Definition SSH2_MSG_USERAUTH_PK_OK : Z := 60.
Definition SSH2_MSG_USERAUTH_INFO_REQUEST : Z := 60.
Definition SSH2_MSG_USERAUTH_INFO_RESPONSE : Z := 61.
Definition SSH2_DISCONNECT_PROTOCOL_ERROR : Z := 2.
Definition SSH_ERR_DISCONNECTED : Z := -29.
