(* ===== verification/Glob.v ===== *)
(** match.c: wildcard patterns, lists of patterns and lists of names.

    The address lists of addrmatch.c are a parameter here
    ([addr_match_list]); AddrMatch.v models them. *)

From S2P Require Import Prelude CString.

(** ** Operations *)

(** Each of the two inner loops of the C function is a local recursion on the
    string. *)
Fixpoint match_pattern (s pattern : bytes) {struct pattern} : bool :=
  match pattern with
  | [] => match s with [] => true | _ => false end
  | p :: pat =>
      if p =? ch "*" then
        match pat with
        | [] => true
        | q :: pat' =>
            if negb (q =? ch "?") && negb (q =? ch "*") then
              (fix look (s : bytes) : bool :=
                 match s with
                 | [] => false
                 | c :: s' => if (c =? q) && match_pattern s' pat' then true else look s'
                 end) s
            else
              (fix each (s : bytes) : bool :=
                 match s with
                 | [] => false
                 | _ :: s' => if match_pattern s pat then true else each s'
                 end) s
        end
      else
        match s with
        | [] => false
        | c :: s' =>
            if negb (p =? ch "?") && negb (p =? c) then false
            else match_pattern s' pat
        end
  end.

(** The subpattern up to a comma, at most [room] characters of it, and the rest
    of the pattern. *)
Fixpoint sub_pattern (room : nat) (dolower : bool) (pattern : bytes) : bytes * bytes :=
  match room, pattern with
  | O, _ | _, [] => ([], pattern)
  | S room, c :: rest =>
      if c =? ch "," then ([], pattern)
      else
        let '(sub, rest') := sub_pattern room dolower rest in
        ((if dolower && isupper c then tolower c else c) :: sub, rest')
  end.

(** [sizeof(sub) - 1]. *)
Definition SUB_MAX : Z := 1023.

(** One pass of the loop per unit of [fuel]. *)
Fixpoint match_pattern_loop (fuel : nat) (string pattern : bytes) (dolower : bool)
    (got_positive : Z) : Z :=
  match fuel, pattern with
  | O, _ => got_positive
  | _, [] => got_positive
  | S fuel, c :: _ =>
      let negated := c =? ch "!" in
      let pattern := if negated then tail pattern else pattern in
      let '(sub, pattern) := sub_pattern (Z.to_nat SUB_MAX) dolower pattern in
      if SUB_MAX <=? zlen sub then 0
      else
        let pattern := match pattern with
                       | c :: rest => if c =? ch "," then rest else pattern
                       | [] => [] end in
        if match_pattern string sub then
          if negated then -1 else match_pattern_loop fuel string pattern dolower 1
        else match_pattern_loop fuel string pattern dolower got_positive
  end.

Definition match_pattern_list (string pattern : bytes) (dolower : bool) : Z :=
  match_pattern_loop (length pattern) string pattern dolower 0.

Definition match_hostname (host pattern : bytes) : Z := match_pattern_list host pattern true.

Section hosts.
Context (addr_match_list : option bytes -> bytes -> Z).

Definition match_host_and_ip (host : bytes) (ipaddr : option bytes) (patterns : bytes) : Z :=
  let mip := addr_match_list ipaddr patterns in
  if mip =? -2 then -1
  else if mip =? -1 then 0
  else
    let mhost := match_hostname host patterns in
    if mhost =? -1 then 0
    else if (mhost =? 0) && (mip =? 0) then 0
    else 1.

Definition match_user (user host : bytes) (ipaddr : option bytes) (pattern : bytes) : Z :=
  match strchr pattern (ch "@") with
  | None => b2z (match_pattern user pattern)
  | Some at_p =>
      let pat := before pattern (ch "@") in
      let p := tail at_p in
      let ret := b2z (match_pattern user pat) in
      if ret =? 1 then match_host_and_ip host ipaddr p else ret
  end.
End hosts.

Definition MAX_PROP : Z := 40.
Definition SEP : Z := ch ",".

(** The proposals of the server, with the number [i] of those already found. *)
Fixpoint server_proposals (fuel : nat) (i : Z) (sp : option bytes) : list bytes :=
  match fuel with
  | O => []
  | S fuel =>
      match strsep sp SEP with
      | (Some p, sp) =>
          if (negb (bool_decide (p = []))) && (i <? MAX_PROP)
          then p :: server_proposals fuel (i + 1) sp
          else []
      | (None, _) => []
      end
  end.

(** The result is the proposal and the new value of [*next]. *)
Fixpoint client_loop (fuel : nat) (c : bytes) (cp : option bytes) (sproposals : list bytes)
    : option bytes * Z :=
  match fuel with
  | O => (None, zlen c)
  | S fuel =>
      match strsep cp SEP with
      | (Some p, cp) =>
          if negb (bool_decide (p = [])) then
            if existsb (strcmp_eq p) sproposals
            then (Some p, match cp with None => zlen c | Some r => zlen c - zlen r end)
            else client_loop fuel c cp sproposals
          else (None, zlen c)
      | (None, _) => (None, zlen c)
      end
  end.

Definition match_list (client server : bytes) : option bytes * Z :=
  client_loop (S (length client)) client (Some client)
    (server_proposals (S (length server)) 0 (Some server)).

(** ** Specification: wildcards *)

(** [glob s p]: the string matches the pattern, where [*] stands for any string
    and [?] for any character. *)
Inductive glob : bytes -> bytes -> Prop :=
| glob_nil : glob [] []
| glob_star_skip s p : glob s p -> glob s (ch "*" :: p)
| glob_star_eat c s p : glob s (ch "*" :: p) -> glob (c :: s) (ch "*" :: p)
| glob_any c s p : glob s p -> glob (c :: s) (ch "?" :: p)
| glob_char c s p : c <> ch "*" -> c <> ch "?" -> glob s p -> glob (c :: s) (c :: p).

Definition all_stars (p : bytes) : bool := forallb (fun c => c =? ch "*") p.

(** What the code makes of a pattern: two or more [*] at the end count as
    [?*]. *)
Fixpoint norm (p : bytes) : bytes :=
  match p with
  | [] => []
  | c :: rest =>
      if (c =? ch "*") && negb (bool_decide (rest = [])) && all_stars rest
      then cstr "?*" else c :: norm rest
  end.

(** ** Lemmas: wildcards *)

Lemma glob_star s p : glob s (ch "*" :: p) <-> exists s1 s2, s = s1 ++ s2 /\ glob s2 p.
Proof.
  split.
  - intros H. remember (ch "*" :: p) as q eqn:E. revert E.
    induction H as [|s p' H _|c s p' H IH|c s p' H _|c s p' N1 N2 H _]; intros E; simplify_eq.
    + by exists [], s.
    + destruct (IH eq_refl) as (s1 & s2 & -> & ?). by exists (c :: s1), s2.
  - intros (s1 & s2 & -> & H). induction s1; simpl; by constructor.
Qed.

Lemma glob_cons c s p q :
  p <> ch "*" ->
  glob (c :: s) (p :: q) <-> (p = ch "?" \/ p = c) /\ glob s q.
Proof.
  intros Hp. split.
  - intros H. inversion H; subst; try done; auto.
  - intros [[->| ->] H]; [by constructor|].
    destruct (decide (c = ch "?")) as [->|]; by constructor.
Qed.

Lemma glob_nil_stars p : glob [] p -> all_stars p = true.
Proof.
  intros H. remember [] as s eqn:E. revert E.
  induction H as [|s p' H IH| | |]; intros E; simplify_eq; [done|].
  unfold all_stars in *. simpl. auto.
Qed.

Lemma glob_nil_cons p q : p <> ch "*" -> ~ glob [] (p :: q).
Proof. intros Hp H%glob_nil_stars. unfold all_stars in H. simpl in H. by destruct (Z.eqb_spec p (ch "*")). Qed.

Lemma norm_stars p : all_stars (norm p) = true -> all_stars p = true.
Proof.
  induction p as [|c p IH]; [done|]. cbn [norm]. destruct (_ && _ && _) eqn:E; [done|].
  unfold all_stars in *. simpl. rewrite !andb_true_iff. tauto.
Qed.

Lemma norm_all_stars p :
  all_stars p = true -> norm p = p /\ (length p < 2)%nat \/ norm p = cstr "?*".
Proof.
  intros H. destruct p as [|a [|b p]]; [by left; simpl; auto with lia| |].
  - left. simpl. rewrite andb_false_r. simpl. auto with lia.
  - right. unfold all_stars in H. cbn [norm]. simpl in H. unfold all_stars. simpl.
    destruct (a =? ch "*"); [|done]. simpl in *. by rewrite H.
Qed.

Lemma norm_cons_nonstar c p : c <> ch "*" -> norm (c :: p) = c :: norm p.
Proof. intros H. cbn [norm]. by rewrite (proj2 (Z.eqb_neq c (ch "*"))). Qed.

Lemma norm_star_cons c p :
  c <> ch "*" -> norm (ch "*" :: c :: p) = ch "*" :: c :: norm p.
Proof.
  intros H. cbn [norm]. unfold all_stars. simpl forallb. by rewrite (proj2 (Z.eqb_neq c (ch "*"))).
Qed.

(** The inner loop that looks for a known character. *)
Lemma look_spec (f : bytes -> bool) q s :
  (fix look (s : bytes) : bool :=
     match s with
     | [] => false
     | c :: s' => if (c =? q) && f s' then true else look s'
     end) s = true <-> exists s1 s2, s = s1 ++ q :: s2 /\ f s2 = true.
Proof.
  induction s as [|c s IH].
  - split; [done|]. by intros ([|? ?] & s2 & E & _).
  - destruct ((c =? q) && f s) eqn:E.
    + apply andb_true_iff in E as [->%Z.eqb_eq E]. split; [|done]. by exists [], s.
    + rewrite IH. split.
      * intros (s1 & s2 & -> & H). by exists (c :: s1), s2.
      * intros ([|d s1] & s2 & E2 & H); simplify_eq/=; [|by eauto].
        rewrite Z.eqb_refl, H in E. done.
Qed.

(** The inner loop that tries every position. *)
Lemma each_spec (f : bytes -> bool) s :
  (fix each (s : bytes) : bool :=
     match s with
     | [] => false
     | _ :: s' => if f s then true else each s'
     end) s = true <-> exists s1 s2, s = s1 ++ s2 /\ s2 <> [] /\ f s2 = true.
Proof.
  induction s as [|c s IH].
  - split; [done|]. intros (s1 & s2 & E & Hn & _). by destruct s1, s2.
  - destruct (f (c :: s)) eqn:E.
    + split; [|done]. by exists [], (c :: s).
    + rewrite IH. split.
      * intros (s1 & s2 & -> & H). by exists (c :: s1), s2.
      * intros ([|d s1] & s2 & E2 & Hn & H); simplify_eq/=; [congruence|by eauto].
Qed.

Lemma match_pattern_norm p : forall s, match_pattern s p = true <-> glob s (norm p).
Proof.
  induction p as [p IH] using (induction_ltof1 _ (@length Z)). unfold ltof in IH. intros s.
  destruct p as [|p pat]; [destruct s; split; try done; [constructor|by inversion 1]|].
  cbn [match_pattern]. destruct (Z.eqb_spec p (ch "*")) as [->|Hp].
  2: { rewrite norm_cons_nonstar by done. destruct s as [|c s].
       - split; [done|]. by intros ?%glob_nil_cons.
       - rewrite glob_cons, <- IH by (done || simpl; lia).
         destruct (Z.eqb_spec p (ch "?")), (Z.eqb_spec p c); simpl; intuition congruence. }
  destruct pat as [|q pat'].
  { split; [intros _|done]. change (norm [ch "*"]) with [ch "*"].
    apply glob_star. exists s, []. by rewrite app_nil_r; repeat constructor. }
  destruct (Z.eqb_spec q (ch "*")) as [->|Hq].
  - rewrite andb_false_r, each_spec. setoid_rewrite IH; [|simpl; lia].
    destruct (all_stars pat') eqn:Hs.
    + assert (norm (ch "*" :: ch "*" :: pat') = cstr "?*") as ->.
      { cbn [norm]. unfold all_stars in *. simpl. by rewrite Hs. }
      assert (Hany : forall s, s <> [] -> glob s (norm (ch "*" :: pat'))).
      { intros t Ht. destruct (norm_all_stars (ch "*" :: pat')) as [[-> Hl]| ->].
        - unfold all_stars in *. simpl. done.
        - destruct pat'; [|simpl in Hl; lia]. apply glob_star. exists t, [].
          rewrite app_nil_r. repeat constructor.
        - destruct t as [|c t]; [done|]. apply glob_any, glob_star. exists t, [].
          rewrite app_nil_r. repeat constructor. }
      split.
      * intros (s1 & s2 & -> & Hn & _). destruct (s1 ++ s2) as [|c t] eqn:E.
        { by destruct s1, s2. }
        apply glob_any, glob_star. exists t, []. rewrite app_nil_r. repeat constructor.
      * intros H. destruct s as [|c s]; [by apply glob_nil_stars in H|].
        exists [], (c :: s). split_and!; [done..|]. by apply Hany.
    + assert (norm (ch "*" :: ch "*" :: pat') = ch "*" :: norm (ch "*" :: pat')) as ->.
      { cbn [norm]. unfold all_stars in *. simpl. by rewrite Hs. }
      rewrite glob_star. split; [by intros (s1 & s2 & ? & _ & ?); eauto|].
      intros (s1 & s2 & E & H). exists s1, s2. split_and!; [done| |done]. intros ->.
      apply glob_nil_stars, norm_stars in H. unfold all_stars in *. simpl in H. congruence.
  - rewrite norm_star_cons by done. destruct (Z.eqb_spec q (ch "?")) as [->|Hq2]; simpl andb; cbn iota.
    + rewrite each_spec, glob_star. setoid_rewrite IH; [|simpl; lia].
      rewrite norm_cons_nonstar by done. split; [by intros (s1 & s2 & ? & _ & ?); eauto|].
      intros (s1 & s2 & E & H). exists s1, s2. split_and!; [done| |done]. intros ->.
      by apply glob_nil_cons in H.
    + rewrite look_spec, glob_star. setoid_rewrite IH; [|simpl; lia]. split.
      * intros (s1 & s2 & -> & H). exists s1, (q :: s2). split; [done|]. by constructor.
      * intros (s1 & s2 & -> & H). destruct s2 as [|c s2]; [by apply glob_nil_cons in H|].
        apply glob_cons in H as [[?| <-] H']; [done| |done]. eauto.
Qed.

(** ** Specification: lists of patterns *)

(** The entries of a list: its tokens between commas, without the empty token
    after a comma at the end. *)
Fixpoint drop_empty_last (ts : list bytes) : list bytes :=
  match ts with
  | [] => []
  | [[]] => []
  | t :: ts => t :: drop_empty_last ts
  end.
Definition entries (pattern : bytes) : list bytes := drop_empty_last (split_on (ch ",") pattern).

Definition entry_negated (e : bytes) : bool :=
  match e with c :: _ => c =? ch "!" | [] => false end.
Definition entry_text (dolower : bool) (e : bytes) : bytes :=
  (fun c => if dolower && isupper c then tolower c else c) <$>
  (if entry_negated e then tail e else e).

Definition entry_fits (e : bytes) : bool := zlen (entry_text false e) <? SUB_MAX.
Definition entry_matches (string : bytes) (dolower : bool) (e : bytes) : bool :=
  match_pattern string (entry_text dolower e).

(** The entries in order. *)
Fixpoint walk (string : bytes) (dolower : bool) (es : list bytes) (got : Z) : Z :=
  match es with
  | [] => got
  | e :: es =>
      if negb (entry_fits e) then 0
      else if entry_matches string dolower e
           then if entry_negated e then -1 else walk string dolower es 1
           else walk string dolower es got
  end.

(** ** Lemmas: lists of patterns *)

Definition after (s : bytes) (d : Z) : bytes :=
  match strchr s d with Some r => tail r | None => [] end.

Lemma entries_unfold p : p <> [] -> entries p = before p (ch ",") :: entries (after p (ch ",")).
Proof.
  intros Hp. unfold entries, after. rewrite split_on_unfold.
  pose proof (before_strchr p (ch ",")) as B. destruct (strchr p (ch ",")) as [r|].
  - rewrite (split_on_unfold _ (tail r)). simpl. by destruct (before p (ch ",")).
  - rewrite B. by destruct p.
Qed.

Lemma sub_pattern_short n l p :
  (length (before p (ch ",")) < n)%nat ->
  sub_pattern n l p =
  ((fun c => if l && isupper c then tolower c else c) <$> before p (ch ","),
   default [] (strchr p (ch ","))).
Proof.
  revert p. induction n as [|n IH]; intros p Hn; [lia|]. destruct p as [|c p]; [done|].
  cbn [sub_pattern before strchr] in *. destruct (c =? ch ","); [done|].
  simpl in Hn. by rewrite IH by lia.
Qed.

Lemma sub_pattern_long n l p :
  (n <= length (before p (ch ",")))%nat -> length (fst (sub_pattern n l p)) = n.
Proof.
  revert p. induction n as [|n IH]; intros p Hn; [done|]. destruct p as [|c p]; [simpl in Hn; lia|].
  cbn [sub_pattern before] in *. destruct (c =? ch ","); simpl in Hn; [lia|].
  specialize (IH p ltac:(lia)). destruct (sub_pattern n l p). simpl in *. lia.
Qed.

Lemma after_length p d : (length (after p d) <= pred (length p))%nat.
Proof.
  unfold after. destruct (strchr p d) as [r|] eqn:E; simpl; [|lia].
  apply strchr_length in E as [? ?]. destruct r; simpl in *; [done|lia].
Qed.

(** One pass of the loop handles one entry. *)
Lemma match_pattern_loop_walk fuel : forall s p l got,
  (length p <= fuel)%nat -> match_pattern_loop fuel s p l got = walk s l (entries p) got.
Proof.
  induction fuel as [|fuel IH]; intros s p l got Hf.
  { destruct p; [done|simpl in Hf; lia]. }
  destruct p as [|c p]; [done|]. rewrite entries_unfold by done.
  set (p0 := c :: p) in *. cbn [match_pattern_loop walk]. unfold p0 at 1.
  set (p1 := if c =? ch "!" then tail p0 else p0).
  assert (Hneg : entry_negated (before p0 (ch ",")) = (c =? ch "!")).
  { unfold p0. simpl. destruct (Z.eqb_spec c (ch ",")) as [->|]; done. }
  assert (Hb : (if c =? ch "!" then tail (before p0 (ch ",")) else before p0 (ch ",")) =
               before p1 (ch ",")).
  { unfold p1, p0. destruct (Z.eqb_spec c (ch "!")) as [->|]; [|done]. done. }
  assert (Hc : after p0 (ch ",") = after p1 (ch ",")).
  { unfold p1, p0. destruct (Z.eqb_spec c (ch "!")) as [->|]; [|done]. done. }
  assert (Hfit : entry_fits (before p0 (ch ",")) = (zlen (before p1 (ch ",")) <? SUB_MAX)).
  { unfold entry_fits, entry_text. by rewrite zlen_fmap, Hneg, Hb. }
  rewrite Hfit, Hneg, Hc. unfold entry_matches, entry_text. rewrite Hneg, Hb.
  destruct (Z.ltb_spec (zlen (before p1 (ch ","))) SUB_MAX) as [Hs|Hs]; simpl negb; cbn iota.
  - rewrite sub_pattern_short by (unfold zlen in Hs; lia). rewrite zlen_fmap.
    destruct (Z.leb_spec SUB_MAX (zlen (before p1 (ch ",")))); [lia|].
    assert (Hr : (match default [] (strchr p1 (ch ",")) with
                  | c :: rest => if c =? ch "," then rest else default [] (strchr p1 (ch ","))
                  | [] => [] end) = after p1 (ch ",")).
    { unfold after. pose proof (before_strchr p1 (ch ",")) as B.
      destruct (strchr p1 (ch ",")); [|done]. by destruct B as (_ & t & ->). }
    rewrite Hr. pose proof (after_length p0 (ch ",")) as L. rewrite Hc in L. simpl in L, Hf.
    rewrite !IH by lia. done.
  - pose proof (sub_pattern_long (Z.to_nat SUB_MAX) l p1 ltac:(unfold zlen in Hs; lia)) as Hl.
    destruct (sub_pattern (Z.to_nat SUB_MAX) l p1) as [sub rest]. simpl in Hl.
    unfold zlen. rewrite Hl. by rewrite Z2Nat.id by (unfold SUB_MAX; lia).
Qed.

Lemma match_pattern_list_walk s p l : match_pattern_list s p l = walk s l (entries p) 0.
Proof. by apply match_pattern_loop_walk. Qed.

Lemma walk_range s l es got : got = 0 \/ got = 1 -> walk s l es got = -1 \/ walk s l es got = 0 \/ walk s l es got = 1.
Proof.
  revert got. induction es as [|e es IH]; intros got Hg; simpl; [tauto|].
  repeat case_match; auto.
Qed.

Definition neg_match s l e := entry_negated e && entry_matches s l e.
Definition pos_match s l e := negb (entry_negated e) && entry_matches s l e.

Lemma walk_positive s l es got :
  got = 0 \/ got = 1 ->
  walk s l es got = 1 <->
  forallb entry_fits es = true /\ existsb (neg_match s l) es = false /\
  (got = 1 \/ existsb (pos_match s l) es = true).
Proof.
  revert got. induction es as [|e es IH]; intros got Hg; simpl; [intuition lia|].
  unfold neg_match, pos_match in *. destruct (entry_fits e); simpl; [|intuition lia].
  destruct (entry_matches s l e), (entry_negated e); simpl; rewrite ?IH by auto; intuition lia.
Qed.

Lemma walk_negative s l es got :
  got = 0 \/ got = 1 -> forallb entry_fits es = true ->
  walk s l es got = -1 <-> existsb (neg_match s l) es = true.
Proof.
  revert got. induction es as [|e es IH]; intros got Hg; simpl; [intuition lia|].
  unfold neg_match in *. destruct (entry_fits e); simpl; [|done]. intros Hfit.
  destruct (entry_matches s l e), (entry_negated e); simpl; rewrite ?IH by auto; intuition lia.
Qed.

(** ** Specification: the first common name of two lists *)

Fixpoint until_empty (ts : list bytes) : list bytes :=
  match ts with
  | [] => []
  | t :: ts => if bool_decide (t = []) then [] else t :: until_empty ts
  end.
(** The names of a list: its tokens up to the first empty one. *)
Definition names (s : bytes) : list bytes := until_empty (split_on SEP s).

(** ** Lemmas: [match_list] *)

Lemma server_proposals_names fuel : forall i s,
  (length s < fuel)%nat -> 0 <= i ->
  server_proposals fuel i (Some s) = ztake (MAX_PROP - i) (names s).
Proof.
  induction fuel as [|fuel IH]; intros i s Hf Hi; [lia|]. cbn [server_proposals strsep].
  unfold names. rewrite split_on_unfold. cbn [until_empty].
  destruct (bool_decide_reflect (before s SEP = [])) as [|Hb]; simpl negb; simpl andb; cbn iota.
  { unfold ztake. by rewrite take_nil. }
  unfold ztake. destruct (Z.ltb_spec i MAX_PROP) as [Hm|Hm].
  - replace (Z.to_nat (MAX_PROP - i)) with (S (Z.to_nat (MAX_PROP - (i + 1)))) by lia.
    simpl. f_equal. destruct (strchr s SEP) as [r|] eqn:E.
    + apply strchr_length in E as [? ?]. destruct r; [done|]. simpl in *. by apply IH; lia.
    + destruct fuel; simpl; by rewrite take_nil.
  - by replace (Z.to_nat (MAX_PROP - i)) with 0%nat by lia.
Qed.

Lemma existsb_strcmp p ss : existsb (strcmp_eq p) ss = true <-> In p ss.
Proof.
  rewrite existsb_exists. unfold strcmp_eq. split.
  - intros (q & ? & ->%bool_decide_eq_true). done.
  - intros. exists p. by rewrite bool_decide_eq_true_2.
Qed.

Lemma split_suffix u s t c :
  c = u ++ s -> s = before s SEP ++ SEP :: t -> c = (u ++ before s SEP ++ [SEP]) ++ t.
Proof. intros -> E. rewrite E at 1. by rewrite <- !(assoc_L (++)). Qed.

Lemma client_loop_spec fuel : forall c s ss,
  (length s < fuel)%nat -> (exists u, c = u ++ s) ->
  match client_loop fuel c (Some s) ss with
  | (Some p, next) => exists pre post, split_on SEP s = pre ++ p :: post /\
      In p ss /\ p <> [] /\ (forall q, In q pre -> q <> [] /\ ~ In q ss) /\
      zdrop next c = join_with SEP post
  | (None, next) => (forall q, In q (names s) -> ~ In q ss) /\ next = zlen c
  end.
Proof.
  induction fuel as [|fuel IH]; intros c s ss Hf (u & Hc); [lia|]. cbn [client_loop strsep].
  unfold names. rewrite split_on_unfold. cbn [until_empty].
  destruct (bool_decide_reflect (before s SEP = [])) as [|Hb]; simpl negb; cbn iota.
  { split; [by intros q []|done]. }
  pose proof (before_strchr s SEP) as B. destruct (existsb (strcmp_eq (before s SEP)) ss) eqn:Hex.
  - apply existsb_strcmp in Hex. exists [].
    destruct (strchr s SEP) as [r|]; eexists; split_and!; try done.
    + simpl. destruct B as (B & t & ->). rewrite join_split. simpl.
      rewrite (split_suffix u s t c Hc B). apply zdrop_app. zl.
    + simpl. by apply zdrop_ge.
  - assert (Hn : ~ In (before s SEP) ss) by (rewrite <- existsb_strcmp; congruence).
    destruct (strchr s SEP) as [r|] eqn:E.
    + destruct B as (B & t & ->). cbn [tail] in *.
      apply strchr_length in E as [? _]. simpl in *.
      specialize (IH c t ss ltac:(lia)).
      destruct (client_loop fuel c (Some t) ss) as [[p|] next].
      * destruct IH as (pre & post & Hs & Hp & Hpn & Hpre & Hd).
        { eexists. by apply split_suffix. }
        exists (before s SEP :: pre), post. rewrite Hs. split_and!; auto.
        intros q [<-|?]; auto.
      * destruct IH as (Hq & ->).
        { eexists. by apply split_suffix. }
        split; [|done]. intros q [<-|?]; auto.
    + destruct fuel; simpl; (split; [by intros q [<-|[]]|done]).
Qed.

(** ** Properties *)

(** C19. [match_pattern] decides the wildcard relation, for every string and
    pattern, once a run of two or more stars at the end of the pattern is read
    as [?*]; the nested loops and the recursion need no bound. *)
Theorem match_pattern_glob s p : match_pattern s p = true <-> glob s (norm p).
Proof. apply match_pattern_norm. Qed.

(** A pattern of two or more stars does not match the empty string, although
    each star stands for zero or more characters. *)
Theorem match_pattern_double_star n :
  let p := replicate (2 + n) (ch "*") in
  match_pattern [] p = false /\ glob [] p.
Proof.
  intros p. split; [done|]. unfold p. induction (2 + n)%nat; simpl; by constructor.
Qed.

(** C21. A list of patterns matches exactly when every entry fits the buffer of
    the subpattern, no negated entry matches and some positive entry does; a
    list whose entries fit gives -1 exactly when a negated entry matches; and
    there is no fourth result. *)
Theorem match_pattern_list_spec s p l :
  let es := entries p in
  let r := match_pattern_list s p l in
  (r = 1 <-> forallb entry_fits es = true /\ existsb (neg_match s l) es = false /\
             existsb (pos_match s l) es = true) /\
  (forallb entry_fits es = true -> (r = -1 <-> existsb (neg_match s l) es = true)) /\
  (r = -1 \/ r = 0 \/ r = 1).
Proof.
  intros es r. unfold r. rewrite match_pattern_list_walk. fold es. split_and!.
  - rewrite walk_positive by auto. intuition lia.
  - intros. by apply walk_negative; auto.
  - apply walk_range; auto.
Qed.

Lemma match_pattern_list_spec_witness :
  match_pattern_list (cstr "host.example.com") (cstr "*.EXAMPLE.com,!bad*") true = 1 /\
  match_pattern_list (cstr "bad.example.com") (cstr "*.EXAMPLE.com,!bad*") true = -1.
Proof.
  split.
  - apply match_pattern_list_spec. vm_compute; auto.
  - apply (match_pattern_list_spec (cstr "bad.example.com") (cstr "*.EXAMPLE.com,!bad*") true);
      vm_compute; reflexivity.
Defined.

(** [match_list] returns the first name of the client's list that is among
    the first 40 names of the server's list, and sets [*next] to the offset of
    the text that follows it; it fails only when there is no common name. *)
Theorem match_list_first_common client server :
  let ss := ztake MAX_PROP (names server) in
  match match_list client server with
  | (Some p, next) => exists pre post, split_on SEP client = pre ++ p :: post /\
      In p ss /\ p <> [] /\ (forall q, In q pre -> q <> [] /\ ~ In q ss) /\
      zdrop next client = join_with SEP post
  | (None, next) => (forall q, In q (names client) -> ~ In q ss) /\ next = zlen client
  end.
Proof.
  intros ss. unfold match_list. rewrite server_proposals_names, Z.sub_0_r by lia.
  apply client_loop_spec; [lia|by exists []].
Qed.
