(* ===== verification/AddrMatch.v ===== *)
(** addrmatch.c: addresses, masks, and matching an address against a list of
    CIDR networks and wildcards.

    An address is held as in memory: the union [xa] is 16 bytes in network
    order, of which an IPv4 address uses the first four, so [v4.s_addr],
    [addr32[i]] and [addr8[i]] are slices of the same bytes and [htonl] is the
    big-endian encoding.  [getaddrinfo] is the parameter of the section. *)

From S2P Require Import Prelude Wire CString Glob.

(** ** Data *)

Definition AF_INET : Z := 2.
Definition AF_INET6 : Z := 10.

Record xaddr : Type := mk_xaddr {
  af : Z;
  addr8 : bytes;
  scope_id : Z
}.

(** The fields of [struct sockaddr_in] and [struct sockaddr_in6] that are
    read. *)
Record sockaddr : Type := mk_sockaddr {
  sa_family : Z;
  sin_addr : bytes;
  sin6_addr : bytes;
  sin6_scope_id : Z
}.
Definition SIZEOF_SOCKADDR_IN : Z := 16.
Definition SIZEOF_SOCKADDR_IN6 : Z := 28.

Definition zero_xaddr : xaddr := mk_xaddr 0 (zrep 16 0) 0.

(** ** Operations on addresses *)

Definition addr_unicast_masklen (af : Z) : Z :=
  if af =? AF_INET then 32 else if af =? AF_INET6 then 128 else -1.

Definition masklen_valid (af masklen : Z) : Z :=
  if af =? AF_INET then if masklen <=? 32 then 0 else -1
  else if af =? AF_INET6 then if masklen <=? 128 then 0 else -1
  else -1.

Definition addr_sa_to_xaddr (sa : sockaddr) (slen : Z) : result xaddr :=
  if sa_family sa =? AF_INET then
    if slen <? SIZEOF_SOCKADDR_IN then Err (-1)
    else Ok (mk_xaddr AF_INET (write_at 0 (sin_addr sa) (zrep 16 0)) 0)
  else if sa_family sa =? AF_INET6 then
    if slen <? SIZEOF_SOCKADDR_IN6 then Err (-1)
    else Ok (mk_xaddr AF_INET6 (sin6_addr sa) (sin6_scope_id sa))
  else Err (-1).

(** [htonl((0xffffffff << (32 - l)) & 0xffffffff)] in memory. *)
Definition mask_word (l : Z) : bytes :=
  be_bytes 4 (Z.land (u32 (Z.shiftl 0xffffffff (32 - l))) 0xffffffff).

(** The loop over [addr32[]], with [n] words left. *)
Fixpoint netmask_words (n : nat) (l : Z) : bytes :=
  match n with
  | O => []
  | S n =>
      if 32 <=? l then [255; 255; 255; 255] ++ netmask_words n (l - 32)
      else (if negb (l =? 0) then mask_word l else zrep 4 0) ++ zrep (4 * Z.of_nat n) 0
  end.

Definition addr_netmask (af l : Z) : result xaddr :=
  if negb (masklen_valid af l =? 0) then Err (-1)
  else if af =? AF_INET then
    if l =? 0 then Ok (mk_xaddr AF_INET (zrep 16 0) 0)
    else Ok (mk_xaddr AF_INET (write_at 0 (mask_word l) (zrep 16 0)) 0)
  else if af =? AF_INET6 then Ok (mk_xaddr AF_INET6 (netmask_words 4 l) 0)
  else Err (-1).

Definition addr_and (a b : xaddr) : result xaddr :=
  if negb (af a =? af b) then Err (-1)
  else if af a =? AF_INET then
    Ok (mk_xaddr (af a)
          (write_at 0 (zip_with Z.land (ztake 4 (addr8 a)) (ztake 4 (addr8 b))) (addr8 a))
          (scope_id a))
  else if af a =? AF_INET6 then
    Ok (mk_xaddr (af a) (zip_with Z.land (addr8 a) (addr8 b)) (scope_id a))
  else Err (-1).

(** The loop over [addr8[]]: 0 when all the bytes are equal. *)
Fixpoint cmp_bytes (a b : bytes) : Z :=
  match a, b with
  | x :: a, y :: b => if negb (x - y =? 0) then if y <? x then 1 else -1 else cmp_bytes a b
  | _, _ => 0
  end.

Definition addr_cmp (a b : xaddr) : Z :=
  if negb (af a =? af b) then if af a =? AF_INET6 then 1 else -1
  else if af a =? AF_INET then
    let x := be_value (ztake 4 (addr8 a)) in
    let y := be_value (ztake 4 (addr8 b)) in
    if x =? y then 0 else if y <? x then 1 else -1
  else if af a =? AF_INET6 then
    let c := cmp_bytes (addr8 a) (addr8 b) in
    if negb (c =? 0) then c
    else if scope_id a =? scope_id b then 0
    else if scope_id b <? scope_id a then 1 else -1
  else -1.

Definition lnot8 (x : Z) : Z := Z.lxor x 255.

Definition addr_invert (n : xaddr) : result xaddr :=
  if af n =? AF_INET then
    Ok (mk_xaddr (af n) (write_at 0 (lnot8 <$> ztake 4 (addr8 n)) (addr8 n)) (scope_id n))
  else if af n =? AF_INET6 then Ok (mk_xaddr (af n) (lnot8 <$> addr8 n) (scope_id n))
  else Err (-1).

Definition addr_hostmask (af l : Z) : result xaddr :=
  match addr_netmask af l with
  | Err _ => Err (-1)
  | Ok n => addr_invert n
  end.

Definition addr_is_all0s (a : xaddr) : Z :=
  if af a =? AF_INET then if be_value (ztake 4 (addr8 a)) =? 0 then 0 else -1
  else if af a =? AF_INET6 then if forallb (Z.eqb 0) (addr8 a) then 0 else -1
  else -1.

Definition addr_host_is_all0s (a : xaddr) (masklen : Z) : Z :=
  match addr_hostmask (af a) masklen with
  | Err _ => -1
  | Ok tmp_mask =>
      match addr_and a tmp_mask with
      | Err _ => -1
      | Ok tmp_result => addr_is_all0s tmp_result
      end
  end.

Definition addr_netmatch (host net : xaddr) (masklen : Z) : Z :=
  if negb (af host =? af net) then -1
  else
    match addr_netmask (af host) masklen with
    | Err _ => -1
    | Ok tmp_mask =>
        match addr_and host tmp_mask with
        | Err _ => -1
        | Ok tmp_result => addr_cmp tmp_result net
        end
    end.

(** ** Parsing and matching lists *)

Section resolver.
(** [getaddrinfo(p, NULL, hints, &ai)] with AI_NUMERICHOST: [None] when it
    fails, [Some None] when it gives no address. *)
Context (getaddrinfo : bytes -> option (option (sockaddr * Z))).

Definition addr_pton (p : bytes) : result xaddr :=
  match getaddrinfo p with
  | None => Err (-1)
  | Some None => Err (-1)
  | Some (Some (sa, slen)) => addr_sa_to_xaddr sa slen
  end.

(** [sizeof(addrbuf)]. *)
Definition ADDRBUF : Z := 64.

Definition addr_pton_cidr (p : bytes) : result (xaddr * Z) :=
  if ADDRBUF <=? zlen p then Err (-1)
  else
    let slash := strchr p (ch "/") in
    let addrbuf := before p (ch "/") in
    let mask :=
      match slash with
      | None => Ok 999
      | Some r =>
          let mp := tail r in
          let '(masklen, cp) := strtoul mp in
          if bool_decide (mp = []) || negb (bool_decide (cp = [])) || (128 <? masklen)
          then Err (-1) else Ok masklen
      end in
    match mask with
    | Err e => Err e
    | Ok masklen =>
        match addr_pton addrbuf with
        | Err _ => Err (-1)
        | Ok tmp =>
            let masklen := match slash with
                           | None => addr_unicast_masklen (af tmp)
                           | Some _ => masklen end in
            if masklen_valid (af tmp) (u32 masklen) =? -1 then Err (-2)
            else if negb (addr_host_is_all0s tmp (u32 masklen) =? 0) then Err (-2)
            else Ok (tmp, masklen)
        end
    end.

(** One pass of the loop of [addr_match_list]: [inl] leaves it with a result. *)
Definition match_entry (addr : option bytes) (try_addr : xaddr) (cp : bytes) (ret : Z)
    : Z + Z :=
  let neg := match cp with c :: _ => c =? ch "!" | [] => false end in
  let cp := if neg then tail cp else cp in
  let foundit := if neg then inl (-1) else inr 1 in
  if bool_decide (cp = []) then inl (-2)
  else
    match addr_pton_cidr cp with
    | Err r =>
        if r =? -2 then inl (-2)
        else match addr with
             | Some a => if match_pattern a cp then foundit else inr ret
             | None => inr ret
             end
    | Ok (match_addr, masklen) =>
        match addr with
        | Some _ => if addr_netmatch try_addr match_addr (u32 masklen) =? 0
                    then foundit else inr ret
        | None => inr ret
        end
    end.

(** The loop over the tokens; [fuel] bounds their number. *)
Fixpoint list_loop (entry : bytes -> Z -> Z + Z) (fuel : nat) (list : option bytes) (ret : Z) : Z :=
  match fuel with
  | O => ret
  | S fuel =>
      match strsep list (ch ",") with
      | (None, _) => ret
      | (Some cp, list) =>
          match entry cp ret with
          | inl r => r
          | inr ret => list_loop entry fuel list ret
          end
      end
  end.

(** The parsed address, [None] when it cannot be parsed. *)
Definition try_address (addr : option bytes) : option xaddr :=
  match addr with
  | None => Some zero_xaddr
  | Some a => match addr_pton a with Ok x => Some x | Err _ => None end
  end.

(** [mem] is whether [strdup] succeeds. *)
Definition addr_match_list (mem : bool) (addr : option bytes) (_list : bytes) : Z :=
  match try_address addr with
  | None => 0
  | Some try_addr =>
      if negb mem then -1
      else list_loop (match_entry addr try_addr) (S (length _list)) (Some _list) 0
  end.

Definition INET6_ADDRSTRLEN : Z := 46.
Definition VALID_CIDR_CHARS : bytes := cstr "0123456789abcdefABCDEF.:/".

Definition cidr_entry (addr : option bytes) (try_addr : xaddr) (cp : bytes) (ret : Z)
    : Z + Z :=
  if bool_decide (cp = []) then inl (-1)
  else if INET6_ADDRSTRLEN + 3 <? zlen cp then inl (-1)
  else
    let ret := if negb (strspn cp VALID_CIDR_CHARS =? zlen cp) then -1 else ret in
    match addr_pton_cidr cp with
    | Err r => if r =? -1 then inl (-1) else if r =? -2 then inl (-1) else inr ret
    | Ok (match_addr, masklen) =>
        match addr with
        | Some _ => inr (if addr_netmatch try_addr match_addr (u32 masklen) =? 0 then 1 else ret)
        | None => inr ret
        end
    end.

Definition addr_match_cidr_list (mem : bool) (addr : option bytes) (_list : bytes) : Z :=
  match try_address addr with
  | None => 0
  | Some try_addr =>
      if negb mem then -1
      else list_loop (cidr_entry addr try_addr) (S (length _list)) (Some _list) 0
  end.
End resolver.

(** ** Specification *)

Definition addr_width (af : Z) : Z := if af =? AF_INET then 32 else 128.

(** The address as a number of [addr_width] bits. *)
Definition addr_value (a : xaddr) : Z :=
  be_value (if af a =? AF_INET then ztake 4 (addr8 a) else addr8 a).

Record wf_xaddr (a : xaddr) : Prop := {
  wx_af : af a = AF_INET \/ af a = AF_INET6;
  wx_len : zlen (addr8 a) = 16;
  wx_bytes : Bytes (addr8 a)
}.

(** The addresses agree in their first [l] bits. *)
Definition in_network (host net : xaddr) (l : Z) : Prop :=
  af host = af net /\ 0 <= l <= addr_width (af host) /\
  addr_value host / 2 ^ (addr_width (af host) - l) =
  addr_value net / 2 ^ (addr_width (af host) - l) /\
  (af host = AF_INET6 -> scope_id host = scope_id net).

(** The host part of a network address is zero. *)
Definition host_zero (a : xaddr) (l : Z) : Prop :=
  0 <= l <= addr_width (af a) /\ addr_value a mod 2 ^ (addr_width (af a) - l) = 0.

(** ** Lemmas: masks as numbers *)

Lemma land_concat a b c d n :
  0 <= n -> 0 <= b < 2 ^ n -> 0 <= d < 2 ^ n ->
  Z.land (a * 2 ^ n + b) (c * 2 ^ n + d) = Z.land a c * 2 ^ n + Z.land b d.
Proof.
  intros Hn Hb Hd. apply Z.bits_inj'; intros i Hi.
  assert (Hbd : in_range n (Z.land b d)) by (apply land_range; unfold in_range; lia).
  rewrite Z.land_spec, !testbit_concat by done.
  destruct (i <? n); by rewrite Z.land_spec.
Qed.

Lemma be_value_land a : forall b,
  zlen a = zlen b -> Bytes a -> Bytes b ->
  be_value (zip_with Z.land a b) = Z.land (be_value a) (be_value b).
Proof.
  induction a as [|x a IH]; intros [|y b] Hl Ha Hb; try done; rewrite ?zlen_cons in Hl; try zl.
  apply Forall_cons in Ha as [Hx Ha]. apply Forall_cons in Hb as [Hy Hb]. simpl.
  rewrite !be_value_cons, IH by (done || lia).
  assert (E : zlen (zip_with Z.land a b) = zlen a).
  { unfold zlen in *. rewrite length_zip_with. lia. }
  rewrite E. pose proof (be_value_range a Ha) as Ra. pose proof (be_value_range b Hb) as Rb.
  pose proof (zlen_nonneg a) as P. replace (zlen b) with (zlen a) in * by lia.
  change 256 with (2 ^ 8) in *. rewrite <- Z.pow_mul_r in * by lia.
  by rewrite land_concat by lia.
Qed.

(** A mask of [n - k] ones above [k] zeros. *)
Lemma land_mask x n k :
  0 <= k <= n -> 0 <= x < 2 ^ n -> Z.land x (2 ^ n - 2 ^ k) = x / 2 ^ k * 2 ^ k.
Proof.
  intros Hk Hx.
  assert (2 ^ n - 2 ^ k = Z.shiftl (Z.ones (n - k)) k) as ->.
  { rewrite Z.shiftl_mul_pow2, Z.ones_equiv by lia.
    assert (2 ^ n = 2 ^ (n - k) * 2 ^ k) by (rewrite <- Z.pow_add_r by lia; f_equal; lia). lia. }
  assert (Z.land x (Z.shiftl (Z.ones (n - k)) k) =
          Z.shiftl (Z.land (Z.shiftr x k) (Z.ones (n - k))) k) as ->.
  { apply Z.bits_inj'; intros i Hi. rewrite Z.land_spec. destruct (decide (i < k)).
    - by rewrite !Z.shiftl_spec_low, andb_false_r by lia.
    - rewrite !Z.shiftl_spec, Z.land_spec, Z.shiftr_spec by lia. by rewrite Z.sub_add. }
  rewrite Z.land_ones, Z.shiftl_mul_pow2, Z.shiftr_div_pow2 by lia.
  rewrite (Z.mod_small (x / 2 ^ k)); [done|].
  assert (2 ^ n = 2 ^ k * 2 ^ (n - k)) by (rewrite <- Z.pow_add_r by lia; f_equal; lia).
  pose proof (Z.pow_pos_nonneg 2 k). split; [apply Z.div_pos; lia|].
  apply Z.div_lt_upper_bound; lia.
Qed.

Lemma land_hostmask x n k :
  0 <= k <= n -> 0 <= x < 2 ^ n -> Z.land x (2 ^ k - 1) = x mod 2 ^ k.
Proof. intros. apply land_ones_mod. lia. Qed.

(** The masks of every length, by evaluation. *)
Definition check_mask (f l : Z) : bool :=
  match addr_netmask f l, addr_hostmask f l with
  | Ok n, Ok h =>
      let w := addr_width f in
      (zlen (addr8 n) =? 16) && (zlen (addr8 h) =? 16) &&
      forallb (fun b => (0 <=? b) && (b <? 256)) (addr8 n) &&
      forallb (fun b => (0 <=? b) && (b <? 256)) (addr8 h) &&
      (addr_value n =? 2 ^ w - 2 ^ (w - l)) && (addr_value h =? 2 ^ (w - l) - 1) &&
      (af n =? f) && (af h =? f)
  | _, _ => false
  end.

Lemma masks_checked :
  forallb (check_mask AF_INET) (seqZ 0 33) && forallb (check_mask AF_INET6) (seqZ 0 129) = true.
Proof. vm_compute. reflexivity. Qed.

Lemma check_bytes l : forallb (fun b => (0 <=? b) && (b <? 256)) l = true -> Bytes l.
Proof.
  rewrite forallb_forall. intros H. apply List.Forall_forall. intros b Hb.
  specialize (H b Hb). unfold in_range. change (2 ^ 8) with 256. lia.
Qed.

Lemma netmask_spec f l :
  f = AF_INET \/ f = AF_INET6 -> 0 <= l <= addr_width f ->
  exists n h, addr_netmask f l = Ok n /\ addr_hostmask f l = Ok h /\
    wf_xaddr n /\ wf_xaddr h /\ af n = f /\ af h = f /\
    addr_value n = 2 ^ addr_width f - 2 ^ (addr_width f - l) /\
    addr_value h = 2 ^ (addr_width f - l) - 1.
Proof.
  intros Hf Hl.
  assert (H : check_mask f l = true).
  { pose proof masks_checked as H. apply andb_true_iff in H as [H4 H6].
    rewrite forallb_forall in H4, H6.
    destruct Hf as [-> | ->]; unfold addr_width in Hl; simpl in Hl;
      [apply H4|apply H6]; apply list_elem_of_In, elem_of_seqZ; lia. }
  unfold check_mask in H. destruct (addr_netmask f l) as [n|]; [|done].
  destruct (addr_hostmask f l) as [h|]; [|done].
  rewrite !andb_true_iff, !Z.eqb_eq in H.
  destruct H as (((((((H1 & H2) & H3) & H4) & H5) & H6) & H7) & H8).
  exists n, h. split_and!; try done; constructor; subst; auto using check_bytes;
    by rewrite ?H8.
Qed.

Lemma masklen_valid_spec f l :
  f = AF_INET \/ f = AF_INET6 ->
  masklen_valid f l = if l <=? addr_width f then 0 else -1.
Proof. by intros [-> | ->]. Qed.

Lemma addr_netmask_fails f l :
  f = AF_INET \/ f = AF_INET6 -> addr_width f < l ->
  addr_netmask f l = Err (-1) /\ addr_hostmask f l = Err (-1).
Proof.
  intros Hf Hl. unfold addr_hostmask, addr_netmask. rewrite masklen_valid_spec by done.
  destruct (Z.leb_spec l (addr_width f)); [lia|done].
Qed.

Lemma addr_value_range a : wf_xaddr a -> 0 <= addr_value a < 2 ^ addr_width (af a).
Proof.
  intros [Hf Hl Hb]. unfold addr_value, addr_width.
  assert (H4 : zlen (ztake 4 (addr8 a)) = 4) by zl.
  destruct Hf as [-> | ->]; simpl.
  - pose proof (be_value_range (ztake 4 (addr8 a)) (Forall_ztake _ _ _ Hb)) as R.
    by rewrite H4 in R.
  - pose proof (be_value_range (addr8 a) Hb) as R. by rewrite Hl in R.
Qed.

Lemma addr_and_spec a b :
  wf_xaddr a -> wf_xaddr b -> af a = af b ->
  exists c, addr_and a b = Ok c /\ wf_xaddr c /\ af c = af a /\ scope_id c = scope_id a /\
            addr_value c = Z.land (addr_value a) (addr_value b).
Proof.
  intros [Hf Hl Hb] [Hf' Hl' Hb'] E. unfold addr_and, addr_value. rewrite <- E, Z.eqb_refl. simpl.
  assert (B : forall x y, Bytes x -> Bytes y -> Bytes (zip_with Z.land x y)).
  { intros x y Hx. revert y. induction Hx as [|u x Hu Hx IH]; intros [|v y] Hy; simpl; auto.
    apply Forall_cons in Hy as [Hv Hy]. constructor; [|by apply IH].
    apply land_range; unfold in_range in *; lia. }
  assert (Z4 : forall x y : bytes, zlen (zip_with Z.land x y) = Z.min (zlen x) (zlen y)).
  { intros. unfold zlen. rewrite length_zip_with. lia. }
  destruct Hf as [Ha | Ha]; rewrite Ha; simpl; eexists; (split; [done|]); simpl.
  - assert (H4 : zlen (zip_with Z.land (ztake 4 (addr8 a)) (ztake 4 (addr8 b))) = 4)
      by (rewrite Z4; zl).
    split_and!; [constructor; simpl; auto|done..|].
    + rewrite zlen_write_at; [done|lia|]. rewrite H4. lia.
    + apply Bytes_write_at; auto with ssh.
    + unfold write_at. rewrite ztake_0. simpl. rewrite ztake_app_le, ztake_ge by lia.
      apply be_value_land; auto with ssh. zl.
  - split_and!; [constructor; simpl; auto|done..|].
    + rewrite Z4. lia.
    + apply be_value_land; auto. lia.
Qed.

Lemma cmp_bytes_eq a : forall b, zlen a = zlen b -> cmp_bytes a b = 0 <-> a = b.
Proof.
  induction a as [|x a IH]; intros [|y b] Hl; simpl; rewrite ?zlen_cons in Hl; try zl; [done|].
  destruct (Z.eqb_spec (x - y) 0) as [E|E]; simpl.
  - replace x with y by lia. rewrite IH by lia. split; [by intros ->|by intros [= ->]].
  - split; [by destruct (y <? x)|]. intros [= -> ->]. lia.
Qed.

Lemma be_value_inj a b : zlen a = zlen b -> Bytes a -> Bytes b -> be_value a = be_value b -> a = b.
Proof.
  intros Hl Ha Hb E. rewrite <- (be_bytes_value a), <- (be_bytes_value b) by done.
  rewrite E. f_equal. unfold zlen in Hl. lia.
Qed.

Lemma addr_cmp_eq a b :
  wf_xaddr a -> wf_xaddr b ->
  addr_cmp a b = 0 <->
  af a = af b /\ addr_value a = addr_value b /\ (af a = AF_INET6 -> scope_id a = scope_id b).
Proof.
  intros [Hf Hl Hb] [Hf' Hl' Hb']. unfold addr_cmp, addr_value.
  destruct (Z.eqb_spec (af a) (af b)) as [<-|]; simpl.
  2: { split; [by destruct (_ =? _)|tauto]. }
  destruct Hf as [Ha | Ha]; rewrite Ha; simpl.
  - destruct (Z.eqb_spec (be_value (ztake 4 (addr8 a))) (be_value (ztake 4 (addr8 b)))) as [E|E].
    + rewrite E. intuition done.
    + split; [by destruct (_ <? _)|tauto].
  - destruct (Z.eqb_spec (cmp_bytes (addr8 a) (addr8 b)) 0) as [E|E]; simpl.
    + apply cmp_bytes_eq in E; [|lia]. rewrite E.
      destruct (Z.eqb_spec (scope_id a) (scope_id b)); [tauto|].
      split; [by destruct (_ <? _)|tauto].
    + split; [done|]. intros (_ & E2 & _). apply be_value_inj in E2; [|lia|done..].
      rewrite E2 in E. destruct E. apply cmp_bytes_eq; done.
Qed.

Lemma addr_is_all0s_spec a : wf_xaddr a -> addr_is_all0s a = 0 <-> addr_value a = 0.
Proof.
  intros [Hf Hl Hb]. unfold addr_is_all0s, addr_value. destruct Hf as [Ha | Ha]; rewrite Ha; simpl.
  - by destruct (Z.eqb_spec (be_value (ztake 4 (addr8 a))) 0).
  - destruct (forallb (Z.eqb 0) (addr8 a)) eqn:E.
    + split; [|done]. intros _. assert (addr8 a = zrep 16 0) as ->; [|done].
      unfold zlen in Hl. unfold zrep. replace (Z.to_nat 16) with (length (addr8 a)) by lia.
      clear -E. induction (addr8 a) as [|x l IH]; [done|]. cbn [forallb] in E.
      apply andb_true_iff in E as [E1 E2]. simpl. rewrite <- IH by done. f_equal. lia.
    + split; [done|]. intros E2. assert (addr8 a = zrep 16 0) as E3; [|by rewrite E3 in E].
      apply be_value_inj; [done|done|apply Bytes_zrep; by auto with ssh|]. by rewrite E2.
Qed.

Lemma addr_host_is_all0s_spec a l :
  wf_xaddr a -> 0 <= l -> addr_host_is_all0s a l = 0 <-> host_zero a l.
Proof.
  intros Ha Hl. pose proof (wx_af _ Ha) as Hf. unfold addr_host_is_all0s, host_zero.
  destruct (decide (l <= addr_width (af a))) as [Hle|Hgt].
  - destruct (netmask_spec (af a) l Hf ltac:(lia)) as (n & h & _ & -> & _ & Wh & _ & Eh & _ & Vh).
    destruct (addr_and_spec a h Ha Wh (eq_sym Eh)) as (c & -> & Wc & _ & _ & Vc).
    rewrite addr_is_all0s_spec, Vc, Vh by done. pose proof (addr_value_range a Ha).
    rewrite land_hostmask with (n := addr_width (af a)) by lia. intuition lia.
  - destruct (addr_netmask_fails (af a) l Hf ltac:(lia)) as (_ & ->). intuition lia.
Qed.

Lemma addr_netmatch_value host net l :
  wf_xaddr host -> wf_xaddr net -> 0 <= l ->
  addr_netmatch host net l = 0 <->
  af host = af net /\ l <= addr_width (af host) /\
  addr_value host / 2 ^ (addr_width (af host) - l) * 2 ^ (addr_width (af host) - l) =
    addr_value net /\
  (af host = AF_INET6 -> scope_id host = scope_id net).
Proof.
  intros Hh Hn Hl. pose proof (wx_af _ Hh) as Hf. unfold addr_netmatch.
  destruct (Z.eqb_spec (af host) (af net)) as [E|E]; simpl; [|intuition lia].
  destruct (decide (l <= addr_width (af host))) as [Hle|Hgt].
  - destruct (netmask_spec (af host) l Hf ltac:(lia)) as (n & h & -> & _ & Wn & _ & En & _ & Vn & _).
    destruct (addr_and_spec host n Hh Wn (eq_sym En)) as (c & -> & Wc & Ac & Sc & Vc).
    rewrite addr_cmp_eq, Ac, Sc, Vc, Vn by done. pose proof (addr_value_range host Hh).
    rewrite land_mask by lia. tauto.
  - destruct (addr_netmask_fails (af host) l Hf ltac:(lia)) as (-> & _). intuition lia.
Qed.

(** Against a network whose host part is zero, the comparison is of the first
    [l] bits. *)
Lemma addr_netmatch_network host net l :
  wf_xaddr host -> wf_xaddr net -> host_zero net l ->
  addr_netmatch host net l = 0 <-> in_network host net l.
Proof.
  intros Hh Hn (Hl & Hz). rewrite addr_netmatch_value by (done || lia). unfold in_network.
  split; intros (E & H & V & S); rewrite E in *; split_and!; auto; try lia.
  - rewrite <- V. rewrite Z.div_mul; [done|]. apply Z.pow_nonzero; lia.
  - rewrite V. pose proof (Z.div_mod (addr_value net) (2 ^ (addr_width (af net) - l))) as D.
    rewrite Hz, Z.add_0_r in D. rewrite Z.mul_comm. symmetry. apply D, Z.pow_nonzero; lia.
Qed.

(** ** Lemmas: parsing *)

(** The layout of the addresses [getaddrinfo] gives. *)
Definition resolver_ok (getaddrinfo : bytes -> option (option (sockaddr * Z))) : Prop :=
  forall p sa slen, getaddrinfo p = Some (Some (sa, slen)) ->
    zlen (sin_addr sa) = 4 /\ Bytes (sin_addr sa) /\
    zlen (sin6_addr sa) = 16 /\ Bytes (sin6_addr sa).

Section resolver_lemmas.
Context (getaddrinfo : bytes -> option (option (sockaddr * Z))).
Context (Hres : resolver_ok getaddrinfo).

Lemma addr_pton_wf p x : addr_pton getaddrinfo p = Ok x -> wf_xaddr x.
Proof.
  unfold addr_pton. destruct (getaddrinfo p) as [[[sa slen]|]|] eqn:E; try done.
  apply Hres in E as (L4 & B4 & L6 & B6). unfold addr_sa_to_xaddr.
  destruct (sa_family sa =? AF_INET); [|destruct (sa_family sa =? AF_INET6); [|done]];
    (destruct (_ <? _); [done|]); intros [= <-]; constructor; simpl; auto.
  - rewrite zlen_write_at; [done|lia|]. rewrite L4. vm_compute. congruence.
  - apply Bytes_write_at; auto. apply Bytes_zrep; auto with ssh.
Qed.

Lemma digits_value_nonneg s : forall acc, 0 <= acc -> 0 <= fst (digits_value acc s).
Proof.
  induction s as [|c s IH]; intros acc Ha; [done|]. cbn [digits_value].
  destruct (isdigit c) eqn:E; [|done]. apply IH. unfold isdigit in E.
  change (ch "0") with 48 in *. lia.
Qed.

Lemma strtoul_nonneg s : 0 <= fst (strtoul s).
Proof.
  unfold strtoul. destruct (number_sign (skip_spaces s)) as [neg t].
  destruct (starts_digit t); [|done]. pose proof (digits_value_nonneg t 0 ltac:(lia)).
  destruct (digits_value 0 t) as [v e]. simpl in *. unfold ULONG_MAX.
  repeat case_match; try lia. apply wrap_range. lia.
Qed.

Lemma addr_pton_cidr_ok p x l :
  addr_pton_cidr getaddrinfo p = Ok (x, l) -> wf_xaddr x /\ host_zero x l /\ 0 <= l <= 128.
Proof.
  unfold addr_pton_cidr. destruct (ADDRBUF <=? zlen p); [done|].
  set (mask := match strchr p (ch "/") with None => _ | Some r => _ end).
  assert (Hm : forall m, mask = Ok m -> strchr p (ch "/") <> None -> 0 <= m <= 128).
  { intros m Hm Hs. unfold mask in Hm. destruct (strchr p (ch "/")) as [r|]; [|done].
    pose proof (strtoul_nonneg (tail r)). destruct (strtoul (tail r)) as [v e].
    simpl in *. destruct (_ || _) eqn:E; [done|]. injection Hm as <-.
    apply orb_false_iff in E as [_ E]. lia. }
  destruct mask as [m|]; [|done].
  destruct (addr_pton getaddrinfo _) as [tmp|] eqn:Et; [|done].
  apply addr_pton_wf in Et. pose proof (wx_af _ Et) as Hf.
  set (ml := match strchr p (ch "/") with None => _ | Some _ => m end).
  assert (Hml : 0 <= ml <= 128).
  { unfold ml. destruct (strchr p (ch "/")); [by apply Hm|].
    unfold addr_unicast_masklen. destruct Hf as [-> | ->]; simpl; lia. }
  clearbody ml. rewrite (wrap_small 32 ml) by lia. rewrite masklen_valid_spec by done.
  destruct (ml <=? addr_width (af tmp)); [|done]. simpl.
  destruct (Z.eqb_spec (addr_host_is_all0s tmp ml) 0) as [E|]; [|done]. simpl.
  intros [= <- <-]. split_and!; [done| |lia..]. apply addr_host_is_all0s_spec; [done|lia|done].
Qed.

Lemma addr_pton_cidr_err p e : addr_pton_cidr getaddrinfo p = Err e -> e = -1 \/ e = -2.
Proof.
  unfold addr_pton_cidr. intros H. repeat case_match; simplify_eq; auto.
Qed.

(** ** Specification: lists of addresses *)

Definition cidr_text (cp : bytes) : bytes := if entry_negated cp then tail cp else cp.

(** An entry that stops the parsing of the list. *)
Definition bad_entry (cp : bytes) : Prop :=
  cidr_text cp = [] \/ addr_pton_cidr getaddrinfo (cidr_text cp) = Err (-2).

(** An address matches an entry: it lies in the network the entry denotes or,
    when the entry denotes none, it matches the entry as a wildcard. *)
Definition hit_entry (a : bytes) (x : xaddr) (cp : bytes) : Prop :=
  match addr_pton_cidr getaddrinfo (cidr_text cp) with
  | Ok (net, l) => in_network x net l
  | Err e => e <> -2 /\ glob a (norm (cidr_text cp))
  end.

(** The walk over the entries. *)
Fixpoint entry_walk (entry : bytes -> Z -> Z + Z) (ts : list bytes) (ret : Z) : Z :=
  match ts with
  | [] => ret
  | t :: ts => match entry t ret with inl r => r | inr ret => entry_walk entry ts ret end
  end.

Lemma list_loop_walk entry fuel : forall s ret,
  (length s < fuel)%nat ->
  list_loop entry fuel (Some s) ret = entry_walk entry (split_on (ch ",") s) ret.
Proof.
  induction fuel as [|fuel IH]; intros s ret Hf; [lia|]. cbn [list_loop strsep].
  rewrite split_on_unfold. cbn [entry_walk]. destruct (entry _ ret) as [r|r]; [done|].
  destruct (strchr s (ch ",")) as [t|] eqn:E.
  - apply strchr_length in E as [? ?]. destruct t; [done|]. simpl in *. by apply IH; lia.
  - by destruct fuel.
Qed.

(** What one pass does with an entry. *)
Lemma match_entry_spec a x cp ret :
  wf_xaddr x ->
  (bad_entry cp /\ match_entry getaddrinfo (Some a) x cp ret = inl (-2)) \/
  (~ bad_entry cp /\ hit_entry a x cp /\
   match_entry getaddrinfo (Some a) x cp ret = if entry_negated cp then inl (-1) else inr 1) \/
  (~ bad_entry cp /\ ~ hit_entry a x cp /\ match_entry getaddrinfo (Some a) x cp ret = inr ret).
Proof.
  intros Hx. unfold bad_entry, hit_entry, match_entry. fold (entry_negated cp). fold (cidr_text cp).
  destruct (bool_decide_reflect (cidr_text cp = [])) as [Hn|Hn]; [by auto|].
  destruct (addr_pton_cidr getaddrinfo (cidr_text cp)) as [[net l]|e] eqn:E.
  - apply addr_pton_cidr_ok in E as (Wn & Hz & Hl). rewrite wrap_small by lia.
    pose proof (addr_netmatch_network x net l Hx Wn Hz) as Hnet. right.
    assert (~ (cidr_text cp = [] \/ Ok (net, l) = Err (-2))) by (intros [?|?]; done).
    destruct (Z.eqb_spec (addr_netmatch x net l) 0); [left|right]; tauto.
  - destruct (Z.eqb_spec e (-2)) as [->|Hne]; [by auto|]. right.
    assert (~ (cidr_text cp = [] \/ @Err (xaddr * Z) e = Err (-2))) by (intros [?|?]; congruence).
    pose proof (match_pattern_norm (cidr_text cp) a) as G.
    destruct (match_pattern a (cidr_text cp)); [left; tauto|right].
    split_and!; [done| |done]. rewrite <- G. intuition done.
Qed.

Lemma entry_walk_match a x ts : wf_xaddr x -> forall ret, ret = 0 \/ ret = 1 ->
  entry_walk (match_entry getaddrinfo (Some a) x) ts ret = 1 <->
  (forall t, In t ts -> ~ bad_entry t /\ ~ (entry_negated t = true /\ hit_entry a x t)) /\
  (ret = 1 \/ exists t, In t ts /\ entry_negated t = false /\ hit_entry a x t).
Proof.
  intros Hx. induction ts as [|t ts IH]; intros ret Hret; simpl.
  { split; [|by intros [_ [?|(? & [] & _)]]]. intros ->. split; [by intros|auto]. }
  destruct (match_entry_spec a x t ret Hx) as [(Hb & ->)|[(Hb & Hh & ->)|(Hb & Hh & ->)]].
  - split; [done|]. intros [H _]. by destruct (H t (or_introl eq_refl)).
  - destruct (entry_negated t) eqn:Hn.
    + split; [done|]. intros [H _]. destruct (H t (or_introl eq_refl)) as [_ H']. by destruct H'.
    + rewrite IH by auto. split.
      * intros [H _]. split; [|right; exists t; by auto]. intros u [<-|Hu]; [|by apply H]. split; [done|].
        rewrite Hn. by intros [? _].
      * intros [H _]. split; [|auto]. intros u Hu. apply H. auto.
  - rewrite IH by done. split.
    + intros [H H']. split; [|destruct H' as [?|(u & ? & ? & ?)]; eauto 7].
      intros u [<-|Hu]; [|by apply H]. tauto.
    + intros [H H']. split; [auto|]. destruct H' as [?|(u & [<-|?] & ? & ?)]; eauto. done.
Qed.

(** A walk that does not end in an error or a negated match. *)
Lemma entry_walk_nonneg a x ts : wf_xaddr x -> forall ret, ret = 0 \/ ret = 1 ->
  entry_walk (match_entry getaddrinfo (Some a) x) ts ret <> -2 ->
  entry_walk (match_entry getaddrinfo (Some a) x) ts ret <> -1 ->
  (forall t, In t ts -> ~ (entry_negated t = true /\ hit_entry a x t)) /\
  (entry_walk (match_entry getaddrinfo (Some a) x) ts ret = 0 \/
   entry_walk (match_entry getaddrinfo (Some a) x) ts ret = 1).
Proof.
  intros Hx. induction ts as [|t ts IH]; intros ret Hret; simpl; [by auto|].
  destruct (match_entry_spec a x t ret Hx) as [(Hb & ->)|[(Hb & Hh & ->)|(Hb & Hh & ->)]]; [done|..].
  - destruct (entry_negated t) eqn:Hn; [done|]. intros H1 H2.
    destruct (IH 1 ltac:(auto) H1 H2) as [H H']. split; [|done].
    intros u [<-|Hu]; [rewrite Hn; by intros [? _]|by apply H].
  - intros H1 H2. destruct (IH ret Hret H1 H2) as [H H']. split; [|done].
    intros u [<-|Hu]; [tauto|by apply H].
Qed.
End resolver_lemmas.

(** A resolver of dotted quads, for the witnesses. *)
Definition quad_part (t : bytes) : bool :=
  negb (bool_decide (t = [])) && forallb isdigit t && (fst (digits_value 0 t) <? 256).
Definition test_resolver (p : bytes) : option (option (sockaddr * Z)) :=
  match split_on (ch ".") p with
  | [a; b; c; d] =>
      if forallb quad_part [a; b; c; d]
      then Some (Some (mk_sockaddr AF_INET (fst ∘ digits_value 0 <$> [a; b; c; d]) (zrep 16 0) 0, 16))
      else None
  | _ => None
  end.

Lemma test_resolver_ok : resolver_ok test_resolver.
Proof.
  intros p sa slen. unfold test_resolver.
  destruct (split_on (ch ".") p) as [|a [|b [|c [|d [|e ts]]]]]; try done.
  destruct (forallb quad_part [a; b; c; d]) eqn:E; [|done]. intros [= <- <-]. simpl.
  split_and!; try done; [|by apply Bytes_zrep; auto with ssh].
  cbn [forallb] in E. rewrite !andb_true_iff in E.
  assert (Q : forall t, quad_part t = true -> is_byte (fst (digits_value 0 t))).
  { intros t Ht. unfold quad_part in Ht. rewrite !andb_true_iff in Ht. destruct Ht as [_ Ht].
    pose proof (digits_value_nonneg t 0 ltac:(lia)). unfold in_range. change (2 ^ 8) with 256. lia. }
  destruct E as (? & ? & ? & ? & _). repeat constructor; by apply Q.
Qed.

(** ** Properties *)

(** C22. A network that [addr_pton_cidr] accepts has a valid mask length and a zero
    host part, and [addr_netmatch] then compares exactly the first [l] bits of
    the two addresses (and, for IPv6, the scopes), for every mask length. *)
Theorem addr_netmatch_cidr getaddrinfo p net l host :
  resolver_ok getaddrinfo -> addr_pton_cidr getaddrinfo p = Ok (net, l) -> wf_xaddr host ->
  host_zero net l /\ (addr_netmatch host net l = 0 <-> in_network host net l).
Proof.
  intros Hres Hp Hh. destruct (addr_pton_cidr_ok _ Hres _ _ _ Hp) as (Wn & Hz & _).
  split; [done|]. by apply addr_netmatch_network.
Qed.

Definition quad (a b c d : Z) : xaddr := mk_xaddr AF_INET ([a; b; c; d] ++ zrep 12 0) 0.

Lemma addr_netmatch_cidr_witness :
  addr_pton_cidr test_resolver (cstr "10.128.0.0/9") = Ok (quad 10 128 0 0, 9) /\
  in_network (quad 10 200 3 4) (quad 10 128 0 0) 9.
Proof.
  assert (E : addr_pton_cidr test_resolver (cstr "10.128.0.0/9") = Ok (quad 10 128 0 0, 9))
    by (vm_compute; reflexivity).
  assert (W : wf_xaddr (quad 10 200 3 4)).
  { constructor; [by left|done|]. repeat constructor; vm_compute; congruence. }
  split; [exact E|].
  apply (addr_netmatch_cidr test_resolver _ _ _ _ test_resolver_ok E W).
  vm_compute. reflexivity.
Defined.

(** C23. An address matches a list exactly when no entry of the list is malformed,
    no negated entry matches, and some positive entry does, whatever the order
    of the entries. *)
Theorem addr_match_list_spec getaddrinfo a x l :
  resolver_ok getaddrinfo -> addr_pton getaddrinfo a = Ok x ->
  let es := split_on (ch ",") l in
  addr_match_list getaddrinfo true (Some a) l = 1 <->
  (forall e, In e es ->
     ~ bad_entry getaddrinfo e /\
     ~ (entry_negated e = true /\ hit_entry getaddrinfo a x e)) /\
  exists e, In e es /\ entry_negated e = false /\ hit_entry getaddrinfo a x e.
Proof.
  intros Hres Hx es. unfold addr_match_list, try_address. rewrite Hx. simpl negb. cbn iota.
  rewrite list_loop_walk by lia. rewrite entry_walk_match; eauto using addr_pton_wf.
  fold es. intuition lia.
Qed.

Lemma addr_match_list_spec_witness :
  exists e, In e (split_on (ch ",") (cstr "!10.1.0.0/16,10.0.0.0/8")) /\
            hit_entry test_resolver (cstr "10.2.3.4") (quad 10 2 3 4) e.
Proof.
  destruct (addr_match_list_spec test_resolver (cstr "10.2.3.4") (quad 10 2 3 4)
    (cstr "!10.1.0.0/16,10.0.0.0/8") test_resolver_ok) as [H _].
  - vm_compute. reflexivity.
  - destruct H as [_ (e & ? & _ & ?)]; [vm_compute; reflexivity|]. by exists e.
Defined.

(** [match_user] accepts a user from a host only when the user matches the
    pattern before the [@] and, if there is a host part, no negated entry of it
    matches the host name or the address and some positive entry does. *)
Theorem match_user_sound getaddrinfo user host ip x pattern :
  resolver_ok getaddrinfo -> addr_pton getaddrinfo ip = Ok x ->
  match_user (addr_match_list getaddrinfo true) user host (Some ip) pattern = 1 ->
  glob user (norm (before pattern (ch "@"))) /\
  forall r, strchr pattern (ch "@") = Some r ->
    let pats := tail r in
    (forall e, In e (split_on (ch ",") pats) ->
       ~ (entry_negated e = true /\ hit_entry getaddrinfo ip x e)) /\
    match_hostname host pats <> -1 /\
    (match_hostname host pats = 1 \/
     exists e, In e (split_on (ch ",") pats) /\ entry_negated e = false /\
               hit_entry getaddrinfo ip x e).
Proof.
  intros Hres Hx. unfold match_user. pose proof (before_strchr pattern (ch "@")) as B.
  destruct (strchr pattern (ch "@")) as [r0|].
  2: { rewrite B. intros H. split; [|by intros]. apply match_pattern_norm.
       by destruct (match_pattern user pattern). }
  destruct (match_pattern user _) eqn:Hu; simpl b2z; simpl Z.eqb; cbn iota; [|by intros].
  apply match_pattern_norm in Hu. unfold match_host_and_ip. intros H. split; [done|].
  intros r [= <-]. set (pats := tail r0) in *. cbv zeta in H.
  assert (Hw : addr_match_list getaddrinfo true (Some ip) pats =
               entry_walk (match_entry getaddrinfo (Some ip) x) (split_on (ch ",") pats) 0).
  { unfold addr_match_list, try_address. rewrite Hx. simpl negb. cbn iota.
    by rewrite list_loop_walk by lia. }
  rewrite Hw in H. pose proof (addr_pton_wf _ Hres _ _ Hx) as Wx.
  pose proof (entry_walk_nonneg getaddrinfo Hres ip x (split_on (ch ",") pats) Wx 0) as N.
  pose proof (entry_walk_match getaddrinfo Hres ip x (split_on (ch ",") pats) Wx 0) as M1.
  set (mip := entry_walk _ _ _) in *.
  destruct (Z.eqb_spec mip (-2)); [done|]. destruct (Z.eqb_spec mip (-1)); [done|].
  destruct (Z.eqb_spec (match_hostname host pats) (-1)); [done|].
  destruct N as [N1 N2]; [by auto|done..|]. split_and!; [done|done|].
  assert (Hh : match_hostname host pats = 1 \/ match_hostname host pats = 0).
  { unfold match_hostname in *. rewrite match_pattern_list_walk in *.
    destruct (walk_range host true (entries pats) 0) as [|[|]]; auto. done. }
  destruct Hh as [Hh|Hh]; [by left|right]. rewrite Hh in H.
  destruct N2 as [N2|N2]; [by rewrite N2 in H|].
  destruct M1 as [M1 _]; [auto|]. destruct (M1 N2) as [_ [?|?]]; done.
Qed.

Lemma match_user_sound_witness :
  match_user (addr_match_list test_resolver true) (cstr "root") (cstr "gw.example.com")
    (Some (cstr "10.2.3.4")) (cstr "r*@10.0.0.0/8") = 1 /\
  glob (cstr "root") (norm (before (cstr "r*@10.0.0.0/8") (ch "@"))).
Proof.
  assert (E : match_user (addr_match_list test_resolver true) (cstr "root")
    (cstr "gw.example.com") (Some (cstr "10.2.3.4")) (cstr "r*@10.0.0.0/8") = 1)
    by (vm_compute; reflexivity).
  split; [exact E|].
  apply (match_user_sound test_resolver (cstr "root") (cstr "gw.example.com")
    (cstr "10.2.3.4") (quad 10 2 3 4) (cstr "r*@10.0.0.0/8") test_resolver_ok);
    [vm_compute; reflexivity|exact E].
Defined.

(** [addr_match_cidr_list] does not stop at an entry with characters outside
    VALID_CIDR_CHARS: the entry is still parsed and resolved, and a match
    replaces the error by 1. *)
Theorem addr_match_cidr_list_junk getaddrinfo s6 sc s6' sc' :
  getaddrinfo (cstr "10.0.0.0") = Some (Some (mk_sockaddr AF_INET [10; 0; 0; 0] s6 sc, 16)) ->
  getaddrinfo (cstr "10.1.2.3") = Some (Some (mk_sockaddr AF_INET [10; 1; 2; 3] s6' sc', 16)) ->
  let entry := cstr "10.0.0.0/+8" in
  strspn entry VALID_CIDR_CHARS < zlen entry /\
  addr_match_cidr_list getaddrinfo true (Some (cstr "10.1.2.3")) entry = 1.
Proof.
  intros E1 E2 entry. split; [vm_compute; reflexivity|].
  unfold addr_match_cidr_list, try_address, addr_pton. rewrite E2.
  assert (P : addr_pton_cidr getaddrinfo entry = Ok (quad 10 0 0 0, 8)).
  { unfold addr_pton_cidr, addr_pton. change (before entry (ch "/")) with (cstr "10.0.0.0").
    rewrite E1. vm_compute. reflexivity. }
  transitivity (list_loop (cidr_entry getaddrinfo (Some (cstr "10.1.2.3")) (quad 10 1 2 3))
    (S (length entry)) (Some entry) 0); [reflexivity|]. rewrite list_loop_walk by lia.
  change (split_on (ch ",") entry) with [entry]. cbn [entry_walk]. unfold cidr_entry. rewrite P.
  vm_compute. reflexivity.
Qed.

Lemma addr_match_cidr_list_junk_witness :
  addr_match_cidr_list test_resolver true (Some (cstr "10.1.2.3")) (cstr "10.0.0.0/+8") = 1.
Proof.
  apply (addr_match_cidr_list_junk test_resolver (zrep 16 0) 0 (zrep 16 0) 0);
    vm_compute; reflexivity.
Defined.
