(* ===== verification/Nchan.v ===== *)
(** nchan.c: the state machine that opens and closes the two directions of a
    channel, for both versions of the protocol.

    A function of the file changes a channel and sends packets: it is a
    computation on the channel and the list of what it has done so far.  The
    outcomes of [shutdown] and [close], which only decide what is logged, are
    not modelled; a call of [fatal] is a failure of the computation. *)

From S2P Require Import Prelude.

(** ** Data *)

Definition CHAN_INPUT_OPEN : Z := 0.
Definition CHAN_INPUT_WAIT_DRAIN : Z := 1.
Definition CHAN_INPUT_WAIT_OCLOSE : Z := 2.
Definition CHAN_INPUT_CLOSED : Z := 3.

Definition CHAN_OUTPUT_OPEN : Z := 0.
Definition CHAN_OUTPUT_WAIT_DRAIN : Z := 1.
Definition CHAN_OUTPUT_WAIT_IEOF : Z := 2.
Definition CHAN_OUTPUT_CLOSED : Z := 3.

Definition CHAN_CLOSE_SENT : Z := 0x01.
Definition CHAN_CLOSE_RCVD : Z := 0x02.
Definition CHAN_EOF_SENT : Z := 0x04.
Definition CHAN_EOF_RCVD : Z := 0x08.
Definition CHAN_LOCAL : Z := 0x10.

Definition CHAN_EXTENDED_WRITE : Z := 2.
Definition SSH_CHANNEL_LARVAL : Z := 10.
Definition SSH_CHANNEL_ZOMBIE : Z := 14.

(** The fields of [Channel] that nchan.c uses. *)
Record Channel : Type := mk_channel {
  c_type : Z;
  c_istate : Z;
  c_ostate : Z;
  c_flags : Z;
  c_rfd : Z;
  c_wfd : Z;
  c_efd : Z;
  c_sock : Z;
  c_input : bytes;
  c_output : bytes;
  c_extended : bytes;
  c_extended_usage : Z;
  c_ctype : bytes;
  c_remote_id : Z
}.

(** The packets of nchan.c. *)
Inductive packet : Type :=
| INPUT_EOF            (* SSH_MSG_CHANNEL_INPUT_EOF *)
| OUTPUT_CLOSE         (* SSH_MSG_CHANNEL_OUTPUT_CLOSE *)
| CHANNEL_EOF          (* SSH2_MSG_CHANNEL_EOF *)
| CHANNEL_CLOSE        (* SSH2_MSG_CHANNEL_CLOSE *)
| CHANNEL_EOW.         (* SSH2_MSG_CHANNEL_REQUEST eow@openssh.com *)

#[export] Instance packet_eq_dec : EqDecision packet.
Proof. solve_decision. Defined.

(** What a function does besides changing the channel: a packet sent to the
    remote channel, a message that reports an error of the peer, and one that
    reports a call in the wrong state. *)
Inductive action : Type :=
| Send (p : packet) (remote_id : Z)
| ProtocolError
| StateError.

Abbreviation Chan := (M (Channel * list action)).

Definition chan : Chan Channel := fun s => (Ok (fst s), s).
Definition put (c : Channel) : Chan unit := fun s => (Ok tt, (c, snd s)).
Definition act (a : action) : Chan unit := fun s => (Ok tt, (fst s, snd s ++ [a])).
Definition packet_send (p : packet) : Chan unit := fun s =>
  act (Send p (c_remote_id (fst s))) s.
Definition fatal : Chan unit := fail (-1).

Definition with_istate (v : Z) (c : Channel) : Channel :=
  mk_channel (c_type c) v (c_ostate c) (c_flags c) (c_rfd c) (c_wfd c) (c_efd c) (c_sock c)
    (c_input c) (c_output c) (c_extended c) (c_extended_usage c) (c_ctype c) (c_remote_id c).
Definition with_ostate (v : Z) (c : Channel) : Channel :=
  mk_channel (c_type c) (c_istate c) v (c_flags c) (c_rfd c) (c_wfd c) (c_efd c) (c_sock c)
    (c_input c) (c_output c) (c_extended c) (c_extended_usage c) (c_ctype c) (c_remote_id c).
Definition with_flags (v : Z) (c : Channel) : Channel :=
  mk_channel (c_type c) (c_istate c) (c_ostate c) v (c_rfd c) (c_wfd c) (c_efd c) (c_sock c)
    (c_input c) (c_output c) (c_extended c) (c_extended_usage c) (c_ctype c) (c_remote_id c).
Definition with_type (v : Z) (c : Channel) : Channel :=
  mk_channel v (c_istate c) (c_ostate c) (c_flags c) (c_rfd c) (c_wfd c) (c_efd c) (c_sock c)
    (c_input c) (c_output c) (c_extended c) (c_extended_usage c) (c_ctype c) (c_remote_id c).
Definition with_output (v : bytes) (c : Channel) : Channel :=
  mk_channel (c_type c) (c_istate c) (c_ostate c) (c_flags c) (c_rfd c) (c_wfd c) (c_efd c)
    (c_sock c) (c_input c) v (c_extended c) (c_extended_usage c) (c_ctype c) (c_remote_id c).
Definition with_rfd (v : Z) (c : Channel) : Channel :=
  mk_channel (c_type c) (c_istate c) (c_ostate c) (c_flags c) v (c_wfd c) (c_efd c) (c_sock c)
    (c_input c) (c_output c) (c_extended c) (c_extended_usage c) (c_ctype c) (c_remote_id c).
Definition with_wfd (v : Z) (c : Channel) : Channel :=
  mk_channel (c_type c) (c_istate c) (c_ostate c) (c_flags c) (c_rfd c) v (c_efd c) (c_sock c)
    (c_input c) (c_output c) (c_extended c) (c_extended_usage c) (c_ctype c) (c_remote_id c).

(** [flags & f], as a truth value. *)
Definition hasf (f flags : Z) : bool := negb (Z.land flags f =? 0).
Definition has (f : Z) (c : Channel) : bool := hasf f (c_flags c).
#[global] Arguments hasf f flags : simpl never.
(** [c->flags |= f]. *)
Definition set_flag (f : Z) : Chan unit :=
  let! c := chan in put (with_flags (Z.lor (c_flags c) f) c).

(** ** Operations *)

Section nchan.
(** [compat20] is whether the protocol is version 2; the two others are bits of
    [datafellows], the version of the peer. *)
Context (compat20 SSH_NEW_OPENSSH SSH_BUG_EXTEOF : bool).

Definition chan_set_istate (next : Z) : Chan unit :=
  let! c := chan in
  if (CHAN_INPUT_CLOSED <? c_istate c) || (CHAN_INPUT_CLOSED <? next) then fatal
  else put (with_istate next c).

Definition chan_set_ostate (next : Z) : Chan unit :=
  let! c := chan in
  if (CHAN_OUTPUT_CLOSED <? c_ostate c) || (CHAN_OUTPUT_CLOSED <? next) then fatal
  else put (with_ostate next c).

Definition chan_shutdown_write : Chan unit :=
  let! c := chan in
  put (with_output [] c) ;;;
  if compat20 && (c_type c =? SSH_CHANNEL_LARVAL) then ret tt
  else if negb (c_sock c =? -1) then ret tt
  else let! c := chan in put (with_wfd (-1) c).

Definition chan_shutdown_read : Chan unit :=
  let! c := chan in
  if compat20 && (c_type c =? SSH_CHANNEL_LARVAL) then ret tt
  else if negb (c_sock c =? -1) then ret tt
  else put (with_rfd (-1) c).

Definition chan_send_ieof1 : Chan unit :=
  let! c := chan in
  if (c_istate c =? CHAN_INPUT_OPEN) || (c_istate c =? CHAN_INPUT_WAIT_DRAIN)
  then packet_send INPUT_EOF
  else act StateError.

Definition chan_send_oclose1 : Chan unit :=
  let! c := chan in
  if (c_ostate c =? CHAN_OUTPUT_OPEN) || (c_ostate c =? CHAN_OUTPUT_WAIT_DRAIN)
  then put (with_output [] c) ;;; packet_send OUTPUT_CLOSE
  else act StateError.

Definition chan_send_eof2 : Chan unit :=
  let! c := chan in
  if c_istate c =? CHAN_INPUT_WAIT_DRAIN
  then packet_send CHANNEL_EOF ;;; set_flag CHAN_EOF_SENT
  else act StateError.

Definition chan_send_close2 : Chan unit :=
  let! c := chan in
  if negb (c_ostate c =? CHAN_OUTPUT_CLOSED) || negb (c_istate c =? CHAN_INPUT_CLOSED)
  then act StateError
  else if has CHAN_CLOSE_SENT c then act StateError
  else packet_send CHANNEL_CLOSE ;;; set_flag CHAN_CLOSE_SENT.

Definition chan_send_eow2 : Chan unit :=
  let! c := chan in
  if c_ostate c =? CHAN_OUTPUT_CLOSED then act StateError
  else if negb SSH_NEW_OPENSSH then ret tt
  else packet_send CHANNEL_EOW.

Definition chan_rcvd_oclose1 : Chan unit :=
  let! c := chan in
  if c_istate c =? CHAN_INPUT_WAIT_OCLOSE then chan_set_istate CHAN_INPUT_CLOSED
  else if c_istate c =? CHAN_INPUT_OPEN then
    chan_shutdown_read ;;; chan_send_ieof1 ;;; chan_set_istate CHAN_INPUT_CLOSED
  else if c_istate c =? CHAN_INPUT_WAIT_DRAIN then
    chan_send_ieof1 ;;; chan_set_istate CHAN_INPUT_CLOSED
  else act ProtocolError.

Definition chan_read_failed : Chan unit :=
  let! c := chan in
  if c_istate c =? CHAN_INPUT_OPEN then
    chan_shutdown_read ;;; chan_set_istate CHAN_INPUT_WAIT_DRAIN
  else act StateError.

Definition chan_ibuf_empty : Chan unit :=
  let! c := chan in
  if negb (zlen (c_input c) =? 0) then act StateError
  else if c_istate c =? CHAN_INPUT_WAIT_DRAIN then
    if compat20 then
      (if negb (has (Z.lor CHAN_CLOSE_SENT CHAN_LOCAL) c) then chan_send_eof2 else ret tt) ;;;
      chan_set_istate CHAN_INPUT_CLOSED
    else
      chan_send_ieof1 ;;; chan_set_istate CHAN_INPUT_WAIT_OCLOSE
  else act StateError.

Definition chan_rcvd_ieof1 : Chan unit :=
  let! c := chan in
  if c_ostate c =? CHAN_OUTPUT_OPEN then chan_set_ostate CHAN_OUTPUT_WAIT_DRAIN
  else if c_ostate c =? CHAN_OUTPUT_WAIT_IEOF then chan_set_ostate CHAN_OUTPUT_CLOSED
  else act ProtocolError.

Definition chan_write_failed1 : Chan unit :=
  let! c := chan in
  if c_ostate c =? CHAN_OUTPUT_OPEN then
    chan_shutdown_write ;;; chan_send_oclose1 ;;; chan_set_ostate CHAN_OUTPUT_WAIT_IEOF
  else if c_ostate c =? CHAN_OUTPUT_WAIT_DRAIN then
    chan_shutdown_write ;;; chan_send_oclose1 ;;; chan_set_ostate CHAN_OUTPUT_CLOSED
  else act StateError.

Definition chan_obuf_empty : Chan unit :=
  let! c := chan in
  if negb (zlen (c_output c) =? 0) then act StateError
  else if c_ostate c =? CHAN_OUTPUT_WAIT_DRAIN then
    chan_shutdown_write ;;;
    (if negb compat20 then chan_send_oclose1 else ret tt) ;;;
    chan_set_ostate CHAN_OUTPUT_CLOSED
  else act StateError.

Definition chan_rcvd_close2 : Chan unit :=
  let! c := chan in
  (if negb (has CHAN_LOCAL c) then
     (if has CHAN_CLOSE_RCVD c then act ProtocolError else ret tt) ;;;
     set_flag CHAN_CLOSE_RCVD
   else ret tt) ;;;
  let! c := chan in
  if c_type c =? SSH_CHANNEL_LARVAL then
    chan_set_ostate CHAN_OUTPUT_CLOSED ;;; chan_set_istate CHAN_INPUT_CLOSED
  else
    (if c_ostate c =? CHAN_OUTPUT_OPEN then chan_set_ostate CHAN_OUTPUT_WAIT_DRAIN
     else ret tt) ;;;
    if c_istate c =? CHAN_INPUT_OPEN then
      chan_shutdown_read ;;; chan_set_istate CHAN_INPUT_CLOSED
    else if c_istate c =? CHAN_INPUT_WAIT_DRAIN then
      (if negb (has CHAN_LOCAL c) then chan_send_eof2 else ret tt) ;;;
      chan_set_istate CHAN_INPUT_CLOSED
    else ret tt.

Definition chan_rcvd_eow : Chan unit :=
  let! c := chan in
  if c_istate c =? CHAN_INPUT_OPEN then
    chan_shutdown_read ;;; chan_set_istate CHAN_INPUT_CLOSED
  else ret tt.

Definition chan_rcvd_eof2 : Chan unit :=
  set_flag CHAN_EOF_RCVD ;;;
  let! c := chan in
  if c_ostate c =? CHAN_OUTPUT_OPEN then chan_set_ostate CHAN_OUTPUT_WAIT_DRAIN else ret tt.

Definition chan_write_failed2 : Chan unit :=
  let! c := chan in
  if (c_ostate c =? CHAN_OUTPUT_OPEN) || (c_ostate c =? CHAN_OUTPUT_WAIT_DRAIN) then
    chan_shutdown_write ;;;
    (if bool_decide (c_ctype c = cstr "session") then chan_send_eow2 else ret tt) ;;;
    chan_set_ostate CHAN_OUTPUT_CLOSED
  else act StateError.

Definition CHANNEL_EFD_OUTPUT_ACTIVE (c : Channel) : bool :=
  compat20 && (c_extended_usage c =? CHAN_EXTENDED_WRITE) &&
  negb (c_efd c =? -1) &&
  (negb (has (Z.lor CHAN_EOF_RCVD CHAN_CLOSE_RCVD) c) || (0 <? zlen (c_extended c))).

Definition chan_rcvd_ieof : Chan unit :=
  (if compat20 then chan_rcvd_eof2 else chan_rcvd_ieof1) ;;;
  let! c := chan in
  if (c_ostate c =? CHAN_OUTPUT_WAIT_DRAIN) && (zlen (c_output c) =? 0) &&
     negb (CHANNEL_EFD_OUTPUT_ACTIVE c)
  then chan_obuf_empty else ret tt.

Definition chan_rcvd_oclose : Chan unit :=
  if compat20 then chan_rcvd_close2 else chan_rcvd_oclose1.

Definition chan_write_failed : Chan unit :=
  if compat20 then chan_write_failed2 else chan_write_failed1.

Definition chan_mark_dead : Chan unit :=
  let! c := chan in put (with_type SSH_CHANNEL_ZOMBIE c).

Definition chan_is_dead (do_send : bool) : Chan Z :=
  let! c := chan in
  if c_type c =? SSH_CHANNEL_ZOMBIE then ret 1
  else if negb (c_istate c =? CHAN_INPUT_CLOSED) || negb (c_ostate c =? CHAN_OUTPUT_CLOSED)
  then ret 0
  else if negb compat20 then ret 1
  else if SSH_BUG_EXTEOF && (c_extended_usage c =? CHAN_EXTENDED_WRITE) &&
          negb (c_efd c =? -1) && (0 <? zlen (c_extended c))
  then ret 0
  else if has CHAN_LOCAL c then ret 1
  else
    let almost_dead := negb (has CHAN_CLOSE_SENT c) && negb do_send && has CHAN_CLOSE_RCVD c in
    (if negb (has CHAN_CLOSE_SENT c) && do_send then chan_send_close2 else ret tt) ;;;
    if almost_dead then ret 1
    else
      let! c := chan in
      if has CHAN_CLOSE_SENT c && has CHAN_CLOSE_RCVD c then ret 1 else ret 0.
End nchan.

(** ** Runs of one endpoint *)

(** Everything that can happen to a channel: the calls the rest of the program
    makes, and a packet from the peer. *)
Inductive event : Type :=
| ReadFailed | IbufEmpty | ObufEmpty | WriteFailed | IsDead (do_send : bool)
| Receive (p : packet).

Definition is_receive (e : event) : bool := match e with Receive _ => true | _ => false end.

Section runs.
Context (compat20 NEW EXTEOF : bool).

(** How channels.c and the loops dispatch a packet. *)
Definition receive (p : packet) : Chan unit :=
  match p with
  | INPUT_EOF | CHANNEL_EOF => chan_rcvd_ieof compat20
  | OUTPUT_CLOSE | CHANNEL_CLOSE => chan_rcvd_oclose compat20
  | CHANNEL_EOW => chan_rcvd_eow compat20
  end.

Definition fire (e : event) : Chan unit :=
  match e with
  | ReadFailed => chan_read_failed compat20
  | IbufEmpty => chan_ibuf_empty compat20
  | ObufEmpty => chan_obuf_empty compat20
  | WriteFailed => chan_write_failed compat20 NEW
  | IsDead do_send => let! _ := chan_is_dead compat20 EXTEOF do_send in ret tt
  | Receive p => receive p
  end.
End runs.

(** The packets sent. *)
Fixpoint sent (l : list action) : list packet :=
  match l with
  | [] => []
  | Send p _ :: l => p :: sent l
  | _ :: l => sent l
  end.
(** The number of errors of the peer that were reported. *)
Fixpoint peer_errors (l : list action) : Z :=
  match l with
  | [] => 0
  | ProtocolError :: l => 1 + peer_errors l
  | _ :: l => peer_errors l
  end.
Fixpoint count (p : packet) (l : list packet) : Z :=
  match l with
  | [] => 0
  | q :: l => (if decide (q = p) then 1 else 0) + count p l
  end.

(** The packets of each version. *)
Definition valid_packet (compat20 : bool) (p : packet) : bool :=
  match p with
  | INPUT_EOF | OUTPUT_CLOSE => negb compat20
  | CHANNEL_EOF | CHANNEL_CLOSE | CHANNEL_EOW => compat20
  end.

(** The rest of the program reads, writes, opens and closes: it changes
    anything but the two states and the flags. *)
Definition same_control (c c' : Channel) : Prop :=
  c_istate c' = c_istate c /\ c_ostate c' = c_ostate c /\ c_flags c' = c_flags c.

(** ** Specification: the transition tables *)

(** Version 1: [tr1 e s pk n s'] when event [e] takes the pair of the input and
    the output state from [s] to [s'], sends [pk] and reports [n] errors of the
    peer.  An event of this side in any other state is ignored. *)
Inductive tr1 : event -> Z * Z -> list packet -> Z -> Z * Z -> Prop :=
| t1_skip e i o : is_receive e = false -> tr1 e (i, o) [] 0 (i, o)
| t1_read o : tr1 ReadFailed (0, o) [] 0 (1, o)
| t1_ibuf o : tr1 IbufEmpty (1, o) [INPUT_EOF] 0 (2, o)
| t1_obuf i : tr1 ObufEmpty (i, 1) [OUTPUT_CLOSE] 0 (i, 3)
| t1_write_open i : tr1 WriteFailed (i, 0) [OUTPUT_CLOSE] 0 (i, 2)
| t1_write_drain i : tr1 WriteFailed (i, 1) [OUTPUT_CLOSE] 0 (i, 3)
| t1_ieof_open i : tr1 (Receive INPUT_EOF) (i, 0) [] 0 (i, 1)
| t1_ieof_empty i : tr1 (Receive INPUT_EOF) (i, 0) [OUTPUT_CLOSE] 0 (i, 3)
| t1_ieof_wait i : tr1 (Receive INPUT_EOF) (i, 2) [] 0 (i, 3)
| t1_ieof_twice i o : o = 1 \/ o = 3 -> tr1 (Receive INPUT_EOF) (i, o) [] 1 (i, o)
| t1_ieof_twice_empty i : tr1 (Receive INPUT_EOF) (i, 1) [OUTPUT_CLOSE] 1 (i, 3)
| t1_oclose_wait o : tr1 (Receive OUTPUT_CLOSE) (2, o) [] 0 (3, o)
| t1_oclose_early i o : i = 0 \/ i = 1 -> tr1 (Receive OUTPUT_CLOSE) (i, o) [INPUT_EOF] 0 (3, o)
| t1_oclose_twice i o : i = 3 -> tr1 (Receive OUTPUT_CLOSE) (i, o) [] 1 (i, o).

(** A CHANNEL_CLOSE is noted unless the channel is local; a second one is an
    error of the peer. *)
Definition mark_rcvd (fl : Z) : Z :=
  if hasf CHAN_LOCAL fl then fl else Z.lor fl CHAN_CLOSE_RCVD.
Definition twice (fl : Z) : Z :=
  if hasf CHAN_LOCAL fl then 0 else b2z (hasf CHAN_CLOSE_RCVD fl).

(** Version 2, with the flags. *)
Inductive tr2 : event -> Z * Z * Z -> list packet -> Z -> Z * Z * Z -> Prop :=
| t2_skip e s : is_receive e = false -> tr2 e s [] 0 s
| t2_read o fl : tr2 ReadFailed (0, o, fl) [] 0 (1, o, fl)
| t2_ibuf o fl : hasf CHAN_CLOSE_SENT fl = false -> hasf CHAN_LOCAL fl = false ->
    tr2 IbufEmpty (1, o, fl) [CHANNEL_EOF] 0 (3, o, Z.lor fl CHAN_EOF_SENT)
| t2_ibuf_quiet o fl : hasf CHAN_CLOSE_SENT fl = true \/ hasf CHAN_LOCAL fl = true ->
    tr2 IbufEmpty (1, o, fl) [] 0 (3, o, fl)
| t2_obuf i fl : tr2 ObufEmpty (i, 1, fl) [] 0 (i, 3, fl)
| t2_write i o fl : o = 0 \/ o = 1 -> tr2 WriteFailed (i, o, fl) [] 0 (i, 3, fl)
| t2_write_eow i o fl : o = 0 \/ o = 1 -> tr2 WriteFailed (i, o, fl) [CHANNEL_EOW] 0 (i, 3, fl)
| t2_dead fl : hasf CHAN_CLOSE_SENT fl = false -> hasf CHAN_LOCAL fl = false ->
    tr2 (IsDead true) (3, 3, fl) [CHANNEL_CLOSE] 0 (3, 3, Z.lor fl CHAN_CLOSE_SENT)
| t2_eof i o o' fl : o' = o /\ o <> 0 \/ (o = 0 \/ o = 1) /\ (o' = 1 \/ o' = 3) ->
    tr2 (Receive CHANNEL_EOF) (i, o, fl) [] 0 (i, o', Z.lor fl CHAN_EOF_RCVD)
| t2_close_larval i o fl n fl' : n = twice fl -> fl' = mark_rcvd fl ->
    tr2 (Receive CHANNEL_CLOSE) (i, o, fl) [] n (3, 3, fl')
| t2_close_open i i' o fl n o' fl' : n = twice fl -> fl' = mark_rcvd fl -> o' = Z.max o 1 ->
    i = 0 /\ i' = 3 \/ 2 <= i /\ i' = i ->
    tr2 (Receive CHANNEL_CLOSE) (i, o, fl) [] n (i', o', fl')
| t2_close_local o fl o' : hasf CHAN_LOCAL fl = true -> o' = Z.max o 1 ->
    tr2 (Receive CHANNEL_CLOSE) (1, o, fl) [] 0 (3, o', fl)
| t2_close_eof o o' fl n :
    hasf CHAN_LOCAL fl = false -> n = twice fl -> o' = Z.max o 1 ->
    tr2 (Receive CHANNEL_CLOSE) (1, o, fl) [CHANNEL_EOF] n
      (3, o', Z.lor (Z.lor fl CHAN_CLOSE_RCVD) CHAN_EOF_SENT)
| t2_eow i i' o fl : i = 0 /\ i' = 3 \/ i <> 0 /\ i' = i ->
    tr2 (Receive CHANNEL_EOW) (i, o, fl) [] 0 (i', o, fl).

Definition states (c : Channel) : Z * Z := (c_istate c, c_ostate c).
Definition control (c : Channel) : Z * Z * Z := (c_istate c, c_ostate c, c_flags c).
Definition in_states (c : Channel) : Prop := 0 <= c_istate c <= 3 /\ 0 <= c_ostate c <= 3.

(** ** Lemmas *)

Lemma hasf_lor f a b : hasf f (Z.lor a b) = hasf f a || hasf f b.
Proof.
  unfold hasf. rewrite Z.land_lor_distr_l.
  destruct (Z.eqb_spec (Z.land a f) 0) as [->|], (Z.eqb_spec (Z.land b f) 0) as [->|];
    simpl; try done; apply negb_true_iff, Z.eqb_neq; rewrite Z.lor_eq_0_iff; tauto.
Qed.
Lemma hasf_union f g a : hasf (Z.lor f g) a = hasf f a || hasf g a.
Proof. unfold hasf. rewrite !(Z.land_comm a). apply hasf_lor. Qed.

Lemma sent_app l k : sent (l ++ k) = sent l ++ sent k.
Proof. induction l as [|[] l IH]; simpl; congruence. Qed.
Lemma peer_errors_app l k : peer_errors (l ++ k) = peer_errors l + peer_errors k.
Proof. induction l as [|[] l IH]; simpl; lia. Qed.
Lemma count_app p l k : count p (l ++ k) = count p l + count p k.
Proof. induction l; simpl; lia. Qed.
Lemma count_nonneg p l : 0 <= count p l.
Proof. induction l; simpl; [lia|]. case_decide; lia. Qed.

(** The functions of the file, unfolded. *)
Ltac unfold_nchan :=
  unfold fire, receive, chan_rcvd_ieof, chan_rcvd_oclose, chan_rcvd_eow, chan_write_failed,
    chan_is_dead, chan_rcvd_eof2, chan_rcvd_ieof1, chan_rcvd_close2, chan_rcvd_oclose1,
    chan_write_failed1, chan_write_failed2, chan_read_failed, chan_ibuf_empty, chan_obuf_empty,
    chan_send_eow2, chan_send_close2, chan_send_eof2, chan_send_oclose1, chan_send_ieof1,
    chan_shutdown_read, chan_shutdown_write, chan_set_istate, chan_set_ostate, set_flag,
    packet_send, act, put, chan, fatal, fail, ret, bind, has,
    CHAN_INPUT_OPEN, CHAN_INPUT_WAIT_DRAIN, CHAN_INPUT_WAIT_OCLOSE, CHAN_INPUT_CLOSED,
    CHAN_OUTPUT_OPEN, CHAN_OUTPUT_WAIT_DRAIN, CHAN_OUTPUT_WAIT_IEOF, CHAN_OUTPUT_CLOSED in *.

(** Splits on the tests of the code that evaluation does not decide. *)
Ltac eval_test t :=
  let v := eval vm_compute in t in
  lazymatch v with true => change t with true | false => change t with false end.
Ltac split_tests :=
  repeat (cbn -[hasf Z.eqb Z.ltb Z.leb]; rewrite ?hasf_union, ?hasf_lor;
    match goal with
    | |- context [?a =? ?b] => first [eval_test (a =? b) |
        destruct (Z.eqb_spec a b); [try (is_var a; subst a)|]]
    | |- context [?a <? ?b] => first [eval_test (a <? b) |
        destruct (Z.ltb_spec a b); try (exfalso; lia)]
    | |- context [hasf ?f ?g] => first [eval_test (hasf f g) | destruct (hasf f g) eqn:?]
    | |- context [CHANNEL_EFD_OUTPUT_ACTIVE ?b ?c] => destruct (CHANNEL_EFD_OUTPUT_ACTIVE b c)
    | |- context [bool_decide ?p] => destruct (bool_decide p)
    | |- context [if ?b then _ else _] => is_var b; destruct b
    | |- context [negb ?b] => is_var b; destruct b
    | |- context [?b && _] => is_var b; destruct b
    end);
  cbn -[hasf Z.eqb Z.ltb Z.leb].

(** Finds the line of the table. *)
Ltac use_flags :=
  unfold twice, mark_rcvd;
  repeat match goal with H : hasf _ _ = _ |- _ => rewrite H end.
Ltac finish_table :=
  try discriminate; do 4 eexists; (split; [reflexivity|]); cbn -[hasf Z.eqb Z.ltb Z.leb];
  rewrite <- ?(assoc_L (++)), ?sent_app, ?peer_errors_app; simpl sent; simpl peer_errors;
  solve [split; [constructor; solve [auto with lia | use_flags; done || lia]|];
         repeat split; rewrite ?app_nil_r; solve [done | lia | use_flags; simpl; lia]].

Lemma fire_table1 NEW EXT e c log :
  in_states c -> (forall p, e = Receive p -> valid_packet false p = true) ->
  exists c' log' pk n, fire false NEW EXT e (c, log) = (Ok tt, (c', log')) /\
    tr1 e (states c) pk n (states c') /\ c_flags c' = c_flags c /\
    sent log' = sent log ++ pk /\ peer_errors log' = peer_errors log + n.
Proof.
  intros [Hi Ho] Hp. unfold states.
  destruct c as [ty i o fl rfd wfd efd sock inp out ext exu ctype rid]. simpl in Hi, Ho.
  destruct e as [| | | |b|p]; [| | | | |specialize (Hp p eq_refl); destruct p; try done];
    unfold_nchan; split_tests; finish_table.
Qed.


Lemma fire_table2 NEW EXT e c log :
  in_states c -> (forall p, e = Receive p -> valid_packet true p = true) ->
  exists c' log' pk n, fire true NEW EXT e (c, log) = (Ok tt, (c', log')) /\
    tr2 e (control c) pk n (control c') /\
    sent log' = sent log ++ pk /\ peer_errors log' = peer_errors log + n.
Proof.
  intros [Hi Ho] Hp. unfold control.
  destruct c as [ty i o fl rfd wfd efd sock inp out ext exu ctype rid]. simpl in Hi, Ho.
  destruct e as [| | | |[]|p]; [| | | | | |specialize (Hp p eq_refl); destruct p; try done];
    unfold_nchan; split_tests; finish_table.
Qed.

(** ** The invariants *)

Definition rcvd_after (e : event) (rcvd : list packet) : list packet :=
  match e with Receive p => rcvd ++ [p] | _ => rcvd end.

(** Version 1: the states tell which messages have been sent and received. *)
Record inv1 (c : Channel) (log : list action) (rcvd : list packet) : Prop := {
  v1_istate : 0 <= c_istate c <= 3;
  v1_ostate : 0 <= c_ostate c <= 3;
  v1_ieof : count INPUT_EOF (sent log) = if c_istate c <? 2 then 0 else 1;
  v1_oclose : count OUTPUT_CLOSE (sent log) = if c_ostate c <? 2 then 0 else 1;
  v1_valid : Forall (fun p => valid_packet false p = true) (sent log);
  v1_rieof : (0 <? count INPUT_EOF rcvd) = ((c_ostate c =? 1) || (c_ostate c =? 3));
  v1_roclose : (0 <? count OUTPUT_CLOSE rcvd) = (c_istate c =? 3);
  v1_err : peer_errors log =
           Z.max 0 (count INPUT_EOF rcvd - 1) + Z.max 0 (count OUTPUT_CLOSE rcvd - 1)
}.

(** Version 2: the flags do, and CHANNEL_CLOSE is the last packet. *)
Record inv2 (c : Channel) (log : list action) (rcvd : list packet) : Prop := {
  v2_istate : c_istate c = 0 \/ c_istate c = 1 \/ c_istate c = 3;
  v2_ostate : c_ostate c = 0 \/ c_ostate c = 1 \/ c_ostate c = 3;
  v2_close : count CHANNEL_CLOSE (sent log) = if has CHAN_CLOSE_SENT c then 1 else 0;
  v2_closed : has CHAN_CLOSE_SENT c = true ->
              c_istate c = 3 /\ c_ostate c = 3 /\ last (sent log) = Some CHANNEL_CLOSE;
  v2_eof : count CHANNEL_EOF (sent log) = if has CHAN_EOF_SENT c then 1 else 0;
  v2_eof_closed : has CHAN_EOF_SENT c = true -> c_istate c = 3;
  v2_eow : 0 <= count CHANNEL_EOW (sent log) <= if c_ostate c =? 3 then 1 else 0;
  v2_valid : Forall (fun p => valid_packet true p = true) (sent log);
  v2_rclose : has CHAN_LOCAL c = false ->
              has CHAN_CLOSE_RCVD c = (0 <? count CHANNEL_CLOSE rcvd);
  v2_rcvd_closed : has CHAN_CLOSE_RCVD c = true -> c_istate c = 3 /\ 1 <= c_ostate c;
  v2_err : peer_errors log =
           if has CHAN_LOCAL c then 0 else Z.max 0 (count CHANNEL_CLOSE rcvd - 1)
}.

Definition inv (compat20 : bool) : Channel -> list action -> list packet -> Prop :=
  if compat20 then inv2 else inv1.

Lemma inv_in_states compat20 c log rcvd : inv compat20 c log rcvd -> in_states c.
Proof. destruct compat20; intros []; split; lia. Qed.

Lemma count_after p e rcvd :
  count p (rcvd_after e rcvd) =
  count p rcvd + match e with Receive q => if decide (q = p) then 1 else 0 | _ => 0 end.
Proof. destruct e; simpl; rewrite ?count_app; simpl; lia. Qed.

Lemma fire_inv1 NEW EXT e c log rcvd :
  inv1 c log rcvd -> (forall p, e = Receive p -> valid_packet false p = true) ->
  exists c' log', fire false NEW EXT e (c, log) = (Ok tt, (c', log')) /\
    inv1 c' log' (rcvd_after e rcvd) /\ c_istate c <= c_istate c' /\ c_ostate c <= c_ostate c' /\
    c_flags c' = c_flags c.
Proof.
  intros I Hp. pose proof (inv_in_states false c log rcvd I) as Hst.
  destruct (fire_table1 NEW EXT e c log Hst Hp) as (c' & log' & pk & n & F & T & Hf & S & P).
  exists c', log'. split; [done|]. destruct I as [I1 I2 I3 I4 I5 I6 I7 I8].
  pose proof (count_nonneg INPUT_EOF rcvd). pose proof (count_nonneg OUTPUT_CLOSE rcvd).
  unfold states in T. destruct c as [? i o], c' as [? i' o']. simpl in *. clear F.
  split; [|split; [|split; [|done]]]; [|by inversion T; lia..].
  constructor; simpl; rewrite ?S, ?P, ?count_after, ?count_app, ?I3, ?I4, ?I8; clear S P I8;
    inversion T; subst; simpl in *; rewrite ?Forall_app; repeat case_match;
    try done; try lia; auto.
Qed.

Definition is_close (e : event) : bool :=
  match e with Receive CHANNEL_CLOSE => true | _ => false end.

(** What a step does to the flags. *)
Lemma tr2_flags e i o fl pk n i' o' fl' :
  tr2 e (i, o, fl) pk n (i', o', fl') ->
  hasf CHAN_LOCAL fl' = hasf CHAN_LOCAL fl /\
  hasf CHAN_CLOSE_SENT fl' = hasf CHAN_CLOSE_SENT fl || (0 <? count CHANNEL_CLOSE pk) /\
  hasf CHAN_EOF_SENT fl' = hasf CHAN_EOF_SENT fl || (0 <? count CHANNEL_EOF pk) /\
  hasf CHAN_CLOSE_RCVD fl' = hasf CHAN_CLOSE_RCVD fl ||
    (negb (hasf CHAN_LOCAL fl) && is_close e).
Proof.
  intros T. destruct (hasf CHAN_LOCAL fl) eqn:HL; inversion T; subst; unfold mark_rcvd;
    try congruence; rewrite ?HL, ?hasf_lor, ?HL;
    repeat match goal with e : event |- _ => destruct e | p : packet |- _ => destruct p end;
    simpl in *;
    try discriminate;
    repeat match goal with |- context [hasf ?f ?g] => eval_test (hasf f g) end;
    rewrite ?orb_false_r, ?orb_true_r, ?andb_false_r; auto.
Qed.

Lemma tr2_errors e i o fl pk n s' :
  tr2 e (i, o, fl) pk n s' ->
  n = if negb (hasf CHAN_LOCAL fl) && is_close e then b2z (hasf CHAN_CLOSE_RCVD fl) else 0.
Proof.
  intros T. destruct (hasf CHAN_LOCAL fl) eqn:HL; inversion T; subst; unfold twice;
    rewrite ?HL; try congruence; try done.
  by match goal with e : event |- _ => destruct e end.
Qed.

Lemma fire_inv2 NEW EXT e c log rcvd :
  inv2 c log rcvd -> (forall p, e = Receive p -> valid_packet true p = true) ->
  exists c' log', fire true NEW EXT e (c, log) = (Ok tt, (c', log')) /\
    inv2 c' log' (rcvd_after e rcvd) /\ c_istate c <= c_istate c' /\ c_ostate c <= c_ostate c' /\
    has CHAN_LOCAL c' = has CHAN_LOCAL c.
Proof.
  intros I Hp. pose proof (inv_in_states true c log rcvd I) as Hst.
  destruct (fire_table2 NEW EXT e c log Hst Hp) as (c' & log' & pk & n & F & T & S & P).
  exists c', log'. split; [done|]. destruct I as [I1 I2 I3 I4 I5 I6 I7 I8 I9 I11 I10].
  pose proof (count_nonneg CHANNEL_CLOSE rcvd) as Hc.
  unfold control in T. destruct (tr2_flags _ _ _ _ _ _ _ _ _ T) as (FL & FS & FE & FR).
  pose proof (tr2_errors _ _ _ _ _ _ _ T) as Hn.
  unfold has in *. destruct c as [? i o fl], c' as [? i' o' fl']. simpl in *. clear F.
  assert (Hcl : (match e with Receive q => if decide (q = CHANNEL_CLOSE) then 1 else 0 | _ => 0 end)
                = b2z (is_close e)) by (by destruct e as [| | | | |[]]).
  split; [|split; [|split; [|done]]]; [|inversion T; lia..].
  constructor; unfold has in *; simpl;
    rewrite ?FL, ?FS, ?FE, ?FR, ?S, ?P, ?count_after, ?count_app, ?Hcl.
  9: { intros HL. rewrite I9, HL by done. destruct (is_close e); simpl; lia. }
  9: { rewrite orb_true_iff, andb_true_iff. intros [HR%I11|[_ HR]]; [|destruct e as [| | | | |[]]; try done];
       inversion T; subst; done || lia. }
  9: { rewrite Hn, I10. destruct (hasf CHAN_LOCAL fl); simpl; [lia|]. rewrite I9 by done.
       destruct (is_close e), (Z.ltb_spec 0 (count CHANNEL_CLOSE rcvd)); simpl; lia. }
  all: clear S P FL FS FE FR Hn Hcl I9 I10; inversion T; subst; simpl in *;
    rewrite ?Forall_app, ?last_snoc, ?app_nil_r, ?orb_false_r, ?orb_true_r;
    repeat case_match; simpl in *;
    try discriminate; try done; try lia; intuition (try congruence; try lia; auto).
Qed.

(** ** Runs and networks *)

(** A channel as [channel_new] makes it; [CHAN_LOCAL] marks a channel whose two
    ends are in this process. *)
Definition fresh_channel (c : Channel) : Prop :=
  c_istate c = CHAN_INPUT_OPEN /\ c_ostate c = CHAN_OUTPUT_OPEN /\
  (c_flags c = 0 \/ c_flags c = CHAN_LOCAL).

Lemma fresh_inv compat20 c : fresh_channel c -> inv compat20 c [] [].
Proof.
  intros (Hi & Ho & Hf). unfold inv, CHAN_INPUT_OPEN, CHAN_OUTPUT_OPEN in *.
  destruct compat20; constructor; unfold has; rewrite ?Hi, ?Ho; simpl; auto; try lia;
    destruct Hf as [-> | ->]; simpl; try done; lia.
Qed.

Lemma same_control_inv compat20 c c' log rcvd :
  same_control c c' -> inv compat20 c log rcvd -> inv compat20 c' log rcvd.
Proof.
  intros (Ei & Eo & Ef). unfold inv. destruct compat20; intros []; constructor; unfold has in *;
    rewrite ?Ei, ?Eo, ?Ef; auto.
Qed.

Lemma fire_inv compat20 NEW EXT e c log rcvd :
  inv compat20 c log rcvd -> (forall p, e = Receive p -> valid_packet compat20 p = true) ->
  exists c' log', fire compat20 NEW EXT e (c, log) = (Ok tt, (c', log')) /\
    inv compat20 c' log' (rcvd_after e rcvd) /\
    c_istate c <= c_istate c' /\ c_ostate c <= c_ostate c' /\
    has CHAN_LOCAL c' = has CHAN_LOCAL c.
Proof.
  destruct compat20; simpl; [apply fire_inv2|]. intros I Hp.
  destruct (fire_inv1 NEW EXT e c log rcvd I Hp) as (c' & log' & ? & ? & ? & ? & Hf).
  exists c', log'. unfold has. rewrite Hf. auto.
Qed.

(** A channel, what it has done and what it has received.  The peer of a
    well-behaved end sends the packets of the common version. *)
Record endpoint : Type := mk_end { e_chan : Channel; e_log : list action; e_rcvd : list packet }.

Inductive end_step (compat20 NEW EXT : bool) : event -> endpoint -> endpoint -> Prop :=
| end_step_fire e c log rcvd r c' log' :
    (forall p, e = Receive p -> valid_packet compat20 p = true) ->
    fire compat20 NEW EXT e (c, log) = (r, (c', log')) ->
    end_step compat20 NEW EXT e (mk_end c log rcvd) (mk_end c' log' (rcvd_after e rcvd)).

Inductive end_run (compat20 NEW EXT : bool) : endpoint -> Prop :=
| run_fresh c : fresh_channel c -> end_run compat20 NEW EXT (mk_end c [] [])
| run_event e x y :
    end_run compat20 NEW EXT x -> end_step compat20 NEW EXT e x y -> end_run compat20 NEW EXT y
| run_env c c' log rcvd :
    end_run compat20 NEW EXT (mk_end c log rcvd) -> same_control c c' ->
    end_run compat20 NEW EXT (mk_end c' log rcvd).

Definition end_inv (compat20 : bool) (x : endpoint) : Prop :=
  inv compat20 (e_chan x) (e_log x) (e_rcvd x).

Lemma end_step_inv compat20 NEW EXT e x y :
  end_step compat20 NEW EXT e x y -> end_inv compat20 x ->
  end_inv compat20 y /\ e_rcvd y = rcvd_after e (e_rcvd x) /\
  has CHAN_LOCAL (e_chan y) = has CHAN_LOCAL (e_chan x).
Proof.
  intros [e0 c log rcvd r c' log' Hp F] I.
  destruct (fire_inv compat20 NEW EXT e0 c log rcvd I Hp) as (? & ? & F' & I' & _ & _ & L).
  rewrite F in F'. by simplify_eq.
Qed.

Lemma end_run_inv compat20 NEW EXT x : end_run compat20 NEW EXT x -> end_inv compat20 x.
Proof.
  induction 1 as [c H|e x y _ IH H|c c' log rcvd _ IH H].
  - by apply fresh_inv.
  - by eapply end_step_inv.
  - by eapply same_control_inv.
Qed.

(** Two ends and the packets in flight in each direction. *)
Record net : Type := mk_net {
  n_a : endpoint; n_b : endpoint; n_ab : list packet; n_ba : list packet
}.

Definition swap (n : net) : net := mk_net (n_b n) (n_a n) (n_ba n) (n_ab n).

(** A step of one end: an event of its own, the delivery of the oldest packet
    in flight to it, or a change made by the rest of its program. *)
Inductive net_step_a (compat20 NEW EXT : bool) : net -> net -> Prop :=
| net_event e x x' y ab ba pk :
    is_receive e = false -> end_step compat20 NEW EXT e x x' ->
    sent (e_log x') = sent (e_log x) ++ pk ->
    net_step_a compat20 NEW EXT (mk_net x y ab ba) (mk_net x' y (ab ++ pk) ba)
| net_receive p x x' y ab ba pk :
    end_step compat20 NEW EXT (Receive p) x x' ->
    sent (e_log x') = sent (e_log x) ++ pk ->
    net_step_a compat20 NEW EXT (mk_net x y ab (p :: ba)) (mk_net x' y (ab ++ pk) ba)
| net_env c c' log rcvd y ab ba :
    same_control c c' ->
    net_step_a compat20 NEW EXT (mk_net (mk_end c log rcvd) y ab ba)
                                (mk_net (mk_end c' log rcvd) y ab ba).

Inductive net_run (compat20 NEW EXT : bool) : net -> Prop :=
| net_fresh c d : fresh_channel c -> fresh_channel d ->
    net_run compat20 NEW EXT (mk_net (mk_end c [] []) (mk_end d [] []) [] [])
| net_step n m : net_run compat20 NEW EXT n -> net_step_a compat20 NEW EXT n m ->
    net_run compat20 NEW EXT m
| net_swap n : net_run compat20 NEW EXT n -> net_run compat20 NEW EXT (swap n).

(** Nothing is lost, reordered or invented. *)
Definition net_inv (compat20 : bool) (n : net) : Prop :=
  end_inv compat20 (n_a n) /\ end_inv compat20 (n_b n) /\
  sent (e_log (n_a n)) = e_rcvd (n_b n) ++ n_ab n /\
  sent (e_log (n_b n)) = e_rcvd (n_a n) ++ n_ba n.

Lemma net_run_inv compat20 NEW EXT n : net_run compat20 NEW EXT n -> net_inv compat20 n.
Proof.
  induction 1 as [c d Hc Hd|n m _ IH S|n _ (I1 & I2 & I3 & I4)].
  - split_and!; simpl; try done; by apply fresh_inv.
  - destruct S as [e x x' y ab ba pk He S Hs|p x x' y ab ba pk S Hs|c c' log rcvd y ab ba S];
      destruct IH as (I1 & I2 & I3 & I4); simpl in *.
    + destruct (end_step_inv _ _ _ _ _ _ S I1) as (I1' & R & _).
      split_and!; simpl; auto.
      * by rewrite Hs, I3, (assoc_L (++)).
      * rewrite R, I4. by destruct e.
    + destruct (end_step_inv _ _ _ _ _ _ S I1) as (I1' & R & _).
      split_and!; simpl; auto.
      * by rewrite Hs, I3, (assoc_L (++)).
      * rewrite R, I4. simpl. by rewrite <- (assoc_L (++)).
    + split_and!; simpl; auto. by eapply same_control_inv.
  - by split_and!.
Qed.

(** ** Lemmas for the properties *)

Lemma count_le_app p l k : count p l <= count p (l ++ k).
Proof. rewrite count_app. pose proof (count_nonneg p k). lia. Qed.

Lemma inv_count_le compat20 c log rcvd p :
  inv compat20 c log rcvd -> count p (sent log) <= 1.
Proof.
  intros I. assert (V : forall q, valid_packet compat20 q = false -> count q (sent log) = 0).
  { intros q Hq. assert (F : Forall (fun p => valid_packet compat20 p = true) (sent log))
      by (destruct compat20; apply I).
    induction F as [|r l Hr _ IH]; [done|]. simpl. rewrite IH.
    rewrite decide_False; [done|]. congruence. }
  destruct compat20; destruct I; destruct p; try (rewrite V by done; lia); repeat case_match; lia.
Qed.

(** [chan_is_dead] of a closed channel. *)
Lemma chan_is_dead_closed compat20 EXT c log :
  c_istate c = 3 -> c_ostate c = 3 -> c_extended c = [] ->
  (compat20 = true -> has CHAN_CLOSE_RCVD c = true) ->
  exists c' log', chan_is_dead compat20 EXT true (c, log) = (Ok 1, (c', log')).
Proof.
  intros Hi Ho Hx Hr. unfold has in *.
  destruct c as [ty i o fl rfd wfd efd sock inp out ext exu ctype rid]. simpl in *. subst.
  destruct compat20; [specialize (Hr eq_refl)|clear Hr].
  - unfold_nchan. unfold has in *. simpl.
    destruct (ty =? SSH_CHANNEL_ZOMBIE); [by eauto|]. rewrite andb_false_r. simpl.
    destruct (hasf CHAN_LOCAL fl); [by eauto|]. rewrite Hr.
    destruct (hasf CHAN_CLOSE_SENT fl) eqn:HS; simpl; rewrite ?HS, ?Hr; simpl; [by eauto|].
    rewrite !hasf_lor, Hr, orb_true_r. simpl. by eauto.
  - unfold_nchan. simpl. destruct (ty =? SSH_CHANNEL_ZOMBIE); by eauto.
Qed.

(** ** Properties *)

(** C24. From a fresh channel, whatever happens and in whatever order, no step
    reaches a state that [chan_set_istate] or [chan_set_ostate] refuse, the two
    states only move forward, each packet is sent at most once, and once
    CHANNEL_CLOSE is sent it stays the last packet. *)
Theorem nchan_run_safe compat20 NEW EXT x e :
  end_run compat20 NEW EXT x ->
  (forall p, e = Receive p -> valid_packet compat20 p = true) ->
  exists c' log', fire compat20 NEW EXT e (e_chan x, e_log x) = (Ok tt, (c', log')) /\
    c_istate (e_chan x) <= c_istate c' <= 3 /\ c_ostate (e_chan x) <= c_ostate c' <= 3 /\
    (forall p, count p (sent log') <= 1) /\
    (In CHANNEL_CLOSE (sent log') -> last (sent log') = Some CHANNEL_CLOSE).
Proof.
  intros Hrun Hp. pose proof (end_run_inv _ _ _ _ Hrun) as I.
  destruct (fire_inv compat20 NEW EXT e _ _ _ I Hp) as (c' & log' & F & I' & Hi & Ho & _).
  exists c', log'. destruct (inv_in_states _ _ _ _ I') as [? ?].
  split_and!; try done; try lia; [by intros; eapply inv_count_le|].
  intros Hin. destruct compat20; destruct I' as [].
  - apply v2_closed0. destruct (has CHAN_CLOSE_SENT c'); [done|].
    clear -Hin v2_close0. induction (sent log') as [|q l IH]; [done|]. simpl in *.
    pose proof (count_nonneg CHANNEL_CLOSE l).
    destruct Hin as [->|?]; [rewrite decide_True in v2_close0 by done; lia|].
    apply IH in H0 as E; [|case_decide; lia]. destruct l; [done|]. exact E.
  - rewrite Forall_forall in v1_valid0. by apply list_elem_of_In, v1_valid0 in Hin.
Qed.

Definition demo_channel (flags : Z) : Channel :=
  mk_channel 4 CHAN_INPUT_OPEN CHAN_OUTPUT_OPEN flags 5 6 (-1) (-1) [] [1; 2] [] 0
    (cstr "session") 7.

Lemma nchan_run_safe_witness :
  exists c' log', fire true true false (Receive CHANNEL_CLOSE) (demo_channel 0, []) =
                  (Ok tt, (c', log')) /\ c_istate c' <= 3 /\
                  (forall p, count p (sent log') <= 1).
Proof.
  destruct (nchan_run_safe true true false (mk_end (demo_channel 0) [] [])
    (Receive CHANNEL_CLOSE)) as (c' & log' & F & Hi & _ & Hc & _).
  - apply run_fresh. repeat split. by left.
  - by intros p [= <-].
  - exists c', log'. split; [exact F|]. split; [lia|exact Hc].
Defined.

(** C12. When two ends of a channel run the code against each other, over channels
    that deliver every packet in order, neither ever reports a protocol error of
    the other, in either version of the protocol. *)
Theorem nchan_no_protocol_error compat20 NEW EXT n :
  net_run compat20 NEW EXT n ->
  peer_errors (e_log (n_a n)) = 0 /\ peer_errors (e_log (n_b n)) = 0.
Proof.
  intros Hrun. apply net_run_inv in Hrun as (I1 & I2 & Q1 & Q2).
  assert (G : forall x y q, end_inv compat20 x -> end_inv compat20 y ->
                sent (e_log x) = e_rcvd y ++ q -> peer_errors (e_log y) = 0).
  { intros x y q Ix Iy Q.
    assert (C : forall p, count p (e_rcvd y) <= 1).
    { intros p. pose proof (inv_count_le _ _ _ _ p Ix) as L. rewrite Q in L.
      pose proof (count_le_app p (e_rcvd y) q). lia. }
    unfold end_inv, inv in Iy. destruct compat20.
    - rewrite (v2_err _ _ _ Iy). pose proof (C CHANNEL_CLOSE). case_match; lia.
    - rewrite (v1_err _ _ _ Iy). pose proof (C INPUT_EOF). pose proof (C OUTPUT_CLOSE). lia. }
  split; eauto.
Qed.

Lemma nchan_no_protocol_error_witness :
  let x := mk_end (demo_channel 0) [] [] in
  peer_errors (e_log (n_a (mk_net x x [] []))) = 0 /\
  peer_errors (e_log (n_b (mk_net x x [] []))) = 0.
Proof.
  apply (nchan_no_protocol_error true true false).
  apply net_fresh; repeat split; by left.
Defined.

(** A channel that is not a zombie is declared dead only when both of its
    directions are closed: in version 1 after both messages were sent and both
    received; in version 2, unless it is local, after the CHANNEL_CLOSE of the
    peer was received, and with [do_send] the own one sent. *)
Theorem chan_is_dead_sound compat20 NEW EXT x do_send c' log' :
  end_run compat20 NEW EXT x -> c_type (e_chan x) <> SSH_CHANNEL_ZOMBIE ->
  chan_is_dead compat20 EXT do_send (e_chan x, e_log x) = (Ok 1, (c', log')) ->
  c_istate (e_chan x) = CHAN_INPUT_CLOSED /\ c_ostate (e_chan x) = CHAN_OUTPUT_CLOSED /\
  if compat20 then
    has CHAN_LOCAL (e_chan x) = false ->
    0 < count CHANNEL_CLOSE (e_rcvd x) /\
    (do_send = true -> count CHANNEL_CLOSE (sent log') = 1)
  else
    count INPUT_EOF (sent log') = 1 /\ count OUTPUT_CLOSE (sent log') = 1 /\
    0 < count INPUT_EOF (e_rcvd x) /\ 0 < count OUTPUT_CLOSE (e_rcvd x).
Proof.
  intros Hrun Hz. pose proof (end_run_inv _ _ _ _ Hrun) as I. unfold end_inv in I.
  destruct x as [c log rcvd]. simpl in *. destruct compat20.
  - destruct I as [I1 I2 I3 I4 I5 I6 I7 I8 I9 I10 I11]. unfold has in *.
    destruct c as [ty i o fl rfd wfd efd sock inp out ext exu ctype rid]. simpl in *.
    unfold_nchan. unfold has in *. simpl. rewrite (proj2 (Z.eqb_neq _ _) Hz).
    destruct (Z.eqb_spec i 3) as [->|]; simpl; [|done].
    destruct (Z.eqb_spec o 3) as [->|]; simpl; [|done].
    destruct (_ && _ && _ && _); simpl; [done|].
    destruct (hasf CHAN_LOCAL fl) eqn:HL; simpl; [done|]. rewrite I9 in * by done.
    destruct (hasf CHAN_CLOSE_SENT fl) eqn:HS, do_send,
      (Z.ltb_spec 0 (count CHANNEL_CLOSE rcvd)) as [HR|HR]; simpl; rewrite ?HS, ?I9 by done;
      simpl; rewrite ?hasf_lor, ?I9, ?HS by done; simpl;
      try (rewrite (proj2 (Z.ltb_ge _ _)) by lia); try (rewrite (proj2 (Z.ltb_lt _ _)) by lia);
      simpl; try done; intros [= <- <-]; split_and!; try done; intros _; (split; [lia|]);
      intros; rewrite ?sent_app, ?count_app; simpl; done || lia.
  - destruct I as [I1 I2 I3 I4 I5 I6 I7 I8]. destruct c as [ty i o]. simpl in *.
    unfold_nchan. simpl. rewrite (proj2 (Z.eqb_neq _ _) Hz).
    destruct (Z.eqb_spec i 3) as [->|]; simpl; [|done].
    destruct (Z.eqb_spec o 3) as [->|]; simpl; [|done].
    intros [= <- <-]. simpl in *. split_and!; try done; lia.
Qed.

Lemma chan_is_dead_sound_witness :
  exists x, chan_is_dead false false true (e_chan x, e_log x) = (Ok 1, (e_chan x, e_log x)) /\
    count INPUT_EOF (sent (e_log x)) = 1 /\ 0 < count OUTPUT_CLOSE (e_rcvd x).
Proof.
  set (c := demo_channel 0).
  destruct (fire false false false (Receive OUTPUT_CLOSE) (c, [])) as [r [c1 l1]] eqn:E1.
  destruct (fire false false false WriteFailed (c1, l1)) as [r2 [c2 l2]] eqn:E2.
  destruct (fire false false false (Receive INPUT_EOF) (c2, l2)) as [r3 [c3 l3]] eqn:E3.
  assert (R : end_run false false false (mk_end c3 l3 [OUTPUT_CLOSE; INPUT_EOF])).
  { eapply (run_event _ _ _ (Receive INPUT_EOF) (mk_end c2 l2 [OUTPUT_CLOSE])).
    2: { apply (end_step_fire _ _ _ (Receive INPUT_EOF) c2 l2 [OUTPUT_CLOSE] r3); [|exact E3].
         by intros p [= <-]. }
    eapply (run_event _ _ _ WriteFailed (mk_end c1 l1 [OUTPUT_CLOSE])).
    2: { by apply (end_step_fire _ _ _ WriteFailed c1 l1 [OUTPUT_CLOSE] r2). }
    eapply (run_event _ _ _ (Receive OUTPUT_CLOSE) (mk_end c [] [])).
    2: { apply (end_step_fire _ _ _ (Receive OUTPUT_CLOSE) c [] [] r); [|exact E1].
         by intros p [= <-]. }
    apply run_fresh. repeat split. by left. }
  vm_compute in E1. injection E1 as <- <- <-. vm_compute in E2. injection E2 as <- <- <-.
  vm_compute in E3. injection E3 as <- <- <-.
  eexists. split; [|split].
  3: eapply (chan_is_dead_sound false false false _ true _ _ R); [done|vm_compute; reflexivity].
  - vm_compute; reflexivity.
  - reflexivity.
Defined.

(** C25. The tear-down completes: once an end has received what closes the channel
    (CHANNEL_CLOSE, or both messages of version 1) and its pending output and
    extended data have been written, [chan_obuf_empty] and [chan_is_dead] declare
    the channel dead, whatever happened before. *)
Theorem chan_teardown_completes compat20 NEW EXT x :
  end_run compat20 NEW EXT x ->
  (if compat20 then has CHAN_LOCAL (e_chan x) = false /\ 0 < count CHANNEL_CLOSE (e_rcvd x)
   else 0 < count INPUT_EOF (e_rcvd x) /\ 0 < count OUTPUT_CLOSE (e_rcvd x)) ->
  c_output (e_chan x) = [] -> c_extended (e_chan x) = [] ->
  exists s c' log',
    fire compat20 NEW EXT ObufEmpty (e_chan x, e_log x) = (Ok tt, s) /\
    chan_is_dead compat20 EXT true s = (Ok 1, (c', log')).
Proof.
  intros Hrun Hr Hout Hext. pose proof (end_run_inv _ _ _ _ Hrun) as I.
  destruct x as [c log rcvd]. unfold end_inv in I. simpl in *.
  assert (Hst : c_istate c = 3 /\ (c_ostate c = 1 \/ c_ostate c = 3) /\
                (compat20 = true -> has CHAN_CLOSE_RCVD c = true)).
  { destruct compat20; destruct I.
    - destruct Hr as [HL Hc]. rewrite v2_rclose0 in * by done.
      destruct v2_rcvd_closed0; [lia|]. split_and!; [done|lia|]. intros. lia.
    - destruct Hr as [Hc1 Hc2]. split_and!; [lia|lia|done]. }
  destruct Hst as (Hi & Ho & Hrc). clear Hr I Hrun.
  assert (F : exists c' log', fire compat20 NEW EXT ObufEmpty (c, log) = (Ok tt, (c', log')) /\
    c_istate c' = 3 /\ c_ostate c' = 3 /\ c_extended c' = [] /\ c_flags c' = c_flags c).
  { destruct c as [ty i o fl rfd wfd efd sock inp out ext exu ctype rid]. simpl in *. subst.
    unfold_nchan. destruct Ho as [-> | ->], compat20; simpl; eauto 10;
      destruct (ty =? SSH_CHANNEL_LARVAL), (sock =? -1); simpl; eauto 10. }
  destruct F as (c' & log' & F & Hi' & Ho' & He' & Hf').
  destruct (chan_is_dead_closed compat20 EXT c' log') as (c'' & log'' & D); try done.
  { intros E. unfold has. rewrite Hf'. by apply Hrc. }
  eauto.
Qed.

Lemma chan_teardown_completes_witness :
  exists s c' log',
    fire true true false ObufEmpty (with_output [] (with_ostate 1 (with_istate 3
      (with_flags 2 (demo_channel 0)))), []) = (Ok tt, s) /\
    chan_is_dead true false true s = (Ok 1, (c', log')).
Proof.
  set (c := with_output _ _).
  assert (R : end_run true true false (mk_end c [] [CHANNEL_CLOSE])).
  { apply (run_env _ _ _ (with_rfd (-1) (with_output [1; 2] c))); [|done].
    eapply (run_event _ _ _ (Receive CHANNEL_CLOSE) (mk_end (demo_channel 0) [] [])).
    { apply run_fresh. repeat split. by left. }
    apply (end_step_fire _ _ _ (Receive CHANNEL_CLOSE) (demo_channel 0) [] [] (Ok tt));
      [by intros p [= <-]|vm_compute; reflexivity]. }
  apply (chan_teardown_completes true true false _ R);
    [vm_compute; split; reflexivity|reflexivity|reflexivity].
Defined.
