(* ===== verification/Bitmap.v ===== *)
(** bitmap.c: a growing vector of bits, as used for the serial numbers of a key
    revocation list.  The abstract value of a bitmap is the non-negative number
    with the same bits. *)

From S2P Require Import Prelude Wire Sshbuf.

(** ** Data *)

Definition BITMAP_MAX : Z := Z.shiftl 1 24.
Definition BITMAP_BYTES : Z := 4.
Definition BITMAP_BITS : Z := BITMAP_BYTES * 8.
Definition BITMAP_WMASK : Z := BITMAP_BITS - 1.
(** [sizeof(struct bitmap)] on a 64-bit machine. *)
Definition SIZEOF_BITMAP : Z := 24.

Record bitmap : Type := mk_bitmap {
  bm_d : list Z;    (* words *)
  bm_len : Z;       (* number of words allocated *)
  bm_top : Z        (* index of top word allocated *)
}.

Definition word (b : bitmap) (i : Z) : Z := nth (Z.to_nat i) (bm_d b) 0.
Definition set_word (i v : Z) (d : list Z) : list Z := <[Z.to_nat i := v]> d.

(** ** Operations *)

Definition bitmap_new (A : allocator) : option bitmap :=
  match A SIZEOF_BITMAP with
  | None => None
  | Some _ =>
      match A BITMAP_BYTES with
      | None => None
      | Some _ => Some (mk_bitmap [0] 1 0)
      end
  end.

Definition bitmap_zero (b : bitmap) : bitmap := mk_bitmap (zrep (bm_len b) 0) (bm_len b) 0.

Definition bitmap_test_bit (b : bitmap) (n : Z) : Z :=
  if bm_len b <=? bm_top b then 0
  else if (bm_len b =? 0) || (bm_top b <? n / BITMAP_BITS) then 0
  else Z.land (Z.shiftr (word b (n / BITMAP_BITS)) (Z.land n BITMAP_WMASK)) 1.

Definition reserve (A : allocator) (n : Z) : M bitmap unit := fun b =>
  if (bm_len b <=? bm_top b) || (BITMAP_MAX <? n) then (Err (-1), b)
  else
    let nlen := n / BITMAP_BITS + 1 in
    if bm_len b <? nlen then
      match A (nlen * BITMAP_BYTES) with
      | None => (Err (-1), b)
      | Some _ => (Ok tt, mk_bitmap (bm_d b ++ zrep (nlen - bm_len b) 0) nlen (bm_top b))
      end
    else (Ok tt, b).

Definition bitmap_set_bit (A : allocator) (n : Z) : M bitmap unit :=
  reserve A n ;;;
  let! b := get_state in
  let offset := n / BITMAP_BITS in
  let top := if bm_top b <? offset then offset else bm_top b in
  put_state (mk_bitmap
    (set_word offset (Z.lor (word b offset) (u32 (Z.shiftl 1 (Z.land n BITMAP_WMASK)))) (bm_d b))
    (bm_len b) top).

(** The loop that lowers [top], from [t]. *)
Fixpoint retop_loop (d : list Z) (t : nat) : nat :=
  match t with
  | O => O
  | S t' => if nth t d 0 =? 0 then retop_loop d t' else t
  end.

Definition retop (b : bitmap) : bitmap :=
  if bm_len b <=? bm_top b then b
  else mk_bitmap (bm_d b) (bm_len b) (Z.of_nat (retop_loop (bm_d b) (Z.to_nat (bm_top b)))).

Definition lnot32 (x : Z) : Z := Z.lxor x 0xffffffff.

Definition bitmap_clear_bit (n : Z) (b : bitmap) : bitmap :=
  if (bm_len b <=? bm_top b) || (BITMAP_MAX <? n) then b
  else
    let offset := n / BITMAP_BITS in
    if bm_top b <? offset then b
    else
      retop (mk_bitmap
        (set_word offset
           (Z.land (word b offset) (lnot32 (u32 (Z.shiftl 1 (Z.land n BITMAP_WMASK))))) (bm_d b))
        (bm_len b) (bm_top b)).

(** The loop that looks for the most significant bit; a word that is not zero
    has one among its 32 bits. *)
Fixpoint msb_loop (fuel : nat) (w bits : Z) : Z :=
  match fuel with
  | O => bits
  | S fuel =>
      if Z.land w (u32 (Z.shiftl 1 (BITMAP_BITS - 1))) =? 0
      then msb_loop fuel (u32 (Z.shiftl w 1)) (bits - 1)
      else bits
  end.

Definition bitmap_nbits (b : bitmap) : Z * bitmap :=
  let b := retop b in
  if bm_len b <=? bm_top b then (0, b)
  else if (bm_len b =? 0) || ((bm_top b =? 0) && (word b 0 =? 0)) then (0, b)
  else (msb_loop 32 (word b (bm_top b)) ((bm_top b + 1) * BITMAP_BITS), b).

Definition bitmap_nbytes (b : bitmap) : Z * bitmap :=
  let '(n, b) := bitmap_nbits b in ((n + 7) / 8, b).

(** [(w >> (j * 8)) & 0xff] for each [j]. *)
Definition word_bytes (w : Z) : bytes :=
  (fun j => Z.land (Z.shiftr w (j * 8)) 0xff) <$> [0; 1; 2; 3].

(** Stores the bytes [ws] from index [need - 1] downwards; [k] are stored
    already and no more than [l] are. *)
Fixpoint put_backwards (need l k : Z) (ws : bytes) (s : bytes) : bytes :=
  match ws with
  | [] => s
  | w :: ws =>
      if l <=? k then put_backwards need l k ws s
      else put_backwards need l (k + 1) ws (<[Z.to_nat (need - 1 - k) := w]> s)
  end.

(** [p] is the object of [l] bytes that the string is written to. *)
Definition bitmap_to_string (p : bytes) (l : Z) : M bitmap bytes := fun b =>
  let '(need, b) := bitmap_nbytes b in
  if (l <? need) || (bm_len b <=? bm_top b) then (Err (-1), b)
  else
    let l := if need <? l then need else l in
    (Ok (put_backwards need l 0 (flat_map word_bytes (ztake (bm_top b + 1) (bm_d b))) p), b).

(** The loop over the bytes of the string. *)
Fixpoint from_string_loop (s : bytes) (offset shift : Z) (d : list Z) : list Z :=
  match s with
  | [] => d
  | c :: s =>
      let d := set_word offset
                 (Z.lor (nth (Z.to_nat offset) d 0) (u32 (Z.shiftl c shift))) d in
      if shift =? 0 then from_string_loop s (u64 (offset - 1)) (BITMAP_BITS - 8) d
      else from_string_loop s offset (shift - 8) d
  end.

Definition bitmap_from_string (A : allocator) (p : bytes) (l : Z) : M bitmap unit :=
  if BITMAP_MAX / 8 <? l then fail (-1)
  else
    reserve A (l * 8) ;;;
    let! b := get_state in
    let b := bitmap_zero b in
    put_state b ;;;
    if l =? 0 then ret tt
    else
      let offset := (l + (BITMAP_BYTES - 1)) / BITMAP_BYTES - 1 in
      let shift := ((l + (BITMAP_BYTES - 1)) mod BITMAP_BYTES) * 8 in
      put_state (retop (mk_bitmap (from_string_loop (ztake l p) offset shift (bm_d b))
                                  (bm_len b) offset)).

(** ** Specification: the number with the same bits *)

Fixpoint wvalue (ws : list Z) : Z :=
  match ws with [] => 0 | w :: ws => w + 2 ^ 32 * wvalue ws end.
#[global] Arguments wvalue ws : simpl never.

Definition bm_value (b : bitmap) : Z := wvalue (bm_d b).

Record wf_bitmap (b : bitmap) : Prop := {
  wb_top : 0 <= bm_top b < bm_len b;
  wb_len : zlen (bm_d b) = bm_len b;
  wb_words : Forall (in_range 32) (bm_d b);
  wb_above : forall i, bm_top b < i -> word b i = 0
}.

(** ** Lemmas: words *)

Lemma wvalue_cons w ws : wvalue (w :: ws) = w + 2 ^ 32 * wvalue ws.
Proof. done. Qed.

Lemma wvalue_nonneg ws : Forall (in_range 32) ws -> 0 <= wvalue ws.
Proof. induction 1 as [|w ws Hw _ IH]; [done|]. rewrite wvalue_cons. unfold in_range in Hw. lia. Qed.

Lemma wvalue_testbit ws n :
  Forall (in_range 32) ws -> 0 <= n ->
  Z.testbit (wvalue ws) n = Z.testbit (nth (Z.to_nat (n / 32)) ws 0) (n mod 32).
Proof.
  intros Hw. revert n. induction Hw as [|w ws Hw _ IH]; intros n Hn.
  - unfold wvalue. rewrite Z.testbit_0_l. by destruct (Z.to_nat (n / 32)); simpl; rewrite Z.testbit_0_l.
  - rewrite wvalue_cons, Z.add_comm, Z.mul_comm, testbit_concat by (done || lia).
    destruct (Z.ltb_spec n 32).
    + by rewrite Z.div_small, Z.mod_small by lia.
    + rewrite IH by lia. replace n with ((n - 32) + 1 * 32) at 3 4 by lia.
      rewrite Z.div_add, Z.mod_add by lia.
      replace (Z.to_nat ((n - 32) / 32 + 1)) with (S (Z.to_nat ((n - 32) / 32))); [done|].
      pose proof (Z.div_pos (n - 32) 32). lia.
Qed.

Lemma nth_set_word i j v d :
  0 <= i -> 0 <= j ->
  nth (Z.to_nat i) (set_word j v d) 0 =
  if (i =? j) && (j <? zlen d) then v else nth (Z.to_nat i) d 0.
Proof.
  intros Hi Hj. unfold set_word, zlen. rewrite !nth_lookup.
  destruct (Z.eqb_spec i j) as [->|Hn]; simpl.
  - destruct (Z.ltb_spec j (Z.of_nat (length d))).
    + rewrite list_lookup_insert_eq by lia. done.
    + rewrite list_insert_ge by lia. done.
  - rewrite list_lookup_insert_ne by lia. done.
Qed.

Lemma zlen_set_word i v d : zlen (set_word i v d) = zlen d.
Proof. unfold zlen, set_word. by rewrite length_insert. Qed.

Lemma words_set_word i v d :
  Forall (in_range 32) d -> in_range 32 v -> Forall (in_range 32) (set_word i v d).
Proof. intros. by apply Forall_insert. Qed.

Lemma nth_word_range i d : Forall (in_range 32) d -> in_range 32 (nth (Z.to_nat i) d 0).
Proof.
  intros H. rewrite nth_lookup. destruct (d !! Z.to_nat i) as [x|] eqn:E; simpl; [|by auto with ssh].
  by eapply Forall_lookup_1.
Qed.

Lemma wvalue_set_word i v d :
  0 <= i < zlen d ->
  wvalue (set_word i v d) = wvalue d + (v - nth (Z.to_nat i) d 0) * 2 ^ (32 * i).
Proof.
  unfold set_word. intros Hi. rewrite <- (Z2Nat.id i) at 3 by lia.
  assert (Hn : (Z.to_nat i < length d)%nat) by (unfold zlen in Hi; lia). revert Hn.
  generalize (Z.to_nat i) as n. clear Hi. induction d as [|w d IH]; intros n Hn; [simpl in Hn; lia|].
  destruct n as [|n]; simpl; rewrite !wvalue_cons.
  - rewrite Z.mul_0_r, Z.pow_0_r. lia.
  - rewrite IH by (simpl in Hn; lia). rewrite Nat2Z.inj_succ.
    replace (32 * Z.succ (Z.of_nat n)) with (32 + 32 * Z.of_nat n) by lia.
    rewrite Z.pow_add_r by lia. lia.
Qed.

Lemma wvalue_app ws k : wvalue (ws ++ k) = wvalue ws + 2 ^ (32 * zlen ws) * wvalue k.
Proof.
  induction ws as [|w ws IH]; simpl app.
  - rewrite (@zlen_nil Z). change (wvalue []) with 0. rewrite Z.mul_0_r, Z.pow_0_r. lia.
  - rewrite !wvalue_cons, IH, zlen_cons.
    replace (32 * (1 + zlen ws)) with (32 + 32 * zlen ws) by lia.
    rewrite Z.pow_add_r by zl. lia.
Qed.

Lemma wvalue_range ws : Forall (in_range 32) ws -> 0 <= wvalue ws < 2 ^ (32 * zlen ws).
Proof.
  induction 1 as [|w ws Hw _ IH]; [done|]. rewrite wvalue_cons, zlen_cons.
  replace (32 * (1 + zlen ws)) with (32 + 32 * zlen ws) by lia.
  rewrite Z.pow_add_r by zl. unfold in_range in Hw. nia.
Qed.

Lemma wvalue_zrep n : wvalue (zrep n 0) = 0.
Proof. unfold zrep. induction (Z.to_nat n) as [|k IH]; [done|]. simpl. rewrite wvalue_cons, IH. done. Qed.

Lemma words_zrep n : Forall (in_range 32) (zrep n 0).
Proof. apply Forall_replicate. auto with ssh. Qed.

Lemma nth_zrep i n : nth i (zrep n 0) 0 = 0.
Proof.
  unfold zrep. revert i. induction (Z.to_nat n) as [|k IH]; intros [|i]; simpl; auto.
Qed.

Lemma nth_app_zrep i d n : nth i (d ++ zrep n 0) 0 = nth i d 0.
Proof.
  destruct (decide (i < length d)%nat).
  - by rewrite app_nth1 by lia.
  - rewrite app_nth2, nth_zrep by lia. by rewrite nth_overflow by lia.
Qed.

Lemma land_31 n : Z.land n BITMAP_WMASK = n mod 32.
Proof. change BITMAP_WMASK with (2 ^ 5 - 1). by rewrite land_ones_mod. Qed.

Lemma bit_shift k : 0 <= k < 32 -> u32 (Z.shiftl 1 k) = 2 ^ k.
Proof.
  intros Hk. rewrite Z.shiftl_1_l. apply wrap_small.
  pose proof (Z.pow_lt_mono_r 2 k 32). pose proof (Z.pow_pos_nonneg 2 k). lia.
Qed.

Lemma land_shiftr_1 w k : 0 <= k -> Z.land (Z.shiftr w k) 1 = b2z (Z.testbit w k).
Proof.
  intros Hk. change 1 with (2 ^ 1 - 1). rewrite land_ones_mod by lia.
  change (2 ^ 1) with 2. rewrite <- Z.bit0_mod, Z.shiftr_spec by lia.
  by destruct (Z.testbit w (0 + k)) eqn:E; rewrite Z.add_0_l in E; rewrite E.
Qed.

(** ** Lemmas: operations *)

Lemma bitmap_new_ok A b : bitmap_new A = Some b -> wf_bitmap b /\ bm_value b = 0.
Proof.
  unfold bitmap_new. destruct (A SIZEOF_BITMAP), (A BITMAP_BYTES); try done. intros [= <-].
  split; [|done]. constructor; simpl; try done; [repeat constructor; by auto with ssh|].
  intros i Hi. unfold word. simpl. by destruct (Z.to_nat i) as [|[]].
Qed.

Lemma bitmap_zero_ok b : wf_bitmap b -> wf_bitmap (bitmap_zero b) /\ bm_value (bitmap_zero b) = 0.
Proof.
  intros []. split; [|apply wvalue_zrep].
  constructor; simpl; auto using words_zrep; [lia|by rewrite zlen_zrep by lia|].
  intros. apply nth_zrep.
Qed.

Lemma bitmap_test_bit_ok b n :
  wf_bitmap b -> 0 <= n -> bitmap_test_bit b n = b2z (Z.testbit (bm_value b) n).
Proof.
  intros [Ht Hl Hw Ha] Hn. unfold bitmap_test_bit, bm_value. rewrite wvalue_testbit by done.
  destruct (Z.leb_spec (bm_len b) (bm_top b)); [lia|].
  destruct (Z.eqb_spec (bm_len b) 0); [lia|]. simpl. change BITMAP_BITS with 32.
  pose proof (Z.div_pos n 32). destruct (Z.ltb_spec (bm_top b) (n / 32)) as [H1|H1].
  - apply Ha in H1. unfold word in H1. by rewrite H1, Z.testbit_0_l.
  - rewrite land_31, land_shiftr_1; [done|]. apply Z.mod_pos_bound. lia.
Qed.

Lemma reserve_ok A n b :
  wf_bitmap b -> 0 <= n ->
  let '(r, b') := reserve A n b in
  wf_bitmap b' /\ bm_value b' = bm_value b /\ bm_top b' = bm_top b /\
  match r with
  | Ok _ => n <= BITMAP_MAX /\ n / 32 < bm_len b'
  | Err e => b' = b /\ e = -1 /\ (BITMAP_MAX < n \/ exists k, A k = None)
  end.
Proof.
  intros [Ht Hl Hw Ha] Hn. assert (Wf : wf_bitmap b) by done. unfold reserve.
  destruct (Z.leb_spec (bm_len b) (bm_top b)); [lia|]. simpl.
  destruct (Z.ltb_spec BITMAP_MAX n); [split_and!; by auto|]. change BITMAP_BITS with 32.
  pose proof (Z.div_pos n 32). destruct (Z.ltb_spec (bm_len b) (n / 32 + 1)).
  - destruct (A _) eqn:E; [|by eauto 10]. split_and!; simpl; try lia.
    + constructor; simpl; try lia.
      * rewrite zlen_app, zlen_zrep by lia. lia.
      * apply Forall_app. auto using words_zrep.
      * intros i Hi. unfold word. simpl. rewrite nth_app_zrep. by apply Ha.
    + unfold bm_value. simpl. rewrite wvalue_app, wvalue_zrep. lia.
  - split_and!; auto; lia.
Qed.

Lemma bits_word_eq d n v :
  Forall (in_range 32) d -> 0 <= v -> 0 <= n ->
  (forall m, 0 <= m -> Z.testbit (wvalue d) m = Z.testbit v m) -> wvalue d = v.
Proof. intros. apply Z.bits_inj'. auto. Qed.

(** The words of the bitmap after one of them has changed. *)
Lemma wvalue_update d n w' v :
  Forall (in_range 32) d -> in_range 32 w' -> 0 <= n -> n / 32 < zlen d -> 0 <= v ->
  (forall m, 0 <= m -> m / 32 = n / 32 -> Z.testbit w' (m mod 32) = Z.testbit v m) ->
  (forall m, 0 <= m -> m / 32 <> n / 32 -> Z.testbit (wvalue d) m = Z.testbit v m) ->
  wvalue (set_word (n / 32) w' d) = v.
Proof.
  intros Hd Hw' Hn Hl Hv H1 H2. apply Z.bits_inj'. intros m Hm.
  pose proof (Z.div_pos n 32). pose proof (Z.div_pos m 32).
  rewrite wvalue_testbit by auto using words_set_word. rewrite nth_set_word by lia.
  destruct (Z.eqb_spec (m / 32) (n / 32)) as [E|E]; simpl.
  - destruct (Z.ltb_spec (n / 32) (zlen d)); [|lia]. by apply H1.
  - rewrite <- wvalue_testbit by done. by apply H2.
Qed.

Lemma div_mod_32 m n : 0 <= m -> 0 <= n -> m / 32 = n / 32 -> (m mod 32 =? n mod 32) = (n =? m).
Proof.
  intros. pose proof (Z.div_mod m 32). pose proof (Z.div_mod n 32).
  destruct (Z.eqb_spec (m mod 32) (n mod 32)), (Z.eqb_spec n m); lia.
Qed.

Lemma bitmap_set_bit_ok A n b :
  wf_bitmap b -> 0 <= n ->
  let '(r, b') := bitmap_set_bit A n b in
  wf_bitmap b' /\
  match r with
  | Ok _ => bm_value b' = Z.setbit (bm_value b) n /\ n <= BITMAP_MAX
  | Err e => b' = b /\ e = -1 /\ (BITMAP_MAX < n \/ exists k, A k = None)
  end.
Proof.
  intros Wf Hn. pose proof (reserve_ok A n b Wf Hn) as R. unfold bitmap_set_bit, bind.
  destruct (reserve A n b) as [[[]|e] b']; [|tauto]. destruct R as (Wf' & Hv & Ht & Hm & Hl).
  unfold get_state, put_state. change BITMAP_BITS with 32. rewrite land_31.
  pose proof (Z.mod_pos_bound n 32 ltac:(lia)) as Hk. rewrite bit_shift by done.
  destruct Wf' as [Ht' Hl' Hw' Ha']. pose proof (Z.div_pos n 32) as Hd.
  assert (Hr : in_range 32 (Z.lor (word b' (n / 32)) (2 ^ (n mod 32)))).
  { apply lor_range; [lia|by apply nth_word_range|]. unfold in_range.
    pose proof (Z.pow_lt_mono_r 2 (n mod 32) 32). pose proof (Z.pow_pos_nonneg 2 (n mod 32)). lia. }
  split; [constructor|split; [|done]]; simpl.
  - destruct (Z.ltb_spec (bm_top b') (n / 32)); lia.
  - by rewrite zlen_set_word.
  - by apply words_set_word.
  - intros i Hi. unfold word. simpl.
    rewrite nth_set_word by (destruct (bm_top b' <? n / 32); lia).
    destruct (Z.eqb_spec i (n / 32)) as [->|].
    + destruct (Z.ltb_spec (bm_top b') (n / 32)); lia.
    + apply Ha'. destruct (Z.ltb_spec (bm_top b') (n / 32)); lia.
  - unfold bm_value at 1. simpl. rewrite <- Hv. unfold bm_value.
    pose proof (wvalue_nonneg _ Hw'). apply wvalue_update; auto; try lia.
    + unfold Z.setbit. apply Z.lor_nonneg. split; [done|]. rewrite Z.shiftl_1_l.
      apply Z.pow_nonneg. lia.
    + intros m Hm' E. rewrite Z.setbit_eqb, Z.lor_spec, Z.pow2_bits_eqb by lia.
      rewrite (wvalue_testbit _ m) by done. unfold word. rewrite E, (Z.eqb_sym (n mod 32)).
      rewrite div_mod_32 by done. apply orb_comm.
    + intros m Hm' E. rewrite Z.setbit_neq; [done|lia|]. congruence.
Qed.

Lemma retop_loop_ok d t :
  (retop_loop d t <= t)%nat /\
  (retop_loop d t = 0%nat \/ nth (retop_loop d t) d 0 <> 0) /\
  (forall i, (retop_loop d t < i <= t)%nat -> nth i d 0 = 0).
Proof.
  induction t as [|t IH]; cbn [retop_loop]; [split_and!; auto; lia|].
  destruct (Z.eqb_spec (nth (S t) d 0) 0) as [E|E]; [|split_and!; auto; lia].
  destruct IH as (H1 & H2 & H3). split_and!; [lia|done|].
  intros i Hi. destruct (decide (i = S t)) as [->|]; [done|]. apply H3. lia.
Qed.

Lemma retop_ok b :
  wf_bitmap b ->
  wf_bitmap (retop b) /\ bm_value (retop b) = bm_value b /\
  (bm_top (retop b) = 0 \/ word (retop b) (bm_top (retop b)) <> 0).
Proof.
  intros [Ht Hl Hw Ha]. unfold retop. destruct (Z.leb_spec (bm_len b) (bm_top b)); [lia|].
  destruct (retop_loop_ok (bm_d b) (Z.to_nat (bm_top b))) as (H1 & H2 & H3).
  split_and!; [|done|].
  - constructor; simpl; auto; [lia|]. intros i Hi. unfold word; simpl.
    destruct (decide (i <= bm_top b)); [apply H3; lia|]. apply Ha. lia.
  - simpl. unfold word. simpl. rewrite Nat2Z.id. destruct H2; [left; lia|by right].
Qed.

Lemma bitmap_clear_bit_ok n b :
  wf_bitmap b -> 0 <= n <= BITMAP_MAX ->
  wf_bitmap (bitmap_clear_bit n b) /\
  bm_value (bitmap_clear_bit n b) = Z.clearbit (bm_value b) n.
Proof.
  intros Wf Hn. pose proof Wf as [Ht Hl Hw Ha]. unfold bitmap_clear_bit.
  destruct (Z.leb_spec (bm_len b) (bm_top b)); [lia|].
  destruct (Z.ltb_spec BITMAP_MAX n); [lia|]. simpl. change BITMAP_BITS with 32.
  pose proof (Z.div_pos n 32) as Hd. pose proof (Z.mod_pos_bound n 32 ltac:(lia)) as Hk.
  pose proof (wvalue_nonneg _ Hw) as Hv.
  destruct (Z.ltb_spec (bm_top b) (n / 32)) as [H1|H1].
  { split; [done|]. apply Z.bits_inj'. intros m Hm. unfold bm_value. rewrite Z.clearbit_eqb by lia.
    destruct (Z.eqb_spec n m) as [->|]; [|by rewrite andb_true_r].
    rewrite andb_false_r, wvalue_testbit by done. apply Ha in H1. unfold word in H1.
    by rewrite H1, Z.testbit_0_l. }
  rewrite land_31, bit_shift by done. set (w' := Z.land _ _).
  assert (Hr : in_range 32 w').
  { unfold w'. rewrite Z.land_comm. apply land_range; [lia|by apply nth_word_range|].
    unfold lnot32. apply Z.lxor_nonneg. split; intros _; [done|]. apply Z.pow_nonneg. lia. }
  set (b1 := mk_bitmap _ _ _).
  assert (Wf1 : wf_bitmap b1).
  { constructor; simpl; auto; [by rewrite zlen_set_word|by apply words_set_word|].
    intros i Hi. unfold word. simpl. rewrite nth_set_word by lia.
    destruct (Z.eqb_spec i (n / 32)); [lia|]. by apply Ha. }
  destruct (retop_ok b1 Wf1) as (W2 & -> & _). split; [done|].
  unfold bm_value, b1. simpl. apply wvalue_update; auto; try lia.
  - rewrite Z.clearbit_spec'. apply Z.ldiff_nonneg. by left.
  - intros m Hm E. rewrite Z.clearbit_eqb, (wvalue_testbit _ m) by (done || lia).
    unfold w', lnot32. rewrite Z.land_spec, Z.lxor_spec, Z.pow2_bits_eqb by lia.
    change 0xffffffff with (Z.ones 32). pose proof (Z.mod_pos_bound m 32 ltac:(lia)).
    rewrite Z.ones_spec_low, xorb_true_r, (Z.eqb_sym (n mod 32)), div_mod_32 by (done || lia).
    unfold word. by rewrite E.
  - intros m Hm E. rewrite Z.clearbit_neq; [done|]. congruence.
Qed.

Lemma log2_word w : in_range 32 w -> w <> 0 -> 0 <= Z.log2 w < 32.
Proof.
  unfold in_range. intros Hw Hn. split; [apply Z.log2_nonneg|]. apply Z.log2_lt_pow2; lia.
Qed.

Lemma msb_loop_ok fuel : forall w bits,
  in_range 32 w -> w <> 0 -> 32 - Z.log2 w <= Z.of_nat fuel ->
  msb_loop fuel w bits = bits - (31 - Z.log2 w).
Proof.
  induction fuel as [|fuel IH]; intros w bits Hw Hn Hf; pose proof (log2_word w Hw Hn).
  - lia.
  - cbn [msb_loop]. change (BITMAP_BITS - 1) with 31. rewrite bit_shift by lia.
    unfold in_range in Hw. destruct (Z.eqb_spec (Z.land w (2 ^ 31)) 0) as [E|E].
    + assert (Hb : Z.testbit w 31 = false).
      { replace (Z.testbit w 31) with (Z.testbit (Z.land w (2 ^ 31)) 31).
        - by rewrite E.
        - rewrite Z.land_spec, Z.pow2_bits_true by lia. apply andb_true_r. }
      assert (Hl : Z.log2 w <> 31).
      { intros El. pose proof (Z.bit_log2 w ltac:(lia)) as B. rewrite El in B. congruence. }
      assert (Hs : w < 2 ^ 31) by (apply Z.log2_lt_pow2; lia).
      rewrite Z.shiftl_mul_pow2, Z.mul_comm by lia. change (2 ^ 1) with 2.
      rewrite wrap_small by lia. rewrite IH; rewrite ?Z.log2_double by lia; unfold in_range; lia.
    + assert (Hb : Z.testbit w 31 = true).
      { destruct (Z.testbit w 31) eqn:B; [done|]. destruct E. apply Z.bits_inj'. intros m Hm.
        rewrite Z.land_spec, Z.pow2_bits_eqb, Z.bits_0 by lia.
        destruct (Z.eqb_spec 31 m) as [<-|]; [by rewrite B|apply andb_false_r]. }
      assert (Z.log2 w = 31); [|lia].
      destruct (Z.lt_ge_cases (Z.log2 w) 31) as [Hlt|]; [|lia].
      by rewrite Z.bits_above_log2 in Hb by lia.
Qed.

Lemma firstn_words d n : Forall (in_range 32) d -> Forall (in_range 32) (ztake n d).
Proof. apply Forall_take. Qed.

(** A bitmap as its words below the top word, the top word, and zeros. *)
Lemma wvalue_top b :
  wf_bitmap b ->
  bm_value b = wvalue (ztake (bm_top b) (bm_d b)) + 2 ^ (32 * bm_top b) * word b (bm_top b).
Proof.
  intros [Ht Hl Hw Ha]. unfold bm_value.
  rewrite <- (ztake_zdrop (bm_top b) (bm_d b)) at 1. rewrite wvalue_app, zlen_ztake by lia.
  do 2 f_equal. unfold word.
  assert (E : zdrop (bm_top b) (bm_d b) =
              nth (Z.to_nat (bm_top b)) (bm_d b) 0 :: zdrop (bm_top b + 1) (bm_d b)).
  { unfold zdrop. rewrite (drop_S _ (nth (Z.to_nat (bm_top b)) (bm_d b) 0) (Z.to_nat (bm_top b))).
    - do 2 f_equal. lia.
    - rewrite nth_lookup. destruct (lookup_lt_is_Some_2 (bm_d b) (Z.to_nat (bm_top b))) as [x Hx].
      + unfold zlen in Hl. lia.
      + by rewrite Hx. }
  rewrite E, wvalue_cons.
  assert (Hz : wvalue (zdrop (bm_top b + 1) (bm_d b)) = 0); [|lia].
  assert (zdrop (bm_top b + 1) (bm_d b) = zrep (zlen (zdrop (bm_top b + 1) (bm_d b))) 0) as ->;
    [|apply wvalue_zrep].
  apply (nth_ext _ _ 0 0).
  - unfold zrep, zlen. rewrite length_replicate. lia.
  - intros i Hi. rewrite nth_zrep.
    pose proof (nth_zdrop (Z.of_nat i) (bm_top b + 1) (bm_d b) 0 ltac:(lia) ltac:(lia)) as N.
    rewrite Nat2Z.id in N. rewrite N. apply Ha. lia.
Qed.

Lemma bitmap_nbits_ok b :
  wf_bitmap b ->
  bitmap_nbits b = (if bm_value b =? 0 then 0 else Z.log2 (bm_value b) + 1, retop b).
Proof.
  intros Wf. destruct (retop_ok b Wf) as (W1 & Hv & Htop). unfold bitmap_nbits.
  rewrite <- Hv. revert W1 Htop. generalize (retop b) as c. clear b Wf Hv. intros b Wf Htop.
  pose proof (wvalue_top b Wf) as V. destruct Wf as [Ht Hl Hw Ha].
  destruct (Z.leb_spec (bm_len b) (bm_top b)); [lia|].
  destruct (Z.eqb_spec (bm_len b) 0); [lia|]. rewrite orb_false_l.
  pose proof (wvalue_range _ (firstn_words _ (bm_top b) Hw)) as R.
  rewrite zlen_ztake in R by lia.
  pose proof (nth_word_range (bm_top b) _ Hw) as Rw. fold (word b (bm_top b)) in Rw.
  assert (P : 0 < 2 ^ (32 * bm_top b)) by (apply Z.pow_pos_nonneg; lia).
  unfold in_range in Rw.
  destruct (Z.eqb_spec (bm_top b) 0) as [E0|E0];
    rewrite ?andb_true_l, ?andb_false_l; cbn iota.
  - destruct (Z.eqb_spec (word b 0) 0) as [E1|E1].
    + rewrite E0 in V. rewrite E1, ztake_0 in V. change (wvalue []) with 0 in V.
      rewrite Z.mul_0_r in V. by rewrite V.
    + rewrite E0 in *. rewrite ztake_0 in V. change (wvalue []) with 0 in V.
      rewrite Z.mul_0_r, Z.pow_0_r in V.
      destruct (Z.eqb_spec (bm_value b) 0); [lia|]. f_equal.
      pose proof (log2_word (word b 0) ltac:(unfold in_range; lia) E1).
      rewrite msb_loop_ok by (unfold in_range; lia). rewrite V.
      replace (0 + 1 * word b 0) with (word b 0) by lia.
      unfold BITMAP_BITS, BITMAP_BYTES. lia.
  - destruct Htop as [|Hnz]; [done|].
    set (P0 := 2 ^ (32 * bm_top b)) in *.
    assert (0 < P0 * word b (bm_top b)) by (apply Z.mul_pos_pos; lia).
    destruct (Z.eqb_spec (bm_value b) 0); [lia|]. f_equal.
    pose proof (log2_word (word b (bm_top b)) ltac:(unfold in_range; lia) Hnz) as L.
    rewrite msb_loop_ok by (unfold in_range; lia).
    assert (Z.log2 (bm_value b) = 32 * bm_top b + Z.log2 (word b (bm_top b))) as ->.
    { pose proof (Z.log2_spec (word b (bm_top b)) ltac:(lia)) as S. apply Z.log2_unique; [lia|].
      rewrite Z.pow_succ_r, !Z.pow_add_r by lia. rewrite Z.pow_succ_r in S by lia. fold P0.
      set (k := 2 ^ Z.log2 (word b (bm_top b))) in *.
      assert (P0 * k <= P0 * word b (bm_top b)) by (apply Z.mul_le_mono_nonneg_l; lia).
      assert (P0 * (word b (bm_top b) + 1) <= P0 * (2 * k))
        by (apply Z.mul_le_mono_nonneg_l; lia). lia. }
    unfold BITMAP_BITS, BITMAP_BYTES. lia.
Qed.

(** The number of bytes of a value. *)
Definition nbytes (v : Z) : Z := if v =? 0 then 0 else Z.log2 v / 8 + 1.

Lemma bitmap_nbytes_ok b :
  wf_bitmap b -> bitmap_nbytes b = (nbytes (bm_value b), retop b).
Proof.
  intros Wf. unfold bitmap_nbytes, nbytes. rewrite bitmap_nbits_ok by done.
  destruct (Z.eqb_spec (bm_value b) 0); [done|]. f_equal.
  replace (Z.log2 (bm_value b) + 1 + 7) with (Z.log2 (bm_value b) + 1 * 8) by lia.
  by rewrite Z.div_add by lia.
Qed.

Lemma nbytes_spec v : 0 <= v -> 0 <= nbytes v /\ v < 256 ^ nbytes v.
Proof.
  intros Hv. unfold nbytes. destruct (Z.eqb_spec v 0) as [->|]; [done|].
  pose proof (Z.log2_nonneg v). pose proof (Z.div_pos (Z.log2 v) 8). split; [lia|].
  change 256 with (2 ^ 8). rewrite <- Z.pow_mul_r by lia.
  apply Z.lt_le_trans with (2 ^ Z.succ (Z.log2 v)); [apply Z.log2_spec; lia|].
  apply Z.pow_le_mono_r; [lia|]. pose proof (Z.div_mod (Z.log2 v) 8).
  pose proof (Z.mod_pos_bound (Z.log2 v) 8). lia.
Qed.

Lemma word_bytes_le w n v :
  in_range 32 w -> le_bytes (4 + n) (w + 2 ^ 32 * v) = word_bytes w ++ le_bytes n v.
Proof.
  intros Hw. unfold word_bytes. simpl. change 0xff with (2 ^ 8 - 1).
  rewrite !land_ones_mod, !Z.shiftr_div_pow2 by lia. change (2 ^ 8) with 256.
  unfold in_range in Hw. change (2 ^ 32) with 4294967296 in *.
  change (2 ^ (0 * 8)) with 1. change (2 ^ (1 * 8)) with 256.
  change (2 ^ (2 * 8)) with 65536. change (2 ^ (3 * 8)) with 16777216.
  assert (E : forall (a b : Z) (c d : bytes), a = b -> c = d -> a :: c = b :: d)
    by (intros; congruence).
  repeat apply E.
  - rewrite Z.div_1_r. replace (4294967296 * v) with (16777216 * v * 256) by lia.
    by rewrite Z.mod_add by lia.
  - replace (4294967296 * v) with (16777216 * v * 256) by lia. rewrite Z.div_add by lia.
    replace (16777216 * v) with (65536 * v * 256) by lia. by rewrite Z.mod_add by lia.
  - rewrite Z.div_div by lia. change (256 * 256) with 65536.
    replace (4294967296 * v) with (65536 * v * 65536) by lia. rewrite Z.div_add by lia.
    replace (65536 * v) with (256 * v * 256) by lia. by rewrite Z.mod_add by lia.
  - rewrite !Z.div_div by lia. change (256 * 256 * 256) with 16777216.
    change (256 * (256 * 256)) with 16777216.
    replace (4294967296 * v) with (256 * v * 16777216) by lia. rewrite Z.div_add by lia.
    replace (256 * v) with (v * 256) by lia. by rewrite Z.mod_add by lia.
  - rewrite !Z.div_div by lia. change (256 * 256 * 256 * 256) with 4294967296.
    change (256 * (256 * (256 * 256))) with 4294967296.
    f_equal. rewrite (Z.mul_comm 4294967296), Z.div_add, Z.div_small by lia. lia.
Qed.

Lemma words_le_bytes ws :
  Forall (in_range 32) ws -> flat_map word_bytes ws = le_bytes (4 * length ws) (wvalue ws).
Proof.
  induction 1 as [|w ws Hw _ IH]; [done|]. cbn [flat_map]. rewrite wvalue_cons, IH.
  replace (4 * length (w :: ws))%nat with (4 + 4 * length ws)%nat by (simpl; lia).
  symmetry. by apply word_bytes_le.
Qed.

Lemma take_le_bytes n m v : (n <= m)%nat -> take n (le_bytes m v) = le_bytes n v.
Proof.
  revert m v. induction n as [|n IH]; intros [|m] v Hn; simpl; try done; [lia|].
  rewrite IH by lia. done.
Qed.

Lemma nth_insert_ne {A} (i j : nat) (x d : A) l : i <> j -> nth i (<[j := x]> l) d = nth i l d.
Proof. intros. by rewrite !nth_lookup, list_lookup_insert_ne. Qed.

(** The loop that fills the string from its end. *)
Lemma put_backwards_ok need k ws s :
  0 <= k <= need -> need <= zlen s -> need - k <= zlen ws ->
  put_backwards need need k ws s =
  rev (ztake (need - k) ws) ++ zdrop (need - k) s.
Proof.
  revert k s. induction ws as [|w ws IH]; intros k s Hk Hs Hw.
  - rewrite (@zlen_nil Z) in Hw. replace (need - k) with 0 by lia. done.
  - cbn [put_backwards]. rewrite zlen_cons in Hw. destruct (Z.leb_spec need k).
    + rewrite IH by zl. replace (need - k) with 0 by lia. done.
    + rewrite IH; [|lia|unfold zlen in *; rewrite length_insert; lia|lia].
      replace (need - k) with (1 + (need - (k + 1))) by lia.
      assert (E1 : ztake (1 + (need - (k + 1))) (w :: ws) = w :: ztake (need - (k + 1)) ws).
      { unfold ztake. by replace (Z.to_nat (1 + (need - (k + 1)))) with
          (S (Z.to_nat (need - (k + 1)))) by lia. }
      rewrite E1. simpl rev. rewrite <- (assoc_L (++)). f_equal.
      replace (need - 1 - k) with (need - (k + 1)) by lia.
      unfold zdrop. rewrite <- (take_drop (Z.to_nat (need - (k + 1))) s) at 1.
      unfold zlen in *. rewrite insert_app_r_alt by (rewrite length_take; lia).
      rewrite length_take, Nat.min_l, Nat.sub_diag by lia.
      rewrite drop_app_length' by (rewrite length_take; lia).
      destruct (drop (Z.to_nat (need - (k + 1))) s) as [|x t] eqn:E.
      { apply (f_equal length) in E. rewrite length_drop in E. simpl in E. lia. }
      simpl. f_equal. replace (Z.to_nat (1 + (need - (k + 1)))) with
        (Z.to_nat (need - (k + 1)) + 1)%nat by lia.
      rewrite <- drop_drop, E. done.
Qed.

Lemma bitmap_to_string_ok p l b :
  wf_bitmap b -> l <= zlen p ->
  bitmap_to_string p l b =
  (if l <? nbytes (bm_value b) then Err (-1)
   else Ok (be_bytes (Z.to_nat (nbytes (bm_value b))) (bm_value b) ++
            zdrop (nbytes (bm_value b)) p), retop b).
Proof.
  intros Wf Hp. unfold bitmap_to_string. rewrite bitmap_nbytes_ok by done.
  destruct (retop_ok b Wf) as (W1 & Hv & _). rewrite <- Hv.
  revert W1. generalize (retop b) as c. clear b Wf Hv. intros b Wf.
  pose proof (bitmap_nbytes_ok b Wf) as Hnb. pose proof (wvalue_top b Wf) as V.
  pose proof Wf as [Ht Hl Hw Ha]. destruct (Z.ltb_spec l (nbytes (bm_value b))); [done|].
  destruct (Z.leb_spec (bm_len b) (bm_top b)); [lia|]. simpl orb. cbn iota.
  set (need := nbytes (bm_value b)) in *. pose proof (wvalue_nonneg _ Hw) as Hv.
  pose proof (nbytes_spec (bm_value b) Hv) as [Hn Hlt]. fold need in Hn, Hlt.
  replace (if need <? l then need else l) with need by (destruct (Z.ltb_spec need l); lia).
  do 2 f_equal.
  assert (Ev : wvalue (ztake (bm_top b + 1) (bm_d b)) = bm_value b).
  { unfold bm_value. rewrite <- (ztake_zdrop (bm_top b + 1) (bm_d b)) at 2.
    rewrite wvalue_app.
    assert (zdrop (bm_top b + 1) (bm_d b) = zrep (zlen (zdrop (bm_top b + 1) (bm_d b))) 0) as ->;
      [|rewrite wvalue_zrep; lia].
    apply (nth_ext _ _ 0 0).
    - unfold zrep, zlen. rewrite length_replicate. lia.
    - intros i Hi. rewrite nth_zrep.
      pose proof (nth_zdrop (Z.of_nat i) (bm_top b + 1) (bm_d b) 0 ltac:(lia) ltac:(lia)) as N.
      rewrite Nat2Z.id in N. rewrite N. apply Ha. lia. }
  pose proof (firstn_words _ (bm_top b + 1) Hw) as Hw1.
  assert (Hlw : zlen (ztake (bm_top b + 1) (bm_d b)) = bm_top b + 1) by (apply zlen_ztake; lia).
  assert (Hfit : need <= 4 * (bm_top b + 1)).
  { pose proof (wvalue_range _ Hw1) as R. rewrite Ev, Hlw in R. unfold need, nbytes.
    destruct (Z.eqb_spec (bm_value b) 0); [lia|].
    assert (Z.log2 (bm_value b) < 32 * (bm_top b + 1)) by (apply Z.log2_lt_pow2; lia).
    pose proof (Z.div_lt_upper_bound (Z.log2 (bm_value b)) 8 (4 * (bm_top b + 1))). lia. }
  rewrite words_le_bytes, Ev by done. unfold zlen in Hlw.
  rewrite put_backwards_ok; rewrite ?Z.sub_0_r; try lia.
  - f_equal. unfold be_bytes, ztake. by rewrite take_le_bytes by (unfold ztake in Hlw; lia).
  - unfold zlen. rewrite le_bytes_length. lia.
Qed.

(** The loop that reads the string: each byte goes to bits that are still zero. *)
Lemma word_low_zero d offset k :
  Forall (in_range 32) d -> 0 <= offset < zlen d -> 0 <= k <= 32 ->
  wvalue d mod 2 ^ (32 * offset + k) = 0 -> nth (Z.to_nat offset) d 0 mod 2 ^ k = 0.
Proof.
  intros Hd Ho Hk Hz. apply Z.bits_inj'. intros i Hi. rewrite Z.bits_0.
  destruct (decide (i < k)) as [Hik|]; [|by apply Z.mod_pow2_bits_high; lia].
  rewrite Z.mod_pow2_bits_low by lia.
  pose proof (wvalue_testbit d (32 * offset + i) Hd ltac:(lia)) as T.
  replace ((32 * offset + i) / 32) with offset in T
    by (rewrite Z.mul_comm, Z.div_add_l, Z.div_small by lia; lia).
  replace ((32 * offset + i) mod 32) with i in T
    by (rewrite Z.add_comm, Z.mul_comm, Z.mod_add, Z.mod_small by lia; done).
  rewrite <- T, <- (Z.mod_pow2_bits_low _ (32 * offset + k)) by lia. rewrite Hz. apply Z.bits_0.
Qed.

Lemma lor_byte w c s :
  0 <= s <= 24 -> s mod 8 = 0 -> in_range 32 w -> is_byte c -> w mod 2 ^ (s + 8) = 0 ->
  Z.lor w (u32 (Z.shiftl c s)) = w + c * 2 ^ s /\ in_range 32 (w + c * 2 ^ s).
Proof.
  intros Hs Hm Hw Hc Hz. unfold in_range in *. change (2 ^ 8) with 256 in Hc.
  pose proof (Z.pow_pos_nonneg 2 s ltac:(lia) ltac:(lia)) as P.
  assert (E32 : 2 ^ 32 = 2 ^ (24 - s) * 256 * 2 ^ s).
  { change 256 with (2 ^ 8). rewrite <- !Z.pow_add_r by lia. f_equal. lia. }
  assert (P2 : 1 <= 2 ^ (24 - s)) by (pose proof (Z.pow_pos_nonneg 2 (24 - s)); lia).
  assert (Hc1 : 0 <= c * 2 ^ s < 2 ^ (s + 8)).
  { rewrite Z.pow_add_r by lia. change (2 ^ 8) with 256. nia. }
  assert (H32 : 2 ^ (s + 8) <= 2 ^ 32) by (apply Z.pow_le_mono_r; lia).
  rewrite Z.shiftl_mul_pow2, wrap_small by lia.
  pose proof (Z.div_mod w (2 ^ (s + 8)) ltac:(lia)) as D. rewrite Hz, Z.add_0_r in D.
  rewrite D at 1. rewrite Z.mul_comm, <- Z.shiftl_mul_pow2 by lia.
  rewrite lor_shiftl_add by lia. split; [lia|].
  assert (w <= 2 ^ 32 - 2 ^ (s + 8)); [|lia].
  assert (E2 : 2 ^ 32 = 2 ^ (s + 8) * 2 ^ (24 - s))
    by (rewrite <- Z.pow_add_r by lia; f_equal; lia).
  assert (w / 2 ^ (s + 8) < 2 ^ (24 - s)) by (apply Z.div_lt_upper_bound; lia).
  nia.
Qed.

Lemma from_string_loop_ok s : forall offset shift d,
  Forall (in_range 32) d -> Bytes s -> 0 <= offset < zlen d -> zlen d <= 2 ^ 32 ->
  0 <= shift <= 24 -> shift mod 8 = 0 -> (s <> [] -> 32 * offset + shift = 8 * (zlen s - 1)) ->
  wvalue d mod 2 ^ (8 * zlen s) = 0 ->
  let d' := from_string_loop s offset shift d in
  wvalue d' = wvalue d + be_value s /\ Forall (in_range 32) d' /\ zlen d' = zlen d /\
  (forall i, offset < i -> nth (Z.to_nat i) d' 0 = nth (Z.to_nat i) d 0).
Proof.
  induction s as [|c s IH]; intros offset shift d Hd Hs Ho Hl Hsh Hm Hp Hz.
  { simpl. change (be_value []) with 0. rewrite Z.add_0_r. auto. }
  apply Forall_cons in Hs as [Hc Hs]. specialize (Hp ltac:(done)).
  rewrite zlen_cons in *. pose proof (zlen_nonneg s) as Hls.
  assert (Hw : nth (Z.to_nat offset) d 0 mod 2 ^ (shift + 8) = 0).
  { apply (word_low_zero d); try done; [lia|]. by replace (32 * offset + (shift + 8))
      with (8 * (1 + zlen s)) by lia. }
  destruct (lor_byte _ c shift Hsh Hm (nth_word_range offset d Hd) Hc Hw) as [E Er].
  cbn [from_string_loop]. rewrite E. set (d1 := set_word offset _ d).
  assert (V1 : wvalue d1 = wvalue d + c * 2 ^ (8 * zlen s)).
  { unfold d1. rewrite wvalue_set_word by done. replace (8 * zlen s) with (shift + 32 * offset) by lia.
    rewrite Z.pow_add_r by lia. lia. }
  assert (D1 : Forall (in_range 32) d1) by (by apply words_set_word).
  assert (L1 : zlen d1 = zlen d) by apply zlen_set_word.
  assert (Z1 : wvalue d1 mod 2 ^ (8 * zlen s) = 0).
  { rewrite V1, Z.mod_add by (apply Z.pow_nonzero; lia).
    apply Z.mod_divide; [apply Z.pow_nonzero; lia|].
    apply Z.mod_divide in Hz; [|apply Z.pow_nonzero; lia].
    eapply Z.divide_trans; [|exact Hz]. replace (8 * (1 + zlen s)) with (8 * zlen s + 8) by lia.
    rewrite Z.pow_add_r by lia. apply Z.divide_factor_l. }
  assert (K1 : forall i, offset < i -> nth (Z.to_nat i) d1 0 = nth (Z.to_nat i) d 0).
  { intros i Hi. unfold d1. rewrite nth_set_word by lia.
    destruct (Z.eqb_spec i offset); [lia|done]. }
  assert (Vb : c * 2 ^ (8 * zlen s) + be_value s = be_value (c :: s)).
  { rewrite be_value_cons. change 256 with (2 ^ 8). by rewrite <- Z.pow_mul_r by lia. }
  assert (Done : forall offset' shift', offset' <= offset ->
     (let d' := from_string_loop s offset' shift' d1 in
      wvalue d' = wvalue d1 + be_value s /\ Forall (in_range 32) d' /\ zlen d' = zlen d1 /\
      (forall i, offset' < i -> nth (Z.to_nat i) d' 0 = nth (Z.to_nat i) d1 0)) ->
     let d' := from_string_loop s offset' shift' d1 in
     wvalue d' = wvalue d + be_value (c :: s) /\ Forall (in_range 32) d' /\ zlen d' = zlen d /\
     (forall i, offset < i -> nth (Z.to_nat i) d' 0 = nth (Z.to_nat i) d 0)).
  { intros o' s' Ho' (G1 & G2 & G3 & G4) d'. split_and!; try done; [unfold d'; lia|by unfold d'; lia|].
    intros i Hi. unfold d'. rewrite G4, K1 by lia. done. }
  destruct (Z.eqb_spec shift 0) as [->|Hsh0].
  - destruct s as [|c' s].
    { cbn [from_string_loop]. change (be_value []) with 0 in Vb. split_and!; auto; lia. }
    rewrite zlen_cons in *. pose proof (zlen_nonneg s).
    rewrite (wrap_small 64) by lia. apply Done; [lia|].
    apply IH; auto; try (change (BITMAP_BITS - 8) with 24; lia); try lia.
  - apply Done; [lia|]. assert (8 <= shift).
    { pose proof (Z.div_mod shift 8). lia. }
    apply IH; auto; try lia.
    rewrite <- Hm. replace shift with ((shift - 8) + 1 * 8) at 2 by lia. by rewrite Z.mod_add by lia.
Qed.

Lemma bitmap_from_string_ok A p l b :
  wf_bitmap b -> Bytes p -> 0 <= l <= zlen p -> bm_len b <= BITMAP_MAX ->
  let '(r, b') := bitmap_from_string A p l b in
  wf_bitmap b' /\
  match r with
  | Ok _ => bm_value b' = be_value (ztake l p) /\ l <= BITMAP_MAX / 8
  | Err e => b' = b /\ e = -1 /\ (BITMAP_MAX / 8 < l \/ exists k, A k = None)
  end.
Proof.
  intros Wf Hp Hl Hmax. unfold bitmap_from_string.
  destruct (Z.ltb_spec (BITMAP_MAX / 8) l) as [|Hl8]; [simpl; split_and!; by auto|]. unfold bind.
  pose proof (reserve_ok A (l * 8) b Wf ltac:(lia)) as R.
  destruct (reserve A (l * 8) b) as [[[]|e] b1] eqn:ER.
  2: { destruct R as (W & _ & _ & -> & -> & [H|H]); split_and!; auto.
       change BITMAP_MAX with 16777216 in *. change (16777216 / 8) with 2097152 in *. lia. }
  destruct R as (W1 & _ & _ & _ & Hr).
  assert (Hb1 : bm_len b1 <= BITMAP_MAX).
  { unfold reserve in ER. destruct (_ || _); [done|]. change BITMAP_BITS with 32 in ER.
    destruct (_ <? _); [destruct (A _); [|done]|]; injection ER as <-; [|done]. simpl.
    change BITMAP_MAX with 16777216 in *. change (16777216 / 8) with 2097152 in *.
    pose proof (Z.div_le_upper_bound (l * 8) 32 524288). lia. }
  unfold get_state, put_state, ret. destruct (bitmap_zero_ok b1 W1) as (W2 & V2).
  destruct (Z.eqb_spec l 0) as [->|Hl0].
  { split_and!; [done| |lia]. by rewrite V2. }
  change BITMAP_BYTES with 4 in *. change (4 - 1) with 3.
  set (offset := (l + 3) / 4 - 1). set (shift := (l + 3) mod 4 * 8).
  pose proof (Z.div_mod (l + 3) 4 ltac:(lia)) as D.
  pose proof (Z.mod_pos_bound (l + 3) 4 ltac:(lia)) as Md.
  assert (Ho : 0 <= offset < bm_len b1).
  { unfold offset. rewrite (Z.mul_comm l 8) in Hr.
    pose proof (Z.div_le_lower_bound (8 * l) 32 ((l + 3) / 4 - 1)). lia. }
  assert (Hlt : zlen (ztake l p) = l) by (apply zlen_ztake; lia).
  assert (Hlen : zlen (zrep (bm_len b1) 0) = bm_len b1) by (rewrite zlen_zrep; lia).
  change BITMAP_MAX with 16777216 in *.
  destruct (from_string_loop_ok (ztake l p) offset shift (zrep (bm_len b1) 0)) as (G1 & G2 & G3 & G4).
  { apply words_zrep. }
  { by apply Forall_ztake. }
  { lia. }
  { lia. }
  { unfold shift. lia. }
  { unfold shift. by rewrite Z.mod_mul. }
  { intros _. unfold shift, offset. lia. }
  { by rewrite wvalue_zrep, Z.mod_0_l by (apply Z.pow_nonzero; lia). }
  rewrite wvalue_zrep, Z.add_0_l in G1. simpl bm_d. simpl bm_len.
  set (b2 := mk_bitmap _ _ _).
  assert (W3 : wf_bitmap b2).
  { constructor; simpl; auto; [lia|]. intros i Hi. unfold word. simpl. rewrite G4 by done.
    apply nth_zrep. }
  destruct (retop_ok b2 W3) as (W4 & V4 & _). split; [done|]. split; [|lia].
  rewrite V4. exact G1.
Qed.

(** ** Runs *)

Inductive bm_op : Type :=
| BmSet (n : Z) | BmClear (n : Z) | BmZero | BmFromString (p : bytes).

Definition bm_exec (A : allocator) (op : bm_op) (b : bitmap) : bitmap :=
  match op with
  | BmSet n => snd (bitmap_set_bit A n b)
  | BmClear n => bitmap_clear_bit n b
  | BmZero => bitmap_zero b
  | BmFromString p => snd (bitmap_from_string A p (zlen p) b)
  end.

(** The effect on the number; an operation out of range changes nothing. *)
Definition bits_op (op : bm_op) (v : Z) : Z :=
  match op with
  | BmSet n => if n <=? BITMAP_MAX then Z.setbit v n else v
  | BmClear n => if n <=? BITMAP_MAX then Z.clearbit v n else v
  | BmZero => 0
  | BmFromString p => if zlen p <=? BITMAP_MAX / 8 then be_value p else v
  end.

Definition bm_op_ok (op : bm_op) : Prop :=
  match op with BmSet n | BmClear n => 0 <= n | BmZero => True | BmFromString p => Bytes p end.

Lemma retop_len b : bm_len (retop b) = bm_len b.
Proof. unfold retop. by destruct (_ <=? _). Qed.

Lemma reserve_len A n b : bm_len b <= BITMAP_MAX -> 0 <= n -> bm_len (snd (reserve A n b)) <= BITMAP_MAX.
Proof.
  intros Hl Hn. unfold reserve. destruct (Z.ltb_spec BITMAP_MAX n) as [|Hm]; [by rewrite orb_true_r|].
  destruct (_ || _); [done|]. destruct (_ <? _); [|done]. destruct (A _); [|done]. simpl.
  change BITMAP_BITS with 32. change BITMAP_MAX with 16777216 in *.
  pose proof (Z.div_le_upper_bound n 32 524288). lia.
Qed.

Lemma bm_exec_ok A op b :
  (forall k, A k <> None) -> wf_bitmap b -> bm_len b <= BITMAP_MAX -> bm_op_ok op ->
  wf_bitmap (bm_exec A op b) /\ bm_len (bm_exec A op b) <= BITMAP_MAX /\
  bm_value (bm_exec A op b) = bits_op op (bm_value b).
Proof.
  intros HA Wf Hl Hop. destruct op as [n|n| |p]; simpl in *.
  - pose proof (bitmap_set_bit_ok A n b Wf Hop) as S.
    pose proof (reserve_len A n b Hl Hop) as L. unfold bitmap_set_bit, bind in *.
    destruct (reserve A n b) as [[[]|e] b1]; simpl in *.
    + destruct S as (W & V & Hn). split_and!; auto. rewrite V.
      by destruct (Z.leb_spec n BITMAP_MAX); [|lia].
    + destruct S as (W & -> & _ & [H|[k H]]); [|by apply HA in H]. split_and!; auto.
      by destruct (Z.leb_spec n BITMAP_MAX); [lia|].
  - destruct (Z.leb_spec n BITMAP_MAX).
    + destruct (bitmap_clear_bit_ok n b Wf ltac:(lia)) as (W & V). split_and!; auto.
      unfold bitmap_clear_bit. destruct (_ || _); [done|]. destruct (_ <? _); [done|].
      by rewrite retop_len.
    + unfold bitmap_clear_bit. destruct (Z.ltb_spec BITMAP_MAX n); [|lia].
      by rewrite orb_true_r.
  - destruct (bitmap_zero_ok b Wf). auto.
  - pose proof (bitmap_from_string_ok A p (zlen p) b Wf Hop ltac:(zl) Hl) as S.
    pose proof (zlen_nonneg p) as Hz. unfold bitmap_from_string in *.
    destruct (Z.ltb_spec (BITMAP_MAX / 8) (zlen p)).
    + simpl in *. split_and!; auto. by destruct (Z.leb_spec (zlen p) (BITMAP_MAX / 8)); [lia|].
    + destruct (Z.leb_spec (zlen p) (BITMAP_MAX / 8)); [|lia].
      pose proof (reserve_len A (zlen p * 8) b Hl ltac:(lia)) as L. unfold bind in *.
      destruct (reserve A (zlen p * 8) b) as [[[]|e] b1]; simpl in *.
      * unfold get_state, put_state, ret in *.
        destruct (zlen p =? 0); simpl in *; destruct S as (W & V & _);
          rewrite ?retop_len; simpl; split_and!; auto; rewrite V, ztake_ge by lia; done.
      * destruct S as (_ & _ & _ & [S|[k S]]); [lia|by apply HA in S].
Qed.

Definition bm_run (A : allocator) (ops : list bm_op) (b : bitmap) : bitmap :=
  fold_left (fun b op => bm_exec A op b) ops b.

Lemma bm_run_ok A ops : forall b,
  (forall k, A k <> None) -> wf_bitmap b -> bm_len b <= BITMAP_MAX -> Forall bm_op_ok ops ->
  wf_bitmap (bm_run A ops b) /\
  bm_value (bm_run A ops b) = fold_left (fun v op => bits_op op v) ops (bm_value b).
Proof.
  induction ops as [|op ops IH]; intros b HA Wf Hl Hops; [done|].
  apply Forall_cons in Hops as [Hop Hops]. simpl.
  destruct (bm_exec_ok A op b HA Wf Hl Hop) as (W & L & V).
  destruct (IH _ HA W L Hops) as (W' & V'). by rewrite <- V.
Qed.

(** ** Properties *)


Definition test_A : allocator := fun n => Some (Z.to_pos (n + 1), fun i => i).


(** A bitmap written to a string and read back into another bitmap is the
    same set of bits, whatever the sizes of the two bitmaps, and the string is
    the shortest big-endian encoding of its value. *)
Theorem bitmap_string_roundtrip A b c p :
  wf_bitmap b -> wf_bitmap c -> bm_len c <= BITMAP_MAX -> Bytes p ->
  nbytes (bm_value b) <= zlen p -> nbytes (bm_value b) <= BITMAP_MAX / 8 ->
  (forall k, A k <> None) ->
  exists s b' c',
    bitmap_nbytes b = (nbytes (bm_value b), b') /\
    bitmap_to_string p (zlen p) b = (Ok s, b') /\
    bitmap_from_string A s (nbytes (bm_value b)) c = (Ok tt, c') /\
    ztake (nbytes (bm_value b)) s = be_bytes (Z.to_nat (nbytes (bm_value b))) (bm_value b) /\
    wf_bitmap c' /\ bm_value c' = bm_value b /\
    forall n, 0 <= n -> bitmap_test_bit c' n = bitmap_test_bit b n.
Proof.
  intros Wb Wc Hc Hp Hl Hm HA. set (n := nbytes (bm_value b)) in *.
  pose proof (wvalue_nonneg _ (wb_words _ Wb)) as Hv. fold (bm_value b) in Hv.
  pose proof (nbytes_spec (bm_value b) Hv) as [Hn Hlt]. fold n in Hn, Hlt.
  set (s := be_bytes (Z.to_nat n) (bm_value b) ++ zdrop n p).
  assert (Hbz : zlen (be_bytes (Z.to_nat n) (bm_value b)) = n) by (rewrite be_bytes_zlen; lia).
  assert (Ht : ztake n s = be_bytes (Z.to_nat n) (bm_value b)) by (by apply ztake_app).
  assert (Hs : Bytes s).
  { apply Forall_app. split; [apply be_bytes_Bytes|by apply Forall_zdrop]. }
  assert (Hzs : 0 <= n <= zlen s) by (unfold s; zl).
  pose proof (bitmap_from_string_ok A s n c Wc Hs Hzs Hc) as F.
  destruct (bitmap_from_string A s n c) as [[[]|e] c'] eqn:E.
  2: { destruct F as (_ & _ & _ & [F|[k F]]); [lia|by apply HA in F]. }
  destruct F as (W' & V' & _). rewrite Ht, be_value_be_bytes in V'
    by (rewrite Z2Nat.id by lia; lia).
  exists s, (retop b), c'. split_and!; auto.
  - by apply bitmap_nbytes_ok.
  - rewrite bitmap_to_string_ok by (done || lia). fold n.
    destruct (Z.ltb_spec (zlen p) n); [lia|done].
  - intros m Hm'. rewrite !bitmap_test_bit_ok, V' by done. done.
Qed.

Lemma bitmap_string_roundtrip_witness :
  let b := bm_run test_A [BmSet 40; BmSet 3] (mk_bitmap [0] 1 0) in
  exists s b' c',
    bitmap_nbytes b = (6, b') /\ bitmap_to_string (zrep 8 1) 8 b = (Ok s, b') /\
    bitmap_from_string test_A s 6 (mk_bitmap [5] 1 0) = (Ok tt, c') /\ bm_value c' = 2 ^ 40 + 2 ^ 3.
Proof.
  intros b.
  assert (W1 : wf_bitmap (mk_bitmap [0] 1 0)) by (by eapply (bitmap_new_ok test_A)).
  assert (W5 : wf_bitmap (mk_bitmap [5] 1 0)).
  { constructor; simpl; try done; [repeat constructor; by auto with ssh|].
    intros i Hi. unfold word. simpl. destruct (Z.to_nat i) as [|[|k]] eqn:E; try done. lia. }
  destruct (bm_run_ok test_A [BmSet 40; BmSet 3] (mk_bitmap [0] 1 0)) as (Wb & Vb).
  { done. } { done. } { vm_compute; congruence. } 
  { repeat (apply Forall_cons; split; [vm_compute; congruence|]). constructor. }
  fold b in Wb, Vb. change (fold_left _ _ _) with (2 ^ 40 + 2 ^ 3) in Vb.
  assert (Hn : nbytes (bm_value b) = 6) by (rewrite Vb; vm_compute; reflexivity).
  destruct (bitmap_string_roundtrip test_A b (mk_bitmap [5] 1 0) (zrep 8 1) Wb W5)
    as (s & b' & c' & E1 & E2 & E3 & _ & _ & V & _).
  - vm_compute; congruence.
  - apply Bytes_zrep. vm_compute; split; congruence.
  - rewrite Hn. vm_compute; congruence.
  - rewrite Hn. vm_compute; congruence.
  - done.
  - rewrite Hn in E1, E3. rewrite (zlen_zrep 8 1) in E2 by lia. rewrite Vb in V.
    exact (ex_intro _ s (ex_intro _ b' (ex_intro _ c' (conj E1 (conj E2 (conj E3 V)))))).
Defined.
