(* ===== verification/Krl.v ===== *)
(** krl.c: the contents of a key revocation list, revoking and checking keys.

    A red-black tree (sys-tree.h) is the list of its nodes in order, which is
    what RB_MIN, RB_NEXT, RB_PREV and RB_FOREACH walk.  Where the shape of the
    tree matters - RB_NFIND on an interval that overlaps several nodes returns
    the one nearest to the root - the choice is the parameter [pick].

    Keys (sshkey.c) are an interface, [KeyOps], with the laws [KeyLaws]. *)

From Stdlib Require Import Sorted.
From S2P Require Import Prelude.

(** ** Comparisons *)

Definition range : Type := Z * Z.

(** Equal if a and b overlap. *)
Definition serial_cmp (a b : range) : Z :=
  if (fst b <=? snd a) && (fst a <=? snd b) then 0
  else if fst a <? fst b then -1 else 1.

Fixpoint strcmp (a b : bytes) : Z :=
  match a, b with
  | [], [] => 0
  | [], _ => -1
  | _, [] => 1
  | x :: a, y :: b => if x =? y then strcmp a b else if x <? y then -1 else 1
  end.

Definition key_id_cmp (a b : bytes) : Z := strcmp a b.

Fixpoint memcmp (a b : bytes) (n : nat) : Z :=
  match n, a, b with
  | S n, x :: a, y :: b => if x =? y then memcmp a b n else if x <? y then -1 else 1
  | _, _, _ => 0
  end.

Definition blob_cmp (a b : bytes) : Z :=
  if negb (zlen a =? zlen b) then
    let r := memcmp a b (Z.to_nat (Z.min (zlen a) (zlen b))) in
    if negb (r =? 0) then r else if zlen b <? zlen a then 1 else -1
  else memcmp a b (length a).

(** ** Trees *)

Section trees.
Context {X : Type} (cmp : X -> X -> Z).

(** RB_INSERT: the new tree and the node that compares equal, if there is one. *)
Fixpoint RB_INSERT (x : X) (l : list X) : list X * option X :=
  match l with
  | [] => ([x], None)
  | y :: l' =>
      let c := cmp x y in
      if c =? 0 then (l, Some y)
      else if c <? 0 then (x :: l, None)
      else let '(l', e) := RB_INSERT x l' in (y :: l', e)
  end.

Definition RB_FIND (x : X) (l : list X) : option X := find (fun y => cmp x y =? 0) l.
End trees.

(** RB_NFIND: the position of a node that overlaps, else of the first node that
    is greater, else the length. *)
Fixpoint overlapping (rs : range) (i : nat) (l : list range) : list nat :=
  match l with
  | [] => []
  | y :: l => if serial_cmp rs y =? 0 then i :: overlapping rs (S i) l else overlapping rs (S i) l
  end.
Fixpoint first_greater (rs : range) (i : nat) (l : list range) : nat :=
  match l with
  | [] => i
  | y :: l => if serial_cmp rs y <? 0 then i else first_greater rs (S i) l
  end.
Definition RB_NFIND (pick : nat) (rs : range) (l : list range) : nat :=
  match overlapping rs 0 l with
  | [] => first_greater rs 0 l
  | i :: more => nth (pick mod length (i :: more)) (i :: more) i
  end.

(** ** Serial numbers *)

(** The loop over the predecessors, nearest first: the predecessors left and the
    new lower end. *)
Fixpoint merge_pred (preds : list range) (lo : Z) : list range * Z :=
  match preds with
  | [] => ([], lo)
  | crs :: preds' =>
      if negb (lo =? 0) && (snd crs <? u64 (lo - 1)) then (preds, lo)
      else merge_pred preds' (if fst crs <? lo then fst crs else lo)
  end.

Fixpoint merge_succ (succs : list range) (hi : Z) : list range * Z :=
  match succs with
  | [] => ([], hi)
  | crs :: succs' =>
      if negb (hi =? 2 ^ 64 - 1) && (u64 (hi + 1) <? fst crs) then (succs, hi)
      else merge_succ succs' (if hi <? snd crs then snd crs else hi)
  end.

(** [mem] is whether [malloc] succeeds. *)
Definition insert_serial_range (pick : nat) (mem : bool) (lo hi : Z)
    : M (list range) unit := fun rt =>
  let rs := (lo, hi) in
  let i := RB_NFIND pick rs rt in
  let place :=
    match rt !! i with
    | None => inl tt
    | Some ers => if negb (serial_cmp ers rs =? 0) then inl tt else inr ers
    end in
  let finish := fun preds (ers : range) succs =>
    let '(preds, lo) := merge_pred (rev preds) (fst ers) in
    let '(succs, hi) := merge_succ succs (snd ers) in
    (Ok tt, rev preds ++ (lo, hi) :: succs) in
  match place with
  | inl _ =>
      if negb mem then (Err SSH_ERR_ALLOC_FAIL, rt)
      else finish (take i rt) rs (drop i rt)
  | inr ers =>
      let ers := (if lo <? fst ers then lo else fst ers,
                  if snd ers <? hi then hi else snd ers) in
      finish (take i rt) ers (drop (S i) rt)
  end.

(** ** The list *)

Class KeyOps (sshkey : Type) := {
  sshkey_equal : option sshkey -> option sshkey -> bool;
  sshkey_from_private : sshkey -> result sshkey;
  sshkey_is_cert : sshkey -> bool;
  sshkey_drop_cert : sshkey -> result sshkey;
  sshkey_to_blob : sshkey -> result bytes;
  sshkey_fingerprint_sha1 : sshkey -> result bytes;
  cert_signature_key : sshkey -> sshkey;
  cert_serial : sshkey -> Z;
  cert_key_id : sshkey -> bytes
}.

Section krl.
Context {sshkey : Type} `{KeyOps sshkey}.

Record revoked_certs : Type := mk_revoked_certs {
  rc_ca_key : option sshkey;
  rc_serials : list range;
  rc_key_ids : list bytes
}.

Record ssh_krl : Type := mk_krl {
  krl_version : Z;
  krl_generated_date : Z;
  krl_flags : Z;
  krl_comment : option bytes;
  krl_revoked_keys : list bytes;
  krl_revoked_sha1s : list bytes;
  krl_revoked_certs : list revoked_certs
}.

Definition ssh_krl_init (mem : bool) : option ssh_krl :=
  if mem then Some (mk_krl 0 0 0 None [] [] []) else None.

Definition with_certs (v : list revoked_certs) (krl : ssh_krl) : ssh_krl :=
  mk_krl (krl_version krl) (krl_generated_date krl) (krl_flags krl) (krl_comment krl)
    (krl_revoked_keys krl) (krl_revoked_sha1s krl) v.
Definition with_keys (v : list bytes) (krl : ssh_krl) : ssh_krl :=
  mk_krl (krl_version krl) (krl_generated_date krl) (krl_flags krl) (krl_comment krl)
    v (krl_revoked_sha1s krl) (krl_revoked_certs krl).
Definition with_sha1s (v : list bytes) (krl : ssh_krl) : ssh_krl :=
  mk_krl (krl_version krl) (krl_generated_date krl) (krl_flags krl) (krl_comment krl)
    (krl_revoked_keys krl) v (krl_revoked_certs krl).

Definition ssh_krl_set_version (version : Z) (krl : ssh_krl) : ssh_krl :=
  mk_krl version (krl_generated_date krl) (krl_flags krl) (krl_comment krl)
    (krl_revoked_keys krl) (krl_revoked_sha1s krl) (krl_revoked_certs krl).

(** The old comment is freed even when [strdup] fails. *)
Definition ssh_krl_set_comment (mem : bool) (comment : bytes) : M ssh_krl unit := fun krl =>
  let set := fun v => mk_krl (krl_version krl) (krl_generated_date krl) (krl_flags krl) v
    (krl_revoked_keys krl) (krl_revoked_sha1s krl) (krl_revoked_certs krl) in
  if mem then (Ok tt, set (Some comment)) else (Err SSH_ERR_ALLOC_FAIL, set None).

(** Whether [rc] is the entry of a CA; [None] stands for NULL, any CA. *)
Definition for_ca (ca_key : option sshkey) (rc : revoked_certs) : bool :=
  (match ca_key, rc_ca_key rc with None, None => true | _, _ => false end) ||
  sshkey_equal (rc_ca_key rc) ca_key.

(** [*rcp] is the position in the list, [None] for NULL. *)
Definition revoked_certs_for_ca_key (mem : bool) (ca_key : option sshkey) (allow_create : bool)
    : M ssh_krl (option nat) := fun krl =>
  match list_find (fun rc => for_ca ca_key rc = true) (krl_revoked_certs krl) with
  | Some (i, _) => (Ok (Some i), krl)
  | None =>
      if negb allow_create then (Ok None, krl)
      else if negb mem then (Err SSH_ERR_ALLOC_FAIL, krl)
      else
        let create := fun ca =>
          (Ok (Some (length (krl_revoked_certs krl))),
           with_certs (krl_revoked_certs krl ++ [mk_revoked_certs ca [] []]) krl) in
        match ca_key with
        | None => create None
        | Some k =>
            match sshkey_from_private k with
            | Err r => (Err r, krl)
            | Ok k' => create (Some k')
            end
        end
  end.

(** Runs an operation on the entry at position [i]. *)
Definition on_entry (i : nat) (f : revoked_certs -> result unit * revoked_certs)
    : M ssh_krl unit := fun krl =>
  match krl_revoked_certs krl !! i with
  | None => (Err SSH_ERR_INTERNAL_ERROR, krl)
  | Some rc =>
      let '(r, rc) := f rc in (r, with_certs (<[i := rc]> (krl_revoked_certs krl)) krl)
  end.

Definition ssh_krl_revoke_cert_by_serial_range (pick : nat) (mem : bool)
    (ca_key : option sshkey) (lo hi : Z) : M ssh_krl unit :=
  if (hi <? lo) || (lo =? 0) then fail SSH_ERR_INVALID_ARGUMENT
  else
    let! rcp := revoked_certs_for_ca_key mem ca_key true in
    on_entry (default 0%nat rcp) (fun rc =>
      let '(r, rt) := insert_serial_range pick mem lo hi (rc_serials rc) in
      (r, mk_revoked_certs (rc_ca_key rc) rt (rc_key_ids rc))).

Definition ssh_krl_revoke_cert_by_serial (pick : nat) (mem : bool)
    (ca_key : option sshkey) (serial : Z) : M ssh_krl unit :=
  ssh_krl_revoke_cert_by_serial_range pick mem ca_key serial serial.

Definition ssh_krl_revoke_cert_by_key_id (mem : bool) (ca_key : option sshkey) (key_id : bytes)
    : M ssh_krl unit :=
  let! rcp := revoked_certs_for_ca_key mem ca_key true in
  if negb mem then fail SSH_ERR_ALLOC_FAIL
  else
    on_entry (default 0%nat rcp) (fun rc =>
      (Ok tt, mk_revoked_certs (rc_ca_key rc) (rc_serials rc)
                (fst (RB_INSERT key_id_cmp key_id (rc_key_ids rc))))).

Definition plain_key_blob (key : sshkey) : result bytes :=
  match sshkey_from_private key with
  | Err r => Err r
  | Ok kcopy =>
      if sshkey_is_cert kcopy then
        match sshkey_drop_cert kcopy with
        | Err r => Err r
        | Ok kcopy => sshkey_to_blob kcopy
        end
      else sshkey_to_blob kcopy
  end.

Definition revoke_blob (mem : bool) (blob : bytes) : M (list bytes) unit := fun rbt =>
  if negb mem then (Err SSH_ERR_ALLOC_FAIL, rbt)
  else (Ok tt, fst (RB_INSERT blob_cmp blob rbt)).

Definition ssh_krl_revoke_key_explicit (mem : bool) (key : sshkey) : M ssh_krl unit := fun krl =>
  match plain_key_blob key with
  | Err r => (Err r, krl)
  | Ok blob =>
      let '(r, t) := revoke_blob mem blob (krl_revoked_keys krl) in (r, with_keys t krl)
  end.

Definition ssh_krl_revoke_key_sha1 (mem : bool) (key : sshkey) : M ssh_krl unit := fun krl =>
  match sshkey_fingerprint_sha1 key with
  | Err r => (Err r, krl)
  | Ok blob =>
      let '(r, t) := revoke_blob mem blob (krl_revoked_sha1s krl) in (r, with_sha1s t krl)
  end.

Definition ssh_krl_revoke_key (pick : nat) (mem : bool) (key : sshkey) : M ssh_krl unit :=
  if negb (sshkey_is_cert key) then ssh_krl_revoke_key_sha1 mem key
  else if cert_serial key =? 0 then
    ssh_krl_revoke_cert_by_key_id mem (Some (cert_signature_key key)) (cert_key_id key)
  else
    ssh_krl_revoke_cert_by_serial pick mem (Some (cert_signature_key key)) (cert_serial key).

(** ** Checking *)

Definition is_cert_revoked (key : sshkey) (rc : revoked_certs) : result unit :=
  match RB_FIND key_id_cmp (cert_key_id key) (rc_key_ids rc) with
  | Some _ => Err SSH_ERR_KEY_REVOKED
  | None =>
      if cert_serial key =? 0 then Ok tt
      else
        match RB_FIND serial_cmp (cert_serial key, cert_serial key) (rc_serials rc) with
        | Some _ => Err SSH_ERR_KEY_REVOKED
        | None => Ok tt
        end
  end.

(** The entry of a CA, without creating it. *)
Definition entry_for (krl : ssh_krl) (ca_key : option sshkey) : option revoked_certs :=
  match fst (revoked_certs_for_ca_key true ca_key false krl) with
  | Ok (Some i) => krl_revoked_certs krl !! i
  | _ => None
  end.

Definition is_key_revoked (krl : ssh_krl) (key : sshkey) : result unit :=
  match sshkey_fingerprint_sha1 key with
  | Err r => Err r
  | Ok blob =>
      match RB_FIND blob_cmp blob (krl_revoked_sha1s krl) with
      | Some _ => Err SSH_ERR_KEY_REVOKED
      | None =>
          match plain_key_blob key with
          | Err r => Err r
          | Ok blob =>
              match RB_FIND blob_cmp blob (krl_revoked_keys krl) with
              | Some _ => Err SSH_ERR_KEY_REVOKED
              | None =>
                  if negb (sshkey_is_cert key) then Ok tt
                  else
                    let check := fun ca =>
                      match entry_for krl ca with
                      | Some rc => is_cert_revoked key rc
                      | None => Ok tt
                      end in
                    match check (Some (cert_signature_key key)) with
                    | Err r => Err r
                    | Ok _ => check None
                    end
              end
          end
      end
  end.

Definition ssh_krl_check_key (krl : ssh_krl) (key : sshkey) : result unit :=
  match is_key_revoked krl key with
  | Err r => Err r
  | Ok _ =>
      if sshkey_is_cert key then is_key_revoked krl (cert_signature_key key) else Ok tt
  end.
End krl.
Arguments revoked_certs : clear implicits.
Arguments ssh_krl : clear implicits.

(** * Properties *)

(** ** The order of the trees of names and blobs *)

Lemma strcmp_values a b : strcmp a b = -1 \/ strcmp a b = 0 \/ strcmp a b = 1.
Proof.
  revert b; induction a as [|x a IH]; intros [|y b]; simpl; [lia..|].
  destruct (x =? y); [apply IH|]. destruct (x <? y); lia.
Qed.

Lemma strcmp_0 a b : strcmp a b = 0 <-> a = b.
Proof.
  revert b; induction a as [|x a IH]; intros [|y b]; simpl; try (split; [lia|done]); [done|].
  destruct (Z.eqb_spec x y) as [->|].
  - rewrite IH. split; [by intros ->|by intros [= ->]].
  - destruct (x <? y); split; (lia || congruence).
Qed.

Lemma strcmp_trans a b c : strcmp a b < 0 -> strcmp b c < 0 -> strcmp a c < 0.
Proof.
  revert b c; induction a as [|x a IH]; intros [|y b] [|z c]; simpl; try lia.
  destruct (Z.eqb_spec x y), (Z.eqb_spec y z), (Z.eqb_spec x z); try lia; [by apply IH|..];
    destruct (Z.ltb_spec x y), (Z.ltb_spec y z), (Z.ltb_spec x z); lia.
Qed.

Lemma strcmp_gt a b : 0 < strcmp a b -> strcmp b a < 0.
Proof.
  revert b; induction a as [|x a IH]; intros [|y b]; simpl; try lia.
  rewrite (Z.eqb_sym y x). destruct (Z.eqb_spec x y); [apply IH|].
  destruct (Z.ltb_spec x y), (Z.ltb_spec y x); lia.
Qed.

Lemma memcmp_strcmp a b n :
  (n <= length a)%nat -> (n <= length b)%nat -> memcmp a b n = strcmp (take n a) (take n b).
Proof.
  revert b n; induction a as [|x a IH]; intros [|y b] [|n]; simpl; intros; try (done || lia).
  by rewrite IH by lia.
Qed.

Lemma blob_cmp_strcmp a b : blob_cmp a b = strcmp a b.
Proof.
  unfold blob_cmp. destruct (Z.eqb_spec (zlen a) (zlen b)) as [He|Hne]; simpl.
  - rewrite memcmp_strcmp by (unfold zlen in *; lia).
    by rewrite take_ge, (take_ge b) by (unfold zlen in *; lia).
  - unfold zlen in *. rewrite memcmp_strcmp by lia.
    replace (Z.to_nat _) with (length a `min` length b)%nat by lia.
    revert b Hne; induction a as [|x a IH]; intros [|y b] Hne; simpl in *; try lia; [done..|].
    destruct (x =? y); [|by destruct (x <? y)].
    rewrite <- IH by lia. clear IH. destruct (strcmp _ _ =? 0); simpl; [|done].
    destruct (Z.ltb_spec (Z.of_nat (length b)) (Z.of_nat (length a)));
      destruct (Z.ltb_spec (Z.of_nat (S (length b))) (Z.of_nat (S (length a)))); lia.
Qed.

Definition lex_lt (a b : bytes) : Prop := strcmp a b < 0.
(** The nodes of a tree of names or blobs, in order. *)
Definition sorted : list bytes -> Prop := StronglySorted lex_lt.

Section insertion.
Context (cmp : bytes -> bytes -> Z) (Hcmp : forall a b, cmp a b = strcmp a b).

Lemma insert_in x l y : y ∈ fst (RB_INSERT cmp x l) <-> y = x \/ y ∈ l.
Proof.
  induction l as [|z l IH]; simpl; [set_solver|].
  rewrite Hcmp. destruct (Z.eqb_spec (strcmp x z) 0) as [->%strcmp_0|]; simpl; [set_solver|].
  destruct (strcmp x z <? 0); simpl; [set_solver|].
  destruct (RB_INSERT cmp x l) as [l' e]; simpl in *. set_solver.
Qed.

Lemma insert_sorted x l : sorted l -> sorted (fst (RB_INSERT cmp x l)).
Proof.
  unfold sorted. induction 1 as [|z l Hs IH Hz]; simpl.
  { constructor; [constructor|done]. }
  rewrite Hcmp. destruct (Z.eqb_spec (strcmp x z) 0) as [|Hne]; simpl; [by constructor|].
  destruct (Z.ltb_spec (strcmp x z) 0) as [Hlt|Hge]; simpl.
  - constructor; [by constructor|]. constructor; [done|].
    eapply Forall_impl; [done|]. intros w Hw. by eapply strcmp_trans.
  - pose proof (insert_in x l) as Hin.
    destruct (RB_INSERT cmp x l) as [l' e]; simpl in *. constructor; [done|].
    rewrite Forall_forall in Hz |- *. intros w [->|Hw]%Hin; [|by apply Hz].
    apply strcmp_gt. lia.
Qed.

Lemma find_some_in x l : RB_FIND cmp x l = if decide (x ∈ l) then Some x else None.
Proof.
  unfold RB_FIND. induction l as [|z l IH]; simpl; [done|].
  rewrite Hcmp. destruct (Z.eqb_spec (strcmp x z) 0) as [->%strcmp_0|Hne].
  - by rewrite decide_True by set_solver.
  - rewrite IH. rewrite strcmp_0 in Hne. repeat case_decide; set_solver.
Qed.
End insertion.

Lemma key_id_cmp_strcmp a b : key_id_cmp a b = strcmp a b.
Proof. done. Qed.

(** ** The set of serial numbers *)

Definition range_ok (r : range) : Prop := 0 <= fst r <= snd r /\ snd r < 2 ^ 64.
Definition before_gap (a b : range) : Prop := snd a + 1 < fst b.
(** The tree of serial numbers: disjoint intervals in order, no two of which abut. *)
Definition serials_ok (l : list range) : Prop :=
  Forall range_ok l /\ StronglySorted before_gap l.
Definition covered (n : Z) (l : list range) : Prop := Exists (fun r => fst r <= n <= snd r) l.

Lemma covered_cons n r l : covered n (r :: l) <-> fst r <= n <= snd r \/ covered n l.
Proof. apply Exists_cons. Qed.
Lemma covered_app n l k : covered n (l ++ k) <-> covered n l \/ covered n k.
Proof. apply Exists_app. Qed.
Lemma covered_nil n : covered n [] <-> False.
Proof. apply Exists_nil. Qed.
Lemma covered_rev n l : covered n (rev l) <-> covered n l.
Proof. unfold covered. rewrite !List.Exists_exists. setoid_rewrite <- in_rev. done. Qed.

Lemma serial_cmp_0 a b : serial_cmp a b = 0 <-> fst b <= snd a /\ fst a <= snd b.
Proof.
  unfold serial_cmp. destruct (Z.leb_spec (fst b) (snd a)), (Z.leb_spec (fst a) (snd b));
    simpl; try destruct (fst a <? fst b); split; lia.
Qed.

Lemma serial_cmp_neg a b :
  range_ok a -> range_ok b -> serial_cmp a b < 0 <-> snd a < fst b.
Proof.
  unfold range_ok, serial_cmp. intros.
  destruct (Z.leb_spec (fst b) (snd a)), (Z.leb_spec (fst a) (snd b));
    simpl; try destruct (Z.ltb_spec (fst a) (fst b)); split; lia.
Qed.

Lemma StronglySorted_app {A} (R : A -> A -> Prop) l k :
  StronglySorted R (l ++ k) <->
  StronglySorted R l /\ StronglySorted R k /\ Forall (fun x => Forall (R x) k) l.
Proof.
  induction l as [|x l IH]; simpl.
  { split; [intros; by repeat split; [constructor| |constructor]|tauto]. }
  split.
  - inversion 1 as [|? ? Hs Hf]; subst. apply IH in Hs as (?&?&?).
    rewrite Forall_app in Hf. destruct Hf. split_and!; [by constructor|done|by constructor].
  - intros (Hl&Hk&Hf). inversion Hl; subst. inversion Hf; subst.
    constructor; [apply IH; done|]. by rewrite Forall_app.
Qed.

(** The loop over the predecessors takes a run of them away and covers the same
    numbers. *)
Lemma merge_pred_spec p a b q a' :
  merge_pred (rev p) a = (q, a') ->
  serials_ok p -> Forall (fun r => snd r <= b) p -> 0 <= a <= b -> b < 2 ^ 64 ->
  (exists k, p = rev q ++ k) /\ 0 <= a' <= a /\ Forall (fun r => snd r + 1 < a') q /\
  forall n, covered n q \/ a' <= n <= b <-> covered n p \/ a <= n <= b.
Proof.
  revert a. induction p as [|r p IH] using rev_ind; intros a.
  { simpl. intros [= <- <-] _ _ ? ?. split_and!; [by exists []|lia|lia|done|done]. }
  rewrite rev_app_distr. cbn [rev app merge_pred].
  intros Hm [Hok Hs] Hb Ha Hlt.
  rewrite Forall_app, Forall_singleton in Hok. destruct Hok as [Hok [Hr0 Hr1]].
  rewrite Forall_app, Forall_singleton in Hb. destruct Hb as [Hb Hrb].
  apply StronglySorted_app in Hs as (Hs&_&Hg).
  destruct (negb (a =? 0) && (snd r <? u64 (a - 1))) eqn:Hc.
  - injection Hm as <- <-.
    apply andb_true_iff in Hc as [Hz%negb_true_iff%Z.eqb_neq Hc].
    rewrite wrap_small in Hc by lia. apply Z.ltb_lt in Hc.
    split_and!; [|lia|lia| |].
    + exists []. cbn [rev]. by rewrite app_nil_r, rev_involutive.
    + constructor; [lia|]. apply Forall_rev. eapply Forall_impl; [exact Hg|].
      intros x Hx. rewrite Forall_singleton in Hx. unfold before_gap in Hx. lia.
    + intros n. change (r :: rev p) with ([r] ++ rev p). rewrite !covered_app, covered_rev. tauto.
  - assert (a <= snd r + 1).
    { apply andb_false_iff in Hc as [Hc|Hc].
      - apply negb_false_iff, Z.eqb_eq in Hc. lia.
      - destruct (decide (a = 0)); [lia|]. rewrite wrap_small in Hc by lia.
        apply Z.ltb_ge in Hc. lia. }
    apply IH in Hm as ([k Hk]&Ha'&Hq&Hcov); [|done..| |done].
    2:{ destruct (Z.ltb_spec (fst r) a); lia. }
    split_and!; [|lia| |done|].
    + exists (k ++ [r]). by rewrite app_assoc, <- Hk.
    + destruct (Z.ltb_spec (fst r) a); lia.
    + intros n. rewrite Hcov, covered_app, covered_cons, covered_nil.
      clear -Hrb Hr0 Ha H. destruct (Z.ltb_spec (fst r) a); destruct (decide (n < a)); intuition lia.
Qed.

Lemma merge_succ_spec s a b q b' :
  merge_succ s b = (q, b') ->
  serials_ok s -> Forall (fun r => a <= fst r) s -> a <= b -> 0 <= a -> b < 2 ^ 64 ->
  (exists k, s = k ++ q) /\ b <= b' /\ b' < 2 ^ 64 /\ Forall (fun r => b' + 1 < fst r) q /\
  forall n, covered n q \/ a <= n <= b' <-> covered n s \/ a <= n <= b.
Proof.
  revert b. induction s as [|r s IH]; intros b.
  { simpl. intros [= <- <-] _ _ ? ? ?. split_and!; [by exists []|lia|lia|done|done]. }
  cbn [merge_succ].
  intros Hm [Hok Hs] Ha Hb Ha0 Hlt.
  inversion_clear Hok as [|? ? [Hr0 Hr1] Hok']. inversion_clear Hs as [|? ? Hs' Hg].
  inversion_clear Ha as [|? ? Hra Ha'].
  destruct (negb (b =? 2 ^ 64 - 1) && (u64 (b + 1) <? fst r)) eqn:Hc.
  - injection Hm as <- <-.
    apply andb_true_iff in Hc as [Hz%negb_true_iff%Z.eqb_neq Hc].
    rewrite wrap_small in Hc by lia. apply Z.ltb_lt in Hc.
    split_and!; [by exists []|lia|lia| |tauto].
    constructor; [lia|]. eapply Forall_impl; [exact Hg|].
    intros y Hx. unfold before_gap in Hx. lia.
  - assert (fst r <= b + 1).
    { apply andb_false_iff in Hc as [Hc|Hc].
      - apply negb_false_iff, Z.eqb_eq in Hc. lia.
      - destruct (decide (b = 2 ^ 64 - 1)); [lia|]. rewrite wrap_small in Hc by lia.
        apply Z.ltb_ge in Hc. lia. }
    apply IH in Hm as ([k ->]&Hb'&?&Hq&Hcov);
      [|done|done|destruct (Z.ltb_spec b (snd r)); lia|done|destruct (Z.ltb_spec b (snd r)); lia].
    split_and!; [by exists (r :: k)| |done|done|].
    + destruct (Z.ltb_spec b (snd r)); lia.
    + intros n. rewrite Hcov, covered_cons.
      clear -Hra Hr0 Hb H. destruct (Z.ltb_spec b (snd r)); destruct (decide (b < n)); intuition lia.
Qed.

(** Two trees that cover the same numbers are the same. *)
Lemma serials_ok_cons r l :
  serials_ok (r :: l) <-> range_ok r /\ serials_ok l /\ Forall (before_gap r) l.
Proof.
  unfold serials_ok. split.
  - intros [Hf Hs]. inversion Hf; inversion Hs; subst. tauto.
  - intros (?&[??]&?). split; by constructor.
Qed.

Lemma covered_ge r l n : serials_ok (r :: l) -> covered n (r :: l) -> fst r <= n.
Proof.
  intros (Hr&[Hok Hs]&Hg)%serials_ok_cons [?|Hc]%covered_cons; [lia|].
  unfold covered in Hc. apply List.Exists_exists in Hc as (x&Hx%list_elem_of_In&?).
  rewrite Forall_forall in Hg, Hok. specialize (Hg x Hx). specialize (Hok x Hx).
  unfold before_gap, range_ok in *. lia.
Qed.

Lemma covered_after r l n :
  serials_ok (r :: l) -> n <= snd r + 1 -> covered n l -> False.
Proof.
  intros (Hr&[Hok Hs]&Hg)%serials_ok_cons Hn Hc.
  apply List.Exists_exists in Hc as (x&Hx%list_elem_of_In&?).
  rewrite Forall_forall in Hg. specialize (Hg x Hx). unfold before_gap in Hg. lia.
Qed.

Lemma serials_canonical l k :
  serials_ok l -> serials_ok k -> (forall n, covered n l <-> covered n k) -> l = k.
Proof.
  revert k. induction l as [|[a b] l IH]; intros [|[a' b'] k] Hl Hk Heq; [done|..].
  - exfalso. pose proof Hk as ([? ?]&_)%serials_ok_cons. simpl in *.
    apply (covered_nil a'), Heq, covered_cons. simpl; lia.
  - exfalso. pose proof Hl as ([? ?]&_)%serials_ok_cons. simpl in *.
    apply (covered_nil a), Heq, covered_cons. simpl; lia.
  - pose proof Hl as ([? ?]&Hl'&_)%serials_ok_cons. pose proof Hk as ([? ?]&Hk'&_)%serials_ok_cons.
    simpl in *.
    assert (a = a') as <-.
    { assert (a <= a') by (apply (covered_ge _ _ a' Hl), Heq, covered_cons; simpl; lia).
      assert (a' <= a) by (apply (covered_ge _ _ a Hk), Heq, covered_cons; simpl; lia). lia. }
    assert (b = b') as <-.
    { destruct (Z.lt_trichotomy b b') as [Hlt|[?|Hlt]]; [|done|]; exfalso.
      - assert (covered (b + 1) ((a, b) :: l)) as [?|Hc]%covered_cons.
        { apply Heq, covered_cons. simpl; lia. }
        + simpl in *. lia.
        + eapply covered_after; [exact Hl| |exact Hc]. simpl; lia.
      - assert (covered (b' + 1) ((a, b') :: k)) as [?|Hc]%covered_cons.
        { apply Heq, covered_cons. simpl; lia. }
        + simpl in *. lia.
        + eapply covered_after; [exact Hk| |exact Hc]. simpl; lia. }
    f_equal. apply IH; [done..|]. intros n. split; intros Hc.
    + assert (covered n ((a, b) :: k)) as [Hin|?]%covered_cons; [|exfalso|done].
      { apply Heq, covered_cons; by right. }
      simpl in Hin. eapply covered_after; [exact Hl| |exact Hc]. simpl; lia.
    + assert (covered n ((a, b) :: l)) as [Hin|?]%covered_cons; [|exfalso|done].
      { apply Heq, covered_cons; by right. }
      simpl in Hin. eapply covered_after; [exact Hk| |exact Hc]. simpl; lia.
Qed.

Lemma overlapping_in rs k l i :
  i ∈ overlapping rs k l <->
  exists j y, i = (k + j)%nat /\ l !! j = Some y /\ serial_cmp rs y = 0.
Proof.
  revert k. induction l as [|z l IH]; intros k; simpl.
  { split; [by intros ?%not_elem_of_nil|by intros (?&?&_&?&_)]. }
  assert (Hind : i ∈ overlapping rs (S k) l <->
          exists j y, i = (k + S j)%nat /\ l !! j = Some y /\ serial_cmp rs y = 0).
  { rewrite IH. split; intros (j&y&->&?&?); exists j, y; split_and!; done || lia. }
  destruct (Z.eqb_spec (serial_cmp rs z) 0) as [Hz|Hz]; [rewrite elem_of_cons|]; rewrite Hind.
  - split.
    + intros [->|(j&y&?&?&?)]; [exists 0%nat, z; split_and!; done || lia|by exists (S j), y].
    + intros ([|j]&y&?&?&?); [left; lia|right; by exists j, y].
  - split; [intros (j&y&?&?&?); by exists (S j), y|].
    intros ([|j]&y&?&Hy&?); [|by exists j, y]. by injection Hy as ->.
Qed.

Lemma first_greater_spec rs k l :
  range_ok rs -> serials_ok l -> overlapping rs k l = [] ->
  exists p s, l = p ++ s /\ first_greater rs k l = (k + length p)%nat /\
    Forall (fun y => snd y < fst rs) p /\ Forall (fun y => snd rs < fst y) s.
Proof.
  intros Hrs. revert k. induction l as [|z l IH]; intros k Hok Ho.
  { exists [], []. split_and!; simpl; done || lia. }
  simpl in *. apply serials_ok_cons in Hok as (Hz&Hl&Hg).
  destruct (Z.eqb_spec (serial_cmp rs z) 0) as [|Hne]; [done|].
  destruct (Z.ltb_spec (serial_cmp rs z) 0) as [Hlt|Hge].
  - apply serial_cmp_neg in Hlt; [|done..]. exists [], (z :: l).
    split_and!; simpl; [done|lia|done|]. constructor; [done|].
    eapply Forall_impl; [exact Hg|]. unfold before_gap, range_ok in *. intros; lia.
  - destruct (IH (S k) Hl Ho) as (p&s&->&->&Hp&Hs).
    exists (z :: p), s. split_and!; simpl; [done|lia| |done]. constructor; [|done].
    rewrite serial_cmp_0 in Hne. pose proof (serial_cmp_neg rs z Hrs Hz).
    unfold range_ok in *. lia.
Qed.

(** What RB_NFIND finds: a node that overlaps, or the place of a new node. *)
Lemma RB_NFIND_spec pick rs l :
  range_ok rs -> serials_ok l ->
  let i := RB_NFIND pick rs l in
  (exists p e s, l = p ++ e :: s /\ i = length p /\ serial_cmp rs e = 0) \/
  (exists p s, l = p ++ s /\ i = length p /\
    Forall (fun y => snd y < fst rs) p /\ Forall (fun y => snd rs < fst y) s).
Proof.
  intros Hrs Hl. unfold RB_NFIND. destruct (overlapping rs 0 l) as [|i more] eqn:Ho.
  - right. destruct (first_greater_spec rs 0 l Hrs Hl Ho) as (p&s&->&->&?&?).
    by exists p, s.
  - left. set (n := nth _ _ _).
    assert (n ∈ overlapping rs 0 l) as (j&y&Hj&Hy&?)%overlapping_in.
    { rewrite Ho. apply list_elem_of_In, nth_In, Nat.mod_upper_bound. done. }
    clearbody n. subst. exists (take j l), y, (drop (S j) l).
    split_and!; [by rewrite take_drop_middle| |done].
    apply lookup_lt_Some in Hy. rewrite length_take. lia.
Qed.

Lemma serials_ok_app l k :
  serials_ok (l ++ k) <->
  serials_ok l /\ serials_ok k /\ Forall (fun x => Forall (before_gap x) k) l.
Proof. unfold serials_ok. rewrite Forall_app, StronglySorted_app. tauto. Qed.

(** Coalescing a node with its neighbours. *)
Lemma coalesce_spec p a b s q a' q' b' :
  serials_ok p -> serials_ok s ->
  Forall (fun r => snd r <= b) p -> Forall (fun r => a <= fst r) s ->
  0 <= a <= b -> b < 2 ^ 64 ->
  merge_pred (rev p) a = (q, a') -> merge_succ s b = (q', b') ->
  Forall (fun x => Forall (before_gap x) s) p ->
  serials_ok (rev q ++ (a', b') :: q') /\
  forall n, covered n (rev q ++ (a', b') :: q') <-> covered n p \/ a <= n <= b \/ covered n s.
Proof.
  intros Hp Hs Hpb Hsa Hab Hlt Hm1 Hm2 Hps.
  destruct (merge_pred_spec p a b q a' Hm1) as ([k Hk]&Ha'&Hq&Hc1); [done..|].
  destruct (merge_succ_spec s a b q' b' Hm2) as ([k' Hk']&Hb'&Hlt'&Hq'&Hc2); [done|done|lia..|].
  rewrite Hk in Hp, Hps. rewrite Hk' in Hs, Hps.
  apply serials_ok_app in Hp as (Hp&_&_). apply serials_ok_app in Hs as (_&Hs&_).
  split.
  - apply serials_ok_app. split_and!; [done| |].
    + apply serials_ok_cons. split_and!; [unfold range_ok; simpl; lia|done|].
      eapply Forall_impl; [exact Hq'|]. unfold before_gap. simpl. intros; lia.
    + apply Forall_app in Hps as [Hps _].
      apply Forall_rev in Hq. rewrite Forall_forall in *.
      intros x Hx. apply Forall_cons. split; [apply Hq, Hx|].
      specialize (Hps x Hx). by rewrite Forall_app in Hps; apply Hps.
  - intros n. rewrite covered_app, covered_cons, covered_rev. simpl.
    specialize (Hc1 n). specialize (Hc2 n). clear -Hc1 Hc2 Ha' Hb' Hab.
    destruct (decide (n <= b)), (decide (a <= n)); intuition lia.
Qed.

(** [rt'] is the tree of the numbers of [rt] and lo..hi. *)
Definition serials_plus (rt : list range) (lo hi : Z) (rt' : list range) : Prop :=
  serials_ok rt' /\ forall n, covered n rt' <-> covered n rt \/ lo <= n <= hi.

Lemma serials_plus_unique rt lo hi l k :
  serials_plus rt lo hi l -> serials_plus rt lo hi k -> l = k.
Proof.
  intros [Hl Hcl] [Hk Hck]. apply serials_canonical; [done..|].
  intros n. by rewrite Hcl, Hck.
Qed.

Lemma insert_overlap p e s lo hi q a' q' b' :
  serials_ok (p ++ e :: s) -> 0 <= lo <= hi -> hi < 2 ^ 64 -> serial_cmp (lo, hi) e = 0 ->
  merge_pred (rev p) (if lo <? fst e then lo else fst e) = (q, a') ->
  merge_succ s (if snd e <? hi then hi else snd e) = (q', b') ->
  serials_plus (p ++ e :: s) lo hi (rev q ++ (a', b') :: q').
Proof.
  intros Hrt Hlo Hhi Ho%serial_cmp_0 Hm1 Hm2. simpl in Ho.
  apply serials_ok_app in Hrt as (Hp&He&Hg). apply serials_ok_cons in He as (He&Hs&Hg').
  unfold range_ok in He.
  destruct (coalesce_spec p (if lo <? fst e then lo else fst e)
    (if snd e <? hi then hi else snd e) s q a' q' b' Hp Hs) as [Hok Hcov];
    [| | | |exact Hm1|exact Hm2| |split; [exact Hok|]].
  - eapply Forall_impl; [exact Hg|]. intros x Hx.
    apply Forall_inv in Hx. unfold before_gap in Hx. destruct (Z.ltb_spec (snd e) hi); lia.
  - eapply Forall_impl; [exact Hg'|]. unfold before_gap. intros x Hx.
    destruct (Z.ltb_spec lo (fst e)); lia.
  - destruct (Z.ltb_spec lo (fst e)), (Z.ltb_spec (snd e) hi); lia.
  - destruct (Z.ltb_spec (snd e) hi); lia.
  - eapply Forall_impl; [exact Hg|]. intros x Hx. by inversion Hx.
  - intros n. rewrite Hcov, !covered_app, covered_cons.
    clear -Ho He Hlo. destruct (Z.ltb_spec lo (fst e)), (Z.ltb_spec (snd e) hi);
      destruct (decide (n < fst e)), (decide (snd e < n)); intuition lia.
Qed.

Lemma insert_apart p s lo hi q a' q' b' :
  serials_ok (p ++ s) -> 0 <= lo <= hi -> hi < 2 ^ 64 ->
  Forall (fun y => snd y < lo) p -> Forall (fun y => hi < fst y) s ->
  merge_pred (rev p) lo = (q, a') -> merge_succ s hi = (q', b') ->
  serials_plus (p ++ s) lo hi (rev q ++ (a', b') :: q').
Proof.
  intros Hrt Hlo Hhi Hp Hs Hm1 Hm2. apply serials_ok_app in Hrt as (Hp'&Hs'&Hg).
  destruct (coalesce_spec p lo hi s q a' q' b' Hp' Hs') as [Hok Hcov];
    [| |done..|split; [done|]].
  - eapply Forall_impl; [exact Hp|]. simpl. intros; lia.
  - eapply Forall_impl; [exact Hs|]. simpl. intros; lia.
  - intros n. rewrite Hcov, covered_app. tauto.
Qed.

Lemma insert_serial_range_ok pick mem lo hi rt :
  serials_ok rt -> 0 <= lo <= hi -> hi < 2 ^ 64 ->
  match insert_serial_range pick mem lo hi rt with
  | (Ok _, rt') =>
      serials_plus rt lo hi rt' /\ forall l, serials_plus rt lo hi l -> l = rt'
  | (Err e, rt') =>
      mem = false /\ e = SSH_ERR_ALLOC_FAIL /\ rt' = rt /\
      forall n, lo <= n <= hi -> ~ covered n rt
  end.
Proof.
  intros Hrt Hlo Hhi. unfold insert_serial_range.
  destruct (RB_NFIND_spec pick (lo, hi) rt) as [(p&e&s&->&Hi&Ho)|(p&s&->&Hi&Hp&Hs)];
    [done|done|..]; cbv zeta in Hi; rewrite Hi.
  - rewrite list_lookup_middle by done.
    apply serial_cmp_0 in Ho as Ho'. simpl in Ho'.
    assert (serial_cmp e (lo, hi) = 0) as -> by (apply serial_cmp_0; simpl; lia). simpl.
    rewrite take_app_length.
    replace (drop (S (length p)) (p ++ e :: s)) with s
      by (change (e :: s) with ([e] ++ s); rewrite app_assoc, drop_app_length'; [done|];
          rewrite length_app; simpl; lia).
    destruct (merge_pred _ _) as [q a'] eqn:Hm1, (merge_succ _ _) as [q' b'] eqn:Hm2.
    pose proof (insert_overlap _ _ _ _ _ _ _ _ _ Hrt Hlo Hhi Ho Hm1 Hm2).
    split; [done|]. intros; by eapply serials_plus_unique.
  - rewrite lookup_app_r, Nat.sub_diag, take_app_length, drop_app_length by done.
    match goal with |- match (match ?x with _ => _ end) with _ => _ end => assert (x = inl tt) as -> end.
    { destruct s as [|r s]; [done|]. simpl. inversion Hs; subst.
      destruct (Z.eqb_spec (serial_cmp r (lo, hi)) 0) as [Hz%serial_cmp_0|]; [|done].
      simpl in *. lia. }
    simpl in Hp, Hs. destruct mem; simpl.
    + destruct (merge_pred _ _) as [q a'] eqn:Hm1, (merge_succ _ _) as [q' b'] eqn:Hm2.
      pose proof (insert_apart _ _ _ _ _ _ _ _ Hrt Hlo Hhi Hp Hs Hm1 Hm2).
      split; [done|]. intros; by eapply serials_plus_unique.
    + split_and!; [done..|]. intros n Hn [Hc|Hc]%covered_app;
        apply List.Exists_exists in Hc as (x&Hx%list_elem_of_In&?).
      * rewrite Forall_forall in Hp. specialize (Hp x Hx). lia.
      * rewrite Forall_forall in Hs. specialize (Hs x Hx). lia.
Qed.

(** [insert_serial_range] turns the tree of revoked serial numbers into the
    one that covers exactly the old numbers and lo..hi, again as disjoint
    intervals in order of which no two abut, and fails with nothing changed
    only if a new node is needed and memory ran out.  The tree that results
    is the only one with these properties, whichever of several overlapping
    nodes RB_NFIND finds. *)
Theorem insert_serial_range_spec pick mem lo hi rt :
  serials_ok rt -> 0 <= lo <= hi -> hi < 2 ^ 64 ->
  match insert_serial_range pick mem lo hi rt with
  | (Ok _, rt') =>
      serials_plus rt lo hi rt' /\ forall l, serials_plus rt lo hi l -> l = rt'
  | (Err e, rt') =>
      mem = false /\ e = SSH_ERR_ALLOC_FAIL /\ rt' = rt /\
      forall n, lo <= n <= hi -> ~ covered n rt
  end.
Proof.
  intros Hrt Hlo Hhi. apply insert_serial_range_ok; done.
Qed.

Lemma insert_serial_range_spec_witness :
  fst (insert_serial_range 1 false 4 9 [(1, 5); (8, 11); (20, 20)]) = Ok tt /\
  match insert_serial_range 1 false 4 9 [(1, 5); (8, 11); (20, 20)] with
  | (Ok _, rt') =>
      serials_plus [(1, 5); (8, 11); (20, 20)] 4 9 rt' /\
      forall l, serials_plus [(1, 5); (8, 11); (20, 20)] 4 9 l -> l = rt'
  | (Err e, rt') =>
      false = false /\ e = SSH_ERR_ALLOC_FAIL /\ rt' = [(1, 5); (8, 11); (20, 20)] /\
      forall n, 4 <= n <= 9 -> ~ covered n [(1, 5); (8, 11); (20, 20)]
  end.
Proof.
  split; [reflexivity|]. apply (insert_serial_range_spec 1 false 4 9); [|lia|lia].
  split.
  - repeat (apply Forall_cons; split; [unfold range_ok; simpl; lia|]). constructor.
  - repeat (constructor; [|repeat (apply Forall_cons; split; [unfold before_gap; simpl; lia|]); constructor]).
    constructor.
Defined.

(** ** Revoking and checking *)

(** What the code relies on of sshkey.c: [sshkey_equal] is false when a key is
    NULL, is an equivalence of keys, and a copy is equal to the original. *)
Class KeyLaws (sshkey : Type) `{KeyOps sshkey} := {
  sshkey_equal_null_l k : sshkey_equal None k = false;
  sshkey_equal_null_r k : sshkey_equal k None = false;
  sshkey_equal_sym a b : sshkey_equal a b = sshkey_equal b a;
  sshkey_equal_trans a b c :
    sshkey_equal a b = true -> sshkey_equal b c = true -> sshkey_equal a c = true;
  sshkey_from_private_equal k k' :
    sshkey_from_private k = Ok k' -> sshkey_equal (Some k') (Some k) = true
}.

Section laws.
Context {sshkey : Type} `{KeyLaws sshkey}.

(** Two CA arguments that name the same entry. *)
Definition same_ca (a b : option sshkey) : bool :=
  match a, b with None, None => true | _, _ => sshkey_equal a b end.

Lemma for_ca_same a rc : for_ca a rc = same_ca (rc_ca_key rc) a.
Proof.
  unfold for_ca, same_ca. destruct a as [a|], (rc_ca_key rc) as [b|]; done.
Qed.

Lemma same_ca_sym a b : same_ca a b = same_ca b a.
Proof. destruct a, b; simpl; done || apply sshkey_equal_sym. Qed.

Lemma same_ca_trans a b c : same_ca a b = true -> same_ca b c = true -> same_ca a c = true.
Proof.
  destruct a, b, c; simpl; try done; rewrite ?sshkey_equal_null_l, ?sshkey_equal_null_r;
    try done. apply sshkey_equal_trans.
Qed.

Lemma same_ca_trans_eq a b c : same_ca a b = true -> same_ca a c = same_ca b c.
Proof.
  intros Hab. apply eq_bool_prop_intro. rewrite !Is_true_true. split; intros.
  - apply (same_ca_trans b a c); [by rewrite same_ca_sym|done].
  - by apply (same_ca_trans a b c).
Qed.

(** The operations of a revoker: what ssh-keygen -k and the parser call.  The
    booleans say whether memory is available for the entry and for the node. *)
Inductive krl_op : Type :=
| RevokeSerials (pick : nat) (mem : bool) (ca : option sshkey) (lo hi : Z)
| RevokeKeyId (mem : bool) (ca : option sshkey) (key_id : bytes)
| RevokeExplicit (mem : bool) (key : sshkey)
| RevokeSha1 (mem : bool) (key : sshkey)
| RevokeKey (pick : nat) (mem : bool) (key : sshkey).

Definition exec_op (op : krl_op) : M (ssh_krl sshkey) unit :=
  match op with
  | RevokeSerials pick mem ca lo hi => ssh_krl_revoke_cert_by_serial_range pick mem ca lo hi
  | RevokeKeyId mem ca id => ssh_krl_revoke_cert_by_key_id mem ca id
  | RevokeExplicit mem k => ssh_krl_revoke_key_explicit mem k
  | RevokeSha1 mem k => ssh_krl_revoke_key_sha1 mem k
  | RevokeKey pick mem k => ssh_krl_revoke_key pick mem k
  end.

(** Runs the operations, each whether or not the ones before it failed: the
    operations that succeeded, latest first, and the list. *)
Fixpoint exec_ops (ops done : list krl_op) (krl : ssh_krl sshkey)
    : list krl_op * ssh_krl sshkey :=
  match ops with
  | [] => (done, krl)
  | op :: ops =>
      match exec_op op krl with
      | (Ok _, krl) => exec_ops ops (op :: done) krl
      | (Err _, krl) => exec_ops ops done krl
      end
  end.

(** Serial numbers are 64 bits. *)
Definition op_ok (op : krl_op) : Prop :=
  match op with
  | RevokeSerials _ _ _ lo hi => in_range 64 lo /\ in_range 64 hi
  | RevokeKey _ _ k => in_range 64 (cert_serial k)
  | _ => True
  end.

(** What an operation revokes: specification. *)
Definition names_serial (op : krl_op) (ca : option sshkey) (n : Z) : Prop :=
  match op with
  | RevokeSerials _ _ ca' lo hi => same_ca ca' ca = true /\ lo <= n <= hi
  | RevokeKey _ _ k =>
      sshkey_is_cert k = true /\ cert_serial k <> 0 /\
      same_ca (Some (cert_signature_key k)) ca = true /\ n = cert_serial k
  | _ => False
  end.
Definition names_key_id (op : krl_op) (ca : option sshkey) (id : bytes) : Prop :=
  match op with
  | RevokeKeyId _ ca' id' => same_ca ca' ca = true /\ id = id'
  | RevokeKey _ _ k =>
      sshkey_is_cert k = true /\ cert_serial k = 0 /\
      same_ca (Some (cert_signature_key k)) ca = true /\ id = cert_key_id k
  | _ => False
  end.
Definition names_blob (op : krl_op) (blob : bytes) : Prop :=
  match op with RevokeExplicit _ k => plain_key_blob k = Ok blob | _ => False end.
Definition names_sha1 (op : krl_op) (hash : bytes) : Prop :=
  match op with
  | RevokeSha1 _ k => sshkey_fingerprint_sha1 k = Ok hash
  | RevokeKey _ _ k => sshkey_is_cert k = false /\ sshkey_fingerprint_sha1 k = Ok hash
  | _ => False
  end.

(** A certificate or key is revoked by one of the operations [done]. *)
Definition cert_named (ops : list krl_op) (key : sshkey) (ca : option sshkey) : Prop :=
  Exists (fun op => names_key_id op ca (cert_key_id key)) ops \/
  cert_serial key <> 0 /\ Exists (fun op => names_serial op ca (cert_serial key)) ops.
Definition key_named (ops : list krl_op) (key : sshkey) (hash blob : bytes) : Prop :=
  Exists (fun op => names_sha1 op hash) ops \/ Exists (fun op => names_blob op blob) ops \/
  sshkey_is_cert key = true /\
  (cert_named ops key (Some (cert_signature_key key)) \/ cert_named ops key None).
End laws.
Arguments krl_op : clear implicits.

Section revocation.
Context {sshkey : Type} `{KeyLaws sshkey}.
Implicit Types (krl : ssh_krl sshkey) (certs p s : list (revoked_certs sshkey)).

(** The first entry of a CA, its serial numbers and its key IDs. *)
Definition entry certs (ca : option sshkey) : option (revoked_certs sshkey) :=
  find (fun rc => same_ca (rc_ca_key rc) ca) certs.
Definition eserials certs ca : list range := default [] (rc_serials <$> entry certs ca).
Definition eids certs ca : list bytes := default [] (rc_key_ids <$> entry certs ca).

Definition other_ca (ca : option sshkey) (rc : revoked_certs sshkey) : Prop :=
  same_ca (rc_ca_key rc) ca = false.

Lemma entry_app p s ca :
  entry (p ++ s) ca = match entry p ca with Some rc => Some rc | None => entry s ca end.
Proof. unfold entry. induction p as [|rc p IH]; simpl; [done|]. by destruct (same_ca _ _). Qed.

Lemma entry_other p ca : Forall (other_ca ca) p -> entry p ca = None.
Proof. unfold entry, other_ca. induction 1 as [|rc p Hrc _ IH]; simpl; [done|]. by rewrite Hrc. Qed.

Lemma entry_at p rc s ca :
  Forall (other_ca ca) p -> same_ca (rc_ca_key rc) ca = true -> entry (p ++ rc :: s) ca = Some rc.
Proof.
  intros Hp Hrc. rewrite entry_app, entry_other by done. unfold entry. simpl. by rewrite Hrc.
Qed.

(** Replacing an entry changes what is looked up for its CA and for no other. *)
Lemma entry_replace p rc rc' s ca0 :
  rc_ca_key rc' = rc_ca_key rc ->
  entry (p ++ rc' :: s) ca0 =
  match entry p ca0 with
  | Some x => Some x
  | None => if same_ca (rc_ca_key rc) ca0 then Some rc' else entry (p ++ rc :: s) ca0
  end.
Proof.
  intros Hca. rewrite !entry_app. destruct (entry p ca0); [done|].
  unfold entry. simpl. rewrite Hca. by destruct (same_ca _ _).
Qed.

Lemma entry_same certs ca ca0 : same_ca ca ca0 = true -> entry certs ca0 = entry certs ca.
Proof.
  intros Hca. unfold entry. induction certs as [|rc l IH]; simpl; [done|].
  rewrite IH. rewrite (same_ca_sym _ ca0), (same_ca_sym _ ca).
  by rewrite (same_ca_trans_eq ca ca0 _ Hca).
Qed.

(** Looking up the entry of a CA, or creating an empty one. *)
Lemma certs_for_spec mem ca krl :
  match revoked_certs_for_ca_key mem ca true krl with
  | (Ok o, krl') => exists p rc s,
      krl' = with_certs (p ++ rc :: s) krl /\ o = Some (length p) /\
      same_ca (rc_ca_key rc) ca = true /\ Forall (other_ca ca) p /\
      (krl_revoked_certs krl = p ++ rc :: s \/
       krl_revoked_certs krl = p /\ s = [] /\ rc_serials rc = [] /\ rc_key_ids rc = [])
  | (Err _, krl') => krl' = krl
  end.
Proof.
  unfold revoked_certs_for_ca_key.
  destruct (list_find _ _) as [[i rc]|] eqn:Hf.
  - apply list_find_Some in Hf as (Hi&Hrc&Hlt). cbv beta in Hrc. rewrite for_ca_same in Hrc.
    pose proof (lookup_lt_Some _ _ _ Hi) as Hlen.
    exists (take i (krl_revoked_certs krl)), rc, (drop (S i) (krl_revoked_certs krl)).
    rewrite take_drop_middle, length_take_le by (done || lia).
    split_and!; [by destruct krl|done|done| |by left].
    apply Forall_lookup. intros j x [Hj Hji]%lookup_take_Some.
    unfold other_ca. rewrite <- for_ca_same. apply not_true_is_false. by eapply Hlt.
  - apply list_find_None in Hf. destruct mem; simpl; [|done].
    assert (forall ca', same_ca ca' ca = true -> exists p rc s,
      with_certs (krl_revoked_certs krl ++ [mk_revoked_certs ca' [] []]) krl = with_certs (p ++ rc :: s) krl /\
      Some (length (krl_revoked_certs krl)) = Some (length p) /\
      same_ca (rc_ca_key rc) ca = true /\ Forall (other_ca ca) p /\
      (krl_revoked_certs krl = p ++ rc :: s \/
       krl_revoked_certs krl = p /\ s = [] /\ rc_serials rc = [] /\ rc_key_ids rc = [])) as Hcreate.
    { intros ca' Hca. eexists _, _, []. split_and!; [done..| |by right].
      eapply Forall_impl; [exact Hf|]. intros rc Hrc. cbv beta in Hrc. rewrite for_ca_same in Hrc.
      by apply not_true_is_false. }
    destruct ca as [k|]; [|by apply Hcreate].
    destruct (sshkey_from_private k) as [k'|] eqn:Hk; [|done].
    apply Hcreate. simpl. by apply sshkey_from_private_equal.
Qed.

(** ** The invariant of a list built by the operations *)

Definition entry_ok (rc : revoked_certs sshkey) : Prop :=
  serials_ok (rc_serials rc) /\ sorted (rc_key_ids rc).

(** The list [krl] holds exactly what the operations [ops] revoke, in trees that
    are in order, with one entry for each CA. *)
Record krl_inv (ops : list (krl_op sshkey)) krl : Prop := {
  inv_sha1s_sorted : sorted (krl_revoked_sha1s krl);
  inv_keys_sorted : sorted (krl_revoked_keys krl);
  inv_entries : Forall entry_ok (krl_revoked_certs krl);
  inv_unique : StronglySorted (fun a b => other_ca (rc_ca_key b) a) (krl_revoked_certs krl);
  inv_sha1s x : x ∈ krl_revoked_sha1s krl <-> Exists (fun op => names_sha1 op x) ops;
  inv_keys x : x ∈ krl_revoked_keys krl <-> Exists (fun op => names_blob op x) ops;
  inv_serials ca n :
    covered n (eserials (krl_revoked_certs krl) ca) <-> Exists (fun op => names_serial op ca n) ops;
  inv_ids ca x :
    x ∈ eids (krl_revoked_certs krl) ca <-> Exists (fun op => names_key_id op ca x) ops
}.

(** An entry found at [p ++ rc :: s] of a list that satisfies the invariant. *)
Lemma eserials_at p rc s ca ca0 :
  Forall (other_ca ca) p -> same_ca (rc_ca_key rc) ca = true -> same_ca ca ca0 = true ->
  eserials (p ++ rc :: s) ca0 = rc_serials rc /\ eids (p ++ rc :: s) ca0 = rc_key_ids rc.
Proof.
  intros. unfold eserials, eids. rewrite (entry_same _ ca ca0), entry_at by done. done.
Qed.

Lemma unique_replace p rc rc' s :
  rc_ca_key rc' = rc_ca_key rc ->
  StronglySorted (fun a b => other_ca (rc_ca_key b) a) (p ++ rc :: s) ->
  StronglySorted (fun a b => other_ca (rc_ca_key b) a) (p ++ rc' :: s).
Proof.
  intros Hca (Hp&Hs&Hps)%StronglySorted_app. apply StronglySorted_app. split_and!; [done| |].
  - inversion Hs; subst. constructor; [done|]. unfold other_ca in *. by rewrite Hca.
  - eapply Forall_impl; [exact Hps|]. intros x Hx. inversion Hx; subst. constructor; [|done].
    by rewrite Hca.
Qed.

(** Creating the empty entry of a CA keeps the invariant. *)
Lemma certs_for_inv ops mem ca krl :
  krl_inv ops krl ->
  match revoked_certs_for_ca_key mem ca true krl with
  | (Ok o, krl') => krl_inv ops krl' /\ exists p rc s,
      krl_revoked_certs krl' = p ++ rc :: s /\ o = Some (length p) /\
      same_ca (rc_ca_key rc) ca = true /\ Forall (other_ca ca) p
  | (Err _, krl') => krl' = krl
  end.
Proof.
  intros Hinv. pose proof (certs_for_spec mem ca krl) as Hs.
  destruct (revoked_certs_for_ca_key mem ca true krl) as [[o|] krl']; [|done].
  destruct Hs as (p&rc&s&->&->&Hca&Hp&Hcases). split; [|by exists p, rc, s].
  destruct Hcases as [Heq|(Heq&->&Hser&Hid)].
  { rewrite <- Heq. by destruct krl. }
  destruct Hinv as [????? ? Hs Hi]. rewrite Heq in *. constructor; simpl; try done.
  - apply Forall_app. split; [done|]. constructor; [|done]. unfold entry_ok.
    rewrite Hser, Hid. split; [split|]; constructor.
  - apply StronglySorted_app. split_and!; [done|by repeat constructor|].
    eapply Forall_impl; [exact Hp|]. intros x Hx. constructor; [|done]. unfold other_ca in *.
    apply not_true_is_false. intros Hxr. apply not_true_iff_false in Hx. apply Hx.
    by eapply same_ca_trans.
  - intros ca0 n. rewrite <- Hs. unfold eserials. rewrite entry_app.
    destruct (entry p ca0); [done|]. unfold entry. simpl. destruct (same_ca (rc_ca_key rc) ca0);
      simpl; by rewrite ?Hser.
  - intros ca0 n. rewrite <- Hi. unfold eids. rewrite entry_app.
    destruct (entry p ca0); [done|]. unfold entry. simpl. destruct (same_ca (rc_ca_key rc) ca0);
      simpl; by rewrite ?Hid.
Qed.

(** ** Each operation adds what it names *)

(** [op] revokes the serial numbers S and the key IDs I of the CA [ca]. *)
Definition adds_certs (op : krl_op sshkey) ca (S : Z -> Prop) (I : bytes -> Prop) : Prop :=
  (forall ca0 n, names_serial op ca0 n <-> same_ca ca ca0 = true /\ S n) /\
  (forall ca0 x, names_key_id op ca0 x <-> same_ca ca ca0 = true /\ I x) /\
  (forall x, ~ names_blob op x) /\ (forall x, ~ names_sha1 op x).

Lemma update_entry_inv op ops ca S I krl p rc s rc' :
  krl_inv ops krl -> krl_revoked_certs krl = p ++ rc :: s ->
  Forall (other_ca ca) p -> same_ca (rc_ca_key rc) ca = true ->
  adds_certs op ca S I -> rc_ca_key rc' = rc_ca_key rc -> entry_ok rc' ->
  (forall n, covered n (rc_serials rc') <-> covered n (rc_serials rc) \/ S n) ->
  (forall x, x ∈ rc_key_ids rc' <-> x ∈ rc_key_ids rc \/ I x) ->
  krl_inv (op :: ops) (with_certs (<[length p := rc']> (krl_revoked_certs krl)) krl).
Proof.
  intros [?? He Hu Hsha Hkey Hs Hi] Heq Hp Hca (HS&HI&Hb&Hf) Hca' Hok HSn HIx.
  rewrite Heq in *. rewrite insert_app_r_alt, Nat.sub_diag by done. cbn [insert list_insert].
  assert (forall ca0, same_ca ca ca0 = true -> entry (p ++ rc :: s) ca0 = Some rc /\
    entry (p ++ rc' :: s) ca0 = Some rc') as Hsame.
  { intros ca0 Hsc. rewrite !(entry_same _ ca ca0), !entry_at; rewrite ?Hca'; done. }
  assert (forall ca0, same_ca ca ca0 = false -> entry (p ++ rc' :: s) ca0 = entry (p ++ rc :: s) ca0)
    as Hdiff.
  { intros ca0 Hsc. rewrite (entry_replace p rc rc' s) by done. rewrite entry_app.
    destruct (entry p ca0); [done|].
    by rewrite (same_ca_trans_eq _ _ ca0 Hca), Hsc. }
  constructor; simpl; try done.
  - apply Forall_app in He as [He1 He2]. inversion He2; subst.
    apply Forall_app. split; [done|by constructor].
  - by eapply unique_replace.
  - intros x. rewrite Hsha, Exists_cons. specialize (Hf x). tauto.
  - intros x. rewrite Hkey, Exists_cons. specialize (Hb x). tauto.
  - intros ca0 n. rewrite Exists_cons, HS, <- Hs. unfold eserials.
    destruct (same_ca ca ca0) eqn:Hsc.
    + destruct (Hsame _ Hsc) as [-> ->]. simpl. rewrite HSn. tauto.
    + rewrite Hdiff by done. intuition done.
  - intros ca0 x. rewrite Exists_cons, HI, <- Hi. unfold eids.
    destruct (same_ca ca ca0) eqn:Hsc.
    + destruct (Hsame _ Hsc) as [-> ->]. simpl. rewrite HIx. tauto.
    + rewrite Hdiff by done. intuition done.
Qed.

Lemma serial_range_inv op ops pick mem ca lo hi krl :
  krl_inv ops krl -> in_range 64 lo -> in_range 64 hi ->
  adds_certs op ca (fun n => lo <= n <= hi) (fun _ => False) ->
  match ssh_krl_revoke_cert_by_serial_range pick mem ca lo hi krl with
  | (Ok _, krl') => krl_inv (op :: ops) krl'
  | (Err _, krl') => krl_inv ops krl'
  end.
Proof.
  intros Hinv Hlo Hhi Hadd. unfold ssh_krl_revoke_cert_by_serial_range.
  destruct (Z.ltb_spec hi lo) as [|Hle]; [done|]. destruct (lo =? 0); [done|]. simpl.
  unfold bind. pose proof (certs_for_inv ops mem ca krl Hinv) as Hc.
  destruct (revoked_certs_for_ca_key mem ca true krl) as [[o|] krl']; [|by subst].
  destruct Hc as (Hinv'&p&rc&s&Heq&->&Hca&Hp). unfold on_entry. simpl.
  rewrite Heq. rewrite list_lookup_middle by done.
  pose proof (inv_entries _ _ Hinv') as He. rewrite Heq, Forall_app in He.
  destruct He as [_ He]. inversion He as [|? ? [Hs Hi] ?]; subst.
  unfold in_range in *.
  pose proof (insert_serial_range_ok pick mem lo hi (rc_serials rc) Hs) as Hins.
  destruct (insert_serial_range pick mem lo hi (rc_serials rc)) as [[[]|e] rt'].
  - destruct Hins as [[Hok Hcov] _]; [lia..|]. rewrite <- Heq.
    eapply update_entry_inv; try done; simpl; [intros; tauto].
  - destruct Hins as (_&_&->&_); [lia..|].
    assert (mk_revoked_certs (rc_ca_key rc) (rc_serials rc) (rc_key_ids rc) = rc) as ->
      by (by destruct rc).
    rewrite list_insert_id by (by apply list_lookup_middle). rewrite <- Heq. by destruct krl'.
Qed.

Lemma key_id_inv op ops mem ca id krl :
  krl_inv ops krl -> adds_certs op ca (fun _ => False) (fun x => x = id) ->
  match ssh_krl_revoke_cert_by_key_id mem ca id krl with
  | (Ok _, krl') => krl_inv (op :: ops) krl'
  | (Err _, krl') => krl_inv ops krl'
  end.
Proof.
  intros Hinv Hadd. unfold ssh_krl_revoke_cert_by_key_id, bind.
  pose proof (certs_for_inv ops mem ca krl Hinv) as Hc.
  destruct (revoked_certs_for_ca_key mem ca true krl) as [[o|] krl']; [|by subst].
  destruct Hc as (Hinv'&p&rc&s&Heq&->&Hca&Hp). destruct mem; [|done].
  unfold on_entry. simpl. rewrite Heq. rewrite list_lookup_middle by done.
  pose proof (inv_entries _ _ Hinv') as He. rewrite Heq, Forall_app in He.
  destruct He as [_ He]. inversion He as [|? ? [Hs Hi] ?]; subst. rewrite <- Heq.
  eapply update_entry_inv; try done; simpl; [|intros; tauto|].
  - split; [done|]. simpl. by apply insert_sorted.
  - intros x. rewrite (insert_in _ key_id_cmp_strcmp). tauto.
Qed.

Lemma sha1_inv op ops mem k krl :
  krl_inv ops krl ->
  (forall ca0 n, ~ names_serial op ca0 n) -> (forall ca0 x, ~ names_key_id op ca0 x) ->
  (forall x, ~ names_blob op x) ->
  (forall x, names_sha1 op x <-> sshkey_fingerprint_sha1 k = Ok x) ->
  match ssh_krl_revoke_key_sha1 mem k krl with
  | (Ok _, krl') => krl_inv (op :: ops) krl'
  | (Err _, krl') => krl_inv ops krl'
  end.
Proof.
  intros Hinv Hns Hni Hnb Hn. unfold ssh_krl_revoke_key_sha1, revoke_blob.
  destruct (sshkey_fingerprint_sha1 k) as [x|] eqn:Hk; [|done].
  destruct mem; simpl; [|by destruct krl].
  destruct Hinv as [?? He Hu Hsha Hkey Hs Hi]. constructor; simpl; try done.
  - apply insert_sorted; [apply blob_cmp_strcmp|done].
  - intros y. rewrite (insert_in _ blob_cmp_strcmp), Exists_cons, Hn, Hsha.
    split; (intros [?|?]; [left; congruence|by right]).
  - intros y. rewrite Exists_cons, Hkey. specialize (Hnb y). tauto.
  - intros ca n. rewrite Exists_cons, Hs. specialize (Hns ca n). tauto.
  - intros ca n. rewrite Exists_cons, Hi. specialize (Hni ca n). tauto.
Qed.

Lemma explicit_inv ops mem k krl :
  krl_inv ops krl ->
  match ssh_krl_revoke_key_explicit mem k krl with
  | (Ok _, krl') => krl_inv (RevokeExplicit mem k :: ops) krl'
  | (Err _, krl') => krl_inv ops krl'
  end.
Proof.
  intros Hinv. unfold ssh_krl_revoke_key_explicit, revoke_blob.
  destruct (plain_key_blob k) as [x|] eqn:Hk; [|done].
  destruct mem; simpl; [|by destruct krl].
  destruct Hinv as [?? He Hu Hsha Hkey Hs Hi]. constructor; simpl; try done.
  - apply insert_sorted; [apply blob_cmp_strcmp|done].
  - intros y. rewrite Exists_cons, Hsha. simpl. tauto.
  - intros y. rewrite (insert_in _ blob_cmp_strcmp), Exists_cons, Hkey. simpl.
    split; (intros [?|?]; [left; congruence|by right]).
  - intros ca n. rewrite Exists_cons, Hs. simpl. tauto.
  - intros ca n. rewrite Exists_cons, Hi. simpl. tauto.
Qed.

Lemma exec_op_inv op ops krl :
  op_ok op -> krl_inv ops krl ->
  match exec_op op krl with
  | (Ok _, krl') => krl_inv (op :: ops) krl'
  | (Err _, krl') => krl_inv ops krl'
  end.
Proof.
  destruct op as [pick mem ca lo hi|mem ca id|mem k|mem k|pick mem k]; simpl; intros Hok Hinv.
  - destruct Hok. apply serial_range_inv; [done..|].
    split_and!; simpl; (done || intros; tauto).
  - apply key_id_inv; [done|]. split_and!; simpl; (done || intros; tauto).
  - by apply explicit_inv.
  - apply sha1_inv; simpl; (done || intros; tauto).
  - unfold ssh_krl_revoke_key. destruct (sshkey_is_cert k) eqn:Hc; simpl.
    2:{ apply sha1_inv; simpl; intros; rewrite ?Hc; (done || intuition done). }
    destruct (Z.eqb_spec (cert_serial k) 0) as [Hz|Hz].
    + apply key_id_inv; [done|].
      split_and!; simpl; intros; rewrite ?Hc; (tauto || intuition congruence).
    + apply serial_range_inv; [done..|].
      split_and!; simpl; intros; rewrite ?Hc; intuition (congruence || lia).
Qed.

Lemma krl_init_inv krl : ssh_krl_init true = Some krl -> krl_inv [] krl.
Proof.
  intros [= <-]. constructor; simpl; try solve [constructor].
  all: try (intros; rewrite ?Exists_nil; split; [by intros ?%not_elem_of_nil|done]).
  intros ca n. by rewrite Exists_nil, covered_nil.
Qed.

Lemma exec_ops_inv ops dn krl dn' krl' :
  Forall op_ok ops -> krl_inv dn krl -> exec_ops ops dn krl = (dn', krl') -> krl_inv dn' krl'.
Proof.
  intros Hok. revert dn krl. induction Hok as [|op ops Hop _ IH]; simpl; intros dn krl Hinv He.
  { by injection He as <- <-. }
  pose proof (exec_op_inv op dn krl Hop Hinv) as H1.
  destruct (exec_op op krl) as [[]]; eauto.
Qed.

(** ** Checking *)

Lemma find_serial n l :
  RB_FIND serial_cmp (n, n) l <> None <-> covered n l.
Proof.
  unfold RB_FIND, covered. induction l as [|r l IH]; simpl; [by rewrite Exists_nil|].
  rewrite Exists_cons, <- IH. destruct (Z.eqb_spec (serial_cmp (n, n) r) 0) as [Hz|Hz];
    rewrite serial_cmp_0 in Hz; simpl in Hz; [intuition (done || lia)|intuition lia].
Qed.

Lemma is_cert_revoked_spec key rc :
  is_cert_revoked key rc =
  if decide (cert_key_id key ∈ rc_key_ids rc) then Err SSH_ERR_KEY_REVOKED
  else if decide (cert_serial key = 0) then Ok tt
  else match RB_FIND serial_cmp (cert_serial key, cert_serial key) (rc_serials rc) with
       | Some _ => Err SSH_ERR_KEY_REVOKED
       | None => Ok tt
       end.
Proof.
  unfold is_cert_revoked. rewrite (find_some_in key_id_cmp key_id_cmp_strcmp).
  case_decide; [done|]. destruct (Z.eqb_spec (cert_serial key) 0); case_decide; done.
Qed.

Lemma find_entry certs ca :
  match list_find (fun rc => for_ca ca rc = true) certs with
  | Some (i, rc) => certs !! i = Some rc /\ entry certs ca = Some rc
  | None => entry certs ca = None
  end.
Proof.
  induction certs as [|rc l IH]; simpl; [done|]. unfold entry. simpl.
  rewrite <- for_ca_same. case_decide as Hc.
  - by rewrite Hc.
  - apply not_true_is_false in Hc. rewrite Hc.
    by destruct (list_find _ l) as [[i rc']|].
Qed.

Lemma entry_for_spec krl ca : entry_for krl ca = entry (krl_revoked_certs krl) ca.
Proof.
  unfold entry_for, revoked_certs_for_ca_key.
  pose proof (find_entry (krl_revoked_certs krl) ca) as Hf.
  destruct (list_find _ _) as [[i rc]|]; simpl; [|done]. by destruct Hf as [-> ->].
Qed.

(** Whether the entry of [ca] revokes the certificate. *)
Lemma check_entry_spec ops krl key ca :
  krl_inv ops krl ->
  let r := match entry_for krl ca with Some rc => is_cert_revoked key rc | None => Ok tt end in
  (r = Err SSH_ERR_KEY_REVOKED /\ cert_named ops key ca) \/ (r = Ok tt /\ ~ cert_named ops key ca).
Proof.
  intros Hinv. rewrite entry_for_spec. unfold cert_named.
  pose proof (inv_ids _ _ Hinv ca (cert_key_id key)) as Hi.
  pose proof (inv_serials _ _ Hinv ca (cert_serial key)) as Hs.
  unfold eids, eserials in *. destruct (entry _ ca) as [rc|]; simpl in *.
  - rewrite is_cert_revoked_spec. case_decide; [left; tauto|]. case_decide; [right; tauto|].
    rewrite <- find_serial in Hs. destruct (RB_FIND _ _ _); [left|right; tauto].
    split; [done|]. right. split; [done|]. by apply Hs.
  - right. split; [done|]. rewrite covered_nil in Hs. rewrite <- Hi, <- Hs.
    intros [?%not_elem_of_nil|[_ []]]; done.
Qed.

Lemma is_key_revoked_spec ops krl key h b :
  krl_inv ops krl ->
  sshkey_fingerprint_sha1 key = Ok h -> plain_key_blob key = Ok b ->
  (is_key_revoked krl key = Err SSH_ERR_KEY_REVOKED /\ key_named ops key h b) \/
  (is_key_revoked krl key = Ok tt /\ ~ key_named ops key h b).
Proof.
  intros Hinv Hh Hb. unfold is_key_revoked, key_named. rewrite Hh, Hb.
  rewrite !(find_some_in blob_cmp blob_cmp_strcmp).
  pose proof (inv_sha1s _ _ Hinv h) as Hs. pose proof (inv_keys _ _ Hinv b) as Hk.
  case_decide; [left; tauto|]. case_decide; [left; tauto|].
  destruct (sshkey_is_cert key); simpl; [|right; split; [done|intuition done]].
  destruct (check_entry_spec ops krl key (Some (cert_signature_key key)) Hinv) as [[-> ?]|[-> ?]];
    [left; tauto|].
  destruct (check_entry_spec ops krl key None Hinv) as [[-> ?]|[-> ?]]; [left; tauto|].
  right. tauto.
Qed.

(** ** Success *)

(** The arguments of [op] are valid, the key functions it calls succeed and there
    is memory. *)
Definition ca_copies (ca : option sshkey) : Prop :=
  match ca with Some k => exists k', sshkey_from_private k = Ok k' | None => True end.
Definition op_valid (op : krl_op sshkey) : Prop :=
  match op with
  | RevokeSerials _ mem ca lo hi => mem = true /\ ca_copies ca /\ 0 < lo <= hi /\ hi < 2 ^ 64
  | RevokeKeyId mem ca _ => mem = true /\ ca_copies ca
  | RevokeExplicit mem k => mem = true /\ exists b, plain_key_blob k = Ok b
  | RevokeSha1 mem k => mem = true /\ exists h, sshkey_fingerprint_sha1 k = Ok h
  | RevokeKey _ mem k =>
      mem = true /\ in_range 64 (cert_serial k) /\
      if sshkey_is_cert k then ca_copies (Some (cert_signature_key k))
      else exists h, sshkey_fingerprint_sha1 k = Ok h
  end.

Lemma certs_for_ok ca krl :
  ca_copies ca -> exists o, fst (revoked_certs_for_ca_key true ca true krl) = Ok o.
Proof.
  intros Hca. unfold revoked_certs_for_ca_key. destruct (list_find _ _) as [[i rc]|]; simpl; [eauto|].
  destruct ca as [k|]; simpl; [|eauto]. destruct Hca as [k' ->]. simpl. eauto.
Qed.

Lemma serial_range_ok ops pick ca lo hi krl :
  krl_inv ops krl -> ca_copies ca -> 0 < lo <= hi -> hi < 2 ^ 64 ->
  fst (ssh_krl_revoke_cert_by_serial_range pick true ca lo hi krl) = Ok tt.
Proof.
  intros Hinv Hca Hlo Hhi. unfold ssh_krl_revoke_cert_by_serial_range.
  destruct (Z.ltb_spec hi lo); [lia|]. destruct (Z.eqb_spec lo 0); [lia|]. simpl. unfold bind.
  pose proof (certs_for_inv ops true ca krl Hinv) as Hc.
  destruct (certs_for_ok ca krl Hca) as [o Ho].
  destruct (revoked_certs_for_ca_key true ca true krl) as [r krl']. simpl in Ho. subst r.
  destruct Hc as (Hinv'&p&rc&s&Heq&->&_). unfold on_entry. simpl.
  rewrite Heq. rewrite list_lookup_middle by done.
  pose proof (inv_entries _ _ Hinv') as He. rewrite Heq, Forall_app in He.
  destruct He as [_ He]. inversion He as [|? ? [Hs _] _]; subst.
  pose proof (insert_serial_range_ok pick true lo hi (rc_serials rc) Hs) as Hins.
  destruct (insert_serial_range pick true lo hi (rc_serials rc)) as [[[]|e] rt']; [done|].
  destruct Hins as (?&_); [lia..|done].
Qed.

Lemma key_id_ok ops ca id krl :
  krl_inv ops krl -> ca_copies ca -> fst (ssh_krl_revoke_cert_by_key_id true ca id krl) = Ok tt.
Proof.
  intros Hinv Hca. unfold ssh_krl_revoke_cert_by_key_id, bind.
  pose proof (certs_for_inv ops true ca krl Hinv) as Hc.
  destruct (certs_for_ok ca krl Hca) as [o Ho].
  destruct (revoked_certs_for_ca_key true ca true krl) as [r krl']. simpl in Ho. subst r.
  destruct Hc as (Hinv'&p&rc&s&Heq&->&_). unfold on_entry. simpl.
  rewrite Heq. by rewrite list_lookup_middle by done.
Qed.

Lemma exec_op_ok op ops krl : op_valid op -> krl_inv ops krl -> fst (exec_op op krl) = Ok tt.
Proof.
  destruct op as [pick mem ca lo hi|mem ca id|mem k|mem k|pick mem k]; simpl; intros Hv Hinv.
  - destruct Hv as (->&?&?&?). by eapply serial_range_ok.
  - destruct Hv as (->&?). by eapply key_id_ok.
  - destruct Hv as (->&b&Hb). unfold ssh_krl_revoke_key_explicit. by rewrite Hb.
  - destruct Hv as (->&b&Hb). unfold ssh_krl_revoke_key_sha1. by rewrite Hb.
  - unfold ssh_krl_revoke_key. destruct Hv as (->&Hr&Hc). unfold in_range in Hr.
    destruct (sshkey_is_cert k); simpl.
    + destruct (Z.eqb_spec (cert_serial k) 0); [by eapply key_id_ok|].
      eapply serial_range_ok; done || lia.
    + destruct Hc as [h Hh]. unfold ssh_krl_revoke_key_sha1. by rewrite Hh.
Qed.

Lemma op_valid_ok op : op_valid op -> op_ok op.
Proof. destruct op; simpl; unfold in_range; intuition lia. Qed.

Lemma exec_ops_all ops dn krl :
  Forall op_valid ops -> krl_inv dn krl -> fst (exec_ops ops dn krl) = rev ops ++ dn.
Proof.
  intros Hv. revert dn krl. induction Hv as [|op ops Hop _ IH]; simpl; intros dn krl Hinv; [done|].
  pose proof (exec_op_inv op dn krl (op_valid_ok _ Hop) Hinv) as H1.
  pose proof (exec_op_ok op dn krl Hop Hinv) as H2.
  destruct (exec_op op krl) as [r krl']. simpl in H2. subst r.
  rewrite IH by done. by rewrite <- app_assoc.
Qed.

(** C13. The verdict of [ssh_krl_check_key] on a list built by any sequence of
    revocations, some of which may have failed: SSH_ERR_KEY_REVOKED exactly
    when a revocation that succeeded names the key - by SHA1 hash, by public
    key, or, for a certificate, by serial number or key ID under its CA or
    under the wildcard CA - or names the CA key of the certificate, and 0
    otherwise.  No later revocation undoes an earlier one, and a revocation
    with valid arguments and memory always succeeds. *)
Theorem krl_check_exact ops dn krl0 krl key h b :
  ssh_krl_init true = Some krl0 -> Forall op_ok ops -> exec_ops ops [] krl0 = (dn, krl) ->
  sshkey_fingerprint_sha1 key = Ok h -> plain_key_blob key = Ok b ->
  (Forall op_valid ops -> dn = rev ops) /\
  (sshkey_is_cert key = false ->
    (ssh_krl_check_key krl key = Err SSH_ERR_KEY_REVOKED /\ key_named dn key h b) \/
    (ssh_krl_check_key krl key = Ok tt /\ ~ key_named dn key h b)) /\
  (forall h' b', sshkey_is_cert key = true ->
    sshkey_fingerprint_sha1 (cert_signature_key key) = Ok h' ->
    plain_key_blob (cert_signature_key key) = Ok b' ->
    let revoked := key_named dn key h b \/ key_named dn (cert_signature_key key) h' b' in
    (ssh_krl_check_key krl key = Err SSH_ERR_KEY_REVOKED /\ revoked) \/
    (ssh_krl_check_key krl key = Ok tt /\ ~ revoked)).
Proof.
  intros Hi%krl_init_inv Hok He Hh Hb.
  pose proof (exec_ops_inv _ _ _ _ _ Hok Hi He) as Hinv.
  split_and!.
  - intros Hv. pose proof (exec_ops_all ops [] krl0 Hv Hi) as Ha. rewrite He in Ha.
    by rewrite app_nil_r in Ha.
  - intros Hc. unfold ssh_krl_check_key. rewrite Hc.
    destruct (is_key_revoked_spec dn krl key h b Hinv Hh Hb) as [[-> ?]|[-> ?]]; tauto.
  - intros h' b' Hc Hh' Hb'. unfold ssh_krl_check_key. rewrite Hc.
    destruct (is_key_revoked_spec dn krl key h b Hinv Hh Hb) as [[-> ?]|[-> ?]]; [tauto|].
    destruct (is_key_revoked_spec dn krl _ h' b' Hinv Hh' Hb') as [[-> ?]|[-> ?]]; tauto.
Qed.

(** The trees of a list built by any sequence of revocations stay in the
    order their comparison functions define, without duplicates or
    overlapping intervals, and no two entries belong to the same CA. *)
Theorem krl_trees_ordered ops dn krl0 krl :
  ssh_krl_init true = Some krl0 -> Forall op_ok ops -> exec_ops ops [] krl0 = (dn, krl) ->
  StronglySorted (fun a b => blob_cmp a b < 0) (krl_revoked_sha1s krl) /\
  StronglySorted (fun a b => blob_cmp a b < 0) (krl_revoked_keys krl) /\
  Forall (fun rc => serials_ok (rc_serials rc) /\
            StronglySorted (fun a b => key_id_cmp a b < 0) (rc_key_ids rc))
    (krl_revoked_certs krl) /\
  forall ca, (length (filter (fun rc => for_ca ca rc = true) (krl_revoked_certs krl)) <= 1)%nat.
Proof.
  intros Hi%krl_init_inv Hok He.
  destruct (exec_ops_inv _ _ _ _ _ Hok Hi He) as [Hs Hk Hent Hu _ _ _ _].
  assert (forall l, sorted l -> StronglySorted (fun a b => blob_cmp a b < 0) l) as Hblob.
  { unfold sorted, lex_lt. induction 1 as [|x l Hl IH Hf]; constructor; [done|].
    eapply Forall_impl; [exact Hf|]. intros y. by rewrite blob_cmp_strcmp. }
  split_and!; [by apply Hblob..|done|].
  intros ca. clear -Hu H0. induction Hu as [|rc l _ IH Hf]; [simpl; lia|].
  rewrite filter_cons. case_decide as Hc; [|done]. rewrite for_ca_same in Hc.
  enough (filter (fun rc => for_ca ca rc = true) l = []) as -> by (simpl; lia).
  clear IH. induction Hf as [|x l Hx _ IH]; [done|].
  rewrite filter_cons, decide_False; [done|]. intros Hxc. rewrite for_ca_same in Hxc. unfold other_ca in Hx. apply not_true_iff_false in Hx. apply Hx.
  apply (same_ca_trans _ ca); [done|]. by rewrite same_ca_sym.
Qed.
End revocation.

(** ** Concrete keys *)

(** A key pair is a number; a certificate has the number of its key and of its
    CA, its serial number and its key ID. *)
Inductive test_key : Type :=
| Plain (id : Z)
| Cert (id ca serial : Z) (key_id : bytes).
#[global] Instance test_key_eq_dec : EqDecision test_key.
Proof. solve_decision. Defined.

Definition test_id (k : test_key) : Z := match k with Plain id | Cert id _ _ _ => id end.

#[global] Instance test_keys : KeyOps test_key := {
  sshkey_equal a b := match a, b with Some a, Some b => bool_decide (a = b) | _, _ => false end;
  sshkey_from_private k := Ok k;
  sshkey_is_cert k := match k with Cert _ _ _ _ => true | Plain _ => false end;
  sshkey_drop_cert k := Ok (Plain (test_id k));
  sshkey_to_blob k := Ok [0; test_id k];
  sshkey_fingerprint_sha1 k := Ok [test_id k; test_id k];
  cert_signature_key k := match k with Cert _ ca _ _ => Plain ca | _ => k end;
  cert_serial k := match k with Cert _ _ n _ => n | _ => 0 end;
  cert_key_id k := match k with Cert _ _ _ i => i | _ => [] end
}.

#[global] Instance test_key_laws : KeyLaws test_key.
Proof.
  constructor; simpl.
  - done.
  - by intros [].
  - intros [a|] [b|]; [|done..]. apply bool_decide_ext. naive_solver.
  - intros [a|] [b|] [c|]; rewrite ?bool_decide_eq_true; congruence || done.
  - intros k k' [= <-]. by apply bool_decide_eq_true.
Qed.

Definition test_ops : list (krl_op test_key) :=
  [RevokeSerials 0 true (Some (Plain 9)) 3 8; RevokeSerials 0 true (Some (Plain 9)) 5 2;
   RevokeKeyId true None [104; 105]; RevokeKey 0 true (Plain 4); RevokeSerials 0 false None 1 1;
   RevokeExplicit true (Cert 7 9 20 []); RevokeSerials 1 true (Some (Plain 9)) 9 11].
Definition test_krl := exec_ops test_ops [] (mk_krl 0 0 0 None [] [] []).

Example test_krl_serials :
  rc_serials <$> krl_revoked_certs (snd test_krl) = [[(3, 11)]; []].
Proof. vm_compute. reflexivity. Qed.
Example test_krl_checks :
  (ssh_krl_check_key (snd test_krl) <$>
     [Plain 4; Plain 5; Plain 7; Cert 5 9 11 []; Cert 5 9 12 []; Cert 5 8 11 [];
      Cert 5 8 12 [104; 105]; Cert 5 4 99 []; Cert 5 9 0 []]) =
  [Err SSH_ERR_KEY_REVOKED; Ok tt; Err SSH_ERR_KEY_REVOKED; Err SSH_ERR_KEY_REVOKED; Ok tt;
   Ok tt; Err SSH_ERR_KEY_REVOKED; Err SSH_ERR_KEY_REVOKED; Ok tt].
Proof. vm_compute. reflexivity. Qed.

Lemma test_ops_ok : Forall op_ok test_ops.
Proof. unfold test_ops. repeat (constructor; [simpl; unfold in_range; lia|]). constructor. Qed.

Lemma krl_check_exact_witness :
  length (fst test_krl) = 5%nat /\
  let key := Cert 5 9 11 [] in
  let named := key_named (fst test_krl) key [5; 5] [0; 5] \/
    key_named (fst test_krl) (Plain 9) [9; 9] [0; 9] in
  (ssh_krl_check_key (snd test_krl) key = Err SSH_ERR_KEY_REVOKED /\ named) \/
  (ssh_krl_check_key (snd test_krl) key = Ok tt /\ ~ named).
Proof.
  split; [reflexivity|].
  apply (krl_check_exact test_ops (fst test_krl) (mk_krl 0 0 0 None [] [] []) (snd test_krl)
           (Cert 5 9 11 []) [5; 5] [0; 5] eq_refl test_ops_ok);
    [destruct test_krl eqn:E; unfold test_krl in E; rewrite E; reflexivity|reflexivity..].
Defined.

Lemma krl_trees_ordered_witness :
  length (fst test_krl) = 5%nat /\
  StronglySorted (fun a b => blob_cmp a b < 0) (krl_revoked_sha1s (snd test_krl)).
Proof.
  split; [reflexivity|].
  apply (krl_trees_ordered test_ops (fst test_krl) (mk_krl 0 0 0 None [] [] []) (snd test_krl)
           eq_refl test_ops_ok).
  destruct test_krl eqn:E; unfold test_krl in E; rewrite E; reflexivity.
Defined.
