(* ===== verification/KrlBlob.v ===== *)
(** krl.c: the encoded form of a key revocation list, written by
    [ssh_krl_to_blob] and read by [ssh_krl_from_blob].

    The serial numbers of a CA are cut into sections - a list, a range or a
    bitmap - by a cost model.  A list is read in two passes: the first checks the
    signatures, the second loads it by revoking what it names, one after the
    other, with the operations of Krl.v.

    Signing and the decoding of keys (sshkey.c) are an interface, [KeyBlob]. *)

From S2P Require Import Prelude Wire Sshbuf SshbufGetput SshbufHeap Bitmap Krl.

Definition KRL_MAGIC : bytes := cstr "SSHKRL" ++ [10; 0].
Definition KRL_FORMAT_VERSION : Z := 1.

Definition KRL_SECTION_CERTIFICATES : Z := 1.
Definition KRL_SECTION_EXPLICIT_KEY : Z := 2.
Definition KRL_SECTION_FINGERPRINT_SHA1 : Z := 3.
Definition KRL_SECTION_SIGNATURE : Z := 4.

Definition KRL_SECTION_CERT_SERIAL_LIST : Z := 0x20.
Definition KRL_SECTION_CERT_SERIAL_RANGE : Z := 0x21.
Definition KRL_SECTION_CERT_SERIAL_BITMAP : Z := 0x22.
Definition KRL_SECTION_CERT_KEY_ID : Z := 0x23.

Definition INT_MAX : Z := 2 ^ 31 - 1.

Definition SSH_ERR_SYSTEM_ERROR : Z := -24.

(** Returned by a loop on fuel that has run out: no error code of the source. *)
Definition OUT_OF_FUEL : Z := 1.

(** The code after the label [out]: [goto out] while r is 0 is success. *)
Definition goto_out {A} (r : result A) (a : A) : result A :=
  match r with Ok a => Ok a | Err e => if e =? 0 then Ok a else Err e end.

(** An operation on one of two objects. *)
Definition on_fst {S T A} (m : M S A) : M (S * T) A := fun '(s, t) =>
  let '(r, s) := m s in (r, (s, t)).
Definition on_snd {S T A} (m : M T A) : M (S * T) A := fun '(s, t) =>
  let '(r, t) := m t in (r, (s, t)).

(** [sshbuf_fromb] and [sshbuf_froms] of SshbufHeap.v for a parent that outlives the
    child and is only read, so that its count of references can be left out. *)
Definition fromb (A : allocator) (b : sshbuf) : option sshbuf :=
  match sshbuf_check_sanity b with
  | Err _ => None
  | Ok _ => sshbuf_from A (Some (addr_of b, ptr_of b)) (sshbuf_len b)
  end.
Definition froms (A : allocator) : M sshbuf sshbuf := fun b =>
  match sshbuf_peek_string_direct b with
  | Err r => (Err r, b)
  | Ok (p, len) =>
      match sshbuf_from A (Some (Pos.add (addr_of b) 4, p)) len with
      | None => (Err SSH_ERR_ALLOC_FAIL, b)
      | Some c => (sshbuf_consume (u64 (len + 4)) ;;; ret c) b
      end
  end.

(** What krl.c uses of sshkey.c besides [KeyOps]. *)
Class KeyBlob (sshkey : Type) := {
  sshkey_from_blob : bytes -> result sshkey;
  sshkey_sign : sshkey -> bytes -> result bytes;
  sshkey_verify : sshkey -> bytes -> bytes -> result unit
}.

(** ** Writing *)

(** The next kind of section, and whether a new one is forced. *)
Definition choose_next_state (current_state contig : Z) (final : bool) (last_gap next_gap : Z)
    : Z * bool :=
  let contig := Z.min contig (Z.shiftl 1 31) in
  let last_gap := Z.min last_gap (Z.shiftl 1 31) in
  let next_gap := Z.min next_gap (Z.shiftl 1 31) in
  let '(cost_list, cost_bitmap, cost_bitmap_restart) :=
    if current_state =? KRL_SECTION_CERT_SERIAL_LIST then (0, 8 + 64, 8 + 64)
    else if current_state =? KRL_SECTION_CERT_SERIAL_BITMAP then (8, 0, 8 + 64)
    else if (current_state =? KRL_SECTION_CERT_SERIAL_RANGE) || (current_state =? 0)
         then (8, 8 + 64, 8 + 64)
    else (0, 0, 0) in
  let cost_range := 8 in
  let cost_list := cost_list + (64 * contig + (if final then 0 else 8 + 64)) in
  let cost_range := cost_range + (2 * 64 + (if final then 0 else 8 + 64)) in
  let cost_bitmap :=
    cost_bitmap + (last_gap + contig + (if final then 0 else Z.min next_gap (8 + 64))) in
  let cost_bitmap_restart :=
    cost_bitmap_restart + (contig + (if final then 0 else Z.min next_gap (8 + 64))) in
  let cost_list := (cost_list + 7) / 8 in
  let cost_bitmap := (cost_bitmap + 7) / 8 in
  let cost_bitmap_restart := (cost_bitmap_restart + 7) / 8 in
  let cost_range := (cost_range + 7) / 8 in
  let '(new_state, cost) := (KRL_SECTION_CERT_SERIAL_BITMAP, cost_bitmap) in
  let '(new_state, cost) :=
    if cost_range <? cost then (KRL_SECTION_CERT_SERIAL_RANGE, cost_range) else (new_state, cost) in
  let '(new_state, cost) :=
    if cost_list <? cost then (KRL_SECTION_CERT_SERIAL_LIST, cost_list) else (new_state, cost) in
  if cost_bitmap_restart <? cost then (KRL_SECTION_CERT_SERIAL_BITMAP, true)
  else (new_state, false).

Definition put_bitmap (A : allocator) (bm : bitmap) : M sshbuf unit :=
  let '(len, bm) := bitmap_nbytes bm in
  match A len with
  | None => fail SSH_ERR_ALLOC_FAIL
  | Some (_, junk) =>
      match fst (bitmap_to_string (realloc_mem len junk []) len bm) with
      | Err _ => fail SSH_ERR_INTERNAL_ERROR
      | Ok blob => sshbuf_put_bignum2_bytes A blob len
      end
  end.

(** The variables of [revoked_certs_generate]. *)
Record gen : Type := mk_gen {
  g_buf : sshbuf;
  g_sect : sshbuf;
  g_bitmap : option bitmap;
  g_bitmap_start : Z;
  g_state : Z;
  g_last : Z
}.

Definition on_buf {X} (m : M sshbuf X) : M gen X := fun g =>
  let '(r, b) := m (g_buf g) in
  (r, mk_gen b (g_sect g) (g_bitmap g) (g_bitmap_start g) (g_state g) (g_last g)).
Definition on_sect {X} (m : M sshbuf X) : M gen X := fun g =>
  let '(r, b) := m (g_sect g) in
  (r, mk_gen (g_buf g) b (g_bitmap g) (g_bitmap_start g) (g_state g) (g_last g)).
Definition reset_sect (A : allocator) : M gen unit :=
  on_sect (fun b => (Ok tt, sshbuf_reset A b)).
Definition set_bitmap (bm : option bitmap) : M gen unit := fun g =>
  (Ok tt, mk_gen (g_buf g) (g_sect g) bm (g_bitmap_start g) (g_state g) (g_last g)).
Definition set_bitmap_start (v : Z) : M gen unit := fun g =>
  (Ok tt, mk_gen (g_buf g) (g_sect g) (g_bitmap g) v (g_state g) (g_last g)).
Definition set_state (v : Z) : M gen unit := fun g =>
  (Ok tt, mk_gen (g_buf g) (g_sect g) (g_bitmap g) (g_bitmap_start g) v (g_last g)).
Definition set_last (v : Z) : M gen unit := fun g =>
  (Ok tt, mk_gen (g_buf g) (g_sect g) (g_bitmap g) (g_bitmap_start g) (g_state g) v).

(** Ends the current section and writes it out; in a bitmap section there is a
    bitmap. *)
Definition finish_section (A : allocator) : M gen unit :=
  let! g := get_state in
  (if g_state g =? KRL_SECTION_CERT_SERIAL_BITMAP then
     match g_bitmap g with
     | None => fail SSH_ERR_INTERNAL_ERROR
     | Some bm => on_sect (put_bitmap A bm) ;;; set_bitmap None
     end
   else ret tt) ;;;
  let! g := get_state in
  on_buf (sshbuf_put_u8 A (g_state g) ;;; sshbuf_put_stringb A (g_sect g)).

Definition start_section (A : allocator) (next_state lo : Z) : M gen unit :=
  set_state next_state ;;;
  reset_sect A ;;;
  if next_state =? KRL_SECTION_CERT_SERIAL_BITMAP then
    match bitmap_new A with
    | None => fail SSH_ERR_ALLOC_FAIL
    | Some bm =>
        set_bitmap (Some bm) ;;;
        set_bitmap_start lo ;;;
        on_sect (sshbuf_put_u64 A lo)
    end
  else ret tt.

Fixpoint put_serials (A : allocator) (n : nat) (serial : Z) : M sshbuf unit :=
  match n with
  | O => ret tt
  | S n => sshbuf_put_u64 A (u64 serial) ;;; put_serials A n (serial + 1)
  end.

Fixpoint set_bits (A : allocator) (n : nat) (bit : Z) : M bitmap unit :=
  match n with
  | O => ret tt
  | S n => bitmap_set_bit A (u64 bit) ;;; set_bits A n (bit + 1)
  end.

Definition add_serials (A : allocator) (rs : range) (contig : Z) : M gen unit :=
  let! g := get_state in
  if g_state g =? KRL_SECTION_CERT_SERIAL_LIST then
    on_sect (put_serials A (Z.to_nat contig) (fst rs))
  else if g_state g =? KRL_SECTION_CERT_SERIAL_RANGE then
    on_sect (sshbuf_put_u64 A (fst rs) ;;; sshbuf_put_u64 A (snd rs))
  else if g_state g =? KRL_SECTION_CERT_SERIAL_BITMAP then
    if INT_MAX <? u64 (fst rs - g_bitmap_start g) then fail 0
    else
      match g_bitmap g with
      | None => fail SSH_ERR_INTERNAL_ERROR
      | Some bm =>
          match set_bits A (Z.to_nat contig) (u64 (fst rs - g_bitmap_start g)) bm with
          | (Err _, bm) => set_bitmap (Some bm) ;;; fail SSH_ERR_ALLOC_FAIL
          | (Ok _, bm) => set_bitmap (Some bm)
          end
      end
  else ret tt.

(** One round of the loop over the serial numbers; [nrs] is the node that
    follows. *)
Definition emit_range (A : allocator) (rs : range) (nrs : option range) : M gen unit :=
  let! g := get_state in
  let state := g_state g in
  let final := match nrs with None => true | Some _ => false end in
  let gap := match nrs with None => 0 | Some nrs => u64 (fst nrs - snd rs) end in
  let contig := u64 (1 + (snd rs - fst rs)) in
  let '(next_state, force_new_sect) :=
    choose_next_state state contig final
      (if state =? 0 then 0 else u64 (fst rs - g_last g)) gap in
  (if negb (state =? 0) &&
      (force_new_sect || negb (next_state =? state) || (state =? KRL_SECTION_CERT_SERIAL_RANGE))
   then finish_section A ;;; reset_sect A
   else ret tt) ;;;
  (if negb (next_state =? state) || force_new_sect
   then start_section A next_state (fst rs) else ret tt) ;;;
  add_serials A rs contig ;;;
  set_last (snd rs).

Fixpoint emit_ranges (A : allocator) (l : list range) : M gen unit :=
  match l with
  | [] => ret tt
  | rs :: l => emit_range A rs (head l) ;;; emit_ranges A l
  end.

Fixpoint put_cstrings (A : allocator) (l : list bytes) : M sshbuf unit :=
  match l with
  | [] => ret tt
  | v :: l => sshbuf_put_cstring A (Some v) ;;; put_cstrings A l
  end.

Fixpoint put_blobs (A : allocator) (l : list bytes) : M sshbuf unit :=
  match l with
  | [] => ret tt
  | v :: l => sshbuf_put_string A v (zlen v) ;;; put_blobs A l
  end.

Section blob.
Context {sshkey : Type} `{KeyOps sshkey} `{KeyBlob sshkey}.

(** The temporary buffer is the blob. *)
Definition sshkey_puts (A : allocator) (key : sshkey) : M sshbuf unit :=
  match sshkey_to_blob key with
  | Err r => fail r
  | Ok blob => sshbuf_put_string A blob (zlen blob)
  end.

(** The three parts of [revoked_certs_generate]: the header with the optional key of
    the CA, the serial numbers with the final flush, the key IDs. *)
Definition put_ca_header (A : allocator) (ca_key : option sshkey) : M gen unit :=
  on_buf (match ca_key with
          | None => sshbuf_put_string A [] 0
          | Some k => sshkey_puts A k
          end) ;;;
  on_buf (sshbuf_put_string A [] 0).

Definition put_all_serials (A : allocator) (serials : list range) : M gen unit :=
  emit_ranges A serials ;;;
  let! g := get_state in
  if negb (g_state g =? 0) then finish_section A else ret tt.

Definition put_key_ids (A : allocator) (key_ids : list bytes) : M gen unit :=
  reset_sect A ;;;
  on_sect (put_cstrings A key_ids) ;;;
  let! g := get_state in
  on_buf (if negb (sshbuf_len (g_sect g) =? 0)
          then sshbuf_put_u8 A KRL_SECTION_CERT_KEY_ID ;;; sshbuf_put_stringb A (g_sect g)
          else ret tt).

Definition revoked_certs_generate (A : allocator) (rc : revoked_certs sshkey) : M sshbuf unit := fun buf =>
  match sshbuf_new A with
  | None => (Err SSH_ERR_ALLOC_FAIL, buf)
  | Some sect =>
      let '(r, g) :=
        (put_ca_header A (rc_ca_key rc) ;;;
         put_all_serials A (rc_serials rc) ;;;
         put_key_ids A (rc_key_ids rc)) (mk_gen buf sect None 0 0 0) in
      (goto_out r tt, g_buf g)
  end.

(** In what follows the state is [sect] and [buf]. *)
Fixpoint put_certs (A : allocator) (l : list (revoked_certs sshkey)) : M (sshbuf * sshbuf) unit :=
  match l with
  | [] => ret tt
  | rc :: l =>
      on_fst (fun sect => (Ok tt, sshbuf_reset A sect)) ;;;
      on_fst (revoked_certs_generate A rc) ;;;
      let! (sect, _) := get_state in
      on_snd (sshbuf_put_u8 A KRL_SECTION_CERTIFICATES ;;; sshbuf_put_stringb A sect) ;;;
      put_certs A l
  end.

Definition put_blob_section (A : allocator) (type : Z) (l : list bytes) : M (sshbuf * sshbuf) unit :=
  on_fst (fun sect => (Ok tt, sshbuf_reset A sect)) ;;;
  on_fst (put_blobs A l) ;;;
  let! (sect, _) := get_state in
  on_snd (if negb (sshbuf_len sect =? 0)
          then sshbuf_put_u8 A type ;;; sshbuf_put_stringb A sect
          else ret tt).

Fixpoint put_signatures (A : allocator) (keys : list sshkey) : M sshbuf unit :=
  match keys with
  | [] => ret tt
  | k :: keys =>
      sshbuf_put_u8 A KRL_SECTION_SIGNATURE ;;;
      sshkey_puts A k ;;;
      let! buf := get_state in
      let! sblob := lift (sshkey_sign k (buf_bytes buf)) in
      sshbuf_put_string A sblob (zlen sblob) ;;;
      put_signatures A keys
  end.

Definition put_header (A : allocator) (krl : ssh_krl sshkey) : M sshbuf unit :=
  sshbuf_put A KRL_MAGIC 8 ;;;
  sshbuf_put_u32 A KRL_FORMAT_VERSION ;;;
  sshbuf_put_u64 A (krl_version krl) ;;;
  sshbuf_put_u64 A (krl_generated_date krl) ;;;
  sshbuf_put_u64 A (krl_flags krl) ;;;
  sshbuf_put_string A [] 0 ;;;
  sshbuf_put_cstring A (krl_comment krl).

(** [now] is [time(NULL)]. *)
Definition set_date (now : Z) (krl : ssh_krl sshkey) : ssh_krl sshkey :=
  mk_krl (krl_version krl)
    (if krl_generated_date krl =? 0 then now else krl_generated_date krl)
    (krl_flags krl) (krl_comment krl)
    (krl_revoked_keys krl) (krl_revoked_sha1s krl) (krl_revoked_certs krl).

Definition ssh_krl_to_blob (A : allocator) (now : Z) (sign_keys : list sshkey)
    : M (ssh_krl sshkey * sshbuf) unit := fun '(krl, buf) =>
  let krl := set_date now krl in
  match sshbuf_new A with
  | None => (Err SSH_ERR_ALLOC_FAIL, (krl, buf))
  | Some sect =>
      let '(r, (_, buf)) :=
        (on_snd (put_header A krl) ;;;
         put_certs A (krl_revoked_certs krl) ;;;
         put_blob_section A KRL_SECTION_EXPLICIT_KEY (krl_revoked_keys krl) ;;;
         put_blob_section A KRL_SECTION_FINGERPRINT_SHA1 (krl_revoked_sha1s krl) ;;;
         on_snd (put_signatures A sign_keys)) (sect, buf) in
      (r, (krl, buf))
  end.

(** ** Reading

    [mem] says whether the allocations of an operation on the list succeed and
    [pick] is its choice between overlapping nodes (Krl.v); both may depend on
    the list, so that every pattern of failures is covered. *)

Section parse.
Context (A : allocator) (mem : ssh_krl sshkey -> bool) (pick : ssh_krl sshkey -> nat).
Abbreviation parser X := (M (sshbuf * ssh_krl sshkey) X).

Definition revoke_serials (ca : option sshkey) (lo hi : Z) : M (ssh_krl sshkey) unit := fun krl =>
  ssh_krl_revoke_cert_by_serial_range (pick krl) (mem krl) ca lo hi krl.
Definition revoke_key_id (ca : option sshkey) (id : bytes) : M (ssh_krl sshkey) unit := fun krl =>
  ssh_krl_revoke_cert_by_key_id (mem krl) ca id krl.

(** The string a [char *] points to. *)
Fixpoint c_string (v : bytes) : bytes :=
  match v with
  | [] => []
  | c :: v => if c =? 0 then [] else c :: c_string v
  end.

(** [while (sshbuf_len(buf) > 0)] *)
Fixpoint while_data (fuel : nat) (body : parser unit) : parser unit :=
  let! (buf, _) := get_state in
  if negb (0 <? sshbuf_len buf) then ret tt
  else
    match fuel with
    | O => fail OUT_OF_FUEL
    | S fuel => body ;;; while_data fuel body
    end.
(** Every round reads something. *)
Definition while_buf (body : parser unit) : parser unit :=
  let! (buf, _) := get_state in
  while_data (Z.to_nat (sshbuf_len buf)) body.

Definition parse_serial_list (ca : option sshkey) : parser unit :=
  while_buf
    (let! serial := on_fst sshbuf_get_u64 in
     on_snd (revoke_serials ca serial serial)).

Definition parse_serial_range (ca : option sshkey) : parser unit :=
  let! serial_lo := on_fst sshbuf_get_u64 in
  let! serial_hi := on_fst sshbuf_get_u64 in
  on_snd (revoke_serials ca serial_lo serial_hi).

(** The loop over the bits, [serials] being those still to be tested. *)
Fixpoint parse_bits (ca : option sshkey) (serial_lo : Z) (bm : bitmap) (serials : list Z)
    : M (ssh_krl sshkey) unit :=
  match serials with
  | [] => ret tt
  | serial :: serials =>
      if (0 <? serial) && (u64 (serial_lo + serial) =? 0) then fail SSH_ERR_INVALID_FORMAT
      else
        (if bitmap_test_bit bm serial =? 0 then ret tt
         else revoke_serials ca (u64 (serial_lo + serial)) (u64 (serial_lo + serial))) ;;;
        parse_bits ca serial_lo bm serials
  end.

Definition parse_serial_bitmap (ca : option sshkey) : parser unit :=
  match bitmap_new A with
  | None => fail SSH_ERR_ALLOC_FAIL
  | Some bm =>
      let! serial_lo := on_fst sshbuf_get_u64 in
      let! blob := on_fst sshbuf_get_bignum2_bytes_direct in
      match bitmap_from_string A blob (zlen blob) bm with
      | (Err _, _) => fail SSH_ERR_INVALID_FORMAT
      | (Ok _, bm) =>
          let '(nbits, bm) := bitmap_nbits bm in
          on_snd (parse_bits ca serial_lo bm (seqZ 0 nbits))
      end
  end.

Definition parse_key_ids (ca : option sshkey) : parser unit :=
  while_buf
    (let! (key_id, _) := on_fst (sshbuf_get_cstring A true) in
     on_snd (revoke_key_id ca (c_string (default [] key_id)))).

(** The contents of one subsection, which must be used up. *)
Definition parse_subsection (ca : option sshkey) (type : Z) : parser unit :=
  (if type =? KRL_SECTION_CERT_SERIAL_LIST then parse_serial_list ca
   else if type =? KRL_SECTION_CERT_SERIAL_RANGE then parse_serial_range ca
   else if type =? KRL_SECTION_CERT_SERIAL_BITMAP then parse_serial_bitmap ca
   else if type =? KRL_SECTION_CERT_KEY_ID then parse_key_ids ca
   else fail SSH_ERR_INVALID_FORMAT) ;;;
  let! (subsect, _) := get_state in
  if 0 <? sshbuf_len subsect then fail SSH_ERR_INVALID_FORMAT else ret tt.

(** Runs a parser on a child buffer. *)
Definition in_child (child : sshbuf) (m : parser unit) : parser unit :=
  on_snd (fun krl => let '(r, (_, krl)) := m (child, krl) in (r, krl)).

Definition parse_revoked_certs : parser unit :=
  match sshbuf_new A with
  | None => fail SSH_ERR_ALLOC_FAIL
  | Some _ =>
      let! (blob, blen) := on_fst sshbuf_get_string_direct in
      on_fst sshbuf_skip_string ;;;
      let! ca_key :=
        if negb (blen =? 0) then
          let! k := lift (sshkey_from_blob (ztake blen blob)) in ret (Some k)
        else ret None in
      while_buf
        (let! type := on_fst sshbuf_get_u8 in
         let! subsect := on_fst (froms A) in
         in_child subsect (parse_subsection ca_key type))
  end.

Definition parse_blob (type : Z) (rdata : bytes) : M (ssh_krl sshkey) unit := fun krl =>
  if type =? KRL_SECTION_EXPLICIT_KEY then
    let '(r, t) := revoke_blob (mem krl) rdata (krl_revoked_keys krl) in (r, with_keys t krl)
  else
    let '(r, t) := revoke_blob (mem krl) rdata (krl_revoked_sha1s krl) in (r, with_sha1s t krl).

Definition parse_blobs (type : Z) : parser unit :=
  while_buf
    (let! (rdata, rlen) := on_fst (sshbuf_get_string A true) in
     if (type =? KRL_SECTION_FINGERPRINT_SHA1) && negb (rlen =? 20) then fail SSH_ERR_INVALID_FORMAT
     else on_snd (parse_blob type (ztake rlen (default [] rdata)))).

Definition no_data_left : parser unit :=
  let! (sect, _) := get_state in
  if 0 <? sshbuf_len sect then fail SSH_ERR_INVALID_FORMAT else ret tt.

(** The 1st pass: the keys of the signatures, in order; [sects] is the KRL and
    the state the copy that is read. *)
Fixpoint check_signatures (fuel : nat) (buf : sshbuf) (sig_seen : bool) (ca_used : list sshkey)
    : M sshbuf (list sshkey) :=
  let! copy := get_state in
  if negb (0 <? sshbuf_len copy) then ret ca_used
  else
    match fuel with
    | O => fail OUT_OF_FUEL
    | S fuel =>
        let! type := sshbuf_get_u8 in
        let! (blob, blen) := sshbuf_get_string_direct in
        if negb (type =? KRL_SECTION_SIGNATURE) then
          if sig_seen then fail SSH_ERR_INVALID_FORMAT
          else check_signatures fuel buf sig_seen ca_used
        else
          match sshkey_from_blob (ztake blen blob) with
          | Err _ => fail SSH_ERR_INVALID_FORMAT
          | Ok key =>
              let! copy := get_state in
              if sshbuf_len buf <? sshbuf_len copy then fail SSH_ERR_INTERNAL_ERROR
              else
                let sig_off := u64 (sshbuf_len buf - sshbuf_len copy) in
                let! (blob, blen) := fun copy =>
                  match sshbuf_get_string_direct copy with
                  | (Err _, copy) => (Err SSH_ERR_INVALID_FORMAT, copy)
                  | ok => ok
                  end in
                lift (sshkey_verify key (ztake blen blob) (ztake sig_off (ptr_of buf))) ;;;
                if existsb (fun k => sshkey_equal (Some k) (Some key)) ca_used
                then fail SSH_ERR_INVALID_FORMAT
                else
                  match A (8 * (zlen ca_used + 1)) with
                  | None => fail SSH_ERR_ALLOC_FAIL
                  | Some _ => check_signatures fuel buf true (ca_used ++ [key])
                  end
          end
    end.

(** The 2nd pass. *)
Definition load_sections : parser unit :=
  while_buf
    (let! type := on_fst sshbuf_get_u8 in
     let! sect := on_fst (froms A) in
     if type =? KRL_SECTION_CERTIFICATES then
       in_child sect (parse_revoked_certs ;;; no_data_left)
     else if (type =? KRL_SECTION_EXPLICIT_KEY) || (type =? KRL_SECTION_FINGERPRINT_SHA1) then
       in_child sect (parse_blobs type ;;; no_data_left)
     else if type =? KRL_SECTION_SIGNATURE then on_fst sshbuf_skip_string
     else fail SSH_ERR_INVALID_FORMAT).

Definition set_header (version date flags : Z) (comment : option bytes) (krl : ssh_krl sshkey)
    : ssh_krl sshkey :=
  mk_krl version date flags comment
    (krl_revoked_keys krl) (krl_revoked_sha1s krl) (krl_revoked_certs krl).

Definition read_header (krl : ssh_krl sshkey) : M sshbuf (ssh_krl sshkey) :=
  let! format_version := sshbuf_get_u32 in
  if negb (format_version =? KRL_FORMAT_VERSION) then fail SSH_ERR_INVALID_FORMAT
  else
    let! version := sshbuf_get_u64 in
    let! date := sshbuf_get_u64 in
    let! flags := sshbuf_get_u64 in
    sshbuf_skip_string ;;;
    let! (comment, _) := sshbuf_get_cstring A true in
    ret (set_header version date flags (c_string <$> comment) krl).

(** The keys that signed, without those the list revokes. *)
Definition not_revoked (krl : ssh_krl sshkey) (ca_used : list sshkey) : list sshkey :=
  List.filter (fun k => is_ok (ssh_krl_check_key krl k)) ca_used.

(** The checks after the list is loaded. *)
Definition check_signers (krl : ssh_krl sshkey) (ca_used sign_ca_keys : list sshkey) : result unit :=
  let good := not_revoked krl ca_used in
  let sig_seen := negb (bool_decide (good = [])) in
  if negb (bool_decide (ca_used = [])) && negb sig_seen then Err SSH_ERR_KEY_REVOKED
  else if sig_seen && negb (bool_decide (sign_ca_keys = [])) then
    if existsb (fun s => existsb (fun k => sshkey_equal (Some k) (Some s)) good) sign_ca_keys
    then Ok tt else Err SSH_ERR_SIGNATURE_INVALID
  else Ok tt.

(** [None] is the NULL list, returned without an error when [ssh_krl_init] has no
    memory: r is still 0 then. *)
Definition ssh_krl_from_blob (init : bool) (sign_ca_keys : list sshkey) (buf : sshbuf)
    : result (option (ssh_krl sshkey)) :=
  if (sshbuf_len buf <? 8) || negb (bool_decide (ztake 8 (ptr_of buf) = KRL_MAGIC))
  then Err SSH_ERR_KRL_BAD_MAGIC
  else
    match fromb A buf with
    | None => Err SSH_ERR_ALLOC_FAIL
    | Some copy =>
        match sshbuf_consume 8 copy with
        | (Err r, _) => Err r
        | (Ok _, copy) =>
            match ssh_krl_init init with
            | None => Ok None
            | Some krl =>
                match read_header krl copy with
                | (Err r, _) => Err r
                | (Ok krl, copy) =>
                    if sshbuf_len buf <? sshbuf_len copy then Err SSH_ERR_INTERNAL_ERROR
                    else
                      let sects_off := u64 (sshbuf_len buf - sshbuf_len copy) in
                      match check_signatures (Z.to_nat (sshbuf_len copy)) buf false [] copy with
                      | (Err r, _) => Err r
                      | (Ok ca_used, copy) =>
                          if negb (sshbuf_len copy =? 0) then Err SSH_ERR_INTERNAL_ERROR
                          else
                            match fromb A buf with
                            | None => Err SSH_ERR_ALLOC_FAIL
                            | Some copy =>
                                match (on_fst (sshbuf_consume sects_off) ;;; load_sections) (copy, krl) with
                                | (Err r, _) => Err r
                                | (Ok _, (_, krl)) =>
                                    match check_signers krl ca_used sign_ca_keys with
                                    | Err r => Err r
                                    | Ok _ => Ok (Some krl)
                                    end
                                end
                            end
                      end
                end
            end
        end
    end.

(** Opening a file fails or gives what [sshkey_load_file] does with it.  [None]
    stands for the use of the NULL list. *)
Definition ssh_krl_file_contains_key (open : bytes -> option (M sshbuf unit)) (init : bool)
    (path : option bytes) (key : sshkey) : option (result unit) :=
  match path with
  | None => Some (Ok tt)
  | Some path =>
      match sshbuf_new A with
      | None => Some (Err SSH_ERR_ALLOC_FAIL)
      | Some krlbuf =>
          match open path with
          | None => Some (Err SSH_ERR_SYSTEM_ERROR)
          | Some load =>
              match load krlbuf with
              | (Err r, _) => Some (Err r)
              | (Ok _, krlbuf) =>
                  match ssh_krl_from_blob init [] krlbuf with
                  | Err r => Some (Err r)
                  | Ok None => None
                  | Ok (Some krl) => Some (ssh_krl_check_key krl key)
                  end
              end
          end
      end
  end.
End parse.
End blob.
