(* ===== verification/KrlBlobSpec.v ===== *)
(** What [ssh_krl_to_blob] writes: the sections a cost model chooses name exactly
    the serial numbers of the list, and the encoding of the whole list. *)

From Stdlib Require Import Sorted.
From S2P Require Import Prelude Wire Sshbuf SshbufGetput SshbufSpec SshbufHeap Bitmap Krl KrlBlob.

#[local] Arguments be_bytes n v : simpl never.
#[local] Arguments wr_string v : simpl never.
#[local] Arguments wr_bignum2 v : simpl never.

(** ** Sections of serial numbers: specification *)

Inductive section : Type :=
| SList (l : list Z)
| SRange (lo hi : Z)
| SBitmap (start value : Z).

Definition section_type (s : section) : Z :=
  match s with
  | SList _ => KRL_SECTION_CERT_SERIAL_LIST
  | SRange _ _ => KRL_SECTION_CERT_SERIAL_RANGE
  | SBitmap _ _ => KRL_SECTION_CERT_SERIAL_BITMAP
  end.

(** The bits of a bitmap as the bytes that [bitmap_to_string] gives. *)
Definition bitmap_bytes (v : Z) : bytes := be_bytes (Z.to_nat (nbytes v)) v.

Definition section_body (s : section) : bytes :=
  match s with
  | SList l => concat (be_bytes 8 <$> l)
  | SRange lo hi => be_bytes 8 lo ++ be_bytes 8 hi
  | SBitmap start v => be_bytes 8 start ++ wr_bignum2 (bitmap_bytes v)
  end.

Definition section_wire (s : section) : bytes := section_type s :: wr_string (section_body s).

(** The serial numbers a section names. *)
Definition section_has (s : section) (n : Z) : Prop :=
  match s with
  | SList l => n ∈ l
  | SRange lo hi => lo <= n <= hi
  | SBitmap start v => start <= n /\ Z.testbit v (n - start) = true
  end.

Definition serial_ok (n : Z) : Prop := 0 < n < 2 ^ 64.

Definition section_ok (s : section) : Prop :=
  match s with
  | SList l => Forall serial_ok l
  | SRange lo hi => serial_ok lo /\ serial_ok hi /\ lo <= hi
  | SBitmap start v => serial_ok start /\ 0 < v /\ start + Z.log2 v < 2 ^ 64
  end.

(** The bits of a bitmap section, which the reader limits. *)
Definition section_bits (s : section) : Z :=
  match s with SBitmap _ v => Z.log2 v + 1 | _ => 0 end.

Definition sections_have (l : list section) (n : Z) : Prop := Exists (fun s => section_has s n) l.

(** ** The cost model *)

Ltac state_cases := change KRL_SECTION_CERT_SERIAL_LIST with 32 in *;
  change KRL_SECTION_CERT_SERIAL_RANGE with 33 in *; change KRL_SECTION_CERT_SERIAL_BITMAP with 34 in *.

Lemma ceil_8 x : x <= 8 * ((x + 7) / 8).
Proof. pose proof (Z.div_mod (x + 7) 8). pose proof (Z.mod_pos_bound (x + 7) 8). lia. Qed.

Lemma ceil_8_small x : x <= 208 -> (x + 7) / 8 <= 26.
Proof. intros. apply Z.lt_succ_r, Z.div_lt_upper_bound; lia. Qed.

(** A section of a known kind is chosen; a bitmap is continued or begun only over
    a short distance, and a list is for a few serial numbers. *)
Lemma choose_next_state_spec st contig final last next r force :
  1 <= contig -> 0 <= last -> 0 <= next ->
  choose_next_state st contig final last next = (r, force) ->
  (r = KRL_SECTION_CERT_SERIAL_LIST /\ force = false /\ contig <= 3) \/
  (r = KRL_SECTION_CERT_SERIAL_RANGE /\ force = false) \/
  (r = KRL_SECTION_CERT_SERIAL_BITMAP /\ contig <= 208 /\ (force = false -> last + contig <= 208)).
Proof.
  intros Hc Hl Hn. unfold choose_next_state. change (Z.shiftl 1 31) with 2147483648.
  state_cases. destruct (st =? 32), (st =? 34), ((st =? 33) || (st =? 0)), final; cbv beta iota zeta;
    repeat match goal with |- context [(?x + 7) / 8] =>
      let c := fresh "c" in pose proof (ceil_8 x); pose proof (ceil_8_small x);
      generalize dependent ((x + 7) / 8); intros c end; intros;
    match goal with E : _ = (r, force) |- _ => revert E end;
    repeat match goal with |- context [?a <? ?b] => destruct (Z.ltb_spec a b) end;
    intros [= <- <-]; intuition lia.
Qed.

(** ** Error codes

    All are negative: none is taken for success, and none is the mark of a loop
    that ran out of fuel. *)

Class NegErr {S X} (m : M S X) : Prop := neg_err s e s' : m s = (Err e, s') -> e < 0.

#[export] Instance neg_ret {S X} (x : X) : NegErr (S := S) (ret x).
Proof. intros s e s'. discriminate. Qed.
#[export] Instance neg_get {S} : NegErr (@get_state S).
Proof. intros s e s'. discriminate. Qed.
#[export] Instance neg_put {S} (s0 : S) : NegErr (put_state s0).
Proof. intros s e s'. discriminate. Qed.
#[export] Instance neg_bind {S X Y} (m : M S X) (k : X -> M S Y) :
  NegErr m -> (forall x, NegErr (k x)) -> NegErr (bind m k).
Proof.
  intros Hm Hk s e s' E. unfold bind in E. destruct (m s) as [[x|e1] s1] eqn:E1.
  - by eapply Hk.
  - injection E as -> ->. by eapply Hm.
Qed.
#[export] Instance neg_if {S X} (c : bool) (m1 m2 : M S X) :
  NegErr m1 -> NegErr m2 -> NegErr (if c then m1 else m2).
Proof. by destruct c. Qed.
#[export] Instance neg_on_fst {S T X} (m : M S X) : NegErr m -> NegErr (on_fst (T := T) m).
Proof.
  intros Hm [s t] e s' E. unfold on_fst in E. destruct (m s) as [r s1] eqn:E1.
  injection E as -> _. by eapply Hm.
Qed.
#[export] Instance neg_on_snd {S T X} (m : M T X) : NegErr m -> NegErr (on_snd (S := S) m).
Proof.
  intros Hm [s t] e s' E. unfold on_snd in E. destruct (m t) as [r s1] eqn:E1.
  injection E as -> _. by eapply Hm.
Qed.
#[export] Instance neg_on_buf {X} (m : M sshbuf X) : NegErr m -> NegErr (on_buf m).
Proof.
  intros Hm g e s' E. unfold on_buf in E. destruct (m (g_buf g)) as [r s1] eqn:E1.
  injection E as -> _. by eapply Hm.
Qed.
#[export] Instance neg_on_sect {X} (m : M sshbuf X) : NegErr m -> NegErr (on_sect m).
Proof.
  intros Hm g e s' E. unfold on_sect in E. destruct (m (g_sect g)) as [r s1] eqn:E1.
  injection E as -> _. by eapply Hm.
Qed.
#[export] Instance neg_lift_match {S X} (r : result X) :
  (forall e, r = Err e -> e < 0) -> NegErr (S := S) (lift r).
Proof. intros Hr s e s'. unfold lift. intros [= -> _]. by apply Hr. Qed.
#[export] Hint Extern 2 (NegErr (fail ?e)) =>
  (intros ? ? ?; unfold fail; intros [= <- _]; reflexivity) : typeclass_instances.
#[export] Hint Extern 4 (NegErr (fun s => (Ok _, _))) => (intros ? ? ?; discriminate) : typeclass_instances.
(** [neg]: unfolds nothing; cases on the matches of the computation. *)
Ltac neg :=
  repeat (apply _ || (apply neg_bind; [|intros ?]) ||
          match goal with |- NegErr (match ?x with _ => _ end) => destruct x end).

Lemma sanity_code b e : sshbuf_check_sanity b = Err e -> e < 0.
Proof. unfold sshbuf_check_sanity. destruct (_ || _); [|done]. by intros [= <-]. Qed.
Lemma check_reserve_code n b e : sshbuf_check_reserve n b = Err e -> e < 0.
Proof.
  unfold sshbuf_check_reserve. destruct (sshbuf_check_sanity b) eqn:E.
  - destruct (_ || _); [by intros [= <-]|]. destruct (_ || _); [by intros [= <-]|done].
  - intros [= <-]. by eapply sanity_code.
Qed.
Lemma peek_string_code b e : sshbuf_peek_string_direct b = Err e -> e < 0.
Proof.
  unfold sshbuf_peek_string_direct. repeat case_match; try done; by intros [= <-].
Qed.

#[export] Instance neg_sanity {S} b : NegErr (S := S) (lift (sshbuf_check_sanity b)).
Proof. apply neg_lift_match, sanity_code. Qed.
#[export] Instance neg_check_reserve {S} n b : NegErr (S := S) (lift (sshbuf_check_reserve n b)).
Proof. apply neg_lift_match, check_reserve_code. Qed.
#[export] Instance neg_peek {S} b : NegErr (S := S) (lift (sshbuf_peek_string_direct b)).
Proof. apply neg_lift_match, peek_string_code. Qed.
#[export] Instance neg_store i v : NegErr (store i v).
Proof. intros s e s'. discriminate. Qed.
#[export] Instance neg_reserve A n : NegErr (sshbuf_reserve A n).
Proof. unfold sshbuf_reserve, sshbuf_allocate. neg. Qed.
#[export] Instance neg_consume n : NegErr (sshbuf_consume n).
Proof. unfold sshbuf_consume. neg. Qed.
#[export] Instance neg_put_bytes A v n : NegErr (sshbuf_put A v n).
Proof. unfold sshbuf_put. neg. Qed.
#[export] Instance neg_put_u8 A v : NegErr (sshbuf_put_u8 A v).
Proof. unfold sshbuf_put_u8. neg. Qed.
#[export] Instance neg_put_u64 A v : NegErr (sshbuf_put_u64 A v).
Proof. unfold sshbuf_put_u64. neg. Qed.
#[export] Instance neg_put_string A v n : NegErr (sshbuf_put_string A v n).
Proof. unfold sshbuf_put_string. neg. Qed.
#[export] Instance neg_put_cstring A v : NegErr (sshbuf_put_cstring A v).
Proof. apply neg_put_string. Qed.
#[export] Instance neg_put_stringb A v : NegErr (sshbuf_put_stringb A v).
Proof. apply neg_put_string. Qed.
#[export] Instance neg_put_bignum A v n : NegErr (sshbuf_put_bignum2_bytes A v n).
Proof. unfold sshbuf_put_bignum2_bytes. neg. Qed.
#[export] Instance neg_put_serials A n lo : NegErr (put_serials A n lo).
Proof. revert lo. induction n; intros; simpl; neg. Qed.
#[export] Instance neg_put_cstrings A l : NegErr (put_cstrings A l).
Proof. induction l; simpl; neg. Qed.
#[export] Instance neg_put_bitmap A bm : NegErr (put_bitmap A bm).
Proof. unfold put_bitmap. neg. Qed.
#[export] Instance neg_reset_sect A : NegErr (reset_sect A).
Proof. unfold reset_sect. neg. Qed.
#[export] Instance neg_set_bitmap b : NegErr (set_bitmap b).
Proof. intros s e s'. discriminate. Qed.
#[export] Instance neg_set_bitmap_start v : NegErr (set_bitmap_start v).
Proof. intros s e s'. discriminate. Qed.
#[export] Instance neg_set_state v : NegErr (set_state v).
Proof. intros s e s'. discriminate. Qed.
#[export] Instance neg_set_last v : NegErr (set_last v).
Proof. intros s e s'. discriminate. Qed.
#[export] Instance neg_finish_section A : NegErr (finish_section A).
Proof. unfold finish_section. neg. Qed.
#[export] Instance neg_start_section A st lo : NegErr (start_section A st lo).
Proof. unfold start_section. neg. Qed.

(** ** Writing to one of the buffers *)

Lemma put_serials_appends A n lo :
  0 <= lo -> lo + Z.of_nat n <= 2 ^ 64 ->
  Appends A (put_serials A n lo) (concat (be_bytes 8 <$> seqZ lo (Z.of_nat n))).
Proof.
  revert lo. induction n as [|n IH]; intros lo Hlo Hhi; [simpl; apply _|].
  rewrite seqZ_cons by lia. rewrite fmap_cons. cbn [put_serials concat].
  rewrite wrap_small by lia. apply appends_bind.
  - apply atomic_appends, sshbuf_put_u64_atomic. unfold in_range. lia.
  - replace (Z.pred (Z.of_nat (S n))) with (Z.of_nat n) by lia.
    replace (Z.succ lo) with (lo + 1) by lia. apply IH; lia.
Qed.

Lemma key_ids_appends A l :
  Forall (fun v => Bytes v) l -> Appends A (put_cstrings A l) (concat (wr_string <$> l)).
Proof.
  induction 1 as [|v l Hv _ IH]; [simpl; apply _|]. rewrite fmap_cons. apply appends_bind; [|done].
  by apply atomic_appends, sshbuf_put_cstring_atomic.
Qed.

Lemma put_blobs_appends A l :
  Forall (fun v => Bytes v) l -> Appends A (put_blobs A l) (concat (wr_string <$> l)).
Proof.
  induction 1 as [|v l Hv _ IH]; [simpl; apply _|]. rewrite fmap_cons. apply appends_bind; [|done].
  by apply atomic_appends, sshbuf_put_string_atomic.
Qed.

(** A section written from the buffer that holds its body. *)
Lemma put_section_appends A type sect :
  is_byte type -> wf sect ->
  Appends A (sshbuf_put_u8 A type ;;; sshbuf_put_stringb A sect)
    (type :: wr_string (contents sect)).
Proof.
  intros Ht Hs. change (type :: ?w) with ([type] ++ w). apply appends_bind; apply atomic_appends.
  - by apply sshbuf_put_u8_atomic.
  - by apply sshbuf_put_stringb_atomic.
Qed.

(** ** Bitmaps of serial numbers *)

Fixpoint add_bits (v : Z) (n : nat) (bit : Z) : Z :=
  match n with O => v | S n => add_bits (Z.setbit v bit) n (bit + 1) end.

Lemma add_bits_testbit n v bit i :
  0 <= bit ->
  Z.testbit (add_bits v n bit) i =
  Z.testbit v i || ((bit <=? i) && (i <? bit + Z.of_nat n)).
Proof.
  revert v bit. induction n as [|n IH]; intros v bit Hb; simpl add_bits.
  - destruct (Z.leb_spec bit i), (Z.ltb_spec i (bit + Z.of_nat 0)); simpl; try lia;
      by rewrite orb_false_r.
  - rewrite IH, Z.setbit_eqb by lia.
    destruct (Z.testbit v i); [by rewrite !orb_true_r|]. rewrite !orb_false_r, orb_false_l.
    destruct (Z.eqb_spec bit i), (Z.leb_spec bit i), (Z.leb_spec (bit + 1) i),
      (Z.ltb_spec i (bit + 1 + Z.of_nat n)), (Z.ltb_spec i (bit + Z.of_nat (S n))); simpl; lia.
Qed.

Lemma add_bits_nonneg n v bit : 0 <= v -> 0 <= add_bits v n bit.
Proof.
  revert v bit. induction n as [|n IH]; intros; simpl; [done|]. apply IH.
  unfold Z.setbit. apply Z.lor_nonneg. split; [done|]. by apply Z.shiftl_nonneg.
Qed.

(** Adding a run of bits above those that are set. *)
Lemma add_bits_log2 n v bit :
  0 <= v -> 0 <= bit -> (v = 0 \/ Z.log2 v < bit) -> (0 < n)%nat ->
  0 < add_bits v n bit /\ Z.log2 (add_bits v n bit) = bit + Z.of_nat n - 1.
Proof.
  intros Hv Hb Hl Hn.
  assert (Z.testbit (add_bits v n bit) (bit + Z.of_nat n - 1) = true) as Ht.
  { rewrite add_bits_testbit by done.
    destruct (Z.leb_spec bit (bit + Z.of_nat n - 1)); [|lia].
    destruct (Z.ltb_spec (bit + Z.of_nat n - 1) (bit + Z.of_nat n)); [|lia]. by rewrite orb_true_r. }
  pose proof (add_bits_nonneg n v bit Hv) as Hp.
  assert (0 < add_bits v n bit) as Hpos.
  { destruct (Z.eq_dec (add_bits v n bit) 0) as [E|]; [|lia]. by rewrite E, Z.testbit_0_l in Ht. }
  split; [done|]. apply Z.le_antisymm.
  - apply Z.lt_succ_r. destruct (Z.le_gt_cases (Z.succ (bit + Z.of_nat n - 1)) (Z.log2 (add_bits v n bit)))
      as [Hge|]; [|lia]. exfalso. pose proof (Z.bit_log2 _ Hpos) as Hbit.
    rewrite add_bits_testbit in Hbit by done.
    destruct (Z.ltb_spec (Z.log2 (add_bits v n bit)) (bit + Z.of_nat n)); [lia|].
    rewrite andb_false_r, orb_false_r in Hbit.
    destruct Hl as [->|Hl]; [by rewrite Z.testbit_0_l in Hbit|].
    rewrite Z.bits_above_log2 in Hbit by (done || lia). done.
  - destruct (Z.le_gt_cases (bit + Z.of_nat n - 1) (Z.log2 (add_bits v n bit))) as [|Hlt]; [done|].
    rewrite Z.bits_above_log2 in Ht by (lia || done). done.
Qed.

Lemma set_bits_ok A n bit bm bm' :
  wf_bitmap bm -> 0 <= bit -> bit + Z.of_nat n <= 2 ^ 64 ->
  set_bits A n bit bm = (Ok tt, bm') ->
  wf_bitmap bm' /\ bm_value bm' = add_bits (bm_value bm) n bit /\
  ((0 < n)%nat -> bit + Z.of_nat n - 1 <= BITMAP_MAX).
Proof.
  revert bit bm. induction n as [|n IH]; intros bit bm Hw Hb Hn E; simpl in E.
  { injection E as <-. split_and!; [done..|lia]. }
  apply bind_Ok in E as ([]&b1&E1&E2). rewrite wrap_small in E1 by lia.
  pose proof (bitmap_set_bit_ok A bit bm Hw Hb) as Hs. rewrite E1 in Hs.
  destruct Hs as (Hw1 & Hv & Hm). apply IH in E2 as (Hw2 & Hv2 & Hm2); [|done|lia..].
  split_and!; [done|by rewrite Hv2, Hv|]. intros _. destruct n; [lia|].
  specialize (Hm2 ltac:(lia)). lia.
Qed.

Lemma put_bitmap_appends A bm b b' :
  wf_bitmap bm -> nbytes (bm_value bm) <= SSHBUF_SIZE_MAX - 5 -> inv b ->
  put_bitmap A bm b = (Ok tt, b') ->
  inv b' /\ contents b' = contents b ++ wr_bignum2 (bitmap_bytes (bm_value bm)).
Proof.
  intros Hw Hn Hb E. unfold put_bitmap in E. rewrite bitmap_nbytes_ok in E by done.
  destruct (retop_ok bm Hw) as (Hw1 & Hv & _).
  pose proof (nbytes_spec (bm_value bm)) as [Hpos _]; [apply (wvalue_nonneg _ (wb_words _ Hw))|].
  destruct (A _) as [[p junk]|]; [|done].
  rewrite bitmap_to_string_ok, Hv in E
    by (done || (rewrite zlen_realloc_mem; lia)).
  rewrite Z.ltb_irrefl in E. simpl fst in E.
  set (blob := be_bytes _ _ ++ zdrop _ _) in E.
  assert (blob = bitmap_bytes (bm_value bm)) as Eb.
  { unfold blob. rewrite (zdrop_ge _ (realloc_mem _ _ _)), app_nil_r; [done|].
    rewrite zlen_realloc_mem; lia. }
  rewrite Eb in E. clear blob Eb.
  assert (zlen (bitmap_bytes (bm_value bm)) = nbytes (bm_value bm)) as El
    by (unfold bitmap_bytes; rewrite be_bytes_zlen; lia).
  rewrite <- El in E. eapply appends_run; [|done|exact E].
  apply atomic_appends, sshbuf_put_bignum2_bytes_atomic; [apply be_bytes_Bytes|lia].
Qed.

(** ** The generator *)

(** What the generator has written, [out], and its open section. *)
Record gen_inv (out : bytes) (st : Z) (body : bytes) (bm : option (Z * Z)) (g : gen) : Prop := {
  gi_buf : inv (g_buf g);
  gi_out : contents (g_buf g) = out;
  gi_sect : inv (g_sect g);
  gi_body : contents (g_sect g) = body;
  gi_state : g_state g = st;
  gi_bm : match bm with
          | None => True
          | Some (start, v) =>
              g_bitmap_start g = start /\
              exists b, g_bitmap g = Some b /\ wf_bitmap b /\ bm_value b = v
          end
}.

(** What is in the buffer of the section while it is open. *)
Definition open_body (s : section) : bytes :=
  match s with SBitmap start _ => be_bytes 8 start | _ => section_body s end.
Definition open_bitmap (s : section) : option (Z * Z) :=
  match s with SBitmap start v => Some (start, v) | _ => None end.
Definition holds (out : bytes) (s : section) (g : gen) : Prop :=
  gen_inv out (section_type s) (open_body s) (open_bitmap s) g.

Lemma on_buf_Ok {X} (m : M sshbuf X) g x g' :
  on_buf m g = (Ok x, g') -> exists b', m (g_buf g) = (Ok x, b') /\
    g' = mk_gen b' (g_sect g) (g_bitmap g) (g_bitmap_start g) (g_state g) (g_last g).
Proof. unfold on_buf. destruct (m (g_buf g)) as [r b']. intros [= -> <-]. eauto. Qed.

Lemma on_sect_Ok {X} (m : M sshbuf X) g x g' :
  on_sect m g = (Ok x, g') -> exists b', m (g_sect g) = (Ok x, b') /\
    g' = mk_gen (g_buf g) b' (g_bitmap g) (g_bitmap_start g) (g_state g) (g_last g).
Proof. unfold on_sect. destruct (m (g_sect g)) as [r b']. intros [= -> <-]. eauto. Qed.

Lemma gen_put_buf A m w out st body bm g g' :
  Appends A m w -> gen_inv out st body bm g -> on_buf m g = (Ok tt, g') ->
  gen_inv (out ++ w) st body bm g' /\ g_last g' = g_last g.
Proof.
  intros Hm [] (b'&E&->)%on_buf_Ok. eapply appends_run in E as [Hi Hc]; [|done..].
  split; [|done]. constructor; simpl; try done. by rewrite Hc, gi_out0.
Qed.

Lemma gen_put_sect A m w out st body bm g g' :
  Appends A m w -> gen_inv out st body bm g -> on_sect m g = (Ok tt, g') ->
  gen_inv out st (body ++ w) bm g' /\ g_last g' = g_last g.
Proof.
  intros Hm [] (b'&E&->)%on_sect_Ok. eapply appends_run in E as [Hi Hc]; [|done..].
  split; [|done]. constructor; simpl; try done. by rewrite Hc, gi_body0.
Qed.

Lemma reset_inv A b : inv b -> inv (sshbuf_reset A b) /\ contents (sshbuf_reset A b) = [].
Proof.
  intros (Hw & W & Hm). pose proof (sshbuf_reset_spec A b Hw (fun _ => Hm)) as (Hw' & F & Hc).
  split; [|done]. by apply (same_frame_inv b).
Qed.

Lemma gen_reset A out st body bm g g' :
  gen_inv out st body bm g -> reset_sect A g = (Ok tt, g') ->
  gen_inv out st [] bm g' /\ g_last g' = g_last g.
Proof.
  unfold reset_sect. intros [] (b'&E&->)%on_sect_Ok. injection E as <-. destruct (reset_inv A (g_sect g)); [done|].
  split; [|done]. by constructor.
Qed.

Lemma section_type_byte s : is_byte (section_type s).
Proof. destruct s; simpl; unfold in_range; state_cases; lia. Qed.

Definition section_small (s : section) : Prop :=
  match s with SBitmap _ v => nbytes v <= SSHBUF_SIZE_MAX - 5 | _ => True end.

Lemma finish_section_spec A out s g g' :
  holds out s g -> section_small s -> finish_section A g = (Ok tt, g') ->
  (exists body, gen_inv (out ++ section_wire s) (section_type s) body None g') /\
  g_last g' = g_last g.
Proof.
  intros Hh Hs E. unfold finish_section, bind at 1, get_state at 1 in E. cbv beta iota in E.
  apply bind_Ok in E as ([]&g1&E1&E). unfold bind at 1, get_state at 1 in E. cbv beta iota in E.
  assert (gen_inv out (section_type s) (section_body s) None g1 /\ g_last g1 = g_last g) as [H1 L1].
  { rewrite (gi_state _ _ _ _ _ Hh) in E1. destruct s as [l|lo hi|start v]; simpl in E1.
    - injection E1 as <-. done.
    - injection E1 as <-. done.
    - destruct (gi_bm _ _ _ _ _ Hh) as (_&bm&Ebm&Hw&Hv). rewrite Ebm in E1.
      apply bind_Ok in E1 as ([]&g2&E1&E2). injection E2 as <-.
      apply on_sect_Ok in E1 as (b'&E1&->). destruct Hh. simpl in *.
      apply put_bitmap_appends in E1 as [Hi Hc]; [|done|by rewrite Hv|done].
      split; [|done]. constructor; simpl; try done. by rewrite Hc, gi_body0, Hv. }
  rewrite <- L1. pose proof H1 as [_ _ Hsect Hbody Hst _].
  assert (Appends A (sshbuf_put_u8 A (g_state g1);;; sshbuf_put_stringb A (g_sect g1))
            (section_wire s)) as Ha.
  { rewrite Hst. unfold section_wire. rewrite <- Hbody.
    apply put_section_appends; [apply section_type_byte|apply Hsect]. }
  eapply gen_put_buf in E as [H2 L2]; [|exact Ha|exact H1]. eauto.
Qed.

Lemma start_section_spec A next lo out st body bm g g' :
  gen_inv out st body bm g -> in_range 64 lo -> start_section A next lo g = (Ok tt, g') ->
  gen_inv out next (if next =? KRL_SECTION_CERT_SERIAL_BITMAP then be_bytes 8 lo else [])
    (if next =? KRL_SECTION_CERT_SERIAL_BITMAP then Some (lo, 0) else None) g' /\
  g_last g' = g_last g.
Proof.
  intros Hg Hlo E. unfold start_section in E.
  apply bind_Ok in E as ([]&g1&E1&E). injection E1 as <-.
  apply bind_Ok in E as ([]&g2&E2&E).
  eapply (gen_reset _ out next body None) in E2 as [H2 L2]; [|by destruct Hg].
  simpl in L2. rewrite <- L2. destruct (next =? _); [|injection E as <-; done].
  destruct (bitmap_new A) as [bm'|] eqn:Eb; [|discriminate E].
  apply bitmap_new_ok in Eb as [Hw Hv].
  apply bind_Ok in E as ([]&g3&E3&E). injection E3 as <-.
  apply bind_Ok in E as ([]&g4&E4&E). injection E4 as <-.
  eapply (gen_put_sect A _ (be_bytes 8 lo) out next [] (Some (lo, 0))) in E; [done| |].
  - by apply atomic_appends, sshbuf_put_u64_atomic.
  - destruct H2. constructor; simpl; try done. eauto.
Qed.

(** A bitmap section ends at the last serial number added. *)
Definition ends_at (s : section) (last : Z) : Prop :=
  match s with SBitmap start v => start + Z.log2 v = last /\ Z.log2 v <= BITMAP_MAX | _ => True end.

Definition range_serials (rs : range) : Prop := serial_ok (fst rs) /\ fst rs <= snd rs /\ serial_ok (snd rs).

Lemma ends_at_small s last : section_ok s -> ends_at s last -> section_small s.
Proof.
  destruct s as [| |start v]; simpl; [done..|]. intros (_&Hv&_) [_ Hb]. unfold nbytes.
  change BITMAP_MAX with 16777216 in Hb. change (SSHBUF_SIZE_MAX - 5) with 134217723.
  destruct (Z.eqb_spec v 0); [lia|].
  pose proof (Z.div_le_upper_bound (Z.log2 v) 8 2097152). lia.
Qed.

Lemma seqZ_serial lo n : 0 < lo -> lo + n <= 2 ^ 64 -> Forall serial_ok (seqZ lo n).
Proof. intros. apply Forall_seqZ. unfold serial_ok. lia. Qed.

Lemma serials_app l k : concat (be_bytes 8 <$> l ++ k) = concat (be_bytes 8 <$> l) ++ concat (be_bytes 8 <$> k).
Proof. by rewrite fmap_app, concat_app. Qed.

Lemma add_list A rs out l g :
  holds out (SList l) g -> range_serials rs ->
  match add_serials A rs (1 + (snd rs - fst rs)) g with
  | (Ok _, g') => holds out (SList (l ++ seqZ (fst rs) (1 + (snd rs - fst rs)))) g' /\ g_last g' = g_last g
  | (Err e, _) => e < 0
  end.
Proof.
  intros Hh (Hlo&Hle&Hhi). unfold serial_ok in *. set (contig := 1 + _).
  destruct (add_serials A rs contig g) as [r g'] eqn:E. unfold add_serials in E.
  unfold bind, get_state in E. cbv beta iota in E.
  rewrite (gi_state _ _ _ _ _ Hh) in E. simpl in E. state_cases. simpl in E.
  destruct r as [[]|e]; [|by apply neg_err in E].
  eapply gen_put_sect in E; [|apply put_serials_appends; unfold contig; lia|exact Hh].
  unfold holds. simpl. rewrite serials_app. by rewrite Z2Nat.id in E by (unfold contig; lia).
Qed.

Lemma add_range A rs out g :
  gen_inv out KRL_SECTION_CERT_SERIAL_RANGE [] None g -> range_serials rs ->
  match add_serials A rs (1 + (snd rs - fst rs)) g with
  | (Ok _, g') => holds out (SRange (fst rs) (snd rs)) g' /\ g_last g' = g_last g
  | (Err e, _) => e < 0
  end.
Proof.
  intros Hh (Hlo&Hle&Hhi). unfold serial_ok in *.
  destruct (add_serials A rs _ g) as [r g'] eqn:E. unfold add_serials in E.
  unfold bind at 1, get_state in E. cbv beta iota in E.
  rewrite (gi_state _ _ _ _ _ Hh) in E. state_cases. simpl in E.
  destruct r as [[]|e]; [|by apply neg_err in E].
  eapply (gen_put_sect A _ (be_bytes 8 (fst rs) ++ be_bytes 8 (snd rs)) out 33 [] None) in E;
    [exact E| |exact Hh].
  apply appends_bind; apply atomic_appends, sshbuf_put_u64_atomic; unfold in_range; lia.
Qed.

Lemma add_bitmap A rs out start v g :
  holds out (SBitmap start v) g -> range_serials rs -> 0 < start <= fst rs ->
  fst rs - start <= INT_MAX ->
  match add_serials A rs (1 + (snd rs - fst rs)) g with
  | (Ok _, g') =>
      holds out (SBitmap start (add_bits v (Z.to_nat (1 + (snd rs - fst rs))) (fst rs - start))) g' /\
      snd rs - start <= BITMAP_MAX /\ g_last g' = g_last g
  | (Err e, _) => e < 0
  end.
Proof.
  intros Hh (Hlo&Hle&Hhi) Hs Hm. unfold serial_ok in *. set (contig := 1 + _).
  destruct (gi_bm _ _ _ _ _ Hh) as (Hst&bm&Ebm&Hw&Hv).
  destruct (add_serials A rs contig g) as [r g'] eqn:E. unfold add_serials in E.
  unfold bind at 1, get_state in E. cbv beta iota in E.
  rewrite (gi_state _ _ _ _ _ Hh), Hst, Ebm in E. state_cases. simpl in E.
  rewrite wrap_small in E by lia. destruct (Z.ltb_spec INT_MAX (fst rs - start)); [lia|].
  destruct (set_bits A (Z.to_nat contig) (fst rs - start) bm) as [[[]|e] bm'] eqn:Eb.
  - injection E as <- <-. unfold contig in *.
    apply set_bits_ok in Eb as (Hw'&Hv'&Hm'); [|done|lia..].
    split_and!; [|lia|done]. destruct Hh. constructor; simpl; try done.
    split; [done|]. exists bm'. by rewrite Hv', Hv.
  - unfold bind, set_bitmap, fail in E. injection E as <- _. done.
Qed.

(** The interval that a new section names. *)
Lemma add_fresh A rs st out g :
  st = KRL_SECTION_CERT_SERIAL_LIST \/ st = KRL_SECTION_CERT_SERIAL_RANGE \/
    st = KRL_SECTION_CERT_SERIAL_BITMAP /\ 1 + (snd rs - fst rs) <= 208 ->
  gen_inv out st (if st =? KRL_SECTION_CERT_SERIAL_BITMAP then be_bytes 8 (fst rs) else [])
    (if st =? KRL_SECTION_CERT_SERIAL_BITMAP then Some (fst rs, 0) else None) g ->
  range_serials rs ->
  match add_serials A rs (1 + (snd rs - fst rs)) g with
  | (Ok _, g') => exists s, holds out s g' /\ g_last g' = g_last g /\
      section_ok s /\ (forall n, section_has s n <-> fst rs <= n <= snd rs) /\
      section_bits s <= 208 /\ ends_at s (snd rs)
  | (Err e, _) => e < 0
  end.
Proof.
  intros Hst Hg Hrs. pose proof Hrs as (Hlo&Hle&Hhi). unfold serial_ok in *.
  destruct Hst as [->|[->|[-> Hc]]]; state_cases; simpl in Hg.
  - pose proof (add_list A rs out [] g Hg Hrs) as P.
    destruct (add_serials A rs _ g) as [[[]|e] g']; [|done]. destruct P as [P L].
    eexists. split_and!; [exact P|done|..]; simpl; try done; [apply seqZ_serial; lia|].
    intros n. rewrite elem_of_seqZ. lia.
  - pose proof (add_range A rs out g Hg Hrs) as P.
    destruct (add_serials A rs _ g) as [[[]|e] g']; [|done]. destruct P as [P L].
    eexists. split_and!; [exact P|done|..]; simpl; try done.
  - pose proof (add_bitmap A rs out (fst rs) 0 g Hg Hrs) as P.
    specialize (P ltac:(lia) ltac:(unfold INT_MAX; lia)).
    destruct (add_serials A rs _ g) as [[[]|e] g']; [|done]. destruct P as (P&Hm&L).
    rewrite Z.sub_diag in *.
    destruct (add_bits_log2 (Z.to_nat (1 + (snd rs - fst rs))) 0 0) as [Hpos Hlog];
      [lia|lia|by left|lia|].
    eexists. split_and!; [exact P|done|..]; cbn [section_ok section_has section_bits ends_at];
      rewrite ?Hlog, ?Z2Nat.id by lia; unfold serial_ok; try lia; try (split_and!; lia).
    intros n. rewrite add_bits_testbit, Z.testbit_0_l, Z2Nat.id, orb_false_l by lia.
    rewrite andb_true_iff, Z.leb_le, Z.ltb_lt. lia.
Qed.

(** A section that grows. *)
Lemma add_more A rs s last out g :
  holds out s g -> section_type s <> KRL_SECTION_CERT_SERIAL_RANGE -> section_ok s ->
  ends_at s last -> last < fst rs -> range_serials rs ->
  (section_type s = KRL_SECTION_CERT_SERIAL_BITMAP -> fst rs - last + (1 + (snd rs - fst rs)) <= 208) ->
  match add_serials A rs (1 + (snd rs - fst rs)) g with
  | (Ok _, g') => exists s', holds out s' g' /\ g_last g' = g_last g /\
      section_ok s' /\ (forall n, section_has s' n <-> section_has s n \/ fst rs <= n <= snd rs) /\
      section_bits s' <= section_bits s + 208 /\ ends_at s' (snd rs)
  | (Err e, _) => e < 0
  end.
Proof.
  intros Hh Ht Hok He Hlast Hrs Hb. pose proof Hrs as (Hlo&Hle&Hhi). unfold serial_ok in Hlo, Hhi.
  destruct s as [l|lo hi|start v]; cbn [section_type section_ok ends_at] in Ht, Hok, He, Hb; [|done|].
  - pose proof (add_list A rs out l g Hh Hrs) as P.
    destruct (add_serials A rs _ g) as [[[]|e] g']; [|done]. destruct P as [P L].
    eexists. split_and!; [exact P|done|..]; simpl; try done.
    + apply Forall_app. split; [done|]. apply seqZ_serial; lia.
    + intros n. rewrite elem_of_app, elem_of_seqZ. split; (intros [?|?]; [by left|right; lia]).
  - specialize (Hb eq_refl). destruct Hok as ((Hs0&Hs)&Hv&Hlog), He as [He Hmax].
    pose proof (Z.log2_nonneg v). change BITMAP_MAX with 16777216 in *.
    pose proof (add_bitmap A rs out start v g Hh Hrs) as P.
    specialize (P ltac:(lia) ltac:(unfold INT_MAX; lia)).
    destruct (add_serials A rs _ g) as [[[]|e] g']; [|done]. destruct P as (P&Hm&L).
    destruct (add_bits_log2 (Z.to_nat (1 + (snd rs - fst rs))) v (fst rs - start)) as [Hpos Hlog'];
      [lia|lia|right; lia|lia|].
    eexists. split_and!; [exact P|done|..]; cbn [section_ok section_has section_bits ends_at];
      rewrite ?Hlog', ?Z2Nat.id by lia; unfold serial_ok; try lia; try (split_and!; lia).
    intros n. rewrite add_bits_testbit, Z2Nat.id, orb_true_iff, andb_true_iff, Z.leb_le, Z.ltb_lt by lia.
    intuition lia.
Qed.

Definition sections_wire (l : list section) : bytes := concat (section_wire <$> l).

Lemma sections_wire_app l k : sections_wire (l ++ k) = sections_wire l ++ sections_wire k.
Proof. unfold sections_wire. by rewrite fmap_app, concat_app. Qed.

(** The state between two rounds: no section is open, or one of the given form. *)
Definition gen_at (out : bytes) (cur : option section) (g : gen) : Prop :=
  match cur with
  | None => gen_inv out 0 [] None g
  | Some s => holds out s g /\ section_small s
  end.

Definition switch (A : allocator) (st next : Z) (force : bool) (lo : Z) : M gen unit :=
  (if negb (st =? 0) && (force || negb (next =? st) || (st =? KRL_SECTION_CERT_SERIAL_RANGE))
   then finish_section A ;;; reset_sect A
   else ret tt) ;;;
  (if negb (next =? st) || force then start_section A next lo else ret tt).

(** The open section is continued, or ended and the next one begun. *)
Lemma switch_spec A out cur next force lo g g' :
  gen_at out cur g -> in_range 64 lo ->
  next = KRL_SECTION_CERT_SERIAL_LIST \/ next = KRL_SECTION_CERT_SERIAL_RANGE \/
    next = KRL_SECTION_CERT_SERIAL_BITMAP ->
  switch A (g_state g) next force lo g = (Ok tt, g') ->
  g_last g' = g_last g /\
  (gen_inv (out ++ sections_wire (option_list cur)) next
     (if next =? KRL_SECTION_CERT_SERIAL_BITMAP then be_bytes 8 lo else [])
     (if next =? KRL_SECTION_CERT_SERIAL_BITMAP then Some (lo, 0) else None) g' \/
   exists s, cur = Some s /\ next = section_type s /\
     next <> KRL_SECTION_CERT_SERIAL_RANGE /\ force = false /\ g' = g).
Proof.
  intros Hg Hlo Hnext E. unfold switch in E. apply bind_Ok in E as ([]&g1&E1&E2).
  destruct cur as [s|]; simpl in Hg.
  - destruct Hg as [Hh Hs]. rewrite (gi_state _ _ _ _ _ Hh) in E1, E2.
    assert (section_type s <> 0) as Hn0 by (by destruct s).
    apply Z.eqb_neq in Hn0. rewrite Hn0 in E1. cbn [negb andb] in E1.
    destruct (force || negb (next =? section_type s) || (section_type s =? KRL_SECTION_CERT_SERIAL_RANGE))
      eqn:Hf.
    + apply bind_Ok in E1 as ([]&g2&E1&E3).
      apply finish_section_spec with (out := out) (s := s) in E1 as [[body H1] L1]; [|done..].
      eapply gen_reset in E3 as [H3 L3]; [|exact H1].
      assert (out ++ section_wire s = out ++ sections_wire (option_list (Some s))) as Eo
        by (unfold sections_wire; simpl; by rewrite app_nil_r).
      rewrite Eo in H3. rewrite <- L1, <- L3.
      destruct (negb (next =? section_type s) || force) eqn:Hst.
      * eapply start_section_spec in E2 as [H2 L2]; [|exact H3|done]. split; [done|by left].
      * injection E2 as <-. split; [done|]. left.
        apply orb_false_iff in Hst as [Hst ->]. apply negb_false_iff, Z.eqb_eq in Hst as ->.
        rewrite Z.eqb_refl in Hf. simpl in Hf. apply Z.eqb_eq in Hf as Hf'. rewrite Hf' in *. done.
    + injection E1 as <-. apply orb_false_iff in Hf as [Hf Hr]. apply orb_false_iff in Hf as [-> Hst].
      rewrite Hst in E2. injection E2 as <-. split; [done|]. right.
      apply negb_false_iff, Z.eqb_eq in Hst as ->. apply Z.eqb_neq in Hr. exists s. done.
  - rewrite (gi_state _ _ _ _ _ Hg) in E1, E2. simpl in E1. injection E1 as <-.
    assert (negb (next =? 0) = true) as Hn by (by destruct Hnext as [->|[->| ->]]).
    rewrite Hn in E2. simpl in E2.
    eapply start_section_spec in E2 as [H2 L2]; [|exact Hg|done].
    split; [done|]. left. by rewrite app_nil_r.
Qed.

#[export] Instance neg_switch A st next force lo : NegErr (switch A st next force lo).
Proof. unfold switch. neg. Qed.

(** After the ranges [dn]: the sections written and the one that is open, which
    together name the serial numbers of [dn]. *)
Record emitted (pre : bytes) (dn : list range) (secs : list section) (cur : option section) (g : gen)
    : Prop := {
  em_gen : gen_at (pre ++ sections_wire secs) cur g;
  em_ends : match cur with Some s => ends_at s (g_last g) | None => True end;
  em_has n : sections_have (secs ++ option_list cur) n <-> covered n dn;
  em_ok : Forall section_ok (secs ++ option_list cur);
  em_bits : Forall (fun s => section_bits s <= 208 * zlen dn) (secs ++ option_list cur)
}.

Lemma emit_range_eq A rs nrs g :
  emit_range A rs nrs g =
  (let '(next, force) :=
     choose_next_state (g_state g) (u64 (1 + (snd rs - fst rs)))
       (match nrs with None => true | Some _ => false end)
       (if g_state g =? 0 then 0 else u64 (fst rs - g_last g))
       (match nrs with None => 0 | Some nrs => u64 (fst nrs - snd rs) end) in
   (switch A (g_state g) next force (fst rs) ;;;
    add_serials A rs (u64 (1 + (snd rs - fst rs))) ;;; set_last (snd rs)) g).
Proof.
  unfold emit_range. unfold bind at 1, get_state. destruct (choose_next_state _ _ _ _ _) as [next force].
  unfold switch, bind. destruct (negb (g_state g =? 0) && _); simpl.
  - destruct (finish_section A g) as [[[]|e] g1]; [|done].
    by destruct (reset_sect A g1) as [[[]|e] g2].
  - done.
Qed.

Lemma sections_have_app l k n : sections_have (l ++ k) n <-> sections_have l n \/ sections_have k n.
Proof. apply Exists_app. Qed.

Lemma sections_have_one s n : sections_have [s] n <-> section_has s n.
Proof. unfold sections_have. rewrite Exists_cons, Exists_nil. tauto. Qed.

(** Replaces the open section of [emitted] by [s], which adds the range [rs]. *)
Lemma emitted_next pre dn secs k s rs g :
  holds (pre ++ sections_wire k) s g -> section_ok s -> ends_at s (g_last g) ->
  Forall section_ok k -> Forall (fun s => section_bits s <= 208 * zlen dn) k ->
  section_bits s <= 208 * zlen dn + 208 ->
  (forall n, sections_have (k ++ [s]) n <-> sections_have secs n \/ fst rs <= n <= snd rs) ->
  (forall n, sections_have secs n <-> covered n dn) ->
  emitted pre (dn ++ [rs]) k (Some s) g.
Proof.
  intros Hh Hok He Hk Hkb Hb Hs Hdn. constructor; simpl.
  - split; [done|]. by eapply ends_at_small.
  - done.
  - intros n. rewrite Hs, Hdn, covered_app, covered_cons, covered_nil. tauto.
  - apply Forall_app. split; [done|]. by constructor.
  - rewrite zlen_app. change (zlen [rs]) with 1. apply Forall_app. split; [|by constructor; [lia|]].
    eapply Forall_impl; [exact Hkb|]. simpl. intros; lia.
Qed.

Lemma emit_range_step A rs nrs pre dn secs cur g :
  emitted pre dn secs cur g -> range_serials rs ->
  match cur with Some _ => g_last g < fst rs | None => True end ->
  match emit_range A rs nrs g with
  | (Ok _, g') => exists secs' s', emitted pre (dn ++ [rs]) secs' (Some s') g' /\ g_last g' = snd rs
  | (Err e, _) => e < 0
  end.
Proof.
  intros [Hg He Hh Hok Hb] Hrs Hlast. pose proof Hrs as (Hlo&Hle&Hhi). unfold serial_ok in *.
  rewrite emit_range_eq. rewrite (wrap_small 64 (1 + _)) by lia.
  destruct (choose_next_state _ _ _ _ _) as [next force] eqn:Hch.
  apply choose_next_state_spec in Hch;
    [|lia|destruct (_ =? 0); [lia|apply wrap_range; lia]|destruct nrs; [apply wrap_range|]; lia].
  assert (next = KRL_SECTION_CERT_SERIAL_LIST \/ next = KRL_SECTION_CERT_SERIAL_RANGE \/
    next = KRL_SECTION_CERT_SERIAL_BITMAP) as Hnext by intuition.
  destruct ((switch A (g_state g) next force (fst rs) ;;; _) g) as [r g'] eqn:E.
  apply bind_run in E. destruct (switch _ _ _ _ _ g) as [[[]|e] g1] eqn:Hsw.
  2: { injection E as -> _. by eapply neg_err in Hsw. }
  apply switch_spec with (out := pre ++ sections_wire secs) (cur := cur) in Hsw as [Hl Hsw];
    [|done|unfold in_range; lia|done].
  apply bind_run in E.
  assert (0 <= 208 * zlen dn) by (pose proof (zlen_nonneg dn); lia).
  destruct Hsw as [Hf|(s&->&Hst&Hnr&->&->)].
  - pose proof (add_fresh A rs next _ g1 ltac:(state_cases; intuition lia) Hf Hrs) as P.
    destruct (add_serials A rs _ g1) as [[[]|e] g2]; [|by injection E as -> _].
    injection E as <- <-. destruct P as (s&Hs&Hl2&Hsok&Hhas&Hbits&Hends).
    exists (secs ++ option_list cur), s. split; [|done].
    rewrite <- (assoc_L (++)), <- sections_wire_app in Hs.
    apply (emitted_next pre dn (secs ++ option_list cur)); try done; [by destruct Hs|lia|].
    intros n. by rewrite sections_have_app, sections_have_one, Hhas.
  - destruct Hg as [Hg Hsm]. apply Forall_app in Hok as [Hok1 Hok2], Hb as [Hb1 Hb2].
    inversion Hok2 as [|? ? Hsok _]; subst. inversion Hb2 as [|? ? Hsb _]; subst.
    assert (0 <= g_last g \/ section_type s <> KRL_SECTION_CERT_SERIAL_BITMAP) as Hpos.
    { destruct s; simpl; [right|right|left]; [done..|]. destruct Hsok as (?&?&?).
      unfold serial_ok in *. simpl in He. pose proof (Z.log2_nonneg value). lia. }
    pose proof (add_more A rs s (g_last g) _ g Hg ltac:(congruence) Hsok He Hlast Hrs) as P.
    rewrite (gi_state _ _ _ _ _ Hg) in Hch.
    assert ((section_type s =? 0) = false) as Hn0 by (by destruct s). rewrite Hn0 in Hch.
    assert (section_type s = KRL_SECTION_CERT_SERIAL_BITMAP ->
      fst rs - g_last g + (1 + (snd rs - fst rs)) <= 208) as Hd.
    { intros Hbm. destruct Hpos; [|done]. destruct Hch as [(?&_)|[(?&_)|(_&_&Hd)]];
        [state_cases; congruence..|]. specialize (Hd eq_refl). by rewrite wrap_small in Hd by lia. }
    specialize (P Hd).
    destruct (add_serials A rs _ g) as [[[]|e] g2]; [|by injection E as -> _].
    injection E as <- <-. destruct P as (s'&Hs&Hl2&Hsok'&Hhas&Hbits&Hends).
    exists secs, s'. split; [|done].
    apply (emitted_next pre dn (secs ++ [s])); try done; [by destruct Hs|lia|].
    intros n. rewrite !sections_have_app, !sections_have_one, Hhas. tauto.
Qed.

Lemma emit_ranges_spec A pre l : forall dn secs cur g,
  emitted pre dn secs cur g -> Forall range_serials l -> serials_ok l ->
  match cur with
  | Some _ => Forall (fun rs => g_last g < fst rs) l
  | None => True
  end ->
  match emit_ranges A l g with
  | (Ok _, g') => exists secs' cur', emitted pre (dn ++ l) secs' cur' g'
  | (Err e, _) => e < 0
  end.
Proof.
  induction l as [|rs l IH]; intros dn secs cur g Hem Hrs Hok Hlast; simpl.
  { rewrite app_nil_r. eauto. }
  inversion Hrs as [|? ? Hr Hrl]; subst. apply serials_ok_cons in Hok as (_&Hokl&Hgap).
  unfold bind. pose proof (emit_range_step A rs (head l) pre dn secs cur g Hem Hr) as P.
  destruct (emit_range A rs (head l) g) as [[[]|e] g1].
  - destruct P as (secs1&s1&Hem1&Hl1); [destruct cur; [by inversion Hlast|done]|].
    replace (dn ++ rs :: l) with ((dn ++ [rs]) ++ l) by (by rewrite <- (assoc_L (++))).
    apply (IH _ secs1 (Some s1)); [done..|]. rewrite Hl1. eapply Forall_impl; [exact Hgap|].
    intros x Hx. unfold before_gap in Hx. lia.
  - apply P. destruct cur; [by inversion Hlast|done].
Qed.

(** ** Keys *)

(** A C string without its NUL. *)
Definition c_str (v : bytes) : Prop := Forall (fun c => 0 < c < 256) v.

(** What the round trip relies on of sshkey.c: a key read back from its blob is
    equal to it, its signatures verify under every equal key, a SHA1 hash has 20
    bytes and a key ID is a C string. *)
Class KeyBlobLaws (sshkey : Type) `{KeyOps sshkey} `{KeyBlob sshkey} := {
  sshkey_blob_bytes k v : sshkey_to_blob k = Ok v -> Bytes v /\ v <> [];
  sshkey_blob_back k v : sshkey_to_blob k = Ok v ->
    exists k', sshkey_from_blob v = Ok k' /\ sshkey_equal (Some k') (Some k) = true;
  sshkey_sign_verify k k' d s : sshkey_sign k d = Ok s -> sshkey_equal (Some k') (Some k) = true ->
    Bytes s /\ sshkey_verify k' s d = Ok tt;
  sshkey_fingerprint_bytes k h : sshkey_fingerprint_sha1 k = Ok h -> Bytes h /\ zlen h = 20;
  cert_key_id_str k : c_str (cert_key_id k)
}.

(** The error codes of sshkey.c are those of ssherr.h. *)
Class KeyCodes (sshkey : Type) `{KeyOps sshkey} `{KeyBlob sshkey} := {
  sshkey_to_blob_code k e : sshkey_to_blob k = Err e -> e < 0;
  sshkey_from_blob_code v e : sshkey_from_blob v = Err e -> e < 0;
  sshkey_from_private_code k e : sshkey_from_private k = Err e -> e < 0;
  sshkey_drop_cert_code k e : sshkey_drop_cert k = Err e -> e < 0;
  sshkey_fingerprint_code k e : sshkey_fingerprint_sha1 k = Err e -> e < 0;
  sshkey_sign_code k d e : sshkey_sign k d = Err e -> e < 0;
  sshkey_verify_code k s d e : sshkey_verify k s d = Err e -> e < 0
}.

Section written.
Context {sshkey : Type} {HK : KeyOps sshkey} {HL : KeyLaws sshkey} {HB : KeyBlob sshkey}.
Context {HBL : KeyBlobLaws sshkey} {HC : KeyCodes sshkey}.
Implicit Types (krl : ssh_krl sshkey) (rc : revoked_certs sshkey).

Definition ca_wire (ca : option sshkey) (v : bytes) : Prop :=
  match ca with None => v = [] | Some k => sshkey_to_blob k = Ok v end.

Definition strings_wire (l : list bytes) : bytes := concat (wr_string <$> l).

(** A section of strings, left out when there are none. *)
Definition strings_section (type : Z) (l : list bytes) : bytes :=
  match l with [] => [] | _ => type :: wr_string (strings_wire l) end.

Definition entry_wire (ca : bytes) (secs : list section) (ids : list bytes) : bytes :=
  wr_string ca ++ wr_string [] ++ sections_wire secs ++ strings_section KRL_SECTION_CERT_KEY_ID ids.

(** The sections that stand for the serial numbers of an entry. *)
Definition sections_of (l : list range) (secs : list section) : Prop :=
  Forall section_ok secs /\ (forall n, sections_have secs n <-> covered n l) /\
  Forall (fun s => section_bits s <= 208 * zlen l) secs.

(** An entry as the operations of Krl.v make it, with serial numbers of 64 bits
    other than 0 and C strings for the key IDs. *)
Record entry_good rc : Prop := {
  eg_serials : serials_ok (rc_serials rc);
  eg_range : Forall range_serials (rc_serials rc);
  eg_sorted : sorted (rc_key_ids rc);
  eg_ids : Forall c_str (rc_key_ids rc)
}.

Lemma c_str_Bytes v : c_str v -> Bytes v.
Proof. intros Hv. eapply Forall_impl; [exact Hv|]. unfold in_range. intros; lia. Qed.

Lemma ids_Bytes l : Forall c_str l -> Forall (fun v => Bytes v) l.
Proof. intros Hl. eapply Forall_impl; [exact Hl|]. apply c_str_Bytes. Qed.

Lemma strings_wire_empty l : strings_wire l = [] <-> l = [].
Proof.
  destruct l as [|v l]; [done|]. split; [|done]. unfold strings_wire. rewrite fmap_cons. cbn [concat].
  intros E. apply (f_equal zlen) in E. rewrite zlen_app, wr_string_zlen in E. change (zlen []) with 0 in E.
  pose proof (zlen_nonneg v). pose proof (zlen_nonneg (concat (wr_string <$> l))). lia.
Qed.

#[export] Instance neg_sshkey_puts A k : NegErr (sshkey_puts A k).
Proof.
  unfold sshkey_puts. destruct (sshkey_to_blob k) as [v|e] eqn:E; [neg|].
  intros s e' s' [= <- _]. by eapply sshkey_to_blob_code.
Qed.

Lemma sshkey_puts_spec A k b b' :
  inv b -> sshkey_puts A k b = (Ok tt, b') ->
  exists v, sshkey_to_blob k = Ok v /\ inv b' /\ contents b' = contents b ++ wr_string v.
Proof.
  intros Hb E. unfold sshkey_puts in E. destruct (sshkey_to_blob k) as [v|] eqn:Ev; [|done].
  exists v. split; [done|]. eapply appends_run; [|done|exact E].
  apply atomic_appends, sshbuf_put_string_atomic. by eapply sshkey_blob_bytes.
Qed.

(** The section of strings that a buffer of their wires becomes. *)
Lemma put_strings_appends A type sect l :
  is_byte type -> wf sect -> contents sect = strings_wire l ->
  Appends A (if negb (sshbuf_len sect =? 0)
             then sshbuf_put_u8 A type ;;; sshbuf_put_stringb A sect else ret tt)
    (strings_section type l).
Proof.
  intros Ht Hw Hc. rewrite sshbuf_len_contents by done. destruct l as [|v l].
  - rewrite Hc. simpl. apply _.
  - destruct (Z.eqb_spec (zlen (contents sect)) 0) as [E|].
    + apply zlen_0_nil in E. rewrite Hc in E. by apply strings_wire_empty in E.
    + simpl negb. cbn iota. unfold strings_section. rewrite <- Hc. by apply put_section_appends.
Qed.

Lemma empty_string_appends A : Appends A (sshbuf_put_string A [] 0) (wr_string []).
Proof. apply atomic_appends. apply (sshbuf_put_string_atomic A []). constructor. Qed.

#[export] Instance neg_put_ca_header A ca : NegErr (put_ca_header A ca).
Proof. unfold put_ca_header. destruct ca; neg. Qed.
#[export] Instance neg_put_key_ids A l : NegErr (put_key_ids A l).
Proof. unfold put_key_ids. neg. Qed.

Lemma put_ca_header_spec A ca g g' pre :
  gen_inv pre 0 [] None g -> put_ca_header A ca g = (Ok tt, g') ->
  exists v, ca_wire ca v /\ gen_inv (pre ++ wr_string v ++ wr_string []) 0 [] None g'.
Proof.
  intros Hg E. apply bind_Ok in E as ([]&g1&E1&E2).
  assert (exists v, ca_wire ca v /\ gen_inv (pre ++ wr_string v) 0 [] None g1) as (v&Hv&H1).
  { destruct ca as [k|]; simpl.
    - apply on_buf_Ok in E1 as (b'&E1&->). destruct Hg as [Hb Ho Hs Hbd Hst _].
      apply sshkey_puts_spec in E1 as (v&Hv&Hi&Hc); [|done]. exists v. split; [done|].
      constructor; simpl; try done. by rewrite Hc, Ho.
    - exists []. split; [done|]. eapply gen_put_buf in E1 as [H1 _]; [done|apply empty_string_appends|done]. }
  eapply gen_put_buf in E2 as [H2 _]; [|apply empty_string_appends|exact H1].
  rewrite <- (assoc_L (++)) in H2. eauto.
Qed.

Lemma put_all_serials_spec A l g pre :
  gen_inv pre 0 [] None g -> Forall range_serials l -> serials_ok l ->
  match put_all_serials A l g with
  | (Ok _, g') => exists secs st body,
      sections_of l secs /\ gen_inv (pre ++ sections_wire secs) st body None g'
  | (Err e, _) => e < 0
  end.
Proof.
  intros Hg Hrng Hser.
  assert (emitted pre [] [] None g) as Hem.
  { constructor; simpl; try done.
    - unfold gen_at, sections_wire. simpl. by rewrite app_nil_r.
    - intros n. unfold sections_have. by rewrite Exists_nil, covered_nil. }
  pose proof (emit_ranges_spec A pre l [] [] None g Hem Hrng Hser I) as P.
  unfold put_all_serials, bind. destruct (emit_ranges A l g) as [[[]|e] g3]; [|done].
  destruct P as (secs&cur&[Hg3 He3 Hhas Hok Hb]). simpl app in Hhas, Hb.
  unfold get_state. destruct cur as [s|]; simpl in Hg3.
  - destruct Hg3 as [Hh Hsm]. rewrite (gi_state _ _ _ _ _ Hh).
    assert ((section_type s =? 0) = false) as -> by (by destruct s). simpl.
    destruct (finish_section A g3) as [[[]|e] g4] eqn:E4; [|by apply neg_err in E4].
    eapply finish_section_spec in E4 as [[body H4] _]; [|done..].
    exists (secs ++ [s]), (section_type s), body. split; [by split_and!|].
    rewrite sections_wire_app, (assoc_L (++)). unfold sections_wire at 2. simpl. by rewrite app_nil_r.
  - rewrite (gi_state _ _ _ _ _ Hg3). simpl. rewrite app_nil_r in *.
    exists secs, 0, []. by split_and!.
Qed.

Lemma put_key_ids_spec A ids g g' pre st body :
  gen_inv pre st body None g -> Forall c_str ids -> put_key_ids A ids g = (Ok tt, g') ->
  inv (g_buf g') /\ contents (g_buf g') = pre ++ strings_section KRL_SECTION_CERT_KEY_ID ids.
Proof.
  intros Hg Hids E. apply bind_Ok in E as ([]&g1&E1&E). apply bind_Ok in E as ([]&g2&E2&E).
  unfold bind, get_state in E. cbv beta iota in E.
  eapply gen_reset in E1 as [H1 _]; [|exact Hg].
  eapply gen_put_sect in E2 as [H2 _]; [|apply key_ids_appends, ids_Bytes, Hids|exact H1].
  pose proof H2 as [_ _ Hs Hb _ _].
  assert (is_byte KRL_SECTION_CERT_KEY_ID) as Hty by (unfold in_range; cbv; split; congruence).
  pose proof (put_strings_appends A _ _ ids Hty (proj1 Hs) Hb) as Hap.
  eapply gen_put_buf in E as [[Hb3 Ho3 _ _ _ _] _]; [|exact Hap|exact H2]. done.
Qed.

Lemma generate_spec A rc b b' :
  entry_good rc -> inv b -> revoked_certs_generate A rc b = (Ok tt, b') ->
  inv b' /\ exists v secs, ca_wire (rc_ca_key rc) v /\ sections_of (rc_serials rc) secs /\
    contents b' = contents b ++ entry_wire v secs (rc_key_ids rc).
Proof.
  intros [Hser Hrng _ Hids] Hb E. unfold revoked_certs_generate in E.
  destruct (sshbuf_new A) as [sect|] eqn:En; [|discriminate E].
  apply sshbuf_new_inv in En as [Hi Hc].
  assert (gen_inv (contents b) 0 [] None (mk_gen b sect None 0 0 0)) as Hg by (by constructor).
  destruct ((put_ca_header _ _ ;;; _) _) as [r g'] eqn:Er. injection E as E <-.
  apply bind_run in Er. destruct (put_ca_header A _ _) as [[[]|e] g1] eqn:E1.
  2: { apply neg_err in E1. injection Er as -> _. simpl in E. destruct (Z.eqb_spec e 0); [lia|done]. }
  eapply put_ca_header_spec in E1 as (v&Hv&H1); [|exact Hg].
  pose proof (put_all_serials_spec A (rc_serials rc) g1 _ H1 Hrng Hser) as P.
  apply bind_run in Er. destruct (put_all_serials A _ g1) as [[[]|e] g2].
  2: { injection Er as -> _. simpl in E. destruct (Z.eqb_spec e 0); [lia|done]. }
  destruct P as (secs&st&body&Hsecs&H2). destruct r as [[]|e].
  2: { apply neg_err in Er. simpl in E. destruct (Z.eqb_spec e 0); [lia|done]. }
  eapply put_key_ids_spec in Er as [H3 C3]; [|exact H2|done].
  split; [done|]. exists v, secs. split_and!; [done..|]. rewrite C3.
  unfold entry_wire. by rewrite <- !(assoc_L (++)).
Qed.

(** ** The whole list, as written *)

(** A list as the operations of Krl.v make it. *)
Record krl_good krl : Prop := {
  kg_version : in_range 64 (krl_version krl);
  kg_date : in_range 64 (krl_generated_date krl);
  kg_flags : in_range 64 (krl_flags krl);
  kg_comment : c_str (default [] (krl_comment krl));
  kg_keys : sorted (krl_revoked_keys krl);
  kg_keys_bytes : Forall (fun v => Bytes v) (krl_revoked_keys krl);
  kg_sha1s : sorted (krl_revoked_sha1s krl);
  kg_sha1s_bytes : Forall (fun v => Bytes v) (krl_revoked_sha1s krl);
  kg_sha1s_zlen : Forall (fun v => zlen v = 20) (krl_revoked_sha1s krl);
  kg_entries : Forall entry_good (krl_revoked_certs krl);
  kg_unique : StronglySorted (fun a b => other_ca (rc_ca_key b) a) (krl_revoked_certs krl)
}.

Definition header_wire krl : bytes :=
  KRL_MAGIC ++ be_bytes 4 KRL_FORMAT_VERSION ++ be_bytes 8 (krl_version krl) ++
  be_bytes 8 (krl_generated_date krl) ++ be_bytes 8 (krl_flags krl) ++ wr_string [] ++
  wr_string (default [] (krl_comment krl)).

(** The encoding of an entry, which the choice of sections leaves open. *)
Definition encodes rc (w : bytes) : Prop :=
  exists v secs, ca_wire (rc_ca_key rc) v /\ sections_of (rc_serials rc) secs /\
    w = entry_wire v secs (rc_key_ids rc).

Definition certs_wire (entries : list bytes) : bytes :=
  concat ((fun w => KRL_SECTION_CERTIFICATES :: wr_string w) <$> entries).

Definition body_wire krl (entries : list bytes) : bytes :=
  certs_wire entries ++
  strings_section KRL_SECTION_EXPLICIT_KEY (krl_revoked_keys krl) ++
  strings_section KRL_SECTION_FINGERPRINT_SHA1 (krl_revoked_sha1s krl).

(** Signatures after the bytes [p]: each covers all that comes before it. *)
Inductive signed : bytes -> list sshkey -> bytes -> Prop :=
| signed_nil p : signed p [] []
| signed_cons p k ks v s w :
    sshkey_to_blob k = Ok v ->
    sshkey_sign k (p ++ KRL_SECTION_SIGNATURE :: wr_string v) = Ok s ->
    signed (p ++ KRL_SECTION_SIGNATURE :: wr_string v ++ wr_string s) ks w ->
    signed p (k :: ks) (KRL_SECTION_SIGNATURE :: wr_string v ++ wr_string s ++ w).

Lemma on_fst_Ok {S T X} (m : M S X) (s : S) (t : T) x st :
  on_fst m (s, t) = (Ok x, st) -> exists s', m s = (Ok x, s') /\ st = (s', t).
Proof. unfold on_fst. destruct (m s) as [r s']. intros [= -> <-]. eauto. Qed.
Lemma on_snd_Ok {S T X} (m : M T X) (s : S) (t : T) x st :
  on_snd m (s, t) = (Ok x, st) -> exists t', m t = (Ok x, t') /\ st = (s, t').
Proof. unfold on_snd. destruct (m t) as [r t']. intros [= -> <-]. eauto. Qed.

Lemma put_header_appends A krl :
  krl_good krl -> Appends A (put_header A krl) (header_wire krl).
Proof.
  intros []. unfold put_header, header_wire.
  repeat (apply appends_bind; [apply atomic_appends|]); [..|apply atomic_appends].
  - apply (sshbuf_put_atomic A KRL_MAGIC). repeat (apply Forall_cons; split; [by unfold in_range|]).
    constructor.
  - apply sshbuf_put_u32_atomic. by unfold in_range.
  - by apply sshbuf_put_u64_atomic.
  - by apply sshbuf_put_u64_atomic.
  - by apply sshbuf_put_u64_atomic.
  - apply (sshbuf_put_string_atomic A []). constructor.
  - apply c_str_Bytes in kg_comment0. destruct (krl_comment krl) as [c|]; simpl in *.
    + by apply sshbuf_put_cstring_atomic.
    + apply sshbuf_put_null_atomic.
Qed.

Lemma put_certs_spec A certs : forall sect b st,
  Forall entry_good certs -> inv sect -> inv b -> put_certs A certs (sect, b) = (Ok tt, st) ->
  exists entries, Forall2 encodes certs entries /\ inv (fst st) /\ inv (snd st) /\
    contents (snd st) = contents b ++ certs_wire entries.
Proof.
  induction certs as [|rc certs IH]; intros sect b st Hg Hs Hb E.
  { injection E as <-. exists []. split_and!; [constructor|done..|]. unfold certs_wire. simpl.
    by rewrite app_nil_r. }
  apply Forall_cons in Hg as [Hrc Hg].
  apply bind_Ok in E as ([]&st1&E1&E). apply on_fst_Ok in E1 as (s1&E1&->). injection E1 as <-.
  destruct (reset_inv A sect Hs) as [Hs1 C1].
  apply bind_Ok in E as ([]&st2&E2&E). apply on_fst_Ok in E2 as (s2&E2&->).
  apply generate_spec in E2 as (Hs2&v&secs&Hv&Hsecs&C2); [|done..]. rewrite C1 in C2. simpl in C2.
  apply bind_Ok in E as ([s3 b3]&st3&E3&E). injection E3 as <- <- <-.
  apply bind_Ok in E as ([]&st4&E4&E). apply on_snd_Ok in E4 as (b4&E4&->).
  eapply appends_run in E4 as [Hb4 C4]; [|apply put_section_appends; [|apply Hs2]|done];
    [|by unfold in_range].
  apply IH in E as (entries&He&Hf&Hb5&C5); [|done..].
  exists (contents s2 :: entries). split_and!; [|done..|].
  - constructor; [|done]. exists v, secs. done.
  - rewrite C5, C4, <- (assoc_L (++)). unfold certs_wire. by rewrite fmap_cons.
Qed.

Lemma put_blob_section_spec A type l sect b st :
  is_byte type -> Forall (fun v => Bytes v) l -> inv sect -> inv b ->
  put_blob_section A type l (sect, b) = (Ok tt, st) ->
  inv (fst st) /\ inv (snd st) /\ contents (snd st) = contents b ++ strings_section type l.
Proof.
  intros Ht Hl Hs Hb E.
  apply bind_Ok in E as ([]&st1&E1&E). apply on_fst_Ok in E1 as (s1&E1&->). injection E1 as <-.
  destruct (reset_inv A sect Hs) as [Hs1 C1].
  apply bind_Ok in E as ([]&st2&E2&E). apply on_fst_Ok in E2 as (s2&E2&->).
  eapply appends_run in E2 as [Hs2 C2]; [|by apply put_blobs_appends|done].
  rewrite C1 in C2. simpl in C2.
  apply bind_Ok in E as ([s3 b3]&st3&E3&E). injection E3 as <- <- <-.
  apply on_snd_Ok in E as (b4&E4&->).
  eapply appends_run in E4 as [Hb4 C4]; [done| |done].
  apply (put_strings_appends A type s2 l); [done|apply Hs2|done].
Qed.

Lemma put_signatures_spec A keys : forall b b',
  inv b -> put_signatures A keys b = (Ok tt, b') ->
  inv b' /\ exists w, signed (contents b) keys w /\ contents b' = contents b ++ w.
Proof.
  induction keys as [|k keys IH]; intros b b' Hb E.
  { injection E as <-. split; [done|]. exists []. rewrite app_nil_r. split; [constructor|done]. }
  apply bind_Ok in E as ([]&b1&E1&E).
  eapply appends_run in E1 as [Hb1 C1]; [|apply atomic_appends, sshbuf_put_u8_atomic|done];
    [|by unfold in_range].
  apply bind_Ok in E as ([]&b2&E2&E). apply sshkey_puts_spec in E2 as (v&Hv&Hb2&C2); [|done].
  apply bind_Ok in E as (b3&b4&E3&E). injection E3 as <- <-.
  apply bind_Ok in E as (s&b4&E3&E). unfold lift in E3. injection E3 as Hs <-.
  rewrite buf_bytes_contents in Hs by apply Hb2.
  destruct (sshkey_blob_back k v Hv) as (k'&_&Hk').
  destruct (sshkey_sign_verify k k' _ s Hs Hk') as [Hsb _].
  apply bind_Ok in E as ([]&b4&E3&E).
  eapply appends_run in E3 as [Hb4 C4]; [|by apply atomic_appends, sshbuf_put_string_atomic|done].
  apply IH in E as (Hb'&w&Hw&C'); [|done].
  rewrite C2, C1 in Hs, C4. rewrite C4 in Hw, C'. rewrite <- !(assoc_L (++)) in *.
  split; [done|]. exists (KRL_SECTION_SIGNATURE :: wr_string v ++ wr_string s ++ w).
  split; [|exact C']. econstructor; [done|exact Hs|exact Hw].
Qed.

Lemma to_blob_spec A now sign_keys krl buf krl' buf' :
  krl_good (set_date now krl) -> inv buf -> contents buf = [] ->
  ssh_krl_to_blob A now sign_keys (krl, buf) = (Ok tt, (krl', buf')) ->
  krl' = set_date now krl /\ inv buf' /\
  exists entries sigs, Forall2 encodes (krl_revoked_certs krl) entries /\
    signed (header_wire krl' ++ body_wire krl' entries) sign_keys sigs /\
    contents buf' = header_wire krl' ++ body_wire krl' entries ++ sigs.
Proof.
  intros Hg Hb Hc E. unfold ssh_krl_to_blob in E.
  destruct (sshbuf_new A) as [sect|] eqn:En; [|discriminate E].
  apply sshbuf_new_inv in En as [Hs _]. set (k := set_date now krl) in *.
  destruct ((on_snd _ ;;; _) _) as [r [s' b']] eqn:Er. injection E as -> <- <-.
  split; [done|].
  apply bind_Ok in Er as ([]&st1&E1&Er). apply on_snd_Ok in E1 as (b1&E1&->).
  eapply appends_run in E1 as [Hb1 C1]; [|by apply put_header_appends|done]. rewrite Hc in C1.
  apply bind_Ok in Er as ([]&[s2 b2]&E2&Er).
  apply put_certs_spec in E2 as (entries&He&Hs2&Hb2&C2); [|apply Hg|done..]. simpl in *.
  apply bind_Ok in Er as ([]&[s3 b3]&E3&Er).
  apply put_blob_section_spec in E3 as (Hs3&Hb3&C3); [|by unfold in_range|apply Hg|done..]. simpl in *.
  apply bind_Ok in Er as ([]&[s4 b4]&E4&Er).
  apply put_blob_section_spec in E4 as (Hs4&Hb4&C4); [|by unfold in_range|apply Hg|done..]. simpl in *.
  apply on_snd_Ok in Er as (b5&E5&[= -> ->]).
  apply put_signatures_spec in E5 as (Hb5&sigs&Hsig&C5); [|done].
  split; [done|]. exists entries, sigs. split; [exact He|].
  rewrite C4, C3, C2, C1 in Hsig, C5. unfold body_wire. simpl app in Hsig, C5.
  rewrite <- ?(assoc_L (++)) in Hsig. rewrite <- ?(assoc_L (++)) in C5.
  rewrite <- ?(assoc_L (++)). done.
Qed.
End written.
