(* ===== verification/KrlBlobRead.v ===== *)
(** Reading encoded revocation lists: a list that was written is read back with
    the same verdict on every key, the signatures of a list cover all that is
    loaded from it, and reading ends on every input. *)

From Stdlib Require Import Sorted.
From S2P Require Import Prelude Wire Sshbuf SshbufGetput SshbufSpec SshbufHeap Bitmap Krl KrlBlob.
From S2P Require Import KrlBlobSpec.

#[local] Arguments be_bytes n v : simpl never.
#[local] Arguments wr_string v : simpl never.
#[local] Arguments wr_bignum2 v : simpl never.

Section reading.
Context {sshkey : Type} {HK : KeyOps sshkey} {HL : KeyLaws sshkey} {HB : KeyBlob sshkey}.
Context (A : allocator) (mem : ssh_krl sshkey -> bool) (pick : ssh_krl sshkey -> nat).
Implicit Types (krl base : ssh_krl sshkey) (ca : option sshkey).
Abbreviation parser X := (M (sshbuf * ssh_krl sshkey) X).

(** ** Revoking one after the other *)

(** [krl] is [base] with entries that revoke the serial numbers S and key IDs I. *)
Definition revokes base (S : option sshkey -> Z -> Prop) (I : option sshkey -> bytes -> Prop) krl : Prop :=
  krl = with_certs (krl_revoked_certs krl) base /\
  exists ops, krl_inv ops krl /\
    (forall ca n, S ca n <-> Exists (fun op => names_serial op ca n) ops) /\
    (forall ca x, I ca x <-> Exists (fun op => names_key_id op ca x) ops).

Lemma revokes_iff base S I S' I' krl :
  (forall ca n, S ca n <-> S' ca n) -> (forall ca x, I ca x <-> I' ca x) ->
  revokes base S I krl -> revokes base S' I' krl.
Proof.
  intros HS HI (Hb&ops&Hinv&Hs&Hi). split; [done|]. exists ops. split; [done|].
  split; intros; [by rewrite <- HS|by rewrite <- HI].
Qed.

Lemma certs_for_frame m ca c krl r krl' :
  revoked_certs_for_ca_key m ca c krl = (r, krl') -> krl' = with_certs (krl_revoked_certs krl') krl.
Proof.
  unfold revoked_certs_for_ca_key. destruct (list_find _ _) as [[i rc]|].
  { intros [= _ <-]. by destruct krl. }
  destruct (negb c); [intros [= _ <-]; by destruct krl|].
  destruct (negb m); [intros [= _ <-]; by destruct krl|].
  destruct ca as [k|]; [destruct (sshkey_from_private k)|]; intros [= _ <-]; by destruct krl.
Qed.

Lemma on_entry_frame i f krl r krl' :
  on_entry i f krl = (r, krl') -> krl' = with_certs (krl_revoked_certs krl') krl.
Proof.
  unfold on_entry. destruct (_ !! i) as [rc|]; [|intros [= _ <-]; by destruct krl].
  destruct (f rc) as [r' rc']. by intros [= _ <-].
Qed.

Lemma with_certs_trans krl krl1 krl2 :
  krl1 = with_certs (krl_revoked_certs krl1) krl ->
  krl2 = with_certs (krl_revoked_certs krl2) krl1 -> krl2 = with_certs (krl_revoked_certs krl2) krl.
Proof. intros -> ->. done. Qed.

Lemma serial_range_frame p m ca lo hi krl r krl' :
  ssh_krl_revoke_cert_by_serial_range p m ca lo hi krl = (r, krl') ->
  krl' = with_certs (krl_revoked_certs krl') krl.
Proof.
  unfold ssh_krl_revoke_cert_by_serial_range. destruct (_ || _).
  { intros [= _ <-]. by destruct krl. }
  unfold bind. destruct (revoked_certs_for_ca_key m ca true krl) as [[o|e] krl1] eqn:E.
  - intros E2%on_entry_frame. eapply with_certs_trans; [by eapply certs_for_frame|done].
  - intros [= _ <-]. by eapply certs_for_frame.
Qed.

Lemma key_id_frame m ca id krl r krl' :
  ssh_krl_revoke_cert_by_key_id m ca id krl = (r, krl') ->
  krl' = with_certs (krl_revoked_certs krl') krl.
Proof.
  unfold ssh_krl_revoke_cert_by_key_id, bind.
  destruct (revoked_certs_for_ca_key m ca true krl) as [[o|e] krl1] eqn:E.
  - apply certs_for_frame in E. destruct (negb m); [by intros [= _ <-]|].
    intros E2%on_entry_frame. by eapply with_certs_trans.
  - intros [= _ <-]. by eapply certs_for_frame.
Qed.

(** Memory is available. *)
Hypothesis HA : alloc_ok A.
Hypothesis Hmem : forall krl, mem krl = true.
Hypothesis Hcopy : forall k : sshkey, exists k', sshkey_from_private k = Ok k'.

Lemma copies ca : ca_copies ca.
Proof. destruct ca; simpl; [apply Hcopy|done]. Qed.

Lemma revoke_serials_step base S I ca lo hi krl :
  revokes base S I krl -> 0 < lo <= hi -> hi < 2 ^ 64 ->
  exists krl', revoke_serials mem pick ca lo hi krl = (Ok tt, krl') /\
    revokes base (fun ca' n => S ca' n \/ same_ca ca ca' = true /\ lo <= n <= hi) I krl'.
Proof.
  intros (Hb&ops&Hinv&Hs&Hi) Hlo Hhi. unfold revoke_serials. rewrite Hmem.
  set (op := RevokeSerials (pick krl) true ca lo hi).
  assert (op_valid op) as Hv by (split_and!; [done|apply copies|lia..]).
  pose proof (exec_op_ok op ops krl Hv Hinv) as Ho.
  pose proof (exec_op_inv op ops krl (op_valid_ok _ Hv) Hinv) as Hi'. simpl in Ho, Hi'.
  destruct (ssh_krl_revoke_cert_by_serial_range _ _ _ _ _ krl) as [r krl'] eqn:E. simpl in Ho. subst r.
  exists krl'. split; [done|]. apply serial_range_frame in E.
  split; [by eapply with_certs_trans|]. exists (op :: ops). split; [done|].
  split; intros; rewrite Exists_cons.
  - rewrite <- Hs. simpl. tauto.
  - rewrite <- Hi. simpl. tauto.
Qed.

Lemma revoke_key_id_step base S I ca id krl :
  revokes base S I krl ->
  exists krl', revoke_key_id mem ca id krl = (Ok tt, krl') /\
    revokes base S (fun ca' x => I ca' x \/ same_ca ca ca' = true /\ x = id) krl'.
Proof.
  intros (Hb&ops&Hinv&Hs&Hi). unfold revoke_key_id. rewrite Hmem.
  set (op := RevokeKeyId true ca id).
  assert (op_valid op) as Hv by (split; [done|apply copies]).
  pose proof (exec_op_ok op ops krl Hv Hinv) as Ho.
  pose proof (exec_op_inv op ops krl (op_valid_ok _ Hv) Hinv) as Hi'. simpl in Ho, Hi'.
  destruct (ssh_krl_revoke_cert_by_key_id _ _ _ krl) as [r krl'] eqn:E. simpl in Ho. subst r.
  exists krl'. split; [done|]. apply key_id_frame in E.
  split; [by eapply with_certs_trans|]. exists (op :: ops). split; [done|].
  split; intros; rewrite Exists_cons.
  - rewrite <- Hs. simpl. tauto.
  - rewrite <- Hi. simpl. tauto.
Qed.

(** ** Steps of a parser *)

Lemma fst_step {X Y} (m : M sshbuf X) sp b krl x rest (k : X -> parser Y) :
  Refines m sp -> wf b -> sp (contents b) = Ok (x, rest) ->
  exists b', wf b' /\ contents b' = rest /\ bind (on_fst m) k (b, krl) = k x (b', krl).
Proof.
  intros Hm Hb Hs. specialize (Hm b Hb). rewrite Hs in Hm. destruct Hm as (b'&E&Hw&_&Hc).
  exists b'. split_and!; [done..|]. unfold bind, on_fst. by rewrite E.
Qed.

Lemma snd_step {X Y} (f : M (ssh_krl sshkey) X) b krl x krl' (k : X -> parser Y) :
  f krl = (Ok x, krl') -> bind (on_snd f) k (b, krl) = k x (b, krl').
Proof. intros E. unfold bind, on_snd. by rewrite E. Qed.

Lemma snd_last {X} (f : M (ssh_krl sshkey) X) (b : sshbuf) krl x krl' :
  f krl = (Ok x, krl') -> on_snd f (b, krl) = (Ok x, (b, krl')).
Proof. intros E. unfold on_snd. by rewrite E. Qed.

Lemma rd_u64_app n l : in_range 64 n -> rd_be 8 (be_bytes 8 n ++ l) = Ok (n, l).
Proof. intros. apply (rd_be_app 8). done. Qed.
Lemma rd_u8_app n l : is_byte n -> rd_be 1 (n :: l) = Ok (n, l).
Proof.
  intros Hn. replace (n :: l) with (be_bytes 1 n ++ l); [by apply (rd_be_app 1)|].
  unfold be_bytes, in_range in *. simpl. by rewrite Z.mod_small by lia.
Qed.

(** One round of a loop with data left. *)
Lemma while_step fuel (body : parser unit) b krl st :
  wf b -> body (b, krl) = (Ok tt, st) -> 0 < zlen (contents b) <= Z.of_nat fuel ->
  exists fuel', while_data fuel body (b, krl) = while_data fuel' body st /\
    Z.of_nat fuel = Z.of_nat fuel' + 1.
Proof.
  intros Hb E Hc. destruct fuel as [|fuel]; [lia|]. exists fuel. split; [|lia].
  simpl. unfold bind at 1, get_state. cbv beta iota. rewrite sshbuf_len_contents by done.
  destruct (Z.ltb_spec 0 (zlen (contents b))); [|lia]. simpl. unfold bind. by rewrite E.
Qed.

(** A loop over a buffer that begins with the wires of [l], in order. *)
Lemma while_prefix {X} (body : parser unit) (wire : X -> bytes) (P : list X -> ssh_krl sshkey -> Prop) l :
  (forall dn x post b krl rest, l = dn ++ x :: post -> wf b -> contents b = wire x ++ rest -> P dn krl ->
    exists b' krl', body (b, krl) = (Ok tt, (b', krl')) /\ wf b' /\ contents b' = rest /\ P (dn ++ [x]) krl') ->
  (forall x, 0 < zlen (wire x)) ->
  forall todo dn b krl rest fuel, l = dn ++ todo -> wf b -> contents b = concat (wire <$> todo) ++ rest ->
  P dn krl -> zlen (contents b) <= Z.of_nat fuel ->
  exists b' krl' fuel', while_data fuel body (b, krl) = while_data fuel' body (b', krl') /\
    wf b' /\ contents b' = rest /\ zlen rest <= Z.of_nat fuel' /\ P l krl'.
Proof.
  intros Hbody Hpos. induction todo as [|x todo IH]; intros dn b krl rest fuel Hl Hb Hc HP Hfuel.
  - rewrite app_nil_r in Hl. subst dn. simpl in Hc. exists b, krl, fuel. rewrite Hc in Hfuel. by split_and!.
  - rewrite fmap_cons in Hc. cbn [concat] in Hc. rewrite <- (assoc_L (++)) in Hc.
    destruct (Hbody dn x todo b krl _ Hl Hb Hc HP) as (b1&krl1&E1&Hb1&Hc1&HP1).
    rewrite Hc, zlen_app in Hfuel. pose proof (zlen_nonneg (concat (wire <$> todo) ++ rest)) as Hn.
    pose proof (Hpos x) as Hx. destruct (while_step fuel body b krl _ Hb E1) as (fuel1&E&Hf1);
      [rewrite Hc, zlen_app; lia|]. rewrite E.
    apply (IH (dn ++ [x])); [by rewrite <- (assoc_L (++))|done..|rewrite Hc1; lia].
Qed.

Lemma while_end fuel (body : parser unit) b krl :
  wf b -> contents b = [] -> while_data fuel body (b, krl) = (Ok tt, (b, krl)).
Proof.
  intros Hb Hc. destruct fuel; simpl; unfold bind, get_state; by rewrite sshbuf_len_contents, Hc by done.
Qed.

Lemma while_buf_eq (body : parser unit) b krl :
  wf b -> while_buf body (b, krl) = while_data (Z.to_nat (zlen (contents b))) body (b, krl).
Proof. intros Hb. unfold while_buf, bind at 1, get_state. by rewrite sshbuf_len_contents. Qed.

(** A loop over a buffer that holds the wires of [l] and nothing else. *)
Lemma while_items {X} (body : parser unit) (wire : X -> bytes) (P : list X -> ssh_krl sshkey -> Prop) l :
  (forall dn x post b krl rest, l = dn ++ x :: post -> wf b -> contents b = wire x ++ rest -> P dn krl ->
    exists b' krl', body (b, krl) = (Ok tt, (b', krl')) /\ wf b' /\ contents b' = rest /\ P (dn ++ [x]) krl') ->
  (forall x, 0 < zlen (wire x)) ->
  forall b krl, wf b -> contents b = concat (wire <$> l) -> P [] krl ->
  exists b' krl', while_buf body (b, krl) = (Ok tt, (b', krl')) /\ wf b' /\ contents b' = [] /\ P l krl'.
Proof.
  intros Hbody Hpos b krl Hb Hc HP. rewrite while_buf_eq by done.
  rewrite <- (app_nil_r (concat _)) in Hc.
  destruct (while_prefix body wire P l Hbody Hpos l [] b krl [] (Z.to_nat (zlen (contents b))) eq_refl Hb Hc HP)
    as (b1&krl1&fuel&->&Hb1&Hc1&_&HP1); [pose proof (zlen_nonneg (contents b)); lia|].
  exists b1, krl1. by rewrite while_end.
Qed.

(** ** Serial numbers and key IDs *)

Definition plus_serials (S : option sshkey -> Z -> Prop) ca (T : Z -> Prop) ca' n : Prop :=
  S ca' n \/ same_ca ca ca' = true /\ T n.
Definition plus_ids (I : option sshkey -> bytes -> Prop) ca (T : bytes -> Prop) ca' x : Prop :=
  I ca' x \/ same_ca ca ca' = true /\ T x.

Lemma parse_serial_list_spec base S I ca l b krl :
  revokes base S I krl -> Forall serial_ok l -> wf b -> contents b = concat (be_bytes 8 <$> l) ->
  exists b' krl', parse_serial_list mem pick ca (b, krl) = (Ok tt, (b', krl')) /\ wf b' /\
    contents b' = [] /\ revokes base (plus_serials S ca (fun n => n ∈ l)) I krl'.
Proof.
  intros Hr Hl Hb Hc.
  apply (while_items _ (be_bytes 8) (fun dn => revokes base (plus_serials S ca (fun n => n ∈ dn)) I) l);
    [| |done..|].
  - intros dn x post b0 krl0 rest -> Hb0 Hc0 HP. apply Forall_app in Hl as [_ Hl].
    apply Forall_inv in Hl.
    unfold serial_ok in Hl.
    destruct (fst_step sshbuf_get_u64 (rd_be 8) b0 krl0 x rest
      (fun serial => on_snd (revoke_serials mem pick ca serial serial))) as (b1&Hb1&Hc1&E);
      [apply _|done|rewrite Hc0; apply rd_u64_app; unfold in_range; lia|].
    destruct (revoke_serials_step base _ I ca x x krl0 HP) as (krl1&E1&H1); [lia|lia|].
    exists b1, krl1. rewrite E, (snd_last _ _ _ _ _ E1). split_and!; [done..|].
    eapply revokes_iff; [| |exact H1]; [|done]. unfold plus_serials. intros ca' n.
    rewrite elem_of_app, list_elem_of_singleton. intuition lia.
  - intros x. rewrite be_bytes_zlen. lia.
  - eapply revokes_iff; [| |exact Hr]; [|done]. unfold plus_serials. intros ca' n.
    rewrite elem_of_nil. tauto.
Qed.

Lemma parse_serial_range_spec base S I ca lo hi b krl :
  revokes base S I krl -> serial_ok lo -> serial_ok hi -> lo <= hi -> wf b ->
  contents b = be_bytes 8 lo ++ be_bytes 8 hi ->
  exists b' krl', parse_serial_range mem pick ca (b, krl) = (Ok tt, (b', krl')) /\ wf b' /\
    contents b' = [] /\ revokes base (plus_serials S ca (fun n => lo <= n <= hi)) I krl'.
Proof.
  unfold serial_ok. intros Hr Hlo Hhi Hle Hb Hc. unfold parse_serial_range.
  destruct (fst_step sshbuf_get_u64 (rd_be 8) b krl lo (be_bytes 8 hi)
    (fun lo => let! hi := on_fst sshbuf_get_u64 in on_snd (revoke_serials mem pick ca lo hi)))
    as (b1&Hb1&Hc1&E1); [apply _|done|rewrite Hc; apply rd_u64_app; unfold in_range; lia|].
  rewrite <- (app_nil_r (be_bytes 8 hi)) in Hc1.
  destruct (fst_step sshbuf_get_u64 (rd_be 8) b1 krl hi []
    (fun hi => on_snd (revoke_serials mem pick ca lo hi)))
    as (b2&Hb2&Hc2&E2); [apply _|done|rewrite Hc1; apply rd_u64_app; unfold in_range; lia|].
  destruct (revoke_serials_step base S I ca lo hi krl Hr) as (krl1&E3&H3); [lia..|].
  exists b2, krl1. by rewrite E1, E2, (snd_last _ _ _ _ _ E3).
Qed.

Lemma parse_bits_spec base I ca start bm l : forall S krl,
  revokes base S I krl -> wf_bitmap bm -> 0 < start -> Forall (fun i => 0 <= i /\ start + i < 2 ^ 64) l ->
  exists krl', parse_bits mem pick ca start bm l krl = (Ok tt, krl') /\
    revokes base (plus_serials S ca (fun n =>
      exists i, i ∈ l /\ Z.testbit (bm_value bm) i = true /\ n = start + i)) I krl'.
Proof.
  induction l as [|i l IH]; intros S krl Hr Hw Hs Hl.
  { exists krl. split; [done|]. eapply revokes_iff; [| |exact Hr]; [|done]. unfold plus_serials.
    intros ca' n. split; [by left|]. intros [?|[_ (i&Hi&_)]]; [done|]. by apply not_elem_of_nil in Hi. }
  apply Forall_cons in Hl as [Hi Hl]. cbn [parse_bits]. rewrite wrap_small by lia.
  destruct (Z.eqb_spec (start + i) 0) as [|Hnz]; [lia|]. rewrite andb_false_r.
  rewrite bitmap_test_bit_ok by (done || lia). unfold bind.
  destruct (Z.testbit (bm_value bm) i) eqn:Ht.
  - change (b2z true =? 0) with false. cbn iota.
    destruct (revoke_serials_step base S I ca (start + i) (start + i) krl Hr) as (krl1&->&H1); [lia..|].
    destruct (IH _ krl1 H1 Hw Hs Hl) as (krl2&E2&H2). exists krl2. split; [done|].
    eapply revokes_iff; [| |exact H2]; [|done]. unfold plus_serials. intros ca' n.
    split.
    + intros [[?|[? ?]]|[? (j&?&?&?)]]; [by left|right|right].
      * split; [done|]. exists i. split_and!; [by left|done|lia].
      * split; [done|]. exists j. split_and!; [by right|done..].
    + intros [?|[? (j&[->|?]%elem_of_cons&?&?)]]; [by left; left|left; right; split; [done|lia]|].
      right. split; [done|]. by exists j.
  - change (b2z false =? 0) with true. cbn iota.
    destruct (IH _ krl Hr Hw Hs Hl) as (krl2&E2&H2). exists krl2. split; [done|].
    eapply revokes_iff; [| |exact H2]; [|done]. unfold plus_serials. intros ca' n.
    split.
    + intros [?|[? (j&?&?&?)]]; [by left|right]. split; [done|]. exists j. split_and!; [by right|done..].
    + intros [?|[? (j&[->|?]%elem_of_cons&?&?)]]; [by left|congruence|right].
      split; [done|]. by exists j.
Qed.

Lemma bitmap_new_alloc : exists bm, bitmap_new A = Some bm /\ bm_len bm = 1.
Proof.
  unfold bitmap_new. pose proof (HA SIZEOF_BITMAP). pose proof (HA BITMAP_BYTES).
  destruct (A SIZEOF_BITMAP), (A BITMAP_BYTES); try done. eauto.
Qed.

(** A bitmap section that the reader accepts. *)
Definition section_readable (s : section) : Prop := section_bits s <= 16384.

Lemma parse_serial_bitmap_spec base S I ca start v b krl :
  revokes base S I krl -> section_ok (SBitmap start v) -> section_readable (SBitmap start v) ->
  wf b -> contents b = section_body (SBitmap start v) ->
  exists b' krl', parse_serial_bitmap A mem pick ca (b, krl) = (Ok tt, (b', krl')) /\ wf b' /\
    contents b' = [] /\ revokes base (plus_serials S ca (section_has (SBitmap start v))) I krl'.
Proof.
  intros Hr (Hst&Hv&Hlog) Hbits Hb Hc. unfold serial_ok, section_readable in *. simpl in Hbits, Hc.
  unfold parse_serial_bitmap. destruct bitmap_new_alloc as (bm&Ebm&Hlen). rewrite Ebm.
  apply bitmap_new_ok in Ebm as [Hw _].
  destruct (fst_step sshbuf_get_u64 (rd_be 8) b krl start (wr_bignum2 (bitmap_bytes v) ++ [])
    (fun serial_lo => let! blob := on_fst sshbuf_get_bignum2_bytes_direct in
      match bitmap_from_string A blob (zlen blob) bm with
      | (Err _, _) => fail SSH_ERR_INVALID_FORMAT
      | (Ok _, bm) => let '(nbits, bm) := bitmap_nbits bm in
          on_snd (parse_bits mem pick ca serial_lo bm (seqZ 0 nbits))
      end)) as (b1&Hb1&Hc1&E1);
    [apply _|done|rewrite Hc, app_nil_r; apply rd_u64_app; unfold in_range; lia|].
  rewrite E1. clear E1.
  pose proof (nbytes_spec v ltac:(lia)) as [Hn0 Hnb].
  assert (nbytes v <= 2048) as Hn.
  { unfold nbytes. destruct (Z.eqb_spec v 0); [lia|].
    pose proof (Z.div_lt_upper_bound (Z.log2 v) 8 2048). lia. }
  assert (Bytes (bitmap_bytes v)) as Hbb by apply be_bytes_Bytes.
  assert (zlen (bitmap_bytes v) = nbytes v) as Hbz by (unfold bitmap_bytes; rewrite be_bytes_zlen; lia).
  pose proof (trim_zeros_zlen (bitmap_bytes v)) as Htz.
  destruct (fst_step sshbuf_get_bignum2_bytes_direct rd_bignum2 b1 krl (trim_zeros (bitmap_bytes v)) []
    (fun blob => match bitmap_from_string A blob (zlen blob) bm with
      | (Err _, _) => fail SSH_ERR_INVALID_FORMAT
      | (Ok _, bm) => let '(nbits, bm) := bitmap_nbits bm in
          on_snd (parse_bits mem pick ca start bm (seqZ 0 nbits))
      end)) as (b2&Hb2&Hc2&E2);
    [apply _|done|rewrite Hc1; apply rd_bignum2_app; [done|]; change SSHBUF_MAX_BIGNUM with 2048; lia|].
  rewrite E2. clear E2. set (p := trim_zeros (bitmap_bytes v)) in *.
  pose proof (bitmap_from_string_ok A p (zlen p) bm Hw (trim_zeros_Bytes _ Hbb)) as F.
  specialize (F ltac:(pose proof (zlen_nonneg p); lia) ltac:(rewrite Hlen; by change BITMAP_MAX with 16777216)).
  destruct (bitmap_from_string A p (zlen p) bm) as [[[]|e] bm1].
  2: { destruct F as (_&_&_&[F|[k F]]); [|by apply HA in F].
       change (BITMAP_MAX / 8) with 2097152 in F. lia. }
  destruct F as (Hw1&Hv1&_). rewrite ztake_ge in Hv1 by lia. unfold p in Hv1.
  rewrite be_value_trim in Hv1. unfold bitmap_bytes in Hv1.
  rewrite be_value_be_bytes in Hv1 by (rewrite Z2Nat.id by lia; lia).
  rewrite bitmap_nbits_ok, Hv1 by done. destruct (Z.eqb_spec v 0) as [|Hnz]; [lia|].
  destruct (retop_ok bm1 Hw1) as (Hw2&Hv2&_). pose proof (Z.log2_nonneg v).
  destruct (parse_bits_spec base I ca start (retop bm1) (seqZ 0 (Z.log2 v + 1)) S krl Hr Hw2)
    as (krl1&E3&H3); [lia|apply Forall_seqZ; lia|].
  exists b2, krl1. rewrite (snd_last _ _ _ _ _ E3). split_and!; [done..|].
  eapply revokes_iff; [| |exact H3]; [|done]. unfold plus_serials. intros ca' n. cbn [section_has].
  rewrite Hv2, Hv1. split.
  - intros [?|[? (i&Hi&Ht&->)]]; [by left|right]. split; [done|]. apply elem_of_seqZ in Hi.
    split; [lia|]. by replace (start + i - start) with i by lia.
  - intros [?|[? [Hge Ht]]]; [by left|right]. split; [done|]. exists (n - start).
    split_and!; [|done|lia]. apply elem_of_seqZ. split; [lia|].
    destruct (Z.le_gt_cases (n - start) (Z.log2 v)); [lia|].
    by rewrite Z.bits_above_log2 in Ht by lia.
Qed.

Lemma wr_string_fits b v rest :
  wf b -> contents b = wr_string v ++ rest -> zlen v <= WIRE_STRING_MAX.
Proof.
  intros Hb Hc. pose proof (contents_zlen b Hb) as Hl. wf_unpack Hb. rewrite Hc, zlen_app, wr_string_zlen in Hl.
  unfold WIRE_STRING_MAX. pose proof (zlen_nonneg rest). lia.
Qed.

Lemma c_string_copy v : c_str v -> c_string (v ++ [0]) = v.
Proof.
  induction 1 as [|c v Hc _ IH]; simpl; [done|]. destruct (Z.eqb_spec c 0); [lia|]. by rewrite IH.
Qed.

Lemma c_str_cstring_ok v : c_str v -> cstring_ok v = true.
Proof.
  intros Hv. unfold cstring_ok. apply forallb_ztake. apply forallb_forall. intros c Hc.
  unfold c_str in Hv. rewrite Forall_forall in Hv. specialize (Hv c). rewrite list_elem_of_In in Hv.
  specialize (Hv Hc). destruct (Z.eqb_spec c 0); [lia|done].
Qed.

Lemma rd_cstring_app v l :
  c_str v -> zlen v <= WIRE_STRING_MAX -> rd_cstring (wr_string v ++ l) = Ok (v, l).
Proof.
  intros Hv Hl. unfold rd_cstring. rewrite rd_string_app by done. by rewrite c_str_cstring_ok.
Qed.

Lemma parse_key_ids_spec base S I ca ids b krl :
  revokes base S I krl -> Forall c_str ids -> wf b -> contents b = strings_wire ids ->
  exists b' krl', parse_key_ids A mem ca (b, krl) = (Ok tt, (b', krl')) /\ wf b' /\
    contents b' = [] /\ revokes base S (plus_ids I ca (fun x => x ∈ ids)) krl'.
Proof.
  intros Hr Hl Hb Hc.
  apply (while_items _ wr_string (fun dn => revokes base S (plus_ids I ca (fun x => x ∈ dn))) ids);
    [| |done..|].
  - intros dn x post b0 krl0 rest -> Hb0 Hc0 HP. apply Forall_app in Hl as [_ Hl].
    apply Forall_inv in Hl.
    pose proof (wr_string_fits _ _ _ Hb0 Hc0) as Hfit.
    destruct (fst_step (sshbuf_get_cstring A true) (rd_bind rd_cstring (fun v => rd_ret (string_copy true v))) b0 krl0 (string_copy true x) rest
      (fun '(key_id, _) => on_snd (revoke_key_id mem ca (c_string (default [] key_id)))))
      as (b1&Hb1&Hc1&E);
      [by apply sshbuf_get_cstring_refines|done|
       rewrite Hc0; unfold rd_bind; by rewrite rd_cstring_app|].
    destruct (revoke_key_id_step base S _ ca x krl0 HP) as (krl1&E1&H1).
    exists b1, krl1. rewrite E. cbn [string_copy fst default]. unfold default, id.
    rewrite c_string_copy, (snd_last _ _ _ _ _ E1) by done. split_and!; [done..|].
    eapply revokes_iff; [| |exact H1]; [done|]. unfold plus_ids. intros ca' n.
    rewrite elem_of_app, list_elem_of_singleton. tauto.
  - intros x. rewrite wr_string_zlen. pose proof (zlen_nonneg x). lia.
  - eapply revokes_iff; [| |exact Hr]; [done|]. unfold plus_ids. intros ca' n.
    rewrite elem_of_nil. tauto.
Qed.

(** ** Children *)

Lemma froms_spec b v rest :
  wf b -> contents b = wr_string v ++ rest -> zlen v <= WIRE_STRING_MAX ->
  exists c b', froms A b = (Ok c, b') /\ wf c /\ contents c = v /\ wf b' /\ contents b' = rest.
Proof.
  intros Hb Hc Hv. unfold froms. pose proof (peek_string_spec b Hb) as P.
  assert (rd_string (contents b) = Ok (v, rest)) as Er by (rewrite Hc; by apply rd_string_app).
  rewrite Er in P. destruct P as (->&Pv&_&Hl&HBv).
  destruct (sshbuf_from A _ (zlen v)) as [c|] eqn:E.
  2: { unfold sshbuf_from in E. change WIRE_STRING_MAX with 134217724 in Hv.
       destruct (Z.ltb_spec SSHBUF_SIZE_MAX (zlen v)); [unfold SSHBUF_SIZE_MAX in *; lia|].
       pose proof (HA SIZEOF_SSHBUF). by destruct (A SIZEOF_SSHBUF). }
  destruct (sshbuf_from_fresh _ _ _ _ _ E) as (((Hwc&_)&_)&_&Hcc).
  { pose proof (zlen_nonneg v). pose proof (zlen_ztake_le (zlen v) (zdrop 4 (ptr_of b))) as Hz.
    rewrite Pv in Hz. lia. }
  { auto with ssh. }
  destruct (peek_consume b v rest tt Hb Er) as (b'&E2&Hb'&_&Hc').
  exists c, b'. unfold bind. rewrite E2. rewrite Hcc, Pv. done.
Qed.

Lemma child_step {Y} type body rest b krl (k : Z -> sshbuf -> parser Y) :
  wf b -> contents b = type :: wr_string body ++ rest -> is_byte type ->
  exists c b', wf c /\ contents c = body /\ wf b' /\ contents b' = rest /\
    (let! type := on_fst sshbuf_get_u8 in let! c := on_fst (froms A) in k type c) (b, krl) =
    k type c (b', krl).
Proof.
  intros Hb Hc Ht.
  destruct (fst_step sshbuf_get_u8 (rd_be 1) b krl type (wr_string body ++ rest)
    (fun type => let! c := on_fst (froms A) in k type c)) as (b1&Hb1&Hc1&E1);
    [apply _|done|rewrite Hc; by apply rd_u8_app|].
  destruct (froms_spec b1 body rest Hb1 Hc1) as (c&b2&E2&Hwc&Hcc&Hb2&Hc2).
  { by eapply wr_string_fits. }
  exists c, b2. split_and!; [done..|]. rewrite E1. unfold bind, on_fst. by rewrite E2.
Qed.

Lemma in_child_step (m : parser unit) c c' b krl krl' :
  m (c, krl) = (Ok tt, (c', krl')) -> in_child c m (b, krl) = (Ok tt, (b, krl')).
Proof. intros E. unfold in_child, on_snd. by rewrite E. Qed.

Lemma used_up (m : parser unit) b krl b' krl' :
  m (b, krl) = (Ok tt, (b', krl')) -> wf b' -> contents b' = [] ->
  (m ;;; let! (buf, _) := get_state in
         if 0 <? sshbuf_len buf then fail SSH_ERR_INVALID_FORMAT else ret tt) (b, krl) =
  (Ok tt, (b', krl')).
Proof.
  intros E Hb Hc. unfold bind, get_state. rewrite E. by rewrite sshbuf_len_contents, Hc.
Qed.

(** ** An entry *)

Lemma parse_section_spec base S I ca s b krl :
  revokes base S I krl -> section_ok s -> section_readable s -> wf b -> contents b = section_body s ->
  exists b' krl', parse_subsection A mem pick ca (section_type s) (b, krl) = (Ok tt, (b', krl')) /\
    revokes base (plus_serials S ca (section_has s)) I krl'.
Proof.
  intros Hr Hok Hrd Hb Hc.
  assert (exists b' krl', (match s with
      | SList _ => parse_serial_list mem pick ca
      | SRange _ _ => parse_serial_range mem pick ca
      | SBitmap _ _ => parse_serial_bitmap A mem pick ca end) (b, krl) = (Ok tt, (b', krl')) /\ wf b' /\
      contents b' = [] /\ revokes base (plus_serials S ca (section_has s)) I krl') as (b'&krl'&E&Hb'&Hc'&H').
  { destruct s as [l|lo hi|start v].
    - by apply (parse_serial_list_spec base S I ca l).
    - destruct Hok as (?&?&?). by apply (parse_serial_range_spec base S I ca lo hi).
    - by apply (parse_serial_bitmap_spec base S I ca start v). }
  exists b', krl'. split; [|done]. unfold parse_subsection.
  destruct s; by apply used_up.
Qed.

Lemma parse_ids_spec base S I ca ids b krl :
  revokes base S I krl -> Forall c_str ids -> wf b -> contents b = strings_wire ids ->
  exists b' krl', parse_subsection A mem pick ca KRL_SECTION_CERT_KEY_ID (b, krl) = (Ok tt, (b', krl')) /\
    revokes base S (plus_ids I ca (fun x => x ∈ ids)) krl'.
Proof.
  intros Hr Hl Hb Hc. destruct (parse_key_ids_spec base S I ca ids b krl) as (b'&krl'&E&Hb'&Hc'&H'); [done..|].
  exists b', krl'. split; [|done]. by apply used_up.
Qed.

Definition subsection_loop ca : parser unit :=
  while_buf
    (let! type := on_fst sshbuf_get_u8 in
     let! subsect := on_fst (froms A) in
     in_child subsect (parse_subsection A mem pick ca type)).

(** The subsections of an entry: its serial numbers, then its key IDs. *)
Lemma subsections_spec base S I ca l secs ids b krl :
  revokes base S I krl -> sections_of l secs -> Forall section_readable secs -> Forall c_str ids ->
  wf b -> contents b = sections_wire secs ++ strings_section KRL_SECTION_CERT_KEY_ID ids ->
  exists b' krl', subsection_loop ca (b, krl) = (Ok tt, (b', krl')) /\ wf b' /\ contents b' = [] /\
    revokes base (plus_serials S ca (fun n => covered n l)) (plus_ids I ca (fun x => x ∈ ids)) krl'.
Proof.
  intros Hr (Hok&Hhas&_) Hrd Hids Hb Hc. unfold subsection_loop. rewrite while_buf_eq by done.
  set (body := let! type := _ in _).
  destruct (while_prefix body section_wire
    (fun dn => revokes base (plus_serials S ca (sections_have dn)) I) secs) with (todo := secs) (dn := @nil section)
    (b := b) (krl := krl) (rest := strings_section KRL_SECTION_CERT_KEY_ID ids)
    (fuel := Z.to_nat (zlen (contents b))) as (b1&krl1&fuel&->&Hb1&Hc1&Hf&H1); try done.
  - intros dn s post b0 krl0 rest -> Hb0 Hc0 HP. apply Forall_app in Hok as [_ Hok], Hrd as [_ Hrd].
    apply Forall_inv in Hok, Hrd.
    destruct (child_step (section_type s) (section_body s) rest b0 krl0
      (fun type c => in_child c (parse_subsection A mem pick ca type)) Hb0 Hc0)
      as (c&b1&Hwc&Hcc&Hb1&Hc1&E); [apply section_type_byte|].
    destruct (parse_section_spec base _ I ca s c krl0 HP) as (c'&krl1&E1&H1); auto.
    exists b1, krl1. unfold body. rewrite E. split_and!; [by eapply in_child_step|done..|].
    eapply revokes_iff; [| |exact H1]; [|done]. unfold plus_serials. intros ca' n.
    rewrite sections_have_app, sections_have_one. tauto.
  - eapply revokes_iff; [| |exact Hr]; [|done]. unfold plus_serials, sections_have. intros ca' n.
    rewrite Exists_nil. tauto.
  - pose proof (zlen_nonneg (contents b)). lia.
  - simpl app in H1.
    assert (revokes base (plus_serials S ca (fun n => covered n l)) I krl1) as H2.
    { eapply revokes_iff; [| |exact H1]; [|done]. unfold plus_serials. intros ca' n. by rewrite Hhas. }
    destruct ids as [|id ids]; simpl in Hc1.
    + exists b1, krl1. rewrite while_end by done. split_and!; [done..|].
      eapply revokes_iff; [| |exact H2]; [done|]. unfold plus_ids. intros ca' x. rewrite elem_of_nil. tauto.
    + set (idl := id :: ids) in *. rewrite <- (app_nil_r (wr_string _)) in Hc1.
      destruct (child_step KRL_SECTION_CERT_KEY_ID (strings_wire idl) [] b1 krl1
        (fun type c => in_child c (parse_subsection A mem pick ca type)) Hb1 Hc1)
        as (c&b2&Hwc&Hcc&Hb2&Hc2&E); [by unfold in_range|].
      destruct (parse_ids_spec base _ I ca idl c krl1 H2) as (c'&krl2&E2&H3); [done..|].
      erewrite in_child_step in E by exact E2.
      destruct (while_step fuel body b1 krl1 _ Hb1 E) as (f&->&_).
      { rewrite Hc1, zlen_cons, app_nil_r. simpl in Hf. rewrite zlen_cons in Hf.
        pose proof (zlen_nonneg (wr_string (strings_wire idl))). lia. }
      exists b2, krl2. by rewrite while_end.
Qed.

Context {HBL : KeyBlobLaws sshkey}.

Lemma direct_step {Y} v rest b krl (k : bytes * Z -> parser Y) :
  wf b -> contents b = wr_string v ++ rest ->
  exists p b', ztake (zlen v) p = v /\ wf b' /\ contents b' = rest /\
    bind (on_fst sshbuf_get_string_direct) k (b, krl) = k (p, zlen v) (b', krl).
Proof.
  intros Hb Hc. pose proof (get_string_direct_spec b Hb) as P.
  rewrite Hc, rd_string_app in P by (by eapply wr_string_fits).
  destruct P as (b'&E&Hv&Hb'&_&Hc'). exists (zdrop 4 (ptr_of b)), b'. split_and!; [done..|].
  unfold bind, on_fst. by rewrite E.
Qed.

Lemma skip_step {Y} v rest b krl (k : unit -> parser Y) :
  wf b -> contents b = wr_string v ++ rest ->
  exists b', wf b' /\ contents b' = rest /\
    bind (on_fst sshbuf_skip_string) k (b, krl) = k tt (b', krl).
Proof.
  intros Hb Hc.
  destruct (fst_step sshbuf_skip_string _ b krl tt rest k sshbuf_skip_string_refines Hb) as (b'&?&?&?).
  { unfold rd_bind. rewrite Hc, rd_string_app; [done|]. by eapply wr_string_fits. }
  by exists b'.
Qed.

Lemma parse_revoked_certs_spec base S I rc w b krl :
  revokes base S I krl -> entry_good rc -> encodes rc w -> zlen (rc_serials rc) <= 78 ->
  wf b -> contents b = w ->
  exists b' krl', parse_revoked_certs A mem pick (b, krl) = (Ok tt, (b', krl')) /\ wf b' /\
    contents b' = [] /\
    revokes base (plus_serials S (rc_ca_key rc) (fun n => covered n (rc_serials rc)))
      (plus_ids I (rc_ca_key rc) (fun x => x ∈ rc_key_ids rc)) krl'.
Proof.
  intros Hr Hg (v&secs&Hv&Hsecs&->) Hlen Hb Hc. unfold parse_revoked_certs.
  assert (sshbuf_new A <> None) as Hnew.
  { unfold sshbuf_new. pose proof (HA SIZEOF_SSHBUF). pose proof (HA SSHBUF_SIZE_INIT).
    destruct (A SIZEOF_SSHBUF), (A SSHBUF_SIZE_INIT) as [[]|]; done. }
  destruct (sshbuf_new A); [|done]. clear Hnew.
  assert (Forall section_readable secs) as Hrd.
  { destruct Hsecs as (_&_&Hbits). eapply Forall_impl; [exact Hbits|].
    unfold section_readable. intros; lia. }
  unfold entry_wire in Hc.
  edestruct (direct_step (Y := unit) v) as (p&b1&Hp&Hb1&Hc1&->); [exact Hb|exact Hc|]. cbv beta iota.
  edestruct (skip_step (Y := unit) []) as (b2&Hb2&Hc2&->); [exact Hb1|exact Hc1|].
  assert (exists ca, same_ca ca (rc_ca_key rc) = true /\
    (if negb (zlen v =? 0)
     then let! k := lift (sshkey_from_blob (ztake (zlen v) p)) in ret (Some k)
     else ret None) (b2, krl) = (Ok ca, (b2, krl))) as (ca&Hca&E).
  { destruct (rc_ca_key rc) as [k|]; simpl in Hv.
    - destruct (sshkey_blob_bytes k v Hv) as [_ Hne]. destruct (sshkey_blob_back k v Hv) as (k'&Hk'&He).
      exists (Some k'). split; [done|]. destruct (Z.eqb_spec (zlen v) 0) as [Hz|_].
      { by apply zlen_0_nil in Hz. }
      simpl. unfold bind, lift. by rewrite Hp, Hk'.
    - subst v. exists None. done. }
  unfold bind at 1. rewrite E. clear E.
  destruct (subsections_spec base S I ca _ secs (rc_key_ids rc) b2 krl Hr Hsecs Hrd (eg_ids _ Hg) Hb2 Hc2)
    as (b3&krl3&E3&Hb3&Hc3&H3).
  exists b3, krl3. split_and!; [done..|].
  eapply revokes_iff; [| |exact H3]; unfold plus_serials, plus_ids; intros ca' n;
    by rewrite (same_ca_trans_eq _ _ ca' Hca).
Qed.

(** ** Key and hash sections *)

Lemma insert_last l x post :
  sorted (l ++ x :: post) -> fst (RB_INSERT blob_cmp x l) = l ++ [x].
Proof.
  unfold sorted. induction l as [|y l IH]; intros Hs; simpl; [done|].
  simpl in Hs. apply StronglySorted_inv in Hs as [Hs Hy]. rewrite blob_cmp_strcmp.
  rewrite Forall_app in Hy. destruct Hy as [_ Hy]. apply Forall_inv in Hy. unfold lex_lt in Hy.
  destruct (Z.eqb_spec (strcmp x y) 0) as [E%strcmp_0|Hne].
  { subst y. assert (strcmp x x = 0) by (by apply strcmp_0). lia. }
  destruct (Z.ltb_spec (strcmp x y) 0) as [Hlt|Hge].
  { pose proof (strcmp_trans _ _ _ Hy Hlt) as Ht. assert (strcmp y y = 0) by (by apply strcmp_0). lia. }
  specialize (IH Hs). destruct (RB_INSERT blob_cmp x l) as [l' e]. simpl in *. by rewrite IH.
Qed.

(** The list with the blobs of a section. *)
Definition with_blobs (type : Z) (l : list bytes) krl : ssh_krl sshkey :=
  if type =? KRL_SECTION_EXPLICIT_KEY then with_keys l krl else with_sha1s l krl.
Definition blobs_of (type : Z) krl : list bytes :=
  if type =? KRL_SECTION_EXPLICIT_KEY then krl_revoked_keys krl else krl_revoked_sha1s krl.

Lemma parse_blob_step type x post dn krl :
  sorted (dn ++ x :: post) -> parse_blob mem type x (with_blobs type dn krl) =
  (Ok tt, with_blobs type (dn ++ [x]) krl).
Proof.
  intros Hs. unfold parse_blob, with_blobs, revoke_blob. rewrite Hmem.
  destruct (type =? KRL_SECTION_EXPLICIT_KEY); simpl; by erewrite insert_last.
Qed.

Lemma parse_blobs_spec type l b krl :
  sorted l -> (type = KRL_SECTION_FINGERPRINT_SHA1 -> Forall (fun v => zlen v = 20) l) ->
  wf b -> contents b = strings_wire l -> blobs_of type krl = [] ->
  exists b', parse_blobs A mem type (b, krl) = (Ok tt, (b', with_blobs type l krl)) /\ wf b' /\ contents b' = [].
Proof.
  intros Hs Hsha Hb Hc He.
  destruct (while_items
    (let! (rdata, rlen) := on_fst (sshbuf_get_string A true) in
     if (type =? KRL_SECTION_FINGERPRINT_SHA1) && negb (rlen =? 20) then fail SSH_ERR_INVALID_FORMAT
     else on_snd (parse_blob mem type (ztake rlen (default [] rdata))))
    wr_string (fun dn krl' => krl' = with_blobs type dn krl) l) with (b := b) (krl := krl)
    as (b'&krl'&E&Hb'&Hc'&->); [| |done|done| |by exists b'].
  - intros dn x post b0 krl0 rest -> Hb0 Hc0 ->.
    pose proof (wr_string_fits _ _ _ Hb0 Hc0) as Hfit.
    edestruct (fst_step (Y := unit) (sshbuf_get_string A true)
      (rd_bind rd_string (fun v => rd_ret (string_copy true v))) b0 (with_blobs type dn krl) (string_copy true x) rest)
      as (b1&Hb1&Hc1&->);
      [by apply sshbuf_get_string_refines|done|rewrite Hc0; unfold rd_bind; by rewrite rd_string_app|].
    unfold string_copy. cbv beta iota.
    assert ((type =? KRL_SECTION_FINGERPRINT_SHA1) && negb (zlen x =? 20) = false) as ->.
    { destruct (Z.eqb_spec type KRL_SECTION_FINGERPRINT_SHA1) as [Ht|]; [|done].
      specialize (Hsha Ht). apply Forall_app in Hsha as [_ Hsha]. apply Forall_inv in Hsha.
      by rewrite Hsha. }
    cbn [default]. unfold default, id. rewrite ztake_app by done.
    erewrite snd_last by (by eapply parse_blob_step).
    by exists b1, (with_blobs type (dn ++ [x]) krl).
  - intros x. rewrite wr_string_zlen. pose proof (zlen_nonneg x). lia.
  - unfold with_blobs, blobs_of in *. destruct (type =? _); rewrite <- He; by destruct krl.
Qed.

(** ** The second pass *)

(** The serial numbers and key IDs of a CA in a list of entries. *)
Definition certs_serial (certs : list (revoked_certs sshkey)) ca n : Prop :=
  Exists (fun rc => same_ca (rc_ca_key rc) ca = true /\ covered n (rc_serials rc)) certs.
Definition certs_id (certs : list (revoked_certs sshkey)) ca x : Prop :=
  Exists (fun rc => same_ca (rc_ca_key rc) ca = true /\ x ∈ rc_key_ids rc) certs.

Definition load_child (type : Z) (sect : sshbuf) : parser unit :=
  if type =? KRL_SECTION_CERTIFICATES then
    in_child sect (parse_revoked_certs A mem pick ;;; no_data_left)
  else if (type =? KRL_SECTION_EXPLICIT_KEY) || (type =? KRL_SECTION_FINGERPRINT_SHA1) then
    in_child sect (parse_blobs A mem type ;;; no_data_left)
  else if type =? KRL_SECTION_SIGNATURE then on_fst sshbuf_skip_string
  else fail SSH_ERR_INVALID_FORMAT.

Definition load_body : parser unit :=
  let! type := on_fst sshbuf_get_u8 in
  let! sect := on_fst (froms A) in
  load_child type sect.

Lemma load_certs base certs entries b krl rest fuel :
  revokes base (certs_serial []) (certs_id []) krl ->
  Forall entry_good certs -> Forall2 encodes certs entries ->
  Forall (fun rc => zlen (rc_serials rc) <= 78) certs ->
  wf b -> contents b = certs_wire entries ++ rest -> zlen (contents b) <= Z.of_nat fuel ->
  exists b' krl' fuel', while_data fuel load_body (b, krl) = while_data fuel' load_body (b', krl') /\
    wf b' /\ contents b' = rest /\ zlen rest <= Z.of_nat fuel' /\
    revokes base (certs_serial certs) (certs_id certs) krl'.
Proof.
  intros Hr Hg He Hlen Hb Hc Hfuel.
  pose proof (Forall2_length _ _ _ He) as Hl.
  set (l := zip certs entries).
  assert (l.*1 = certs /\ l.*2 = entries) as [H1 H2]
    by (unfold l; split; [apply fst_zip|apply snd_zip]; lia).
  edestruct (while_prefix load_body (fun x => KRL_SECTION_CERTIFICATES :: wr_string (snd x))
    (fun dn => revokes base (certs_serial dn.*1) (certs_id dn.*1)) l) with (todo := l)
    (dn := @nil (revoked_certs sshkey * bytes)) (b := b) (krl := krl) (rest := rest) (fuel := fuel)
    as (b1&krl1&fuel1&E&Hb1&Hc1&Hf1&HP1); [|done|done|done| |done|done|].
  - intros dn [rc w] post b0 krl0 rest' Hl' Hb0 Hc0 HP. simpl in Hc0.
    assert (rc ∈ certs /\ encodes rc w) as [Hrc Hw].
    { assert ((rc, w) ∈ zip certs entries) as Hin by (fold l; rewrite Hl'; set_solver).
      split; [by eapply elem_of_zip_l|]. apply list_elem_of_lookup in Hin as [i Hi].
      apply lookup_zip_with_Some in Hi as (x&y&[= <- <-]&Hx&Hy). by eapply Forall2_lookup_lr. }
    rewrite Forall_forall in Hg, Hlen. specialize (Hg _ Hrc). specialize (Hlen _ Hrc).
    destruct (child_step KRL_SECTION_CERTIFICATES w rest' b0 krl0 load_child Hb0 Hc0)
      as (c&b1&Hwc&Hcc&Hb1&Hc1&E); [by unfold in_range|].
    destruct (parse_revoked_certs_spec base _ _ rc w c krl0 HP) as (c'&krl1&E1&Hc'&Hcc'&HP1); [done..|].
    exists b1, krl1. split_and!; [|done..|].
    + etransitivity; [exact E|]. unfold load_child. rewrite Z.eqb_refl.
      eapply in_child_step. by apply used_up.
    + eapply revokes_iff; [| |exact HP1]; unfold plus_serials, plus_ids, certs_serial, certs_id;
        intros ca' x; rewrite fmap_app, Exists_app; simpl; rewrite Exists_cons, Exists_nil; tauto.
  - rewrite Hc. f_equal. unfold certs_wire. rewrite <- H2. by rewrite <- list_fmap_compose.
  - rewrite H1 in HP1. exists b1, krl1, fuel1. done.
Qed.

Lemma load_blobs type l b krl rest fuel :
  type = KRL_SECTION_EXPLICIT_KEY \/ type = KRL_SECTION_FINGERPRINT_SHA1 ->
  sorted l -> (type = KRL_SECTION_FINGERPRINT_SHA1 -> Forall (fun v => zlen v = 20) l) ->
  blobs_of type krl = [] ->
  wf b -> contents b = strings_section type l ++ rest -> zlen (contents b) <= Z.of_nat fuel ->
  exists b' fuel', while_data fuel load_body (b, krl) =
      while_data fuel' load_body (b', with_blobs type l krl) /\
    wf b' /\ contents b' = rest /\ zlen rest <= Z.of_nat fuel'.
Proof.
  intros Ht Hs Hsha He Hb Hc Hfuel. destruct l as [|v l].
  { exists b, fuel. assert (with_blobs type [] krl = krl) as ->.
    { unfold with_blobs, blobs_of in *. destruct (type =? _); rewrite <- He; by destruct krl. }
    simpl in Hc. rewrite Hc in Hfuel. done. }
  set (k := v :: l) in *. change (strings_section type k) with (type :: wr_string (strings_wire k)) in Hc.
  rewrite <- app_comm_cons in Hc.
  destruct (child_step type (strings_wire k) rest b krl load_child Hb Hc)
    as (c&b1&Hwc&Hcc&Hb1&Hc1&E); [by destruct Ht as [->| ->]; unfold in_range|].
  destruct (parse_blobs_spec type k c krl Hs Hsha Hwc Hcc He) as (c'&E1&Hc'&Hcc').
  assert (load_body (b, krl) = (Ok tt, (b1, with_blobs type k krl))) as E2.
  { etransitivity; [exact E|]. unfold load_child.
    assert ((type =? KRL_SECTION_CERTIFICATES) = false) as -> by (by destruct Ht as [->| ->]).
    assert ((type =? KRL_SECTION_EXPLICIT_KEY) || (type =? KRL_SECTION_FINGERPRINT_SHA1) = true) as ->
      by (by destruct Ht as [->| ->]).
    eapply in_child_step. by apply used_up. }
  assert (zlen (contents b) = 5 + zlen (strings_wire k) + zlen rest) as Hz
    by (rewrite Hc, zlen_cons, zlen_app, wr_string_zlen; lia).
  pose proof (zlen_nonneg (strings_wire k)). pose proof (zlen_nonneg rest).
  destruct (while_step fuel load_body b krl _ Hb E2) as (f&->&Hf); [lia|].
  exists b1, f. split_and!; [done..|lia].
Qed.

(** The signatures are skipped. *)
Definition sig_wire (vs : bytes * bytes) : bytes :=
  KRL_SECTION_SIGNATURE :: wr_string (fst vs) ++ wr_string (snd vs).

Lemma signed_items p ks w : signed p ks w -> exists sigs, w = concat (sig_wire <$> sigs).
Proof.
  induction 1 as [|p k ks v s w Hv Hs _ [sigs ->]]; [by exists []|].
  exists ((v, s) :: sigs). rewrite fmap_cons. cbn [concat]. unfold sig_wire at 2. simpl.
  by rewrite <- (assoc_L (++)).
Qed.

Lemma load_signatures sigs b krl fuel :
  wf b -> contents b = concat (sig_wire <$> sigs) -> zlen (contents b) <= Z.of_nat fuel ->
  exists b', while_data fuel load_body (b, krl) = (Ok tt, (b', krl)).
Proof.
  intros Hb Hc Hfuel. rewrite <- (app_nil_r (concat _)) in Hc.
  edestruct (while_prefix load_body sig_wire (fun _ krl' => krl' = krl) sigs) with (todo := sigs)
    (dn := @nil (bytes * bytes)) (b := b) (krl := krl) (rest := @nil Z) (fuel := fuel)
    as (b1&krl1&fuel1&E&Hb1&Hc1&Hf1&->); [|by intros []|done|done|done|done|done|].
  - intros dn [v s] post b0 krl0 rest -> Hb0 Hc0 ->. unfold sig_wire in Hc0. simpl in Hc0.
    rewrite <- (assoc_L (++)) in Hc0.
    destruct (child_step KRL_SECTION_SIGNATURE v _ b0 krl load_child Hb0 Hc0)
      as (c&b1&Hwc&Hcc&Hb1&Hc1&E); [by unfold in_range|].
    destruct (skip_step (Y := unit) s rest b1 krl ret Hb1 Hc1) as (b2&Hb2&Hc2&E2).
    exists b2, krl. split_and!; [|done..]. etransitivity; [exact E|].
    change (load_child KRL_SECTION_SIGNATURE c) with (on_fst (T := ssh_krl sshkey) sshbuf_skip_string).
    revert E2. unfold bind, ret. by destruct (on_fst sshbuf_skip_string (b1, krl)) as [[[]|e] st].
  - exists b1. rewrite E. by apply while_end.
Qed.

(** ** The first pass *)

Lemma buf_step {X Y} (m : M sshbuf X) sp b x rest (k : X -> M sshbuf Y) :
  Refines m sp -> wf b -> sp (contents b) = Ok (x, rest) ->
  exists b', wf b' /\ contents b' = rest /\ bind m k b = k x b'.
Proof.
  intros Hm Hb Hs. specialize (Hm b Hb). rewrite Hs in Hm. destruct Hm as (b'&E&Hw&_&Hc).
  exists b'. split_and!; [done..|]. unfold bind. by rewrite E.
Qed.

Lemma buf_direct v rest b :
  wf b -> contents b = wr_string v ++ rest ->
  exists p b', sshbuf_get_string_direct b = (Ok (p, zlen v), b') /\ ztake (zlen v) p = v /\
    wf b' /\ contents b' = rest.
Proof.
  intros Hb Hc. pose proof (get_string_direct_spec b Hb) as P.
  rewrite Hc, rd_string_app in P by (by eapply wr_string_fits).
  destruct P as (b'&E&Hv&Hb'&_&Hc'). exists (zdrop 4 (ptr_of b)), b'. done.
Qed.

Definition item_wire (it : Z * bytes) : bytes := fst it :: wr_string (snd it).

(** One round of the first pass reads the type and a string. *)
Lemma check_step type v rest buf seen used b fuel :
  is_byte type -> wf b -> contents b = type :: wr_string v ++ rest -> zlen (contents b) <= Z.of_nat fuel ->
  exists p b' fuel', ztake (zlen v) p = v /\ wf b' /\ contents b' = rest /\ zlen rest <= Z.of_nat fuel' /\
    check_signatures A fuel buf seen used b =
    (if negb (type =? KRL_SECTION_SIGNATURE) then
       if seen then fail SSH_ERR_INVALID_FORMAT else check_signatures A fuel' buf seen used
     else
       match sshkey_from_blob (ztake (zlen v) p) with
       | Err _ => fail SSH_ERR_INVALID_FORMAT
       | Ok key =>
           let! copy := get_state in
           if sshbuf_len buf <? sshbuf_len copy then fail SSH_ERR_INTERNAL_ERROR
           else
             let sig_off := u64 (sshbuf_len buf - sshbuf_len copy) in
             let! (blob, blen) := fun copy =>
               match sshbuf_get_string_direct copy with
               | (Err _, copy) => (Err SSH_ERR_INVALID_FORMAT, copy)
               | ok => ok
               end in
             lift (sshkey_verify key (ztake blen blob) (ztake sig_off (ptr_of buf))) ;;;
             if existsb (fun k => sshkey_equal (Some k) (Some key)) used
             then fail SSH_ERR_INVALID_FORMAT
             else
               match A (8 * (zlen used + 1)) with
               | None => fail SSH_ERR_ALLOC_FAIL
               | Some _ => check_signatures A fuel' buf true (used ++ [key])
               end
       end) b'.
Proof.
  intros Ht Hb Hc Hf. assert (zlen (contents b) = 1 + zlen (wr_string v) + zlen rest) as Hz
    by (rewrite Hc, zlen_cons, zlen_app; lia).
  pose proof (zlen_nonneg (wr_string v)). pose proof (zlen_nonneg rest).
  destruct fuel as [|fuel]; [lia|]. cbn [check_signatures]. unfold bind at 1, get_state at 1.
  cbv beta iota. rewrite sshbuf_len_contents by done.
  destruct (Z.ltb_spec 0 (zlen (contents b))); [|lia]. cbn [negb].
  edestruct (buf_step (Y := list sshkey) sshbuf_get_u8 (rd_be 1) b type) as (b1&Hb1&Hc1&->);
    [apply _|done|rewrite Hc; by apply rd_u8_app|].
  destruct (buf_direct v rest b1 Hb1 Hc1) as (p&b2&E2&Hp&Hb2&Hc2).
  exists p, b2, fuel. split_and!; [done..|lia|]. unfold bind at 1. by rewrite E2.
Qed.

Lemma check_plain items : forall buf b rest fuel,
  Forall (fun it => is_byte (fst it) /\ fst it <> KRL_SECTION_SIGNATURE) items ->
  wf b -> contents b = concat (item_wire <$> items) ++ rest -> zlen (contents b) <= Z.of_nat fuel ->
  exists b' fuel', check_signatures A fuel buf false [] b = check_signatures A fuel' buf false [] b' /\
    wf b' /\ contents b' = rest /\ zlen rest <= Z.of_nat fuel'.
Proof.
  induction items as [|[type v] items IH]; intros buf b rest fuel Hi Hb Hc Hf.
  - exists b, fuel. simpl in Hc. rewrite Hc in Hf. done.
  - apply Forall_cons in Hi as [[Ht Hns] Hi]. simpl in Ht, Hns.
    rewrite fmap_cons in Hc. cbn [concat] in Hc. unfold item_wire in Hc at 1. simpl in Hc.
    rewrite <- (assoc_L (++)) in Hc.
    destruct (check_step type v _ buf false [] b fuel Ht Hb Hc Hf) as (p&b1&f1&_&Hb1&Hc1&Hf1&->).
    apply Z.eqb_neq in Hns as ->. cbn [negb].
    apply IH; [done..|by rewrite Hc1].
Qed.

Definition distinct (l : list sshkey) : Prop :=
  StronglySorted (fun a b => sshkey_equal (Some a) (Some b) = false) l.
Definition key_eq (a b : sshkey) : Prop := sshkey_equal (Some a) (Some b) = true.

Lemma key_eq_sym a b : key_eq a b -> key_eq b a.
Proof. unfold key_eq. by rewrite sshkey_equal_sym. Qed.
Lemma key_eq_trans a b c : key_eq a b -> key_eq b c -> key_eq a c.
Proof. apply sshkey_equal_trans. Qed.

Lemma not_used used prev k key ks :
  Forall2 key_eq used prev -> distinct (prev ++ k :: ks) -> key_eq key k ->
  existsb (fun k => sshkey_equal (Some k) (Some key)) used = false.
Proof.
  intros Hu Hd Hk. apply StronglySorted_app in Hd as (_&_&Hd).
  revert Hd. induction Hu as [|a b used prev Hab _ IH]; intros Hd; simpl; [done|].
  apply Forall_cons in Hd as [Hb Hd]. apply Forall_inv in Hb. rewrite (IH Hd), orb_false_r.
  apply not_true_iff_false. intros Ha. apply not_true_iff_false in Hb. apply Hb.
  eapply key_eq_trans; [apply key_eq_sym; exact Hab|]. by eapply key_eq_trans.
Qed.

Lemma check_signed p ks w : signed p ks w -> forall buf b used prev seen fuel,
  Forall2 key_eq used prev -> distinct (prev ++ ks) ->
  wf buf -> contents buf = p ++ w -> wf b -> contents b = w -> zlen w <= Z.of_nat fuel ->
  exists used' b', check_signatures A fuel buf seen used b = (Ok (used ++ used'), b') /\
    Forall2 key_eq used' ks /\ wf b' /\ contents b' = [].
Proof.
  induction 1 as [p|p k ks v s w Hv Hs _ IH]; intros buf b used prev seen fuel Hu Hd Hbuf Cbuf Hb Hc Hf.
  - exists [], b. rewrite app_nil_r. split_and!; [|constructor|done..].
    destruct fuel; simpl; unfold bind, get_state; rewrite sshbuf_len_contents, Hc by done; done.
  - destruct (check_step KRL_SECTION_SIGNATURE v (wr_string s ++ w) buf seen used b fuel)
      as (pv&b1&f1&Hpv&Hb1&Hc1&Hf1&->); [by unfold in_range|done|done|by rewrite Hc|].
    rewrite Z.eqb_refl. cbn [negb]. cbv iota. rewrite Hpv.
    destruct (sshkey_blob_back k v Hv) as (key&Hkey&Heq). rewrite Hkey.
    destruct (sshkey_sign_verify k key _ s Hs Heq) as [_ Hver].
    unfold bind at 1, get_state at 1. cbv beta iota.
    rewrite !sshbuf_len_contents, Cbuf, Hc1 by done.
    set (pre := p ++ KRL_SECTION_SIGNATURE :: wr_string v) in *.
    assert (p ++ KRL_SECTION_SIGNATURE :: wr_string v ++ wr_string s ++ w = pre ++ (wr_string s ++ w)) as Epre
      by (unfold pre; rewrite <- (assoc_L (++)); done).
    rewrite Epre, zlen_app. pose proof (zlen_nonneg pre).
    pose proof (zlen_nonneg (wr_string s ++ w)) as Hn.
    destruct (Z.ltb_spec (zlen pre + zlen (wr_string s ++ w)) (zlen (wr_string s ++ w))); [lia|].
    replace (zlen pre + zlen (wr_string s ++ w) - zlen (wr_string s ++ w)) with (zlen pre) by lia.
    assert (zlen (contents buf) = zlen pre + zlen (wr_string s ++ w)) as Hzb
      by (rewrite Cbuf, Epre, zlen_app; lia).
    pose proof (contents_zlen buf Hbuf) as Hcz. pose proof (wf_ranges _ Hbuf).
    rewrite wrap_small by lia. cbv zeta.
    destruct (buf_direct s w b1 Hb1 Hc1) as (ps&b2&E2&Hps&Hb2&Hc2).
    unfold bind at 1. rewrite E2. cbv beta iota. rewrite Hps, ztake_ptr_of by (done || lia).
    rewrite Cbuf, Epre, ztake_app by done. unfold bind, lift. rewrite Hver.
    rewrite (not_used used prev k key ks) by done.
    pose proof (HA (8 * (zlen used + 1))) as Hal. destruct (A _) as [al|]; [|done]. clear Hal.
    destruct (IH buf b2 (used ++ [key]) (prev ++ [k]) true f1) as (used'&b3&E3&Hu'&Hb3&Hc3); try done.
    + apply Forall2_app; [done|]. by repeat constructor.
    + by rewrite <- (assoc_L (++)).
    + rewrite Cbuf, Epre. unfold pre. rewrite <- !(assoc_L (++)). simpl. by rewrite <- (assoc_L (++)).
    + rewrite zlen_app in Hf1. pose proof (zlen_nonneg (wr_string s)). lia.
    + exists (key :: used'), b3. rewrite E3, <- (assoc_L (++)). split_and!; [done| |done..].
      by constructor.
Qed.

(** ** Lists with the same verdicts *)

Record same_content krl1 krl2 : Prop := {
  sc_keys : krl_revoked_keys krl1 = krl_revoked_keys krl2;
  sc_sha1s : krl_revoked_sha1s krl1 = krl_revoked_sha1s krl2;
  sc_serials ca n : covered n (eserials (krl_revoked_certs krl1) ca) <->
                    covered n (eserials (krl_revoked_certs krl2) ca);
  sc_ids ca x : x ∈ eids (krl_revoked_certs krl1) ca <-> x ∈ eids (krl_revoked_certs krl2) ca
}.

Lemma cert_check krl key ca :
  match entry_for krl ca with Some rc => is_cert_revoked key rc | None => Ok tt end =
  (if decide (cert_key_id key ∈ eids (krl_revoked_certs krl) ca) then Err SSH_ERR_KEY_REVOKED
   else if decide (cert_serial key = 0) then Ok tt
   else match RB_FIND serial_cmp (cert_serial key, cert_serial key) (eserials (krl_revoked_certs krl) ca) with
        | Some _ => Err SSH_ERR_KEY_REVOKED
        | None => Ok tt
        end).
Proof.
  rewrite entry_for_spec. unfold eids, eserials. destruct (entry _ ca) as [rc|]; simpl.
  - apply is_cert_revoked_spec.
  - by case_decide.
Qed.

Lemma same_check krl1 krl2 key :
  same_content krl1 krl2 -> ssh_krl_check_key krl1 key = ssh_krl_check_key krl2 key.
Proof.
  intros [Hk Hs Hser Hid].
  assert (forall key ca,
    match entry_for krl1 ca with Some rc => is_cert_revoked key rc | None => Ok tt end =
    match entry_for krl2 ca with Some rc => is_cert_revoked key rc | None => Ok tt end) as Hc.
  { intros k ca. rewrite !cert_check.
    pose proof (Hid ca (cert_key_id k)). pose proof (Hser ca (cert_serial k)) as H1.
    rewrite <- !find_serial in H1.
    repeat case_decide; try done; try tauto.
    destruct (RB_FIND _ _ (eserials (krl_revoked_certs krl1) ca)),
      (RB_FIND _ _ (eserials (krl_revoked_certs krl2) ca)); try done; exfalso;
      intuition congruence. }
  assert (forall key, is_key_revoked krl1 key = is_key_revoked krl2 key) as Hr.
  { intros k. unfold is_key_revoked. rewrite Hk, Hs. destruct (sshkey_fingerprint_sha1 k); [|done].
    destruct (RB_FIND _ _ _); [done|]. destruct (plain_key_blob k); [|done].
    destruct (RB_FIND _ _ _); [done|]. destruct (negb _); [done|]. by rewrite !Hc. }
  unfold ssh_krl_check_key. rewrite Hr. destruct (is_key_revoked krl2 key); [|done]. by rewrite Hr.
Qed.

Lemma unique_entry certs ca :
  StronglySorted (fun a b => other_ca (rc_ca_key b) a) certs ->
  (forall n, certs_serial certs ca n <-> covered n (eserials certs ca)) /\
  (forall x, certs_id certs ca x <-> x ∈ eids certs ca).
Proof.
  unfold certs_serial, certs_id, eserials, eids.
  induction 1 as [|rc certs Hs [IH1 IH2] Hu].
  { split; intros; rewrite Exists_nil; simpl; [by rewrite covered_nil|by rewrite elem_of_nil]. }
  assert (same_ca (rc_ca_key rc) ca = true ->
    Forall (fun rc' => same_ca (rc_ca_key rc') ca = false) certs) as Ho.
  { intros Hca. eapply Forall_impl; [exact Hu|]. intros rc' Hrc'. unfold other_ca in Hrc'.
    apply not_true_iff_false. intros Hca'. apply not_true_iff_false in Hrc'. apply Hrc'.
    apply (same_ca_trans _ ca); [done|]. by rewrite same_ca_sym. }
  unfold entry in *. simpl. destruct (same_ca (rc_ca_key rc) ca) eqn:Hca; simpl.
  - specialize (Ho eq_refl).
    split; intros x; rewrite Exists_cons, Hca; (split; [|by left]); (intros [[_ ?]|He]; [done|]);
      apply Exists_exists in He as (rc'&Hin&Hc&_); rewrite Forall_forall in Ho;
      rewrite (Ho _ Hin) in Hc; done.
  - split; intros x; rewrite Exists_cons, Hca; [rewrite <- IH1|rewrite <- IH2]; intuition done.
Qed.

(** What the second pass loads from a written list has the contents of the list. *)
Lemma loaded_same krl base k :
  StronglySorted (fun a b => other_ca (rc_ca_key b) a) (krl_revoked_certs krl) ->
  revokes base (certs_serial (krl_revoked_certs krl)) (certs_id (krl_revoked_certs krl)) k ->
  same_content (with_sha1s (krl_revoked_sha1s krl) (with_keys (krl_revoked_keys krl) k)) krl.
Proof.
  intros Hu (_&ops&Hinv&Hs&Hi). constructor; simpl; [done..| |].
  - intros ca n. rewrite (inv_serials _ _ Hinv), <- Hs. by apply unique_entry.
  - intros ca x. rewrite (inv_ids _ _ Hinv), <- Hi. by apply unique_entry.
Qed.

(** ** The whole list *)

Lemma fromb_spec b : wf b -> exists c, fromb A b = Some c /\ wf c /\ contents c = contents b.
Proof.
  intros Hb. unfold fromb. rewrite (wf_sane _ Hb), sshbuf_len_contents by done.
  pose proof (contents_zlen b Hb) as Hl. pose proof (ptr_of_zlen b Hb). pose proof (zlen_nonneg (contents b)).
  wf_unpack Hb.
  destruct (sshbuf_from A _ _) as [c|] eqn:E.
  2: { unfold sshbuf_from in E. destruct (Z.ltb_spec SSHBUF_SIZE_MAX (zlen (contents b)));
         [unfold SSHBUF_SIZE_MAX in *; lia|].
       pose proof (HA SIZEOF_SSHBUF). by destruct (A SIZEOF_SSHBUF). }
  exists c. split; [done|].
  destruct (sshbuf_from_fresh _ _ _ _ _ E) as (((Hw&_)&_)&_&Hc); [lia|auto with ssh|].
  split; [done|]. by rewrite Hc, ptr_of_take.
Qed.

Lemma consume_app v rest b :
  wf b -> contents b = v ++ rest ->
  exists b', sshbuf_consume (zlen v) b = (Ok tt, b') /\ wf b' /\ contents b' = rest.
Proof.
  intros Hb Hc. pose proof (sshbuf_consume_spec (zlen v) b Hb (zlen_nonneg v)) as P.
  destruct (sshbuf_consume (zlen v) b) as [r b']. destruct P as (Hb'&_&P).
  rewrite Hc, zlen_app in P. pose proof (zlen_nonneg rest).
  destruct (Z.ltb_spec (zlen v + zlen rest) (zlen v)); [lia|]. destruct P as [-> Hc'].
  exists b'. rewrite Hc', zdrop_app by done. done.
Qed.

Lemma rd_u32_app n l : in_range 32 n -> rd_be 4 (be_bytes 4 n ++ l) = Ok (n, l).
Proof. intros. apply (rd_be_app 4). done. Qed.

(** The list with the header of another one. *)
Definition read_base krl : ssh_krl sshkey :=
  mk_krl (krl_version krl) (krl_generated_date krl) (krl_flags krl)
    (Some (default [] (krl_comment krl))) [] [] [].

Lemma read_header_spec krl0 krl b rest :
  ssh_krl_init true = Some krl0 -> krl_good krl -> wf b ->
  KRL_MAGIC ++ contents b = header_wire krl ++ rest ->
  exists b', read_header A krl0 b = (Ok (read_base krl), b') /\ wf b' /\ contents b' = rest.
Proof.
  intros [= <-] Hg Hb Hc. unfold header_wire in Hc. rewrite <- !(assoc_L (++)) in Hc.
  apply app_inj_1 in Hc as [_ Hc]; [|done]. destruct Hg. unfold read_header.
  edestruct (buf_step (Y := ssh_krl sshkey) sshbuf_get_u32 (rd_be 4) b KRL_FORMAT_VERSION)
    as (b1&Hb1&Hc1&->); [apply _|done|rewrite Hc; by apply rd_u32_app|].
  rewrite Z.eqb_refl. cbn [negb].
  edestruct (buf_step (Y := ssh_krl sshkey) sshbuf_get_u64 (rd_be 8) b1 (krl_version krl))
    as (b2&Hb2&Hc2&->); [apply _|done|rewrite Hc1; by apply rd_u64_app|].
  edestruct (buf_step (Y := ssh_krl sshkey) sshbuf_get_u64 (rd_be 8) b2 (krl_generated_date krl))
    as (b3&Hb3&Hc3&->); [apply _|done|rewrite Hc2; by apply rd_u64_app|].
  edestruct (buf_step (Y := ssh_krl sshkey) sshbuf_get_u64 (rd_be 8) b3 (krl_flags krl))
    as (b4&Hb4&Hc4&->); [apply _|done|rewrite Hc3; by apply rd_u64_app|].
  edestruct (buf_step (Y := ssh_krl sshkey) sshbuf_skip_string (rd_bind rd_string (fun _ => rd_ret tt)) b4 tt)
    as (b5&Hb5&Hc5&->);
    [apply _|done|rewrite Hc4; unfold rd_bind; by rewrite rd_string_app|].
  set (c := default [] (krl_comment krl)) in *.
  pose proof (wr_string_fits _ _ _ Hb5 Hc5) as Hfit.
  edestruct (buf_step (Y := ssh_krl sshkey) (sshbuf_get_cstring A true)
    (rd_bind rd_cstring (fun v => rd_ret (string_copy true v))) b5 (string_copy true c))
    as (b6&Hb6&Hc6&->);
    [by apply sshbuf_get_cstring_refines|done|rewrite Hc5; unfold rd_bind; by rewrite rd_cstring_app|].
  exists b6. unfold string_copy. cbv beta iota. cbn [fmap option_fmap option_map].
  rewrite c_string_copy by done. done.
Qed.

Definition blob_items (type : Z) (l : list bytes) : list (Z * bytes) :=
  match l with [] => [] | _ => [(type, strings_wire l)] end.
Definition body_items krl (entries : list bytes) : list (Z * bytes) :=
  (pair KRL_SECTION_CERTIFICATES <$> entries) ++
  blob_items KRL_SECTION_EXPLICIT_KEY (krl_revoked_keys krl) ++
  blob_items KRL_SECTION_FINGERPRINT_SHA1 (krl_revoked_sha1s krl).

Lemma blob_items_wire type l : concat (item_wire <$> blob_items type l) = strings_section type l.
Proof. destruct l; [done|]. unfold blob_items, item_wire, strings_section. simpl. by rewrite app_nil_r. Qed.

Lemma body_items_wire krl entries :
  concat (item_wire <$> body_items krl entries) = body_wire krl entries.
Proof.
  unfold body_items, body_wire, certs_wire. rewrite !fmap_app, !concat_app, !blob_items_wire.
  by rewrite <- list_fmap_compose.
Qed.

Lemma body_items_plain krl entries :
  Forall (fun it => is_byte (fst it) /\ fst it <> KRL_SECTION_SIGNATURE) (body_items krl entries).
Proof.
  unfold body_items. rewrite !Forall_app. split_and!.
  - apply Forall_fmap. apply Forall_true. intros w. split; [by unfold in_range|done].
  - destruct (krl_revoked_keys krl); constructor; [|constructor]. split; [by unfold in_range|done].
  - destruct (krl_revoked_sha1s krl); constructor; [|constructor]. split; [by unfold in_range|done].
Qed.

Lemma header_wire_zlen krl : 8 <= zlen (header_wire krl).
Proof.
  unfold header_wire. rewrite zlen_app. change (zlen KRL_MAGIC) with 8.
  match goal with |- context [zlen ?l] => pose proof (zlen_nonneg l) end. lia.
Qed.

(** The two passes over a list that was written. *)
Lemma first_pass krl entries keys sigs buf copy :
  wf buf -> wf copy -> contents copy = body_wire krl entries ++ sigs ->
  contents buf = header_wire krl ++ contents copy ->
  signed (header_wire krl ++ body_wire krl entries) keys sigs -> distinct keys ->
  exists used b', check_signatures A (Z.to_nat (sshbuf_len copy)) buf false [] copy = (Ok used, b') /\
    Forall2 key_eq used keys /\ wf b' /\ contents b' = [].
Proof.
  intros Hbuf Hcopy' Hc Cbuf Hsig Hd. rewrite sshbuf_len_contents by done.
  pose proof Hc as Hc'. rewrite <- body_items_wire in Hc.
  destruct (check_plain (body_items krl entries) buf copy sigs (Z.to_nat (zlen (contents copy)))
    (body_items_plain krl entries) Hcopy' Hc) as (b1&f1&->&Hb1&Hc1&Hf1);
    [pose proof (zlen_nonneg (contents copy)); lia|].
  destruct (check_signed _ _ _ Hsig buf b1 [] [] false f1) as (used&b2&E&Hu&Hb2&Hc2);
    [constructor|done|done|by rewrite Cbuf, Hc', (assoc_L (++))|done..|].
  by exists used, b2.
Qed.

Lemma second_pass krl entries sigs p keys b :
  krl_good krl -> Forall (fun rc => zlen (rc_serials rc) <= 78) (krl_revoked_certs krl) ->
  Forall2 encodes (krl_revoked_certs krl) entries -> signed p keys sigs ->
  wf b -> contents b = body_wire krl entries ++ sigs ->
  exists b' k, load_sections A mem pick (b, read_base krl) =
      (Ok tt, (b', with_sha1s (krl_revoked_sha1s krl) (with_keys (krl_revoked_keys krl) k))) /\
    revokes (read_base krl) (certs_serial (krl_revoked_certs krl)) (certs_id (krl_revoked_certs krl)) k.
Proof.
  intros Hg Hlen He Hsig Hb Hc. change (load_sections A mem pick) with (while_buf load_body).
  rewrite while_buf_eq by done. unfold body_wire in Hc. rewrite <- !(assoc_L (++)) in Hc.
  assert (revokes (read_base krl) (certs_serial []) (certs_id []) (read_base krl)) as Hr0.
  { split; [done|]. exists []. split_and!.
    - constructor; simpl; try solve [constructor];
        intros; rewrite ?Exists_nil, ?covered_nil, ?elem_of_nil; done.
    - intros. unfold certs_serial. by rewrite !Exists_nil.
    - intros. unfold certs_id. by rewrite !Exists_nil. }
  destruct (load_certs _ _ entries b (read_base krl) _ (Z.to_nat (zlen (contents b))) Hr0 (kg_entries _ Hg)
    He Hlen Hb Hc) as (b1&k&f1&->&Hb1&Hc1&Hf1&Hk); [pose proof (zlen_nonneg (contents b)); lia|].
  pose proof Hk as [Hbase _]. rewrite <- Hc1 in Hf1.
  assert (blobs_of KRL_SECTION_EXPLICIT_KEY k = []) as He1 by (by rewrite Hbase).
  destruct (load_blobs KRL_SECTION_EXPLICIT_KEY (krl_revoked_keys krl) b1 k _ f1 (or_introl eq_refl)
    (kg_keys _ Hg) ltac:(done) He1 Hb1 Hc1 Hf1) as (b2&f2&->&Hb2&Hc2&Hf2). rewrite <- Hc2 in Hf2.
  set (k1 := with_blobs KRL_SECTION_EXPLICIT_KEY (krl_revoked_keys krl) k).
  assert (blobs_of KRL_SECTION_FINGERPRINT_SHA1 k1 = []) as He2 by (unfold k1; by rewrite Hbase).
  destruct (load_blobs KRL_SECTION_FINGERPRINT_SHA1 (krl_revoked_sha1s krl) b2 k1 _ f2 (or_intror eq_refl)
    (kg_sha1s _ Hg) (fun _ => kg_sha1s_zlen _ Hg) He2 Hb2 Hc2 Hf2) as (b3&f3&->&Hb3&Hc3&Hf3).
  destruct (signed_items _ _ _ Hsig) as [sl Hsl]. rewrite <- Hc3 in Hf3. rewrite Hsl in Hc3.
  destruct (load_signatures sl b3 (with_blobs KRL_SECTION_FINGERPRINT_SHA1 (krl_revoked_sha1s krl) k1) f3 Hb3 Hc3 Hf3) as (b4&->).
  by exists b4, k.
Qed.

(** A written list is read back: the keys that signed it and a list with the
    same header and contents. *)
Lemma from_blob_written krl entries keys sigs sign_ca buf :
  krl_good krl -> Forall (fun rc => zlen (rc_serials rc) <= 78) (krl_revoked_certs krl) ->
  Forall2 encodes (krl_revoked_certs krl) entries ->
  signed (header_wire krl ++ body_wire krl entries) keys sigs -> distinct keys ->
  wf buf -> contents buf = header_wire krl ++ body_wire krl entries ++ sigs ->
  exists used krl2,
    Forall2 key_eq used keys /\ same_content krl2 krl /\
    krl_version krl2 = krl_version krl /\ krl_generated_date krl2 = krl_generated_date krl /\
    krl_flags krl2 = krl_flags krl /\ krl_comment krl2 = Some (default [] (krl_comment krl)) /\
    ssh_krl_from_blob A mem pick true sign_ca buf =
    match check_signers krl2 used sign_ca with Ok _ => Ok (Some krl2) | Err e => Err e end.
Proof.
  intros Hg Hlen He Hsig Hd Hbuf Hc. pose proof (header_wire_zlen krl) as Hh.
  set (rest := body_wire krl entries ++ sigs) in *. pose proof (zlen_nonneg rest) as Hrest.
  assert (zlen (contents buf) = zlen (header_wire krl) + zlen rest) as Hz by (rewrite Hc, zlen_app; lia).
  unfold ssh_krl_from_blob. rewrite sshbuf_len_contents by done.
  destruct (Z.ltb_spec (zlen (contents buf)) 8); [lia|].
  assert (ztake 8 (ptr_of buf) = KRL_MAGIC) as Hm.
  { rewrite ztake_ptr_of by (done || lia). rewrite Hc. unfold header_wire. rewrite <- (assoc_L (++)).
    by apply ztake_app. }
  rewrite bool_decide_true by done. cbn [orb negb].
  destruct (fromb_spec buf Hbuf) as (c&->&Hwc&Hcc).
  assert (exists tl, contents c = KRL_MAGIC ++ tl) as [tl Htl].
  { rewrite Hcc, Hc. unfold header_wire. rewrite <- (assoc_L (++)). eauto. }
  destruct (consume_app KRL_MAGIC tl c Hwc Htl) as (c1&E1&Hc1&Cc1). change (zlen KRL_MAGIC) with 8 in E1.
  rewrite E1. unfold ssh_krl_init.
  destruct (read_header_spec (mk_krl 0 0 0 None [] [] []) krl c1 rest eq_refl Hg Hc1) as (c2&E2&Hc2&Cc2).
  { by rewrite Cc1, <- Htl, Hcc. }
  rewrite E2. rewrite (sshbuf_len_contents c2), Cc2 by done.
  destruct (Z.ltb_spec (zlen (contents buf)) (zlen rest)); [lia|].
  assert (u64 (zlen (contents buf) - zlen rest) = zlen (header_wire krl)) as Hoff.
  { pose proof (contents_zlen buf Hbuf). pose proof (wf_ranges _ Hbuf). rewrite wrap_small by lia. lia. }
  rewrite Hoff.
  destruct (first_pass krl entries keys sigs buf c2 Hbuf Hc2 Cc2) as (used&c3&E3&Hu&Hc3&Cc3);
    [by rewrite Cc2|done..|].
  rewrite sshbuf_len_contents, Cc2 in E3 by done. rewrite E3.
  rewrite (sshbuf_len_contents c3), Cc3 by done. cbn [negb Z.eqb zlen length Z.of_nat].
  destruct (consume_app (header_wire krl) rest c Hwc) as (d1&E4&Hd1&Cd1); [by rewrite Hcc|].
  destruct (second_pass krl entries sigs _ keys d1 Hg Hlen He Hsig Hd1 Cd1) as (d2&k&E5&Hk).
  unfold bind, on_fst. rewrite E4, E5.
  pose proof (loaded_same krl _ k (kg_unique _ Hg) Hk) as Hsame. destruct Hk as [Hbase _].
  exists used. eexists. split_and!; [done|exact Hsame|..]; simpl; rewrite Hbase; done.
Qed.
End reading.

(** ** From operations to bytes and back *)

Section roundtrip.
Context {sshkey : Type} {HK : KeyOps sshkey} {HL : KeyLaws sshkey} {HB : KeyBlob sshkey}.
Context {HBL : KeyBlobLaws sshkey} {HC : KeyCodes sshkey}.
Hypothesis Hcopy : forall k : sshkey, exists k', sshkey_from_private k = Ok k'.
Implicit Types (ops dn : list (krl_op sshkey)).

(** Key IDs are C strings. *)
Definition op_strings (op : krl_op sshkey) : Prop :=
  match op with RevokeKeyId _ _ id => c_str id | _ => True end.

(** What is true of an operation that succeeded. *)
Definition op_done (op : krl_op sshkey) : Prop :=
  op_strings op /\
  match op with
  | RevokeSerials _ _ _ lo hi => 0 < lo
  | RevokeKey _ _ k => 0 <= cert_serial k
  | _ => True
  end.

Lemma exec_op_done op krl krl' :
  op_ok op -> op_strings op -> exec_op op krl = (Ok tt, krl') -> op_done op.
Proof.
  intros Hok Hs E. split; [done|]. destruct op as [pick mem ca lo hi| | | |pick mem k]; simpl in *; try done.
  - unfold ssh_krl_revoke_cert_by_serial_range in E. destruct (Z.eqb_spec lo 0) as [->|].
    + by rewrite orb_true_r in E.
    + unfold in_range in Hok. lia.
  - unfold in_range in Hok. lia.
Qed.

Lemma exec_ops_done ops : forall dn krl dn' krl',
  Forall op_ok ops -> Forall op_strings ops -> Forall op_done dn ->
  exec_ops ops dn krl = (dn', krl') -> Forall op_done dn'.
Proof.
  induction ops as [|op ops IH]; simpl; intros dn krl dn' krl' Hok Hs Hd E; [by injection E as <- _|].
  apply Forall_cons in Hok as [Ho Hok], Hs as [Hs1 Hs].
  destruct (exec_op op krl) as [[[]|e] krl1] eqn:E1; [|by eapply IH].
  eapply IH; [done|done| |exact E]. constructor; [by eapply exec_op_done|done].
Qed.

Lemma same_ca_refl (ca : option sshkey) : same_ca ca ca = true.
Proof.
  destruct ca as [k|]; [|done]. simpl. destruct (Hcopy k) as [k' Hk'].
  apply sshkey_from_private_equal in Hk'. apply (sshkey_equal_trans _ (Some k')); [|done].
  by rewrite sshkey_equal_sym.
Qed.

Lemma plain_blob_Bytes (k : sshkey) v : plain_key_blob k = Ok v -> Bytes v.
Proof.
  unfold plain_key_blob. destruct (sshkey_from_private k) as [k1|]; [|done].
  destruct (sshkey_is_cert k1); [destruct (sshkey_drop_cert k1); [|done]|];
    by intros [? _]%sshkey_blob_bytes.
Qed.

Lemma built_good ops dn krl0 krl v d f c :
  ssh_krl_init true = Some krl0 -> Forall op_ok ops -> Forall op_strings ops ->
  exec_ops ops [] krl0 = (dn, krl) ->
  in_range 64 v -> in_range 64 d -> in_range 64 f -> c_str (default [] c) ->
  krl_good (set_header v d f c krl).
Proof.
  intros Hi%krl_init_inv Hok Hs E Hv Hd Hf Hc.
  pose proof (exec_ops_inv _ _ _ _ _ Hok Hi E) as [I1 I2 I3 I4 I5 I6 I7 I8].
  pose proof (exec_ops_done ops [] krl0 dn krl Hok Hs (List.Forall_nil _) E) as Hdn.
  rewrite Forall_forall in Hdn.
  constructor; simpl; try done.
  - apply Forall_forall. intros x Hx. apply I6, Exists_exists in Hx as (op&_&Hop).
    destruct op; simpl in Hop; try done. by eapply plain_blob_Bytes.
  - apply Forall_forall. intros x Hx. apply I5, Exists_exists in Hx as (op&_&Hop).
    destruct op; simpl in Hop; try done; [|destruct Hop as [_ Hop]];
      by apply sshkey_fingerprint_bytes in Hop as [? _].
  - apply Forall_forall. intros x Hx. apply I5, Exists_exists in Hx as (op&_&Hop).
    destruct op; simpl in Hop; try done; [|destruct Hop as [_ Hop]];
      by apply sshkey_fingerprint_bytes in Hop as [_ ?].
  - apply Forall_forall. intros rc Hrc. pose proof I3 as I3'. rewrite Forall_forall in I3'.
    destruct (I3' rc Hrc) as [Hser Hids].
    destruct (unique_entry (krl_revoked_certs krl) (rc_ca_key rc) I4) as [U1 U2].
    constructor; [done| |done|].
    + apply Forall_forall. intros r Hr. destruct Hser as [Hr1 _]. rewrite Forall_forall in Hr1.
      specialize (Hr1 r Hr). unfold range_ok in Hr1.
      assert (certs_serial (krl_revoked_certs krl) (rc_ca_key rc) (fst r)) as Hcs.
      { apply Exists_exists. exists rc. split_and!; [done|apply same_ca_refl|].
        apply Exists_exists. exists r. split; [done|lia]. }
      apply U1, I7, Exists_exists in Hcs as (op&Hop&Hn). specialize (Hdn op Hop) as [_ Hpos].
      unfold range_serials, serial_ok.
      destruct op; simpl in Hn, Hpos; try done; [lia|]. destruct Hn as (_&?&_&?). lia.
    + apply Forall_forall. intros x Hx.
      assert (certs_id (krl_revoked_certs krl) (rc_ca_key rc) x) as Hci.
      { apply Exists_exists. exists rc. split_and!; [done|apply same_ca_refl|done]. }
      apply U2, I8, Exists_exists in Hci as (op&Hop&Hn). specialize (Hdn op Hop) as [Hstr _].
      destruct op; simpl in Hn, Hstr; try done; [by destruct Hn as [_ ->]|].
      destruct Hn as (_&_&_&->). apply cert_key_id_str.
Qed.

End roundtrip.
