(* ===== verification/KrlBlobSafe.v ===== *)
(** Reading encoded revocation lists of any origin: reading ends, and what is
    accepted is covered by the signatures. *)

From Stdlib Require Import Sorted.
From S2P Require Import Prelude Wire Sshbuf SshbufGetput SshbufSpec SshbufHeap Bitmap Krl KrlBlob.
From S2P Require Import KrlBlobSpec KrlBlobRead.
#[local] Arguments be_bytes n v : simpl never.
#[local] Arguments wr_string v : simpl never.

(** ** Reading ends

    Every operation of the parser leaves at most the data it found, every round of
    a loop less, and every error code is negative. *)

(** [r] is what is left of [l] after [d] bytes or more. *)
Definition left_of (d : Z) (l r : bytes) : Prop := exists v, l = v ++ r /\ d <= zlen v.

Lemma left_zlen d l r : left_of d l r -> zlen r + d <= zlen l.
Proof. intros (v&->&Hd). rewrite zlen_app. lia. Qed.
Lemma left_trans d1 d2 l m r : left_of d1 l m -> left_of d2 m r -> left_of (d1 + d2) l r.
Proof.
  intros (v&->&H1) (w&->&H2). exists (v ++ w). rewrite <- (assoc_L (++)), zlen_app. split; [done|lia].
Qed.
Lemma left_refl l : left_of 0 l l.
Proof. by exists []. Qed.
Lemma left_mono d1 d2 l r : d2 <= d1 -> left_of d1 l r -> left_of d2 l r.
Proof. intros Hd (v&->&H1). exists v. split; [done|lia]. Qed.

(** An operation reads [d] bytes at least, from the front. *)
Definition reads_least (d : Z) {X} (m : M sshbuf X) : Prop := forall b, wf b ->
  match m b with
  | (Ok _, b') => wf b' /\ left_of d (contents b) (contents b')
  | (Err e, _) => e < 0
  end.

Lemma refines_reads {X} (m : M sshbuf X) (sp : reader X) d :
  Refines m sp ->
  (forall l, Bytes l -> match sp l with Ok (_, r) => left_of d l r | Err e => e < 0 end) ->
  reads_least d m.
Proof.
  intros Hm Hs b Hb. specialize (Hm b Hb). specialize (Hs (contents b) (contents_Bytes b Hb)).
  destruct (sp (contents b)) as [[x r]|e]; [|by destruct Hm as (b'&->&_)].
  destruct Hm as (b'&->&Hb'&_&->). done.
Qed.

Lemma rd_be_reads n l : 0 <= n ->
  match rd_be n l with Ok (_, r) => left_of n l r | Err e => e < 0 end.
Proof.
  intros Hn. unfold rd_be, rd_bytes. destruct (Z.ltb_spec (zlen l) n); [done|].
  exists (ztake n l). rewrite ztake_zdrop, zlen_ztake by lia. split; [done|lia].
Qed.

Lemma rd_string_shrinks l : Bytes l ->
  match rd_string l with Ok (_, r) => left_of 4 l r | Err e => e < 0 end.
Proof.
  intros HBl. pose proof (rd_string_reads l HBl) as P. destruct (rd_string l) as [[v r]|e]; [|done].
  exists (wr_string v). split; [done|]. rewrite wr_string_zlen. pose proof (zlen_nonneg v). lia.
Qed.

Lemma u8_reads : reads_least 1 sshbuf_get_u8.
Proof. eapply refines_reads; [apply _|]. intros l _. by apply rd_be_reads. Qed.
Lemma u64_reads : reads_least 8 sshbuf_get_u64.
Proof. eapply refines_reads; [apply _|]. intros l _. by apply rd_be_reads. Qed.
Lemma skip_reads : reads_least 4 sshbuf_skip_string.
Proof.
  eapply refines_reads; [apply _|]. intros l HBl. unfold rd_bind. pose proof (rd_string_shrinks l HBl).
  by destruct (rd_string l) as [[v r]|e].
Qed.
Lemma bignum_reads : reads_least 4 sshbuf_get_bignum2_bytes_direct.
Proof.
  eapply refines_reads; [apply _|]. intros l HBl. unfold rd_bignum2.
  pose proof (rd_string_shrinks l HBl). destruct (rd_string l) as [[v r]|e]; [|done].
  destruct (negb _ && _); [done|]. by destruct (_ || _).
Qed.
Lemma string_direct_reads : reads_least 4 sshbuf_get_string_direct.
Proof.
  intros b Hb. pose proof (get_string_direct_spec b Hb) as P.
  pose proof (rd_string_shrinks _ (contents_Bytes b Hb)) as Q.
  destruct (rd_string (contents b)) as [[v r]|e]; [|by rewrite P].
  destruct P as (b'&->&_&Hb'&_&->). done.
Qed.

Lemma copy_string_reads A valp v n : reads_least 0 (copy_string A valp v n).
Proof.
  intros b Hb. unfold copy_string, ret, fail. destruct valp; [destruct (A _)|]; auto using left_refl.
  done.
Qed.

Lemma reads_bind {X Y} d1 d2 (m : M sshbuf X) (k : X -> M sshbuf Y) :
  reads_least d1 m -> (forall x, reads_least d2 (k x)) -> reads_least (d1 + d2) (bind m k).
Proof.
  intros Hm Hk b Hb. unfold bind. specialize (Hm b Hb). destruct (m b) as [[x|e] b1]; [|done].
  destruct Hm as [Hb1 Hl]. specialize (Hk x b1 Hb1). destruct (k x b1) as [[y|e] b2]; [|done].
  destruct Hk. split; [done|by eapply left_trans].
Qed.

Lemma get_string_reads A valp : reads_least 4 (sshbuf_get_string A valp).
Proof.
  apply (reads_bind 4 0); [apply string_direct_reads|]. intros [v n]. apply copy_string_reads.
Qed.

Lemma get_cstring_reads A valp : reads_least 4 (sshbuf_get_cstring A valp).
Proof.
  intros b Hb. unfold sshbuf_get_cstring, bind at 1, get_state, bind at 1, lift.
  pose proof (peek_string_spec b Hb) as P. pose proof (rd_string_shrinks _ (contents_Bytes b Hb)) as Q.
  pose proof (skip_reads b Hb) as R.
  destruct (rd_string (contents b)) as [[v r]|e]; [|by rewrite P].
  destruct P as (->&_). destruct (_ && _); [done|]. unfold bind.
  destruct (sshbuf_skip_string b) as [[[]|e] b1]; [|done]. destruct R as [Hb1 Hl].
  pose proof (copy_string_reads A valp (zdrop 4 (ptr_of b)) (zlen v) b1 Hb1) as C.
  destruct (copy_string A valp _ _ b1) as [[x|e] b2]; [|done]. destruct C. split; [done|]. by apply (left_trans 4 0 _ (contents b1)).
Qed.

Lemma froms_reads A b : wf b ->
  match froms A b with
  | (Ok c, b') => wf c /\ wf b' /\ zlen (contents b') <= zlen (contents b)
  | (Err e, _) => e < 0
  end.
Proof.
  intros Hb. unfold froms. pose proof (peek_string_spec b Hb) as P.
  pose proof (rd_string_shrinks _ (contents_Bytes b Hb)) as Q.
  destruct (rd_string (contents b)) as [[v r]|e] eqn:Er; [|by rewrite P].
  destruct P as (->&Pv&_&Hl&HBv).
  destruct (sshbuf_from A _ (zlen v)) as [c|] eqn:E; [|done].
  destruct (sshbuf_from_fresh _ _ _ _ _ E) as (((Hwc&_)&_)&_&Hcc).
  { pose proof (zlen_nonneg v). pose proof (zlen_ztake_le (zlen v) (zdrop 4 (ptr_of b))) as Hz.
    rewrite Pv in Hz. lia. }
  { auto with ssh. }
  destruct (peek_consume b v r tt Hb Er) as (b'&E2&Hb'&_&Hc').
  unfold bind. rewrite E2. cbn. apply left_zlen in Q. rewrite Hc'. split_and!; [done..|lia].
Qed.

Section safe.
Context {sshkey : Type} {HK : KeyOps sshkey} {HB : KeyBlob sshkey} {HC : KeyCodes sshkey}.
Context (A : allocator) (mem : ssh_krl sshkey -> bool) (pick : ssh_krl sshkey -> nat).
Abbreviation parser X := (M (sshbuf * ssh_krl sshkey) X).

(** The same of a parser, for any list it changes. *)
Definition least (d : Z) {X} (m : parser X) : Prop := forall b krl, wf b ->
  match m (b, krl) with
  | (Ok _, (b', _)) => wf b' /\ zlen (contents b') + d <= zlen (contents b)
  | (Err e, _) => e < 0
  end.

Lemma least_fst d {X} (m : M sshbuf X) : reads_least d m -> least d (on_fst m).
Proof. intros Hm b krl Hb. unfold on_fst. specialize (Hm b Hb).
  destruct (m b) as [[x|e] b']; [|done]. destruct Hm as [? ?%left_zlen]. done.
Qed.
Lemma least_snd {X} (m : M (ssh_krl sshkey) X) : NegErr m -> least 0 (on_snd m).
Proof.
  intros Hm b krl Hb. unfold on_snd. destruct (m krl) as [[x|e] krl'] eqn:E; [split; [done|lia]|].
  by eapply Hm.
Qed.
Lemma least_ret {X} (x : X) : least 0 (ret x).
Proof. intros b krl Hb. split; [done|]. lia. Qed.
Lemma least_fail {X} e : e < 0 -> least 0 (X := X) (fail e).
Proof. by intros He b krl Hb. Qed.
Lemma least_bind d1 d2 {X Y} (m : parser X) (k : X -> parser Y) :
  least d1 m -> (forall x, least d2 (k x)) -> least (d1 + d2) (bind m k).
Proof.
  intros Hm Hk b krl Hb. unfold bind. specialize (Hm b krl Hb).
  destruct (m (b, krl)) as [[x|e] [b1 krl1]]; [|done]. destruct Hm as [Hb1 Hl].
  specialize (Hk x b1 krl1 Hb1). destruct (k x (b1, krl1)) as [[y|e] [b2 krl2]]; [|done].
  destruct Hk. split; [done|lia].
Qed.
Lemma least_mono d1 d2 {X} (m : parser X) : d2 <= d1 -> least d1 m -> least d2 m.
Proof.
  intros Hd Hm b krl Hb. specialize (Hm b krl Hb). destruct (m (b, krl)) as [[x|e] [b1 krl1]]; [|done].
  destruct Hm. split; [done|lia].
Qed.
Lemma least_bind0 {X Y} (m : parser X) (k : X -> parser Y) d :
  0 <= d -> least d m -> (forall x, least 0 (k x)) -> least 0 (bind m k).
Proof.
  intros Hd Hm Hk. apply (least_mono (d + 0)); [lia|]. by apply least_bind.
Qed.
Lemma least_if {X} (c : bool) d (m1 m2 : parser X) : least d m1 -> least d m2 -> least d (if c then m1 else m2).
Proof. by destruct c. Qed.
Lemma least_get {Y} d (k : sshbuf * ssh_krl sshkey -> parser Y) :
  (forall st, least d (k st)) -> least d (bind get_state k).
Proof. intros Hk b krl Hb. by apply Hk. Qed.

Lemma least_froms {Y} (k : sshbuf -> parser Y) :
  (forall c, wf c -> least 0 (k c)) -> least 0 (bind (on_fst (froms A)) k).
Proof.
  intros Hk b krl Hb. unfold bind, on_fst. pose proof (froms_reads A b Hb) as F.
  destruct (froms A b) as [[c|e] b1]; [|done]. destruct F as (Hc&Hb1&Hl).
  specialize (Hk c Hc b1 krl Hb1). destruct (k c (b1, krl)) as [[y|e] [b2 krl2]]; [|done].
  destruct Hk. split; [done|lia].
Qed.

Lemma least_child c (m : parser unit) : wf c -> least 0 m -> least 0 (in_child c m).
Proof.
  intros Hc Hm b krl Hb. unfold in_child, on_snd. specialize (Hm c krl Hc).
  destruct (m (c, krl)) as [[x|e] [c' krl']]; [split; [done|lia]|done].
Qed.

Lemma least_while (body : parser unit) : least 1 body -> least 0 (while_buf body).
Proof.
  intros Hbody b krl Hb. unfold while_buf, bind at 1, get_state. cbv beta iota.
  rewrite sshbuf_len_contents by done.
  assert (zlen (contents b) <= Z.of_nat (Z.to_nat (zlen (contents b)))) as Hf by lia. revert Hf.
  generalize (Z.to_nat (zlen (contents b))) as fuel. intros fuel. revert b krl Hb.
  induction fuel as [|fuel IH]; intros b krl Hb Hf; simpl; unfold bind at 1, get_state; cbv beta iota;
    rewrite sshbuf_len_contents by done;
    (destruct (Z.ltb_spec 0 (zlen (contents b))); cbn [negb]; [|split; [done|lia]]); [lia|].
  unfold bind. specialize (Hbody b krl Hb). destruct (body (b, krl)) as [[x|e] [b1 krl1]]; [|done].
  destruct Hbody as [Hb1 Hl]. specialize (IH b1 krl1 Hb1 ltac:(lia)).
  destruct (while_data fuel body (b1, krl1)) as [[y|e] [b2 krl2]]; [|done].
  destruct IH. split; [done|lia].
Qed.

(** *** The operations on the list *)

#[local] Instance neg_certs_for m ca c : NegErr (revoked_certs_for_ca_key (sshkey := sshkey) m ca c).
Proof.
  intros krl e krl' E. unfold revoked_certs_for_ca_key in E.
  destruct (list_find _ _) as [[i rc]|]; [done|]. destruct (negb c); [done|].
  destruct (negb m); [by injection E as <- _|]. destruct ca as [k|]; [|done].
  destruct (sshkey_from_private k) eqn:Ek; [done|]. injection E as <- _.
  by eapply sshkey_from_private_code.
Qed.

#[local] Instance neg_insert p m lo hi : NegErr (insert_serial_range p m lo hi).
Proof.
  intros rt e rt' E. unfold insert_serial_range in E. cbv zeta in E.
  repeat case_match; try discriminate E; by injection E as <- _.
Qed.

Lemma neg_on_entry i f :
  (forall rc, match f rc with (Err e, _) => e < 0 | _ => True end) ->
  NegErr (on_entry (sshkey := sshkey) i f).
Proof.
  intros Hf krl e krl' E. unfold on_entry in E. destruct (_ !! i) as [rc|]; [|by injection E as <- _].
  specialize (Hf rc). destruct (f rc) as [[x|e'] rc']; [done|]. injection E as <- _. done.
Qed.

#[local] Instance neg_revoke_serials ca lo hi : NegErr (revoke_serials mem pick ca lo hi).
Proof.
  intros krl. unfold revoke_serials. revert krl.
  assert (forall p m, NegErr (ssh_krl_revoke_cert_by_serial_range (sshkey := sshkey) p m ca lo hi)) as Hn.
  { intros p m. unfold ssh_krl_revoke_cert_by_serial_range. apply neg_if; [neg|].
    apply neg_bind; [apply _|]. intros o. apply neg_on_entry. intros rc.
    destruct (insert_serial_range p m lo hi (rc_serials rc)) as [[x|e] rt] eqn:E; [done|]. by eapply neg_err in E. }
  intros krl e krl'. apply Hn.
Qed.

#[local] Instance neg_revoke_key_id ca id : NegErr (revoke_key_id mem ca id).
Proof.
  intros krl. unfold revoke_key_id. revert krl.
  assert (forall m, NegErr (ssh_krl_revoke_cert_by_key_id (sshkey := sshkey) m ca id)) as Hn.
  { intros m. unfold ssh_krl_revoke_cert_by_key_id. apply neg_bind; [apply _|]. intros o.
    apply neg_if; [neg|]. by apply neg_on_entry. }
  intros krl e krl'. apply Hn.
Qed.

#[local] Instance neg_parse_blob type v : NegErr (parse_blob mem type v).
Proof.
  intros krl e krl'. unfold parse_blob, revoke_blob.
  destruct (type =? _), (negb (mem krl)); simpl; intros E; try discriminate E; by injection E as <- _.
Qed.

#[local] Instance neg_parse_bits ca lo bm l : NegErr (parse_bits mem pick ca lo bm l).
Proof. induction l; simpl; neg. Qed.

(** *** The parser *)

Lemma least_serial_list ca : least 0 (parse_serial_list mem pick ca).
Proof.
  apply least_while, (least_mono (8 + 0)); [lia|].
  apply least_bind; [apply least_fst, u64_reads|]. intros n. apply least_snd, _.
Qed.

Lemma least_serial_range ca : least 0 (parse_serial_range mem pick ca).
Proof.
  apply (least_bind0 _ _ 8); [lia|apply least_fst, u64_reads|]. intros lo.
  apply (least_bind0 _ _ 8); [lia|apply least_fst, u64_reads|]. intros hi. apply least_snd, _.
Qed.

Lemma least_serial_bitmap ca : least 0 (parse_serial_bitmap A mem pick ca).
Proof.
  unfold parse_serial_bitmap. destruct (bitmap_new A) as [bm|]; [|by apply least_fail].
  apply (least_bind0 _ _ 8); [lia|apply least_fst, u64_reads|]. intros lo.
  apply (least_bind0 _ _ 4); [lia|apply least_fst, bignum_reads|]. intros blob.
  destruct (bitmap_from_string A blob (zlen blob) bm) as [[[]|e] bm']; [|by apply least_fail].
  destruct (bitmap_nbits bm') as [n bm2]. apply least_snd, _.
Qed.

Lemma least_key_ids ca : least 0 (parse_key_ids A mem ca).
Proof.
  apply least_while, (least_mono (4 + 0)); [lia|].
  apply least_bind; [apply least_fst, get_cstring_reads|]. intros [id n]. apply least_snd, _.
Qed.

Lemma least_used_up (m : parser unit) :
  least 0 m -> least 0 (m ;;; let! (b, _) := get_state in
                        if 0 <? sshbuf_len b then fail SSH_ERR_INVALID_FORMAT else ret tt).
Proof.
  intros Hm. apply (least_bind0 _ _ 0); [lia|done|]. intros _. apply least_get. intros [b' krl'].
  apply least_if; [by apply least_fail|apply least_ret].
Qed.

Lemma least_subsection ca type : least 0 (parse_subsection A mem pick ca type).
Proof.
  unfold parse_subsection. apply least_used_up.
  repeat apply least_if; [apply least_serial_list|apply least_serial_range|apply least_serial_bitmap|
    apply least_key_ids|by apply least_fail].
Qed.

Lemma least_revoked_certs : least 0 (parse_revoked_certs A mem pick).
Proof.
  unfold parse_revoked_certs. destruct (sshbuf_new A); [|by apply least_fail].
  apply (least_bind0 _ _ 4); [lia|apply least_fst, string_direct_reads|]. intros [v n].
  apply (least_bind0 _ _ 4); [lia|apply least_fst, skip_reads|]. intros _.
  apply (least_bind0 _ _ 0); [lia| |].
  - apply least_if; [|apply least_ret]. apply (least_bind0 _ _ 0); [lia| |intros k; apply least_ret].
    intros b krl Hb. unfold lift. destruct (sshkey_from_blob _) eqn:E; [split; [done|lia]|].
    by eapply sshkey_from_blob_code.
  - intros ca. apply least_while. apply (least_mono (1 + 0)); [lia|].
    apply least_bind; [apply least_fst, u8_reads|]. intros type. apply least_froms. intros c Hc.
    apply least_child; [done|apply least_subsection].
Qed.

Lemma least_blobs type : least 0 (parse_blobs A mem type).
Proof.
  apply least_while, (least_mono (4 + 0)); [lia|].
  apply least_bind; [apply least_fst, get_string_reads|]. intros [v n].
  apply least_if; [by apply least_fail|]. apply least_snd, _.
Qed.

Lemma least_load : least 0 (load_sections A mem pick).
Proof.
  apply least_while. apply (least_mono (1 + 0)); [lia|].
  apply least_bind; [apply least_fst, u8_reads|]. intros type. apply least_froms. intros c Hc.
  repeat apply least_if.
  - apply least_child; [done|]. apply least_used_up, least_revoked_certs.
  - apply least_child; [done|]. apply least_used_up, least_blobs.
  - apply (least_mono 4); [lia|]. apply least_fst, skip_reads.
  - by apply least_fail.
Qed.

(** ** Signatures *)

(** The bytes [w] after the bytes [p] are signatures by the keys [ks], each of
    which verifies over everything before it. *)
Inductive verified : bytes -> bytes -> list sshkey -> Prop :=
| verified_nil p : verified p [] []
| verified_cons p v s w k ks :
    sshkey_from_blob v = Ok k ->
    sshkey_verify k s (p ++ KRL_SECTION_SIGNATURE :: wr_string v) = Ok tt ->
    verified (p ++ KRL_SECTION_SIGNATURE :: wr_string v ++ wr_string s) w ks ->
    verified p (KRL_SECTION_SIGNATURE :: wr_string v ++ wr_string s ++ w) (k :: ks).

(** Sections other than signatures, then signatures. *)
Definition signed_last (seen : bool) (p w : bytes) (ks : list sshkey) : Prop :=
  exists items sigs,
    w = concat (item_wire <$> items) ++ sigs /\
    Forall (fun it => fst it <> KRL_SECTION_SIGNATURE) items /\
    (seen = true -> items = []) /\
    verified (p ++ concat (item_wire <$> items)) sigs ks.

Lemma direct_any b :
  wf b ->
  match sshbuf_get_string_direct b with
  | (Ok (q, n), b') => contents b = wr_string (ztake n q) ++ contents b' /\ wf b'
  | (Err e, _) => e < 0
  end.
Proof.
  intros Hb. pose proof (get_string_direct_spec b Hb) as P.
  pose proof (rd_string_reads _ (contents_Bytes b Hb)) as Q.
  destruct (rd_string (contents b)) as [[v r]|e]; [|by rewrite P].
  destruct P as (b'&->&Hv&Hb'&_&Hr). by rewrite Hv, Hr.
Qed.

Lemma u8_any b :
  wf b ->
  match sshbuf_get_u8 b with
  | (Ok t, b') => contents b = t :: contents b' /\ wf b'
  | (Err e, _) => e < 0
  end.
Proof.
  intros Hb. pose proof (sshbuf_get_u8_refines b Hb) as P. pose proof (contents_Bytes b Hb) as HBc.
  unfold rd_be, rd_bytes in P. destruct (Z.ltb_spec (zlen (contents b)) 1).
  - by destruct P as (b'&->&_).
  - destruct P as (b'&->&Hb'&_&Hc). split; [|done]. rewrite Hc.
    destruct (contents b) as [|t l]; [rewrite (@zlen_nil Z) in *; lia|].
    apply Forall_cons in HBc as [Ht _]. unfold in_range in Ht. unfold ztake, zdrop. simpl.
    unfold be_value. simpl. done.
Qed.

Lemma distinct_app used key :
  distinct used -> existsb (fun k => sshkey_equal (Some k) (Some key)) used = false ->
  distinct (used ++ [key]).
Proof.
  unfold distinct. induction 1 as [|a used Hs IH Ha]; simpl; intros He; [by repeat constructor|].
  apply orb_false_iff in He as [He1 He2]. constructor; [by apply IH|].
  apply Forall_app. split; [done|]. by constructor.
Qed.

Lemma check_signatures_spec fuel : forall buf seen used b p,
  wf buf -> wf b -> contents buf = p ++ contents b -> zlen (contents b) <= Z.of_nat fuel -> distinct used ->
  match check_signatures A fuel buf seen used b with
  | (Ok l, b') => exists ks, l = used ++ ks /\ distinct l /\ signed_last seen p (contents b) ks /\
      wf b' /\ contents b' = []
  | (Err e, _) => e < 0
  end.
Proof.
  assert (forall seen p, signed_last seen p [] []) as Hnil.
  { intros seen p. exists [], []. split_and!; [done|constructor|done|constructor]. }
  induction fuel as [|fuel IH]; intros buf seen used b p Hbuf Hb Hp Hf Hd; cbn [check_signatures];
    unfold bind at 1, get_state at 1; cbv beta iota; rewrite sshbuf_len_contents by done.
  { destruct (Z.ltb_spec 0 (zlen (contents b))); [lia|]. cbn [negb]. unfold ret.
    assert (contents b = []) as Hc by (apply zlen_0_nil; pose proof (zlen_nonneg (contents b)); lia).
    exists []. rewrite app_nil_r, Hc. by split_and!. }
  destruct (Z.ltb_spec 0 (zlen (contents b))); cbn [negb].
  2: { unfold ret.
       assert (contents b = []) as Hc by (apply zlen_0_nil; pose proof (zlen_nonneg (contents b)); lia).
       exists []. rewrite app_nil_r, Hc. by split_and!. }
  unfold bind at 1. pose proof (u8_any b Hb) as U.
  destruct (sshbuf_get_u8 b) as [[t|e] b1]; [|done]. destruct U as [C1 Hb1].
  unfold bind at 1. pose proof (direct_any b1 Hb1) as D.
  destruct (sshbuf_get_string_direct b1) as [[[q n]|e] b2]; [|done]. destruct D as [C2 Hb2].
  set (v := ztake n q) in *. rewrite C2 in C1. clear C2 Hb1 b1.
  pose proof (zlen_nonneg (contents b2)) as Hn2. pose proof (zlen_nonneg (wr_string v)) as Hnv.
  assert (zlen (contents b) = 1 + zlen (wr_string v) + zlen (contents b2)) as Hz
    by (rewrite C1, zlen_cons, zlen_app; lia).
  destruct (Z.eqb_spec t KRL_SECTION_SIGNATURE) as [->|Ht]; cbn [negb].
  2: { destruct seen; [done|].
       specialize (IH buf false used b2 (p ++ t :: wr_string v) Hbuf Hb2).
       specialize (IH ltac:(by rewrite Hp, C1, <- (assoc_L (++))) ltac:(lia) Hd).
       destruct (check_signatures A fuel buf false used b2) as [[l|e] b']; [|done].
       destruct IH as (ks&->&Hd'&(items&sigs&Ew&Hi&_&Hv)&Hb'&Hc'). exists ks. split_and!; [done..| |done|done].
       exists ((t, v) :: items), sigs. rewrite fmap_cons. cbn [concat].
       unfold item_wire at 1 3. cbn [fst snd]. split_and!; [|by constructor|done|].
       - rewrite C1, Ew. simpl. by rewrite <- (assoc_L (++)).
       - rewrite <- (assoc_L (++)) in Hv. exact Hv. }
  destruct (sshkey_from_blob v) as [key|e] eqn:Hkey; [|done].
  unfold bind at 1, get_state at 1. cbv beta iota. rewrite !sshbuf_len_contents by done.
  assert (contents buf = (p ++ KRL_SECTION_SIGNATURE :: wr_string v) ++ contents b2) as Cbuf
    by (rewrite Hp, C1, <- (assoc_L (++)); done).
  set (pre := p ++ KRL_SECTION_SIGNATURE :: wr_string v) in *. pose proof (zlen_nonneg pre) as Hnp.
  assert (zlen (contents buf) = zlen pre + zlen (contents b2)) as Hzb by (rewrite Cbuf, zlen_app; lia).
  destruct (Z.ltb_spec (zlen (contents buf)) (zlen (contents b2))); [lia|].
  replace (zlen (contents buf) - zlen (contents b2)) with (zlen pre) by lia.
  pose proof (contents_zlen buf Hbuf) as Hcz. pose proof (wf_ranges _ Hbuf).
  rewrite wrap_small by lia. cbv zeta. unfold bind at 1. pose proof (direct_any b2 Hb2) as D.
  destruct (sshbuf_get_string_direct b2) as [[[qs m]|e] b3]; [|done]. destruct D as [C3 Hb3].
  set (s := ztake m qs) in *. rewrite ztake_ptr_of by (done || lia). rewrite Cbuf, ztake_app by done.
  unfold bind at 1, lift. destruct (sshkey_verify key s pre) as [[]|e] eqn:Hver;
    [|by eapply sshkey_verify_code].
  destruct (existsb _ used) eqn:Hex; [done|]. destruct (A _) as [al|]; [|done].
  pose proof (zlen_nonneg (wr_string s)). assert (zlen (contents b2) = zlen (wr_string s) + zlen (contents b3))
    as Hz2 by (rewrite C3, zlen_app; lia).
  specialize (IH buf true (used ++ [key]) b3 (pre ++ wr_string s) Hbuf Hb3).
  specialize (IH ltac:(by rewrite Cbuf, C3, <- (assoc_L (++))) ltac:(lia) ltac:(by apply distinct_app)).
  destruct (check_signatures A fuel buf true (used ++ [key]) b3) as [[l|e] b']; [|done].
  destruct IH as (ks&->&Hd'&(items&sigs&Ew&Hi&Hitems&Hv)&Hb'&Hc'). rewrite (Hitems eq_refl) in Ew, Hv.
  simpl in Ew, Hv. rewrite app_nil_r in Hv. subst sigs.
  exists (key :: ks). split_and!; [by rewrite <- (assoc_L (++))|done| |done|done].
  exists [], (contents b). split_and!; [done|constructor|done|]. simpl. rewrite app_nil_r, C1, C3.
  econstructor; [exact Hkey|exact Hver|].
  unfold pre in Hv. rewrite <- (assoc_L (++)) in Hv. exact Hv.
Qed.

(** ** Reading as a whole *)

Lemma reads_mono {X} d1 d2 (m : M sshbuf X) : d2 <= d1 -> reads_least d1 m -> reads_least d2 m.
Proof.
  intros Hd Hm b Hb. specialize (Hm b Hb). destruct (m b) as [[x|e] b']; [|done].
  destruct Hm. split; [done|by eapply left_mono].
Qed.

Lemma u32_reads : reads_least 4 sshbuf_get_u32.
Proof. eapply refines_reads; [apply _|]. intros l _. by apply rd_be_reads. Qed.

Lemma header_reads (krl : ssh_krl sshkey) : reads_least 0 (read_header A krl).
Proof.
  unfold read_header.
  apply (reads_bind 0 0); [apply (reads_mono 4); [lia|apply u32_reads]|].
  intros v. destruct (negb _); [by intros b Hb|].
  repeat (apply (reads_bind 0 0); [apply (reads_mono 8); [lia|apply u64_reads]|intros ?]).
  apply (reads_bind 0 0); [apply (reads_mono 4); [lia|apply skip_reads]|]. intros _.
  apply (reads_bind 0 0); [apply (reads_mono 4); [lia|apply get_cstring_reads]|]. intros [c n].
  intros b Hb. split; [done|apply left_refl].
Qed.

Lemma fromb_any b c : wf b -> fromb A b = Some c -> wf c /\ contents c = contents b.
Proof.
  intros Hb. unfold fromb. rewrite (wf_sane _ Hb), sshbuf_len_contents by done. intros E.
  pose proof (ptr_of_zlen b Hb). pose proof (zlen_nonneg (contents b)).
  destruct (sshbuf_from_fresh _ _ _ _ _ E) as (((Hw&_)&_)&_&Hc); [lia|auto with ssh|].
  split; [done|]. by rewrite Hc, ptr_of_take.
Qed.

(** What a list that is read stands for. *)
Record read_ok (sign_ca : list sshkey) (buf : sshbuf) (krl : ssh_krl sshkey) (header body : bytes)
    (ks : list sshkey) : Prop := {
  ro_contents : contents buf = header ++ body;
  ro_magic : ztake 8 header = KRL_MAGIC;
  ro_loaded : exists c base c', wf c /\ contents c = body /\
    load_sections A mem pick (c, base) = (Ok tt, (c', krl));
  ro_signed : signed_last false header body ks;
  ro_distinct : distinct ks;
  ro_signers : check_signers krl ks sign_ca = Ok tt
}.

Lemma from_blob_cases init sign_ca buf :
  wf buf ->
  match ssh_krl_from_blob A mem pick init sign_ca buf with
  | Ok (Some krl) => exists header body ks, read_ok sign_ca buf krl header body ks
  | Ok None => init = false
  | Err e => e < 0
  end.
Proof.
  intros Hbuf. unfold ssh_krl_from_blob. rewrite sshbuf_len_contents by done.
  destruct (Z.ltb_spec (zlen (contents buf)) 8); [done|]. rewrite ztake_ptr_of by (done || lia).
  destruct (decide (ztake 8 (contents buf) = KRL_MAGIC)) as [Hm|];
    [rewrite bool_decide_true by done|by rewrite bool_decide_false]. cbn [orb negb].
  destruct (fromb A buf) as [c|] eqn:Ec; [|done]. apply fromb_any in Ec as [Hc Cc]; [|done].
  pose proof (sshbuf_consume_spec 8 c Hc ltac:(lia)) as P.
  destruct (sshbuf_consume 8 c) as [r c1]. destruct P as (Hc1&_&P). rewrite Cc in P.
  destruct (Z.ltb_spec (zlen (contents buf)) 8); [lia|]. destruct P as [-> C1].
  unfold ssh_krl_init. destruct init; [|done].
  set (krl0 := mk_krl 0 0 0 None [] [] []).
  pose proof (header_reads krl0 c1 Hc1) as Hh.
  destruct (read_header A krl0 c1) as [[base|e] c2]; [|done]. destruct Hh as [Hc2 (h&C2&_)].
  rewrite sshbuf_len_contents by done.
  assert (contents buf = (KRL_MAGIC ++ h) ++ contents c2) as Hsplit
    by (rewrite <- (assoc_L (++)), <- C2, C1, <- Hm; by rewrite ztake_zdrop).
  set (header := KRL_MAGIC ++ h) in *. pose proof (zlen_nonneg header). pose proof (zlen_nonneg (contents c2)).
  assert (zlen (contents buf) = zlen header + zlen (contents c2)) as Hz by (rewrite Hsplit, zlen_app; lia).
  destruct (Z.ltb_spec (zlen (contents buf)) (zlen (contents c2))); [lia|].
  pose proof (check_signatures_spec (Z.to_nat (zlen (contents c2))) buf false [] c2 header Hbuf Hc2 Hsplit
    ltac:(lia) ltac:(constructor)) as S.
  destruct (check_signatures A _ buf false [] c2) as [[ks|e] c3]; [|done].
  destruct S as (ks'&->&Hd&Hs&Hc3&C3). change ([] ++ ks') with ks' in *.
  rewrite sshbuf_len_contents, C3, (@zlen_nil Z) by done. change (negb (0 =? 0)) with false. cbn iota.
  unfold bind at 1, on_fst at 1.
  pose proof (contents_zlen buf Hbuf) as Hcz. pose proof (wf_ranges _ Hbuf).
  rewrite wrap_small by lia. replace (zlen (contents buf) - zlen (contents c2)) with (zlen header) by lia.
  pose proof (sshbuf_consume_spec (zlen header) c Hc ltac:(lia)) as P.
  destruct (sshbuf_consume (zlen header) c) as [r d1]. destruct P as (Hd2&_&P). rewrite Cc in P.
  destruct (Z.ltb_spec (zlen (contents buf)) (zlen header)); [lia|]. destruct P as [-> Cd1].
  rewrite Hsplit, zdrop_app in Cd1 by done.
  pose proof (least_load d1 base Hd2) as L.
  destruct (load_sections A mem pick (d1, base)) as [[[]|e] [d2 krl]] eqn:El; [|done].
  destruct (check_signers krl ks' sign_ca) as [[]|e] eqn:Es.
  - exists header, (contents c2), ks'. constructor; try done.
    by exists d1, base, d2.
  - unfold check_signers in Es. repeat case_match; try discriminate Es; by injection Es as <-.
Qed.

(** C27. [ssh_krl_from_blob] ends on every input: whatever the bytes are and
    whichever allocations fail, it returns a list, an error code of ssherr.h,
    or - only if there is no memory for the list - success without a list;
    no loop goes on for ever. *)
Theorem krl_read_terminates init sign_ca buf :
  wf buf ->
  ssh_krl_from_blob A mem pick init sign_ca buf <> Err OUT_OF_FUEL /\
  match ssh_krl_from_blob A mem pick init sign_ca buf with
  | Ok (Some _) => True
  | Ok None => init = false
  | Err e => e < 0
  end.
Proof.
  intros Hbuf. pose proof (from_blob_cases init sign_ca buf Hbuf) as P.
  destruct (ssh_krl_from_blob _ _ _ _ _ _) as [[krl|]|e]; [by split|by split|].
  split; [|done]. intros [= ->]. done.
Qed.

End safe.

(** ** Concrete keys *)

(** A plain key is a number, and only a byte has an encoding; a certificate also
    has the number of its CA, its serial number and its key ID. *)
Inductive blob_key : Type :=
| BPlain (id : Z)
| BCert (id ca serial : Z) (key_id : bytes).
#[global] Instance blob_key_eq_dec : EqDecision blob_key.
Proof. solve_decision. Defined.

Definition blob_id (k : blob_key) : Z := match k with BPlain id | BCert id _ _ _ => id end.

#[global] Instance blob_keys : KeyOps blob_key := {
  sshkey_equal a b := match a, b with Some a, Some b => bool_decide (a = b) | _, _ => false end;
  sshkey_from_private k := Ok k;
  sshkey_is_cert k := match k with BCert _ _ _ _ => true | BPlain _ => false end;
  sshkey_drop_cert k := Ok (BPlain (blob_id k));
  sshkey_to_blob k :=
    match k with
    | BPlain id => if (0 <=? id) && (id <? 256) then Ok [7; id] else Err (-14)
    | BCert _ _ _ _ => Err (-14)
    end;
  sshkey_fingerprint_sha1 k := Ok (zrep 20 (u8 (blob_id k)));
  cert_signature_key k := match k with BCert _ ca _ _ => BPlain ca | _ => k end;
  cert_serial k := match k with BCert _ _ n _ => n | _ => 0 end;
  cert_key_id k :=
    match k with BCert _ _ _ i => List.filter (fun c => (0 <? c) && (c <? 256)) i | _ => [] end
}.

(** A toy signature: the number of the key and a checksum. *)
Definition blob_sign (k : blob_key) (d : bytes) : result bytes :=
  Ok [u8 (blob_id k); fold_left (fun a b => u8 (a * 31 + b)) d 5].

#[global] Instance blob_keys_io : KeyBlob blob_key := {
  sshkey_from_blob v :=
    match v with
    | [7; id] => if (0 <=? id) && (id <? 256) then Ok (BPlain id) else Err SSH_ERR_INVALID_FORMAT
    | _ => Err SSH_ERR_INVALID_FORMAT
    end;
  sshkey_sign := blob_sign;
  sshkey_verify k s d :=
    match blob_sign k d with
    | Ok s' => if bool_decide (s = s') then Ok tt else Err SSH_ERR_SIGNATURE_INVALID
    | Err e => Err e
    end
}.

#[global] Instance blob_key_laws : KeyLaws blob_key.
Proof.
  constructor; simpl.
  - done.
  - by intros [].
  - intros [a|] [b|]; [|done..]. apply bool_decide_ext. naive_solver.
  - intros [a|] [b|] [c|]; rewrite ?bool_decide_eq_true; congruence || done.
  - intros k k' [= <-]. by apply bool_decide_eq_true.
Qed.

#[global] Instance blob_key_blob_laws : KeyBlobLaws blob_key.
Proof.
  constructor.
  - intros [id|] v; simpl; [|done]. destruct (Z.leb_spec 0 id), (Z.ltb_spec id 256); simpl; try done.
    intros [= <-]. split; [|done]. repeat constructor; by unfold in_range.
  - intros [id|] v; simpl; [|done]. destruct ((0 <=? id) && (id <? 256)) eqn:Hr; [|done].
    intros [= <-]. exists (BPlain id). rewrite Hr. split; [done|]. by apply bool_decide_eq_true.
  - intros k k' d s [= <-] Hk. simpl in Hk. apply bool_decide_eq_true in Hk as ->. split.
    + assert (forall d a, is_byte a -> is_byte (fold_left (fun a b => u8 (a * 31 + b)) d a)) as Hf.
      { clear. induction d as [|b d IH]; intros a Ha; [done|]. apply IH. by apply wrap_range. }
      apply Forall_cons. split; [by apply wrap_range|]. apply Forall_cons. split; [by apply Hf|constructor].
    + unfold sshkey_verify. simpl. unfold blob_sign. by rewrite bool_decide_true.
  - intros k h [= <-]. split; [|by rewrite zlen_zrep]. apply Bytes_zrep. by apply wrap_range.
  - intros [id|id ca n i]; [constructor|]. apply Forall_forall. intros c Hc.
    apply list_elem_of_In in Hc. simpl in Hc. apply filter_In in Hc as [_ Hc].
    apply andb_true_iff in Hc as [?%Z.ltb_lt ?%Z.ltb_lt]. lia.
Qed.

#[global] Instance blob_key_codes : KeyCodes blob_key.
Proof.
  constructor; simpl; try done.
  - intros [id|] e; simpl; [destruct (_ && _)|]; intros E; try discriminate E; by injection E as <-.
  - intros v e E. repeat case_match; try discriminate E; by injection E as <-.
  - intros k s d e. unfold blob_sign. destruct (bool_decide _); intros E; [done|]. by injection E as <-.
Qed.

Definition demo_krl_ops : list (krl_op blob_key) := [
  RevokeSerials 0 true (Some (BPlain 9)) 5 9; RevokeSerials 0 true (Some (BPlain 9)) 20 20;
  RevokeSerials 0 true (Some (BPlain 9)) 400 100000; RevokeSerials 0 true None 3 3;
  RevokeSerials 0 true (Some (BPlain 9)) 200000 200000; RevokeSerials 0 true (Some (BPlain 9)) 900000 900000;
  RevokeKeyId true (Some (BPlain 9)) (cstr "user"); RevokeExplicit true (BPlain 4); RevokeExplicit true (BPlain 3);
  RevokeSha1 true (BPlain 77)].

Definition demo_built := exec_ops demo_krl_ops [] (mk_krl 0 0 0 None [] [] []).
Definition demo_krl := snd demo_built.
Definition demo_written :=
  ssh_krl_to_blob test_alloc 1234 [BPlain 1; BPlain 2] (set_header 7 0 0 (Some (cstr "demo")) demo_krl, small_buf SSHBUF_SIZE_MAX).
Definition demo_buf : sshbuf := snd (snd demo_written).

Lemma demo_krl_good :
  Forall op_ok demo_krl_ops /\ Forall op_strings demo_krl_ops /\
  Forall (fun rc => zlen (rc_serials rc) <= 78) (krl_revoked_certs demo_krl).
Proof.
  split_and!.
  - repeat (apply Forall_cons; split; [simpl; unfold in_range; lia || done|]). constructor.
  - repeat (apply Forall_cons; split; [simpl; done||idtac|]); [|constructor].
    repeat (apply Forall_cons; split; [lia|]). constructor.
  - repeat (apply Forall_cons; split; [vm_compute; congruence|]). constructor.
Qed.

Lemma demo_distinct : distinct [BPlain 1; BPlain 2].
Proof. repeat constructor. Qed.

Lemma demo_buf_wf : wf demo_buf /\ is_ok (fst demo_written) = true.
Proof.
  split; [|reflexivity]. constructor; try reflexivity; try (vm_compute; split; congruence);
    try (vm_compute; congruence).
  apply Forall_forall. intros v Hv.
  assert (forallb (fun b => (0 <=? b) && (b <? 256)) (b_mem demo_buf) = true) as Hall by (vm_compute; reflexivity).
  rewrite forallb_forall in Hall. apply list_elem_of_In, Hall in Hv. unfold in_range. lia.
Qed.

Lemma blob_key_copied (k : blob_key) : exists k', sshkey_from_private k = Ok k'.
Proof. by exists k. Qed.

#[local] Opaque exec_ops ssh_krl_to_blob ssh_krl_from_blob.
Lemma demo_built_eq :
  exec_ops demo_krl_ops [] (mk_krl 0 0 0 None [] [] []) = (fst demo_built, demo_krl).
Proof.
  pose proof (surjective_pairing demo_built) as P. unfold demo_built at 1 in P. exact P.
Qed.

Lemma demo_written_eq :
  ssh_krl_to_blob test_alloc 1234 [BPlain 1; BPlain 2]
    (set_header 7 0 0 (Some (cstr "demo")) demo_krl, small_buf SSHBUF_SIZE_MAX) =
  (Ok tt, (fst (snd demo_written), demo_buf)).
Proof.
  assert (forall {X Y Z} (p : result X * (Y * Z)) x, fst p = Ok x -> p = (Ok x, (fst (snd p), snd (snd p)))) as P
    by (intros ??? [? []] ? [=]; simpl in *; congruence).
  assert (fst demo_written = Ok tt) as Hw by (vm_compute; reflexivity).
  specialize (P _ _ _ demo_written tt Hw). unfold demo_written at 1 in P. exact P.
Qed.

Lemma demo_start_inv : inv (small_buf SSHBUF_SIZE_MAX).
Proof.
  split_and!; [|reflexivity|vm_compute; congruence]. apply small_buf_wf. vm_compute. congruence.
Qed.


Lemma krl_read_terminates_witness :
  ssh_krl_from_blob test_alloc (fun _ => true) (fun _ => 0%nat) true [BPlain 3] demo_buf =
    Err SSH_ERR_SIGNATURE_INVALID /\
  ssh_krl_from_blob test_alloc (fun _ => true) (fun _ => 0%nat) true [BPlain 3] demo_buf <> Err OUT_OF_FUEL.
Proof.
  split; [vm_compute; reflexivity|].
  pose proof (krl_read_terminates test_alloc (fun _ : ssh_krl blob_key => true) (fun _ => 0%nat) true
    [BPlain 3] demo_buf (proj1 demo_buf_wf)) as [P _].
  exact P.
Defined.

Lemma read_some {X} (r : result (option X)) :
  match r with Ok (Some _) => true | _ => false end = true -> exists x, r = Ok (Some x).
Proof. destruct r as [[x|]|]; [|done..]. by exists x. Qed.

Lemma demo_read : exists krl,
  ssh_krl_from_blob test_alloc (fun _ => true) (fun _ => 0%nat) true [BPlain 2] demo_buf = Ok (Some krl).
Proof. apply read_some. vm_compute. reflexivity. Qed.


(** ** A list that is written but cannot be read *)

(** 240 serial numbers at a distance of 70. *)
Definition spread_krl : ssh_krl blob_key :=
  mk_krl 1 1 0 None [] []
    [mk_revoked_certs (Some (BPlain 9)) ((fun i => (70 * i + 1, 70 * i + 1)) <$> seqZ 0 240) []].

(** The cost model puts the serial numbers into one bitmap, which
    [sshbuf_put_bignum2_bytes] writes whatever its length, but the reader takes
    a bignum of at most 16384 bits: the list is written without an error and
    refused when it is read. *)
Theorem krl_bitmap_unreadable :
  let '(r, (_, buf)) := ssh_krl_to_blob test_alloc 1234 [] (spread_krl, small_buf SSHBUF_SIZE_MAX) in
  r = Ok tt /\
  ssh_krl_from_blob test_alloc (fun _ => true) (fun _ => 0%nat) true [] buf = Err SSH_ERR_BIGNUM_TOO_LARGE.
Proof. vm_compute. split; reflexivity. Qed.
