(* ===== verification/Poly1305.v ===== *)
(** poly1305.c: the one-time authenticator, in 32-bit limbs of 26 bits.

    The goto labels of [poly1305_auth] are functions: [donna_16bytes] is the
    loop over full blocks, [donna_mul] the multiplication both kinds of block
    jump to, [donna_atmost15bytes] the last block and [donna_finish] the final
    reduction.  Every operation wraps at the width of its C type; the
    properties show that no 32-bit intermediate of the multiplication
    overflows and that the tag is the one of the mathematical definition. *)

From S2P Require Import Prelude Wire.

(** ** Definitions *)

Definition mul32x32_64 (a b : Z) : Z := u64 (a * b).

Record limbs : Type := mk_limbs { l0 : Z; l1 : Z; l2 : Z; l3 : Z; l4 : Z }.

(** The four words of a block. *)
Record words : Type := mk_words { t0 : Z; t1 : Z; t2 : Z; t3 : Z }.
Definition load (p : bytes) : words :=
  mk_words (U8TO32_LE p) (U8TO32_LE (zdrop 4 p)) (U8TO32_LE (zdrop 8 p)) (U8TO32_LE (zdrop 12 p)).

(** Clamp the key and split it. *)
Definition clamp_key (t : words) : limbs :=
  let r0 := Z.land (t0 t) 0x3ffffff in
  let a0 := Z.lor (Z.shiftr (t0 t) 26) (u32 (Z.shiftl (t1 t) 6)) in
  let r1 := Z.land a0 0x3ffff03 in
  let a1 := Z.lor (Z.shiftr (t1 t) 20) (u32 (Z.shiftl (t2 t) 12)) in
  let r2 := Z.land a1 0x3ffc0ff in
  let a2 := Z.lor (Z.shiftr (t2 t) 14) (u32 (Z.shiftl (t3 t) 18)) in
  let r3 := Z.land a2 0x3f03fff in
  let a3 := Z.shiftr (t3 t) 8 in
  let r4 := Z.land a3 0x00fffff in
  mk_limbs r0 r1 r2 r3 r4.

(** [h += block]; [hibit] is [1 << 24] for a full block and 0 for the last. *)
Definition add_block (hibit : Z) (t : words) (h : limbs) : limbs :=
  let pick := fun hi lo n =>
    u32 (Z.land (Z.shiftr (Z.lor (u64 (Z.shiftl hi 32)) lo) n) 0x3ffffff) in
  mk_limbs
    (u32 (l0 h + Z.land (t0 t) 0x3ffffff))
    (u32 (l1 h + pick (t1 t) (t0 t) 26))
    (u32 (l2 h + pick (t2 t) (t1 t) 20))
    (u32 (l3 h + pick (t3 t) (t2 t) 14))
    (u32 (l4 h + Z.lor (Z.shiftr (t3 t) 8) hibit)).

(** A sum of five 64-bit products. *)
Definition sum5 (a b c d e : Z) : Z := u64 (u64 (u64 (u64 (a + b) + c) + d) + e).

(** The products before the carries. *)
Definition mul_t (r h : limbs) : limbs :=
  let s1 := u32 (l1 r * 5) in
  let s2 := u32 (l2 r * 5) in
  let s3 := u32 (l3 r * 5) in
  let s4 := u32 (l4 r * 5) in
  let m := mul32x32_64 in
  mk_limbs
    (sum5 (m (l0 h) (l0 r)) (m (l1 h) s4) (m (l2 h) s3) (m (l3 h) s2) (m (l4 h) s1))
    (sum5 (m (l0 h) (l1 r)) (m (l1 h) (l0 r)) (m (l2 h) s4) (m (l3 h) s3) (m (l4 h) s2))
    (sum5 (m (l0 h) (l2 r)) (m (l1 h) (l1 r)) (m (l2 h) (l0 r)) (m (l3 h) s4) (m (l4 h) s3))
    (sum5 (m (l0 h) (l3 r)) (m (l1 h) (l2 r)) (m (l2 h) (l1 r)) (m (l3 h) (l0 r)) (m (l4 h) s4))
    (sum5 (m (l0 h) (l4 r)) (m (l1 h) (l3 r)) (m (l2 h) (l2 r)) (m (l3 h) (l1 r)) (m (l4 h) (l0 r))).

Definition donna_mul (r h : limbs) : limbs :=
  let t := mul_t r h in
  let h0 := Z.land (u32 (l0 t)) 0x3ffffff in
  let c := Z.shiftr (l0 t) 26 in
  let t1 := u64 (l1 t + c) in
  let h1 := Z.land (u32 t1) 0x3ffffff in
  let b := u32 (Z.shiftr t1 26) in
  let t2 := u64 (l2 t + b) in
  let h2 := Z.land (u32 t2) 0x3ffffff in
  let b := u32 (Z.shiftr t2 26) in
  let t3 := u64 (l3 t + b) in
  let h3 := Z.land (u32 t3) 0x3ffffff in
  let b := u32 (Z.shiftr t3 26) in
  let t4 := u64 (l4 t + b) in
  let h4 := Z.land (u32 t4) 0x3ffffff in
  let b := u32 (Z.shiftr t4 26) in
  mk_limbs (u32 (h0 + u32 (b * 5))) h1 h2 h3 h4.

(** The loop: the accumulator and the bytes that remain, fewer than 16. *)
Fixpoint donna_16bytes (fuel : nat) (r h : limbs) (m : bytes) : limbs * bytes :=
  match fuel with
  | O => (h, m)
  | S fuel =>
      if zlen m <? 16 then (h, m)
      else donna_16bytes fuel r
             (donna_mul r (add_block (Z.shiftl 1 24) (load (ztake 16 m)) h)) (zdrop 16 m)
  end.

Definition donna_atmost15bytes (r h : limbs) (m : bytes) : limbs :=
  if zlen m =? 0 then h
  else
    let mp := m ++ [1] ++ zrep (15 - zlen m) 0 in
    donna_mul r (add_block 0 (load mp) h).

(** The carries of [donna_finish]. *)
Definition finish_carry (h : limbs) : limbs :=
  let M := 0x3ffffff in
  let b := Z.shiftr (l0 h) 26 in let h0 := Z.land (l0 h) M in
  let h1 := u32 (l1 h + b) in let b := Z.shiftr h1 26 in let h1 := Z.land h1 M in
  let h2 := u32 (l2 h + b) in let b := Z.shiftr h2 26 in let h2 := Z.land h2 M in
  let h3 := u32 (l3 h + b) in let b := Z.shiftr h3 26 in let h3 := Z.land h3 M in
  let h4 := u32 (l4 h + b) in let b := Z.shiftr h4 26 in let h4 := Z.land h4 M in
  let h0 := u32 (h0 + u32 (b * 5)) in let b := Z.shiftr h0 26 in let h0 := Z.land h0 M in
  let h1 := u32 (h1 + b) in
  mk_limbs h0 h1 h2 h3 h4.

(** g = h + 5 - 2^130, and h or g by the sign of g. *)
Definition finish_select (h : limbs) : limbs :=
  let M := 0x3ffffff in
  let g0 := u32 (l0 h + 5) in let b := Z.shiftr g0 26 in let g0 := Z.land g0 M in
  let g1 := u32 (l1 h + b) in let b := Z.shiftr g1 26 in let g1 := Z.land g1 M in
  let g2 := u32 (l2 h + b) in let b := Z.shiftr g2 26 in let g2 := Z.land g2 M in
  let g3 := u32 (l3 h + b) in let b := Z.shiftr g3 26 in let g3 := Z.land g3 M in
  let g4 := u32 (u32 (l4 h + b) - Z.shiftl 1 26) in
  let b := u32 (Z.shiftr g4 31 - 1) in
  let nb := Z.lxor b 0xffffffff in
  let sel := fun h g => Z.lor (Z.land h nb) (Z.land g b) in
  mk_limbs (sel (l0 h) g0) (sel (l1 h) g1) (sel (l2 h) g2) (sel (l3 h) g3) (sel (l4 h) g4).

(** The low 128 bits, plus the second half of the key. *)
Definition finish_store (h : limbs) (pad : words) : bytes :=
  let f0 := u64 (Z.lor (l0 h) (u32 (Z.shiftl (l1 h) 26)) + t0 pad) in
  let f1 := u64 (Z.lor (Z.shiftr (l1 h) 6) (u32 (Z.shiftl (l2 h) 20)) + t1 pad) in
  let f2 := u64 (Z.lor (Z.shiftr (l2 h) 12) (u32 (Z.shiftl (l3 h) 14)) + t2 pad) in
  let f3 := u64 (Z.lor (Z.shiftr (l3 h) 18) (u32 (Z.shiftl (l4 h) 8)) + t3 pad) in
  let f1 := u64 (f1 + Z.shiftr f0 32) in
  let f2 := u64 (f2 + Z.shiftr f1 32) in
  let f3 := u64 (f3 + Z.shiftr f2 32) in
  U32TO8_LE f0 ++ U32TO8_LE f1 ++ U32TO8_LE f2 ++ U32TO8_LE f3.

Definition donna_finish (h : limbs) (pad : words) : bytes :=
  finish_store (finish_select (finish_carry h)) pad.

(** [inlen] is the length of [m]. *)
Definition poly1305_auth (m key : bytes) : bytes :=
  let r := clamp_key (load key) in
  let '(h, m) := donna_16bytes (length m) r (mk_limbs 0 0 0 0 0) m in
  donna_finish (donna_atmost15bytes r h m) (load (zdrop 16 key)).

(** ** Specification: RFC 7539, section 2.5 *)

Definition P : Z := 2 ^ 130 - 5.
Definition clamp (r : Z) : Z := Z.land r 0x0ffffffc0ffffffc0ffffffc0fffffff.

(** Horner's rule over blocks of 16 bytes, each with a byte 1 appended. *)
Fixpoint horner (fuel : nat) (r acc : Z) (m : bytes) : Z :=
  match fuel with
  | O => acc
  | S fuel =>
      match m with
      | [] => acc
      | _ => horner fuel r ((acc + le_value (ztake 16 m ++ [1])) * r mod P) (zdrop 16 m)
      end
  end.
Definition poly1305 (m key : bytes) : bytes :=
  let r := clamp (le_value (ztake 16 key)) in
  let s := le_value (ztake 16 (zdrop 16 key)) in
  le_bytes 16 (horner (length m) r 0 m + s).

(** The test vector of RFC 7539, section 2.5.2. *)
Definition rfc_key : bytes :=
  [0x85; 0xd6; 0xbe; 0x78; 0x57; 0x55; 0x6d; 0x33; 0x7f; 0x44; 0x52; 0xfe; 0x42; 0xd5; 0x06; 0xa8;
   0x01; 0x03; 0x80; 0x8a; 0xfb; 0x0d; 0xb2; 0xfd; 0x4a; 0xbf; 0xf6; 0xaf; 0x41; 0x49; 0xf5; 0x1b].
Definition rfc_msg : bytes := cstr "Cryptographic Forum Research Group".
Definition rfc_tag : bytes :=
  [0xa8; 0x06; 0x1d; 0xc1; 0x30; 0x51; 0x36; 0xc6; 0xc2; 0x2b; 0x8b; 0xaf; 0x0c; 0x01; 0x27; 0xa9].
Example poly1305_auth_rfc : poly1305_auth rfc_msg rfc_key = rfc_tag.
Proof. vm_compute. reflexivity. Qed.
Example poly1305_rfc : poly1305 rfc_msg rfc_key = rfc_tag.
Proof. vm_compute. reflexivity. Qed.

(** * Properties *)

(** ** Masks, shifts and words *)

Lemma land26 x : Z.land x 0x3ffffff = x mod 2 ^ 26.
Proof. exact (land_ones_mod x 26 ltac:(lia)). Qed.

Lemma land_low x m : 0 <= m < 2 ^ 26 -> Z.land x m = Z.land (x mod 2 ^ 26) m.
Proof.
  intros Hm. rewrite <- land26, <- Z.land_assoc, (Z.land_comm 0x3ffffff m), land26.
  by rewrite Z.mod_small.
Qed.

Lemma land_bound x m : 0 <= m -> 0 <= Z.land x m <= m.
Proof.
  intros Hm. split; [apply Z.land_nonneg; lia|].
  pose proof (Z.sub_nocarry_ldiff m (Z.land x m)) as E.
  assert (Z.ldiff (Z.land x m) m = 0) as H0.
  { apply Z.bits_inj'. intros i Hi. rewrite Z.ldiff_spec, Z.land_spec, Z.bits_0.
    by destruct (Z.testbit x i), (Z.testbit m i). }
  specialize (E H0). assert (0 <= Z.ldiff m (Z.land x m)); [|lia].
  apply Z.ldiff_nonneg. lia.
Qed.

Lemma limb_land_concat n a b c d :
  0 <= n -> 0 <= b < 2 ^ n -> 0 <= d < 2 ^ n ->
  Z.land (b + 2 ^ n * a) (d + 2 ^ n * c) = Z.land b d + 2 ^ n * Z.land a c.
Proof.
  intros Hn Hb Hd. rewrite !(Z.add_comm _ (2 ^ n * _)), !(Z.mul_comm (2 ^ n)).
  apply Z.bits_inj'. intros i Hi.
  assert (0 <= Z.land b d < 2 ^ n) as Hbd by (pose proof (land_bound b d); lia).
  rewrite Z.land_spec, !testbit_concat by done. destruct (i <? n); by rewrite Z.land_spec.
Qed.

Definition word_ok (t : words) : Prop :=
  in_range 32 (t0 t) /\ in_range 32 (t1 t) /\ in_range 32 (t2 t) /\ in_range 32 (t3 t).
Definition wval (t : words) : Z := t0 t + 2 ^ 32 * t1 t + 2 ^ 64 * t2 t + 2 ^ 96 * t3 t.
Definition lval (h : limbs) : Z :=
  l0 h + 2 ^ 26 * l1 h + 2 ^ 52 * l2 h + 2 ^ 78 * l3 h + 2 ^ 104 * l4 h.

Lemma ztake_split {A} n m (l : list A) :
  0 <= n -> 0 <= m -> ztake (n + m) l = ztake n l ++ ztake m (zdrop n l).
Proof. intros. unfold ztake, zdrop. by rewrite take_take_drop, Z2Nat.inj_add by done. Qed.

Lemma load_spec p :
  Bytes p -> 16 <= zlen p -> word_ok (load p) /\ wval (load p) = le_value (ztake 16 p).
Proof.
  intros HB Hl. unfold word_ok, wval, load. cbn [t0 t1 t2 t3].
  assert (forall k, 0 <= k <= 12 -> Bytes (zdrop k p) /\ 4 <= zlen (zdrop k p)) as Hk.
  { intros k Hk. split; [auto with ssh|zl]. }
  destruct (Hk 4), (Hk 8), (Hk 12); [lia..|].
  rewrite !U8TO32_LE_le by (done || lia).
  assert (forall l, Bytes l -> 4 <= zlen l -> in_range 32 (le_value (ztake 4 l))) as Hr.
  { intros l HBl Hll. pose proof (le_value_range (ztake 4 l)) as R.
    rewrite zlen_ztake in R by lia. apply R. auto with ssh. }
  split; [split_and!; apply Hr; done || lia|].
  assert (ztake 16 p = ztake 4 p ++ ztake 4 (zdrop 4 p) ++ ztake 4 (zdrop 8 p) ++ ztake 4 (zdrop 12 p)) as ->.
  { change 16 with (4 + (4 + (4 + 4))).
    rewrite (ztake_split 4 (4 + (4 + 4))), (ztake_split 4 (4 + 4) (zdrop 4 p)), (ztake_split 4 4 (zdrop 4 (zdrop 4 p)))
      by lia. by rewrite !zdrop_zdrop by lia. }
  rewrite !le_value_app, !zlen_ztake by zl. change (256 ^ 4) with (2 ^ 32). lia.
Qed.

(** ** The key *)

Definition r_ok (r : limbs) : Prop :=
  0 <= l0 r <= 0x3ffffff /\ 0 <= l1 r <= 0x3ffff03 /\ 0 <= l2 r <= 0x3ffc0ff /\
  0 <= l3 r <= 0x3f03fff /\ 0 <= l4 r <= 0x00fffff.

(** The 26-bit digits of a block. *)
Definition digit (i n : Z) : Z := (n / 2 ^ (26 * i)) mod 2 ^ 26.

Lemma digits n : 0 <= n < 2 ^ 130 ->
  n = digit 0 n + 2 ^ 26 * (digit 1 n + 2 ^ 26 * (digit 2 n + 2 ^ 26 * (digit 3 n +
      2 ^ 26 * digit 4 n))).
Proof.
  intros Hn. unfold digit. change (26 * 0) with 0. change (26 * 1) with 26.
  change (26 * 2) with 52. change (26 * 3) with 78. change (26 * 4) with 104.
  rewrite Z.pow_0_r, Z.div_1_r.
  rewrite (Z.mod_small (n / 2 ^ 104)) by (Z.div_mod_to_equations; lia).
  Z.div_mod_to_equations. lia.
Qed.

Lemma digit_range i n : 0 <= digit i n < 2 ^ 26.
Proof. apply Z.mod_pos_bound. lia. Qed.


(** [x | (y << j)] in 32 bits, when x has fewer than j bits. *)
Lemma lor_pair x y j :
  0 <= j <= 32 -> 0 <= x < 2 ^ j -> 0 <= y ->
  Z.lor x (u32 (Z.shiftl y j)) = x + 2 ^ j * (y mod 2 ^ (32 - j)).
Proof.
  intros Hj Hx Hy. rewrite Z.shiftl_mul_pow2 by lia. unfold wrap.
  replace (2 ^ 32) with (2 ^ (32 - j) * 2 ^ j) by (rewrite <- Z.pow_add_r by lia; f_equal; lia).
  rewrite Z.mul_mod_distr_r by lia.
  rewrite <- Z.shiftl_mul_pow2, Z.lor_comm, lor_shiftl_add by lia. lia.
Qed.

Lemma word_digits t :
  word_ok t ->
  digit 0 (wval t) = t0 t mod 2 ^ 26 /\
  digit 1 (wval t) = (t0 t / 2 ^ 26 + 2 ^ 6 * t1 t) mod 2 ^ 26 /\
  digit 2 (wval t) = (t1 t / 2 ^ 20 + 2 ^ 12 * t2 t) mod 2 ^ 26 /\
  digit 3 (wval t) = (t2 t / 2 ^ 14 + 2 ^ 18 * t3 t) mod 2 ^ 26 /\
  digit 4 (wval t) = t3 t / 2 ^ 8.
Proof.
  intros (H0&H1&H2&H3). unfold in_range, digit, wval in *.
  change (26 * 0) with 0. change (26 * 1) with 26. change (26 * 2) with 52.
  change (26 * 3) with 78. change (26 * 4) with 104. rewrite Z.pow_0_r, Z.div_1_r.
  destruct t as [a b c d]; cbn [t0 t1 t2 t3] in *. split_and!.
  - Z.div_mod_to_equations. lia.
  - Z.div_mod_to_equations. lia.
  - assert ((a + 2 ^ 32 * b + 2 ^ 64 * c + 2 ^ 96 * d) / 2 ^ 52 =
            b / 2 ^ 20 + 2 ^ 12 * c + 2 ^ 44 * d) as -> by (Z.div_mod_to_equations; lia).
    Z.div_mod_to_equations. lia.
  - assert ((a + 2 ^ 32 * b + 2 ^ 64 * c + 2 ^ 96 * d) / 2 ^ 78 =
            c / 2 ^ 14 + 2 ^ 18 * d) as -> by (Z.div_mod_to_equations; lia).
    done.
  - assert ((a + 2 ^ 32 * b + 2 ^ 64 * c + 2 ^ 96 * d) / 2 ^ 104 = d / 2 ^ 8)
      as -> by (Z.div_mod_to_equations; lia).
    Z.div_mod_to_equations. lia.
Qed.

Lemma clamp_key_spec t :
  word_ok t -> r_ok (clamp_key t) /\ lval (clamp_key t) = clamp (wval t).
Proof.
  intros Ht. pose proof (word_digits t Ht) as (D0&D1&D2&D3&D4).
  destruct Ht as (H0&H1&H2&H3). unfold in_range in *.
  assert (0 <= wval t < 2 ^ 130) as Hw by (unfold wval; lia).
  split; [unfold r_ok, clamp_key; cbn [l0 l1 l2 l3 l4]; split_and!; apply land_bound; lia|].
  unfold lval, clamp_key; cbn [l0 l1 l2 l3 l4].
  rewrite !Z.shiftr_div_pow2 by lia.
  rewrite (lor_pair _ (t1 t) 6), (lor_pair _ (t2 t) 12), (lor_pair _ (t3 t) 18)
    by (lia || (Z.div_mod_to_equations; lia)).
  rewrite (land_low (t0 t)), (land_low (_ / 2 ^ 26 + _)), (land_low (_ / 2 ^ 20 + _)),
    (land_low (_ / 2 ^ 14 + _)) by lia.
  replace (_ mod 2 ^ 26) with (digit 0 (wval t)) at 1.
  replace ((t0 t / 2 ^ 26 + _) mod 2 ^ 26) with (digit 1 (wval t))
    by (rewrite D1; Z.div_mod_to_equations; lia).
  replace ((t1 t / 2 ^ 20 + _) mod 2 ^ 26) with (digit 2 (wval t))
    by (rewrite D2; Z.div_mod_to_equations; lia).
  replace ((t2 t / 2 ^ 14 + _) mod 2 ^ 26) with (digit 3 (wval t))
    by (rewrite D3; Z.div_mod_to_equations; lia).
  rewrite <- D4. unfold clamp. rewrite (digits (wval t)) at 6 by done.
  pose proof (fun i => digit_range i (wval t)) as Hr.
  change 0x0ffffffc0ffffffc0ffffffc0fffffff with
    (0x3ffffff + 2 ^ 26 * (0x3ffff03 + 2 ^ 26 * (0x3ffc0ff + 2 ^ 26 * (0x3f03fff +
      2 ^ 26 * 0x00fffff)))).
  rewrite !limb_land_concat by (apply Hr || lia). lia.
Qed.

(** ** Adding a block *)

(** The accumulator between blocks, and after a block is added. *)
Definition h_ok (h : limbs) : Prop :=
  0 <= l0 h <= 2796960943 /\ 0 <= l1 h < 2 ^ 26 /\ 0 <= l2 h < 2 ^ 26 /\
  0 <= l3 h < 2 ^ 26 /\ 0 <= l4 h < 2 ^ 26.
Definition sum_ok (h : limbs) : Prop :=
  0 <= l0 h <= 2864069806 /\ 0 <= l1 h <= 134217726 /\ 0 <= l2 h <= 134217726 /\
  0 <= l3 h <= 134217726 /\ 0 <= l4 h <= 100663294.

Lemma pick_digit hi lo n :
  in_range 32 hi -> in_range 32 lo -> 0 <= n ->
  u32 (Z.land (Z.shiftr (Z.lor (u64 (Z.shiftl hi 32)) lo) n) 0x3ffffff) =
  (lo + 2 ^ 32 * hi) / 2 ^ n mod 2 ^ 26.
Proof.
  unfold in_range. intros Hhi Hlo Hn.
  rewrite land26, (wrap_small 64) by (rewrite Z.shiftl_mul_pow2; lia).
  rewrite lor_shiftl_add, Z.shiftr_div_pow2 by lia.
  rewrite wrap_small by (pose proof (Z.mod_pos_bound ((hi * 2 ^ 32 + lo) / 2 ^ n) (2 ^ 26)); lia).
  do 2 f_equal. lia.
Qed.

Lemma add_block_spec hibit t h :
  h_ok h -> word_ok t -> hibit = 0 \/ hibit = 2 ^ 24 ->
  sum_ok (add_block hibit t h) /\
  lval (add_block hibit t h) = lval h + wval t + 2 ^ 104 * hibit.
Proof.
  intros (Hh0&Hh1&Hh2&Hh3&Hh4) Ht Hbit. pose proof (word_digits t Ht) as (D0&D1&D2&D3&D4).
  pose proof (fun i => digit_range i (wval t)) as Hr.
  destruct Ht as (H0&H1&H2&H3).
  assert (0 <= wval t < 2 ^ 128) as Hw by (unfold wval, in_range in *; lia).
  assert (add_block hibit t h =
    mk_limbs (l0 h + digit 0 (wval t)) (l1 h + digit 1 (wval t)) (l2 h + digit 2 (wval t))
      (l3 h + digit 3 (wval t)) (l4 h + (digit 4 (wval t) + hibit))) as ->.
  { unfold add_block. rewrite !pick_digit by (done || lia). unfold in_range in *.
    rewrite land26, <- D0.
    replace ((t0 t + 2 ^ 32 * t1 t) / 2 ^ 26 mod 2 ^ 26) with (digit 1 (wval t))
      by (rewrite D1; Z.div_mod_to_equations; lia).
    replace ((t1 t + 2 ^ 32 * t2 t) / 2 ^ 20 mod 2 ^ 26) with (digit 2 (wval t))
      by (rewrite D2; Z.div_mod_to_equations; lia).
    replace ((t2 t + 2 ^ 32 * t3 t) / 2 ^ 14 mod 2 ^ 26) with (digit 3 (wval t))
      by (rewrite D3; Z.div_mod_to_equations; lia).
    rewrite Z.shiftr_div_pow2, <- D4 by lia.
    assert (digit 4 (wval t) < 2 ^ 24) by (rewrite D4; Z.div_mod_to_equations; lia).
    assert (Z.lor (digit 4 (wval t)) hibit = digit 4 (wval t) + hibit) as ->.
    { destruct Hbit as [->| ->]; [by rewrite Z.lor_0_r, Z.add_0_r|].
      change (2 ^ 24) with (Z.shiftl 1 24). pose proof (Hr 4).
      rewrite Z.lor_comm, lor_shiftl_add by lia.
      change (Z.shiftl 1 24) with (1 * 2 ^ 24). lia. }
    pose proof (Hr 0). pose proof (Hr 1). pose proof (Hr 2). pose proof (Hr 3). pose proof (Hr 4).
    rewrite !wrap_small by lia. done. }
  assert (digit 4 (wval t) < 2 ^ 24).
  { rewrite D4. unfold in_range in *. Z.div_mod_to_equations; lia. }
  pose proof (digits (wval t) ltac:(lia)) as Hd. unfold sum_ok, lval. cbn [l0 l1 l2 l3 l4].
  pose proof (Hr 0). pose proof (Hr 1). pose proof (Hr 2). pose proof (Hr 3). pose proof (Hr 4).
  lia.
Qed.

(** ** The multiplication *)

Lemma mul_bound a b A B : 0 <= a <= A -> 0 <= b <= B -> 0 <= a * b <= A * B.
Proof. intros. split; [lia|]. apply Z.mul_le_mono_nonneg; lia. Qed.

(** The products and the carries in unbounded integers. *)
Definition mul_exact (r h : limbs) : limbs :=
  mk_limbs
    (l0 h * l0 r + l1 h * (l4 r * 5) + l2 h * (l3 r * 5) + l3 h * (l2 r * 5) + l4 h * (l1 r * 5))
    (l0 h * l1 r + l1 h * l0 r + l2 h * (l4 r * 5) + l3 h * (l3 r * 5) + l4 h * (l2 r * 5))
    (l0 h * l2 r + l1 h * l1 r + l2 h * l0 r + l3 h * (l4 r * 5) + l4 h * (l3 r * 5))
    (l0 h * l3 r + l1 h * l2 r + l2 h * l1 r + l3 h * l0 r + l4 h * (l4 r * 5))
    (l0 h * l4 r + l1 h * l3 r + l2 h * l2 r + l3 h * l1 r + l4 h * l0 r).
Definition carry_exact (t : limbs) : limbs :=
  let t1 := l1 t + l0 t / 2 ^ 26 in
  let t2 := l2 t + t1 / 2 ^ 26 in
  let t3 := l3 t + t2 / 2 ^ 26 in
  let t4 := l4 t + t3 / 2 ^ 26 in
  mk_limbs (l0 t mod 2 ^ 26 + t4 / 2 ^ 26 * 5) (t1 mod 2 ^ 26) (t2 mod 2 ^ 26)
    (t3 mod 2 ^ 26) (t4 mod 2 ^ 26).

(** The largest sums of products. *)
Definition t_ok (t : limbs) : Prop :=
  0 <= l0 t <= 316053498419069778 /\ 0 <= l1 t <= 280026813393403434 /\
  0 <= l2 t <= 244133804222477154 /\ 0 <= l3 t <= 216795361832190810 /\
  0 <= l4 t <= 36639451212530514.

Lemma sum5_small a b c d e :
  0 <= a -> 0 <= b -> 0 <= c -> 0 <= d -> 0 <= e -> a + b + c + d + e < 2 ^ 64 ->
  sum5 a b c d e = a + b + c + d + e.
Proof.
  intros. unfold sum5. rewrite (wrap_small 64 (a + b)) by lia.
  rewrite (wrap_small 64 (a + b + c)) by lia. rewrite (wrap_small 64 (a + b + c + d)) by lia.
  by rewrite wrap_small by lia.
Qed.

Lemma mul_t_spec r h : r_ok r -> sum_ok h -> mul_t r h = mul_exact r h /\ t_ok (mul_exact r h).
Proof.
  intros (R0&R1&R2&R3&R4) (H0&H1&H2&H3&H4).
  destruct r as [r0 r1 r2 r3 r4], h as [h0 h1 h2 h3 h4].
  unfold mul_t, mul_exact, t_ok, mul32x32_64. cbn [l0 l1 l2 l3 l4] in *.
  rewrite !(wrap_small 32) by lia.
  pose proof (mul_bound _ _ _ _ H0 R0). pose proof (mul_bound _ _ _ _ H0 R1).
  pose proof (mul_bound _ _ _ _ H0 R2). pose proof (mul_bound _ _ _ _ H0 R3).
  pose proof (mul_bound _ _ _ _ H0 R4). pose proof (mul_bound _ _ _ _ H1 R0).
  pose proof (mul_bound _ _ _ _ H1 R1). pose proof (mul_bound _ _ _ _ H1 R2).
  pose proof (mul_bound _ _ _ _ H1 R3). pose proof (mul_bound _ _ _ _ H1 R4).
  pose proof (mul_bound _ _ _ _ H2 R0). pose proof (mul_bound _ _ _ _ H2 R1).
  pose proof (mul_bound _ _ _ _ H2 R2). pose proof (mul_bound _ _ _ _ H2 R3).
  pose proof (mul_bound _ _ _ _ H2 R4). pose proof (mul_bound _ _ _ _ H3 R0).
  pose proof (mul_bound _ _ _ _ H3 R1). pose proof (mul_bound _ _ _ _ H3 R2).
  pose proof (mul_bound _ _ _ _ H3 R3). pose proof (mul_bound _ _ _ _ H3 R4).
  pose proof (mul_bound _ _ _ _ H4 R0). pose proof (mul_bound _ _ _ _ H4 R1).
  pose proof (mul_bound _ _ _ _ H4 R2). pose proof (mul_bound _ _ _ _ H4 R3).
  pose proof (mul_bound _ _ _ _ H4 R4). rewrite !Z.mul_assoc.
  clear R0 R1 R2 R3 R4 H0 H1 H2 H3 H4.
  repeat match goal with H : 0 <= ?a * ?b <= _ |- _ =>
    is_var a; is_var b; let p := fresh "p" in set (p := a * b) in *; clearbody p end.
  split; [|split_and!; lia].
  rewrite !(wrap_small 64) by lia. by rewrite !sum5_small by lia.
Qed.

Lemma land26_u32 x : Z.land (u32 x) 0x3ffffff = x mod 2 ^ 26.
Proof.
  rewrite land26. unfold wrap. change (2 ^ 32) with (2 ^ 6 * 2 ^ 26).
  rewrite (Z.mul_comm (2 ^ 6)), Z.rem_mul_r by lia.
  rewrite (Z.mul_comm (2 ^ 26)), Z.mod_add, Z.mod_mod by lia. done.
Qed.

(** No product, sum or carry is cut off at the width of its variable. *)
Lemma donna_mul_exact r h :
  r_ok r -> sum_ok h ->
  donna_mul r h = carry_exact (mul_exact r h) /\ h_ok (carry_exact (mul_exact r h)).
Proof.
  intros Hr Hh. destruct (mul_t_spec r h Hr Hh) as [Ht Hok]. unfold donna_mul. rewrite Ht.
  clear Ht. set (t := mul_exact r h) in *. clearbody t. clear Hr Hh.
  destruct t as [a b c d e], Hok as (Ha&Hb&Hc&Hd&He). unfold carry_exact, h_ok.
  cbn [l0 l1 l2 l3 l4] in *. cbv zeta.
  rewrite !land26_u32, !Z.shiftr_div_pow2 by lia.
  rewrite (wrap_small 64 (b + _)) by (Z.div_mod_to_equations; lia).
  set (b' := b + a / 2 ^ 26).
  assert (0 <= b' <= 280026818102967559) by (subst b'; Z.div_mod_to_equations; lia). clearbody b'.
  rewrite (wrap_small 32 (b' / _)) by (Z.div_mod_to_equations; lia).
  rewrite (wrap_small 64 (c + _)) by (Z.div_mod_to_equations; lia).
  set (c' := c + b' / 2 ^ 26).
  assert (0 <= c' <= 244133808395201909) by (subst c'; Z.div_mod_to_equations; lia). clearbody c'.
  rewrite (wrap_small 32 (c' / _)) by (Z.div_mod_to_equations; lia).
  rewrite (wrap_small 64 (d + _)) by (Z.div_mod_to_equations; lia).
  set (d' := d + c' / 2 ^ 26).
  assert (0 <= d' <= 216795365470068041) by (subst d'; Z.div_mod_to_equations; lia). clearbody d'.
  rewrite (wrap_small 32 (d' / _)) by (Z.div_mod_to_equations; lia).
  rewrite (wrap_small 64 (e + _)) by (Z.div_mod_to_equations; lia).
  set (e' := e + d' / 2 ^ 26).
  assert (0 <= e' <= 36639454443033200) by (subst e'; Z.div_mod_to_equations; lia). clearbody e'.
  rewrite (wrap_small 32 (e' / _)) by (Z.div_mod_to_equations; lia).
  rewrite (wrap_small 32 (_ * 5)) by (Z.div_mod_to_equations; lia).
  rewrite (wrap_small 32) by (Z.div_mod_to_equations; lia).
  split; [done|]. split_and!; Z.div_mod_to_equations; lia.
Qed.

(** The product modulo P. *)
Lemma mul_value r h :
  lval (carry_exact (mul_exact r h)) mod P = lval h * lval r mod P.
Proof.
  assert (lval (carry_exact (mul_exact r h)) mod P = lval (mul_exact r h) mod P) as ->.
  { set (t := mul_exact r h). clearbody t. destruct t as [a b c d e].
    unfold lval, carry_exact. cbn [l0 l1 l2 l3 l4]. cbv zeta.
    set (b' := b + a / 2 ^ 26). set (c' := c + b' / 2 ^ 26). set (d' := d + c' / 2 ^ 26).
    set (e' := e + d' / 2 ^ 26).
    replace (a + 2 ^ 26 * b + 2 ^ 52 * c + 2 ^ 78 * d + 2 ^ 104 * e) with
      (a mod 2 ^ 26 + e' / 2 ^ 26 * 5 + 2 ^ 26 * (b' mod 2 ^ 26) + 2 ^ 52 * (c' mod 2 ^ 26) +
       2 ^ 78 * (d' mod 2 ^ 26) + 2 ^ 104 * (e' mod 2 ^ 26) + (e' / 2 ^ 26) * P).
    { by rewrite Z.mod_add. }
    unfold P. subst b'.
    pose proof (Z.div_mod e' (2 ^ 26)). pose proof (Z.div_mod d' (2 ^ 26)).
    pose proof (Z.div_mod c' (2 ^ 26)). pose proof (Z.div_mod (b + a / 2 ^ 26) (2 ^ 26)).
    pose proof (Z.div_mod a (2 ^ 26)). subst e' d' c'. lia. }
  destruct r as [r0 r1 r2 r3 r4], h as [h0 h1 h2 h3 h4].
  unfold lval, mul_exact. cbn [l0 l1 l2 l3 l4].
  set (q := h1 * r4 + h2 * r3 + h3 * r2 + h4 * r1 + 2 ^ 26 * (h2 * r4 + h3 * r3 + h4 * r2) +
            2 ^ 52 * (h3 * r4 + h4 * r3) + 2 ^ 78 * (h4 * r4)).
  rewrite <- (Z.mod_add _ q P) by done. f_equal. subst q. unfold P. ring.
Qed.

(** ** The final reduction *)

(** Five limbs of 26 bits. *)
Definition digits_ok (h : limbs) : Prop :=
  0 <= l0 h < 2 ^ 26 /\ 0 <= l1 h < 2 ^ 26 /\ 0 <= l2 h < 2 ^ 26 /\
  0 <= l3 h < 2 ^ 26 /\ 0 <= l4 h < 2 ^ 26.

(** The first part of [donna_finish]: carries, in unbounded integers.  A carry out
    of the last limb means that the limbs above the first are nearly zero, so the
    second limb does not overflow although it is not carried again. *)
Lemma carry_pass a b c d e :
  0 <= a <= 2796960943 -> 0 <= b < 2 ^ 26 -> 0 <= c < 2 ^ 26 -> 0 <= d < 2 ^ 26 ->
  0 <= e < 2 ^ 26 ->
  let b' := b + a / 2 ^ 26 in
  let c' := c + b' / 2 ^ 26 in
  let d' := d + c' / 2 ^ 26 in
  let e' := e + d' / 2 ^ 26 in
  let a' := a mod 2 ^ 26 + e' / 2 ^ 26 * 5 in
  let b'' := b' mod 2 ^ 26 + a' / 2 ^ 26 in
  0 <= b' < 2 ^ 27 /\ 0 <= c' <= 2 ^ 26 /\ 0 <= d' <= 2 ^ 26 /\ 0 <= e' <= 2 ^ 26 /\
  0 <= a' <= 2 ^ 26 + 4 /\ 0 <= b'' < 2 ^ 26 /\
  a' mod 2 ^ 26 + 2 ^ 26 * b'' + 2 ^ 52 * (c' mod 2 ^ 26) + 2 ^ 78 * (d' mod 2 ^ 26) +
    2 ^ 104 * (e' mod 2 ^ 26) =
  a + 2 ^ 26 * b + 2 ^ 52 * c + 2 ^ 78 * d + 2 ^ 104 * e - e' / 2 ^ 26 * P.
Proof.
  intros Ha Hb Hc Hd He b' c' d' e' a' b''. unfold P.
  assert (0 <= b' < 2 ^ 27 /\ (2 ^ 26 <= b' -> b' < 2 ^ 26 + 42)) as [Hb' Hbs]
    by (subst b'; Z.div_mod_to_equations; lia).
  assert (0 <= c' <= 2 ^ 26 /\ (c' = 2 ^ 26 -> 2 ^ 26 <= b')) as [Hc' Hcs]
    by (subst c'; clearbody b'; Z.div_mod_to_equations; lia).
  assert (0 <= d' <= 2 ^ 26 /\ (d' = 2 ^ 26 -> c' = 2 ^ 26)) as [Hd' Hds]
    by (subst d'; clearbody b' c'; Z.div_mod_to_equations; lia).
  assert (0 <= e' <= 2 ^ 26 /\ (e' = 2 ^ 26 -> d' = 2 ^ 26)) as [He' Hes]
    by (subst e'; clearbody b' c' d'; Z.div_mod_to_equations; lia).
  assert (0 <= a' <= 2 ^ 26 + 4 /\ (2 ^ 26 <= a' -> e' = 2 ^ 26)) as [Ha' Has]
    by (subst a'; clearbody b' c' d' e'; Z.div_mod_to_equations; lia).
  assert (0 <= b'' < 2 ^ 26)
    by (subst b''; clearbody b' c' d' e' a'; Z.div_mod_to_equations; lia).
  split_and!; try lia.
  pose proof (Z.div_mod a (2 ^ 26)). pose proof (Z.div_mod b' (2 ^ 26)).
  pose proof (Z.div_mod c' (2 ^ 26)). pose proof (Z.div_mod d' (2 ^ 26)).
  pose proof (Z.div_mod e' (2 ^ 26)). pose proof (Z.div_mod a' (2 ^ 26)).
  subst b'' a' e' d' c' b'. lia.
Qed.

Lemma sel_zero h g : in_range 32 h -> Z.lor (Z.land h (Z.lxor 0 0xffffffff)) (Z.land g 0) = h.
Proof.
  intros Hh. rewrite Z.land_0_r, Z.lor_0_r. change (Z.lxor 0 0xffffffff) with (2 ^ 32 - 1).
  rewrite land_ones_mod by lia. by apply Z.mod_small.
Qed.

Lemma sel_ones h g :
  in_range 32 g ->
  Z.lor (Z.land h (Z.lxor 0xffffffff 0xffffffff)) (Z.land g 0xffffffff) = g.
Proof.
  intros Hg. change (Z.lxor 0xffffffff 0xffffffff) with 0. rewrite Z.land_0_r, Z.lor_0_l.
  change 0xffffffff with (2 ^ 32 - 1). rewrite land_ones_mod by lia. by apply Z.mod_small.
Qed.

Lemma le_bytes_app n m v : le_bytes (n + m) v = le_bytes n v ++ le_bytes m (v / 256 ^ Z.of_nat n).
Proof.
  revert v. induction n as [|n IH]; intros v.
  { change (256 ^ Z.of_nat 0) with 1. by rewrite Z.div_1_r. }
  cbn [Nat.add le_bytes app]. rewrite IH. do 3 f_equal.
  rewrite Nat2Z.inj_succ, Z.pow_succ_r, Z.div_div by lia. done.
Qed.

Lemma le_bytes_mod n v k : le_bytes n (v + 256 ^ Z.of_nat n * k) = le_bytes n v.
Proof.
  revert v. induction n as [|n IH]; intros v; [done|]. cbn [le_bytes].
  rewrite Nat2Z.inj_succ, Z.pow_succ_r, <- Z.mul_assoc by lia.
  rewrite (Z.mul_comm 256), Z.mod_add, Z.div_add by lia. by rewrite IH.
Qed.

(** The four words of the tag, with the carries between them. *)
Lemma store_words f0 f1 f2 f3 :
  U32TO8_LE f0 ++ U32TO8_LE (f1 + f0 / 2 ^ 32) ++
  U32TO8_LE (f2 + (f1 + f0 / 2 ^ 32) / 2 ^ 32) ++
  U32TO8_LE (f3 + (f2 + (f1 + f0 / 2 ^ 32) / 2 ^ 32) / 2 ^ 32) =
  le_bytes 16 (f0 + 2 ^ 32 * f1 + 2 ^ 64 * f2 + 2 ^ 96 * f3).
Proof.
  rewrite !U32TO8_LE_le. change 16%nat with (4 + (4 + (4 + 4)))%nat.
  rewrite !le_bytes_app. change (256 ^ Z.of_nat 4) with (2 ^ 32).
  f_equal.
  { rewrite <- (le_bytes_mod 4 f0 (f1 + 2 ^ 32 * f2 + 2 ^ 64 * f3)). f_equal.
    change (256 ^ Z.of_nat 4) with (2 ^ 32). lia. }
  replace ((f0 + 2 ^ 32 * f1 + 2 ^ 64 * f2 + 2 ^ 96 * f3) / 2 ^ 32) with
    (f1 + f0 / 2 ^ 32 + 2 ^ 32 * (f2 + 2 ^ 32 * f3)) by (Z.div_mod_to_equations; lia).
  set (g1 := f1 + f0 / 2 ^ 32). clearbody g1. f_equal.
  { by rewrite (le_bytes_mod 4). }
  replace ((g1 + 2 ^ 32 * (f2 + 2 ^ 32 * f3)) / 2 ^ 32) with
    (f2 + g1 / 2 ^ 32 + 2 ^ 32 * f3) by (Z.div_mod_to_equations; lia).
  set (g2 := f2 + g1 / 2 ^ 32). clearbody g2. f_equal.
  { by rewrite (le_bytes_mod 4). }
  f_equal. Z.div_mod_to_equations; lia.
Qed.

Lemma finish_carry_spec h :
  h_ok h -> digits_ok (finish_carry h) /\ lval (finish_carry h) mod P = lval h mod P.
Proof.
  destruct h as [a b c d e]. intros (Ha&Hb&Hc&Hd&He).
  unfold finish_carry, digits_ok, lval. cbn [l0 l1 l2 l3 l4] in *. cbv zeta.
  pose proof (carry_pass a b c d e Ha Hb Hc Hd He) as H. cbv zeta in H.
  rewrite !land26, !Z.shiftr_div_pow2 by lia.
  set (b' := b + a / 2 ^ 26) in *. rewrite (wrap_small 32 b') by lia.
  set (c' := c + b' / 2 ^ 26) in *. rewrite (wrap_small 32 c') by lia.
  set (d' := d + c' / 2 ^ 26) in *. rewrite (wrap_small 32 d') by lia.
  set (e' := e + d' / 2 ^ 26) in *. rewrite (wrap_small 32 e') by lia.
  assert (0 <= e' / 2 ^ 26 <= 1) by (clearbody e'; Z.div_mod_to_equations; lia).
  rewrite (wrap_small 32 (e' / 2 ^ 26 * 5)) by lia.
  set (a' := a mod 2 ^ 26 + e' / 2 ^ 26 * 5) in *. rewrite (wrap_small 32 a') by lia.
  set (b'' := b' mod 2 ^ 26 + a' / 2 ^ 26) in *. rewrite (wrap_small 32 b'') by lia.
  destruct H as (_&_&_&_&_&Hb''&Hv). split.
  - split_and!; done || (apply Z.mod_pos_bound; lia) || lia.
  - rewrite Hv. rewrite <- (Z.mod_add _ (e' / 2 ^ 26) P) by done. f_equal. lia.
Qed.

Lemma finish_select_spec h :
  digits_ok h -> digits_ok (finish_select h) /\ lval (finish_select h) = lval h mod P.
Proof.
  destruct h as [a b c d e]. intros (Ha&Hb&Hc&Hd&He).
  unfold finish_select, digits_ok, lval. cbn [l0 l1 l2 l3 l4] in *. cbv zeta.
  rewrite !land26, !Z.shiftr_div_pow2 by lia.
  rewrite (wrap_small 32 (a + 5)) by lia.
  assert (0 <= (a + 5) / 2 ^ 26 <= 1) by (Z.div_mod_to_equations; lia).
  set (g1 := b + (a + 5) / 2 ^ 26). rewrite (wrap_small 32 g1) by lia.
  assert (0 <= g1 / 2 ^ 26 <= 1) by (subst g1; clear -Hb H; Z.div_mod_to_equations; lia).
  set (g2 := c + g1 / 2 ^ 26). rewrite (wrap_small 32 g2) by lia.
  assert (0 <= g2 / 2 ^ 26 <= 1) by (subst g2; clearbody g1; Z.div_mod_to_equations; lia).
  set (g3 := d + g2 / 2 ^ 26). rewrite (wrap_small 32 g3) by lia.
  assert (0 <= g3 / 2 ^ 26 <= 1) by (subst g3; clearbody g1 g2; Z.div_mod_to_equations; lia).
  set (g4 := e + g3 / 2 ^ 26). rewrite (wrap_small 32 g4) by lia.
  change (Z.shiftl 1 26) with (2 ^ 26).
  set (V := a + 2 ^ 26 * b + 2 ^ 52 * c + 2 ^ 78 * d + 2 ^ 104 * e).
  assert (HV : V + 5 = (a + 5) mod 2 ^ 26 + 2 ^ 26 * (g1 mod 2 ^ 26) + 2 ^ 52 * (g2 mod 2 ^ 26) +
               2 ^ 78 * (g3 mod 2 ^ 26) + 2 ^ 104 * g4).
  { pose proof (Z.div_mod (a + 5) (2 ^ 26)). pose proof (Z.div_mod g1 (2 ^ 26)).
    pose proof (Z.div_mod g2 (2 ^ 26)). pose proof (Z.div_mod g3 (2 ^ 26)).
    subst V g4 g3 g2 g1. lia. }
  assert (Hr : forall x, in_range 32 (x mod 2 ^ 26) /\ 0 <= x mod 2 ^ 26 < 2 ^ 26).
  { intros x. pose proof (Z.mod_pos_bound x (2 ^ 26)). unfold in_range. lia. }
  assert (0 <= V < 2 ^ 130) by (subst V; lia).
  assert (0 <= g4 <= 2 ^ 26) as Hg4 by (subst g4; lia).
  clearbody g1 g2 g3 g4. destruct (Z.ltb_spec g4 (2 ^ 26)) as [Hlt|Hge].
  - assert (u32 (u32 (g4 - 2 ^ 26) / 2 ^ 31 - 1) = 0) as ->.
    { assert (u32 (g4 - 2 ^ 26) = g4 - 2 ^ 26 + 2 ^ 32) as ->.
      { unfold wrap. rewrite <- (Z.mod_add _ 1), Z.mod_small by lia. lia. }
      assert ((g4 - 2 ^ 26 + 2 ^ 32) / 2 ^ 31 = 1) as -> by (Z.div_mod_to_equations; lia). done. }
    rewrite !sel_zero by (unfold in_range; lia). split; [split_and!; lia|].
    fold V. symmetry. apply Z.mod_small. unfold P.
    pose proof (Hr (a + 5)). pose proof (Hr g1). pose proof (Hr g2). pose proof (Hr g3). lia.
  - assert (g4 = 2 ^ 26) as -> by lia.
    change (u32 (u32 (2 ^ 26 - 2 ^ 26) / 2 ^ 31 - 1)) with 0xffffffff.
    change (u32 (2 ^ 26 - 2 ^ 26)) with 0.
    rewrite !sel_ones by (apply Hr || done).
    pose proof (Hr (a + 5)). pose proof (Hr g1). pose proof (Hr g2). pose proof (Hr g3).
    split; [split_and!; lia|]. fold V.
    apply (Z.mod_unique_pos _ _ 1); unfold P; lia.
Qed.

Lemma finish_store_spec h pad :
  digits_ok h -> word_ok pad -> finish_store h pad = le_bytes 16 (lval h + wval pad).
Proof.
  destruct h as [a b c d e], pad as [p0 p1 p2 p3].
  intros (Ha&Hb&Hc&Hd&He) (H0&H1&H2&H3). unfold finish_store, lval, wval, in_range in *.
  cbn [l0 l1 l2 l3 l4 t0 t1 t2 t3] in *. cbv zeta.
  rewrite !Z.shiftr_div_pow2 by lia.
  assert (0 <= b / 2 ^ 6 < 2 ^ 20 /\ 0 <= c / 2 ^ 12 < 2 ^ 14 /\ 0 <= d / 2 ^ 18 < 2 ^ 8)
    by (Z.div_mod_to_equations; lia).
  rewrite !lor_pair by lia.
  change (32 - 26) with 6. change (32 - 20) with 12. change (32 - 14) with 18. change (32 - 8) with 24.
  assert (0 <= b mod 2 ^ 6 < 2 ^ 6 /\ 0 <= c mod 2 ^ 12 < 2 ^ 12 /\ 0 <= d mod 2 ^ 18 < 2 ^ 18 /\
          0 <= e mod 2 ^ 24 < 2 ^ 24) by (split_and!; apply Z.mod_pos_bound; lia).
  set (f0 := a + 2 ^ 26 * (b mod 2 ^ 6) + p0). set (f1 := b / 2 ^ 6 + 2 ^ 20 * (c mod 2 ^ 12) + p1).
  set (f2 := c / 2 ^ 12 + 2 ^ 14 * (d mod 2 ^ 18) + p2).
  set (f3 := d / 2 ^ 18 + 2 ^ 8 * (e mod 2 ^ 24) + p3).
  assert (0 <= f0 < 2 ^ 33 /\ 0 <= f1 < 2 ^ 33 /\ 0 <= f2 < 2 ^ 33 /\ 0 <= f3 < 2 ^ 33)
    by (subst f0 f1 f2 f3; lia).
  rewrite (wrap_small 64 f0), (wrap_small 64 f1), (wrap_small 64 f2), (wrap_small 64 f3) by lia.
  assert (0 <= f0 / 2 ^ 32 <= 1) by (clearbody f0; Z.div_mod_to_equations; lia).
  rewrite (wrap_small 64 (f1 + _)) by lia.
  assert (0 <= (f1 + f0 / 2 ^ 32) / 2 ^ 32 <= 2) by (clearbody f1 f0; Z.div_mod_to_equations; lia).
  rewrite (wrap_small 64 (f2 + _)) by lia.
  assert (0 <= (f2 + (f1 + f0 / 2 ^ 32) / 2 ^ 32) / 2 ^ 32 <= 2)
    by (set (g := (f1 + f0 / 2 ^ 32) / 2 ^ 32) in *; clearbody f2 g; Z.div_mod_to_equations; lia).
  rewrite (wrap_small 64 (f3 + _)) by lia. rewrite store_words.
  rewrite <- (le_bytes_mod 16 (f0 + _ + _ + _) (e / 2 ^ 24)). f_equal.
  change (256 ^ Z.of_nat 16) with (2 ^ 128).
  pose proof (Z.div_mod b (2 ^ 6)). pose proof (Z.div_mod c (2 ^ 12)).
  pose proof (Z.div_mod d (2 ^ 18)). pose proof (Z.div_mod e (2 ^ 24)).
  subst f0 f1 f2 f3. lia.
Qed.

Lemma donna_finish_spec h pad :
  h_ok h -> word_ok pad -> donna_finish h pad = le_bytes 16 (lval h mod P + wval pad).
Proof.
  intros Hh Hp. destruct (finish_carry_spec h Hh) as [Hc Hv].
  destruct (finish_select_spec _ Hc) as [Hs Hv'].
  unfold donna_finish. by rewrite finish_store_spec, Hv', Hv.
Qed.

(** ** The blocks *)

Lemma block_step r h t hibit acc :
  r_ok r -> h_ok h -> word_ok t -> hibit = 0 \/ hibit = 2 ^ 24 -> lval h mod P = acc mod P ->
  h_ok (donna_mul r (add_block hibit t h)) /\
  lval (donna_mul r (add_block hibit t h)) mod P =
    (acc + (wval t + 2 ^ 104 * hibit)) * lval r mod P.
Proof.
  intros Hr Hh Ht Hb Ha. destruct (add_block_spec hibit t h Hh Ht Hb) as [Hs Hv].
  destruct (donna_mul_exact r _ Hr Hs) as [-> Hok]. split; [done|].
  rewrite mul_value, Hv, <- Z.add_assoc.
  rewrite <- (Z.mul_mod_idemp_l (lval h + _)), <- (Z.mul_mod_idemp_l (acc + _)) by done.
  rewrite <- (Z.add_mod_idemp_l (lval h)), Ha, Z.add_mod_idemp_l by done. done.
Qed.

Lemma full_block m :
  Bytes m -> 16 <= zlen m ->
  word_ok (load (ztake 16 m)) /\
  wval (load (ztake 16 m)) + 2 ^ 104 * Z.shiftl 1 24 = le_value (ztake 16 m ++ [1]).
Proof.
  intros HB Hl. destruct (load_spec (ztake 16 m)) as [Hw Hv]; [auto with ssh|rewrite zlen_ztake; lia|].
  split; [done|]. rewrite Hv, ztake_ztake, le_value_app, zlen_ztake by lia.
  change (256 ^ 16) with (2 ^ 128). change (Z.min 16 16) with 16. cbn [le_value].
  change (Z.shiftl 1 24) with (2 ^ 24). lia.
Qed.

Lemma last_block m :
  Bytes m -> zlen m < 16 ->
  word_ok (load (m ++ [1] ++ zrep (15 - zlen m) 0)) /\
  wval (load (m ++ [1] ++ zrep (15 - zlen m) 0)) = le_value (m ++ [1]).
Proof.
  intros HB Hl. pose proof (zlen_nonneg m).
  assert (Hm : zlen (m ++ [1] ++ zrep (15 - zlen m) 0) = 16) by zl.
  destruct (load_spec (m ++ [1] ++ zrep (15 - zlen m) 0)) as [Hw Hv]; [|lia|].
  { apply Forall_app. split; [done|]. constructor; [done|]. by apply Bytes_zrep. }
  split; [done|]. rewrite Hv, ztake_ge by lia. rewrite app_assoc, le_value_app.
  assert (forall n, le_value (zrep n 0) = 0) as ->; [|lia].
  intros n. unfold zrep. induction (Z.to_nat n) as [|k IH]; [done|]. simpl. by rewrite IH.
Qed.

Lemma horner_nil n r acc : horner n r acc [] = acc.
Proof. by destruct n. Qed.

Lemma horner_small n r acc m :
  zlen m < 16 -> m <> [] -> horner (S n) r acc m = (acc + le_value (m ++ [1])) * r mod P.
Proof.
  intros Hl Hm. cbn [horner]. destruct m as [|x m]; [done|].
  rewrite ztake_ge, zdrop_ge by lia. by rewrite horner_nil.
Qed.

Lemma horner_big n r acc m :
  16 <= zlen m ->
  horner (S n) r acc m = horner n r ((acc + le_value (ztake 16 m ++ [1])) * r mod P) (zdrop 16 m).
Proof. intros Hl. cbn [horner]. destruct m as [|x m]; [zl|done]. Qed.

(** The blocks compute Horner's rule. *)
Lemma donna_blocks fuel r h m acc :
  r_ok r -> h_ok h -> Bytes m -> (length m <= fuel)%nat -> lval h mod P = acc mod P ->
  let '(h', m') := donna_16bytes fuel r h m in
  zlen m' < 16 /\ h_ok (donna_atmost15bytes r h' m') /\
  lval (donna_atmost15bytes r h' m') mod P = horner fuel (lval r) acc m mod P.
Proof.
  intros Hr. revert h m acc. induction fuel as [|fuel IH]; intros h m acc Hh HB Hf Ha.
  { assert (m = []) as -> by (destruct m; [done|simpl in *; lia]). simpl. done. }
  cbn [donna_16bytes]. destruct (Z.ltb_spec (zlen m) 16) as [Hlt|Hge].
  - split; [done|]. unfold donna_atmost15bytes. destruct (Z.eqb_spec (zlen m) 0) as [Hz|Hz].
    + apply zlen_0_nil in Hz as ->. by rewrite horner_nil.
    + destruct (last_block m HB Hlt) as [Hw Hv].
      destruct (block_step r h _ 0 acc Hr Hh Hw (or_introl eq_refl) Ha) as [Hok Hval].
      split; [done|]. rewrite Hval, Hv, horner_small, Z.mod_mod by (done || by intros ->).
      do 2 f_equal. lia.
  - destruct (full_block m HB Hge) as [Hw Hv].
    destruct (block_step r h _ (Z.shiftl 1 24) acc Hr Hh Hw (or_intror eq_refl) Ha) as [Hok Hval].
    rewrite horner_big by done. rewrite Hv in Hval. apply IH; [done|auto with ssh| |].
    + unfold zlen, zdrop in *. rewrite length_drop. lia.
    + by rewrite Z.mod_mod.
Qed.

(** The key of a call. *)
Lemma key_spec key :
  Bytes key -> zlen key = 32 ->
  let r := clamp_key (load key) in
  r_ok r /\ lval r = clamp (le_value (ztake 16 key)) /\
  word_ok (load (zdrop 16 key)) /\
  wval (load (zdrop 16 key)) = le_value (ztake 16 (zdrop 16 key)).
Proof.
  intros HB Hl. destruct (load_spec key HB) as [Hw Hv]; [lia|].
  destruct (clamp_key_spec _ Hw) as [Hr Hrv].
  destruct (load_spec (zdrop 16 key)) as [Hw' Hv']; [auto with ssh|zl|].
  rewrite <- Hv. done.
Qed.

Lemma horner_range n r acc m : 0 <= acc < P -> 0 <= horner n r acc m < P.
Proof.
  revert acc m. induction n as [|n IH]; intros acc m Ha; [done|]. cbn [horner].
  destruct m; [done|]. apply IH. by apply Z.mod_pos_bound.
Qed.

(** [poly1305_auth] against its specification. *)
Lemma poly1305_eq m key :
  Bytes m -> Bytes key -> zlen key = 32 -> poly1305_auth m key = poly1305 m key.
Proof.
  intros HBm HBk Hl. destruct (key_spec key HBk Hl) as (Hr&Hrv&Hp&Hpv).
  unfold poly1305_auth, poly1305.
  pose proof (donna_blocks (length m) _ (mk_limbs 0 0 0 0 0) m 0 Hr) as Hd.
  destruct (donna_16bytes _ _ _ _) as [h m'].
  destruct Hd as (_&Hh&Hv); [|done|done|done|]; [unfold h_ok; simpl; lia|].
  rewrite donna_finish_spec, Hv, Hrv, Hpv by done. do 2 f_equal. apply Z.mod_small.
  apply horner_range. done.
Qed.

(** ** Theorems *)

(** C14. For every message and every key of 32 bytes [poly1305_auth] computes the
    Poly1305 tag of RFC 7539: the polynomial of the blocks evaluated at the
    clamped first half of the key modulo 2^130 - 5, plus the second half of
    the key, modulo 2^128. *)
Theorem poly1305_auth_correct m key :
  Bytes m -> Bytes key -> zlen key = 32 -> poly1305_auth m key = poly1305 m key.
Proof. apply poly1305_eq. Qed.

Lemma poly1305_auth_correct_witness :
  zlen rfc_msg = 34 /\ poly1305_auth rfc_msg rfc_key = poly1305 rfc_msg rfc_key.
Proof.
  split; [reflexivity|]. apply poly1305_auth_correct; [| |reflexivity].
  - unfold rfc_msg. vm_compute. repeat (apply Forall_cons; split; [vm_compute; split; congruence|]).
    constructor.
  - unfold rfc_key. repeat (apply Forall_cons; split; [vm_compute; split; congruence|]). constructor.
Defined.

(** C28. No intermediate result of the multiplication is cut off: after any
    number of full blocks of any message, under any key, adding the next
    block and multiplying give, in 32 and 64-bit arithmetic, the limbs that
    unbounded integers give, and the accumulator stays below its bounds (the
    first limb may exceed 26 bits, the carry of the second product needs all
    of its 32). *)
Theorem poly1305_no_overflow fuel m key block rest h m' :
  Bytes m -> Bytes key -> zlen key = 32 ->
  donna_16bytes fuel (clamp_key (load key)) (mk_limbs 0 0 0 0 0) m = (h, m') ->
  Bytes (block ++ rest) -> zlen block = 16 ->
  let r := clamp_key (load key) in
  let s := add_block (Z.shiftl 1 24) (load block) h in
  h_ok h /\ sum_ok s /\
  lval s = lval h + le_value block + 2 ^ 128 /\
  donna_mul r s = carry_exact (mul_exact r s) /\
  l1 (mul_exact r s) + l0 (mul_exact r s) / 2 ^ 26 < 2 ^ 58.
Proof.
  intros HBm HBk Hl He HBb Hlb r s. destruct (key_spec key HBk Hl) as (Hr&_).
  assert (Hh : h_ok h).
  { assert (H0 : h_ok (mk_limbs 0 0 0 0 0)) by (unfold h_ok; simpl; lia).
    clear HBb Hlb. revert m He HBm H0. generalize (mk_limbs 0 0 0 0 0).
    induction fuel as [|fuel IH]; cbn [donna_16bytes]; intros h0 m He HBm H0;
      [by injection He as <- <-|].
    destruct (Z.ltb_spec (zlen m) 16) as [|Hge]; [by injection He as <- <-|].
    destruct (full_block m HBm Hge) as [Hw _]. eapply IH; [exact He|auto with ssh|].
    by destruct (block_step _ h0 _ (Z.shiftl 1 24) (lval h0) Hr H0 Hw (or_intror eq_refl) eq_refl). }
  apply Forall_app in HBb as [HBb _].
  destruct (load_spec block HBb) as [Hw Hv]; [lia|]. rewrite ztake_ge in Hv by lia.
  destruct (add_block_spec (Z.shiftl 1 24) _ h Hh Hw (or_intror eq_refl)) as [Hs Hsv].
  destruct (mul_t_spec r s Hr Hs) as [_ (T0&T1&_)].
  destruct (donna_mul_exact r s Hr Hs) as [Hm _].
  split_and!; [done|done| |done|].
  - unfold s. rewrite Hsv, Hv. change (Z.shiftl 1 24) with (2 ^ 24). lia.
  - clear -T0 T1. set (x := l0 _) in *. set (y := l1 _) in *. clearbody x y.
    Z.div_mod_to_equations. lia.
Qed.

Lemma poly1305_no_overflow_witness :
  let r := clamp_key (load rfc_key) in
  let h := fst (donna_16bytes 2 r (mk_limbs 0 0 0 0 0) rfc_msg) in
  let s := add_block (Z.shiftl 1 24) (load (zrep 16 255)) h in
  donna_mul r s = carry_exact (mul_exact r s).
Proof.
  apply (poly1305_no_overflow 2 rfc_msg rfc_key (zrep 16 255) []
           (fst (donna_16bytes 2 (clamp_key (load rfc_key)) (mk_limbs 0 0 0 0 0) rfc_msg))
           (snd (donna_16bytes 2 (clamp_key (load rfc_key)) (mk_limbs 0 0 0 0 0) rfc_msg))).
  - vm_compute. repeat (apply Forall_cons; split; [vm_compute; split; congruence|]). constructor.
  - vm_compute. repeat (apply Forall_cons; split; [vm_compute; split; congruence|]). constructor.
  - reflexivity.
  - reflexivity.
  - rewrite app_nil_r. by apply Bytes_zrep.
  - reflexivity.
Defined.
