(* ===== verification/Chacha.v ===== *)
(** chacha.c: the ChaCha20 stream cipher.

    The sixteen words of the context and of the working state are a list; the
    j's of the code are the input words, the x's the working state.  The
    64-byte buffer [tmp] of a last short block holds unspecified bytes past
    the message: it is a parameter, and the properties show that its contents
    do not matter. *)

From S2P Require Import Prelude Wire.

(** ** Definitions *)

Definition ROTL32 (v n : Z) : Z := Z.lor (u32 (Z.shiftl v n)) (Z.shiftr v (32 - n)).
Definition XOR (v w : Z) : Z := Z.lxor v w.
Definition PLUS (v w : Z) : Z := u32 (v + w).
Definition PLUSONE (v : Z) : Z := PLUS v 1.

(** Word [i] of a state. *)
Definition w_at (x : list Z) (i : nat) : Z := nth i x 0.

(** [a = PLUS(a,b)] and [d = ROTATE(XOR(d,a),n)]. *)
Definition add_into (a b : nat) (x : list Z) : list Z := <[a := PLUS (w_at x a) (w_at x b)]> x.
Definition xor_rotate (d a : nat) (n : Z) (x : list Z) : list Z :=
  <[d := ROTL32 (XOR (w_at x d) (w_at x a)) n]> x.

Definition QUARTERROUND (a b c d : nat) (x : list Z) : list Z :=
  let x := xor_rotate d a 16 (add_into a b x) in
  let x := xor_rotate b c 12 (add_into c d x) in
  let x := xor_rotate d a 8 (add_into a b x) in
  xor_rotate b c 7 (add_into c d x).

Definition sigma : bytes := cstr "expand 32-byte k".
Definition tau : bytes := cstr "expand 16-byte k".

(** [struct chacha_ctx]: [input[16]]. *)
Abbreviation chacha_ctx := (list Z).

Definition set_words (ws : list (nat * Z)) (x : chacha_ctx) : chacha_ctx :=
  fold_left (fun x '(i, v) => <[i := v]> x) ws x.

Definition chacha_keysetup (x : chacha_ctx) (k : bytes) (kbits : Z) : chacha_ctx :=
  let ld := fun p i => U8TO32_LE (zdrop i p) in
  let x := set_words [(4%nat, ld k 0); (5%nat, ld k 4); (6%nat, ld k 8); (7%nat, ld k 12)] x in
  let '(k, constants) := if kbits =? 256 then (zdrop 16 k, sigma) else (k, tau) in
  set_words
    [(8%nat, ld k 0); (9%nat, ld k 4); (10%nat, ld k 8); (11%nat, ld k 12);
     (0%nat, ld constants 0); (1%nat, ld constants 4); (2%nat, ld constants 8);
     (3%nat, ld constants 12)] x.

Definition chacha_ivsetup (x : chacha_ctx) (iv : bytes) (counter : option bytes) : chacha_ctx :=
  set_words
    [(12%nat, match counter with None => 0 | Some c => U8TO32_LE c end);
     (13%nat, match counter with None => 0 | Some c => U8TO32_LE (zdrop 4 c) end);
     (14%nat, U8TO32_LE iv); (15%nat, U8TO32_LE (zdrop 4 iv))] x.

(** Two rounds. *)
Definition doubleround (x : list Z) : list Z :=
  QUARTERROUND 3 4 9 14 (QUARTERROUND 2 7 8 13 (QUARTERROUND 1 6 11 12 (QUARTERROUND 0 5 10 15
  (QUARTERROUND 3 7 11 15 (QUARTERROUND 2 6 10 14 (QUARTERROUND 1 5 9 13
  (QUARTERROUND 0 4 8 12 x))))))).

Definition rounds (n : nat) (x : list Z) : list Z := Nat.iter n doubleround x.

(** The key stream words of a block: the loop of 20 rounds and the additions. *)
Definition block (j : chacha_ctx) : list Z := zip_with PLUS (rounds 10 j) j.

#[global] Arguments block j : simpl never.

(** XOR of the message with the key stream, word by word. *)
Definition crypt_block (j : chacha_ctx) (m : bytes) : bytes :=
  concat (imap (fun i x => U32TO8_LE (XOR x (U8TO32_LE (zdrop (4 * Z.of_nat i) m)))) (block j)).

Definition next_counter (j : chacha_ctx) : chacha_ctx :=
  let j := <[12%nat := PLUSONE (w_at j 12)]> j in
  if w_at j 12 =? 0 then <[13%nat := PLUSONE (w_at j 13)]> j else j.

(** The [for (;;)] loop: the bytes written and the words left in the context. *)
Fixpoint encrypt_loop (fuel : nat) (tmp : bytes) (j : chacha_ctx) (m : bytes) : bytes * chacha_ctx :=
  match fuel with
  | O => ([], j)
  | S fuel =>
      let bytes := zlen m in
      if bytes <? 64 then
        let c := crypt_block j (m ++ zdrop bytes tmp) in
        (ztake bytes c, next_counter j)
      else
        let c := crypt_block j m in
        if bytes <=? 64 then (c, next_counter j)
        else
          let '(c', j') := encrypt_loop fuel tmp (next_counter j) (zdrop 64 m) in
          (c ++ c', j')
  end.

(** [m] is the message of [bytes] bytes.  A loop that runs out of fuel is not
    reached: each pass takes 64 bytes. *)
Definition chacha_encrypt_bytes (tmp : bytes) (x : chacha_ctx) (m : bytes) : bytes * chacha_ctx :=
  if zlen m =? 0 then ([], x)
  else encrypt_loop (length m) tmp x m.

(** ** Specification: a key stream with a 64-bit block counter *)

Definition counter (x : chacha_ctx) : Z := w_at x 12 + 2 ^ 32 * w_at x 13.
Definition with_counter (n : Z) (x : chacha_ctx) : chacha_ctx :=
  <[13%nat := n / 2 ^ 32 mod 2 ^ 32]> (<[12%nat := n mod 2 ^ 32]> x).

(** The bytes of block [n]. *)
Definition stream_block (x : chacha_ctx) (n : Z) : bytes :=
  concat (le_bytes 4 <$> block (with_counter n x)).
(** [n] blocks of key stream, from the counter of the context on. *)
Definition keystream (x : chacha_ctx) (n : nat) : bytes :=
  concat ((fun i => stream_block x (counter x + Z.of_nat i)) <$> seq 0 n).
Definition blocks_of (len : Z) : Z := (len + 63) / 64.
Definition xor_bytes : bytes -> bytes -> bytes := zip_with Z.lxor.

(** The test vector of RFC 7539 section 2.3.2, with its 96-bit nonce spread over
    the counter and the nonce of this variant. *)
Definition rfc_ctx : chacha_ctx :=
  [0x61707865; 0x3320646e; 0x79622d32; 0x6b206574; 0x03020100; 0x07060504; 0x0b0a0908; 0x0f0e0d0c;
   0x13121110; 0x17161514; 0x1b1a1918; 0x1f1e1d1c; 0x00000001; 0x09000000; 0x4a000000; 0x00000000].
Example block_rfc :
  block rfc_ctx =
  [0xe4e7f110; 0x15593bd1; 0x1fdd0f50; 0xc47120a3; 0xc7f4d1c7; 0x0368c033; 0x9aaa2204; 0x4e6cd4c3;
   0x466482d2; 0x09aa9f07; 0x05d7c214; 0xa2028bd9; 0xd19c12b5; 0xb94e16de; 0xe883d0cb; 0x4e3c50a2].
Proof. vm_compute. reflexivity. Qed.
Example keysetup_rfc :
  chacha_ivsetup (chacha_keysetup (zrep 16 0) (seqZ 0 32) 256) [0; 0; 0; 0x4a; 0; 0; 0; 0]
    (Some [1; 0; 0; 0; 0; 0; 0; 9]) = rfc_ctx.
Proof. vm_compute. reflexivity. Qed.

(** * Properties *)

Definition ctx_ok (x : chacha_ctx) : Prop := length x = 16%nat /\ Forall (in_range 32) x.

(** ** States stay states *)

Lemma w_at_range x i : Forall (in_range 32) x -> in_range 32 (w_at x i).
Proof.
  intros Hx. unfold w_at. rewrite nth_lookup. destruct (x !! i) as [v|] eqn:E; simpl.
  - by eapply Forall_lookup_1.
  - unfold in_range; lia.
Qed.

Lemma ROTL32_range v n : in_range 32 v -> 0 <= n <= 32 -> in_range 32 (ROTL32 v n).
Proof.
  unfold in_range. intros. unfold ROTL32. apply lor_range; [lia|apply wrap_range; lia|].
  unfold in_range. rewrite Z.shiftr_div_pow2 by lia. split; [apply Z.div_pos; lia|].
  apply Z.div_lt_upper_bound; [lia|].
  assert (1 <= 2 ^ (32 - n)) by (apply (Z.pow_le_mono_r 2 0); lia). nia.
Qed.

Lemma add_into_ok a b x : ctx_ok x -> ctx_ok (add_into a b x).
Proof.
  intros [Hl Hx]. split; [by unfold add_into; rewrite length_insert|].
  apply Forall_insert; [done|]. apply wrap_range. lia.
Qed.

Lemma xor_rotate_ok d a n x : 0 <= n <= 32 -> ctx_ok x -> ctx_ok (xor_rotate d a n x).
Proof.
  intros Hn [Hl Hx]. split; [by unfold xor_rotate; rewrite length_insert|].
  apply Forall_insert; [done|]. apply ROTL32_range; [|done].
  apply lxor_range; [lia|by apply w_at_range..].
Qed.

Lemma QUARTERROUND_ok a b c d x : ctx_ok x -> ctx_ok (QUARTERROUND a b c d x).
Proof.
  intros Hx. unfold QUARTERROUND.
  do 4 (apply xor_rotate_ok; [lia|]; apply add_into_ok). exact Hx.
Qed.

Lemma doubleround_ok x : ctx_ok x -> ctx_ok (doubleround x).
Proof. intros Hx. unfold doubleround. do 8 (apply QUARTERROUND_ok). exact Hx. Qed.

Lemma rounds_ok n x : ctx_ok x -> ctx_ok (rounds n x).
Proof. intros Hx. unfold rounds. by apply Nat.iter_invariant; [apply doubleround_ok|]. Qed.

Lemma block_ok j : ctx_ok j -> ctx_ok (block j).
Proof.
  intros Hj. destruct (rounds_ok 10 j Hj) as [Hl _], Hj as [Hl' Hj]. unfold block. split.
  - rewrite length_zip_with. lia.
  - apply Forall_zip_with_fst with (P := fun _ => True); [by apply Forall_true|].
    apply Forall_true. intros. apply wrap_range. lia.
Qed.

(** ** XOR, word by word and byte by byte *)

Lemma le_bytes_lxor n x y :
  xor_bytes (le_bytes n x) (le_bytes n y) = le_bytes n (Z.lxor x y).
Proof.
  revert x y. induction n as [|n IH]; intros x y; [done|]. cbn [le_bytes].
  change (xor_bytes (?a :: ?l) (?b :: ?k)) with (Z.lxor a b :: xor_bytes l k).
  change (Z.lxor (x mod 256) (y mod 256) :: xor_bytes (le_bytes n (x / 256)) (le_bytes n (y / 256)) =
          Z.lxor x y mod 256 :: le_bytes n (Z.lxor x y / 256)).
  rewrite IH. change 256 with (2 ^ 8). rewrite <- !Z.shiftr_div_pow2 by lia.
  rewrite Z.shiftr_lxor. f_equal.
  apply Z.bits_inj'. intros i Hi. destruct (decide (i < 8)).
  - by rewrite Z.lxor_spec, !Z.mod_pow2_bits_low, Z.lxor_spec by lia.
  - by rewrite Z.lxor_spec, !Z.mod_pow2_bits_high by lia.
Qed.

Lemma xor_bytes_app a b m :
  zlen a <= zlen m -> xor_bytes (a ++ b) m = xor_bytes a (ztake (zlen a) m) ++ xor_bytes b (zdrop (zlen a) m).
Proof.
  intros Hl. rewrite <- (ztake_zdrop (zlen a) m) at 1. unfold xor_bytes.
  apply zip_with_app. unfold ztake, zlen in *. rewrite length_take. lia.
Qed.

Lemma xor_word x m :
  Bytes m -> 4 <= zlen m ->
  U32TO8_LE (XOR x (U8TO32_LE m)) = xor_bytes (le_bytes 4 x) (ztake 4 m).
Proof.
  intros HB Hl. rewrite U32TO8_LE_le, U8TO32_LE_le by done. unfold XOR.
  rewrite <- le_bytes_lxor. f_equal.
  assert (length (ztake 4 m) = 4%nat) as <- by (unfold ztake, zlen in *; rewrite length_take; lia).
  apply le_bytes_value. auto with ssh.
Qed.

Lemma xor_words ws m k :
  Bytes m -> 4 * zlen ws <= zlen (zdrop (4 * Z.of_nat k) m) ->
  concat (imap (fun i x => U32TO8_LE (XOR x (U8TO32_LE (zdrop (4 * Z.of_nat (k + i)) m)))) ws) =
  xor_bytes (concat (le_bytes 4 <$> ws)) (zdrop (4 * Z.of_nat k) m).
Proof.
  revert k. induction ws as [|x ws IH]; intros k HB Hl; [done|].
  rewrite imap_cons. cbn [concat fmap list_fmap].
  assert (4 <= zlen (zdrop (4 * Z.of_nat k) m)) by zl.
  assert (Hle : zlen (le_bytes 4 x) = 4) by (unfold zlen; by rewrite le_bytes_length).
  rewrite xor_bytes_app, Hle by lia. f_equal.
  - rewrite Nat.add_0_r. apply xor_word; [auto with ssh|done].
  - rewrite zdrop_zdrop by lia. replace (4 * Z.of_nat k + 4) with (4 * Z.of_nat (S k)) by lia.
    rewrite <- IH; [|done|].
    + f_equal. apply imap_ext. intros i y _. simpl. by rewrite Nat.add_succ_r.
    + replace (4 * Z.of_nat (S k)) with (4 * Z.of_nat k + 4) by lia.
      rewrite <- zdrop_zdrop by lia. zl.
Qed.

Lemma zip_with_take_r {A B C} (f : A -> B -> C) l k n :
  (length l <= n)%nat -> zip_with f l (take n k) = zip_with f l k.
Proof.
  revert k n. induction l as [|x l IH]; intros [|y k] [|n] Hl; simpl in *; try done; try lia.
  f_equal. apply IH. lia.
Qed.

Lemma crypt_block_xor j m :
  ctx_ok j -> Bytes m -> 64 <= zlen m ->
  crypt_block j m = xor_bytes (concat (le_bytes 4 <$> block j)) m.
Proof.
  intros Hj HB Hl. destruct (block_ok j Hj) as [Hb _].
  assert (zlen (block j) = 16) as Hz by (unfold zlen; lia).
  apply (xor_words (block j) m 0 HB). change (4 * Z.of_nat 0) with 0. rewrite zdrop_0. lia.
Qed.

(** ** The block counter *)

(** Reading the counter words back. *)
Lemma w_at_insert i v x : (i < length x)%nat -> w_at (<[i := v]> x) i = v.
Proof. intros. unfold w_at. by rewrite nth_lookup, list_lookup_insert_eq by done. Qed.
Lemma w_at_insert_ne i k v x : i <> k -> w_at (<[k := v]> x) i = w_at x i.
Proof. intros. unfold w_at. by rewrite !nth_lookup, list_lookup_insert_ne by done. Qed.

Lemma with_counter_ok n x : ctx_ok x -> ctx_ok (with_counter n x).
Proof.
  intros [Hl Hx]. split; [by unfold with_counter; rewrite !length_insert|].
  apply Forall_insert; [apply Forall_insert; [done|]|]; apply Z.mod_pos_bound; lia.
Qed.

Lemma counter_range x : ctx_ok x -> 0 <= counter x < 2 ^ 64.
Proof.
  intros [_ Hx]. pose proof (w_at_range x 12 Hx). pose proof (w_at_range x 13 Hx).
  unfold counter, in_range in *. lia.
Qed.

Lemma counter_with_counter n x : ctx_ok x -> counter (with_counter n x) = n mod 2 ^ 64.
Proof.
  intros [Hl _]. unfold counter, with_counter.
  rewrite w_at_insert_ne by done. rewrite !w_at_insert by (rewrite ?length_insert; lia).
  change (2 ^ 64) with (2 ^ 32 * 2 ^ 32). by rewrite Z.rem_mul_r by lia.
Qed.

Lemma with_counter_twice n k x : with_counter n (with_counter k x) = with_counter n x.
Proof.
  unfold with_counter. rewrite (list_insert_insert_ne _ 12 13) by done.
  by rewrite list_insert_insert_eq, list_insert_insert_eq.
Qed.

Lemma with_counter_mod n x : with_counter (n mod 2 ^ 64) x = with_counter n x.
Proof.
  unfold with_counter. change (2 ^ 64) with (2 ^ 32 * 2 ^ 32). rewrite Z.rem_mul_r by lia.
  pose proof (Z.mod_pos_bound n (2 ^ 32)). pose proof (Z.mod_pos_bound (n / 2 ^ 32) (2 ^ 32)).
  set (a := n mod 2 ^ 32) in *. set (b := n / 2 ^ 32 mod 2 ^ 32) in *. clearbody a b.
  do 2 f_equal; [|f_equal]; Z.div_mod_to_equations; lia.
Qed.

Lemma with_counter_id x : ctx_ok x -> with_counter (counter x) x = x.
Proof.
  intros [Hl Hx]. pose proof (w_at_range x 12 Hx). pose proof (w_at_range x 13 Hx).
  unfold in_range in *. unfold with_counter, counter.
  replace ((w_at x 12 + 2 ^ 32 * w_at x 13) mod 2 ^ 32) with (w_at x 12)
    by (Z.div_mod_to_equations; lia).
  replace ((w_at x 12 + 2 ^ 32 * w_at x 13) / 2 ^ 32 mod 2 ^ 32) with (w_at x 13)
    by (Z.div_mod_to_equations; lia).
  assert (forall i, (i < 16)%nat -> <[i := w_at x i]> x = x) as Hid.
  { intros i Hi. apply list_insert_id. unfold w_at. rewrite nth_lookup.
    destruct (lookup_lt_is_Some_2 x i) as [v ->]; [lia|done]. }
  rewrite (Hid 12%nat) by lia. apply Hid. lia.
Qed.

(** The two words of the counter count as one number. *)
Lemma next_counter_spec j : ctx_ok j -> next_counter j = with_counter (counter j + 1) j.
Proof.
  intros [Hl Hx]. pose proof (w_at_range j 12 Hx) as H12. pose proof (w_at_range j 13 Hx) as H13.
  unfold in_range in *. unfold next_counter. rewrite w_at_insert by lia.
  rewrite w_at_insert_ne by done. unfold with_counter, counter, PLUSONE, PLUS, wrap.
  destruct (Z.eqb_spec ((w_at j 12 + 1) mod 2 ^ 32) 0) as [Hz|Hz].
  - do 2 f_equal; Z.div_mod_to_equations; lia.
  - replace ((w_at j 12 + 2 ^ 32 * w_at j 13 + 1) / 2 ^ 32 mod 2 ^ 32) with (w_at j 13)
      by (Z.div_mod_to_equations; lia).
    rewrite (list_insert_id _ 13).
    + f_equal. Z.div_mod_to_equations; lia.
    + rewrite list_lookup_insert_ne by done. unfold w_at. rewrite nth_lookup.
      destruct (lookup_lt_is_Some_2 j 13) as [v ->]; [lia|done].
Qed.

(** ** The key stream *)

Lemma stream_block_zlen x n : ctx_ok x -> zlen (stream_block x n) = 64.
Proof.
  intros Hx. unfold stream_block. destruct (block_ok _ (with_counter_ok n x Hx)) as [Hl _].
  assert (forall ws, zlen (concat (le_bytes 4 <$> ws)) = 4 * zlen ws) as ->.
  { induction ws as [|w ws IH]; [done|]. rewrite zlen_cons. cbn [fmap list_fmap concat].
    rewrite zlen_app, IH. unfold zlen at 1. rewrite le_bytes_length. lia. }
  unfold zlen. rewrite Hl. done.
Qed.

Lemma stream_block_counter x n k :
  stream_block (with_counter k x) n = stream_block x n.
Proof. unfold stream_block. by rewrite with_counter_twice. Qed.

Lemma stream_block_mod x n : stream_block x (n mod 2 ^ 64) = stream_block x n.
Proof. unfold stream_block. by rewrite with_counter_mod. Qed.

Lemma keystream_S x n :
  ctx_ok x ->
  keystream x (S n) = stream_block x (counter x) ++ keystream (next_counter x) n.
Proof.
  intros Hx. unfold keystream. rewrite <- cons_seq, fmap_cons. cbn [concat].
  rewrite Z.add_0_r. f_equal. rewrite <- fmap_S_seq, <- list_fmap_compose. f_equal.
  apply list_fmap_ext. intros i k _. unfold compose.
  rewrite next_counter_spec, counter_with_counter, stream_block_counter by done.
  rewrite <- stream_block_mod, <- (stream_block_mod _ (_ mod _ + _)).
  rewrite Z.add_mod_idemp_l by done. do 2 f_equal. lia.
Qed.

Lemma crypt_block_stream j m :
  ctx_ok j -> Bytes m -> 64 <= zlen m -> crypt_block j m = xor_bytes (stream_block j (counter j)) m.
Proof.
  intros Hj HB Hl. rewrite crypt_block_xor by done. unfold stream_block.
  by rewrite with_counter_id.
Qed.

Definition nblocks (m : bytes) : nat := Z.to_nat (blocks_of (zlen m)).

Lemma nblocks_small m : 0 < zlen m <= 64 -> nblocks m = 1%nat.
Proof.
  intros. unfold nblocks, blocks_of. replace ((zlen m + 63) / 64) with 1; [done|].
  Z.div_mod_to_equations; lia.
Qed.

Lemma nblocks_big m : 64 < zlen m -> nblocks m = S (nblocks (zdrop 64 m)).
Proof.
  intros. unfold nblocks, blocks_of. rewrite zlen_zdrop by lia.
  Z.div_mod_to_equations. lia.
Qed.

Lemma xor_bytes_ztake s m n :
  zlen m = n -> forall t, ztake n (xor_bytes s (m ++ t)) = xor_bytes s m.
Proof.
  intros <- t. unfold xor_bytes, ztake, zlen. rewrite Nat2Z.id.
  revert s. induction m as [|x m IH]; intros [|y s]; simpl; try done. by rewrite IH.
Qed.

Lemma xor_bytes_ztake_r s m : xor_bytes s (ztake (zlen s) m) = xor_bytes s m.
Proof.
  unfold xor_bytes, ztake, zlen. rewrite Nat2Z.id. by apply zip_with_take_r.
Qed.

Lemma encrypt_loop_spec fuel tmp j m :
  ctx_ok j -> Bytes m -> Bytes tmp -> 64 <= zlen tmp -> 0 < zlen m -> (length m <= fuel)%nat ->
  encrypt_loop fuel tmp j m =
  (xor_bytes (keystream j (nblocks m)) m, with_counter (counter j + Z.of_nat (nblocks m)) j).
Proof.
  revert j m. induction fuel as [|fuel IH]; intros j m Hj HB HBt Ht Hm Hf; [unfold zlen in *; lia|].
  cbn [encrypt_loop]. destruct (Z.ltb_spec (zlen m) 64) as [Hlt|Hge].
  - rewrite nblocks_small, keystream_S, next_counter_spec by (done || lia).
    change (keystream _ 0) with (@nil Z). rewrite app_nil_r.
    rewrite crypt_block_stream; [|done|apply Forall_app; auto with ssh|zl].
    by rewrite xor_bytes_ztake.
  - rewrite crypt_block_stream by done. destruct (Z.leb_spec (zlen m) 64) as [Hle|Hgt].
    + rewrite nblocks_small, keystream_S, next_counter_spec by (done || lia).
      change (keystream _ 0) with (@nil Z). by rewrite app_nil_r.
    + assert (Hn : ctx_ok (next_counter j)) by (rewrite next_counter_spec by done; by apply with_counter_ok).
      rewrite IH; [|done|auto with ssh|done|done|zl|unfold zdrop; rewrite length_drop; lia].
      rewrite (nblocks_big m), keystream_S by (done || lia).
      pose proof (stream_block_zlen j (counter j) Hj) as Hs.
      rewrite xor_bytes_app, xor_bytes_ztake_r, Hs by lia. f_equal.
      rewrite next_counter_spec, with_counter_twice, counter_with_counter by done.
      rewrite <- with_counter_mod, Z.add_mod_idemp_l, with_counter_mod by done. f_equal. lia.
Qed.

Lemma xor_bytes_comm a b : xor_bytes a b = xor_bytes b a.
Proof.
  unfold xor_bytes. revert b. induction a as [|x a IH]; intros [|y b]; simpl; try done.
  by rewrite IH, Z.lxor_comm.
Qed.

Lemma chacha_stream tmp x m :
  ctx_ok x -> Bytes m -> Bytes tmp -> 64 <= zlen tmp ->
  chacha_encrypt_bytes tmp x m =
  (xor_bytes m (keystream x (nblocks m)), with_counter (counter x + Z.of_nat (nblocks m)) x).
Proof.
  intros Hx HB HBt Ht. unfold chacha_encrypt_bytes. destruct (Z.eqb_spec (zlen m) 0) as [Hz|Hz].
  - apply zlen_0_nil in Hz as ->. change (nblocks []) with 0%nat.
    by rewrite Z.add_0_r, with_counter_id.
  - rewrite encrypt_loop_spec by (done || (pose proof (zlen_nonneg m); lia)).
    by rewrite xor_bytes_comm.
Qed.

Lemma keystream_zlen x n : ctx_ok x -> zlen (keystream x n) = 64 * Z.of_nat n.
Proof.
  intros Hx. revert x Hx. induction n as [|n IH]; intros x Hx; [done|].
  rewrite keystream_S, zlen_app, stream_block_zlen, IH by (done ||
    (rewrite next_counter_spec by done; by apply with_counter_ok)). lia.
Qed.

Lemma nblocks_enough m : zlen m <= 64 * Z.of_nat (nblocks m).
Proof. unfold nblocks, blocks_of. zl_nonneg. Z.div_mod_to_equations; lia. Qed.

(** XOR with a long enough key stream twice gives the message back. *)
Lemma xor_bytes_involutive m s : zlen m <= zlen s -> xor_bytes (xor_bytes m s) s = m.
Proof.
  unfold xor_bytes, zlen. revert s. induction m as [|x m IH]; intros [|y s] Hl; try done.
  cbn [zip_with length] in *. rewrite IH by lia. by rewrite Z.lxor_assoc, Z.lxor_nilpotent, Z.lxor_0_r.
Qed.

Lemma xor_bytes_zlen m s : zlen m <= zlen s -> zlen (xor_bytes m s) = zlen m.
Proof. intros. unfold xor_bytes, zlen in *. rewrite length_zip_with. lia. Qed.

Lemma Bytes_xor m s : Bytes m -> Bytes s -> Bytes (xor_bytes m s).
Proof.
  unfold xor_bytes. intros Hm Hs. revert s Hs.
  induction Hm as [|x m Hx Hm IH]; intros s Hs; [constructor|].
  destruct Hs as [|y s Hy Hs]; [constructor|]. simpl. constructor; [|by apply IH].
  by apply lxor_range.
Qed.

Lemma keystream_Bytes x n : Bytes (keystream x n).
Proof.
  unfold keystream, stream_block. apply Forall_concat, Forall_fmap, Forall_true. intros i. unfold compose.
  apply Forall_concat, Forall_fmap, Forall_true. intros w. apply le_bytes_Bytes.
Qed.

(** ** Theorems *)

(** C29. [chacha_encrypt_bytes] is a stream cipher: for every message its output
    is the message XOR the key stream of the context, in which block i is the
    ChaCha20 block of the context with its 64-bit counter advanced by i
    modulo 2^64, whatever the uninitialised temporary buffer holds; the
    context it leaves counts the blocks used, partial ones included; and with
    the same context it decrypts its own output. *)
Theorem chacha_encrypt_bytes_stream tmp tmp' x m :
  ctx_ok x -> Bytes m -> Bytes tmp -> Bytes tmp' -> 64 <= zlen tmp -> 64 <= zlen tmp' ->
  let n := Z.to_nat ((zlen m + 63) / 64) in
  let '(c, x') := chacha_encrypt_bytes tmp x m in
  c = xor_bytes m (keystream x n) /\ zlen c = zlen m /\
  x' = with_counter (counter x + Z.of_nat n) x /\
  fst (chacha_encrypt_bytes tmp' x c) = m.
Proof.
  intros Hx HB HBt HBt' Ht Ht' n. rewrite chacha_stream by done.
  change (nblocks m) with n. pose proof (nblocks_enough m) as Hn. change (nblocks m) with n in Hn.
  assert (zlen m <= zlen (keystream x n)) as Hk by (rewrite keystream_zlen by done; lia).
  assert (zlen (xor_bytes m (keystream x n)) = zlen m) as Hc by (by rewrite xor_bytes_zlen).
  split_and!; [done|done|done|].
  rewrite chacha_stream by (done || apply Bytes_xor; done || apply keystream_Bytes). simpl.
  unfold nblocks. rewrite Hc. change (Z.to_nat (blocks_of (zlen m))) with n.
  by apply xor_bytes_involutive.
Qed.

Lemma chacha_encrypt_bytes_stream_witness :
  let m := cstr "Ladies and Gentlemen of the class of '99: If I could offer you only one tip for the future, sunscreen would be it." in
  zlen m = 114 /\
  fst (chacha_encrypt_bytes (zrep 64 7) rfc_ctx (fst (chacha_encrypt_bytes (zrep 64 0) rfc_ctx m))) = m.
Proof.
  split; [reflexivity|]. set (m := cstr _).
  pose proof (chacha_encrypt_bytes_stream (zrep 64 0) (zrep 64 7) rfc_ctx m) as H.
  destruct (chacha_encrypt_bytes (zrep 64 0) rfc_ctx m) as [c x']. apply H; try reflexivity.
  - split; [reflexivity|]. unfold rfc_ctx.
    repeat (apply Forall_cons; split; [vm_compute; split; congruence|]). constructor.
  - subst m. vm_compute. repeat (apply Forall_cons; split; [vm_compute; split; congruence|]).
    constructor.
  - by apply Bytes_zrep.
  - by apply Bytes_zrep.
Defined.
