(* ===== verification/ChachaPoly.v ===== *)
(** cipher-chachapoly.c and timingsafe_bcmp.c: the authenticated packet cipher
    chacha20-poly1305@openssh.com, from chacha.c and poly1305.c.

    [src] and [dest] are the objects the pointers point to, which do not
    overlap; the wiping of the temporary buffers is not modelled. *)

From S2P Require Import Prelude Wire Poly1305 Chacha.

(** ** Definitions *)

Definition POLY1305_TAGLEN : Z := 16.
Definition POLY1305_KEYLEN : Z := 32.

Fixpoint bcmp_loop (n : nat) (p1 p2 : bytes) (ret : Z) : Z :=
  match n with
  | O => ret
  | S n => bcmp_loop n (zdrop 1 p1) (zdrop 1 p2) (Z.lor ret (Z.lxor (byte_at p1 0) (byte_at p2 0)))
  end.
Definition timingsafe_bcmp (b1 b2 : bytes) (n : Z) : Z :=
  b2z (negb (bcmp_loop (Z.to_nat n) b1 b2 0 =? 0)).

Record chachapoly_ctx : Type := mk_ctx { main_ctx : chacha_ctx; header_ctx : chacha_ctx }.

Definition chachapoly_init (ctx : chachapoly_ctx) (key : bytes) (keylen : Z)
    : result unit * chachapoly_ctx :=
  if negb (keylen =? 32 + 32) then (Err SSH_ERR_INVALID_ARGUMENT, ctx)
  else (Ok tt, mk_ctx (chacha_keysetup (main_ctx ctx) key 256)
                 (chacha_keysetup (header_ctx ctx) (zdrop 32 key) 256)).

Section crypt.
(** What the temporary buffer of chacha.c holds before a call. *)
Context (tmp : bytes).

Definition one : bytes := [1; 0; 0; 0; 0; 0; 0; 0].

Definition chachapoly_crypt (seqnr : Z) (src : bytes) (len aadlen : Z) (do_encrypt : bool)
    : M (chachapoly_ctx * bytes) unit := fun '(ctx, dest) =>
  let seqbuf := POKE_U64 seqnr in
  let main := chacha_ivsetup (main_ctx ctx) seqbuf None in
  let '(poly_key, main) := chacha_encrypt_bytes tmp main (zrep POLY1305_KEYLEN 0) in
  let bad_tag :=
    if negb do_encrypt then
      let tag := zdrop (aadlen + len) src in
      let expected_tag := poly1305_auth (ztake (u32 (aadlen + len)) src) poly_key in
      negb (timingsafe_bcmp expected_tag tag POLY1305_TAGLEN =? 0)
    else false in
  if bad_tag then (Err SSH_ERR_MAC_INVALID, (mk_ctx main (header_ctx ctx), dest))
  else
    let '(header, dest) :=
      if negb (aadlen =? 0) then
        let header := chacha_ivsetup (header_ctx ctx) seqbuf None in
        let '(c, header) := chacha_encrypt_bytes tmp header (ztake aadlen src) in
        (header, write_at 0 c dest)
      else (header_ctx ctx, dest) in
    let main := chacha_ivsetup main seqbuf (Some one) in
    let '(c, main) := chacha_encrypt_bytes tmp main (ztake len (zdrop aadlen src)) in
    let dest := write_at aadlen c dest in
    let dest :=
      if do_encrypt then
        write_at (aadlen + len) (poly1305_auth (ztake (u32 (aadlen + len)) dest) poly_key) dest
      else dest in
    (Ok tt, (mk_ctx main header, dest)).

Definition chachapoly_get_length (seqnr : Z) (cp : bytes) (len : Z)
    : M chachapoly_ctx Z := fun ctx =>
  if len <? 4 then (Err SSH_ERR_MESSAGE_INCOMPLETE, ctx)
  else
    let header := chacha_ivsetup (header_ctx ctx) (POKE_U64 seqnr) None in
    let '(buf, header) := chacha_encrypt_bytes tmp header (ztake 4 cp) in
    (Ok (PEEK_U32 buf), mk_ctx (main_ctx ctx) header).
End crypt.

(** ** Specification *)

(** The key stream of a packet, from block 0 or 1 on, long enough for [m]. *)
Definition packet_stream (x : chacha_ctx) (seqnr : Z) (c : option bytes) (m : bytes) : bytes :=
  keystream (chacha_ivsetup x (POKE_U64 seqnr) c) (nblocks m).
(** The one-time authenticator key of a packet. *)
Definition packet_key (ctx : chachapoly_ctx) (seqnr : Z) : bytes :=
  xor_bytes (zrep 32 0) (packet_stream (main_ctx ctx) seqnr None (zrep 32 0)).
(** The packet XOR its key streams. *)
Definition xor_packet (ctx : chachapoly_ctx) (seqnr aadlen : Z) (p : bytes) : bytes :=
  xor_bytes (ztake aadlen p) (packet_stream (header_ctx ctx) seqnr None (ztake aadlen p)) ++
  xor_bytes (zdrop aadlen p) (packet_stream (main_ctx ctx) seqnr (Some one) (zdrop aadlen p)).
Definition packet_tag (ctx : chachapoly_ctx) (seqnr : Z) (c : bytes) : bytes :=
  poly1305 c (packet_key ctx seqnr).

Definition keys_ok (ctx : chachapoly_ctx) : Prop := ctx_ok (main_ctx ctx) /\ ctx_ok (header_ctx ctx).
(** Contexts that hold the same keys, whatever their counters. *)
Definition same_key (x y : chacha_ctx) : Prop :=
  forall iv c, chacha_ivsetup x iv c = chacha_ivsetup y iv c.
Definition same_keys (a b : chachapoly_ctx) : Prop :=
  same_key (main_ctx a) (main_ctx b) /\ same_key (header_ctx a) (header_ctx b).

(** * Properties *)

Lemma bcmp_zero n p q ret :
  0 <= ret -> Bytes p -> Bytes q -> (n <= length p)%nat -> (n <= length q)%nat ->
  bcmp_loop n p q ret = 0 <-> ret = 0 /\ take n p = take n q.
Proof.
  revert p q ret. induction n as [|n IH]; intros p q ret Hr Hp Hq Hlp Hlq.
  { simpl. tauto. }
  destruct p as [|x p]; [simpl in Hlp; lia|]. destruct q as [|y q]; [simpl in Hlq; lia|].
  apply Forall_cons in Hp as [Hx Hp]. apply Forall_cons in Hq as [Hy Hq].
  unfold in_range in Hx, Hy. cbn [bcmp_loop length] in *.
  change (zdrop 1 (x :: p)) with p. change (zdrop 1 (y :: q)) with q.
  change (byte_at (x :: p) 0) with x. change (byte_at (y :: q) 0) with y.
  assert (0 <= Z.lxor x y) by (apply Z.lxor_nonneg; lia).
  rewrite IH by (done || lia || (apply Z.lor_nonneg; lia)).
  rewrite Z.lor_eq_0_iff, Z.lxor_eq_0_iff. cbn [take]. split.
  - intros [[-> ->] ->]. done.
  - intros [-> [= -> ->]]. done.
Qed.

Lemma timingsafe_bcmp_zero p q n :
  Bytes p -> Bytes q -> 0 <= n <= zlen p -> n <= zlen q ->
  timingsafe_bcmp p q n = 0 <-> ztake n p = ztake n q.
Proof.
  intros Hp Hq Hn Hq'. unfold timingsafe_bcmp, ztake.
  pose proof (bcmp_zero (Z.to_nat n) p q 0 ltac:(lia) Hp Hq) as Hb.
  destruct (Z.eqb_spec (bcmp_loop (Z.to_nat n) p q 0) 0) as [He|He]; simpl.
  - split; [|done]. intros _. apply Hb; [unfold zlen in *; lia..|done].
  - split; [lia|]. intros Ht. destruct He. apply Hb; [unfold zlen in *; lia..|done].
Qed.

(** ** Contexts *)

Lemma U8TO32_LE_range p : Bytes p -> 4 <= zlen p -> in_range 32 (U8TO32_LE p).
Proof.
  intros HB Hl. rewrite U8TO32_LE_le by done.
  pose proof (le_value_range (ztake 4 p)) as R. rewrite zlen_ztake in R by lia.
  apply R. auto with ssh.
Qed.

Lemma seqbuf_ok s : Bytes (POKE_U64 s) /\ zlen (POKE_U64 s) = 8.
Proof. rewrite POKE_U64_be. split; [apply be_bytes_Bytes|apply be_bytes_zlen]. Qed.

Definition counter_ok (c : option bytes) : Prop := c = None \/ c = Some one.

Lemma ivsetup_ok x s c : ctx_ok x -> counter_ok c -> ctx_ok (chacha_ivsetup x (POKE_U64 s) c).
Proof.
  intros [Hl Hx] Hc. destruct (seqbuf_ok s) as [HB HL].
  unfold chacha_ivsetup, set_words. cbn [fold_left]. split; [by rewrite !length_insert|].
  repeat apply Forall_insert; try done; try (apply U8TO32_LE_range; [auto with ssh|zl]).
  all: destruct Hc as [->| ->]; unfold in_range; vm_compute; split; congruence.
Qed.

Lemma same_key_refl x : same_key x x.
Proof. done. Qed.

(** Setting the IV overwrites all that a use of the context changes. *)
Lemma ivsetup_words x iv c :
  length x = 16%nat ->
  chacha_ivsetup x iv c =
  take 12 x ++
    [match c with None => 0 | Some c => U8TO32_LE c end;
     match c with None => 0 | Some c => U8TO32_LE (zdrop 4 c) end;
     U8TO32_LE iv; U8TO32_LE (zdrop 4 iv)].
Proof.
  unfold chacha_ivsetup, set_words. cbn [fold_left]. intros Hl.
  do 16 (destruct x as [|? x]; [done|]). by destruct x.
Qed.

Lemma same_key_take x y :
  length x = 16%nat -> length y = 16%nat -> take 12 x = take 12 y -> same_key x y.
Proof.
  intros Hx Hy Ht iv c. by rewrite !ivsetup_words, Ht by done.
Qed.

Lemma same_key_use x s c n :
  ctx_ok x -> same_key (with_counter n (chacha_ivsetup x (POKE_U64 s) c)) x.
Proof.
  intros [Hl _].
  assert (Hi : length (chacha_ivsetup x (POKE_U64 s) c) = 16%nat).
  { unfold chacha_ivsetup, set_words. cbn [fold_left]. by rewrite !length_insert. }
  apply same_key_take; [unfold with_counter; by rewrite !length_insert|done|].
  unfold with_counter. rewrite !take_insert_ge, ivsetup_words by (done || lia).
  rewrite take_app_le by (rewrite length_take; lia). by rewrite take_take.
Qed.

(** One use of a context: set the IV, encrypt. *)
Lemma iv_stream tmp x s c m :
  ctx_ok x -> counter_ok c -> Bytes m -> Bytes tmp -> 64 <= zlen tmp ->
  exists x',
    chacha_encrypt_bytes tmp (chacha_ivsetup x (POKE_U64 s) c) m =
      (xor_bytes m (packet_stream x s c m), x') /\
    ctx_ok x' /\ same_key x' x.
Proof.
  intros Hx Hc HB HBt Ht. pose proof (ivsetup_ok x s c Hx Hc) as Hi.
  eexists. split; [by apply chacha_stream|]. split; [by apply with_counter_ok|].
  by apply same_key_use.
Qed.

Lemma packet_stream_zlen x s c m :
  ctx_ok x -> counter_ok c -> zlen m <= zlen (packet_stream x s c m).
Proof.
  intros Hx Hc. unfold packet_stream. rewrite keystream_zlen by (by apply ivsetup_ok).
  apply nblocks_enough.
Qed.

Lemma packet_stream_same x y s c m : same_key x y -> packet_stream x s c m = packet_stream y s c m.
Proof. intros H. unfold packet_stream. by rewrite H. Qed.

Lemma packet_stream_len x s c m m' :
  zlen m = zlen m' -> packet_stream x s c m = packet_stream x s c m'.
Proof. intros H. unfold packet_stream, nblocks. by rewrite H. Qed.

Lemma xor_stream_facts x s c m :
  ctx_ok x -> counter_ok c -> Bytes m ->
  zlen (xor_bytes m (packet_stream x s c m)) = zlen m /\
  Bytes (xor_bytes m (packet_stream x s c m)).
Proof.
  intros Hx Hc HB. split; [apply xor_bytes_zlen; by apply packet_stream_zlen|].
  apply Bytes_xor; [done|]. apply keystream_Bytes.
Qed.

Lemma xor_stream_twice x y s c m :
  ctx_ok x -> same_key y x -> counter_ok c -> Bytes m ->
  let e := xor_bytes m (packet_stream x s c m) in
  xor_bytes e (packet_stream y s c e) = m.
Proof.
  intros Hx Hk Hc HB e. destruct (xor_stream_facts x s c m Hx Hc HB) as [Hl _].
  rewrite (packet_stream_same y x), (packet_stream_len x s c e m) by done.
  apply xor_bytes_involutive. by apply packet_stream_zlen.
Qed.

Lemma packet_key_facts ctx s : keys_ok ctx -> Bytes (packet_key ctx s) /\ zlen (packet_key ctx s) = 32.
Proof.
  intros [Hm _]. unfold packet_key.
  destruct (xor_stream_facts (main_ctx ctx) s None (zrep 32 0) Hm (or_introl eq_refl)) as [Hl HB];
    [by apply Bytes_zrep|]. done.
Qed.

Lemma same_keys_facts a b s :
  same_keys a b -> packet_key a s = packet_key b s /\
  (forall n p, xor_packet a s n p = xor_packet b s n p) /\ (forall c, packet_tag a s c = packet_tag b s c).
Proof.
  intros [Hm Hh].
  assert (packet_key a s = packet_key b s) as Hk by (unfold packet_key; by rewrite (packet_stream_same _ _ _ _ _ Hm)).
  split_and!; [done| |].
  - intros n p. unfold xor_packet.
    by rewrite (packet_stream_same _ _ _ _ _ Hm), (packet_stream_same _ _ _ _ _ Hh).
  - intros c. unfold packet_tag. by rewrite Hk.
Qed.

Lemma xor_packet_facts ctx s n p :
  keys_ok ctx -> Bytes p -> 0 <= n <= zlen p ->
  zlen (xor_packet ctx s n p) = zlen p /\ Bytes (xor_packet ctx s n p).
Proof.
  intros [Hm Hh] HB Hn. unfold xor_packet.
  destruct (xor_stream_facts (header_ctx ctx) s None (ztake n p)) as [L1 B1];
    [done|by left|auto with ssh|].
  destruct (xor_stream_facts (main_ctx ctx) s (Some one) (zdrop n p)) as [L2 B2];
    [done|by right|auto with ssh|].
  rewrite zlen_app, L1, L2. split; [zl|]. by apply Forall_app.
Qed.

(** Decrypting what was encrypted, with contexts that hold the same keys. *)
Lemma xor_packet_twice ctx ctx' s n p :
  keys_ok ctx -> same_keys ctx' ctx -> Bytes p -> 0 <= n <= zlen p ->
  xor_packet ctx' s n (xor_packet ctx s n p) = p.
Proof.
  intros [Hm Hh] [Km Kh] HB Hn. unfold xor_packet.
  destruct (xor_stream_facts (header_ctx ctx) s None (ztake n p)) as [L1 B1];
    [done|by left|auto with ssh|].
  assert (Hz : n = zlen (xor_bytes (ztake n p) (packet_stream (header_ctx ctx) s None (ztake n p))))
    by (rewrite L1; zl).
  rewrite ztake_app, zdrop_app by done.
  rewrite xor_stream_twice, xor_stream_twice by (done || (by left) || (by right) || auto with ssh).
  apply ztake_zdrop.
Qed.

Lemma write_prefix v l : zlen v <= zlen l -> write_at 0 v l = v ++ zdrop (zlen v) l.
Proof. intros. unfold write_at. by rewrite ztake_0, Z.add_0_l. Qed.

Lemma write_after a v l n :
  n = zlen a -> zlen v <= zlen l -> write_at n v (a ++ l) = (a ++ v) ++ zdrop (zlen v) l.
Proof.
  intros -> Hl. unfold write_at. rewrite ztake_app, zdrop_app_ge by (done || zl).
  replace (zlen a + zlen v - zlen a) with (zlen v) by lia. by rewrite app_assoc.
Qed.

(** ** The cipher *)

Section spec.
Context (tmp : bytes) (Htmp : Bytes tmp) (Hlen : 64 <= zlen tmp).

(** Crypting header and body into [dest]. *)
Lemma crypt_body ctx seqnr src dest len aadlen :
  keys_ok ctx -> Bytes src -> 0 <= aadlen -> 0 <= len -> aadlen + len <= zlen src ->
  aadlen + len <= zlen dest ->
  let p := ztake (aadlen + len) src in
  exists main header,
    (let '(header, dest) :=
       if negb (aadlen =? 0) then
         let header := chacha_ivsetup (header_ctx ctx) (POKE_U64 seqnr) None in
         let '(c, header) := chacha_encrypt_bytes tmp header (ztake aadlen src) in
         (header, write_at 0 c dest)
       else (header_ctx ctx, dest) in
     let main := chacha_ivsetup (main_ctx ctx) (POKE_U64 seqnr) (Some one) in
     let '(c, main) := chacha_encrypt_bytes tmp main (ztake len (zdrop aadlen src)) in
     (mk_ctx main header, write_at aadlen c dest)) =
    (mk_ctx main header, xor_packet ctx seqnr aadlen p ++ zdrop (aadlen + len) dest) /\
    keys_ok (mk_ctx main header) /\ same_keys (mk_ctx main header) ctx.
Proof.
  intros [Hm Hh] HB Ha Hl Hs Hd p.
  destruct (iv_stream tmp (main_ctx ctx) seqnr (Some one) (ztake len (zdrop aadlen src)))
    as (main&Em&Hmain&Km); [done|by right|auto with ssh|done|done|].
  destruct (iv_stream tmp (header_ctx ctx) seqnr None (ztake aadlen src))
    as (header&Eh&Hheader&Kh); [done|by left|auto with ssh|done|done|].
  assert (Hp1 : ztake aadlen p = ztake aadlen src) by (subst p; rewrite ztake_ztake; f_equal; lia).
  assert (Hp2 : zdrop aadlen p = ztake len (zdrop aadlen src))
    by (subst p; rewrite zdrop_ztake by lia; f_equal; lia).
  unfold xor_packet. rewrite Hp1, Hp2.
  destruct (xor_stream_facts (header_ctx ctx) seqnr None (ztake aadlen src) Hh (or_introl eq_refl))
    as [L1 _]; [auto with ssh|].
  destruct (xor_stream_facts (main_ctx ctx) seqnr (Some one) (ztake len (zdrop aadlen src)) Hm
    (or_intror eq_refl)) as [L2 _]; [auto with ssh|].
  rewrite zlen_ztake in L1 by lia. rewrite zlen_ztake in L2 by zl.
  set (c1 := xor_bytes (ztake aadlen src) _) in *. set (c2 := xor_bytes (ztake len _) _) in *.
  clearbody c1 c2.
  destruct (Z.eqb_spec aadlen 0) as [->|Hne]; cbn [negb].
  - exists main, (header_ctx ctx). rewrite Em. split; [|done].
    apply zlen_0_nil in L1 as ->. rewrite write_prefix, L2 by lia. done.
  - exists main, header. rewrite Eh, Em. split; [|done].
    rewrite write_prefix, L1, write_after by (rewrite ?L1; zl || done).
    rewrite L2, zdrop_zdrop by lia. done.
Qed.

(** The first use of the main context makes the authenticator key. *)
Lemma poly_key_eq ctx seqnr :
  keys_ok ctx ->
  exists main,
    chacha_encrypt_bytes tmp (chacha_ivsetup (main_ctx ctx) (POKE_U64 seqnr) None)
      (zrep POLY1305_KEYLEN 0) = (packet_key ctx seqnr, main) /\
    ctx_ok main /\ same_key main (main_ctx ctx).
Proof.
  intros [Hm _]. unfold packet_key, POLY1305_KEYLEN.
  apply iv_stream; [done|by left|by apply Bytes_zrep|done|done].
Qed.

Lemma chachapoly_encrypt_spec ctx seqnr src dest len aadlen :
  keys_ok ctx -> Bytes src -> 0 <= aadlen -> 0 <= len -> aadlen + len < 2 ^ 32 ->
  aadlen + len <= zlen src -> aadlen + len + 16 <= zlen dest ->
  let c := xor_packet ctx seqnr aadlen (ztake (aadlen + len) src) in
  exists ctx',
    chachapoly_crypt tmp seqnr src len aadlen true (ctx, dest) =
      (Ok tt, (ctx', c ++ packet_tag ctx seqnr c ++ zdrop (aadlen + len + 16) dest)) /\
    keys_ok ctx' /\ same_keys ctx' ctx.
Proof.
  intros Hk HB Ha Hl Hw Hs Hd c. pose proof Hk as [Hm Hh].
  destruct (poly_key_eq ctx seqnr Hk) as (main0&E0&Hmain0&K0).
  unfold chachapoly_crypt. cbv beta zeta. rewrite E0. cbn [negb].
  destruct (crypt_body ctx seqnr src dest len aadlen) as (main&header&E&Hk'&Hs'); [done|done|lia..|].
  rewrite K0. destruct (if negb (aadlen =? 0) then _ else _) as [header' dest'].
  destruct (chacha_encrypt_bytes tmp (chacha_ivsetup (main_ctx ctx) _ (Some one)) _) as [c' main'] eqn:Ec.
  cbv zeta in E. rewrite Ec in E. injection E as -> -> E. cbv beta iota zeta. rewrite E. fold c.
  exists (mk_ctx main header). split; [|done]. do 2 f_equal.
  destruct (xor_packet_facts ctx seqnr aadlen (ztake (aadlen + len) src)) as [Lc Bc];
    [done|auto with ssh|zl|]. fold c in Lc, Bc. rewrite zlen_ztake in Lc by lia.
  destruct (packet_key_facts ctx seqnr Hk) as [Bk Lk].
  rewrite wrap_small by lia. rewrite ztake_app by done.
  rewrite poly1305_eq by done. fold (packet_tag ctx seqnr c).
  assert (Lt : zlen (packet_tag ctx seqnr c) = 16) by (unfold packet_tag, poly1305, zlen; by rewrite le_bytes_length).
  rewrite write_after by (rewrite ?Lt; zl || done). rewrite Lt, zdrop_zdrop, app_assoc by lia. done.
Qed.

Lemma packet_tag_facts ctx s c : Bytes (packet_tag ctx s c) /\ zlen (packet_tag ctx s c) = 16.
Proof.
  unfold packet_tag, poly1305. split; [apply le_bytes_Bytes|]. unfold zlen. by rewrite le_bytes_length.
Qed.

Lemma chachapoly_decrypt_spec ctx seqnr src dest len aadlen :
  keys_ok ctx -> Bytes src -> 0 <= aadlen -> 0 <= len -> aadlen + len < 2 ^ 32 ->
  aadlen + len + 16 <= zlen src -> aadlen + len <= zlen dest ->
  let c := ztake (aadlen + len) src in
  let tag := ztake 16 (zdrop (aadlen + len) src) in
  exists ctx',
    chachapoly_crypt tmp seqnr src len aadlen false (ctx, dest) =
      (if decide (tag = packet_tag ctx seqnr c)
       then (Ok tt, (ctx', xor_packet ctx seqnr aadlen c ++ zdrop (aadlen + len) dest))
       else (Err SSH_ERR_MAC_INVALID, (ctx', dest))) /\
    keys_ok ctx' /\ same_keys ctx' ctx.
Proof.
  intros Hk HB Ha Hl Hw Hs Hd c tag. pose proof Hk as [Hm Hh].
  destruct (poly_key_eq ctx seqnr Hk) as (main0&E0&Hmain0&K0).
  unfold chachapoly_crypt. cbv beta zeta. rewrite E0. cbn [negb].
  destruct (packet_key_facts ctx seqnr Hk) as [Bk Lk].
  rewrite wrap_small by lia. fold c. rewrite poly1305_eq by (done || subst c; auto with ssh).
  fold (packet_tag ctx seqnr c). destruct (packet_tag_facts ctx seqnr c) as [Bt Lt].
  pose proof (timingsafe_bcmp_zero (packet_tag ctx seqnr c) (zdrop (aadlen + len) src)
    POLY1305_TAGLEN Bt ltac:(auto with ssh)) as Hb.
  unfold POLY1305_TAGLEN in *. rewrite Lt in Hb.
  assert (16 <= zlen (zdrop (aadlen + len) src)) as H16 by (rewrite zlen_zdrop; lia).
  specialize (Hb ltac:(lia) H16). fold tag in Hb.
  rewrite ztake_ge in Hb by lia.
  destruct (Z.eqb_spec (timingsafe_bcmp (packet_tag ctx seqnr c) (zdrop (aadlen + len) src) 16) 0)
    as [Hz|Hz]; cbn [negb].
  2:{ exists (mk_ctx main0 (header_ctx ctx)). rewrite decide_False by (intros Heq; apply Hz, Hb; done).
      split; [done|]. split; [done|]. by split. }
  assert (tag = packet_tag ctx seqnr c) as Htag by (symmetry; tauto).
  destruct (crypt_body ctx seqnr src dest len aadlen) as (main&header&E&Hk'&Hs'); [done|done|lia..|].
  rewrite K0. destruct (if negb (aadlen =? 0) then _ else _) as [header' dest'].
  destruct (chacha_encrypt_bytes tmp (chacha_ivsetup (main_ctx ctx) _ (Some one)) _) as [c' main'] eqn:Ec.
  cbv zeta in E. rewrite Ec in E. injection E as -> -> E. cbv beta iota zeta. rewrite E. fold c.
  exists (mk_ctx main header). by rewrite decide_True.
Qed.
End spec.

(** ** Theorems *)

(** C15. Decryption is authenticated and exact.  A packet is accepted exactly when
    the 16 bytes after it are the Poly1305 tag, under the one-time key of its
    sequence number, of all its encrypted bytes, length field included; then
    the result is the packet XOR its key streams.  Otherwise the result is
    SSH_ERR_MAC_INVALID and not one byte of [dest] has been written.  Either
    way the bytes of [dest] after the packet are untouched and the context
    keeps its keys. *)
Theorem chachapoly_decrypt_authenticates tmp ctx seqnr src dest len aadlen :
  Bytes tmp -> 64 <= zlen tmp -> keys_ok ctx -> Bytes src ->
  0 <= aadlen -> 0 <= len -> aadlen + len < 2 ^ 32 ->
  aadlen + len + 16 <= zlen src -> aadlen + len <= zlen dest ->
  let c := ztake (aadlen + len) src in
  let '(r, (ctx', dest')) := chachapoly_crypt tmp seqnr src len aadlen false (ctx, dest) in
  (r = Ok tt <->
     ztake 16 (zdrop (aadlen + len) src) = poly1305 c (packet_key ctx seqnr)) /\
  (r = Ok tt -> dest' = xor_packet ctx seqnr aadlen c ++ zdrop (aadlen + len) dest) /\
  (r <> Ok tt -> r = Err SSH_ERR_MAC_INVALID /\ dest' = dest) /\
  keys_ok ctx' /\ same_keys ctx' ctx.
Proof.
  intros HBt Ht Hk HB Ha Hl Hw Hs Hd c.
  destruct (chachapoly_decrypt_spec tmp HBt Ht ctx seqnr src dest len aadlen) as (ctx'&->&Hk'&Hs'); try done.
  fold c. change (poly1305 c (packet_key ctx seqnr)) with (packet_tag ctx seqnr c).
  case_decide; cbv beta iota; split_and!; done.
Qed.

(** What one end encrypts the other decrypts: with contexts that hold the
    same keys, whatever packets they were used for before, decrypting the
    output of an encryption under the same sequence number succeeds and gives
    the packet back, and [chachapoly_get_length] reads its length field
    beforehand without changing the keys. *)
Theorem chachapoly_roundtrip tmp tmp' ctx ctx2 seqnr src dest dest2 len aadlen :
  Bytes tmp -> 64 <= zlen tmp -> Bytes tmp' -> 64 <= zlen tmp' ->
  keys_ok ctx -> keys_ok ctx2 -> same_keys ctx2 ctx -> Bytes src ->
  4 <= aadlen -> 0 <= len -> aadlen + len < 2 ^ 32 ->
  zlen src = aadlen + len -> zlen dest = aadlen + len + 16 -> aadlen + len <= zlen dest2 ->
  let '(r, (_, enc)) := chachapoly_crypt tmp seqnr src len aadlen true (ctx, dest) in
  r = Ok tt /\ zlen enc = aadlen + len + 16 /\
  let '(r1, ctx3) := chachapoly_get_length tmp' seqnr enc (zlen enc) ctx2 in
  (aadlen = 4 -> r1 = Ok (PEEK_U32 src)) /\
  let '(r2, (_, dec)) := chachapoly_crypt tmp' seqnr enc len aadlen false (ctx3, dest2) in
  r2 = Ok tt /\ ztake (aadlen + len) dec = src.
Proof.
  intros HBt Ht HBt' Ht' Hk Hk2 Hs2 HB Ha Hl Hw Hls Hld Hld2.
  destruct (chachapoly_encrypt_spec tmp HBt Ht ctx seqnr src dest len aadlen) as (ctx'&->&_); try done; try lia.
  rewrite (ztake_ge _ src) by lia. rewrite (zdrop_ge _ dest), app_nil_r by lia.
  destruct (xor_packet_facts ctx seqnr aadlen src) as [Lc Bc]; [done|done|lia|].
  set (c := xor_packet ctx seqnr aadlen src) in *.
  destruct (packet_tag_facts ctx seqnr c) as [Btag Ltag].
  split; [done|]. split; [zl|].
  unfold chachapoly_get_length. destruct (Z.ltb_spec (zlen (c ++ packet_tag ctx seqnr c)) 4); [zl|].
  destruct (iv_stream tmp' (header_ctx ctx2) seqnr None (ztake 4 (c ++ packet_tag ctx seqnr c)))
    as (h'&E&Hh'&Kh'); [apply Hk2|by left|apply Forall_ztake; by apply Forall_app|done|done|].
  rewrite E. split.
  - intros ->. f_equal. rewrite ztake_app_le by lia.
    assert (Hc4 : ztake 4 c = xor_bytes (ztake 4 src) (packet_stream (header_ctx ctx) seqnr None (ztake 4 src))).
    { unfold c, xor_packet. apply ztake_app.
      destruct (xor_stream_facts (header_ctx ctx) seqnr None (ztake 4 src)) as [-> _];
        [apply Hk|by left|auto with ssh|zl]. }
    rewrite Hc4, xor_stream_twice; [|apply Hk|apply Hs2|by left|auto with ssh].
    rewrite PEEK_U32_be, (PEEK_U32_be src) by (auto with ssh || zl).
    by rewrite ztake_ztake.
  - destruct Hs2 as [Km Kh]. destruct Hk2 as [Hm2 Hh2].
    assert (Hsk : same_keys (mk_ctx (main_ctx ctx2) h') ctx).
    { split; [done|]. intros iv cc. simpl. by rewrite Kh', Kh. }
    destruct (chachapoly_decrypt_spec tmp' HBt' Ht' (mk_ctx (main_ctx ctx2) h') seqnr
      (c ++ packet_tag ctx seqnr c) dest2 len aadlen) as (ctx4&->&_);
      [by split|by apply Forall_app|lia|lia|lia|zl|done|].
    rewrite ztake_app, zdrop_app, (ztake_ge 16) by lia.
    destruct (same_keys_facts _ _ seqnr Hsk) as (_&Hx&Htag). rewrite Htag, decide_True by done.
    split; [done|]. rewrite Hx. unfold c at 1.
    assert (xor_packet ctx seqnr aadlen (xor_packet ctx seqnr aadlen src) = src) as ->
      by (apply xor_packet_twice; done || lia).
    by rewrite ztake_app by lia.
Qed.

(** ** Concrete packets *)

Definition test_ctx : chachapoly_ctx :=
  Eval vm_compute in snd (chachapoly_init (mk_ctx (zrep 16 0) (zrep 16 0)) (seqZ 0 64) 64).
Definition test_tmp : bytes := zrep 64 170.
Definition test_packet : bytes := POKE_U32 12 ++ seqZ 20 12.

Lemma test_ctx_keys : keys_ok test_ctx.
Proof.
  assert (forall l, forallb (fun x => (0 <=? x) && (x <? 2 ^ 32)) l = true -> Forall (in_range 32) l)
    as Hl.
  { intros l Hl. apply List.Forall_forall. intros x Hx. rewrite forallb_forall in Hl.
    specialize (Hl x Hx). unfold in_range. lia. }
  split; (split; [reflexivity|]); apply Hl; vm_compute; reflexivity.
Qed.
Lemma test_packet_bytes : Bytes test_packet.
Proof. vm_compute. repeat (apply Forall_cons; split; [vm_compute; split; congruence|]). constructor. Qed.
Lemma test_tmp_bytes : Bytes test_tmp.
Proof. by apply Bytes_zrep. Qed.

(** The bytes on the wire for the packet with sequence number 3. *)
Definition test_wire : bytes :=
  snd (snd (chachapoly_crypt test_tmp 3 test_packet 12 4 true (test_ctx, zrep 32 0))).
Definition test_open (seqnr : Z) (src : bytes) : result unit * bytes :=
  let '(r, (_, dest)) := chachapoly_crypt test_tmp seqnr src 12 4 false (test_ctx, zrep 20 1) in
  (r, dest).
Example test_open_ok : test_open 3 test_wire = (Ok tt, test_packet ++ [1; 1; 1; 1]).
Proof. vm_compute. reflexivity. Qed.
Example test_open_other_seqnr : test_open 4 test_wire = (Err SSH_ERR_MAC_INVALID, zrep 20 1).
Proof. vm_compute. reflexivity. Qed.
Example test_length :
  fst (chachapoly_get_length test_tmp 3 test_wire 4 test_ctx) = Ok 12.
Proof. vm_compute. reflexivity. Qed.

Lemma chachapoly_decrypt_authenticates_witness :
  let c := zrep 16 0 in
  let '(r, (ctx', dest')) :=
    chachapoly_crypt test_tmp 3 (zrep 32 0) 12 4 false (test_ctx, zrep 20 1) in
  (r <> Ok tt -> r = Err SSH_ERR_MAC_INVALID /\ dest' = zrep 20 1).
Proof.
  pose proof (chachapoly_decrypt_authenticates test_tmp test_ctx 3 (zrep 32 0) (zrep 20 1) 12 4
    test_tmp_bytes ltac:(vm_compute; congruence) test_ctx_keys (Bytes_zrep 32 0 ltac:(vm_compute; split; congruence))
    ltac:(lia) ltac:(lia) ltac:(lia) ltac:(vm_compute; congruence) ltac:(vm_compute; congruence)) as H.
  revert H. cbv zeta. destruct (chachapoly_crypt _ _ _ _ _ _ _) as [r [ctx' dest']].
  intros (_&_&H&_). exact H.
Defined.

Lemma chachapoly_roundtrip_witness :
  let '(r, (_, enc)) :=
    chachapoly_crypt test_tmp 3 test_packet 12 4 true (test_ctx, zrep 32 0) in
  r = Ok tt /\ zlen enc = 32 /\
  let '(r1, ctx3) := chachapoly_get_length test_tmp 3 enc (zlen enc) test_ctx in
  (4 = 4 -> r1 = Ok (PEEK_U32 test_packet)) /\
  let '(r2, (_, dec)) := chachapoly_crypt test_tmp 3 enc 12 4 false (ctx3, zrep 20 1) in
  r2 = Ok tt /\ ztake 16 dec = test_packet.
Proof.
  apply (chachapoly_roundtrip test_tmp test_tmp test_ctx test_ctx 3 test_packet (zrep 32 0) (zrep 20 1) 12 4);
    try apply test_tmp_bytes; try apply test_ctx_keys; try apply test_packet_bytes; try lia;
    try (vm_compute; congruence).
  by split.
Defined.
