(* ===== verification/Algs.v ===== *)
(** The algorithm tables: ciphers (cipher.c), MACs (mac.c), digests
    (digest-openssl.c) and key types (sshkey.c), with the functions that look
    names up in them and that check and print lists of names.

    The tables are those of a build with OpenSSL (with AES-GCM, SHA-2 and the
    NIST curves) and without SSH protocol 1.  The pointers to the functions of
    OpenSSL are left out; the NIDs are OpenSSL's. *)

From Stdlib Require Import String.
From S2P Require Import Prelude CString Glob.

(** ** Lists of names *)

Definition strcasecmp_eq (a b : bytes) : bool := bool_decide (tolower <$> a = tolower <$> b).

(** The names joined by [sep]; [mem] is whether every [realloc] succeeds. *)
Definition alg_list (mem : bool) (sep : Z) (names : list bytes) : option bytes :=
  fold_left (fun ret name =>
    if negb mem then None
    else match ret with
         | None => Some name
         | Some ret => Some (ret ++ [sep] ++ name)
         end) names None.

(** The loop over the names of a list: [ok] for each until an empty one. *)
Fixpoint valid_loop (fuel : nat) (ok : bytes -> bool) (cp : option bytes) : Z :=
  match fuel with
  | O => 0
  | S fuel =>
      match strsep cp (ch ",") with
      | (Some p, cp) =>
          if bool_decide (p = []) then 1 else if negb (ok p) then 0 else valid_loop fuel ok cp
      | (None, _) => 1
      end
  end.
Definition names_valid (mem : bool) (ok : bytes -> bool) (names : option bytes) : Z :=
  match names with
  | None => 0
  | Some names =>
      if strcmp_eq names [] then 0
      else if negb mem then 0
      else valid_loop (S (List.length names)) ok (Some names)
  end.

(** ** Ciphers *)

Definition SSH_CIPHER_SSH2 : Z := -3.
Definition SSH_CIPHER_NONE : Z := 0.
Definition SSH_CIPHER_DES : Z := 2.
Definition SSH_CIPHER_3DES : Z := 3.
Definition SSH_CIPHER_BLOWFISH : Z := 6.
Definition CFLAG_CBC : Z := Z.shiftl 1 0.
Definition CFLAG_CHACHAPOLY : Z := Z.shiftl 1 1.

Record sshcipher : Type := mk_cipher {
  c_name : bytes;
  c_number : Z;
  c_block_size : Z;
  c_key_len : Z;
  c_iv_len : Z;
  c_auth_len : Z;
  c_discard_len : Z;
  c_flags : Z
}.

#[local] Definition cipher_entry (name : string) := mk_cipher (cstr name).

Definition ciphers : list sshcipher :=
  [cipher_entry "none" SSH_CIPHER_NONE 8 0 0 0 0 0;
   cipher_entry "3des-cbc" SSH_CIPHER_SSH2 8 24 0 0 0 1;
   cipher_entry "blowfish-cbc" SSH_CIPHER_SSH2 8 16 0 0 0 1;
   cipher_entry "cast128-cbc" SSH_CIPHER_SSH2 8 16 0 0 0 1;
   cipher_entry "arcfour" SSH_CIPHER_SSH2 8 16 0 0 0 0;
   cipher_entry "arcfour128" SSH_CIPHER_SSH2 8 16 0 0 1536 0;
   cipher_entry "arcfour256" SSH_CIPHER_SSH2 8 32 0 0 1536 0;
   cipher_entry "aes128-cbc" SSH_CIPHER_SSH2 16 16 0 0 0 1;
   cipher_entry "aes192-cbc" SSH_CIPHER_SSH2 16 24 0 0 0 1;
   cipher_entry "aes256-cbc" SSH_CIPHER_SSH2 16 32 0 0 0 1;
   cipher_entry "rijndael-cbc@lysator.liu.se" SSH_CIPHER_SSH2 16 32 0 0 0 1;
   cipher_entry "aes128-ctr" SSH_CIPHER_SSH2 16 16 0 0 0 0;
   cipher_entry "aes192-ctr" SSH_CIPHER_SSH2 16 24 0 0 0 0;
   cipher_entry "aes256-ctr" SSH_CIPHER_SSH2 16 32 0 0 0 0;
   cipher_entry "aes128-gcm@openssh.com" SSH_CIPHER_SSH2 16 16 12 16 0 0;
   cipher_entry "aes256-gcm@openssh.com" SSH_CIPHER_SSH2 16 32 12 16 0 0;
   cipher_entry "chacha20-poly1305@openssh.com" SSH_CIPHER_SSH2 8 64 0 16 0 CFLAG_CHACHAPOLY].

Definition cipher_alg_list (mem : bool) (sep : Z) (auth_only : bool) : option bytes :=
  alg_list mem sep (c_name <$> List.filter (fun c =>
    (c_number c =? SSH_CIPHER_SSH2) && negb (auth_only && (c_auth_len c =? 0))) ciphers).

Definition cipher_blocksize (c : sshcipher) : Z := c_block_size c.
Definition cipher_keylen (c : sshcipher) : Z := c_key_len c.
Definition cipher_seclen (c : sshcipher) : Z :=
  if strcmp_eq (cstr "3des-cbc") (c_name c) then 14 else cipher_keylen c.
Definition cipher_authlen (c : sshcipher) : Z := c_auth_len c.
Definition cipher_ivlen (c : sshcipher) : Z :=
  if negb (c_iv_len c =? 0) || negb (Z.land (c_flags c) CFLAG_CHACHAPOLY =? 0)
  then c_iv_len c else c_block_size c.
Definition cipher_get_number (c : sshcipher) : Z := c_number c.
Definition cipher_is_cbc (c : sshcipher) : bool := negb (Z.land (c_flags c) CFLAG_CBC =? 0).
Definition cipher_mask_ssh1 (client : bool) : Z :=
  let mask := Z.lor (Z.lor 0 (Z.shiftl 1 SSH_CIPHER_3DES)) (Z.shiftl 1 SSH_CIPHER_BLOWFISH) in
  if client then Z.lor mask (Z.shiftl 1 SSH_CIPHER_DES) else mask.

Definition cipher_by_name (name : bytes) : option sshcipher :=
  find (fun c => strcmp_eq (c_name c) name) ciphers.
Definition cipher_by_number (id : Z) : option sshcipher :=
  find (fun c => c_number c =? id) ciphers.

Definition ciphers_valid (mem : bool) (names : option bytes) : Z :=
  names_valid mem (fun p =>
    match cipher_by_name p with
    | None => false
    | Some c => c_number c =? SSH_CIPHER_SSH2
    end) names.

Definition cipher_number (name : option bytes) : Z :=
  match name with
  | None => -1
  | Some name =>
      match find (fun c => strcasecmp_eq (c_name c) name) ciphers with
      | Some c => c_number c
      | None => -1
      end
  end.
Definition cipher_name (id : Z) : bytes :=
  match cipher_by_number id with None => cstr "<unknown>" | Some c => c_name c end.

(** ** Digests *)

Definition SSH_DIGEST_MD5 : Z := 0.
Definition SSH_DIGEST_RIPEMD160 : Z := 1.
Definition SSH_DIGEST_SHA1 : Z := 2.
Definition SSH_DIGEST_SHA256 : Z := 3.
Definition SSH_DIGEST_SHA384 : Z := 4.
Definition SSH_DIGEST_SHA512 : Z := 5.
Definition SSH_DIGEST_MAX : Z := 6.

Record ssh_digest : Type := mk_digest { d_id : Z; d_name : bytes; d_digest_len : Z }.
Definition digests : list ssh_digest :=
  [mk_digest SSH_DIGEST_MD5 (cstr "MD5") 16;
   mk_digest SSH_DIGEST_RIPEMD160 (cstr "RIPEMD160") 20;
   mk_digest SSH_DIGEST_SHA1 (cstr "SHA1") 20;
   mk_digest SSH_DIGEST_SHA256 (cstr "SHA256") 32;
   mk_digest SSH_DIGEST_SHA384 (cstr "SHA384") 48;
   mk_digest SSH_DIGEST_SHA512 (cstr "SHA512") 64].

Definition ssh_digest_by_alg (alg : Z) : option ssh_digest :=
  if (alg <? 0) || (SSH_DIGEST_MAX <=? alg) then None
  else match digests !! Z.to_nat alg with
       | None => None
       | Some d => if negb (d_id d =? alg) then None else Some d
       end.
Definition ssh_digest_alg_by_name (name : bytes) : Z :=
  match find (fun d => strcasecmp_eq name (d_name d)) digests with
  | Some d => d_id d
  | None => -1
  end.
Definition ssh_digest_alg_name (alg : Z) : option bytes := d_name <$> ssh_digest_by_alg alg.
Definition ssh_digest_bytes (alg : Z) : Z :=
  match ssh_digest_by_alg alg with None => 0 | Some d => d_digest_len d end.
Definition ssh_hmac_bytes (alg : Z) : Z := ssh_digest_bytes alg.

(** ** MACs *)

Definition SSH_DIGEST : Z := 1.
Definition SSH_UMAC : Z := 2.
Definition SSH_UMAC128 : Z := 3.

Record macalg : Type := mk_macalg {
  m_name : bytes;
  m_type : Z;
  m_alg : Z;
  m_truncatebits : Z;
  m_key_len : Z;
  m_len : Z;
  m_etm : Z
}.

#[local] Definition mac_entry (name : string) := mk_macalg (cstr name).

Definition macs : list macalg :=
  [mac_entry "hmac-sha1" SSH_DIGEST SSH_DIGEST_SHA1 0 0 0 0;
   mac_entry "hmac-sha1-96" SSH_DIGEST SSH_DIGEST_SHA1 96 0 0 0;
   mac_entry "hmac-sha2-256" SSH_DIGEST SSH_DIGEST_SHA256 0 0 0 0;
   mac_entry "hmac-sha2-512" SSH_DIGEST SSH_DIGEST_SHA512 0 0 0 0;
   mac_entry "hmac-md5" SSH_DIGEST SSH_DIGEST_MD5 0 0 0 0;
   mac_entry "hmac-md5-96" SSH_DIGEST SSH_DIGEST_MD5 96 0 0 0;
   mac_entry "hmac-ripemd160" SSH_DIGEST SSH_DIGEST_RIPEMD160 0 0 0 0;
   mac_entry "hmac-ripemd160@openssh.com" SSH_DIGEST SSH_DIGEST_RIPEMD160 0 0 0 0;
   mac_entry "umac-64@openssh.com" SSH_UMAC 0 0 128 64 0;
   mac_entry "umac-128@openssh.com" SSH_UMAC128 0 0 128 128 0;
   mac_entry "hmac-sha1-etm@openssh.com" SSH_DIGEST SSH_DIGEST_SHA1 0 0 0 1;
   mac_entry "hmac-sha1-96-etm@openssh.com" SSH_DIGEST SSH_DIGEST_SHA1 96 0 0 1;
   mac_entry "hmac-sha2-256-etm@openssh.com" SSH_DIGEST SSH_DIGEST_SHA256 0 0 0 1;
   mac_entry "hmac-sha2-512-etm@openssh.com" SSH_DIGEST SSH_DIGEST_SHA512 0 0 0 1;
   mac_entry "hmac-md5-etm@openssh.com" SSH_DIGEST SSH_DIGEST_MD5 0 0 0 1;
   mac_entry "hmac-md5-96-etm@openssh.com" SSH_DIGEST SSH_DIGEST_MD5 96 0 0 1;
   mac_entry "hmac-ripemd160-etm@openssh.com" SSH_DIGEST SSH_DIGEST_RIPEMD160 0 0 0 1;
   mac_entry "umac-64-etm@openssh.com" SSH_UMAC 0 0 128 64 1;
   mac_entry "umac-128-etm@openssh.com" SSH_UMAC128 0 0 128 128 1].

Definition mac_alg_list (mem : bool) (sep : Z) : option bytes := alg_list mem sep (m_name <$> macs).

(** [struct sshmac] without its contexts; a NULL name or key is [None]. *)
Record sshmac : Type := mk_mac {
  mac_name : option bytes;
  mac_enabled : Z;
  mac_mac_len : Z;
  mac_key : option bytes;
  mac_key_len : Z;
  mac_type : Z;
  mac_etm : Z
}.

(** [hmac] is whether [ssh_hmac_start] succeeds. *)
Definition mac_setup_by_alg (hmac : bool) (alg : macalg) : M sshmac unit := fun mac =>
  let set := fun mac_len key_len =>
    (Ok tt, mk_mac (mac_name mac) (mac_enabled mac)
      (if negb (m_truncatebits alg =? 0) then m_truncatebits alg / 8 else mac_len) (mac_key mac) key_len
      (m_type alg) (m_etm alg)) in
  if m_type alg =? SSH_DIGEST then
    if negb hmac then
      (Err SSH_ERR_ALLOC_FAIL,
       mk_mac (mac_name mac) (mac_enabled mac) (mac_mac_len mac) (mac_key mac) (mac_key_len mac) (m_type alg)
         (mac_etm mac))
    else set (ssh_hmac_bytes (m_alg alg)) (ssh_hmac_bytes (m_alg alg))
  else set (m_len alg / 8) (m_key_len alg / 8).

Definition mac_by_name (name : bytes) : option macalg :=
  find (fun m => strcmp_eq name (m_name m)) macs.

Definition mac_setup (hmac : bool) (name : bytes) : M sshmac unit :=
  match mac_by_name name with
  | Some m => mac_setup_by_alg hmac m
  | None => fail SSH_ERR_INVALID_ARGUMENT
  end.

(** [mac_setup(NULL, p) < 0] is that there is no such MAC. *)
Definition mac_valid (mem : bool) (names : option bytes) : Z :=
  names_valid mem (fun p => match mac_by_name p with Some _ => true | None => false end) names.

(** ** Key types *)

Definition KEY_RSA1 : Z := 0.
Definition KEY_RSA : Z := 1.
Definition KEY_DSA : Z := 2.
Definition KEY_ECDSA : Z := 3.
Definition KEY_ED25519 : Z := 4.
Definition KEY_RSA_CERT : Z := 5.
Definition KEY_DSA_CERT : Z := 6.
Definition KEY_ECDSA_CERT : Z := 7.
Definition KEY_ED25519_CERT : Z := 8.
Definition KEY_NULL : Z := 9.
Definition KEY_UNSPEC : Z := 10.

Definition NID_X9_62_prime256v1 : Z := 415.
Definition NID_secp384r1 : Z := 715.
Definition NID_secp521r1 : Z := 716.

Record keytype : Type := mk_keytype {
  kt_name : option bytes;
  kt_shortname : bytes;
  kt_type : Z;
  kt_nid : Z;
  kt_cert : bool;
  kt_sigonly : bool
}.

#[local] Definition key_entry (name short : string) := mk_keytype (Some (cstr name)) (cstr short).

Definition keytypes : list keytype :=
  [key_entry "ssh-ed25519" "ED25519" KEY_ED25519 0 false false;
   key_entry "ssh-ed25519-cert-v01@openssh.com" "ED25519-CERT" KEY_ED25519_CERT 0 true false;
   mk_keytype None (cstr "RSA1") KEY_RSA1 0 false false;
   key_entry "ssh-rsa" "RSA" KEY_RSA 0 false false;
   key_entry "rsa-sha2-256" "RSA" KEY_RSA 0 false true;
   key_entry "rsa-sha2-512" "RSA" KEY_RSA 0 false true;
   key_entry "ssh-dss" "DSA" KEY_DSA 0 false false;
   key_entry "ecdsa-sha2-nistp256" "ECDSA" KEY_ECDSA NID_X9_62_prime256v1 false false;
   key_entry "ecdsa-sha2-nistp384" "ECDSA" KEY_ECDSA NID_secp384r1 false false;
   key_entry "ecdsa-sha2-nistp521" "ECDSA" KEY_ECDSA NID_secp521r1 false false;
   key_entry "ssh-rsa-cert-v01@openssh.com" "RSA-CERT" KEY_RSA_CERT 0 true false;
   key_entry "ssh-dss-cert-v01@openssh.com" "DSA-CERT" KEY_DSA_CERT 0 true false;
   key_entry "ecdsa-sha2-nistp256-cert-v01@openssh.com" "ECDSA-CERT" KEY_ECDSA_CERT NID_X9_62_prime256v1
     true false;
   key_entry "ecdsa-sha2-nistp384-cert-v01@openssh.com" "ECDSA-CERT" KEY_ECDSA_CERT NID_secp384r1 true false;
   key_entry "ecdsa-sha2-nistp521-cert-v01@openssh.com" "ECDSA-CERT" KEY_ECDSA_CERT NID_secp521r1 true false;
   key_entry "null" "null" KEY_NULL 0 false false].

(** [sshkey_type] of a key of type [type]. *)
Definition sshkey_type (type : Z) : bytes :=
  match find (fun kt => kt_type kt =? type) keytypes with
  | Some kt => kt_shortname kt
  | None => cstr "unknown"
  end.

(** [None] is the NULL name of RSA1. *)
Definition sshkey_ssh_name_from_type_nid (type nid : Z) : option bytes :=
  match find (fun kt => (kt_type kt =? type) && ((kt_nid kt =? 0) || (kt_nid kt =? nid))) keytypes with
  | Some kt => kt_name kt
  | None => Some (cstr "ssh-unknown")
  end.

Definition sshkey_type_is_cert (type : Z) : bool :=
  match find (fun kt => kt_type kt =? type) keytypes with
  | Some kt => kt_cert kt
  | None => false
  end.

Definition sshkey_type_plain (type : Z) : Z :=
  if type =? KEY_RSA_CERT then KEY_RSA
  else if type =? KEY_DSA_CERT then KEY_DSA
  else if type =? KEY_ECDSA_CERT then KEY_ECDSA
  else if type =? KEY_ED25519_CERT then KEY_ED25519
  else type.

Definition sshkey_type_is_valid_ca (type : Z) : bool :=
  (type =? KEY_RSA) || (type =? KEY_DSA) || (type =? KEY_ECDSA) || (type =? KEY_ED25519).

(** [sshkey_ssh_name] and [sshkey_ssh_name_plain] of a key with these fields. *)
Definition sshkey_ssh_name (type ecdsa_nid : Z) : option bytes :=
  sshkey_ssh_name_from_type_nid type ecdsa_nid.
Definition sshkey_ssh_name_plain (type ecdsa_nid : Z) : option bytes :=
  sshkey_ssh_name_from_type_nid (sshkey_type_plain type) ecdsa_nid.

Definition name_is (kt : keytype) (name : bytes) : bool :=
  match kt_name kt with Some n => strcmp_eq name n | None => false end.

Definition sshkey_type_from_name (name : bytes) : Z :=
  match find (fun kt => name_is kt name ||
                (negb (kt_cert kt) && strcasecmp_eq (kt_shortname kt) name)) keytypes with
  | Some kt => kt_type kt
  | None => KEY_UNSPEC
  end.

Definition sshkey_ecdsa_nid_from_name (name : bytes) : Z :=
  match find (fun kt => negb (negb (kt_type kt =? KEY_ECDSA) && negb (kt_type kt =? KEY_ECDSA_CERT)) &&
                name_is kt name) keytypes with
  | Some kt => kt_nid kt
  | None => -1
  end.

Definition key_alg_list (mem certs_only plain_only : bool) : option bytes :=
  alg_list mem 10 (omap kt_name (List.filter (fun kt =>
    negb (bool_decide (kt_name kt = None) || kt_sigonly kt || (kt_type kt =? KEY_NULL)) &&
    negb ((certs_only && negb (kt_cert kt)) || (plain_only && kt_cert kt))) keytypes)).

(** Some key type but RSA1 has a match, positive or negative, with the pattern. *)
Definition wildcard_matches (p : bytes) : bool :=
  existsb (fun kt => negb (kt_type kt =? KEY_RSA1) &&
             negb (match_pattern_list (default [] (kt_name kt)) p false =? 0)) keytypes.

Definition sshkey_names_valid2 (mem : bool) (names : option bytes) (allow_wildcard : bool) : Z :=
  names_valid mem (fun p =>
    let type := sshkey_type_from_name p in
    if type =? KEY_RSA1 then false
    else if type =? KEY_UNSPEC then allow_wildcard && wildcard_matches p
    else true) names.

Definition sshkey_curve_name_to_nid (name : bytes) : Z :=
  if strcmp_eq name (cstr "nistp256") then NID_X9_62_prime256v1
  else if strcmp_eq name (cstr "nistp384") then NID_secp384r1
  else if strcmp_eq name (cstr "nistp521") then NID_secp521r1
  else -1.
Definition sshkey_curve_nid_to_bits (nid : Z) : Z :=
  if nid =? NID_X9_62_prime256v1 then 256
  else if nid =? NID_secp384r1 then 384
  else if nid =? NID_secp521r1 then 521
  else 0.
Definition sshkey_ecdsa_bits_to_nid (bits : Z) : Z :=
  if bits =? 256 then NID_X9_62_prime256v1
  else if bits =? 384 then NID_secp384r1
  else if bits =? 521 then NID_secp521r1
  else -1.
Definition sshkey_curve_nid_to_name (nid : Z) : option bytes :=
  if nid =? NID_X9_62_prime256v1 then Some (cstr "nistp256")
  else if nid =? NID_secp384r1 then Some (cstr "nistp384")
  else if nid =? NID_secp521r1 then Some (cstr "nistp521")
  else None.
Definition sshkey_ec_nid_to_hash_alg (nid : Z) : Z :=
  let kbits := sshkey_curve_nid_to_bits nid in
  if kbits <=? 0 then -1
  else if kbits <=? 256 then SSH_DIGEST_SHA256
  else if kbits <=? 384 then SSH_DIGEST_SHA384
  else SSH_DIGEST_SHA512.

(** * Properties *)

(** ** Validation *)

Lemma valid_loop_spec fuel ok s :
  (List.length s < fuel)%nat -> valid_loop fuel ok (Some s) = b2z (forallb ok (names s)).
Proof.
  revert s. induction fuel as [|fuel IH]; intros s Hf; [lia|]. cbn [valid_loop strsep].
  unfold names. rewrite split_on_unfold. cbn [until_empty]. change SEP with (ch ",").
  case_bool_decide; [done|]. simpl. destruct (ok (before s (ch ","))); [|done]. simpl.
  destruct (strchr s (ch ",")) as [r|] eqn:E.
  - apply strchr_length in E as [? ?]. destruct r as [|x r]; [done|]. apply IH. simpl in *. lia.
  - destruct fuel; [|done]. simpl in *. destruct s; [done|simpl in *; lia].
Qed.

Lemma names_valid_spec ok s :
  names_valid true ok (Some s) = b2z (negb (strcmp_eq s []) && forallb ok (names s)).
Proof.
  unfold names_valid. destruct (strcmp_eq s []); [done|]. cbn [negb andb]. apply valid_loop_spec. lia.
Qed.

(** C30. The validators of lists of ciphers, MACs and key types accept a string
    exactly when it is not empty and every name in it up to the first empty
    one is supported: a cipher of protocol 2, a MAC, a key type other than
    RSA1 or, with wildcards allowed, a pattern some key type is matched by. *)
Theorem names_valid_exact s wild :
  (ciphers_valid true (Some s) = 1 <->
     s <> [] /\ Forall (fun p => exists c, cipher_by_name p = Some c /\ c_number c = SSH_CIPHER_SSH2)
                (names s)) /\
  (mac_valid true (Some s) = 1 <->
     s <> [] /\ Forall (fun p => exists m, mac_by_name p = Some m) (names s)) /\
  (sshkey_names_valid2 true (Some s) wild = 1 <->
     s <> [] /\ Forall (fun p =>
       sshkey_type_from_name p <> KEY_RSA1 /\
       (sshkey_type_from_name p <> KEY_UNSPEC \/ wild = true /\ wildcard_matches p = true)) (names s)).
Proof.
  assert (forall ok (P : bytes -> Prop), (forall p, ok p = true <-> P p) ->
    names_valid true ok (Some s) = 1 <-> s <> [] /\ Forall P (names s)) as Hv.
  { intros ok P Hok. rewrite names_valid_spec. unfold strcmp_eq.
    assert (Forall P (names s) <-> forallb ok (names s) = true) as ->.
    { rewrite forallb_forall, List.Forall_forall. naive_solver. } case_bool_decide; simpl; [intuition done|].
    destruct (forallb ok (names s)); simpl; intuition done. }
  split_and!; apply Hv; intros p.
  - destruct (cipher_by_name p) as [c|]; [|naive_solver].
    rewrite Z.eqb_eq. naive_solver.
  - destruct (mac_by_name p); naive_solver.
  - cbv zeta. generalize (sshkey_type_from_name p). intros type.
    destruct (Z.eqb_spec type KEY_RSA1); [intuition congruence|].
    destruct (Z.eqb_spec type KEY_UNSPEC); [|intuition congruence].
    rewrite andb_true_iff. intuition congruence.
Qed.

(** What follows an empty name is not looked at. *)
Lemma names_valid_ignores_rest :
  ciphers_valid true (Some (cstr "aes128-ctr,,no-such-cipher")) = 1 /\
  mac_valid true (Some (cstr ",no-such-mac")) = 1 /\
  sshkey_names_valid2 true (Some (cstr ",no-such-key")) false = 1.
Proof. vm_compute. done. Qed.

(** The lists of supported algorithms pass their own validators, and the
    names in them are distinct. *)
Theorem supported_lists_valid :
  match cipher_alg_list true (ch ",") false, mac_alg_list true (ch ",") with
  | Some cs, Some ms =>
      ciphers_valid true (Some cs) = 1 /\ mac_valid true (Some ms) = 1 /\
      NoDup (names cs) /\ NoDup (names ms) /\
      names cs = c_name <$> List.filter (fun c => c_number c =? SSH_CIPHER_SSH2) ciphers /\
      names ms = m_name <$> macs
  | _, _ => False
  end.
Proof.
  vm_compute cipher_alg_list. vm_compute mac_alg_list. cbv beta iota.
  split_and!; try (vm_compute; reflexivity);
    (eapply bool_decide_eq_true_1; vm_compute; reflexivity).
Qed.

(** The name of a key type leads back to the key type and its curve: for
    every type but the nameless RSA1 and every curve, the name that
    [sshkey_ssh_name] gives a key is resolved by [sshkey_type_from_name] and
    [sshkey_ecdsa_nid_from_name] to the type and curve of the key, stripping
    the certificate gives the name of a plain type, and the names, sizes and
    NIDs of curves convert into each other. *)
Theorem key_names_roundtrip type nid :
  KEY_RSA1 < type <= KEY_NULL ->
  In nid [NID_X9_62_prime256v1; NID_secp384r1; NID_secp521r1] ->
  (exists n, sshkey_ssh_name type nid = Some n /\ sshkey_type_from_name n = type /\
     (sshkey_type_plain type = KEY_ECDSA -> sshkey_ecdsa_nid_from_name n = nid)) /\
  (exists n, sshkey_ssh_name_plain type nid = Some n /\
     sshkey_type_is_cert (sshkey_type_from_name n) = false) /\
  sshkey_ecdsa_bits_to_nid (sshkey_curve_nid_to_bits nid) = nid /\
  (exists n, sshkey_curve_nid_to_name nid = Some n /\ sshkey_curve_name_to_nid n = nid) /\
  8 * ssh_digest_bytes (sshkey_ec_nid_to_hash_alg nid) =
    Z.min 512 (sshkey_curve_nid_to_bits nid).
Proof.
  intros Ht Hn. assert (type = 1 \/ type = 2 \/ type = 3 \/ type = 4 \/ type = 5 \/ type = 6 \/
    type = 7 \/ type = 8 \/ type = 9) as Hcases by (unfold KEY_RSA1, KEY_NULL in Ht; lia).
  clear Ht. destruct Hn as [<-|[<-|[<-|[]]]];
    (repeat destruct Hcases as [->|Hcases]; [..|subst type]);
    (split_and!; try (eexists; split; [vm_compute; reflexivity|]);
      try (split; [vm_compute; reflexivity|]); vm_compute; (reflexivity || discriminate || (intros; reflexivity))).
Qed.

Lemma key_names_roundtrip_witness :
  exists n, sshkey_ssh_name KEY_ECDSA_CERT NID_secp521r1 = Some n /\
    sshkey_type_from_name n = KEY_ECDSA_CERT /\
    (sshkey_type_plain KEY_ECDSA_CERT = KEY_ECDSA -> sshkey_ecdsa_nid_from_name n = NID_secp521r1).
Proof.
  apply (key_names_roundtrip KEY_ECDSA_CERT NID_secp521r1); [vm_compute; split; congruence|].
  simpl. tauto.
Defined.
