(* ===== verification/Digest.v ===== *)
(** Hashing: the digest contexts of digest-openssl.c and the HMAC of hmac.c.

    The hash functions themselves are OpenSSL's EVP interface: a typeclass of
    operations, with the documented behaviour in a second class: a context
    stands for the bytes hashed so far and no call fails.  Over it,
    [ssh_hmac_init], [ssh_hmac_update] and [ssh_hmac_final] compute the HMAC
    of RFC 2104, for any number of messages under one key. *)

From S2P Require Import Prelude Wire Sshbuf SshbufGetput Algs.

(** ** OpenSSL's digests *)

Definition SSH_DIGEST_MAX_LENGTH : Z := 64.

(** [None] is a return value other than 1.  [EVP_DigestFinal_ex] returns the
    bytes it stores. *)
Class Evp : Type := {
  evp_ctx : Type;
  EVP_DigestInit_ex : Z -> option evp_ctx;
  EVP_DigestUpdate : evp_ctx -> bytes -> option evp_ctx;
  EVP_DigestFinal_ex : evp_ctx -> option (bytes * evp_ctx);
  EVP_MD_CTX_copy_ex : evp_ctx -> option evp_ctx;
  EVP_MD_CTX_block_size : evp_ctx -> Z;
  EVP_Digest : Z -> bytes -> option bytes
}.

(** The documented behaviour: [hash] and [block] are the functions and their
    block sizes; [evp_rep c alg m] is that [c] has hashed [m]. *)
Class EvpSpec (E : Evp) : Type := {
  hash : Z -> bytes -> bytes;
  block : Z -> Z;
  evp_rep : evp_ctx -> Z -> bytes -> Prop;
  hash_zlen : forall alg m, ssh_digest_by_alg alg <> None -> zlen (hash alg m) = ssh_digest_bytes alg;
  hash_Bytes : forall alg m, Bytes (hash alg m);
  block_large : forall alg, ssh_digest_by_alg alg <> None -> ssh_digest_bytes alg <= block alg < 2 ^ 32;
  init_rep : forall alg, ssh_digest_by_alg alg <> None ->
    exists c, EVP_DigestInit_ex alg = Some c /\ evp_rep c alg [];
  update_rep : forall c alg m v, evp_rep c alg m ->
    exists c', EVP_DigestUpdate c v = Some c' /\ evp_rep c' alg (m ++ v);
  final_rep : forall c alg m, evp_rep c alg m ->
    exists c', EVP_DigestFinal_ex c = Some (hash alg m, c');
  copy_rep : forall c alg m, evp_rep c alg m ->
    exists c', EVP_MD_CTX_copy_ex c = Some c' /\ evp_rep c' alg m;
  block_rep : forall c alg m, evp_rep c alg m -> EVP_MD_CTX_block_size c = block alg;
  digest_rep : forall alg m, ssh_digest_by_alg alg <> None -> EVP_Digest alg m = Some (hash alg m)
}.

Section digest.
Context `{Evp}.

(** ** digest-openssl.c *)

Record ssh_digest_ctx : Type := mk_digest_ctx { dc_alg : Z; dc_mdctx : evp_ctx }.

Definition ssh_digest_blocksize (ctx : ssh_digest_ctx) : Z := EVP_MD_CTX_block_size (dc_mdctx ctx).

(** [mem] is whether [calloc] succeeds. *)
Definition ssh_digest_start (mem : bool) (alg : Z) : option ssh_digest_ctx :=
  match ssh_digest_by_alg alg with
  | None => None
  | Some _ =>
      if negb mem then None
      else match EVP_DigestInit_ex alg with
           | None => None
           | Some c => Some (mk_digest_ctx alg c)
           end
  end.

(** The state is [to]. *)
Definition ssh_digest_copy_state (from : ssh_digest_ctx) : M ssh_digest_ctx unit := fun to =>
  if negb (dc_alg from =? dc_alg to) then (Err SSH_ERR_INVALID_ARGUMENT, to)
  else match EVP_MD_CTX_copy_ex (dc_mdctx from) with
       | None => (Err SSH_ERR_LIBCRYPTO_ERROR, to)
       | Some c => (Ok tt, mk_digest_ctx (dc_alg to) c)
       end.

Definition ssh_digest_update (m : bytes) : M ssh_digest_ctx unit := fun ctx =>
  match EVP_DigestUpdate (dc_mdctx ctx) m with
  | None => (Err SSH_ERR_LIBCRYPTO_ERROR, ctx)
  | Some c => (Ok tt, mk_digest_ctx (dc_alg ctx) c)
  end.

Definition ssh_digest_update_buffer (b : sshbuf) : M ssh_digest_ctx unit :=
  ssh_digest_update (ztake (sshbuf_len b) (ptr_of b)).

Definition UINT_MAX : Z := 2 ^ 32 - 1.

(** The result is what is stored at [d]; the algorithm of a context is a known
    one, for another the C code would follow a NULL pointer. *)
Definition ssh_digest_final (dlen : Z) : M ssh_digest_ctx bytes := fun ctx =>
  match ssh_digest_by_alg (dc_alg ctx) with
  | None => (Err SSH_ERR_INTERNAL_ERROR, ctx)
  | Some digest =>
      if UINT_MAX <? dlen then (Err SSH_ERR_INVALID_ARGUMENT, ctx)
      else if dlen <? d_digest_len digest then (Err SSH_ERR_INVALID_ARGUMENT, ctx)
      else match EVP_DigestFinal_ex (dc_mdctx ctx) with
           | None => (Err SSH_ERR_LIBCRYPTO_ERROR, ctx)
           | Some (d, c) =>
               (if negb (zlen d =? d_digest_len digest) then Err SSH_ERR_INTERNAL_ERROR else Ok d,
                mk_digest_ctx (dc_alg ctx) c)
           end
  end.

Definition ssh_digest_memory (alg : Z) (m : bytes) (dlen : Z) : result bytes :=
  match ssh_digest_by_alg alg with
  | None => Err SSH_ERR_INVALID_ARGUMENT
  | Some digest =>
      if UINT_MAX <? dlen then Err SSH_ERR_INVALID_ARGUMENT
      else if dlen <? d_digest_len digest then Err SSH_ERR_INVALID_ARGUMENT
      else match EVP_Digest alg m with
           | None => Err SSH_ERR_LIBCRYPTO_ERROR
           | Some d => Ok d
           end
  end.

Definition ssh_digest_buffer (alg : Z) (b : sshbuf) (dlen : Z) : result bytes :=
  ssh_digest_memory alg (ztake (sshbuf_len b) (ptr_of b)) dlen.

(** ** hmac.c *)

Record ssh_hmac_ctx : Type := mk_hmac_ctx {
  h_alg : Z;
  h_ictx : ssh_digest_ctx;
  h_octx : ssh_digest_ctx;
  h_digest : ssh_digest_ctx;
  h_buf : bytes;
  h_buf_len : Z
}.

Definition set_ictx (c : ssh_digest_ctx) (x : ssh_hmac_ctx) : ssh_hmac_ctx :=
  mk_hmac_ctx (h_alg x) c (h_octx x) (h_digest x) (h_buf x) (h_buf_len x).
Definition set_octx (c : ssh_digest_ctx) (x : ssh_hmac_ctx) : ssh_hmac_ctx :=
  mk_hmac_ctx (h_alg x) (h_ictx x) c (h_digest x) (h_buf x) (h_buf_len x).
Definition set_digest (c : ssh_digest_ctx) (x : ssh_hmac_ctx) : ssh_hmac_ctx :=
  mk_hmac_ctx (h_alg x) (h_ictx x) (h_octx x) c (h_buf x) (h_buf_len x).
Definition set_buf (v : bytes) (x : ssh_hmac_ctx) : ssh_hmac_ctx :=
  mk_hmac_ctx (h_alg x) (h_ictx x) (h_octx x) (h_digest x) v (h_buf_len x).

(** An operation on one of the contexts; its failure is the -1 of hmac.c. *)
Definition on {A} (get : ssh_hmac_ctx -> ssh_digest_ctx)
    (set : ssh_digest_ctx -> ssh_hmac_ctx -> ssh_hmac_ctx) (m : M ssh_digest_ctx A)
    : M ssh_hmac_ctx A := fun x =>
  match m (get x) with
  | (Ok a, c) => (Ok a, set c x)
  | (Err _, c) => (Err (-1), set c x)
  end.
Definition on_ictx {A} : M ssh_digest_ctx A -> M ssh_hmac_ctx A := on h_ictx set_ictx.
Definition on_octx {A} : M ssh_digest_ctx A -> M ssh_hmac_ctx A := on h_octx set_octx.
Definition on_digest {A} : M ssh_digest_ctx A -> M ssh_hmac_ctx A := on h_digest set_digest.

Definition ssh_hmac_start (mem : bool) (alg : Z) : option ssh_hmac_ctx :=
  match ssh_digest_start mem alg, ssh_digest_start mem alg, ssh_digest_start mem alg with
  | Some ictx, Some octx, Some digest =>
      let buf_len := ssh_digest_blocksize ictx in
      if negb mem then None else Some (mk_hmac_ctx alg ictx octx digest (zrep buf_len 0) buf_len)
  | _, _, _ => None
  end.

(** [buf[i] ^= c] for every byte. *)
Definition xor_buf (c : Z) : M ssh_hmac_ctx unit := fun x =>
  (Ok tt, set_buf ((fun b => Z.lxor b c) <$> h_buf x) x).
Definition store_buf (v : bytes) : M ssh_hmac_ctx unit := fun x =>
  (Ok tt, set_buf (write_at 0 v (h_buf x)) x).

(** [None] is the NULL key. *)
Definition ssh_hmac_init (key : option bytes) : M ssh_hmac_ctx unit :=
  match key with
  | None => ret tt
  | Some key =>
      (let! x := get_state in
       if zlen key <=? h_buf_len x then store_buf key
       else match ssh_digest_memory (h_alg x) key (h_buf_len x) with
            | Err _ => fail (-1)
            | Ok d => store_buf d
            end) ;;;
      xor_buf 0x36 ;;;
      (let! x := get_state in on_ictx (ssh_digest_update (h_buf x))) ;;;
      xor_buf (Z.lxor 0x36 0x5c) ;;;
      (let! x := get_state in on_octx (ssh_digest_update (h_buf x))) ;;;
      (fun x => (Ok tt, set_buf (zrep (h_buf_len x) 0) x))
  end ;;;
  let! x := get_state in
  on_digest (ssh_digest_copy_state (h_ictx x)).

Definition ssh_hmac_update (m : bytes) : M ssh_hmac_ctx unit := fun x =>
  let '(r, c) := ssh_digest_update m (h_digest x) in (r, set_digest c x).
Definition ssh_hmac_update_buffer (b : sshbuf) : M ssh_hmac_ctx unit := fun x =>
  let '(r, c) := ssh_digest_update_buffer b (h_digest x) in (r, set_digest c x).

(** The result is what is stored at [d]. *)
Definition ssh_hmac_final (dlen : Z) : M ssh_hmac_ctx bytes :=
  let! x := get_state in
  let len := ssh_digest_bytes (h_alg x) in
  if dlen <? len then fail (-1)
  else
    let! d := on_digest (ssh_digest_final len) in
    store_buf d ;;;
    (let! x := get_state in on_digest (ssh_digest_copy_state (h_octx x))) ;;;
    (let! x := get_state in on_digest (ssh_digest_update (ztake len (h_buf x)))) ;;;
    on_digest (ssh_digest_final dlen).

(** ** Specification: RFC 2104 *)

Context `{!EvpSpec _}.

(** The key padded with zeros to a block, hashed first when it is longer. *)
Definition hmac_pad (alg : Z) (key : bytes) : bytes :=
  let k := if zlen key <=? block alg then key else hash alg key in
  k ++ zrep (block alg - zlen k) 0.
Definition xor_bytes (c : Z) (l : bytes) : bytes := (fun b => Z.lxor b c) <$> l.
Definition HMAC (alg : Z) (key m : bytes) : bytes :=
  hash alg (xor_bytes 0x5c (hmac_pad alg key) ++ hash alg (xor_bytes 0x36 (hmac_pad alg key) ++ m)).

(** A message in pieces: the calls of [mac_compute]. *)
Fixpoint hmac_updates (ms : list bytes) : M ssh_hmac_ctx unit :=
  match ms with
  | [] => ret tt
  | m :: ms => ssh_hmac_update m ;;; hmac_updates ms
  end.
Definition hmac_message (dlen : Z) (ms : list bytes) : M ssh_hmac_ctx bytes :=
  ssh_hmac_init None ;;; hmac_updates ms ;;; ssh_hmac_final dlen.
Fixpoint hmac_messages (dlen : Z) (mss : list (list bytes)) : M ssh_hmac_ctx (list bytes) :=
  match mss with
  | [] => ret []
  | ms :: mss =>
      let! d := hmac_message dlen ms in
      let! ds := hmac_messages dlen mss in
      ret (d :: ds)
  end.

(** ** Lemmas *)

Definition dc_rep (c : ssh_digest_ctx) (alg : Z) (m : bytes) : Prop :=
  dc_alg c = alg /\ evp_rep (dc_mdctx c) alg m.

Lemma digest_by_alg_len alg d :
  ssh_digest_by_alg alg = Some d -> d_digest_len d = ssh_digest_bytes alg.
Proof. unfold ssh_digest_bytes. by intros ->. Qed.

Lemma ssh_digest_start_rep alg :
  ssh_digest_by_alg alg <> None -> exists c, ssh_digest_start true alg = Some c /\ dc_rep c alg [].
Proof.
  intros Ha. destruct (init_rep alg Ha) as (c & E & R). unfold ssh_digest_start.
  destruct (ssh_digest_by_alg alg); [|done]. simpl. rewrite E. eexists. by split.
Qed.

Lemma ssh_digest_update_rep c alg m v :
  dc_rep c alg m -> exists c', ssh_digest_update v c = (Ok tt, c') /\ dc_rep c' alg (m ++ v).
Proof.
  intros (Ha & R). destruct (update_rep _ _ _ v R) as (c' & E & R').
  unfold ssh_digest_update. rewrite E. eexists. by split.
Qed.

Lemma ssh_digest_copy_rep from alg m to :
  dc_rep from alg m -> dc_alg to = alg ->
  exists c, ssh_digest_copy_state from to = (Ok tt, c) /\ dc_rep c alg m.
Proof.
  intros (Ha & R) Ht. destruct (copy_rep _ _ _ R) as (c & E & R').
  unfold ssh_digest_copy_state. rewrite Ha, Ht, Z.eqb_refl, E. simpl. eexists. by split.
Qed.

Lemma ssh_digest_final_rep c alg m dlen :
  dc_rep c alg m -> ssh_digest_by_alg alg <> None -> ssh_digest_bytes alg <= dlen <= UINT_MAX ->
  exists c', ssh_digest_final dlen c = (Ok (hash alg m), c') /\ dc_alg c' = alg.
Proof.
  intros (Ha & R) Hk Hd. pose proof (hash_zlen alg m Hk) as Hl.
  destruct (final_rep _ _ _ R) as (c' & E). unfold ssh_digest_final. rewrite Ha.
  destruct (ssh_digest_by_alg alg) as [d|] eqn:Ed; [|done].
  apply digest_by_alg_len in Ed. rewrite Ed.
  destruct (Z.ltb_spec UINT_MAX dlen); [lia|].
  destruct (Z.ltb_spec dlen (ssh_digest_bytes alg)); [lia|].
  rewrite E, Hl, Z.eqb_refl. eexists. by split.
Qed.

Lemma ssh_digest_memory_eq alg m dlen :
  ssh_digest_by_alg alg <> None -> ssh_digest_bytes alg <= dlen <= UINT_MAX ->
  ssh_digest_memory alg m dlen = Ok (hash alg m).
Proof.
  intros Hk Hd. pose proof (digest_rep alg m Hk) as E. unfold ssh_digest_memory.
  destruct (ssh_digest_by_alg alg) as [d|] eqn:Ed; [|done].
  apply digest_by_alg_len in Ed. rewrite Ed.
  destruct (Z.ltb_spec UINT_MAX dlen); [lia|].
  destruct (Z.ltb_spec dlen (ssh_digest_bytes alg)); [lia|]. by rewrite E.
Qed.

(** A context that has been given [key]. *)
Record keyed (alg : Z) (key : bytes) (x : ssh_hmac_ctx) : Prop := {
  keyed_alg : h_alg x = alg;
  keyed_ictx : dc_rep (h_ictx x) alg (xor_bytes 0x36 (hmac_pad alg key));
  keyed_octx : dc_rep (h_octx x) alg (xor_bytes 0x5c (hmac_pad alg key));
  keyed_digest : dc_alg (h_digest x) = alg;
  keyed_buf : zlen (h_buf x) = block alg
}.

(** A context that has hashed [m] of a message. *)
Definition hashing (alg : Z) (key m : bytes) (x : ssh_hmac_ctx) : Prop :=
  keyed alg key x /\ dc_rep (h_digest x) alg (xor_bytes 0x36 (hmac_pad alg key) ++ m).

Lemma keyed_set_digest alg key c x :
  keyed alg key x -> dc_alg c = alg -> keyed alg key (set_digest c x).
Proof. by intros []. Qed.

Lemma ssh_hmac_start_fresh alg :
  ssh_digest_by_alg alg <> None ->
  exists x, ssh_hmac_start true alg = Some x /\ h_alg x = alg /\ dc_rep (h_ictx x) alg [] /\
    dc_rep (h_octx x) alg [] /\ dc_rep (h_digest x) alg [] /\
    h_buf x = zrep (block alg) 0 /\ h_buf_len x = block alg.
Proof.
  intros Hk. destruct (ssh_digest_start_rep alg Hk) as (c & E & R).
  unfold ssh_hmac_start, ssh_digest_blocksize. rewrite E, (block_rep _ _ _ (proj2 R)). simpl.
  eexists. split; [done|]. by split_and!.
Qed.

Lemma write_at_0 v l : zlen v <= zlen l -> write_at 0 v l = v ++ zdrop (zlen v) l.
Proof. intros. unfold write_at. by rewrite ztake_0. Qed.

Lemma zdrop_zrep n m v : 0 <= n -> zdrop n (zrep m v) = zrep (m - n) v.
Proof. intros. unfold zdrop, zrep. rewrite drop_replicate. f_equal. lia. Qed.

Lemma digest_bytes_nonneg alg : ssh_digest_by_alg alg <> None -> 0 <= ssh_digest_bytes alg.
Proof. intros Hk. rewrite <- (hash_zlen alg [] Hk). apply zlen_nonneg. Qed.

(** The padded key in the buffer. *)
Lemma hmac_pad_store alg key :
  ssh_digest_by_alg alg <> None ->
  let k := if zlen key <=? block alg then key else hash alg key in
  write_at 0 k (zrep (block alg) 0) = hmac_pad alg key /\ zlen (hmac_pad alg key) = block alg.
Proof.
  intros Hk k. pose proof (block_large alg Hk).
  assert (Hlen : 0 <= zlen k <= block alg).
  { split; [zl|]. subst k. destruct (Z.leb_spec (zlen key) (block alg)); [done|].
    rewrite hash_zlen by done. lia. }
  assert (zlen (zrep (block alg) 0) = block alg) as Hz by (apply zlen_zrep; lia).
  split.
  - rewrite write_at_0 by lia. rewrite zdrop_zrep by lia. done.
  - unfold hmac_pad. fold k. rewrite zlen_app, zlen_zrep; lia.
Qed.

Lemma xor_twice l : (fun b => Z.lxor b (Z.lxor 0x36 0x5c)) <$> xor_bytes 0x36 l = xor_bytes 0x5c l.
Proof.
  unfold xor_bytes. rewrite <- list_fmap_compose. apply list_fmap_ext. intros i x _. simpl.
  rewrite Z.lxor_assoc. f_equal.
Qed.

Lemma ssh_hmac_init_null alg key x :
  keyed alg key x ->
  exists x', ssh_hmac_init None x = (Ok tt, x') /\ hashing alg key [] x'.
Proof.
  intros K. destruct (ssh_digest_copy_rep _ _ _ (h_digest x) (keyed_ictx _ _ _ K)
    (keyed_digest _ _ _ K)) as (c & E & R).
  unfold ssh_hmac_init, bind, ret, get_state, on_digest, on. rewrite E.
  eexists. split; [done|]. split; [|by rewrite app_nil_r].
  apply keyed_set_digest; [done|]. apply R.
Qed.

(** Keying a fresh context. *)
Lemma ssh_hmac_init_key alg key x :
  ssh_digest_by_alg alg <> None ->
  h_alg x = alg -> dc_rep (h_ictx x) alg [] -> dc_rep (h_octx x) alg [] -> dc_alg (h_digest x) = alg ->
  h_buf x = zrep (block alg) 0 -> h_buf_len x = block alg ->
  exists x', ssh_hmac_init (Some key) x = (Ok tt, x') /\ keyed alg key x'.
Proof.
  intros Hk Ha Hi Ho Hd Hb Hl. pose proof (block_large alg Hk) as Hbl.
  pose proof (digest_bytes_nonneg alg Hk).
  destruct (hmac_pad_store alg key Hk) as (Hp & Hpl). cbv zeta in Hp.
  assert (Hstore : (let! x := get_state in
       if zlen key <=? h_buf_len x then store_buf key
       else match ssh_digest_memory (h_alg x) key (h_buf_len x) with
            | Err _ => fail (-1)
            | Ok d => store_buf d
            end) x = (Ok tt, set_buf (hmac_pad alg key) x)).
  { unfold bind, get_state. rewrite Hl, Ha, <- Hp. destruct (zlen key <=? block alg).
    - unfold store_buf. by rewrite Hb.
    - rewrite ssh_digest_memory_eq by (done || unfold UINT_MAX; lia). unfold store_buf. by rewrite Hb. }
  unfold ssh_hmac_init. unfold bind at 1. unfold bind at 1. rewrite Hstore.
  destruct (ssh_digest_update_rep _ _ _ (xor_bytes 0x36 (hmac_pad alg key)) Hi) as (ci & Ei & Ri).
  destruct (ssh_digest_update_rep _ _ _ (xor_bytes 0x5c (hmac_pad alg key)) Ho) as (co & Eo & Ro).
  destruct (ssh_digest_copy_rep _ _ _ (h_digest x) Ri Hd) as (cd & Ed & Rd).
  unfold bind, ret, get_state, on_digest, on_octx, on_ictx, on, xor_buf.
  cbn [h_buf h_ictx h_octx h_digest h_buf_len h_alg set_buf set_ictx set_octx set_digest].
  fold (xor_bytes 0x36 (hmac_pad alg key)). rewrite Ei.
  cbn [h_buf h_ictx h_octx h_digest h_buf_len h_alg set_buf set_ictx set_octx set_digest].
  rewrite xor_twice, Eo.
  cbn [h_buf h_ictx h_octx h_digest h_buf_len h_alg set_buf set_ictx set_octx set_digest].
  rewrite Ed. eexists. split; [done|].
  constructor; simpl; try done.
  - apply Rd.
  - rewrite Hl. apply zlen_zrep. lia.
Qed.

Lemma ssh_hmac_update_hashing alg key m v x :
  hashing alg key m x ->
  exists x', ssh_hmac_update v x = (Ok tt, x') /\ hashing alg key (m ++ v) x'.
Proof.
  intros (K & R). destruct (ssh_digest_update_rep _ _ _ v R) as (c & E & R').
  unfold ssh_hmac_update. rewrite E. eexists. split; [done|]. rewrite <- (assoc_L (++)) in R'.
  split; [|done]. apply keyed_set_digest; [done|]. apply R'.
Qed.

Lemma hmac_updates_hashing alg key ms : forall m x,
  hashing alg key m x ->
  exists x', hmac_updates ms x = (Ok tt, x') /\ hashing alg key (m ++ concat ms) x'.
Proof.
  induction ms as [|v ms IH]; intros m x Hx; simpl.
  - rewrite app_nil_r. eauto.
  - destruct (ssh_hmac_update_hashing _ _ _ v _ Hx) as (x1 & E1 & H1).
    destruct (IH _ _ H1) as (x2 & E2 & H2). unfold bind. rewrite E1, E2.
    rewrite (assoc_L (++)). eauto.
Qed.

Lemma ssh_hmac_final_hashing alg key m x dlen :
  ssh_digest_by_alg alg <> None -> ssh_digest_bytes alg <= dlen <= UINT_MAX ->
  hashing alg key m x ->
  exists x', ssh_hmac_final dlen x = (Ok (HMAC alg key m), x') /\ keyed alg key x'.
Proof.
  intros Hk Hd (K & R). pose proof (block_large alg Hk). pose proof (keyed_buf _ _ _ K) as Hbuf.
  set (inner := hash alg (xor_bytes 0x36 (hmac_pad alg key) ++ m)).
  assert (Hin : zlen inner = ssh_digest_bytes alg) by (by apply hash_zlen).
  assert (UINT_MAX = 4294967295) by done. assert (0 <= zlen inner) by zl.
  destruct (ssh_digest_final_rep _ _ _ (ssh_digest_bytes alg) R Hk ltac:(lia)) as (c1 & E1 & A1).
  destruct (ssh_digest_copy_rep _ _ _ c1 (keyed_octx _ _ _ K) A1) as (c2 & E2 & R2).
  destruct (ssh_digest_update_rep _ _ _ inner R2) as (c3 & E3 & R3).
  destruct (ssh_digest_final_rep _ _ _ dlen R3 Hk ltac:(lia)) as (c4 & E4 & A4).
  unfold ssh_hmac_final, bind, get_state, on_digest, on, store_buf. rewrite (keyed_alg _ _ _ K).
  destruct (Z.ltb_spec dlen (ssh_digest_bytes alg)); [lia|]. rewrite E1.
  cbn [h_buf h_ictx h_octx h_digest h_buf_len h_alg set_buf set_ictx set_octx set_digest].
  fold inner. rewrite E2.
  cbn [h_buf h_ictx h_octx h_digest h_buf_len h_alg set_buf set_ictx set_octx set_digest].
  assert (Hw : write_at 0 inner (h_buf x) = inner ++ zdrop (zlen inner) (h_buf x))
    by (apply write_at_0; lia).
  assert (ztake (ssh_digest_bytes alg) (write_at 0 inner (h_buf x)) = inner) as ->.
  { rewrite Hw, <- Hin. by apply ztake_app. }
  rewrite E3.
  cbn [h_buf h_ictx h_octx h_digest h_buf_len h_alg set_buf set_ictx set_octx set_digest].
  rewrite E4. eexists. split; [done|]. destruct K. constructor; simpl; try done.
  rewrite zlen_write_at by lia. done.
Qed.

Lemma hmac_messages_keyed alg key dlen mss : forall x,
  ssh_digest_by_alg alg <> None -> ssh_digest_bytes alg <= dlen <= UINT_MAX ->
  keyed alg key x ->
  exists x', hmac_messages dlen mss x = (Ok ((fun ms => HMAC alg key (concat ms)) <$> mss), x') /\
    keyed alg key x'.
Proof.
  induction mss as [|ms mss IH]; intros x Hk Hd K; simpl; [eauto|].
  destruct (ssh_hmac_init_null _ _ _ K) as (x1 & E1 & H1).
  destruct (hmac_updates_hashing _ _ ms _ _ H1) as (x2 & E2 & H2).
  destruct (ssh_hmac_final_hashing _ _ _ _ _ Hk Hd H2) as (x3 & E3 & K3).
  destruct (IH x3 Hk Hd K3) as (x4 & E4 & K4).
  unfold hmac_message, bind. rewrite E1, E2, E3, E4. simpl. eauto.
Qed.

(** C31. A context started for a known hash function and given a key computes
    the HMAC of RFC 2104 of every message that follows, whatever pieces a
    message comes in and however many messages there are, for short and long
    keys; a result buffer that is too short is refused. *)
Theorem hmac_rfc2104 alg key dlen mss :
  ssh_digest_by_alg alg <> None -> ssh_digest_bytes alg <= dlen <= UINT_MAX ->
  (exists x x', ssh_hmac_start true alg = Some x /\
     (ssh_hmac_init (Some key) ;;; hmac_messages dlen mss) x =
       (Ok ((fun ms => HMAC alg key (concat ms)) <$> mss), x')) /\
  (forall x n, h_alg x = alg -> n < ssh_digest_bytes alg -> ssh_hmac_final n x = (Err (-1), x)).
Proof.
  intros Hk Hd. split.
  - destruct (ssh_hmac_start_fresh alg Hk) as (x & E & Ha & Hi & Ho & Hdg & Hb & Hl).
    destruct (ssh_hmac_init_key alg key x) as (x1 & E1 & K1); try done; [apply Hdg|].
    destruct (hmac_messages_keyed alg key dlen mss x1 Hk Hd K1) as (x2 & E2 & _).
    exists x, x2. split; [done|]. unfold bind. by rewrite E1.
  - intros x n Hx Hn. unfold ssh_hmac_final, bind, get_state. rewrite Hx.
    destruct (Z.ltb_spec n (ssh_digest_bytes alg)); [done|lia].
Qed.
End digest.

(** ** A concrete hash function, for the witnesses *)

Definition toy_hash (alg : Z) (m : bytes) : bytes :=
  zrep (ssh_digest_bytes alg) (u8 (fold_left (fun a b => 31 * a + b) m 7)).
#[export] Instance toy_evp : Evp := {
  evp_ctx := Z * bytes;
  EVP_DigestInit_ex alg := Some (alg, []);
  EVP_DigestUpdate c v := Some (fst c, snd c ++ v);
  EVP_DigestFinal_ex c := Some (toy_hash (fst c) (snd c), c);
  EVP_MD_CTX_copy_ex c := Some c;
  EVP_MD_CTX_block_size c := 64;
  EVP_Digest alg m := Some (toy_hash alg m)
}.

Lemma known_digests alg :
  ssh_digest_by_alg alg <> None -> alg = 0 \/ alg = 1 \/ alg = 2 \/ alg = 3 \/ alg = 4 \/ alg = 5.
Proof.
  unfold ssh_digest_by_alg, SSH_DIGEST_MAX.
  destruct (Z.ltb_spec alg 0); [done|]. destruct (Z.leb_spec 6 alg); [done|]. intros _. lia.
Qed.

#[export] Instance toy_evp_spec : EvpSpec toy_evp.
Proof.
  refine {| hash := toy_hash; block := fun _ => 64; evp_rep := fun c alg m => c = (alg, m) |}.
  - intros alg m Hk. unfold toy_hash. apply zlen_zrep.
    destruct (known_digests alg Hk) as [->|[->|[->|[->|[->| ->]]]]]; by vm_compute.
  - intros. apply Bytes_zrep, wrap_range. lia.
  - intros alg Hk. destruct (known_digests alg Hk) as [->|[->|[->|[->|[->| ->]]]]]; by vm_compute.
  - eauto.
  - intros c alg m v ->. eauto.
  - intros c alg m ->. eauto.
  - intros c alg m ->. eauto.
  - done.
  - done.
Defined.

Lemma hmac_rfc2104_witness :
  exists x x', ssh_hmac_start true SSH_DIGEST_SHA1 = Some x /\
    (ssh_hmac_init (Some (cstr "key")) ;;; hmac_messages 20 [[[1; 2]; [3]]; [cstr "abc"]]) x =
      (Ok [HMAC SSH_DIGEST_SHA1 (cstr "key") [1; 2; 3]; HMAC SSH_DIGEST_SHA1 (cstr "key") (cstr "abc")], x').
Proof.
  apply (hmac_rfc2104 SSH_DIGEST_SHA1 (cstr "key") 20 [[[1; 2]; [3]]; [cstr "abc"]]).
  - vm_compute; congruence.
  - vm_compute; split; congruence.
Defined.
