(* ===== verification/Kex.v ===== *)
(** The key exchange's negotiation: kex.c.

    The tables of key exchange methods, the lists of names and their assembly,
    the proposals in KEXINIT messages, the choice of algorithms by both ends
    and the derivation of the keys.  The build is the one of Algs.v, without
    GSSAPI.  The handlers of its messages are in KexRun.v. *)

From Stdlib Require Import String.
From S2P Require Import Prelude Wire Sshbuf SshbufGetput SshbufSpec SshbufHeap CString Glob Algs Digest.

(** ** Methods *)

Definition KEX_DH_GRP1_SHA1 : Z := 0.
Definition KEX_DH_GRP14_SHA1 : Z := 1.
Definition KEX_DH_GEX_SHA1 : Z := 2.
Definition KEX_DH_GEX_SHA256 : Z := 3.
Definition KEX_ECDH_SHA2 : Z := 4.
Definition KEX_C25519_SHA256 : Z := 5.

Record kexalg : Type := mk_kexalg {
  ka_name : bytes;
  ka_type : Z;
  ka_ec_nid : Z;
  ka_hash_alg : Z
}.

#[local] Definition kex_entry (name : string) := mk_kexalg (cstr name).

Definition kexalgs : list kexalg :=
  [kex_entry "diffie-hellman-group1-sha1" KEX_DH_GRP1_SHA1 0 SSH_DIGEST_SHA1;
   kex_entry "diffie-hellman-group14-sha1" KEX_DH_GRP14_SHA1 0 SSH_DIGEST_SHA1;
   kex_entry "diffie-hellman-group-exchange-sha1" KEX_DH_GEX_SHA1 0 SSH_DIGEST_SHA1;
   kex_entry "diffie-hellman-group-exchange-sha256" KEX_DH_GEX_SHA256 0 SSH_DIGEST_SHA256;
   kex_entry "ecdh-sha2-nistp256" KEX_ECDH_SHA2 NID_X9_62_prime256v1 SSH_DIGEST_SHA256;
   kex_entry "ecdh-sha2-nistp384" KEX_ECDH_SHA2 NID_secp384r1 SSH_DIGEST_SHA384;
   kex_entry "ecdh-sha2-nistp521" KEX_ECDH_SHA2 NID_secp521r1 SSH_DIGEST_SHA512;
   kex_entry "curve25519-sha256@libssh.org" KEX_C25519_SHA256 0 SSH_DIGEST_SHA256].
Definition kexalg_prefixes : list kexalg := [].

Definition kex_alg_list (mem : bool) (sep : Z) : option bytes := alg_list mem sep (ka_name <$> kexalgs).

Definition kex_alg_by_name (name : bytes) : option kexalg :=
  match find (fun k => strcmp_eq (ka_name k) name) kexalgs with
  | Some k => Some k
  | None => find (fun k => strcmp_eq (ka_name k) (ztake (zlen (ka_name k)) name)) kexalg_prefixes
  end.

Definition kex_names_valid (mem : bool) (names : option bytes) : Z :=
  names_valid mem (fun p => match kex_alg_by_name p with Some _ => true | None => false end) names.

(** ** Lists of names *)

(** [strlcat(dst, src, size)] of a [dst] shorter than [size]: the new string
    and the length it tried to create. *)
Definition strlcat (dst src : bytes) (size : Z) : bytes * Z :=
  (ztake (size - 1) (dst ++ src), zlen dst + zlen src).

Fixpoint cat_loop (fuel : nat) (ret : bytes) (cp : option bytes) (len : Z) : option bytes :=
  match fuel with
  | O => None
  | S fuel =>
      match strsep cp (ch ",") with
      | (Some p, cp) =>
          if bool_decide (p = []) then Some ret
          else match fst (match_list ret p) with
               | Some _ => cat_loop fuel ret cp len
               | None =>
                   let '(ret, l) := strlcat ret (cstr ",") len in
                   if len <=? l then None
                   else
                     let '(ret, l) := strlcat ret p len in
                     if len <=? l then None else cat_loop fuel ret cp len
               end
      | (None, _) => Some ret
      end
  end.

(** [mem] is whether the allocations succeed. *)
Definition kex_names_cat (mem : bool) (a b : option bytes) : option bytes :=
  match a with
  | None | Some [] => None
  | Some a =>
      match b with
      | None | Some [] => if mem then Some a else None
      | Some b =>
          if 1024 * 1024 <? zlen b then None
          else if negb mem then None
          else
            let len := zlen a + zlen b + 2 in
            cat_loop (S (List.length b)) (ztake (len - 1) a) (Some b) len
      end
  end.

(** The state is [*list]. *)
Definition kex_assemble_names (mem : bool) (def : bytes) : M (option bytes) unit := fun list =>
  match list with
  | None | Some [] => (Ok tt, if mem then Some def else None)
  | Some (c :: rest) =>
      if negb (c =? ch "+") then (Ok tt, list)
      else match kex_names_cat mem (Some def) (Some rest) with
           | None => (Err SSH_ERR_ALLOC_FAIL, list)
           | Some ret => (Ok tt, Some ret)
           end
  end.

(** ** Proposals *)

Definition KEX_COOKIE_LEN : Z := 16.
Definition KEX_INIT_SENT : Z := 1.
Definition PROPOSAL_KEX_ALGS : Z := 0.
Definition PROPOSAL_SERVER_HOST_KEY_ALGS : Z := 1.
Definition PROPOSAL_ENC_ALGS_CTOS : Z := 2.
Definition PROPOSAL_ENC_ALGS_STOC : Z := 3.
Definition PROPOSAL_MAC_ALGS_CTOS : Z := 4.
Definition PROPOSAL_MAC_ALGS_STOC : Z := 5.
Definition PROPOSAL_COMP_ALGS_CTOS : Z := 6.
Definition PROPOSAL_COMP_ALGS_STOC : Z := 7.
Definition PROPOSAL_MAX : Z := 10.

(** [proposal[i]]. *)
Definition prop_at (proposal : list bytes) (i : Z) : bytes := nth (Z.to_nat i) proposal [].

Fixpoint repeat_m {S} (n : nat) (m : M S unit) : M S unit :=
  match n with O => ret tt | S n => m ;;; repeat_m n m end.

Fixpoint put_cstrings (A : allocator) (proposal : list bytes) : M sshbuf unit :=
  match proposal with
  | [] => ret tt
  | p :: ps => sshbuf_put_cstring A (Some p) ;;; put_cstrings A ps
  end.

Definition kex_prop2buf (A : allocator) (proposal : list bytes) : M sshbuf unit := fun b =>
  (repeat_m (Z.to_nat KEX_COOKIE_LEN) (sshbuf_put_u8 A 0) ;;;
   put_cstrings A (ztake PROPOSAL_MAX proposal) ;;;
   sshbuf_put_u8 A 0 ;;;
   sshbuf_put_u32 A 0) (sshbuf_reset A b).

(** The C string in the bytes of [sshbuf_get_cstring]. *)
Definition c_string (v : option bytes * Z) : bytes := before (default [] (fst v)) 0.

Fixpoint get_cstrings (A : allocator) (n : nat) : M sshbuf (list bytes) :=
  match n with
  | O => ret []
  | S n =>
      let! p := sshbuf_get_cstring A true in
      let! ps := get_cstrings A n in
      ret (c_string p :: ps)
  end.

(** The child [sshbuf_fromb] makes of [raw], which is gone again when
    [kex_buf2prop] returns (SshbufHeap.v has the reference counts). *)
Definition child_of (A : allocator) (raw : sshbuf) : option sshbuf :=
  match sshbuf_check_sanity raw with
  | Err _ => None
  | Ok _ => sshbuf_from A (Some (addr_of raw, ptr_of raw)) (sshbuf_len raw)
  end.

(** The size of the array of proposals. *)
Definition SIZEOF_PROPOSALS : Z := PROPOSAL_MAX * 8.

(** The proposal and [*first_kex_follows]. *)
Definition kex_buf2prop (A : allocator) (raw : sshbuf) : result (list bytes * Z) :=
  match A SIZEOF_PROPOSALS with
  | None => Err SSH_ERR_ALLOC_FAIL
  | Some _ =>
      match child_of A raw with
      | None => Err SSH_ERR_ALLOC_FAIL
      | Some b =>
          fst ((sshbuf_consume KEX_COOKIE_LEN ;;;
                let! proposal := get_cstrings A (Z.to_nat PROPOSAL_MAX) in
                let! v := sshbuf_get_u8 in
                let! _ := sshbuf_get_u32 in
                ret (proposal, v)) b)
      end
  end.

(** ** State *)

Record sshenc : Type := mk_enc {
  enc_name : option bytes;
  enc_cipher : option sshcipher;
  enc_enabled : Z;
  enc_key_len : Z;
  enc_iv_len : Z;
  enc_block_size : Z;
  enc_key : option bytes;
  enc_iv : option bytes
}.
Record sshcomp : Type := mk_comp { comp_type : Z; comp_enabled : Z; comp_name : option bytes }.
Record newkeys : Type := mk_newkeys { nk_enc : sshenc; nk_mac : sshmac; nk_comp : sshcomp }.

(** [calloc(1, sizeof(struct newkeys))]. *)
Definition newkeys_zero : newkeys :=
  mk_newkeys (mk_enc None None 0 0 0 0 None None) (mk_mac None 0 0 None 0 0 0) (mk_comp 0 0 None).
Definition SIZEOF_NEWKEYS : Z := 152.

(** [newkeys[MODE_IN]] and [newkeys[MODE_OUT]] are two fields. *)
Record kex : Type := mk_kex {
  k_session_id : bytes;
  k_newkeys_in : option newkeys;
  k_newkeys_out : option newkeys;
  k_we_need : Z;
  k_dh_need : Z;
  k_server : bool;
  k_name : option bytes;
  k_hostkey_alg : option bytes;
  k_hostkey_type : Z;
  k_hostkey_nid : Z;
  k_kex_type : Z;
  k_ext_info_c : Z;
  k_my : sshbuf;
  k_peer : sshbuf;
  k_hash_alg : Z;
  k_ec_nid : Z;
  k_failed_choice : option bytes
}.

(** The fields of [struct ssh] the negotiation uses. *)
Record ssh : Type := mk_ssh { ssh_kex : kex; ssh_compat : Z; ssh_dispatch_skip_packets : Z }.

Definition set_newkeys (out : bool) (v : option newkeys) (k : kex) : kex :=
  let 'mk_kex si ni no we dh se na ha ht hn kt ei my pe al ec fc := k in
  if out then mk_kex si ni v we dh se na ha ht hn kt ei my pe al ec fc
  else mk_kex si v no we dh se na ha ht hn kt ei my pe al ec fc.
Definition set_need (we' dh' : Z) (k : kex) : kex :=
  let 'mk_kex si ni no we dh se na ha ht hn kt ei my pe al ec fc := k in
  mk_kex si ni no we' dh' se na ha ht hn kt ei my pe al ec fc.
Definition set_name (v : option bytes) (k : kex) : kex :=
  let 'mk_kex si ni no we dh se na ha ht hn kt ei my pe al ec fc := k in
  mk_kex si ni no we dh se v ha ht hn kt ei my pe al ec fc.
Definition set_method (a : kexalg) (k : kex) : kex :=
  let 'mk_kex si ni no we dh se na ha ht hn kt ei my pe al ec fc := k in
  mk_kex si ni no we dh se na ha ht hn (ka_type a) ei my pe (ka_hash_alg a) (ka_ec_nid a) fc.
Definition set_hostkey_alg (v : option bytes) (k : kex) : kex :=
  let 'mk_kex si ni no we dh se na ha ht hn kt ei my pe al ec fc := k in
  mk_kex si ni no we dh se na v ht hn kt ei my pe al ec fc.
Definition set_hostkey_type (v : Z) (k : kex) : kex :=
  let 'mk_kex si ni no we dh se na ha ht hn kt ei my pe al ec fc := k in
  mk_kex si ni no we dh se na ha v hn kt ei my pe al ec fc.
Definition set_hostkey_nid (v : Z) (k : kex) : kex :=
  let 'mk_kex si ni no we dh se na ha ht hn kt ei my pe al ec fc := k in
  mk_kex si ni no we dh se na ha ht v kt ei my pe al ec fc.
Definition set_ext_info_c (v : Z) (k : kex) : kex :=
  let 'mk_kex si ni no we dh se na ha ht hn kt ei my pe al ec fc := k in
  mk_kex si ni no we dh se na ha ht hn kt v my pe al ec fc.
Definition set_failed_choice (v : bytes) (k : kex) : kex :=
  let 'mk_kex si ni no we dh se na ha ht hn kt ei my pe al ec fc := k in
  mk_kex si ni no we dh se na ha ht hn kt ei my pe al ec (Some v).

(** ** The choice of the algorithms *)

(** What [match_list(client, server, NULL)] returns. *)
Definition common (client server : bytes) : option bytes := fst (match_list client server).

Definition choose_enc (client server : bytes) : M sshenc unit := fun enc =>
  match common client server with
  | None => (Err SSH_ERR_NO_CIPHER_ALG_MATCH, enc)
  | Some name =>
      match cipher_by_name name with
      | None => (Err SSH_ERR_INTERNAL_ERROR,
                 mk_enc (enc_name enc) None (enc_enabled enc) (enc_key_len enc) (enc_iv_len enc)
                   (enc_block_size enc) (enc_key enc) (enc_iv enc))
      | Some c => (Ok tt, mk_enc (Some name) (Some c) 0 (cipher_keylen c) (cipher_ivlen c)
                            (cipher_blocksize c) None None)
      end
  end.

Definition SSH_BUG_HMAC : Z := 0x00000004.
Definition SSH_BUG_FIRSTKEX : Z := 0x00800000.
Definition has_flag (v flag : Z) : bool := negb (Z.land v flag =? 0).

(** [hmac] is whether [ssh_hmac_start] succeeds. *)
Definition choose_mac (hmac : bool) (compat : Z) (client server : bytes) : M sshmac unit := fun mac =>
  match common client server with
  | None => (Err SSH_ERR_NO_MAC_ALG_MATCH, mac)
  | Some name =>
      match mac_setup hmac name mac with
      | (Err _, mac) => (Err SSH_ERR_INTERNAL_ERROR, mac)
      | (Ok _, mac) =>
          let key_len := if has_flag compat SSH_BUG_HMAC then 16 else mac_key_len mac in
          (Ok tt, mk_mac (Some name) 0 (mac_mac_len mac) None key_len (mac_type mac) (mac_etm mac))
      end
  end.

Definition COMP_NONE : Z := 0.
Definition COMP_ZLIB : Z := 1.
Definition COMP_DELAYED : Z := 2.

Definition choose_comp (client server : bytes) : M sshcomp unit := fun comp =>
  match common client server with
  | None => (Err SSH_ERR_NO_COMPRESS_ALG_MATCH, comp)
  | Some name =>
      if strcmp_eq name (cstr "zlib@openssh.com") then
        (Ok tt, mk_comp COMP_DELAYED (comp_enabled comp) (Some name))
      else if strcmp_eq name (cstr "zlib") then
        (Ok tt, mk_comp COMP_ZLIB (comp_enabled comp) (Some name))
      else if strcmp_eq name (cstr "none") then
        (Ok tt, mk_comp COMP_NONE (comp_enabled comp) (Some name))
      else (Err SSH_ERR_INTERNAL_ERROR, comp)
  end.

Definition choose_kex (client server : bytes) : M kex unit := fun k =>
  let k := set_name (common client server) k in
  match k_name k with
  | None => (Err SSH_ERR_NO_KEX_ALG_MATCH, k)
  | Some name =>
      match kex_alg_by_name name with
      | None => (Err SSH_ERR_INTERNAL_ERROR, k)
      | Some kexalg => (Ok tt, set_method kexalg k)
      end
  end.

Definition choose_hostkeyalg (client server : bytes) : M kex unit := fun k =>
  let k := set_hostkey_alg (common client server) k in
  match k_hostkey_alg k with
  | None => (Err SSH_ERR_NO_HOSTKEY_ALG_MATCH, k)
  | Some alg =>
      let k := set_hostkey_type (sshkey_type_from_name alg) k in
      if k_hostkey_type k =? KEY_UNSPEC then (Err SSH_ERR_INTERNAL_ERROR, k)
      else (Ok tt, set_hostkey_nid (sshkey_ecdsa_nid_from_name alg) k)
  end.

(** The NULs stored over the commas are seen only by the comparison: the
    caller frees both proposals next. *)
Definition proposals_match (my peer : list bytes) : bool :=
  forallb (fun idx => strcmp_eq (before (prop_at my idx) (ch ",")) (before (prop_at peer idx) (ch ",")))
    [PROPOSAL_KEX_ALGS; PROPOSAL_SERVER_HOST_KEY_ALGS].

(** An operation on the key exchange; when it fails, the peer's list is kept in
    [failed_choice]. *)
Definition on_kex {A} (m : M kex A) : M ssh A := fun s =>
  let '(r, k) := m (ssh_kex s) in (r, mk_ssh k (ssh_compat s) (ssh_dispatch_skip_packets s)).
Definition or_failed (m : M kex unit) (choice : bytes) : M kex unit := fun k =>
  match m k with
  | (Ok a, k) => (Ok a, k)
  | (Err r, k) => (Err r, set_failed_choice choice k)
  end.

Definition on_enc (m : M sshenc unit) : M newkeys unit := fun n =>
  let '(r, e) := m (nk_enc n) in (r, mk_newkeys e (nk_mac n) (nk_comp n)).
Definition on_mac (m : M sshmac unit) : M newkeys unit := fun n =>
  let '(r, x) := m (nk_mac n) in (r, mk_newkeys (nk_enc n) x (nk_comp n)).
Definition on_comp (m : M sshcomp unit) : M newkeys unit := fun n =>
  let '(r, c) := m (nk_comp n) in (r, mk_newkeys (nk_enc n) (nk_mac n) c).
Definition k_newkeys (out : bool) (k : kex) : option newkeys :=
  if out then k_newkeys_out k else k_newkeys_in k.
(** An operation through the pointer [newkeys = kex->newkeys[mode]]. *)
Definition on_newkeys (out : bool) (m : M newkeys unit) : M kex unit := fun k =>
  let '(r, n) := m (default newkeys_zero (k_newkeys out k)) in (r, set_newkeys out (Some n) k).

Definition MAX (a b : Z) : Z := if b <? a then a else b.

Section choose_conf.
(** The allocator, whether [ssh_hmac_start] succeeds, and the proposals. *)
Variables (A : allocator) (hmac : bool) (compat : Z) (cprop sprop peer : list bytes).

(** One turn of the first loop over the modes. *)
Definition choose_newkeys (out : bool) : M kex unit :=
  match A SIZEOF_NEWKEYS with
  | None => fail SSH_ERR_ALLOC_FAIL
  | Some _ =>
      (fun k => (Ok tt, set_newkeys out (Some newkeys_zero) k)) ;;;
      let! k := get_state in
      let ctos := (negb (k_server k) && out) || (k_server k && negb out) in
      let nenc := if ctos then PROPOSAL_ENC_ALGS_CTOS else PROPOSAL_ENC_ALGS_STOC in
      let nmac := if ctos then PROPOSAL_MAC_ALGS_CTOS else PROPOSAL_MAC_ALGS_STOC in
      let ncomp := if ctos then PROPOSAL_COMP_ALGS_CTOS else PROPOSAL_COMP_ALGS_STOC in
      or_failed (on_newkeys out (on_enc (choose_enc (prop_at cprop nenc) (prop_at sprop nenc))))
        (prop_at peer nenc) ;;;
      (let! k := get_state in
       let authlen := match k_newkeys out k with
                      | Some n => match enc_cipher (nk_enc n) with
                                  | Some c => cipher_authlen c
                                  | None => 0
                                  end
                      | None => 0
                      end in
       if authlen =? 0 then
         or_failed (on_newkeys out (on_mac (choose_mac hmac compat (prop_at cprop nmac)
                                              (prop_at sprop nmac))))
           (prop_at peer nmac)
       else ret tt) ;;;
      or_failed (on_newkeys out (on_comp (choose_comp (prop_at cprop ncomp) (prop_at sprop ncomp))))
        (prop_at peer ncomp)
  end.

(** One turn of the second loop. *)
Definition add_need (n : newkeys) (needs : Z * Z) : Z * Z :=
  let '(need, dh_need) := needs in
  let need := MAX need (enc_key_len (nk_enc n)) in
  let need := MAX need (enc_block_size (nk_enc n)) in
  let need := MAX need (enc_iv_len (nk_enc n)) in
  let need := MAX need (mac_key_len (nk_mac n)) in
  let seclen := match enc_cipher (nk_enc n) with Some c => cipher_seclen c | None => 0 end in
  let dh_need := MAX dh_need seclen in
  let dh_need := MAX dh_need (enc_block_size (nk_enc n)) in
  let dh_need := MAX dh_need (enc_iv_len (nk_enc n)) in
  let dh_need := MAX dh_need (mac_key_len (nk_mac n)) in
  (need, dh_need).

Definition choose_all : M kex unit :=
  or_failed (choose_kex (prop_at cprop PROPOSAL_KEX_ALGS) (prop_at sprop PROPOSAL_KEX_ALGS))
    (prop_at peer PROPOSAL_KEX_ALGS) ;;;
  or_failed (choose_hostkeyalg (prop_at cprop PROPOSAL_SERVER_HOST_KEY_ALGS)
               (prop_at sprop PROPOSAL_SERVER_HOST_KEY_ALGS))
    (prop_at peer PROPOSAL_SERVER_HOST_KEY_ALGS) ;;;
  choose_newkeys false ;;;
  choose_newkeys true ;;;
  fun k =>
    let n0 := default newkeys_zero (k_newkeys_in k) in
    let n1 := default newkeys_zero (k_newkeys_out k) in
    let '(need, dh_need) := add_need n1 (add_need n0 (0, 0)) in
    (Ok tt, set_need need dh_need k).
End choose_conf.

(** A server notes that the client supports extension negotiation. *)
Definition note_ext_info (peer : list bytes) : M ssh unit :=
  let! s := get_state in
  if k_server (ssh_kex s) then
    match common (cstr "ext-info-c") (prop_at peer PROPOSAL_KEX_ALGS) with
    | Some _ => on_kex (fun k => (Ok tt, set_ext_info_c 1 k))
    | None => ret tt
    end
  else ret tt.

Definition kex_choose_conf (A : allocator) (hmac : bool) : M ssh unit :=
  let! s := get_state in
  let kex := ssh_kex s in
  let! (my, _) := lift (kex_buf2prop A (k_my kex)) in
  let! (peer, first_kex_follows) := lift (kex_buf2prop A (k_peer kex)) in
  let cprop := if k_server kex then peer else my in
  let sprop := if k_server kex then my else peer in
  note_ext_info peer ;;;
  on_kex (choose_all A hmac (ssh_compat s) cprop sprop peer) ;;;
  fun s =>
    if negb (first_kex_follows =? 0) && negb (proposals_match my peer) &&
       negb (has_flag (ssh_compat s) SSH_BUG_FIRSTKEX)
    then (Ok tt, mk_ssh (ssh_kex s) (ssh_compat s) 1)
    else (Ok tt, s).

(** ** The keys *)

Section keys.
Context `{Evp}.

(** [ssh_digest_start], the updates and [ssh_digest_final(.., dlen)]; any
    failure is a failure of the hash. *)
Definition kdf_hash (mem : bool) (alg dlen : Z) (updates : M ssh_digest_ctx unit) : result bytes :=
  match ssh_digest_start mem alg with
  | None => Err SSH_ERR_LIBCRYPTO_ERROR
  | Some ctx =>
      match (updates ;;; ssh_digest_final dlen) ctx with
      | (Err _, _) => Err SSH_ERR_LIBCRYPTO_ERROR
      | (Ok d, _) => Ok d
      end
  end.

(** The expansion: [digest] is the object, [have] the bytes of it in use. *)
Fixpoint derive_loop (fuel : nat) (mem : bool) (alg need : Z) (h : bytes) (secret : sshbuf)
    (mdsz have : Z) (digest : bytes) : result bytes :=
  match fuel with
  | O => Err SSH_ERR_INTERNAL_ERROR
  | S fuel =>
      if have <? need then
        match kdf_hash mem alg mdsz
                (ssh_digest_update_buffer secret ;;; ssh_digest_update h ;;;
                 ssh_digest_update (ztake have digest)) with
        | Err r => Err r
        | Ok d => derive_loop fuel mem alg need h secret mdsz (u32 (have + mdsz)) (write_at have d digest)
        end
      else Ok digest
  end.

(** [mem] is whether the allocations succeed. *)
Definition derive_key (mem : bool) (kex : kex) (id need : Z) (h : bytes) (secret : sshbuf) : result bytes :=
  let mdsz := ssh_digest_bytes (k_hash_alg kex) in
  if mdsz =? 0 then Err SSH_ERR_INVALID_ARGUMENT
  else if negb mem then Err SSH_ERR_ALLOC_FAIL
  else
    let digest := zrep (roundup need mdsz) 0 in
    match kdf_hash mem (k_hash_alg kex) mdsz
            (ssh_digest_update_buffer secret ;;; ssh_digest_update h ;;;
             ssh_digest_update [u8 id] ;;; ssh_digest_update (k_session_id kex)) with
    | Err r => Err r
    | Ok d =>
        derive_loop (S (Z.to_nat need)) mem (k_hash_alg kex) need h secret mdsz (u32 mdsz)
          (write_at 0 d digest)
    end.

Fixpoint derive_keys_loop (mem : bool) (kex : kex) (h : bytes) (secret : sshbuf) (ids : list Z)
    : result (list bytes) :=
  match ids with
  | [] => Ok []
  | id :: ids =>
      match derive_key mem kex id (k_we_need kex) h secret with
      | Err r => Err r
      | Ok key =>
          match derive_keys_loop mem kex h secret ids with
          | Err r => Err r
          | Ok keys => Ok (key :: keys)
          end
      end
  end.

Definition NKEYS : Z := 6.

(** The keys of one direction. *)
Definition set_keys (iv key mac_key : bytes) (n : newkeys) : newkeys :=
  let e := nk_enc n in
  let m := nk_mac n in
  mk_newkeys (mk_enc (enc_name e) (enc_cipher e) (enc_enabled e) (enc_key_len e) (enc_iv_len e)
                (enc_block_size e) (Some key) (Some iv))
    (mk_mac (mac_name m) (mac_enabled m) (mac_mac_len m) (Some mac_key) (mac_key_len m) (mac_type m)
       (mac_etm m))
    (nk_comp n).

Definition kex_derive_keys (mem : bool) (h : bytes) (secret : sshbuf) : M kex unit := fun kex =>
  match derive_keys_loop mem kex h secret ((fun i => ch "A" + i) <$> seqZ 0 NKEYS) with
  | Err r => (Err r, kex)
  | Ok keys =>
      let key i := nth i keys [] in
      let install (out : bool) kex :=
        let ctos := (negb (k_server kex) && out) || (k_server kex && negb out) in
        set_newkeys out
          (set_keys (key (if ctos then 0 else 1)%nat) (key (if ctos then 2 else 3)%nat)
             (key (if ctos then 4 else 5)%nat) <$> k_newkeys out kex) kex in
      (Ok tt, install true (install false kex))
  end.
End keys.

(** ** Specification *)

(** A KEXINIT message without its type. *)
Definition kexinit_wire (cookie : bytes) (proposal : list bytes) (first reserved : Z) : bytes :=
  cookie ++ concat (wr_string <$> proposal) ++ [first] ++ be_bytes 4 reserved.

(** A C string that fits a message. *)
Definition is_cstring (p : bytes) : Prop := Forall (fun c => 0 < c < 256) p.
Definition is_proposal (p : list bytes) : Prop := zlen p = PROPOSAL_MAX /\ Forall is_cstring p.

(** What the algorithms of one direction are. *)
Definition agree_dir (hmac : bool) (compat : Z) (cprop sprop : list bytes) (ctos : bool) : option newkeys :=
  let nenc := if ctos then PROPOSAL_ENC_ALGS_CTOS else PROPOSAL_ENC_ALGS_STOC in
  let nmac := if ctos then PROPOSAL_MAC_ALGS_CTOS else PROPOSAL_MAC_ALGS_STOC in
  let ncomp := if ctos then PROPOSAL_COMP_ALGS_CTOS else PROPOSAL_COMP_ALGS_STOC in
  match choose_enc (prop_at cprop nenc) (prop_at sprop nenc) (nk_enc newkeys_zero) with
  | (Err _, _) => None
  | (Ok _, e) =>
      match (if default 0 (cipher_authlen <$> enc_cipher e) =? 0
             then choose_mac hmac compat (prop_at cprop nmac) (prop_at sprop nmac) (nk_mac newkeys_zero)
             else (Ok tt, nk_mac newkeys_zero)) with
      | (Err _, _) => None
      | (Ok _, m) =>
          match choose_comp (prop_at cprop ncomp) (prop_at sprop ncomp) (nk_comp newkeys_zero) with
          | (Err _, _) => None
          | (Ok _, c) => Some (mk_newkeys e m c)
          end
      end
  end.

Record agreement : Type := mk_agreement {
  a_name : bytes;
  a_method : kexalg;
  a_hostkey_alg : bytes;
  a_ctos : newkeys;
  a_stoc : newkeys
}.

(** The outcome as a function of the two proposals alone. *)
Definition agree (hmac : bool) (compat : Z) (cprop sprop : list bytes) : option agreement :=
  let chosen i := common (prop_at cprop i) (prop_at sprop i) in
  match chosen PROPOSAL_KEX_ALGS, chosen PROPOSAL_SERVER_HOST_KEY_ALGS,
        agree_dir hmac compat cprop sprop true, agree_dir hmac compat cprop sprop false with
  | Some name, Some hk, Some ctos, Some stoc =>
      match kex_alg_by_name name with
      | None => None
      | Some m =>
          if sshkey_type_from_name hk =? KEY_UNSPEC then None
          else Some (mk_agreement name m hk ctos stoc)
      end
  | _, _, _, _ => None
  end.

Definition key_need (n : newkeys) : Z :=
  Z.max (Z.max (enc_key_len (nk_enc n)) (enc_block_size (nk_enc n)))
    (Z.max (enc_iv_len (nk_enc n)) (mac_key_len (nk_mac n))).
Definition dh_key_need (n : newkeys) : Z :=
  Z.max (Z.max (match enc_cipher (nk_enc n) with Some c => cipher_seclen c | None => 0 end)
           (enc_block_size (nk_enc n)))
    (Z.max (enc_iv_len (nk_enc n)) (mac_key_len (nk_mac n))).

(** The state of an end that has carried out the agreement. *)
Record configured (a : agreement) (k : kex) : Prop := {
  conf_name : k_name k = Some (a_name a);
  conf_type : k_kex_type k = ka_type (a_method a);
  conf_hash : k_hash_alg k = ka_hash_alg (a_method a);
  conf_nid : k_ec_nid k = ka_ec_nid (a_method a);
  conf_hostkey : k_hostkey_alg k = Some (a_hostkey_alg a);
  conf_hostkey_type : k_hostkey_type k = sshkey_type_from_name (a_hostkey_alg a);
  conf_hostkey_nid : k_hostkey_nid k = sshkey_ecdsa_nid_from_name (a_hostkey_alg a);
  conf_out : k_newkeys_out k = Some (if k_server k then a_stoc a else a_ctos a);
  conf_in : k_newkeys_in k = Some (if k_server k then a_ctos a else a_stoc a);
  conf_we_need : k_we_need k = Z.max 0 (Z.max (key_need (a_ctos a)) (key_need (a_stoc a)));
  conf_dh_need : k_dh_need k = Z.max 0 (Z.max (dh_key_need (a_ctos a)) (dh_key_need (a_stoc a)))
}.

(** ** Lemmas: proposals *)

Fixpoint rd_cstrings (n : nat) : reader (list bytes) :=
  match n with
  | O => rd_ret []
  | S n => rd_bind (rd_bind rd_cstring (fun v => rd_ret (string_copy true v))) (fun p =>
             rd_bind (rd_cstrings n) (fun ps => rd_ret (c_string p :: ps)))
  end.
Definition rd_kexinit : reader (list bytes * Z) :=
  rd_bind (rd_bind (rd_bytes KEX_COOKIE_LEN) (fun _ => rd_ret tt)) (fun _ =>
  rd_bind (rd_cstrings (Z.to_nat PROPOSAL_MAX)) (fun ps =>
  rd_bind (rd_be 1) (fun v => rd_bind (rd_be 4) (fun _ => rd_ret (ps, v))))).

Lemma sshbuf_consume_refines n :
  0 <= n -> Refines (sshbuf_consume n) (rd_bind (rd_bytes n) (fun _ => rd_ret tt)).
Proof.
  intros Hn b Hwf. pose proof (sshbuf_consume_spec n b Hwf Hn) as P.
  destruct (sshbuf_consume n b) as [r b']. destruct P as (? & ? & P).
  unfold rd_bind, rd_bytes, rd_ret. destruct (Z.ltb_spec (zlen (contents b)) n);
    destruct P as [-> ?]; eauto.
Qed.

Lemma get_cstrings_refines A n : alloc_ok A -> Refines (get_cstrings A n) (rd_cstrings n).
Proof.
  intros HA. induction n as [|n IH]; [apply refines_ret|].
  cbn [get_cstrings rd_cstrings]. apply refines_bind; [by apply sshbuf_get_cstring_refines|].
  intros p. apply refines_bind; [done|]. intros ps. apply refines_ret.
Qed.

Lemma kexinit_refines A :
  alloc_ok A ->
  Refines (sshbuf_consume KEX_COOKIE_LEN ;;;
           let! proposal := get_cstrings A (Z.to_nat PROPOSAL_MAX) in
           let! v := sshbuf_get_u8 in
           let! _ := sshbuf_get_u32 in
           ret (proposal, v)) rd_kexinit.
Proof.
  intros HA. unfold rd_kexinit. apply refines_bind; [by apply sshbuf_consume_refines|]. intros _.
  apply refines_bind; [by apply get_cstrings_refines|]. intros ps. apply _.
Qed.

Lemma before_app_nul p : is_cstring p -> before (p ++ [0]) 0 = p.
Proof.
  induction 1 as [|c p Hc Hp IH]; [done|]. simpl. destruct (Z.eqb_spec c 0); [lia|]. by rewrite IH.
Qed.

Lemma cstring_ok_cstring p : is_cstring p -> cstring_ok p = true.
Proof.
  intros Hp. unfold cstring_ok. apply forallb_forall. intros c Hc.
  unfold is_cstring in Hp. rewrite List.Forall_forall in Hp.
  assert (In c p) as Hin by (rewrite <- (ztake_zdrop (zlen p - 1) p); apply in_or_app; by left).
  specialize (Hp c Hin). destruct (Z.eqb_spec c 0); [lia|done].
Qed.

Lemma rd_cstrings_app ps rest :
  Forall is_cstring ps -> Forall (fun p => zlen p <= WIRE_STRING_MAX) ps ->
  rd_cstrings (List.length ps) (concat (wr_string <$> ps) ++ rest) = Ok (ps, rest).
Proof.
  induction ps as [|p ps IH]; intros Hp Hl; [done|].
  apply Forall_cons in Hp as [Hp Hps]. apply Forall_cons in Hl as [Hl Hls].
  rewrite fmap_cons. cbn [concat]. rewrite <- (assoc_L (++)). cbn [List.length rd_cstrings].
  unfold rd_bind at 1 2, rd_cstring. rewrite rd_string_app by done.
  rewrite cstring_ok_cstring by done. unfold rd_ret at 1. unfold rd_bind. rewrite IH by done.
  unfold rd_ret, c_string, string_copy. simpl. by rewrite before_app_nul.
Qed.

Lemma rd_kexinit_wire cookie p first reserved rest :
  zlen cookie = KEX_COOKIE_LEN -> is_proposal p -> Forall (fun q => zlen q <= WIRE_STRING_MAX) p ->
  is_byte first -> in_range 32 reserved ->
  rd_kexinit (kexinit_wire cookie p first reserved ++ rest) = Ok ((p, first), rest).
Proof.
  intros Hc (Hlen & Hp) Hl Hf Hr. unfold rd_kexinit, kexinit_wire. rewrite <- !(assoc_L (++)).
  unfold rd_bind at 1 2. rewrite <- Hc, rd_bytes_app. unfold rd_ret at 1.
  unfold rd_bind at 1. replace (Z.to_nat PROPOSAL_MAX) with (List.length p)
    by (unfold zlen in Hlen; lia).
  rewrite rd_cstrings_app by done.
  assert ([first] = be_bytes 1 first) as ->.
  { unfold in_range in Hf. unfold be_bytes; simpl. by rewrite Z.mod_small by lia. }
  pose proof (rd_be_app 1 first (be_bytes 4 reserved ++ rest) Hf) as E1.
  pose proof (rd_be_app 4 reserved rest Hr) as E2.
  change (Z.of_nat 1) with 1 in E1. change (Z.of_nat 4) with 4 in E2.
  unfold rd_bind. rewrite E1, E2. done.
Qed.

(** A string in a message is shorter than the message. *)
Lemma kexinit_wire_zlen cookie p first reserved :
  zlen cookie = KEX_COOKIE_LEN ->
  Forall (fun q => zlen q + 25 <= zlen (kexinit_wire cookie p first reserved)) p.
Proof.
  intros Hc. unfold kexinit_wire. rewrite !zlen_app, be_bytes_zlen, Hc. unfold KEX_COOKIE_LEN.
  apply List.Forall_forall. intros q Hq. induction p as [|x p IH]; [done|].
  rewrite fmap_cons. cbn [concat]. rewrite zlen_app. destruct Hq as [->|Hq].
  - unfold wr_string. rewrite zlen_app, be_bytes_zlen. zl.
  - specialize (IH Hq). pose proof (zlen_nonneg (wr_string x)). lia.
Qed.

Lemma child_of_spec A raw :
  alloc_ok A -> wf raw -> exists b, child_of A raw = Some b /\ wf b /\ contents b = contents raw.
Proof.
  intros HA Hwf. unfold child_of. rewrite (wf_sane _ Hwf), sshbuf_len_contents by done.
  destruct (sshbuf_from A (Some (addr_of raw, ptr_of raw)) (zlen (contents raw))) as [b|] eqn:E.
  - exists b. destruct (sshbuf_from_fresh _ _ _ _ _ E) as (((Hb & _) & _) & _ & C); auto with ssh.
    { pose proof (ptr_of_zlen raw Hwf). zl. }
    split_and!; [done|exact Hb|]. by rewrite C, ptr_of_take.
  - exfalso. unfold sshbuf_from in E. pose proof (contents_zlen raw Hwf). wf_unpack Hwf.
    destruct (Z.ltb_spec SSHBUF_SIZE_MAX (zlen (contents raw))); [unfold SSHBUF_SIZE_MAX in *; lia|].
    pose proof (HA SIZEOF_SSHBUF). by destruct (A SIZEOF_SSHBUF).
Qed.

Lemma kex_buf2prop_wire A raw cookie p first reserved rest :
  alloc_ok A -> wf raw -> contents raw = kexinit_wire cookie p first reserved ++ rest ->
  zlen cookie = KEX_COOKIE_LEN -> is_proposal p -> is_byte first -> in_range 32 reserved ->
  kex_buf2prop A raw = Ok (p, first).
Proof.
  intros HA Hwf HC Hc Hp Hf Hr. unfold kex_buf2prop.
  pose proof (HA SIZEOF_PROPOSALS). destruct (A SIZEOF_PROPOSALS); [|done].
  destruct (child_of_spec A raw HA Hwf) as (b & -> & Hb & Cb).
  pose proof (kexinit_refines A HA b Hb) as R. rewrite Cb, HC in R.
  rewrite rd_kexinit_wire in R; try done.
  - destruct R as (b' & -> & _). done.
  - pose proof (kexinit_wire_zlen cookie p first reserved Hc) as Hz.
    pose proof (contents_zlen raw Hwf) as Hcl. rewrite HC, zlen_app in Hcl. wf_unpack Hwf.
    eapply Forall_impl; [exact Hz|]. intros q Hq. cbv beta in *.
    pose proof (zlen_nonneg rest). unfold WIRE_STRING_MAX. lia.
Qed.

Lemma is_cstring_Bytes p : is_cstring p -> Bytes p.
Proof. intros H. eapply Forall_impl; [exact H|]. intros x Hx. cbv beta in *. unfold in_range. lia. Qed.

Lemma put_cstrings_appends A ps :
  Forall is_cstring ps -> Appends A (put_cstrings A ps) (concat (wr_string <$> ps)).
Proof.
  induction 1 as [|p ps Hp Hps IH]; [apply appends_ret|].
  cbn [put_cstrings]. rewrite fmap_cons. cbn [concat]. apply appends_bind; [|done].
  apply atomic_appends, sshbuf_put_cstring_atomic. by apply is_cstring_Bytes.
Qed.

Lemma repeat_put_appends A n : Appends A (repeat_m n (sshbuf_put_u8 A 0)) (replicate n 0).
Proof.
  induction n as [|n IH]; [apply appends_ret|]. cbn [repeat_m replicate].
  apply (appends_bind A _ _ [0]); [|done].
  apply atomic_appends, sshbuf_put_u8_atomic. by vm_compute.
Qed.

Lemma kex_prop2buf_spec A p b :
  alloc_ok A -> is_proposal p ->
  wf b -> writable b = true -> SSHBUF_SIZE_INIT <= b_max_size b ->
  zlen (kexinit_wire (zrep KEX_COOKIE_LEN 0) p 0 0) <= b_max_size b ->
  exists b', kex_prop2buf A p b = (Ok tt, b') /\ wf b' /\
    contents b' = kexinit_wire (zrep KEX_COOKIE_LEN 0) p 0 0 /\ same_frame b b'.
Proof.
  intros HA Hp Hb W Hm Hfit. unfold kex_prop2buf.
  destruct (sshbuf_reset_spec A b Hb ltac:(done)) as (Hb1 & F1 & C1). set (b1 := sshbuf_reset A b) in *.
  set (m := _ ;;; _).
  assert (Appends A m (kexinit_wire (zrep KEX_COOKIE_LEN 0) p 0 0)) as Ha.
  { unfold m, kexinit_wire. destruct Hp as (Hlen & Hp). rewrite ztake_ge by lia.
    apply appends_bind; [apply repeat_put_appends|]. apply appends_bind; [by apply put_cstrings_appends|].
    apply appends_bind; apply atomic_appends; [apply sshbuf_put_u8_atomic|apply sshbuf_put_u32_atomic];
      by vm_compute. }
  destruct (appends_ok A m _ b1 Ha) as (b' & E & Hb' & F2 & C'); try done.
  - by rewrite (same_frame_writable _ _ F1).
  - rewrite C1, zlen_nil. destruct F1 as (-> & _). lia.
  - rewrite C1 in C'. exists b'. split_and!; try done. by eapply same_frame_trans.
Qed.

(** ** Lemmas: the negotiation *)

Lemma MAX_max a b : MAX a b = Z.max a b.
Proof. unfold MAX. destruct (Z.ltb_spec b a); lia. Qed.

Lemma add_need_max n x y :
  add_need n (x, y) = (Z.max x (key_need n), Z.max y (dh_key_need n)).
Proof. unfold add_need, key_need, dh_key_need. rewrite !MAX_max. f_equal; lia. Qed.

(** What [choose_newkeys] leaves alone. *)
Definition same_choice (k k' : kex) : Prop :=
  k_name k' = k_name k /\ k_kex_type k' = k_kex_type k /\ k_hash_alg k' = k_hash_alg k /\
  k_ec_nid k' = k_ec_nid k /\ k_hostkey_alg k' = k_hostkey_alg k /\
  k_hostkey_type k' = k_hostkey_type k /\ k_hostkey_nid k' = k_hostkey_nid k /\
  k_server k' = k_server k /\ k_session_id k' = k_session_id k.

Lemma k_newkeys_set o v k : k_newkeys o (set_newkeys o v k) = v.
Proof. by destruct k, o. Qed.
Lemma k_newkeys_other o v k : k_newkeys (negb o) (set_newkeys o v k) = k_newkeys (negb o) k.
Proof. by destruct k, o. Qed.
Lemma set_newkeys_twice o v w k : set_newkeys o v (set_newkeys o w k) = set_newkeys o v k.
Proof. by destruct k, o. Qed.
Lemma k_server_set o v k : k_server (set_newkeys o v k) = k_server k.
Proof. by destruct k, o. Qed.
Lemma same_choice_set o v k : same_choice k (set_newkeys o v k).
Proof. by destruct k, o. Qed.

(** An operation on [kex->newkeys[mode]] just allocated as [n]. *)
Lemma on_newkeys_set o m n k choice :
  or_failed (on_newkeys o m) choice (set_newkeys o (Some n) k) =
  match m n with
  | (Ok a, n') => (Ok a, set_newkeys o (Some n') k)
  | (Err r, n') => (Err r, set_failed_choice choice (set_newkeys o (Some n') k))
  end.
Proof.
  unfold or_failed, on_newkeys. rewrite k_newkeys_set. simpl.
  destruct (m n) as [[a|r] n']; by rewrite set_newkeys_twice.
Qed.

Lemma choose_newkeys_spec A hmac compat cprop sprop peer o k :
  alloc_ok A ->
  match agree_dir hmac compat cprop sprop (xorb (k_server k) o) with
  | Some n => choose_newkeys A hmac compat cprop sprop peer o k = (Ok tt, set_newkeys o (Some n) k)
  | None => exists e k', choose_newkeys A hmac compat cprop sprop peer o k = (Err e, k')
  end.
Proof.
  intros HA. unfold agree_dir.
  destruct (choose_newkeys A hmac compat cprop sprop peer o k) as [res k'] eqn:E. revert E.
  unfold choose_newkeys. pose proof (HA SIZEOF_NEWKEYS).
  destruct (A SIZEOF_NEWKEYS) as [x|]; [|done].
  unfold bind, get_state. rewrite k_server_set.
  replace (negb (k_server k) && o || k_server k && negb o) with (xorb (k_server k) o)
    by (by destruct (k_server k), o).
  cbv zeta. generalize (xorb (k_server k) o). intros ctos.
  set (nenc := if ctos then PROPOSAL_ENC_ALGS_CTOS else _).
  set (nmac := if ctos then PROPOSAL_MAC_ALGS_CTOS else _).
  set (ncomp := if ctos then PROPOSAL_COMP_ALGS_CTOS else _). clearbody nenc nmac ncomp.
  rewrite on_newkeys_set. unfold on_enc at 1.
  destruct (choose_enc (prop_at cprop nenc) (prop_at sprop nenc) (nk_enc newkeys_zero)) as [[[]|r] e];
    cbv beta iota; [|intros [= <- <-]; by eexists _, _].
  rewrite k_newkeys_set. cbn [nk_enc].
  replace (match enc_cipher e with Some c => cipher_authlen c | None => 0 end)
    with (default 0 (cipher_authlen <$> enc_cipher e)) by (by destruct (enc_cipher e)).
  set (finish := or_failed (on_newkeys o (on_comp (choose_comp (prop_at cprop ncomp) (prop_at sprop ncomp))))
                   (prop_at peer ncomp)).
  assert (Hfin : forall m, finish (set_newkeys o (Some (mk_newkeys e m (nk_comp newkeys_zero))) k) = (res, k') ->
    match choose_comp (prop_at cprop ncomp) (prop_at sprop ncomp) (nk_comp newkeys_zero) with
    | (Ok _, c) => (res, k') = (Ok tt, set_newkeys o (Some (mk_newkeys e m c)) k)
    | (Err _, _) => exists e k'', (res, k') = (Err e, k'')
    end).
  { intros m. unfold finish. rewrite on_newkeys_set. unfold on_comp. cbn [nk_mac nk_enc nk_comp].
    destruct (choose_comp _ _ _) as [[[]|r] cc]; intros <-; [done|by eexists _, _]. }
  destruct (default 0 (cipher_authlen <$> enc_cipher e) =? 0).
  - rewrite on_newkeys_set. unfold on_mac. cbn [nk_mac nk_enc nk_comp].
    destruct (choose_mac hmac compat (prop_at cprop nmac) (prop_at sprop nmac) (nk_mac newkeys_zero))
      as [[[]|r] mm]; cbv beta iota; [|intros [= <- <-]; by eexists _, _].
    intros Hf%Hfin. by destruct (choose_comp _ _ _) as [[[]|r] cc].
  - unfold ret. intros Hf%Hfin. by destruct (choose_comp _ _ _) as [[[]|r] cc].
Qed.

(** The two lists of the method and the host key. *)
Lemma choose_kex_spec c s choice k :
  match common c s with
  | Some name =>
      match kex_alg_by_name name with
      | Some m => or_failed (choose_kex c s) choice k = (Ok tt, set_method m (set_name (Some name) k))
      | None => exists e k', or_failed (choose_kex c s) choice k = (Err e, k')
      end
  | None => exists e k', or_failed (choose_kex c s) choice k = (Err e, k')
  end.
Proof.
  unfold or_failed, choose_kex. destruct k, (common c s) as [n|]; cbn; [|eauto].
  destruct (kex_alg_by_name n); eauto.
Qed.

Lemma choose_hostkeyalg_spec c s choice k :
  match common c s with
  | Some alg =>
      if sshkey_type_from_name alg =? KEY_UNSPEC
      then exists e k', or_failed (choose_hostkeyalg c s) choice k = (Err e, k')
      else or_failed (choose_hostkeyalg c s) choice k =
           (Ok tt, set_hostkey_nid (sshkey_ecdsa_nid_from_name alg)
                     (set_hostkey_type (sshkey_type_from_name alg) (set_hostkey_alg (Some alg) k)))
  | None => exists e k', or_failed (choose_hostkeyalg c s) choice k = (Err e, k')
  end.
Proof.
  unfold or_failed, choose_hostkeyalg. destruct k, (common c s) as [n|]; cbn -[sshkey_type_from_name]; [|eauto].
  destruct (sshkey_type_from_name n =? KEY_UNSPEC); eauto.
Qed.

Lemma choose_all_spec A hmac compat cprop sprop peer k :
  alloc_ok A ->
  let '(r, k') := choose_all A hmac compat cprop sprop peer k in
  match agree hmac compat cprop sprop with
  | Some a => r = Ok tt /\ configured a k' /\ k_server k' = k_server k /\ k_session_id k' = k_session_id k
  | None => exists e, r = Err e
  end.
Proof.
  intros HA. destruct (choose_all A hmac compat cprop sprop peer k) as [r k'] eqn:E. revert E.
  unfold choose_all, agree, bind. cbv zeta.
  set (ck := prop_at cprop PROPOSAL_KEX_ALGS). set (sk := prop_at sprop PROPOSAL_KEX_ALGS).
  set (ch := prop_at cprop PROPOSAL_SERVER_HOST_KEY_ALGS).
  set (sh := prop_at sprop PROPOSAL_SERVER_HOST_KEY_ALGS).
  pose proof (choose_kex_spec ck sk (prop_at peer PROPOSAL_KEX_ALGS) k) as P1.
  destruct (common ck sk) as [name|]; [|destruct P1 as (e & k1 & ->); intros [= <- _]; eauto].
  destruct (kex_alg_by_name name) as [m|] eqn:Em.
  2: { destruct P1 as (e & k1 & ->). intros [= <- _].
       destruct (common ch sh), (agree_dir hmac compat cprop sprop true), (agree_dir hmac compat cprop sprop false); eauto. }
  rewrite P1. clear P1. set (k1 := set_method _ _).
  pose proof (choose_hostkeyalg_spec ch sh (prop_at peer PROPOSAL_SERVER_HOST_KEY_ALGS) k1) as P2.
  destruct (common ch sh) as [hk|]; [|destruct P2 as (e & k2 & ->); intros [= <- _]; eauto].
  destruct (sshkey_type_from_name hk =? KEY_UNSPEC) eqn:Eh.
  { destruct P2 as (e & k2 & ->). intros [= <- _].
    destruct (agree_dir hmac compat cprop sprop true), (agree_dir hmac compat cprop sprop false); eauto. }
  rewrite P2. clear P2. set (k2 := set_hostkey_nid _ _).
  pose proof (choose_newkeys_spec A hmac compat cprop sprop peer false k2 HA) as P3.
  assert (k_server k2 = k_server k) as Es by (unfold k2, k1; by destruct k).
  rewrite Es, xorb_false_r in P3.
  destruct (agree_dir hmac compat cprop sprop (k_server k)) as [n0|] eqn:E0.
  2: { destruct P3 as (e & k3 & ->). intros [= <- _]. destruct (k_server k); rewrite E0; eauto.
       destruct (agree_dir hmac compat cprop sprop true); eauto. }
  rewrite P3. clear P3. set (k3 := set_newkeys _ _ _).
  pose proof (choose_newkeys_spec A hmac compat cprop sprop peer true k3 HA) as P4.
  assert (k_server k3 = k_server k) as Es3 by (unfold k3; by rewrite k_server_set).
  rewrite Es3, xorb_true_r in P4.
  destruct (agree_dir hmac compat cprop sprop (negb (k_server k))) as [n1|] eqn:E1.
  2: { destruct P4 as (e & k4 & ->). intros [= <- _].
       destruct (k_server k); cbn in E0, E1; rewrite E0, E1; eauto. }
  rewrite P4. clear P4. unfold k3. clear Es Es3 k3.
  destruct k as [si ni no we dh [|] na ha ht hn kt ei my pe al ec fc]; cbn in E0, E1;
    rewrite E0, E1; cbn [k_newkeys_in k_newkeys_out set_newkeys k2 set_hostkey_nid
      set_hostkey_type set_hostkey_alg k1 set_method set_name default];
    rewrite !add_need_max; intros [= <- <-]; split_and!; try done;
    constructor; cbn; try done; lia.
Qed.

Lemma note_ext_info_spec peer s :
  exists k, note_ext_info peer s = (Ok tt, mk_ssh k (ssh_compat s) (ssh_dispatch_skip_packets s)) /\
    k_server k = k_server (ssh_kex s) /\ k_session_id k = k_session_id (ssh_kex s).
Proof.
  unfold note_ext_info, bind, get_state. destruct s as [k c d]. cbn [ssh_kex].
  destruct (k_server k) eqn:E; [destruct (common _ _)|]; try (by exists k).
  exists (set_ext_info_c 1 k). by destruct k.
Qed.

Lemma kex_choose_conf_spec A hmac s my peer f first :
  alloc_ok A ->
  kex_buf2prop A (k_my (ssh_kex s)) = Ok (my, f) ->
  kex_buf2prop A (k_peer (ssh_kex s)) = Ok (peer, first) ->
  let server := k_server (ssh_kex s) in
  let '(r, s') := kex_choose_conf A hmac s in
  match agree hmac (ssh_compat s) (if server then peer else my) (if server then my else peer) with
  | Some a => r = Ok tt /\ configured a (ssh_kex s') /\ k_server (ssh_kex s') = server /\
      k_session_id (ssh_kex s') = k_session_id (ssh_kex s) /\ ssh_compat s' = ssh_compat s /\
      ssh_dispatch_skip_packets s' =
        if negb (first =? 0) && negb (proposals_match my peer) &&
           negb (has_flag (ssh_compat s) SSH_BUG_FIRSTKEX)
        then 1 else ssh_dispatch_skip_packets s
  | None => exists e, r = Err e
  end.
Proof.
  intros HA Hm Hp. cbv zeta. destruct (kex_choose_conf A hmac s) as [r s'] eqn:E. revert E.
  unfold kex_choose_conf, bind, get_state, lift. rewrite Hm, Hp.
  set (cprop := if k_server (ssh_kex s) then peer else my).
  set (sprop := if k_server (ssh_kex s) then my else peer).
  destruct (note_ext_info_spec peer s) as (k1 & -> & Es & Ei).
  unfold on_kex. cbn [ssh_kex ssh_compat ssh_dispatch_skip_packets].
  pose proof (choose_all_spec A hmac (ssh_compat s) cprop sprop peer k1 HA) as P.
  destruct (choose_all A hmac (ssh_compat s) cprop sprop peer k1) as [ra k2].
  destruct (agree hmac (ssh_compat s) cprop sprop) as [a|].
  - destruct P as (-> & Hconf & Hs & Hi). cbn [ssh_kex ssh_compat ssh_dispatch_skip_packets].
    destruct (negb (first =? 0) && _ && _); intros [= <- <-]; split_and!; try done;
      cbn; congruence.
  - destruct P as (e & ->). intros [= <- _]. eauto.
Qed.

Lemma configured_both a kc ks :
  configured a kc -> configured a ks -> k_server kc = false -> k_server ks = true ->
  k_name kc = k_name ks /\ k_kex_type kc = k_kex_type ks /\ k_hash_alg kc = k_hash_alg ks /\
  k_ec_nid kc = k_ec_nid ks /\ k_hostkey_alg kc = k_hostkey_alg ks /\
  k_hostkey_type kc = k_hostkey_type ks /\ k_hostkey_nid kc = k_hostkey_nid ks /\
  k_newkeys_out kc = k_newkeys_in ks /\ k_newkeys_in kc = k_newkeys_out ks /\
  k_we_need kc = k_we_need ks /\ k_dh_need kc = k_dh_need ks.
Proof.
  intros C S Hc Hs. destruct C as [? ? ? ? ? ? ? Co Ci ? ?], S as [? ? ? ? ? ? ? So Si ? ?].
  rewrite Hc in Co, Ci. rewrite Hs in So, Si. split_and!; congruence.
Qed.

Lemma agree_compat hmac c1 c2 cprop sprop :
  has_flag c1 SSH_BUG_HMAC = has_flag c2 SSH_BUG_HMAC ->
  agree hmac c1 cprop sprop = agree hmac c2 cprop sprop.
Proof.
  intros E. assert (forall ctos, agree_dir hmac c1 cprop sprop ctos = agree_dir hmac c2 cprop sprop ctos) as Hd.
  { intros ctos. unfold agree_dir, choose_mac. by rewrite E. }
  unfold agree. by rewrite !Hd.
Qed.

(** ** Lemmas: lists of names *)

(** The names [have] is extended by: those of [ps] not yet there, once each. *)
Fixpoint fresh_names (have ps : list bytes) : list bytes :=
  match ps with
  | [] => []
  | p :: ps =>
      if existsb (strcmp_eq p) have then fresh_names have ps
      else p :: fresh_names (have ++ [p]) ps
  end.

(** The names that are in [have] afterwards, without duplicates. *)
Lemma fresh_names_spec ps : forall have,
  (NoDup have -> NoDup (have ++ fresh_names have ps)) /\
  (forall n, In n (have ++ fresh_names have ps) <-> In n have \/ In n ps).
Proof.
  induction ps as [|p ps IH]; intros have; cbn [fresh_names].
  - rewrite app_nil_r. split; [done|]. simpl. tauto.
  - destruct (existsb (strcmp_eq p) have) eqn:E.
    + apply existsb_strcmp in E. destruct (IH have) as (Hd & Hi). split; [done|].
      intros n. rewrite Hi. simpl. naive_solver.
    + destruct (IH (have ++ [p])) as (Hd & Hi). rewrite <- (assoc_L (++)) in Hd, Hi. simpl in Hd, Hi.
      split.
      * intros Hn. apply Hd. apply NoDup_app. split_and!; [done| |apply NoDup_singleton].
        intros x Hx ->%list_elem_of_singleton. apply list_elem_of_In in Hx.
        apply existsb_strcmp in Hx. congruence.
      * intros n. rewrite Hi, in_app_iff. simpl. tauto.
Qed.

Lemma until_empty_id ts : Forall (fun t => t <> []) ts -> until_empty ts = ts.
Proof.
  induction 1 as [|t ts Ht Hts IH]; [done|]. simpl. rewrite bool_decide_eq_false_2 by done. by rewrite IH.
Qed.

(** [match_list(ret, p, NULL)] looks for one name. *)
Lemma match_list_single r p :
  p <> [] -> ~ In SEP p -> Forall (fun t => t <> []) (split_on SEP r) ->
  bool_decide (fst (match_list r p) = None) = negb (existsb (strcmp_eq p) (split_on SEP r)).
Proof.
  intros Hp Hsep Hr. unfold match_list. rewrite server_proposals_names, Z.sub_0_r by lia.
  assert (ztake MAX_PROP (names p) = [p]) as ->.
  { unfold names. rewrite split_on_single, until_empty_id by (done || by constructor). done. }
  pose proof (client_loop_spec (S (length r)) r r [p] ltac:(lia) ltac:(by exists [])) as P.
  destruct (client_loop _ r (Some r) [p]) as [[q|] next]; simpl fst.
  - rewrite bool_decide_eq_false_2 by done. symmetry. apply negb_false_iff, existsb_strcmp.
    destruct P as (pre & post & E & [<-|[]] & _). rewrite E. apply in_or_app. right. by left.
  - rewrite bool_decide_eq_true_2 by done. symmetry. apply negb_true_iff, not_true_is_false.
    intros H%existsb_strcmp. destruct P as (P & _). apply (P p); [|by left].
    unfold names. by rewrite until_empty_id.
Qed.

Lemma strlcat_fits dst src size :
  zlen dst + zlen src < size -> strlcat dst src size = (dst ++ src, zlen dst + zlen src).
Proof. intros. unfold strlcat. rewrite ztake_ge by zl. done. Qed.

Lemma cat_loop_spec fuel : forall r s len,
  (List.length s < fuel)%nat -> zlen r + 1 + zlen s < len ->
  Forall (fun t => t <> []) (split_on SEP r) ->
  exists r', cat_loop fuel r (Some s) len = Some r' /\
    split_on SEP r' = split_on SEP r ++ fresh_names (split_on SEP r) (names s).
Proof.
  induction fuel as [|fuel IH]; intros r s len Hf Hl Hr; [lia|]. cbn [cat_loop strsep].
  change (ch ",") with SEP. unfold names. rewrite (split_on_unfold SEP s). cbn [until_empty].
  destruct (bool_decide_reflect (before s SEP = [])) as [Hb|Hb].
  { exists r. split; [done|]. cbn. by rewrite app_nil_r. }
  assert (Hrest : forall ret, zlen ret + 1 + zlen s - zlen (before s SEP) - 1 < len ->
    Forall (fun t => t <> []) (split_on SEP ret) ->
    exists r', cat_loop fuel ret (match strchr s SEP with Some x => Some (tail x) | None => None end) len = Some r' /\
      split_on SEP r' = split_on SEP ret ++
        fresh_names (split_on SEP ret)
          (until_empty (match strchr s SEP with Some x => split_on SEP (tail x) | None => [] end))).
  { intros ret Hlr Hret. pose proof (before_strchr s SEP) as B. destruct (strchr s SEP) as [x|].
    - destruct B as (Es & t & ->). cbn [tail].
      assert (zlen s = zlen (before s SEP) + (1 + zlen t)) by (rewrite Es at 1; by rewrite zlen_app, zlen_cons).
      apply IH; [unfold zlen in *; lia|lia|done].
    - destruct fuel; [destruct s; [done|simpl in Hf; lia]|]. exists ret. cbn. by rewrite app_nil_r. }
  pose proof (before_length s SEP) as Hbl. assert (zlen (before s SEP) <= zlen s) by (unfold zlen; lia).
  assert (0 < zlen (before s SEP)) by (destruct (before s SEP); [done|zl]).
  pose proof (match_list_single r (before s SEP) Hb (before_no_delim s SEP) Hr) as Hm.
  cbn [fresh_names]. destruct (existsb (strcmp_eq (before s SEP)) (split_on SEP r)) eqn:Hex.
  - apply bool_decide_eq_false in Hm. destruct (fst (match_list r (before s SEP))); [|done].
    apply Hrest; [lia|done].
  - apply bool_decide_eq_true in Hm. rewrite Hm.
    rewrite strlcat_fits by (change (zlen (cstr ",")) with 1; lia). change (zlen (cstr ",")) with 1.
    destruct (Z.leb_spec len (zlen r + 1)); [lia|].
    assert (zlen (r ++ cstr ",") = zlen r + 1) as Hz by (rewrite zlen_app; done).
    rewrite strlcat_fits by lia. destruct (Z.leb_spec len (zlen (r ++ cstr ",") + zlen (before s SEP))); [lia|].
    assert (split_on SEP ((r ++ cstr ",") ++ before s SEP) = split_on SEP r ++ [before s SEP]) as Hs.
    { rewrite <- (assoc_L (++)). change (cstr "," ++ before s SEP) with (SEP :: before s SEP).
      rewrite split_on_app. f_equal. apply split_on_single, before_no_delim. }
    destruct (Hrest ((r ++ cstr ",") ++ before s SEP)) as (r' & E & Hr').
    + rewrite zlen_app, Hz. lia.
    + rewrite Hs. apply Forall_app. split; [done|]. by repeat constructor.
    + exists r'. split; [done|]. rewrite Hr', Hs, <- (assoc_L (++)). done.
Qed.

Lemma kex_names_cat_names a b :
  a <> [] -> zlen b <= 1024 * 1024 -> Forall (fun t => t <> []) (split_on SEP a) ->
  exists r, kex_names_cat true (Some a) (Some b) = Some r /\
    split_on SEP r = split_on SEP a ++ fresh_names (split_on SEP a) (names b).
Proof.
  intros Ha Hb Hn. unfold kex_names_cat. destruct a as [|x a]; [done|].
  destruct b as [|y b]. { eexists. split; [done|]. cbn. by rewrite app_nil_r. }
  set (aa := x :: a) in *. set (bb := y :: b) in *.
  destruct (Z.ltb_spec (1024 * 1024) (zlen bb)); [lia|]. cbn [negb].
  rewrite ztake_ge by (zl_nonneg; lia). apply cat_loop_spec; [lia|lia|done].
Qed.

(** ** Key derivation: RFC 4253, section 7.2 *)

Section kdf.
Context `{EvpSpec}.
Variables (alg : Z) (secret h : bytes) (id : Z) (session_id : bytes).

(** [K1 || ... || Kn]. *)
Fixpoint kdf (n : nat) : bytes :=
  match n with
  | O => []
  | S m =>
      match m with
      | O => hash alg (secret ++ h ++ [id] ++ session_id)
      | S _ => kdf m ++ hash alg (secret ++ h ++ kdf m)
      end
  end.

Lemma kdf_S n : n <> O -> kdf (S n) = kdf n ++ hash alg (secret ++ h ++ kdf n).
Proof. by destruct n. Qed.

Lemma kdf_zlen n : ssh_digest_by_alg alg <> None -> zlen (kdf n) = Z.of_nat n * ssh_digest_bytes alg.
Proof.
  intros Hk. induction n as [|n IH]; [done|]. destruct n as [|n].
  - cbn [kdf]. rewrite hash_zlen by done. lia.
  - rewrite kdf_S by done. rewrite zlen_app, IH, hash_zlen by done. lia.
Qed.
End kdf.

Section kdf_lemmas.
Context `{EvpSpec}.

Lemma ssh_digest_update_buffer_rep c alg m b :
  dc_rep c alg m -> wf b ->
  exists c', ssh_digest_update_buffer b c = (Ok tt, c') /\ dc_rep c' alg (m ++ contents b).
Proof.
  intros Hc Hb. unfold ssh_digest_update_buffer. rewrite sshbuf_len_contents, ptr_of_take by done.
  by apply ssh_digest_update_rep.
Qed.

(** [kdf_hash] of updates that hash [m]. *)
Lemma kdf_hash_eq alg updates m :
  ssh_digest_by_alg alg <> None ->
  (forall c, dc_rep c alg [] -> exists c', updates c = (Ok tt, c') /\ dc_rep c' alg m) ->
  kdf_hash true alg (ssh_digest_bytes alg) updates = Ok (hash alg m).
Proof.
  intros Hk Hu. unfold kdf_hash. destruct (ssh_digest_start_rep alg Hk) as (c & -> & R).
  destruct (Hu c R) as (c1 & E1 & R1). unfold bind. rewrite E1.
  pose proof (block_large alg Hk). unfold in_range in *.
  destruct (ssh_digest_final_rep c1 alg m (ssh_digest_bytes alg) R1 Hk) as (c2 & -> & _); [|done].
  unfold UINT_MAX. lia.
Qed.

Lemma digest_bytes_pos alg : ssh_digest_by_alg alg <> None -> 16 <= ssh_digest_bytes alg <= 64.
Proof.
  intros Hk. destruct (known_digests alg Hk) as [->|[->|[->|[->|[->| ->]]]]]; vm_compute; split; congruence.
Qed.

(** The number of hashes. *)
Definition kdf_count (need mdsz : Z) : Z := (need + (mdsz - 1)) / mdsz.

Lemma derive_loop_spec fuel : forall n alg need h secret id sid digest,
  ssh_digest_by_alg alg <> None -> wf secret -> 0 < need < 2 ^ 31 ->
  let mdsz := ssh_digest_bytes alg in
  let K := kdf alg (contents secret) h id sid in
  (0 < n)%nat -> Z.of_nat n <= kdf_count need mdsz -> (Z.to_nat (kdf_count need mdsz) - n < fuel)%nat ->
  zlen digest = kdf_count need mdsz * mdsz ->
  ztake (Z.of_nat n * mdsz) digest = K n ->
  derive_loop fuel true alg need h secret mdsz (Z.of_nat n * mdsz) digest =
    Ok (K (Z.to_nat (kdf_count need mdsz))).
Proof.
  induction fuel as [|fuel IH]; intros n alg need h secret id sid digest Hk Hw Hneed mdsz K Hn Hle Hf Hz Ht; [lia|].
  pose proof (digest_bytes_pos alg Hk) as Hmd. fold mdsz in Hmd. set (cnt := kdf_count need mdsz) in *.
  assert (Hcnt : need <= cnt * mdsz < need + mdsz) by (unfold cnt, kdf_count; clear - Hmd; Z.div_mod_to_equations; nia).
  cbn [derive_loop]. destruct (Z.ltb_spec (Z.of_nat n * mdsz) need) as [Hlt|Hge].
  - assert (Z.of_nat n < cnt) by nia.
    rewrite (kdf_hash_eq alg _ (contents secret ++ h ++ K n) Hk).
    2: { intros c Hc. destruct (ssh_digest_update_buffer_rep c alg [] secret Hc Hw) as (c1 & E1 & R1).
         destruct (ssh_digest_update_rep c1 _ _ h R1) as (c2 & E2 & R2).
         destruct (ssh_digest_update_rep c2 _ _ (K n) R2) as (c3 & E3 & R3).
         unfold bind. rewrite E1, E2, Ht, E3. rewrite <- (assoc_L (++)) in R3. eauto. }
    set (d := hash alg _). assert (Hd : zlen d = mdsz) by (by apply hash_zlen).
    replace (Z.of_nat n * mdsz + mdsz) with (Z.of_nat (S n) * mdsz) by lia.
    rewrite wrap_small by nia.
    apply IH; fold mdsz; fold cnt; try done; try lia.
    + rewrite zlen_write_at by nia. done.
    + unfold write_at. fold K. unfold K. rewrite kdf_S by lia. fold K. fold d.
      rewrite (assoc_L (++)). rewrite ztake_app; rewrite Ht; [done|].
      rewrite zlen_app, Hd. unfold K. rewrite kdf_zlen by done. fold mdsz. lia.
  - assert (Z.of_nat n = cnt) as <- by nia. rewrite Nat2Z.id. f_equal. rewrite <- Ht.
    symmetry. apply ztake_ge. lia.
Qed.

Lemma roundup_count need mdsz :
  0 < need < 2 ^ 31 -> 16 <= mdsz <= 64 -> roundup need mdsz = kdf_count need mdsz * mdsz.
Proof.
  intros Hn Hm. unfold roundup, kdf_count. rewrite (wrap_small 64 (need + (mdsz - 1))) by lia.
  apply wrap_small. split; [apply Z.mul_nonneg_nonneg; [apply Z.div_pos; lia|lia]|].
  pose proof (Z.mul_div_le (need + (mdsz - 1)) mdsz ltac:(lia)). lia.
Qed.

Lemma derive_key_eq kex id need h secret :
  ssh_digest_by_alg (k_hash_alg kex) <> None -> wf secret -> 0 < need < 2 ^ 31 -> is_byte id ->
  derive_key true kex id need h secret =
    Ok (kdf (k_hash_alg kex) (contents secret) h id (k_session_id kex)
          (Z.to_nat (kdf_count need (ssh_digest_bytes (k_hash_alg kex))))).
Proof.
  intros Hk Hw Hneed Hid. unfold derive_key. set (alg := k_hash_alg kex) in *.
  pose proof (digest_bytes_pos alg Hk) as Hmd. set (mdsz := ssh_digest_bytes alg) in *.
  destruct (Z.eqb_spec mdsz 0); [lia|]. cbn [negb].
  rewrite (kdf_hash_eq alg _ (contents secret ++ h ++ [id] ++ k_session_id kex) Hk).
  2: { intros c Hc. destruct (ssh_digest_update_buffer_rep c alg [] secret Hc Hw) as (c1 & E1 & R1).
       destruct (ssh_digest_update_rep c1 _ _ h R1) as (c2 & E2 & R2).
       destruct (ssh_digest_update_rep c2 _ _ [id] R2) as (c3 & E3 & R3).
       destruct (ssh_digest_update_rep c3 _ _ (k_session_id kex) R3) as (c4 & E4 & R4).
       unfold bind. rewrite E1, E2, (wrap_small 8 id), E3, E4 by done.
       rewrite <- !(assoc_L (++)) in R4. eauto. }
  set (d := hash alg _). assert (Hd : zlen d = mdsz) by (by apply hash_zlen).
  rewrite roundup_count by lia. rewrite wrap_small by lia.
  assert (1 <= kdf_count need mdsz <= need) as Hc.
  { unfold kdf_count. clear - Hneed Hmd. Z.div_mod_to_equations; nia. }
  assert (1 * mdsz <= kdf_count need mdsz * mdsz) as Hge by (apply Z.mul_le_mono_nonneg_r; lia).
  assert (zlen (zrep (kdf_count need mdsz * mdsz) 0) = kdf_count need mdsz * mdsz) as Hz
    by (apply zlen_zrep; lia).
  pose proof (derive_loop_spec (S (Z.to_nat need)) 1 alg need h secret id (k_session_id kex)
    (write_at 0 d (zrep (kdf_count need mdsz * mdsz) 0)) Hk Hw Hneed) as P.
  cbv zeta in P. fold mdsz in P. change (Z.of_nat 1) with 1 in P. rewrite Z.mul_1_l in P.
  apply P; try lia.
  - rewrite zlen_write_at by lia. done.
  - rewrite write_at_0 by lia. by apply ztake_app.
Qed.
Definition kdf_key (kex : kex) (h secret : bytes) (id : string) : bytes :=
  kdf (k_hash_alg kex) secret h (ch id) (k_session_id kex)
    (Z.to_nat (kdf_count (k_we_need kex) (ssh_digest_bytes (k_hash_alg kex)))).

Lemma kex_derive_keys_eq kex h secret :
  ssh_digest_by_alg (k_hash_alg kex) <> None -> wf secret -> 0 < k_we_need kex < 2 ^ 31 ->
  let key := kdf_key kex h (contents secret) in
  let ctos := set_keys (key "A"%string) (key "C"%string) (key "E"%string) in
  let stoc := set_keys (key "B"%string) (key "D"%string) (key "F"%string) in
  exists kex', kex_derive_keys true h secret kex = (Ok tt, kex') /\
    k_newkeys_out kex' = (if k_server kex then stoc else ctos) <$> k_newkeys_out kex /\
    k_newkeys_in kex' = (if k_server kex then ctos else stoc) <$> k_newkeys_in kex.
Proof.
  intros Hk Hw Hn. cbv zeta. unfold kex_derive_keys.
  change ((fun i => ch "A" + i) <$> seqZ 0 NKEYS)
    with [ch "A"; ch "B"; ch "C"; ch "D"; ch "E"; ch "F"].
  cbn [derive_keys_loop].
  rewrite !derive_key_eq by (done || by vm_compute).
  eexists. split; [done|].
  destruct kex as [si ni no we dh [|] na ha ht hn kt ei my pe al ec fc]; cbn; split; done.
Qed.

(** The keys are long enough for the algorithms. *)
Lemma kdf_key_zlen kex h secret id :
  ssh_digest_by_alg (k_hash_alg kex) <> None -> 0 < k_we_need kex ->
  k_we_need kex <= zlen (kdf_key kex h secret id).
Proof.
  intros Hk Hn. unfold kdf_key. rewrite kdf_zlen by done.
  pose proof (digest_bytes_pos _ Hk) as Hmd. set (mdsz := ssh_digest_bytes _) in *. clearbody mdsz.
  assert (0 < kdf_count (k_we_need kex) mdsz /\ k_we_need kex <= kdf_count (k_we_need kex) mdsz * mdsz).
  { unfold kdf_count. clear - Hmd Hn. Z.div_mod_to_equations; nia. }
  lia.
Qed.
End kdf_lemmas.

(** ** Lemmas: the sizes of the chosen algorithms *)

Lemma find_In {A} (f : A -> bool) l x : find f l = Some x -> In x l /\ f x = true.
Proof. apply find_some. Qed.

(** The bounds of every entry of a table. *)
Lemma table_bound {A} (f ok : A -> bool) l x : forallb ok l = true -> find f l = Some x -> ok x = true.
Proof. intros H [Hx _]%find_In. rewrite forallb_forall in H. by apply H. Qed.

Definition cipher_small (c : sshcipher) : bool :=
  (8 <=? cipher_blocksize c) && (cipher_blocksize c <=? 64) && (0 <=? cipher_keylen c) &&
  (cipher_keylen c <=? 64) && (0 <=? cipher_ivlen c) && (cipher_ivlen c <=? 64).

Record small_needs (n : newkeys) : Prop := {
  small_block : 8 <= enc_block_size (nk_enc n) <= 64;
  small_key : 0 <= enc_key_len (nk_enc n) <= 64;
  small_iv : 0 <= enc_iv_len (nk_enc n) <= 64;
  small_mac : 0 <= mac_key_len (nk_mac n) <= 64
}.

Lemma cipher_by_name_small name c : cipher_by_name name = Some c -> cipher_small c = true.
Proof. apply table_bound. vm_compute. reflexivity. Qed.

Definition mac_small (m : macalg) : bool :=
  (0 <=? ssh_hmac_bytes (m_alg m)) && (ssh_hmac_bytes (m_alg m) <=? 64) && (0 <=? m_key_len m) &&
  (m_key_len m <=? 512).

Lemma mac_setup_small hmac name m m' :
  mac_setup hmac name m = (Ok tt, m') -> 0 <= mac_key_len m' <= 64.
Proof.
  unfold mac_setup, mac_by_name. destruct (find _ macs) as [x|] eqn:E; [|done].
  apply (table_bound _ mac_small) in E; [|vm_compute; reflexivity].
  unfold mac_small in E. rewrite !andb_true_iff, !Z.leb_le in E.
  unfold mac_setup_by_alg. destruct (m_type x =? SSH_DIGEST); [destruct hmac|]; cbn [negb];
    intros [= <-]; cbn [mac_key_len]; [lia|]. split; [apply Z.div_pos; lia|].
  apply Z.div_le_upper_bound; lia.
Qed.

Lemma choose_mac_small hmac compat c s m m' :
  choose_mac hmac compat c s m = (Ok tt, m') -> 0 <= mac_key_len m' <= 64.
Proof.
  unfold choose_mac. destruct (common _ _) as [mn|]; [|done].
  destruct (mac_setup hmac mn m) as [[[]|] mm] eqn:Em; [|done].
  apply mac_setup_small in Em. intros [= <-]. cbn [mac_key_len].
  destruct (has_flag compat SSH_BUG_HMAC); lia.
Qed.

Lemma agree_dir_small hmac compat c s ctos n :
  agree_dir hmac compat c s ctos = Some n -> small_needs n.
Proof.
  unfold agree_dir, choose_enc. cbv zeta. destruct (common _ _) as [en|]; [|done].
  destruct (cipher_by_name en) as [ci|] eqn:Ec; [|done].
  apply cipher_by_name_small in Ec. unfold cipher_small in Ec. rewrite !andb_true_iff, !Z.leb_le in Ec.
  cbn [enc_cipher]. change (default 0 (cipher_authlen <$> Some ci)) with (cipher_authlen ci).
  destruct (cipher_authlen ci =? 0).
  - destruct (choose_mac _ _ _ _ _) as [[[]|] m] eqn:Em; [|done]. apply choose_mac_small in Em.
    destruct (choose_comp _ _ _) as [[[]|] cc]; [|done]. intros [= <-]. constructor; cbn; lia.
  - destruct (choose_comp _ _ _) as [[[]|] cc]; [|done]. intros [= <-]. constructor; cbn; lia.
Qed.

Lemma agree_small hmac compat c s a :
  agree hmac compat c s = Some a ->
  small_needs (a_ctos a) /\ small_needs (a_stoc a) /\ ssh_digest_by_alg (ka_hash_alg (a_method a)) <> None.
Proof.
  unfold agree. cbv zeta. destruct (common _ _) as [name|]; [|done]. destruct (common _ _) as [hk|]; [|done].
  destruct (agree_dir hmac compat c s true) as [n1|] eqn:E1; [|done].
  destruct (agree_dir hmac compat c s false) as [n2|] eqn:E2; [|done].
  apply agree_dir_small in E1, E2. destruct (kex_alg_by_name name) as [m|] eqn:Em; [|done].
  destruct (_ =? KEY_UNSPEC); [done|]. intros [= <-]. split_and!; try done. cbn [a_method].
  unfold kex_alg_by_name in Em. destruct (find _ kexalgs) as [x|] eqn:Ef; [|done]. injection Em as <-.
  apply (table_bound _ (fun k => bool_decide (ssh_digest_by_alg (ka_hash_alg k) <> None))) in Ef;
    [by apply bool_decide_eq_true in Ef|vm_compute; reflexivity].
Qed.

Lemma configured_need a k :
  configured a k -> small_needs (a_ctos a) -> small_needs (a_stoc a) ->
  8 <= k_we_need k <= 64 /\
  (forall n, n = a_ctos a \/ n = a_stoc a ->
     enc_key_len (nk_enc n) <= k_we_need k /\ enc_iv_len (nk_enc n) <= k_we_need k /\
     mac_key_len (nk_mac n) <= k_we_need k).
Proof.
  intros C [] []. rewrite (conf_we_need _ _ C). unfold key_need. split; [lia|].
  intros n [->| ->]; lia.
Qed.

(** ** Properties *)

(** A proposal survives the trip through a KEXINIT message: what
    [kex_prop2buf] writes to a buffer with room for it is what [kex_buf2prop]
    reads, also when the sender has put its cookie and flag in place and
    whatever bytes follow. *)
Theorem kex_proposal_roundtrip A p b raw cookie first rest :
  alloc_ok A -> is_proposal p ->
  wf b -> writable b = true -> SSHBUF_SIZE_INIT <= b_max_size b ->
  zlen (kexinit_wire (zrep KEX_COOKIE_LEN 0) p 0 0) <= b_max_size b ->
  wf raw -> zlen cookie = KEX_COOKIE_LEN -> is_byte first ->
  contents raw = kexinit_wire cookie p first 0 ++ rest ->
  (exists b', kex_prop2buf A p b = (Ok tt, b') /\ wf b' /\
     contents b' = kexinit_wire (zrep KEX_COOKIE_LEN 0) p 0 0 /\ kex_buf2prop A b' = Ok (p, 0)) /\
  kex_buf2prop A raw = Ok (p, first).
Proof.
  intros HA Hp Hb W Hm Hfit Hr Hc Hf HC. split; [|by eapply kex_buf2prop_wire].
  destruct (kex_prop2buf_spec A p b HA Hp Hb W Hm Hfit) as (b' & E & Hb' & C' & _).
  exists b'. split_and!; try done.
  eapply (kex_buf2prop_wire A b' (zrep KEX_COOKIE_LEN 0) p 0 0 []); try done.
  by rewrite app_nil_r.
Qed.

(** *** A client and a server *)

Definition client_proposal : list bytes :=
  [cstr "curve25519-sha256@libssh.org,ecdh-sha2-nistp256,ext-info-c"; cstr "ssh-ed25519,ssh-rsa";
   cstr "chacha20-poly1305@openssh.com,aes128-ctr"; cstr "aes256-ctr,aes128-ctr";
   cstr "hmac-sha2-256"; cstr "umac-64@openssh.com,hmac-sha1-96";
   cstr "none,zlib@openssh.com"; cstr "zlib@openssh.com,none"; []; []].
Definition server_proposal : list bytes :=
  [cstr "ecdh-sha2-nistp256,diffie-hellman-group14-sha1"; cstr "ssh-rsa,ecdsa-sha2-nistp256";
   cstr "aes128-ctr"; cstr "aes128-ctr,aes256-ctr"; cstr "hmac-sha1,hmac-sha2-256"; cstr "hmac-sha1-96";
   cstr "none"; cstr "none,zlib@openssh.com"; []; []].

Lemma test_is_cstring p : forallb (fun c => (0 <? c) && (c <? 256)) p = true -> is_cstring p.
Proof.
  intros H. apply List.Forall_forall. intros c Hc. rewrite forallb_forall in H.
  specialize (H c Hc). apply andb_prop in H as [?%Z.ltb_lt ?%Z.ltb_lt]. lia.
Qed.
Lemma test_is_proposal p :
  (zlen p =? PROPOSAL_MAX) && forallb (forallb (fun c => (0 <? c) && (c <? 256))) p = true -> is_proposal p.
Proof.
  intros [?%Z.eqb_eq H]%andb_prop. split; [done|]. apply List.Forall_forall. intros q Hq.
  rewrite forallb_forall in H. by apply test_is_cstring, H.
Qed.

(** A buffer with the message of a proposal. *)
Definition test_buf (p : list bytes) : sshbuf := snd (kex_prop2buf test_alloc p (small_buf 4096)).
Lemma test_buf_wf p :
  is_proposal p -> zlen (kexinit_wire (zrep KEX_COOKIE_LEN 0) p 0 0) <= 4096 -> wf (test_buf p).
Proof.
  intros Hp Hl. unfold test_buf.
  destruct (kex_prop2buf_spec test_alloc p (small_buf 4096) test_alloc_ok Hp) as (b' & -> & Hb & _);
    [apply small_buf_wf; lia|by vm_compute|by vm_compute|exact Hl|done].
Qed.

Definition test_ssh (server : bool) (my peer : list bytes) : ssh :=
  mk_ssh (mk_kex [] None None 0 0 server None None 0 0 0 0 (test_buf my) (test_buf peer) 0 0 None) 0 0.

Lemma kex_proposal_roundtrip_witness :
  (exists b', kex_prop2buf test_alloc client_proposal (small_buf 4096) = (Ok tt, b') /\ wf b' /\
     contents b' = kexinit_wire (zrep KEX_COOKIE_LEN 0) client_proposal 0 0 /\
     kex_buf2prop test_alloc b' = Ok (client_proposal, 0)) /\
  kex_buf2prop test_alloc (test_buf client_proposal) = Ok (client_proposal, 0).
Proof.
  apply (kex_proposal_roundtrip test_alloc client_proposal (small_buf 4096) (test_buf client_proposal)
    (zrep KEX_COOKIE_LEN 0) 0 []).
  - apply test_alloc_ok.
  - apply test_is_proposal. vm_compute. reflexivity.
  - apply small_buf_wf. lia.
  - vm_compute. reflexivity.
  - vm_compute. congruence.
  - vm_compute. congruence.
  - apply test_buf_wf; [apply test_is_proposal; vm_compute; reflexivity|vm_compute; congruence].
  - vm_compute. reflexivity.
  - vm_compute. split; congruence.
  - vm_compute. reflexivity.
Defined.

(** C10. The two ends of a connection agree.  When the client's proposal reaches
    the server and the server's the client, in messages with any cookies and
    flags, [kex_choose_conf] either fails on both ends or succeeds on both,
    and then both have chosen the same method, hash, host key algorithm and
    key sizes, and what one has set up for sending, the algorithms of
    encryption, MAC and compression, the other has set up for receiving. *)
Theorem kex_both_ends_agree A hmac sc ss pc ps cc cs fc fs rc1 rc2 rs1 rs2 :
  alloc_ok A ->
  let kc := ssh_kex sc in
  let ks := ssh_kex ss in
  k_server kc = false -> k_server ks = true ->
  has_flag (ssh_compat sc) SSH_BUG_HMAC = has_flag (ssh_compat ss) SSH_BUG_HMAC ->
  is_proposal pc -> is_proposal ps -> zlen cc = KEX_COOKIE_LEN -> zlen cs = KEX_COOKIE_LEN ->
  is_byte fc -> is_byte fs ->
  wf (k_my kc) -> wf (k_peer kc) -> wf (k_my ks) -> wf (k_peer ks) ->
  contents (k_my kc) = kexinit_wire cc pc fc 0 ++ rc1 ->
  contents (k_peer ks) = kexinit_wire cc pc fc 0 ++ rc2 ->
  contents (k_my ks) = kexinit_wire cs ps fs 0 ++ rs1 ->
  contents (k_peer kc) = kexinit_wire cs ps fs 0 ++ rs2 ->
  match kex_choose_conf A hmac sc, kex_choose_conf A hmac ss with
  | (Ok _, sc'), (Ok _, ss') =>
      let kc' := ssh_kex sc' in
      let ks' := ssh_kex ss' in
      k_name kc' = k_name ks' /\ k_kex_type kc' = k_kex_type ks' /\
      k_hash_alg kc' = k_hash_alg ks' /\ k_ec_nid kc' = k_ec_nid ks' /\
      k_hostkey_alg kc' = k_hostkey_alg ks' /\ k_hostkey_type kc' = k_hostkey_type ks' /\
      k_hostkey_nid kc' = k_hostkey_nid ks' /\
      k_newkeys_out kc' = k_newkeys_in ks' /\ k_newkeys_in kc' = k_newkeys_out ks' /\
      k_we_need kc' = k_we_need ks' /\ k_dh_need kc' = k_dh_need ks'
  | (Err _, _), (Err _, _) => True
  | _, _ => False
  end.
Proof.
  intros HA kc ks Hc Hs Hbug Hpc Hps Hcc Hcs Hfc Hfs W1 W2 W3 W4 C1 C2 C3 C4.
  assert (Hz : in_range 32 0) by (by vm_compute).
  pose proof (kex_buf2prop_wire A _ _ _ _ _ _ HA W1 C1 Hcc Hpc Hfc Hz) as B1.
  pose proof (kex_buf2prop_wire A _ _ _ _ _ _ HA W2 C4 Hcs Hps Hfs Hz) as B2.
  pose proof (kex_buf2prop_wire A _ _ _ _ _ _ HA W3 C3 Hcs Hps Hfs Hz) as B3.
  pose proof (kex_buf2prop_wire A _ _ _ _ _ _ HA W4 C2 Hcc Hpc Hfc Hz) as B4.
  pose proof (kex_choose_conf_spec A hmac sc pc ps fc fs HA B1 B2) as Pc.
  pose proof (kex_choose_conf_spec A hmac ss ps pc fs fc HA B3 B4) as Ps.
  cbv zeta in Pc, Ps. fold kc in Pc. fold ks in Ps. rewrite Hc in Pc. rewrite Hs in Ps.
  rewrite (agree_compat hmac _ _ pc ps Hbug) in Pc.
  destruct (kex_choose_conf A hmac sc) as [r1 sc'], (kex_choose_conf A hmac ss) as [r2 ss'].
  destruct (agree hmac (ssh_compat ss) pc ps) as [a|].
  - destruct Pc as (-> & C & Hc' & _), Ps as (-> & S & Hs' & _). by eapply configured_both.
  - destruct Pc as (e & ->), Ps as (e' & ->). done.
Qed.

Lemma kex_both_ends_agree_witness :
  match kex_choose_conf test_alloc true (test_ssh false client_proposal server_proposal),
        kex_choose_conf test_alloc true (test_ssh true server_proposal client_proposal) with
  | (Ok _, sc'), (Ok _, ss') =>
      k_name (ssh_kex sc') = Some (cstr "ecdh-sha2-nistp256") /\ k_we_need (ssh_kex sc') = 32 /\
      k_newkeys_out (ssh_kex sc') = k_newkeys_in (ssh_kex ss')
  | _, _ => False
  end.
Proof.
  assert (Hc : is_proposal client_proposal) by (apply test_is_proposal; vm_compute; reflexivity).
  assert (Hs : is_proposal server_proposal) by (apply test_is_proposal; vm_compute; reflexivity).
  assert (Wc : wf (test_buf client_proposal)) by (apply test_buf_wf; [exact Hc|vm_compute; congruence]).
  assert (Ws : wf (test_buf server_proposal)) by (apply test_buf_wf; [exact Hs|vm_compute; congruence]).
  assert (H0 : is_byte 0) by (vm_compute; split; congruence).
  pose proof (kex_both_ends_agree test_alloc true (test_ssh false client_proposal server_proposal)
    (test_ssh true server_proposal client_proposal) client_proposal server_proposal
    (zrep KEX_COOKIE_LEN 0) (zrep KEX_COOKIE_LEN 0) 0 0 [] [] [] [] test_alloc_ok) as H.
  specialize (H eq_refl eq_refl eq_refl Hc Hs eq_refl eq_refl).
  specialize (H H0 H0 Wc Ws Ws Wc).
  specialize (H ltac:(vm_compute; reflexivity) ltac:(vm_compute; reflexivity)
                ltac:(vm_compute; reflexivity) ltac:(vm_compute; reflexivity)).
  revert H. vm_compute. intros (? & _ & _ & _ & _ & _ & _ & H & _). split_and!; [reflexivity|reflexivity|exact H].
Defined.

(** Assembling a list of algorithms: an unset or empty list becomes the
    default, a list without '+' in front is kept, and the names after a '+'
    are appended to the default, each once and only where it is not there
    yet, so that the result has exactly the names of both and no duplicates
    when the default has none. *)
Theorem kex_assemble_names_spec def l :
  def <> [] -> Forall (fun t => t <> []) (split_on SEP def) ->
  (forall s, l = Some s -> zlen s <= 1024 * 1024) ->
  let '(r, l') := kex_assemble_names true def l in
  r = Ok tt /\
  match l with
  | None | Some [] => l' = Some def
  | Some (c :: b) =>
      if c =? ch "+" then
        exists s, l' = Some s /\
          split_on SEP s = split_on SEP def ++ fresh_names (split_on SEP def) (names b) /\
          (NoDup (split_on SEP def) -> NoDup (split_on SEP s)) /\
          (forall n, In n (split_on SEP s) <-> In n (split_on SEP def) \/ In n (names b))
      else l' = l
  end.
Proof.
  intros Hd Hn Hl. unfold kex_assemble_names. destruct l as [[|c b]|]; [done| |done].
  destruct (Z.eqb_spec c (ch "+")) as [->|]; cbn [negb]; [|done].
  specialize (Hl _ eq_refl). rewrite zlen_cons in Hl.
  destruct (kex_names_cat_names def b Hd ltac:(lia) Hn) as (r & -> & Hr). split; [done|].
  exists r. rewrite Hr. destruct (fresh_names_spec (names b) (split_on SEP def)). by split_and!.
Qed.

Lemma kex_assemble_names_spec_witness :
  let '(r, l') := kex_assemble_names true (cstr "aes128-ctr,aes256-ctr") (Some (cstr "+arcfour,aes128-ctr,arcfour")) in
  r = Ok tt /\ l' = Some (cstr "aes128-ctr,aes256-ctr,arcfour").
Proof.
  pose proof (kex_assemble_names_spec (cstr "aes128-ctr,aes256-ctr")
    (Some (cstr "+arcfour,aes128-ctr,arcfour"))) as H.
  specialize (H ltac:(discriminate) ltac:(repeat constructor; discriminate)).
  specialize (H ltac:(intros s [= <-]; vm_compute; congruence)).
  revert H. vm_compute. intros (Hr & _). split; [exact Hr|reflexivity].
Defined.

(** Both ends derive the same keys.  Two ends that carried out the same
    agreement and share the exchange hash, the secret and the session
    identifier install, for sending on one end and for receiving on the
    other, the same algorithms with the keys of RFC 4253, section 7.2: "A" and
    "B" for the IVs, "C" and "D" for encryption, "E" and "F" for integrity;
    every key is at least as long as its algorithm needs. *)
Theorem kex_derived_keys_agree `{EvpSpec} hmac compat cprop sprop a kc ks h sec_c sec_s :
  agree hmac compat cprop sprop = Some a ->
  configured a kc -> configured a ks -> k_server kc = false -> k_server ks = true ->
  k_session_id kc = k_session_id ks ->
  wf sec_c -> wf sec_s -> contents sec_c = contents sec_s ->
  let key := kdf_key kc h (contents sec_c) in
  exists kc' ks',
    kex_derive_keys true h sec_c kc = (Ok tt, kc') /\
    kex_derive_keys true h sec_s ks = (Ok tt, ks') /\
    k_newkeys_out kc' = Some (set_keys (key "A"%string) (key "C"%string) (key "E"%string) (a_ctos a)) /\
    k_newkeys_in kc' = Some (set_keys (key "B"%string) (key "D"%string) (key "F"%string) (a_stoc a)) /\
    k_newkeys_in ks' = k_newkeys_out kc' /\ k_newkeys_out ks' = k_newkeys_in kc' /\
    (forall n id, n = a_ctos a \/ n = a_stoc a ->
       enc_key_len (nk_enc n) <= zlen (key id) /\ enc_iv_len (nk_enc n) <= zlen (key id) /\
       mac_key_len (nk_mac n) <= zlen (key id)).
Proof.
  intros Ha C S Hc Hs Hsid Wc Ws Hsec. cbv zeta.
  destruct (agree_small _ _ _ _ _ Ha) as (Sc & Ss & Hk).
  destruct (configured_need a kc C Sc Ss) as (Hn & Hlen).
  destruct (configured_both a kc ks C S Hc Hs) as (_ & _ & Eh & _ & _ & _ & _ & _ & _ & En & _).
  rewrite <- (conf_hash _ _ C) in Hk.
  destruct (kex_derive_keys_eq kc h sec_c Hk Wc ltac:(lia)) as (kc' & Ec & Oc & Ic).
  assert (Hk' := Hk). rewrite Eh in Hk'.
  destruct (kex_derive_keys_eq ks h sec_s Hk' Ws ltac:(lia)) as (ks' & Es & Os & Is).
  assert (kdf_key ks h (contents sec_s) = kdf_key kc h (contents sec_c)) as Ek.
  { unfold kdf_key. by rewrite <- Eh, <- En, <- Hsid, <- Hsec. }
  rewrite Ek in Os, Is. rewrite Hc in Oc, Ic. rewrite Hs in Os, Is.
  rewrite (conf_out _ _ C), Hc in Oc. rewrite (conf_in _ _ C), Hc in Ic.
  rewrite (conf_out _ _ S), Hs in Os. rewrite (conf_in _ _ S), Hs in Is.
  exists kc', ks'. split_and!; try done; [by rewrite Is, Oc|by rewrite Os, Ic|].
  intros n id Hnn. pose proof (kdf_key_zlen kc h (contents sec_c) id Hk ltac:(lia)).
  destruct (Hlen n Hnn) as (? & ? & ?). lia.
Qed.

(** The ends of the example after the negotiation. *)
Definition test_end (server : bool) : kex :=
  ssh_kex (snd (kex_choose_conf test_alloc true
    (if server then test_ssh true server_proposal client_proposal
     else test_ssh false client_proposal server_proposal))).
Definition test_agreement : agreement :=
  match agree true 0 client_proposal server_proposal with
  | Some a => a
  | None => mk_agreement [] (mk_kexalg [] 0 0 0) [] newkeys_zero newkeys_zero
  end.

Lemma kex_derived_keys_agree_witness :
  exists kc' ks',
    kex_derive_keys true (cstr "hash") (small_buf 300) (test_end false) = (Ok tt, kc') /\
    kex_derive_keys true (cstr "hash") (small_buf 300) (test_end true) = (Ok tt, ks') /\
    k_newkeys_in ks' = k_newkeys_out kc'.
Proof.
  pose proof (small_buf_wf 300 ltac:(lia)) as Hw.
  destruct (kex_derived_keys_agree true 0 client_proposal server_proposal test_agreement
    (test_end false) (test_end true) (cstr "hash") (small_buf 300) (small_buf 300))
    as (kc' & ks' & Ec & Es & _ & _ & E & _).
  - vm_compute. reflexivity.
  - constructor; vm_compute; reflexivity.
  - constructor; vm_compute; reflexivity.
  - vm_compute. reflexivity.
  - vm_compute. reflexivity.
  - vm_compute. reflexivity.
  - exact Hw.
  - exact Hw.
  - reflexivity.
  - exists kc', ks'. split_and!; [exact Ec|exact Es|exact E].
Defined.
