(* ===== verification/Base64.v ===== *)
(** Base64: [b64_ntop] and [b64_pton] of openbsd-compat/base64.c, uuencode.c and
    the two functions of sshbuf-misc.c that use them.

    The decoder is a state machine over the characters that writes each byte in
    two steps; it is proved to accept exactly the canonical encodings, with
    white space anywhere, and to return what was encoded. *)

From S2P Require Import Prelude Wire Sshbuf SshbufGetput SshbufSpec CString.

Definition Base64 : bytes := cstr "ABCDEFGHIJKLMNOPQRSTUVWXYZabcdefghijklmnopqrstuvwxyz0123456789+/".
Definition Pad64 : Z := ch "=".

(** ** Encoding *)

(** The rest of the input and the characters written so far. *)
Fixpoint ntop_loop (src : bytes) (target : bytes) (targsize : Z) : option (bytes * bytes) :=
  match src with
  | i0 :: i1 :: i2 :: src' =>
      let o0 := Z.shiftr i0 2 in
      let o1 := u8 (Z.shiftl (Z.land i0 0x03) 4 + Z.shiftr i1 4) in
      let o2 := u8 (Z.shiftl (Z.land i1 0x0f) 2 + Z.shiftr i2 6) in
      let o3 := Z.land i2 0x3f in
      if targsize <? zlen target + 4 then None
      else ntop_loop src' (target ++ [byte_at Base64 o0; byte_at Base64 o1; byte_at Base64 o2;
                                      byte_at Base64 o3]) targsize
  | _ => Some (src, target)
  end.

(** [None] is -1; otherwise the string stored, whose length is returned. *)
Definition b64_ntop (src : bytes) (targsize : Z) : option bytes :=
  match ntop_loop src [] targsize with
  | None => None
  | Some (src, target) =>
      let finish target := if targsize <=? zlen target then None else Some target in
      match src with
      | [] => finish target
      | _ =>
          let i0 := byte_at src 0 in
          let i1 := byte_at src 1 in
          let i2 := byte_at src 2 in
          let o0 := Z.shiftr i0 2 in
          let o1 := u8 (Z.shiftl (Z.land i0 0x03) 4 + Z.shiftr i1 4) in
          let o2 := u8 (Z.shiftl (Z.land i1 0x0f) 2 + Z.shiftr i2 6) in
          if targsize <? zlen target + 4 then None
          else
            let target := target ++ [byte_at Base64 o0; byte_at Base64 o1] in
            let target := target ++ [if zlen src =? 1 then Pad64 else byte_at Base64 o2] in
            finish (target ++ [Pad64])
      end
  end.

(** ** Decoding *)

(** The offset of the character in the alphabet, [pos - Base64]. *)
Definition base64_pos (c : Z) : option Z :=
  match strchr Base64 c with
  | None => None
  | Some r => Some (zlen Base64 - zlen r)
  end.

(** [state], [tarindex] and the object at [target]; [None] is a NULL pointer. *)
Record pton : Type := mk_pton { p_state : Z; p_tarindex : Z; p_target : option bytes }.

(** One character of the alphabet. *)
Definition pton_digit (targsize pos : Z) (p : pton) : option pton :=
  let i := p_tarindex p in
  let store (need : Z) (f : bytes -> bytes) : option (option bytes) :=
    match p_target p with
    | None => Some None
    | Some t => if targsize <=? need then None else Some (Some (f t))
    end in
  let set (j v : Z) (t : bytes) := write_at j [u8 v] t in
  if p_state p =? 0 then
    match store i (set i (Z.shiftl pos 2)) with
    | None => None
    | Some t => Some (mk_pton 1 i t)
    end
  else if p_state p =? 1 then
    match store (u32 (i + 1)) (fun t =>
            set (u32 (i + 1)) (Z.shiftl (Z.land pos 0x0f) 4)
              (set i (Z.lor (byte_at t i) (Z.shiftr pos 4)) t)) with
    | None => None
    | Some t => Some (mk_pton 2 (u32 (i + 1)) t)
    end
  else if p_state p =? 2 then
    match store (u32 (i + 1)) (fun t =>
            set (u32 (i + 1)) (Z.shiftl (Z.land pos 0x03) 6)
              (set i (Z.lor (byte_at t i) (Z.shiftr pos 2)) t)) with
    | None => None
    | Some t => Some (mk_pton 3 (u32 (i + 1)) t)
    end
  else
    match store i (fun t => set i (Z.lor (byte_at t i) pos) t) with
    | None => None
    | Some t => Some (mk_pton 0 (u32 (i + 1)) t)
    end.

(** The loop over the characters: the string from the terminator on. *)
Fixpoint pton_loop (targsize : Z) (src : bytes) (p : pton) : option (bytes * pton) :=
  match src with
  | [] => Some ([], p)
  | ch :: src' =>
      if isspace ch then pton_loop targsize src' p
      else if ch =? Pad64 then Some (src, p)
      else match base64_pos ch with
           | None => None
           | Some pos =>
               match pton_digit targsize pos p with
               | None => None
               | Some p => pton_loop targsize src' p
               end
           end
  end.

(** What follows the loop.  [for (; ch != '\0'; ch = *src++) if (!isspace(ch))
    break;] is [skip_spaces].  The result is the number returned and the
    object, or [None] for -1. *)
Definition pton_finish (src : bytes) (p : pton) : option (Z * option bytes) :=
  let done := Some (p_tarindex p, p_target p) in
  let only_spaces src :=
    match skip_spaces src with
    | _ :: _ => None
    | [] =>
        match p_target p with
        | Some t => if byte_at t (p_tarindex p) =? 0 then done else None
        | None => done
        end
    end in
  match src with
  | _ :: src =>
      if (p_state p =? 0) || (p_state p =? 1) then None
      else if p_state p =? 2 then
        match skip_spaces src with
        | ch :: src => if ch =? Pad64 then only_spaces src else None
        | [] => None
        end
      else only_spaces src
  | [] => if p_state p =? 0 then done else None
  end.

Definition b64_pton (src : bytes) (target : option bytes) (targsize : Z) : option (Z * option bytes) :=
  match pton_loop targsize src (mk_pton 0 0 target) with
  | None => None
  | Some (src, p) => pton_finish src p
  end.

(** ** uuencode.c *)

Definition uuencode (src : bytes) (targsize : Z) : option bytes := b64_ntop src targsize.

Fixpoint skip_blanks (p : bytes) : bytes :=
  match p with
  | c :: p' => if (c =? 32) || (c =? 9) then skip_blanks p' else p
  | [] => []
  end.
(** The bytes before the first blank. *)
Fixpoint until_blank (p : bytes) : bytes :=
  match p with
  | c :: p' => if (c =? 32) || (c =? 9) then [] else c :: until_blank p'
  | [] => []
  end.
(** The copy that is decoded starts at its first byte, not at [p]: the NUL is
    stored after the first word, blanks in front included. *)
Definition uudecode (src : bytes) (target : option bytes) (targsize : Z) : option (Z * option bytes) :=
  let p := skip_blanks src in
  b64_pton (ztake (zlen src - zlen p) src ++ until_blank p) target targsize.

(** ** sshbuf-misc.c *)

(** [None] is NULL. *)
Definition sshbuf_dtob64 (A : allocator) (buf : sshbuf) : option bytes :=
  let len := sshbuf_len buf in
  let p := ptr_of buf in
  if len =? 0 then Some []
  else
    let plen := u64 (u64 (u64 (len + 2) / 3 * 4) + 1) in
    if (0xffffffffffffffff / 2 <=? len) then None
    else match A plen with
         | None => None
         | Some _ => b64_ntop (ztake len p) plen
         end.

Definition sshbuf_b64tod (A : allocator) (b64 : bytes) : M sshbuf unit :=
  let plen := zlen b64 in
  if plen =? 0 then ret tt
  else match A plen with
       | None => fail SSH_ERR_ALLOC_FAIL
       | Some (_, junk) =>
           match b64_pton b64 (Some ((fun i => u8 (junk i)) <$> seqZ 0 plen)) plen with
           | None => fail SSH_ERR_INVALID_FORMAT
           | Some (nlen, p) => sshbuf_put A (default [] p) nlen
           end
       end.

(** ** Specification: RFC 4648 *)

Definition d64 (n : Z) : Z := byte_at Base64 n.

(** The 6-bit digits of three bytes. *)
Definition q0 (x : Z) : Z := x / 4.
Definition q1 (x y : Z) : Z := x mod 4 * 16 + y / 16.
Definition q2 (y z : Z) : Z := y mod 16 * 4 + z / 64.
Definition q3 (z : Z) : Z := z mod 64.

Fixpoint base64 (v : bytes) : bytes :=
  match v with
  | x :: y :: z :: v => d64 (q0 x) :: d64 (q1 x y) :: d64 (q2 y z) :: d64 (q3 z) :: base64 v
  | [x; y] => [d64 (q0 x); d64 (q1 x y); d64 (q2 y 0); Pad64]
  | [x] => [d64 (q0 x); d64 (q1 x 0); Pad64; Pad64]
  | [] => []
  end.

(** The string without its white space. *)
Definition nonspace (s : bytes) : bytes := List.filter (fun c => negb (isspace c)) s.

(** ** Lemmas: the alphabet *)

Abbreviation digit n := (0 <= n < 64).

Lemma digits_checked :
  forallb (fun n => bool_decide (base64_pos (d64 n) = Some n) && negb (isspace (d64 n)) &&
                    negb (d64 n =? Pad64) && (0 <? d64 n) && (d64 n <? 256)) (seqZ 0 64) = true.
Proof. vm_compute. reflexivity. Qed.

Lemma d64_facts n :
  digit n -> base64_pos (d64 n) = Some n /\ isspace (d64 n) = false /\ d64 n <> Pad64 /\ 0 < d64 n < 256.
Proof.
  intros Hn. pose proof digits_checked as H. rewrite forallb_forall in H.
  specialize (H n). assert (In n (seqZ 0 64)) as Hin by (apply list_elem_of_In, elem_of_seqZ; lia).
  apply H in Hin. rewrite !andb_true_iff, !negb_true_iff, bool_decide_eq_true, !Z.ltb_lt, Z.eqb_neq in Hin.
  tauto.
Qed.

Lemma d64_inj m n : digit m -> digit n -> d64 m = d64 n -> m = n.
Proof.
  intros Hm Hn E. apply d64_facts in Hm as (Hm & _). apply d64_facts in Hn as (Hn & _). congruence.
Qed.

Lemma strchr_nth s c : forall r, strchr s c = Some r ->
  byte_at s (zlen s - zlen r) = c /\ 0 <= zlen s - zlen r < zlen s.
Proof.
  induction s as [|x s IH]; intros r; [done|]. simpl. destruct (Z.eqb_spec x c) as [->|Hx].
  - intros [= <-]. rewrite Z.sub_diag. split; [done|]. zl.
  - intros Hr. destruct (IH r Hr) as (Hb & Hl). rewrite zlen_cons. split; [|lia].
    unfold byte_at in *. replace (Z.to_nat (1 + zlen s - zlen r)) with (S (Z.to_nat (zlen s - zlen r))) by lia.
    done.
Qed.

Lemma base64_pos_some c n : base64_pos c = Some n -> digit n /\ c = d64 n.
Proof.
  unfold base64_pos. destruct (strchr Base64 c) as [r|] eqn:E; [|done]. intros [= <-].
  apply strchr_nth in E as (Hb & Hl). change (zlen Base64) with 64 in *. split; [lia|]. by symmetry.
Qed.

Lemma is_pad : isspace Pad64 = false /\ base64_pos Pad64 = None.
Proof. vm_compute. done. Qed.

(** ** Lemmas: encoding *)

Lemma shift_parts x y z :
  is_byte x -> is_byte y -> is_byte z ->
  Z.shiftr x 2 = q0 x /\ u8 (Z.shiftl (Z.land x 0x03) 4 + Z.shiftr y 4) = q1 x y /\
  u8 (Z.shiftl (Z.land y 0x0f) 2 + Z.shiftr z 6) = q2 y z /\ Z.land z 0x3f = q3 z.
Proof.
  unfold in_range, q0, q1, q2, q3. intros Hx Hy Hz.
  change 0x03 with (2 ^ 2 - 1). change 0x0f with (2 ^ 4 - 1). change 0x3f with (2 ^ 6 - 1).
  rewrite !land_ones_mod, !Z.shiftr_div_pow2, !Z.shiftl_mul_pow2 by lia.
  change (2 ^ 2) with 4. change (2 ^ 4) with 16. change (2 ^ 6) with 64.
  rewrite !wrap_small by (Z.div_mod_to_equations; lia). done.
Qed.

Lemma digits_range x y z :
  is_byte x -> is_byte y -> is_byte z -> digit (q0 x) /\ digit (q1 x y) /\ digit (q2 y z) /\ digit (q3 z).
Proof. unfold in_range, q0, q1, q2, q3. intros. Z.div_mod_to_equations. lia. Qed.

(** A list by groups of three. *)
Lemma group3_ind (P : bytes -> Prop) :
  P [] -> (forall x, P [x]) -> (forall x y, P [x; y]) ->
  (forall x y z v, P v -> P (x :: y :: z :: v)) -> forall v, P v.
Proof.
  intros H0 H1 H2 H3 v. assert (P v /\ (forall x, P (x :: v)) /\ forall x y, P (x :: y :: v)) as [? _]; [|done].
  induction v as [|a v (IH1 & IH2 & IH3)]; split_and!; auto.
Qed.

Lemma base64_zlen v : zlen (base64 v) = (zlen v + 2) / 3 * 4.
Proof.
  induction v as [|x|x y|x y z v IH] using group3_ind; [done..|]. cbn [base64].
  rewrite !zlen_cons, IH. replace (1 + (1 + (1 + zlen v)) + 2) with (zlen v + 2 + 1 * 3) by lia.
  rewrite Z.div_add by lia. lia.
Qed.

Lemma ntop_loop_spec v targsize : Bytes v -> forall acc,
  match ntop_loop v acc targsize with
  | None => targsize < zlen acc + zlen (base64 v)
  | Some (rest, out) => exists full, v = full ++ rest /\ zlen rest < 3 /\ Bytes rest /\
      out = acc ++ base64 full /\ base64 v = base64 full ++ base64 rest
  end.
Proof.
  induction v as [|x|x y|x y z v IH] using group3_ind; intros HB acc; cbn [ntop_loop].
  1-3: (exists []; cbn [base64 app]; rewrite app_nil_r; split_and!; try done; unfold zlen; simpl; lia).
  apply Forall_cons in HB as [Hx HB]. apply Forall_cons in HB as [Hy HB]. apply Forall_cons in HB as [Hz HB].
  cbn [base64]. rewrite !zlen_cons. pose proof (zlen_nonneg (base64 v)).
  destruct (Z.ltb_spec targsize (zlen acc + 4)); [lia|].
  destruct (shift_parts x y z Hx Hy Hz) as (-> & -> & -> & ->).
  fold (d64 (q0 x)) (d64 (q1 x y)) (d64 (q2 y z)) (d64 (q3 z)).
  specialize (IH HB (acc ++ [d64 (q0 x); d64 (q1 x y); d64 (q2 y z); d64 (q3 z)])).
  destruct (ntop_loop v _ targsize) as [[rest out]|].
  - destruct IH as (full & -> & Hl & HBr & -> & Hb). exists (x :: y :: z :: full).
    cbn [base64 app]. rewrite Hb, <- (assoc_L (++)). by split_and!.
  - rewrite zlen_app in IH. change (zlen [d64 (q0 x); d64 (q1 x y); d64 (q2 y z); d64 (q3 z)]) with 4 in IH. lia.
Qed.

Lemma b64_ntop_spec v targsize :
  Bytes v -> b64_ntop v targsize = if zlen (base64 v) <? targsize then Some (base64 v) else None.
Proof.
  intros HB. pose proof (ntop_loop_spec v targsize HB []) as P. unfold b64_ntop. cbv zeta.
  destruct (ntop_loop v [] targsize) as [[rest out]|].
  2: { rewrite zlen_nil in P. by destruct (Z.ltb_spec (zlen (base64 v)) targsize); [lia|]. }
  destruct P as (full & _ & Hl & HBr & -> & ->). simpl app.
  destruct rest as [|x [|y [|z rest]]]; [..|exfalso; rewrite !zlen_cons in Hl; zl].
  - cbn [base64]. rewrite app_nil_r.
    destruct (Z.leb_spec targsize (zlen (base64 full))), (Z.ltb_spec (zlen (base64 full)) targsize); done || lia.
  - apply Forall_cons in HBr as [Hx _]. assert (H0 : is_byte 0) by (by vm_compute).
    change (byte_at [x] 0) with x. change (byte_at [x] 1) with 0.
    destruct (shift_parts x 0 0 Hx H0 H0) as (-> & -> & _ & _). cbn [base64].
    change (zlen [x] =? 1) with true. cbv iota. rewrite <- !(assoc_L (++)), !zlen_app. cbn [app].
    change (zlen [d64 (q0 x); d64 (q1 x 0); Pad64; Pad64]) with 4.
    destruct (Z.ltb_spec targsize (zlen (base64 full) + 4)), (Z.ltb_spec (zlen (base64 full) + 4) targsize);
      try done; try lia;
      change (zlen [byte_at Base64 (q0 x); byte_at Base64 (q1 x 0)] + (zlen [Pad64] + zlen [Pad64])) with 4;
      destruct (Z.leb_spec targsize (zlen (base64 full) + 4)); done || lia.
  - apply Forall_cons in HBr as [Hx HBr]. apply Forall_cons in HBr as [Hy _].
    assert (H0 : is_byte 0) by (by vm_compute).
    change (byte_at [x; y] 0) with x. change (byte_at [x; y] 1) with y. change (byte_at [x; y] 2) with 0.
    destruct (shift_parts x y 0 Hx Hy H0) as (-> & -> & -> & _). cbn [base64].
    change (zlen [x; y] =? 1) with false. cbv iota. rewrite <- !(assoc_L (++)), !zlen_app. cbn [app].
    change (zlen [d64 (q0 x); d64 (q1 x y); d64 (q2 y 0); Pad64]) with 4.
    destruct (Z.ltb_spec targsize (zlen (base64 full) + 4)), (Z.ltb_spec (zlen (base64 full) + 4) targsize);
      try done; try lia;
      change (zlen [byte_at Base64 (q0 x); byte_at Base64 (q1 x y)] +
        (zlen [byte_at Base64 (q2 y 0)] + zlen [Pad64])) with 4;
      destruct (Z.leb_spec targsize (zlen (base64 full) + 4)); done || lia.
Qed.

(** ** Lemmas: white space *)

Lemma nonspace_cons c s : nonspace (c :: s) = if isspace c then nonspace s else c :: nonspace s.
Proof. unfold nonspace. cbn. by destruct (isspace c). Qed.

Lemma skip_spaces_nonspace s :
  nonspace (skip_spaces s) = nonspace s /\
  match skip_spaces s with [] => nonspace s = [] | c :: s' => nonspace s = c :: nonspace s' end.
Proof.
  induction s as [|c s (IH1 & IH2)]; [done|]. cbn [skip_spaces]. rewrite nonspace_cons.
  destruct (isspace c) eqn:E; [by split|]. rewrite nonspace_cons, E. done.
Qed.

Lemma skip_spaces_id s : nonspace s = s -> skip_spaces s = s.
Proof.
  destruct s as [|c s]; [done|]. rewrite nonspace_cons. cbn. destruct (isspace c) eqn:E; [|done].
  intros H. apply (f_equal List.length) in H. unfold nonspace in H. simpl in H.
  pose proof (filter_length_le (fun c => negb (isspace c)) s). lia.
Qed.

Lemma nonspace_idemp s : nonspace (nonspace s) = nonspace s.
Proof.
  induction s as [|c s IH]; [done|]. rewrite nonspace_cons. destruct (isspace c) eqn:E; [done|].
  by rewrite nonspace_cons, E, IH.
Qed.

Lemma pton_loop_nonspace ts s : forall p,
  pton_loop ts (nonspace s) p =
  match pton_loop ts s p with None => None | Some (r, p) => Some (nonspace r, p) end.
Proof.
  induction s as [|c s IH]; intros p; [done|]. rewrite nonspace_cons. cbn [pton_loop].
  destruct (isspace c) eqn:E; [apply IH|]. cbn [pton_loop]. rewrite E.
  destruct (c =? Pad64); [by rewrite nonspace_cons, E|].
  destruct (base64_pos c) as [pos|]; [|done]. destruct (pton_digit ts pos p); [apply IH|done].
Qed.

(** The loop stops at the end of the string or at a pad. *)
Lemma pton_loop_rest ts s : forall p r p', pton_loop ts s p = Some (r, p') ->
  r = [] \/ exists r', r = Pad64 :: r'.
Proof.
  induction s as [|c s IH]; intros p r p'; cbn [pton_loop].
  - intros [= <- <-]. by left.
  - destruct (isspace c); [apply IH|]. destruct (Z.eqb_spec c Pad64) as [->|].
    + intros [= <- <-]. right. by eexists.
    + destruct (base64_pos c); [|done]. destruct (pton_digit ts z p); [apply IH|done].
Qed.

(** [skip_spaces] in the two places where its result decides. *)
Lemma only_spaces_nonspace {A} s (x : A) :
  match skip_spaces (nonspace s) with [] => x | _ :: _ => x end = x.
Proof. by destruct (skip_spaces (nonspace s)). Qed.

Lemma pton_finish_nonspace r p :
  r = [] \/ (exists r', r = Pad64 :: r') -> pton_finish (nonspace r) p = pton_finish r p.
Proof.
  assert (Hs : forall s, skip_spaces (nonspace s) = match skip_spaces s with [] => [] | c :: s' => c :: nonspace s' end).
  { intros s. rewrite skip_spaces_id by apply nonspace_idemp.
    destruct (skip_spaces_nonspace s) as (_ & H). by destruct (skip_spaces s). }
  intros [->|(r' & ->)]; [done|]. rewrite nonspace_cons, (proj1 is_pad). unfold pton_finish.
  rewrite !Hs. destruct (skip_spaces r') as [|c s]; [done|]. rewrite Hs. by destruct (skip_spaces s).
Qed.

Lemma b64_pton_nonspace s t ts : b64_pton (nonspace s) t ts = b64_pton s t ts.
Proof.
  unfold b64_pton. rewrite pton_loop_nonspace.
  destruct (pton_loop ts s (mk_pton 0 0 t)) as [[r p]|] eqn:E; [|done].
  apply pton_finish_nonspace. by eapply pton_loop_rest.
Qed.

(** ** Lemmas: digits *)

(** The bytes of four digits. *)
Definition v0 (a b : Z) : Z := a * 4 + b / 16.
Definition v1 (b c : Z) : Z := b mod 16 * 16 + c / 4.
Definition v2 (c d : Z) : Z := c mod 4 * 64 + d.

Lemma q_of_v a b c d :
  digit a -> digit b -> digit c -> digit d ->
  q0 (v0 a b) = a /\ q1 (v0 a b) (v1 b c) = b /\ q2 (v1 b c) (v2 c d) = c /\ q3 (v2 c d) = d /\
  is_byte (v0 a b) /\ is_byte (v1 b c) /\ is_byte (v2 c d).
Proof. unfold q0, q1, q2, q3, v0, v1, v2, in_range. intros. Z.div_mod_to_equations. lia. Qed.

Lemma write_mid pre x post v : write_at (zlen pre) [v] (pre ++ x :: post) = pre ++ v :: post.
Proof.
  unfold write_at. rewrite ztake_app by done. change (zlen [v]) with 1.
  rewrite zdrop_app_ge by zl. replace (zlen pre + 1 - zlen pre) with 1 by lia. done.
Qed.
Lemma byte_at_mid pre x post : byte_at (pre ++ x :: post) (zlen pre) = x.
Proof. unfold byte_at, zlen. rewrite Nat2Z.id, app_nth2 by lia. by rewrite Nat.sub_diag. Qed.

Lemma lor_shifts a b k :
  0 <= a -> 0 <= k -> 0 <= b < 2 ^ k -> Z.lor (Z.shiftl a k) b = a * 2 ^ k + b.
Proof. intros. by apply lor_shiftl_add. Qed.

(** The four transitions, on an object whose first [zlen pre] bytes are done. *)
Lemma pton_digit_0 ts a pre x post :
  digit a -> zlen pre < ts ->
  pton_digit ts a (mk_pton 0 (zlen pre) (Some (pre ++ x :: post))) =
    Some (mk_pton 1 (zlen pre) (Some (pre ++ (a * 4) :: post))).
Proof.
  intros Ha Hl. unfold pton_digit. cbn [p_state p_tarindex p_target Z.eqb].
  destruct (Z.leb_spec ts (zlen pre)); [lia|]. rewrite write_mid, Z.shiftl_mul_pow2 by lia.
  by rewrite wrap_small by lia.
Qed.

Lemma pton_digit_mid ts st pos hi pre x y post n lo :
  0 <= zlen pre -> zlen pre + 1 < ts -> ts < 2 ^ 31 ->
  (st = 1 /\ hi = Z.shiftr pos 4 /\ lo = Z.shiftl (Z.land pos 0x0f) 4 \/
   st = 2 /\ hi = Z.shiftr pos 2 /\ lo = Z.shiftl (Z.land pos 0x03) 6) ->
  u8 (Z.lor x hi) = n -> is_byte lo ->
  pton_digit ts pos (mk_pton st (zlen pre) (Some (pre ++ x :: y :: post))) =
    Some (mk_pton (st + 1) (zlen pre + 1) (Some ((pre ++ [n]) ++ lo :: post))).
Proof.
  intros H0 Hl Hts Hst Hn Hlo. unfold pton_digit. cbn [p_state p_tarindex p_target].
  rewrite (wrap_small 32 (zlen pre + 1)) by lia.
  destruct (Z.leb_spec ts (zlen pre + 1)) as [|_]; [lia|].
  rewrite byte_at_mid. destruct Hst as [(-> & <- & <-)|(-> & <- & <-)]; cbn [Z.eqb Pos.eqb];
    rewrite write_mid, Hn, (wrap_small 8 _ Hlo), cons_middle, (assoc_L (++));
    replace (zlen pre + 1) with (zlen (pre ++ [n])) by (rewrite zlen_app; done);
    rewrite write_mid; by rewrite zlen_app.
Qed.

Lemma pton_digit_3 ts d pre x post :
  0 <= zlen pre < ts -> ts < 2 ^ 31 -> is_byte (Z.lor x d) ->
  pton_digit ts d (mk_pton 3 (zlen pre) (Some (pre ++ x :: post))) =
    Some (mk_pton 0 (zlen pre + 1) (Some ((pre ++ [Z.lor x d]) ++ post))).
Proof.
  intros Hl Hts Hb. unfold pton_digit. cbn [p_state p_tarindex p_target Z.eqb Pos.eqb].
  destruct (Z.leb_spec ts (zlen pre)); [lia|].
  rewrite byte_at_mid, write_mid, !wrap_small by (done || lia). by rewrite <- (assoc_L (++)).
Qed.

Lemma pton_loop_d64 ts n s p :
  digit n ->
  pton_loop ts (d64 n :: s) p =
  match pton_digit ts n p with None => None | Some p => pton_loop ts s p end.
Proof.
  intros Hn. destruct (d64_facts n Hn) as (E1 & E2 & E3 & _). cbn [pton_loop]. rewrite E2, E1.
  by destruct (Z.eqb_spec (d64 n) Pad64).
Qed.

(** The bytes two and three digits complete, and what is left over. *)
Definition left2 (b : Z) : Z := b mod 16 * 16.
Definition left3 (c : Z) : Z := c mod 4 * 64.

Lemma v_lor a b c d :
  digit a -> digit b -> digit c -> digit d ->
  Z.lor (a * 4) (Z.shiftr b 4) = v0 a b /\ Z.shiftl (Z.land b 0x0f) 4 = left2 b /\
  Z.lor (left2 b) (Z.shiftr c 2) = v1 b c /\ Z.shiftl (Z.land c 0x03) 6 = left3 c /\
  Z.lor (left3 c) d = v2 c d /\ is_byte (left2 b) /\ is_byte (left3 c) /\
  is_byte (v0 a b) /\ is_byte (v1 b c) /\ is_byte (v2 c d).
Proof.
  intros Ha Hb Hc Hd. unfold left2, left3, v0, v1, v2, in_range.
  change 0x03 with (2 ^ 2 - 1). change 0x0f with (2 ^ 4 - 1).
  rewrite !land_ones_mod, !Z.shiftr_div_pow2, !Z.shiftl_mul_pow2 by lia.
  pose proof (lor_shiftl_add a (b / 16) 2 ltac:(lia) ltac:(Z.div_mod_to_equations; lia)) as E1.
  pose proof (lor_shiftl_add (b mod 16) (c / 4) 4 ltac:(lia) ltac:(Z.div_mod_to_equations; lia)) as E2.
  pose proof (lor_shiftl_add (c mod 4) d 6 ltac:(lia) ltac:(lia)) as E3.
  rewrite Z.shiftl_mul_pow2 in E1, E2, E3 by lia.
  change (2 ^ 2) with 4 in *. change (2 ^ 4) with 16 in *. change (2 ^ 6) with 64 in *.
  rewrite E1, E2, E3. split_and!; try done; Z.div_mod_to_equations; lia.
Qed.

Section group.
Variables (ts a b c d : Z) (pre : bytes).
Hypotheses (Ha : digit a) (Hb : digit b) (Hc : digit c) (Hd : digit d) (Hts : ts < 2 ^ 31).

Lemma pton_two s x y post :
  zlen pre + 1 < ts ->
  pton_loop ts (d64 a :: d64 b :: s) (mk_pton 0 (zlen pre) (Some (pre ++ x :: y :: post))) =
  pton_loop ts s (mk_pton 2 (zlen (pre ++ [v0 a b])) (Some ((pre ++ [v0 a b]) ++ left2 b :: post))).
Proof.
  intros Hl. pose proof (zlen_nonneg pre).
  destruct (v_lor a b 0 0 Ha Hb ltac:(lia) ltac:(lia)) as (E1 & E2 & _ & _ & _ & B1 & _ & B2 & _).
  rewrite pton_loop_d64, pton_digit_0 by (done || lia). rewrite pton_loop_d64 by done.
  rewrite (pton_digit_mid ts 1 b (Z.shiftr b 4) pre (a * 4) y post (v0 a b) (left2 b)); try done.
  - by rewrite zlen_app.
  - left. by rewrite E2.
  - rewrite E1. by apply wrap_small.
Qed.

Lemma pton_three s x y z post :
  zlen pre + 2 < ts ->
  pton_loop ts (d64 a :: d64 b :: d64 c :: s) (mk_pton 0 (zlen pre) (Some (pre ++ x :: y :: z :: post))) =
  pton_loop ts s (mk_pton 3 (zlen (pre ++ [v0 a b; v1 b c])) (Some ((pre ++ [v0 a b; v1 b c]) ++ left3 c :: post))).
Proof.
  intros Hl. pose proof (zlen_nonneg pre).
  destruct (v_lor a b c 0 Ha Hb Hc ltac:(lia)) as (_ & _ & E3 & E4 & _ & _ & B1 & _ & B2 & _).
  rewrite pton_two, pton_loop_d64 by (done || lia).
  assert (Hz : zlen (pre ++ [v0 a b]) = zlen pre + 1) by (by rewrite zlen_app).
  rewrite (pton_digit_mid ts 2 c (Z.shiftr c 2) (pre ++ [v0 a b]) (left2 b) z post (v1 b c) (left3 c)); try lia.
  - rewrite <- (assoc_L (++) pre). cbn [app]. rewrite Hz.
    replace (zlen (pre ++ [v0 a b; v1 b c])) with (zlen pre + 1 + 1); [done|].
    rewrite zlen_app. change (zlen [v0 a b; v1 b c]) with 2. lia.
  - rewrite E3. by apply wrap_small.
  - done.
Qed.

Lemma pton_four s x y z post :
  zlen pre + 2 < ts ->
  pton_loop ts (d64 a :: d64 b :: d64 c :: d64 d :: s)
    (mk_pton 0 (zlen pre) (Some (pre ++ x :: y :: z :: post))) =
  pton_loop ts s (mk_pton 0 (zlen (pre ++ [v0 a b; v1 b c; v2 c d]))
                    (Some ((pre ++ [v0 a b; v1 b c; v2 c d]) ++ post))).
Proof.
  intros Hl. pose proof (zlen_nonneg pre).
  destruct (v_lor a b c d Ha Hb Hc Hd) as (_ & _ & _ & _ & E5 & _ & _ & _ & _ & B).
  assert (Hz : zlen (pre ++ [v0 a b; v1 b c]) = zlen pre + 2) by (by rewrite zlen_app).
  rewrite pton_three, pton_loop_d64 by (done || lia).
  rewrite pton_digit_3; [|lia|done|by rewrite E5].
  rewrite E5, <- !(assoc_L (++) pre). cbn [app]. rewrite Hz.
  replace (zlen (pre ++ [v0 a b; v1 b c; v2 c d])) with (zlen pre + 2 + 1); [done|].
  rewrite zlen_app. change (zlen [v0 a b; v1 b c; v2 c d]) with 3. lia.
Qed.
End group.

(** ** Lemmas: the decoder accepts exactly the encodings *)

Lemma d64_pad n : digit n -> d64 n <> Pad64 /\ Pad64 <> d64 n.
Proof. intros Hn. destruct (d64_facts n Hn) as (_ & _ & ? & _). by split. Qed.

(** The shape of an encoding: empty, or four characters and an encoding. *)
Lemma base64_shape v :
  Bytes v ->
  v = [] \/
  exists a b c d w, digit a /\ digit b /\
    (base64 v = d64 a :: d64 b :: c :: d :: base64 w) /\
    ((exists x, v = [x] /\ w = [] /\ a = q0 x /\ b = q1 x 0 /\ c = Pad64 /\ d = Pad64) \/
     (exists x y m, v = [x; y] /\ w = [] /\ digit m /\ a = q0 x /\ b = q1 x y /\ m = q2 y 0 /\ c = d64 m /\ d = Pad64) \/
     (exists x y z m k, v = x :: y :: z :: w /\ digit m /\ digit k /\ a = q0 x /\ b = q1 x y /\ m = q2 y z /\
        k = q3 z /\ c = d64 m /\ d = d64 k)).
Proof.
  assert (H0 : is_byte 0) by (by vm_compute).
  destruct v as [|x [|y [|z v]]]; intros HB; [by left|right..];
    repeat match goal with H : Bytes (_ :: _) |- _ => apply Forall_cons in H as [? H] end.
  - destruct (digits_range x 0 0) as (? & ? & _); try done. exists (q0 x), (q1 x 0), Pad64, Pad64, [].
    split_and!; try done; try lia. left. by exists x.
  - destruct (digits_range x y 0) as (? & ? & ? & _); try done. exists (q0 x), (q1 x y), (d64 (q2 y 0)), Pad64, [].
    split_and!; try done; try lia. right; left. exists x, y, (q2 y 0). split_and!; done || lia.
  - destruct (digits_range x y z) as (? & ? & ? & ?); try done.
    exists (q0 x), (q1 x y), (d64 (q2 y z)), (d64 (q3 z)), v.
    split_and!; try done; try lia. right; right. exists x, y, z, (q2 y z), (q3 z). split_and!; done || lia.
Qed.

Lemma base64_chars v : Bytes v -> Forall (fun c => c = Pad64 \/ base64_pos c <> None) (base64 v).
Proof.
  assert (Hd : forall n, digit n -> d64 n = Pad64 \/ base64_pos (d64 n) <> None).
  { intros n Hn. right. rewrite (proj1 (d64_facts n Hn)). done. }
  assert (H0 : is_byte 0) by (by vm_compute).
  induction v as [|x|x y|x y z v IH] using group3_ind; intros HB; cbn [base64];
    repeat match goal with H : Bytes (_ :: _) |- _ => apply Forall_cons in H as [? H] end.
  - done.
  - destruct (digits_range x 0 0) as (? & ? & _); try done. rewrite !Forall_cons; split_and!; auto.
  - destruct (digits_range x y 0) as (? & ? & ? & _); try done. rewrite !Forall_cons; split_and!; auto.
  - destruct (digits_range x y z) as (? & ? & ? & ?); try done. rewrite !Forall_cons; split_and!; auto.
Qed.

(** What is left of a string without white space after its leading digits. *)
Definition no_digit (r : bytes) : Prop :=
  nonspace r = r /\ match r with [] => True | c :: _ => base64_pos c = None end.

Lemma pton_loop_no_digit ts r p :
  no_digit r ->
  pton_loop ts r p =
  match r with [] => Some (r, p) | c :: _ => if c =? Pad64 then Some (r, p) else None end.
Proof.
  intros (Hs & Hd). destruct r as [|c r]; [done|]. cbn [pton_loop].
  destruct (isspace c) eqn:E.
  - rewrite nonspace_cons, E in Hs. apply (f_equal List.length) in Hs.
    pose proof (filter_length_le (fun c => negb (isspace c)) r). unfold nonspace in Hs. simpl in Hs. lia.
  - destruct (c =? Pad64); [done|]. by rewrite Hd.
Qed.

(** What [b64_pton] returns for [s] after the bytes [pre]. *)
Definition decodes (pre s : bytes) (r : option (Z * option bytes)) : Prop :=
  match r with
  | Some (n, Some t) => exists v, s = base64 v /\ Bytes v /\ n = zlen pre + zlen v /\ ztake n t = pre ++ v
  | Some (_, None) => False
  | None => ~ exists v, Bytes v /\ s = base64 v
  end.

Definition finish (r : option (bytes * pton)) : option (Z * option bytes) :=
  match r with None => None | Some (src, p) => pton_finish src p end.

(** A character that is in no encoding. *)
Lemma decodes_junk pre u c r : base64_pos c = None -> c <> Pad64 -> decodes pre (u ++ c :: r) None.
Proof.
  intros Hc Hp (v & HB & E). pose proof (base64_chars v HB) as H. rewrite <- E in H.
  apply Forall_app in H as [_ [[?|?] _]%Forall_cons]; done.
Qed.

(** The end of a string, by the number of digits of the last group. *)
Section tails.
Variables (ts a b c : Z) (pre r : bytes).
Hypotheses (Ha : digit a) (Hb : digit b) (Hc : digit c) (Hts : ts < 2 ^ 31) (Hr : no_digit r).

Lemma tail_0 post : decodes pre r (finish (pton_loop ts r (mk_pton 0 (zlen pre) (Some (pre ++ post))))).
Proof.
  rewrite pton_loop_no_digit by done. destruct r as [|x r'].
  - exists []. rewrite (@zlen_nil Z), Z.add_0_r, app_nil_r, ztake_app by done. by split_and!.
  - destruct (Z.eqb_spec x Pad64) as [->|Hx]; [|apply (decodes_junk pre []); [apply Hr|done]].
    intros (v & HB & E). destruct (base64_shape v HB) as [->|(a' & b' & c' & d & w & Ha' & _ & E' & _)]; [done|].
    rewrite E' in E. injection E as E _. by apply (d64_pad a' Ha').
Qed.

Lemma tail_1 x post :
  zlen pre < ts ->
  decodes pre (d64 a :: r) (finish (pton_loop ts (d64 a :: r) (mk_pton 0 (zlen pre) (Some (pre ++ x :: post))))).
Proof.
  intros Hl. rewrite pton_loop_d64, pton_digit_0, pton_loop_no_digit by done. destruct r as [|y r'].
  - intros (v & HB & E). destruct (base64_shape v HB) as [->|(? & ? & ? & ? & ? & _ & _ & E' & _)]; [done|].
    rewrite E' in E. done.
  - destruct (Z.eqb_spec y Pad64) as [->|Hy]; [|apply (decodes_junk pre [d64 a]); [apply Hr|done]].
    intros (v & HB & E). destruct (base64_shape v HB) as [->|(? & b' & ? & ? & ? & _ & Hb' & E' & _)]; [done|].
    rewrite E' in E. injection E as _ E _. by apply (d64_pad b' Hb').
Qed.

Lemma no_digit_pad_tail y r' : no_digit (y :: r') -> y = Pad64 -> nonspace r' = r'.
Proof. intros (H & _) ->. rewrite nonspace_cons, (proj1 is_pad) in H. by injection H. Qed.

Lemma left_zero_2 : left2 b = 0 -> base64 [v0 a b] = [d64 a; d64 b; Pad64; Pad64].
Proof.
  intros H. cbn [base64]. unfold left2, q0, q1, v0 in *.
  replace ((a * 4 + b / 16) / 4) with a by (Z.div_mod_to_equations; lia).
  replace ((a * 4 + b / 16) mod 4 * 16 + 0 / 16) with b by (Z.div_mod_to_equations; lia). done.
Qed.
Lemma left_zero_3 : left3 c = 0 -> base64 [v0 a b; v1 b c] = [d64 a; d64 b; d64 c; Pad64].
Proof.
  intros H. cbn [base64]. unfold left3, q0, q1, q2, v0, v1 in *.
  replace ((a * 4 + b / 16) / 4) with a by (Z.div_mod_to_equations; lia).
  replace ((a * 4 + b / 16) mod 4 * 16 + (b mod 16 * 16 + c / 4) / 16) with b
    by (Z.div_mod_to_equations; lia).
  replace ((b mod 16 * 16 + c / 4) mod 16 * 4 + 0 / 64) with c by (Z.div_mod_to_equations; lia). done.
Qed.

(** Strings that are not encodings because of their last group. *)
Lemma not_enc_2 pre' w :
  (w = [Pad64; Pad64] -> left2 b <> 0) -> no_digit w -> decodes pre' (d64 a :: d64 b :: w) None.
Proof.
  intros Hw (_ & Hn) (v & HB & E).
  destruct (base64_shape v HB) as [->|(a' & b' & c' & d' & u & Ha' & Hb' & E' & [S|[S|S]])]; [done|..];
    rewrite E' in E; injection E as Ea Eb ->; apply d64_inj in Ea, Eb; try done; subst a' b'.
  - destruct S as (x & _ & -> & -> & -> & -> & ->). apply Hw; [done|]. unfold left2, q1.
    Z.div_mod_to_equations; lia.
  - destruct S as (? & ? & m & _ & _ & Hm & _ & _ & _ & -> & _). rewrite (proj1 (d64_facts m Hm)) in Hn. done.
  - destruct S as (? & ? & ? & m & ? & _ & Hm & _ & _ & _ & _ & _ & -> & _).
    rewrite (proj1 (d64_facts m Hm)) in Hn. done.
Qed.
Lemma not_enc_3 pre' w :
  (w = [Pad64] -> left3 c <> 0) -> no_digit w -> decodes pre' (d64 a :: d64 b :: d64 c :: w) None.
Proof.
  intros Hw (_ & Hn) (v & HB & E).
  destruct (base64_shape v HB) as [->|(a' & b' & c' & d' & u & Ha' & Hb' & E' & [S|[S|S]])]; [done|..];
    rewrite E' in E; injection E as Ea Eb Ec ->; apply d64_inj in Ea, Eb; try done; subst a' b'.
  - destruct S as (_ & _ & _ & _ & _ & -> & _). by apply (d64_pad c Hc).
  - destruct S as (x & y & m & _ & -> & Hm & -> & -> & -> & -> & ->). apply d64_inj in Ec; [|done..].
    apply Hw; [done|]. rewrite Ec. unfold left3, q2. Z.div_mod_to_equations; lia.
  - destruct S as (? & ? & ? & ? & k & _ & _ & Hk & _ & _ & _ & _ & _ & ->).
    rewrite (proj1 (d64_facts k Hk)) in Hn. done.
Qed.

Lemma tail_2 x y post :
  zlen pre + 1 < ts ->
  decodes pre (d64 a :: d64 b :: r)
    (finish (pton_loop ts (d64 a :: d64 b :: r) (mk_pton 0 (zlen pre) (Some (pre ++ x :: y :: post))))).
Proof.
  intros Hl. rewrite pton_two, pton_loop_no_digit by done.
  destruct (v_lor a b 0 0 Ha Hb ltac:(lia) ltac:(lia)) as (_ & _ & _ & _ & _ & _ & _ & B & _).
  destruct r as [|z r']; [by apply not_enc_2|].
  destruct (Z.eqb_spec z Pad64) as [->|Hz]; [|apply (decodes_junk pre [d64 a; d64 b]); [apply Hr|done]].
  pose proof (no_digit_pad_tail _ _ Hr eq_refl) as Ht. cbn [finish pton_finish p_state p_tarindex p_target Z.eqb Pos.eqb orb].
  rewrite (skip_spaces_id r' Ht). destruct r' as [|z r'']; [by apply not_enc_2|].
  destruct (Z.eqb_spec z Pad64) as [->|Hz]; [|by apply not_enc_2; [intros [= ?]|]].
  assert (Ht' : nonspace r'' = r'') by (rewrite nonspace_cons, (proj1 is_pad) in Ht; by injection Ht).
  rewrite (skip_spaces_id r'' Ht'). destruct r'' as [|z r'']; [|by apply not_enc_2].
  rewrite byte_at_mid. destruct (Z.eqb_spec (left2 b) 0) as [E|E]; [|by apply not_enc_2].
  exists [v0 a b]. rewrite left_zero_2 by done. split_and!; [done|constructor; [done|constructor]| |].
  - by rewrite zlen_app.
  - by apply ztake_app.
Qed.

Lemma tail_3 x y z post :
  zlen pre + 2 < ts ->
  decodes pre (d64 a :: d64 b :: d64 c :: r)
    (finish (pton_loop ts (d64 a :: d64 b :: d64 c :: r) (mk_pton 0 (zlen pre) (Some (pre ++ x :: y :: z :: post))))).
Proof.
  intros Hl. rewrite pton_three, pton_loop_no_digit by done.
  destruct (v_lor a b c 0 Ha Hb Hc ltac:(lia)) as (_ & _ & _ & _ & _ & _ & _ & B0 & B1 & _).
  destruct r as [|w r']; [by apply not_enc_3|].
  destruct (Z.eqb_spec w Pad64) as [->|Hz]; [|apply (decodes_junk pre [d64 a; d64 b; d64 c]); [apply Hr|done]].
  pose proof (no_digit_pad_tail _ _ Hr eq_refl) as Ht. cbn [finish pton_finish p_state p_tarindex p_target Z.eqb Pos.eqb orb].
  rewrite (skip_spaces_id r' Ht). destruct r' as [|w r'']; [|by apply not_enc_3].
  rewrite byte_at_mid. destruct (Z.eqb_spec (left3 c) 0) as [E|E]; [|by apply not_enc_3].
  exists [v0 a b; v1 b c]. rewrite left_zero_3 by done.
  split_and!; [done|constructor; [done|constructor; [done|constructor]]| |].
  - by rewrite zlen_app.
  - by apply ztake_app.
Qed.
End tails.

(** Four digits in front. *)
Lemma decodes_group a b c d pre s res :
  digit a -> digit b -> digit c -> digit d ->
  decodes (pre ++ [v0 a b; v1 b c; v2 c d]) s res ->
  decodes pre (d64 a :: d64 b :: d64 c :: d64 d :: s) res.
Proof.
  intros Ha Hb Hc Hd. destruct (q_of_v a b c d Ha Hb Hc Hd) as (E0 & E1 & E2 & E3 & B0 & B1 & B2).
  unfold decodes. destruct res as [[n [t|]]|]; [|done|].
  - intros (v & -> & HB & -> & Ht). exists (v0 a b :: v1 b c :: v2 c d :: v). cbn [base64].
    rewrite E0, E1, E2, E3, Ht, zlen_app, !zlen_cons, <- (assoc_L (++)). split_and!; try done.
    + by repeat (apply Forall_cons; split; [done|]).
    + rewrite ?(@zlen_nil Z). lia.
  - intros Hn (v & HB & E). apply Hn.
    destruct (base64_shape v HB) as [->|(a' & b' & c' & d' & u & Ha' & Hb' & E' & [S|[S|S]])]; [done|..];
      rewrite E' in E; injection E as Ea Eb Ec Ed Es; apply d64_inj in Ea, Eb; try done; subst a' b'.
    + destruct S as (_ & _ & _ & _ & _ & -> & _). by apply (d64_pad c Hc) in Ec.
    + destruct S as (_ & _ & _ & _ & _ & _ & _ & _ & _ & _ & ->). by apply (d64_pad d Hd) in Ed.
    + destruct S as (x & y & z & m & k & -> & _). exists u. split; [|done].
      by do 3 (apply Forall_cons in HB as [_ HB]).
Qed.

Lemma b64_pton_digits ts ds r : no_digit r -> Forall (fun n => digit n) ds -> ts < 2 ^ 31 ->
  forall pre post, ts = zlen pre + zlen post -> zlen ds <= zlen post ->
  decodes pre ((d64 <$> ds) ++ r)
    (finish (pton_loop ts ((d64 <$> ds) ++ r) (mk_pton 0 (zlen pre) (Some (pre ++ post))))).
Proof.
  intros Hr Hds Hts. remember (List.length ds) as n eqn:Hn. revert ds Hn Hds.
  induction n as [n IH] using lt_wf_ind. intros ds -> Hds pre post Ht Hl.
  pose proof (zlen_nonneg pre).
  destruct ds as [|a [|b [|c [|d ds]]]];
    repeat match goal with H : Forall (fun n => digit n) (_ :: _) |- _ => apply Forall_cons in H as [? H] end;
    rewrite ?zlen_cons, ?(@zlen_nil Z) in Hl; rewrite ?fmap_cons; cbn [app].
  - by apply tail_0.
  - destruct post as [|x post]; [rewrite (@zlen_nil Z) in Hl; lia|]. rewrite zlen_cons in *. pose proof (zlen_nonneg post).
    apply tail_1; done || lia.
  - destruct post as [|x [|y post]]; rewrite ?zlen_cons, ?(@zlen_nil Z) in *; [lia..|]. pose proof (zlen_nonneg post).
    apply (tail_2 _ a b a); done || lia.
  - destruct post as [|x [|y [|z post]]]; rewrite ?zlen_cons, ?(@zlen_nil Z) in *; [lia..|]. pose proof (zlen_nonneg post).
    apply (tail_3 _ a b c); done || lia.
  - pose proof (zlen_nonneg ds).
    destruct post as [|x [|y [|z post]]]; rewrite ?zlen_cons, ?(@zlen_nil Z) in *; [lia..|]. pose proof (zlen_nonneg post).
    rewrite pton_four by (done || lia). apply decodes_group; try done.
    apply (IH (List.length ds)); try done; [simpl; lia| |lia].
    rewrite zlen_app. change (zlen [v0 a b; v1 b c; v2 c d]) with 3. lia.
Qed.

(** Every string without white space starts with digits. *)
Lemma split_digits s :
  nonspace s = s -> exists ds r, s = (d64 <$> ds) ++ r /\ Forall (fun n => digit n) ds /\ no_digit r.
Proof.
  induction s as [|c s IH]; intros Hs.
  { by exists [], []. }
  destruct (base64_pos c) as [n|] eqn:E.
  - apply base64_pos_some in E as (Hn & ->). rewrite nonspace_cons in Hs.
    destruct (d64_facts n Hn) as (_ & Hsp & _). rewrite Hsp in Hs. injection Hs as Hs.
    destruct (IH Hs) as (ds & r & -> & Hds & Hr). exists (n :: ds), r. split_and!; try done.
    by apply Forall_cons.
  - exists [], (c :: s). by split_and!.
Qed.

Lemma nonspace_zlen s : zlen (nonspace s) <= zlen s.
Proof. unfold zlen, nonspace. pose proof (filter_length_le (fun c => negb (isspace c)) s). lia. Qed.

Lemma b64_pton_decodes s t :
  zlen s <= zlen t < 2 ^ 31 -> decodes [] (nonspace s) (b64_pton s (Some t) (zlen t)).
Proof.
  intros Hl. rewrite <- b64_pton_nonspace.
  destruct (split_digits (nonspace s) (nonspace_idemp s)) as (ds & r & E & Hds & Hr).
  pose proof (nonspace_zlen s) as Hz. rewrite E, zlen_app, zlen_fmap in Hz. pose proof (zlen_nonneg r).
  rewrite E. apply (b64_pton_digits (zlen t) ds r Hr Hds ltac:(lia) [] t); rewrite ?(@zlen_nil Z); lia.
Qed.

(** ** Lemmas: the round trip *)

(** The bytes of a group are determined by its digits. *)
Lemma q_inj x y z x' y' z' :
  is_byte x -> is_byte y -> is_byte z -> is_byte x' -> is_byte y' -> is_byte z' ->
  q0 x = q0 x' -> q1 x y = q1 x' y' -> q2 y z = q2 y' z' -> q3 z = q3 z' -> x = x' /\ y = y' /\ z = z'.
Proof. unfold in_range, q0, q1, q2, q3. intros. Z.div_mod_to_equations. lia. Qed.

Lemma base64_inj v : forall w, Bytes v -> Bytes w -> base64 v = base64 w -> v = w.
Proof.
  assert (H0 : is_byte 0) by (by vm_compute).
  induction v as [|x|x y|x y z v IH] using group3_ind; intros w HB HW E.
  - destruct (base64_shape w HW) as [->|(? & ? & ? & ? & ? & _ & _ & E' & _)]; [done|]. by rewrite E' in E.
  - apply Forall_cons in HB as [Hx _]. destruct (digits_range x 0 0 Hx H0 H0) as (D0 & D1 & _).
    destruct (base64_shape w HW) as [->|(a & b & c & d & u & Ha & Hb & E' & [S|[S|S]])]; [done|..];
      rewrite E' in E; cbn [base64] in E; injection E as Ea Eb Ec Ed Es; apply d64_inj in Ea, Eb; try done.
    + destruct S as (x' & -> & _ & -> & -> & _). apply Forall_cons in HW as [Hx' _].
      destruct (q_inj x 0 0 x' 0 0) as (-> & _); done.
    + destruct S as (? & ? & m & _ & _ & Hm & _ & _ & _ & -> & _). by apply d64_pad in Hm as [_ ?].
    + destruct S as (? & ? & ? & m & k & _ & Hm & _ & _ & _ & _ & _ & -> & _). by apply d64_pad in Hm as [_ ?].
  - apply Forall_cons in HB as [Hx HB]. apply Forall_cons in HB as [Hy _].
    destruct (digits_range x y 0 Hx Hy H0) as (D0 & D1 & D2 & _).
    destruct (base64_shape w HW) as [->|(a & b & c & d & u & Ha & Hb & E' & [S|[S|S]])]; [done|..];
      rewrite E' in E; cbn [base64] in E; injection E as Ea Eb Ec Ed Es; apply d64_inj in Ea, Eb; try done.
    + destruct S as (_ & _ & _ & _ & _ & -> & _). by apply d64_pad in D2 as [? _].
    + destruct S as (x' & y' & m & -> & _ & Hm & -> & -> & -> & -> & _). apply d64_inj in Ec; try done.
      apply Forall_cons in HW as [Hx' HW]. apply Forall_cons in HW as [Hy' _].
      destruct (q_inj x y 0 x' y' 0) as (-> & -> & _); done.
    + destruct S as (? & ? & ? & ? & k & _ & _ & Hk & _ & _ & _ & _ & _ & ->). by apply d64_pad in Hk as [_ ?].
  - apply Forall_cons in HB as [Hx HB]. apply Forall_cons in HB as [Hy HB]. apply Forall_cons in HB as [Hz HB].
    destruct (digits_range x y z Hx Hy Hz) as (D0 & D1 & D2 & D3).
    destruct (base64_shape w HW) as [->|(a & b & c & d & u & Ha & Hb & E' & [S|[S|S]])]; [done|..];
      rewrite E' in E; cbn [base64] in E; injection E as Ea Eb Ec Ed Es; apply d64_inj in Ea, Eb; try done.
    + destruct S as (_ & _ & _ & _ & _ & -> & _). by apply d64_pad in D2 as [? _].
    + destruct S as (? & ? & ? & _ & _ & _ & _ & _ & _ & _ & ->). by apply d64_pad in D3 as [? _].
    + destruct S as (x' & y' & z' & m & k & -> & Hm & Hk & -> & -> & -> & -> & -> & ->).
      apply d64_inj in Ec, Ed; try done.
      apply Forall_cons in HW as [Hx' HW]. apply Forall_cons in HW as [Hy' HW]. apply Forall_cons in HW as [Hz' HW].
      destruct (q_inj x y z x' y' z') as (-> & -> & ->); try done. by rewrite (IH u).
Qed.

Lemma base64_nonspace v : Bytes v -> nonspace (base64 v) = base64 v.
Proof.
  intros HB. pose proof (base64_chars v HB) as H. induction H as [|c s Hc _ IH]; [done|].
  rewrite nonspace_cons, IH. destruct Hc as [->|Hc]; [done|].
  destruct (base64_pos c) as [n|] eqn:E; [|done]. apply base64_pos_some in E as (Hn & ->).
  by rewrite (proj1 (proj2 (d64_facts n Hn))).
Qed.

Lemma b64_pton_base64 v t :
  Bytes v -> zlen (base64 v) <= zlen t < 2 ^ 31 ->
  exists t', b64_pton (base64 v) (Some t) (zlen t) = Some (zlen v, Some t') /\ ztake (zlen v) t' = v.
Proof.
  intros HB Hl. pose proof (b64_pton_decodes (base64 v) t Hl) as H. unfold decodes in H.
  rewrite base64_nonspace in H by done.
  destruct (b64_pton (base64 v) (Some t) (zlen t)) as [[n [t'|]]|]; [|done|].
  - destruct H as (w & E & HW & -> & Ht). apply base64_inj in E as <-; try done. by exists t'.
  - destruct H. by exists v.
Qed.

(** ** Properties *)

(** C32. [b64_pton] accepts exactly the base64 encodings of RFC 4648 with white
    space anywhere in them: complete groups, the right padding and zeros in
    the unused bits, and it stores and counts the bytes encoded.  Any other
    string is refused. *)
Theorem b64_pton_exact s t :
  zlen s <= zlen t < 2 ^ 31 ->
  match b64_pton s (Some t) (zlen t) with
  | Some (n, Some t') => exists v, nonspace s = base64 v /\ Bytes v /\ n = zlen v /\ ztake n t' = v
  | Some (_, None) => False
  | None => ~ exists v, Bytes v /\ nonspace s = base64 v
  end.
Proof.
  intros Hl. pose proof (b64_pton_decodes s t Hl) as H. unfold decodes in H.
  destruct (b64_pton s (Some t) (zlen t)) as [[n [t'|]]|]; [|done..].
  destruct H as (v & ? & ? & -> & ?). by exists v.
Qed.

Lemma b64_pton_exact_witness :
  (exists v, nonspace (cstr "YW Jj ZA==") = base64 v /\ Bytes v /\ zlen v = 4 /\ v = cstr "abcd") /\
  ~ exists v, Bytes v /\ nonspace (cstr "YWJjZB==") = base64 v.
Proof.
  split.
  - pose proof (b64_pton_exact (cstr "YW Jj ZA==") (zrep 10 0)) as H.
    specialize (H ltac:(vm_compute; split; congruence)).
    replace (b64_pton (cstr "YW Jj ZA==") (Some (zrep 10 0)) (zlen (zrep 10 0)))
      with (Some (4, Some (cstr "abcd" ++ zrep 6 0))) in H by (vm_compute; reflexivity).
    destruct H as (v & Hv & HB & Hz & Ht). exists v. split; [exact Hv|]. split; [exact HB|].
    split; [symmetry; exact Hz|]. rewrite <- Ht. reflexivity.
  - pose proof (b64_pton_exact (cstr "YWJjZB==") (zrep 10 0)) as H.
    specialize (H ltac:(vm_compute; split; congruence)).
    replace (b64_pton (cstr "YWJjZB==") (Some (zrep 10 0)) (zlen (zrep 10 0)))
      with (@None (Z * option bytes)) in H by (vm_compute; reflexivity).
    exact H.
Defined.

(** C33. Printing a buffer in base64 and reading the text back gives the
    contents: [sshbuf_dtob64] succeeds on every well-formed buffer, and
    [sshbuf_b64tod] of its text appends exactly the bytes to any buffer with
    room for them. *)
Theorem sshbuf_base64_roundtrip A b dst :
  alloc_ok A -> wf b -> wf dst -> writable dst = true ->
  zlen (contents dst) + zlen (contents b) <= b_max_size dst ->
  exists s dst', sshbuf_dtob64 A b = Some s /\ sshbuf_b64tod A s dst = (Ok tt, dst') /\
    wf dst' /\ contents dst' = contents dst ++ contents b.
Proof.
  intros HA Hb Hd W Hm. pose proof (contents_Bytes b Hb) as HB. pose proof (contents_zlen b Hb).
  wf_unpack Hb. set (v := contents b) in *. pose proof (zlen_nonneg v).
  assert (Hsz : zlen (base64 v) = (zlen v + 2) / 3 * 4) by apply base64_zlen.
  assert (Hb1 : zlen v <= zlen (base64 v) <= 2 * zlen v + 4) by (rewrite Hsz; Z.div_mod_to_equations; lia).
  assert (exists s, sshbuf_dtob64 A b = Some s /\ s = base64 v) as (s & Es & ->).
  { unfold sshbuf_dtob64. rewrite sshbuf_len_contents, ptr_of_take by done. fold v.
    destruct (Z.eqb_spec (zlen v) 0) as [E|E].
    { apply zlen_0_nil in E as ->. by eexists. }
    destruct (Z.leb_spec (0xffffffffffffffff / 2) (zlen v)) as [L|_].
    { change (0xffffffffffffffff / 2) with 9223372036854775807 in L. lia. }
    rewrite (wrap_small 64 (zlen v + 2)), (wrap_small 64 (_ / 3 * 4)), <- Hsz, wrap_small by lia.
    pose proof (HA (zlen (base64 v) + 1)). destruct (A (zlen (base64 v) + 1)); [|done].
    rewrite b64_ntop_spec by done. destruct (Z.ltb_spec (zlen (base64 v)) (zlen (base64 v) + 1)); [|lia].
    by eexists. }
  rewrite Es. exists (base64 v). unfold sshbuf_b64tod.
  destruct (Z.eqb_spec (zlen (base64 v)) 0) as [E|E].
  { assert (v = []) as -> by (apply zlen_0_nil; lia). exists dst. rewrite app_nil_r. by split_and!. }
  pose proof (HA (zlen (base64 v))). destruct (A (zlen (base64 v))) as [[q junk]|]; [|done].
  set (t := (fun i => u8 (junk i)) <$> seqZ 0 (zlen (base64 v))).
  assert (Ht : zlen t = zlen (base64 v)) by (unfold t; rewrite zlen_fmap, zlen_seqZ; lia).
  rewrite <- Ht. destruct (b64_pton_base64 v t HB ltac:(lia)) as (t' & -> & Et). cbn [default].
  assert (Hl' : zlen v <= zlen t').
  { rewrite <- Et at 1. apply zlen_ztake_le. }
  rewrite (sshbuf_put_ztake A t' (zlen v)) by (split; [apply zlen_nonneg|exact Hl']). rewrite Et.
  destruct (appends_ok A (sshbuf_put A v (zlen v)) v dst) as (dst' & E' & Hd' & _ & C); try done.
  - by apply sshbuf_put_appends.
  - exists dst'. by split_and!.
Qed.

Lemma sshbuf_base64_roundtrip_witness :
  let b := snd (sshbuf_put_u32 test_alloc 0x12345678 (small_buf 300)) in
  exists s dst', sshbuf_dtob64 test_alloc b = Some s /\
    sshbuf_b64tod test_alloc s (small_buf 300) = (Ok tt, dst') /\
    wf dst' /\ contents dst' = [0x12; 0x34; 0x56; 0x78].
Proof.
  assert (Hb : wf (snd (sshbuf_put_u32 test_alloc 0x12345678 (small_buf 300)))).
  { pose proof (sshbuf_put_u32_atomic test_alloc 0x12345678
      ltac:(vm_compute; split; congruence) _ (small_buf_wf 300 ltac:(lia))) as H.
    destruct (sshbuf_put_u32 test_alloc 0x12345678 (small_buf 300)). exact (proj1 H). }
  destruct (sshbuf_base64_roundtrip test_alloc _ (small_buf 300)
    test_alloc_ok Hb) as (s & dst' & Es & Ed & Hw & C).
  - apply small_buf_wf. lia.
  - vm_compute. reflexivity.
  - vm_compute. congruence.
  - exists s, dst'. split; [exact Es|]. split; [exact Ed|]. split; [exact Hw|]. rewrite C. vm_compute. reflexivity.
Defined.
