(* ===== verification/Deattack.v ===== *)
(** The CRC-32 of crc32.c and the detector of CRC compensation attacks,
    deattack.c.

    [detect_attack] looks for repeated cipher blocks with a hash table that
    resolves collisions by linear probing and is kept between packets.  It is
    proved to end, because the table is never full, and to find exactly what
    comparing every block with all earlier ones would find. *)

From S2P Require Import Prelude Wire.

(** ** crc32.c *)

Definition crc32tab : list Z :=
  [0x00000000; 0x77073096; 0xee0e612c; 0x990951ba; 0x076dc419; 0x706af48f; 0xe963a535; 0x9e6495a3;
   0x0edb8832; 0x79dcb8a4; 0xe0d5e91e; 0x97d2d988; 0x09b64c2b; 0x7eb17cbd; 0xe7b82d07; 0x90bf1d91;
   0x1db71064; 0x6ab020f2; 0xf3b97148; 0x84be41de; 0x1adad47d; 0x6ddde4eb; 0xf4d4b551; 0x83d385c7;
   0x136c9856; 0x646ba8c0; 0xfd62f97a; 0x8a65c9ec; 0x14015c4f; 0x63066cd9; 0xfa0f3d63; 0x8d080df5;
   0x3b6e20c8; 0x4c69105e; 0xd56041e4; 0xa2677172; 0x3c03e4d1; 0x4b04d447; 0xd20d85fd; 0xa50ab56b;
   0x35b5a8fa; 0x42b2986c; 0xdbbbc9d6; 0xacbcf940; 0x32d86ce3; 0x45df5c75; 0xdcd60dcf; 0xabd13d59;
   0x26d930ac; 0x51de003a; 0xc8d75180; 0xbfd06116; 0x21b4f4b5; 0x56b3c423; 0xcfba9599; 0xb8bda50f;
   0x2802b89e; 0x5f058808; 0xc60cd9b2; 0xb10be924; 0x2f6f7c87; 0x58684c11; 0xc1611dab; 0xb6662d3d;
   0x76dc4190; 0x01db7106; 0x98d220bc; 0xefd5102a; 0x71b18589; 0x06b6b51f; 0x9fbfe4a5; 0xe8b8d433;
   0x7807c9a2; 0x0f00f934; 0x9609a88e; 0xe10e9818; 0x7f6a0dbb; 0x086d3d2d; 0x91646c97; 0xe6635c01;
   0x6b6b51f4; 0x1c6c6162; 0x856530d8; 0xf262004e; 0x6c0695ed; 0x1b01a57b; 0x8208f4c1; 0xf50fc457;
   0x65b0d9c6; 0x12b7e950; 0x8bbeb8ea; 0xfcb9887c; 0x62dd1ddf; 0x15da2d49; 0x8cd37cf3; 0xfbd44c65;
   0x4db26158; 0x3ab551ce; 0xa3bc0074; 0xd4bb30e2; 0x4adfa541; 0x3dd895d7; 0xa4d1c46d; 0xd3d6f4fb;
   0x4369e96a; 0x346ed9fc; 0xad678846; 0xda60b8d0; 0x44042d73; 0x33031de5; 0xaa0a4c5f; 0xdd0d7cc9;
   0x5005713c; 0x270241aa; 0xbe0b1010; 0xc90c2086; 0x5768b525; 0x206f85b3; 0xb966d409; 0xce61e49f;
   0x5edef90e; 0x29d9c998; 0xb0d09822; 0xc7d7a8b4; 0x59b33d17; 0x2eb40d81; 0xb7bd5c3b; 0xc0ba6cad;
   0xedb88320; 0x9abfb3b6; 0x03b6e20c; 0x74b1d29a; 0xead54739; 0x9dd277af; 0x04db2615; 0x73dc1683;
   0xe3630b12; 0x94643b84; 0x0d6d6a3e; 0x7a6a5aa8; 0xe40ecf0b; 0x9309ff9d; 0x0a00ae27; 0x7d079eb1;
   0xf00f9344; 0x8708a3d2; 0x1e01f268; 0x6906c2fe; 0xf762575d; 0x806567cb; 0x196c3671; 0x6e6b06e7;
   0xfed41b76; 0x89d32be0; 0x10da7a5a; 0x67dd4acc; 0xf9b9df6f; 0x8ebeeff9; 0x17b7be43; 0x60b08ed5;
   0xd6d6a3e8; 0xa1d1937e; 0x38d8c2c4; 0x4fdff252; 0xd1bb67f1; 0xa6bc5767; 0x3fb506dd; 0x48b2364b;
   0xd80d2bda; 0xaf0a1b4c; 0x36034af6; 0x41047a60; 0xdf60efc3; 0xa867df55; 0x316e8eef; 0x4669be79;
   0xcb61b38c; 0xbc66831a; 0x256fd2a0; 0x5268e236; 0xcc0c7795; 0xbb0b4703; 0x220216b9; 0x5505262f;
   0xc5ba3bbe; 0xb2bd0b28; 0x2bb45a92; 0x5cb36a04; 0xc2d7ffa7; 0xb5d0cf31; 0x2cd99e8b; 0x5bdeae1d;
   0x9b64c2b0; 0xec63f226; 0x756aa39c; 0x026d930a; 0x9c0906a9; 0xeb0e363f; 0x72076785; 0x05005713;
   0x95bf4a82; 0xe2b87a14; 0x7bb12bae; 0x0cb61b38; 0x92d28e9b; 0xe5d5be0d; 0x7cdcefb7; 0x0bdbdf21;
   0x86d3d2d4; 0xf1d4e242; 0x68ddb3f8; 0x1fda836e; 0x81be16cd; 0xf6b9265b; 0x6fb077e1; 0x18b74777;
   0x88085ae6; 0xff0f6a70; 0x66063bca; 0x11010b5c; 0x8f659eff; 0xf862ae69; 0x616bffd3; 0x166ccf45;
   0xa00ae278; 0xd70dd2ee; 0x4e048354; 0x3903b3c2; 0xa7672661; 0xd06016f7; 0x4969474d; 0x3e6e77db;
   0xaed16a4a; 0xd9d65adc; 0x40df0b66; 0x37d83bf0; 0xa9bcae53; 0xdebb9ec5; 0x47b2cf7f; 0x30b5ffe9;
   0xbdbdf21c; 0xcabac28a; 0x53b39330; 0x24b4a3a6; 0xbad03605; 0xcdd70693; 0x54de5729; 0x23d967bf;
   0xb3667a2e; 0xc4614ab8; 0x5d681b02; 0x2a6f2b94; 0xb40bbe37; 0xc30c8ea1; 0x5a05df1b; 0x2d02ef8d].

Fixpoint crc_loop (buf : bytes) (crc : Z) : Z :=
  match buf with
  | [] => crc
  | b :: buf => crc_loop buf (Z.lxor (nth (Z.to_nat (Z.land (Z.lxor crc b) 0xff)) crc32tab 0) (Z.shiftr crc 8))
  end.
Definition ssh_crc32 (buf : bytes) : Z := crc_loop buf 0.

(** ** deattack.c *)

Definition MAX_IDENTICAL : Z := 32.
Definition SSH_MAXBLOCKS : Z := 32 * 1024.
Definition SSH_BLOCKSIZE : Z := 8.
Definition HASH_MINSIZE : Z := 8 * 1024.
Definition HASH_ENTRYSIZE : Z := 2.
Definition HASH_FACTOR (x : Z) : Z := x * 3 / 2.
Definition HASH_UNUSED : Z := 0xffff.
Definition HASH_MINBLOCKS : Z := 7 * SSH_BLOCKSIZE.
Definition HASH (x : bytes) : Z := PEEK_U32 x.

Definition DEATTACK_OK : Z := 0.
Definition DEATTACK_DETECTED : Z := 1.
Definition DEATTACK_DOS_DETECTED : Z := 2.
Definition DEATTACK_ERROR : Z := 3.

(** [h] is NULL or the table; its entries are 16 bits wide. *)
Record deattack_ctx : Type := mk_deattack { da_h : option (list Z); da_n : Z }.

(** The word [b] is hashed in the byte order of the machine, little-endian. *)
Definition crc_update (a b : Z) : Z := ssh_crc32 (le_bytes 4 (Z.lxor b a)).

(** The block at [buf + SSH_BLOCKSIZE * j]. *)
Definition block_at (buf : bytes) (j : Z) : bytes := ztake SSH_BLOCKSIZE (zdrop (SSH_BLOCKSIZE * j) buf).
(** [!CMP(a, b)]. *)
Definition same_block (a b : bytes) : bool := bool_decide (a = b).

(** The blocks from number [j] on; [todo] is how many are left. *)
Fixpoint check_loop (todo : nat) (S buf : bytes) (j crc : Z) : Z :=
  match todo with
  | O => crc
  | Datatypes.S todo =>
      let crc := if same_block S (block_at buf j) then crc_update (crc_update crc 1) 0
                 else crc_update (crc_update crc 0) 0 in
      check_loop todo S buf (j + 1) crc
  end.
Definition check_crc (S buf : bytes) (len : Z) : bool :=
  check_loop (Z.to_nat ((len + SSH_BLOCKSIZE - 1) / SSH_BLOCKSIZE)) S buf 0 0 =? 0.

Definition deattack_init : deattack_ctx := mk_deattack None (HASH_MINSIZE / HASH_ENTRYSIZE).

(** [for (l = n; l < want; l = l << 2)]; [None] is that the fuel is used up. *)
Fixpoint grow (fuel : nat) (l want : Z) : option Z :=
  match fuel with
  | O => None
  | S fuel => if l <? want then grow fuel (u32 (Z.shiftl l 2)) want else Some l
  end.

(** The comparison of the block [c] of a short packet with the blocks before
    it: whether an attack is detected. *)
Fixpoint short_inner (todo : nat) (buf : bytes) (len c d : Z) : bool :=
  match todo with
  | O => false
  | S todo =>
      if same_block (block_at buf c) (block_at buf d) then check_crc (block_at buf c) buf len
      else short_inner todo buf len c (d + 1)
  end.
Fixpoint short_loop (todo : nat) (buf : bytes) (len c : Z) : Z :=
  match todo with
  | O => DEATTACK_OK
  | S todo =>
      if short_inner (Z.to_nat c) buf len c 0 then DEATTACK_DETECTED else short_loop todo buf len (c + 1)
  end.

(** The inner loop from slot [i]: where it stops and whether at the same block;
    [None] is that it does not stop. *)
Fixpoint probe (fuel : nat) (h : list Z) (n : Z) (buf c : bytes) (i : Z) : option (Z * bool) :=
  match fuel with
  | O => None
  | S fuel =>
      let e := nth (Z.to_nat i) h 0 in
      if e =? HASH_UNUSED then Some (i, false)
      else if same_block c (block_at buf e) then Some (i, true)
      else probe fuel h n buf c (Z.land (u32 (i + 1)) (n - 1))
  end.

(** The outer loop from block [j]. *)
Fixpoint hash_loop (todo : nat) (h : list Z) (n : Z) (buf : bytes) (len j same : Z) : option (Z * list Z) :=
  match todo with
  | O => Some (DEATTACK_OK, h)
  | S todo =>
      let c := block_at buf j in
      match probe (Z.to_nat n) h n buf c (Z.land (HASH c) (n - 1)) with
      | None => None
      | Some (i, found) =>
          let next same := hash_loop todo (<[Z.to_nat i := wrap 16 j]> h) n buf len (j + 1) same in
          if found then
            let same := u32 (same + 1) in
            if MAX_IDENTICAL <? same then Some (DEATTACK_DOS_DETECTED, h)
            else if check_crc c buf len then Some (DEATTACK_DETECTED, h)
            else next same
          else next same
      end
  end.

(** [mem] is what the allocator answers: failure or the unspecified contents of
    the new memory.  [None] is that the function does not return. *)
Definition detect_attack (mem : option (Z -> Z)) (buf : bytes) (len : Z) (dctx : deattack_ctx)
    : option (Z * deattack_ctx) :=
  if (SSH_MAXBLOCKS * SSH_BLOCKSIZE <? len) || negb (len mod SSH_BLOCKSIZE =? 0)
  then Some (DEATTACK_ERROR, dctx)
  else
    match grow 32 (da_n dctx) (HASH_FACTOR (len / SSH_BLOCKSIZE)) with
    | None => None
    | Some l =>
        let table :=
          match da_h dctx with
          | None => match mem with Some _ => Some (zrep l 0, l) | None => None end
          | Some h =>
              if da_n dctx <? l then
                match mem with
                | Some junk => Some (h ++ (junk <$> seqZ (zlen h) (l - zlen h)), l)
                | None => None
                end
              else Some (h, da_n dctx)
          end in
        match table with
        | None => Some (DEATTACK_ERROR, mk_deattack None (da_n dctx))
        | Some (h, n) =>
            let blocks := Z.to_nat (len / SSH_BLOCKSIZE) in
            if len <=? HASH_MINBLOCKS then
              Some (short_loop blocks buf len 0, mk_deattack (Some h) n)
            else
              match hash_loop blocks (zrep n HASH_UNUSED) n buf len 0 0 with
              | None => None
              | Some (r, h) => Some (r, mk_deattack (Some h) n)
              end
        end
    end.

(** ** Specification *)

(** The CRC-32 of the reflected polynomial 0xedb88320, bit by bit. *)
Definition crc_bit (c : Z) : Z :=
  if Z.odd c then Z.lxor 0xedb88320 (Z.shiftr c 1) else Z.shiftr c 1.
Definition crc_byte (crc b : Z) : Z := Nat.iter 8 crc_bit (Z.lxor crc b).
Definition crc32_bits (buf : bytes) : Z := fold_left crc_byte buf 0.

(** Whether block [j] repeats an earlier block. *)
Definition repeated (buf : bytes) (j : Z) : bool :=
  existsb (fun i => same_block (block_at buf j) (block_at buf i)) (seqZ 0 j).

(** Every block compared with all earlier ones; [limit] is the number of
    repetitions that are accepted. *)
Fixpoint scan (limit : option Z) (todo : nat) (buf : bytes) (len j same : Z) : Z :=
  match todo with
  | O => DEATTACK_OK
  | S todo =>
      if repeated buf j then
        if match limit with Some m => m <? same + 1 | None => false end then DEATTACK_DOS_DETECTED
        else if check_crc (block_at buf j) buf len then DEATTACK_DETECTED
        else scan limit todo buf len (j + 1) (same + 1)
      else scan limit todo buf len (j + 1) same
  end.

(** What [detect_attack] is to answer when memory does not run out. *)
Definition attack_verdict (buf : bytes) (len : Z) : Z :=
  if (SSH_MAXBLOCKS * SSH_BLOCKSIZE <? len) || negb (len mod SSH_BLOCKSIZE =? 0) then DEATTACK_ERROR
  else scan (if len <=? HASH_MINBLOCKS then None else Some MAX_IDENTICAL)
         (Z.to_nat (len / SSH_BLOCKSIZE)) buf len 0 0.

(** A context between calls. *)
Definition ctx_ok (c : deattack_ctx) : Prop :=
  (da_n c = 4096 \/ da_n c = 16384 \/ da_n c = 65536) /\
  match da_h c with Some h => zlen h = da_n c | None => True end.

(** ** Lemmas: the CRC *)

Lemma crc32tab_checked :
  bool_decide (crc32tab = (fun i => Nat.iter 8 crc_bit i) <$> seqZ 0 256) = true.
Proof. vm_compute. reflexivity. Qed.

Lemma crc32tab_nth i : 0 <= i < 256 -> nth (Z.to_nat i) crc32tab 0 = Nat.iter 8 crc_bit i.
Proof.
  intros Hi. rewrite (bool_decide_eq_true_1 _ crc32tab_checked).
  rewrite nth_lookup, list_lookup_fmap, lookup_seqZ_lt, Z2Nat.id, Z.add_0_l by lia. done.
Qed.

Lemma crc_bit_lxor a b : 0 <= a -> 0 <= b -> crc_bit (Z.lxor a b) = Z.lxor (crc_bit a) (crc_bit b).
Proof.
  intros Ha Hb. unfold crc_bit. rewrite <- !Z.bit0_odd, Z.lxor_spec, Z.shiftr_lxor.
  destruct (Z.testbit a 0), (Z.testbit b 0); simpl xorb; cbv iota; apply Z.bits_inj'; intros i _;
    rewrite !Z.lxor_spec; by repeat match goal with |- context [Z.testbit ?x i] => destruct (Z.testbit x i) end.
Qed.

Lemma iter_crc_bit_lxor k a b :
  0 <= a -> 0 <= b ->
  Nat.iter k crc_bit (Z.lxor a b) = Z.lxor (Nat.iter k crc_bit a) (Nat.iter k crc_bit b) /\
  0 <= Nat.iter k crc_bit a /\ 0 <= Nat.iter k crc_bit b.
Proof.
  assert (Hn : forall x, 0 <= x -> 0 <= crc_bit x).
  { intros x Hx. unfold crc_bit. assert (0 <= Z.shiftr x 1) by (by apply Z.shiftr_nonneg).
    destruct (Z.odd x); [apply Z.lxor_nonneg; split; lia|done]. }
  intros Ha Hb. induction k as [|k (IH & Ha' & Hb')]; [done|].
  rewrite !Nat.iter_succ, IH, crc_bit_lxor by done. split_and!; auto.
Qed.

(** Eight steps on a multiple of 256 only shift. *)
Lemma iter_crc_bit_shift k x : 0 <= x -> Nat.iter k crc_bit (Z.shiftl x (Z.of_nat k)) = x.
Proof.
  intros Hx. revert x Hx. induction k as [|k IH]; intros x Hx; [apply Z.shiftl_0_r|].
  rewrite Nat.iter_succ_r. replace (crc_bit (Z.shiftl x (Z.of_nat (S k)))) with (Z.shiftl x (Z.of_nat k)).
  - by apply IH.
  - unfold crc_bit. replace (Z.of_nat (S k)) with (Z.of_nat k + 1) by lia.
    rewrite <- Z.shiftl_shiftl by lia. rewrite <- Z.bit0_odd, Z.shiftl_spec_low by lia.
    rewrite Z.shiftr_shiftl_l by lia. by rewrite Z.shiftl_0_r.
Qed.

Lemma split_low8 x : 0 <= x -> x = Z.lxor (Z.land x 0xff) (Z.shiftl (Z.shiftr x 8) 8).
Proof.
  intros Hx. apply Z.bits_inj'. intros i Hi. rewrite Z.lxor_spec, Z.land_spec.
  change 0xff with (Z.ones 8). destruct (decide (i < 8)).
  - rewrite Z.ones_spec_low, Z.shiftl_spec_low by lia. by rewrite andb_true_r, xorb_false_r.
  - rewrite Z.ones_spec_high, Z.shiftl_spec, Z.shiftr_spec by lia. rewrite andb_false_r.
    replace (i - 8 + 8) with i by lia. by destruct (Z.testbit x i).
Qed.

Lemma crc_step crc b :
  0 <= crc -> is_byte b ->
  Z.lxor (nth (Z.to_nat (Z.land (Z.lxor crc b) 0xff)) crc32tab 0) (Z.shiftr crc 8) = crc_byte crc b /\
  0 <= crc_byte crc b.
Proof.
  intros Hc Hb. unfold crc_byte. set (x := Z.lxor crc b).
  assert (Hx : 0 <= x) by (apply Z.lxor_nonneg; unfold in_range in Hb; lia).
  assert (Hl : 0 <= Z.land x 0xff < 256) by (change 0xff with (2 ^ 8 - 1); rewrite land_ones_mod by lia; apply Z.mod_pos_bound; lia).
  assert (Hs : Z.shiftr x 8 = Z.shiftr crc 8).
  { unfold x. rewrite Z.shiftr_lxor, !Z.shiftr_div_pow2 by lia. unfold in_range in Hb.
    rewrite (Z.div_small b) by lia. apply Z.lxor_0_r. }
  assert (0 <= Z.shiftr x 8) by (by apply Z.shiftr_nonneg).
  rewrite crc32tab_nth by done. rewrite <- Hs.
  destruct (iter_crc_bit_lxor 8 (Z.land x 0xff) (Z.shiftl (Z.shiftr x 8) 8)) as (E & H1 & H2);
    [lia|by apply Z.shiftl_nonneg|].
  change 8 with (Z.of_nat 8) in E at 4, H2. rewrite (iter_crc_bit_shift 8) in E, H2 by done.
  change (Z.of_nat 8) with 8 in *. rewrite <- (split_low8 x Hx) in E.
  rewrite E. split; [done|]. by apply Z.lxor_nonneg.
Qed.

Lemma crc_loop_spec buf : forall crc, 0 <= crc -> Bytes buf -> crc_loop buf crc = fold_left crc_byte buf crc.
Proof.
  induction buf as [|b buf IH]; intros crc Hc HB; [done|]. apply Forall_cons in HB as [Hb HB].
  cbn [crc_loop fold_left]. destruct (crc_step crc b Hc Hb) as (-> & ?). by apply IH.
Qed.

(** ** Lemmas: the blocks *)

Lemma repeated_spec buf j :
  repeated buf j = true <-> exists i, 0 <= i < j /\ block_at buf i = block_at buf j.
Proof.
  unfold repeated. rewrite existsb_exists. unfold same_block. split.
  - intros (i & Hi & E%bool_decide_eq_true). apply list_elem_of_In, elem_of_seqZ in Hi. exists i.
    split; [lia|done].
  - intros (i & Hi & E). exists i. split; [apply list_elem_of_In, elem_of_seqZ; lia|].
    by apply bool_decide_eq_true.
Qed.

(** The short packet: no count, the first repetition decides. *)
Lemma short_inner_spec todo buf len c d :
  short_inner todo buf len c d =
  existsb (fun i => same_block (block_at buf c) (block_at buf i)) (seqZ d (Z.of_nat todo)) &&
  check_crc (block_at buf c) buf len.
Proof.
  revert d. induction todo as [|todo IH]; intros d; [done|]. cbn [short_inner].
  rewrite (seqZ_cons d (Z.of_nat (S todo))) by lia. cbn [existsb].
  replace (Z.pred (Z.of_nat (S todo))) with (Z.of_nat todo) by lia.
  destruct (same_block (block_at buf c) (block_at buf d)); [done|]. rewrite IH. done.
Qed.

Lemma short_loop_spec todo buf len c same :
  0 <= c -> short_loop todo buf len c = scan None todo buf len c same.
Proof.
  revert c same. induction todo as [|todo IH]; intros c same Hc; [done|]. cbn [short_loop scan].
  rewrite short_inner_spec, Z2Nat.id by done. fold (repeated buf c).
  destruct (repeated buf c), (check_crc (block_at buf c) buf len); cbn [andb]; try done;
    apply IH; lia.
Qed.

(** ** Lemmas: the hash table *)

Definition slot (h : list Z) (i : Z) : Z := nth (Z.to_nat i) h 0.
Fixpoint used (h : list Z) : nat :=
  match h with
  | [] => O
  | e :: h => if e =? HASH_UNUSED then used h else S (used h)
  end.

(** The slots probed for [c] are [start c + d mod n]. *)
Definition start (n : Z) (c : bytes) : Z := HASH c mod n.

Lemma slot_update h i j v :
  0 <= i < zlen h -> 0 <= j -> slot (<[Z.to_nat i := v]> h) j = if j =? i then v else slot h j.
Proof.
  intros Hi Hj. unfold slot, zlen in *. rewrite !nth_lookup. destruct (Z.eqb_spec j i) as [->|].
  - by rewrite list_lookup_insert_eq by lia.
  - by rewrite list_lookup_insert_ne by lia.
Qed.

Lemma used_update h i v :
  0 <= i < zlen h -> (used (<[Z.to_nat i := v]> h) <= S (used h))%nat /\
  (slot h i <> HASH_UNUSED -> (used (<[Z.to_nat i := v]> h) <= used h)%nat).
Proof.
  intros Hi. unfold zlen in Hi. assert (Hl : (Z.to_nat i < List.length h)%nat) by lia.
  unfold slot. clear Hi. revert Hl. generalize (Z.to_nat i). clear i. intros i. revert i.
  induction h as [|e h IH]; intros [|i] Hl; simpl in Hl; try lia.
  - cbn. destruct (v =? HASH_UNUSED), (Z.eqb_spec e HASH_UNUSED); split; try lia; done.
  - destruct (IH i) as (H1 & H2); [lia|]. change (<[S i:=v]> (e :: h)) with (e :: <[i:=v]> h). cbn [used nth].
    destruct (e =? HASH_UNUSED); split; [lia|auto|lia|]. intros Hs%H2. lia.
Qed.

Lemma used_free h : Z.of_nat (used h) < zlen h -> exists i, 0 <= i < zlen h /\ slot h i = HASH_UNUSED.
Proof.
  unfold slot, zlen. induction h as [|e h IH]; cbn; [lia|]. intros H.
  destruct (Z.eqb_spec e HASH_UNUSED) as [->|Hne]; cbn in H.
  - exists 0. split; [lia|done].
  - destruct IH as (i & Hi & E); [lia|]. exists (i + 1). split; [lia|].
    by replace (Z.to_nat (i + 1)) with (S (Z.to_nat i)) by lia.
Qed.

Lemma land_pow2 x k : 0 <= k -> Z.land x (2 ^ k - 1) = x mod 2 ^ k.
Proof. apply land_ones_mod. Qed.

(** The table after the first [j] blocks. *)
Record table_ok (buf : bytes) (n : Z) (h : list Z) (j : Z) : Prop := {
  t_len : zlen h = n;
  t_entry : forall s, 0 <= s < n -> slot h s = HASH_UNUSED \/ 0 <= slot h s < j;
  t_chain : forall s, 0 <= s < n -> slot h s <> HASH_UNUSED ->
    forall d, 0 <= d < (s - start n (block_at buf (slot h s))) mod n ->
      slot h ((start n (block_at buf (slot h s)) + d) mod n) <> HASH_UNUSED;
  t_all : forall i, 0 <= i < j ->
    exists s, 0 <= s < n /\ slot h s <> HASH_UNUSED /\ block_at buf (slot h s) = block_at buf i;
  t_used : Z.of_nat (used h) <= j
}.

(** A slot at which the search for [c] ends. *)
Definition stops (h : list Z) (buf c : bytes) (s : Z) : Prop :=
  slot h s = HASH_UNUSED \/ c = block_at buf (slot h s).

Lemma stops_dec h buf c s : {stops h buf c s} + {~ stops h buf c s}.
Proof.
  unfold stops. destruct (decide (slot h s = HASH_UNUSED)); [left; by left|].
  destruct (decide (c = block_at buf (slot h s))); [left; by right|right; tauto].
Defined.

Lemma probe_spec fuel h k buf c : forall i d,
  let n := 2 ^ k in
  0 <= k < 32 -> 0 <= i < n -> 0 <= d < Z.of_nat fuel -> stops h buf c ((i + d) mod n) ->
  exists d0, 0 <= d0 <= d /\ (forall d', 0 <= d' < d0 -> ~ stops h buf c ((i + d') mod n)) /\
    stops h buf c ((i + d0) mod n) /\
    probe fuel h n buf c i =
      Some ((i + d0) mod n, negb (slot h ((i + d0) mod n) =? HASH_UNUSED)).
Proof.
  induction fuel as [|fuel IH]; intros i d n Hk Hi Hd Hs; [lia|]. cbn [probe]. fold (slot h i).
  assert (Hn : 0 < n) by (unfold n; lia).
  assert (Hland : forall x, Z.land x (n - 1) = x mod n) by (intros; apply land_pow2; lia).
  destruct (stops_dec h buf c i) as [Hst|Hst].
  - exists 0. rewrite Z.add_0_r, Z.mod_small by lia. split; [lia|]. split; [intros; lia|].
    split; [done|]. destruct (Z.eqb_spec (slot h i) HASH_UNUSED) as [E|E]; [done|].
    destruct Hst as [?|Hst]; [done|]. unfold same_block. by rewrite bool_decide_eq_true_2 by done.
  - destruct (decide (d = 0)) as [->|Hd0].
    { rewrite Z.add_0_r, Z.mod_small in Hs by lia. done. }
    assert (n <= 2 ^ 31) by (unfold n; apply Z.pow_le_mono_r; lia).
    rewrite (wrap_small 32 (i + 1)) by lia. rewrite Hland.
    assert (Hmod : forall x, ((i + 1) mod n + x) mod n = (i + (x + 1)) mod n).
    { intros x. rewrite Z.add_mod_idemp_l by lia. f_equal. lia. }
    destruct (IH ((i + 1) mod n) (d - 1)) as (d0 & Hd0' & Hbefore & Hat & Hp); try lia.
    { apply Z.mod_pos_bound. lia. }
    { fold n. rewrite Hmod. by replace (d - 1 + 1) with d by lia. }
    fold n in Hbefore, Hat, Hp. rewrite Hmod in Hat, Hp.
    exists (d0 + 1). split; [lia|]. split_and!; [|done|].
    + intros d' Hd'. destruct (decide (d' = 0)) as [->|]; [by rewrite Z.add_0_r, Z.mod_small by lia|].
      specialize (Hbefore (d' - 1) ltac:(lia)). rewrite Hmod in Hbefore.
      by replace (d' - 1 + 1) with d' in Hbefore by lia.
    + destruct (Z.eqb_spec (slot h i) HASH_UNUSED) as [E|E]; [by destruct Hst; left|].
      unfold same_block. rewrite bool_decide_eq_false_2; [done|]. intros ->. apply Hst. by right.
Qed.

Lemma mod_back n a s : 0 < n -> 0 <= s < n -> (a + (s - a) mod n) mod n = s.
Proof. intros Hn Hs. rewrite Z.add_mod_idemp_r by lia. replace (a + (s - a)) with s by lia. by apply Z.mod_small. Qed.

Lemma mod_forth n a d : 0 <= d < n -> ((a + d) mod n - a) mod n = d.
Proof. intros Hd. rewrite Zminus_mod_idemp_l. replace (a + d - a) with d by lia. by apply Z.mod_small. Qed.

(** Block [j] put where the search for it ends. *)
Lemma table_put buf n h j d0 :
  let c := block_at buf j in
  let s := (start n c + d0) mod n in
  0 < n -> 0 <= j < HASH_UNUSED -> table_ok buf n h j -> 0 <= d0 < n ->
  (forall d', 0 <= d' < d0 -> ~ stops h buf c ((start n c + d') mod n)) -> stops h buf c s ->
  table_ok buf n (<[Z.to_nat s := wrap 16 j]> h) (j + 1).
Proof.
  intros c s Hn Hj [Hl He Hc Ha Hu] Hd Hbefore Hs. unfold HASH_UNUSED in *.
  assert (Hsr : 0 <= s < n) by (apply Z.mod_pos_bound; lia).
  rewrite (wrap_small 16 j) by lia.
  assert (Hslot : forall x, 0 <= x -> slot (<[Z.to_nat s:=j]> h) x = if x =? s then j else slot h x).
  { intros x Hx. apply slot_update; lia. }
  assert (Hpos : forall x, 0 <= x mod n < n) by (intros; apply Z.mod_pos_bound; lia).
  assert (Hkeep : forall x, 0 <= x -> slot h x <> 0xffff -> slot (<[Z.to_nat s:=j]> h) x <> 0xffff).
  { intros x Hx Hne. rewrite Hslot by done. destruct (x =? s); [lia|done]. }
  destruct (used_update h s j ltac:(lia)) as [Hu' _].
  split.
  - unfold zlen in *. by rewrite length_insert.
  - intros x Hx. rewrite Hslot by lia. destruct (x =? s); [lia|]. destruct (He x Hx); [by left|lia].
  - intros x Hx Hne d Hd'. rewrite (Hslot x) in Hne, Hd' |- * by lia.
    specialize (Hpos (start n (block_at buf (if x =? s then j else slot h x)) + d)).
    apply Hkeep; [lia|]. revert Hne Hd'. destruct (Z.eqb_spec x s) as [->|Hxs]; intros Hne Hd'.
    + fold c in Hd' |- *. unfold s in Hd'. rewrite mod_forth in Hd' by done.
      intros E. apply (Hbefore d Hd'). by left.
    + by apply Hc.
  - intros i Hi. destruct (decide (i = j)) as [->|].
    + exists s. rewrite Hslot, Z.eqb_refl by lia. unfold HASH_UNUSED. split_and!; try lia; done.
    + destruct (Ha i) as (x & Hx & Hne & E); [lia|]. exists x. rewrite Hslot by lia.
      destruct (Z.eqb_spec x s) as [->|]; [|done].
      destruct Hs as [?|Hs]; [done|]. unfold HASH_UNUSED. split_and!; try lia. fold c. congruence.
  - lia.
Qed.

Lemma probe_table buf k h j :
  let n := 2 ^ k in
  let c := block_at buf j in
  0 <= k < 32 -> 0 <= j < n -> table_ok buf n h j ->
  exists d0, 0 <= d0 < n /\ (forall d', 0 <= d' < d0 -> ~ stops h buf c ((start n c + d') mod n)) /\
    stops h buf c ((start n c + d0) mod n) /\
    probe (Z.to_nat n) h n buf c (Z.land (HASH c) (n - 1)) = Some ((start n c + d0) mod n, repeated buf j).
Proof.
  intros n c Hk Hj Ht. pose proof Ht as [Hl He Hc Ha Hu]. assert (Hn : 0 < n) by (unfold n; lia).
  assert (Hland : Z.land (HASH c) (n - 1) = start n c) by (apply land_pow2; lia).
  rewrite Hland.
  assert (Hst : 0 <= start n c < n) by (apply Z.mod_pos_bound; lia).
  destruct (repeated buf j) eqn:Er.
  - apply repeated_spec in Er as (i & Hi & Ei). destruct (Ha i Hi) as (s & Hs & Hne & Es).
    fold c in Ei. assert (Ec : block_at buf (slot h s) = c) by congruence.
    specialize (Hc s Hs Hne). rewrite Ec in Hc. set (d := (s - start n c) mod n) in *.
    assert (Hd : 0 <= d < n) by (apply Z.mod_pos_bound; lia).
    assert (Eds : (start n c + d) mod n = s) by (by apply mod_back).
    destruct (probe_spec (Z.to_nat n) h k buf c (start n c) d) as (d0 & Hd0 & Hb & Hstop & Hp);
      fold n; try lia; [by right; rewrite Eds|].
    fold n in Hb, Hstop, Hp. exists d0. split_and!; try lia; try done. rewrite Hp.
    destruct (Z.eqb_spec (slot h ((start n c + d0) mod n)) HASH_UNUSED) as [E|]; [|done].
    destruct (decide (d0 = d)) as [->|]; [by rewrite Eds in E|]. by destruct (Hc d0); [lia|].
  - destruct (used_free h) as (s & Hs & Es); [lia|]. rewrite Hl in Hs.
    set (d := (s - start n c) mod n) in *. assert (Hd : 0 <= d < n) by (apply Z.mod_pos_bound; lia).
    assert (Eds : (start n c + d) mod n = s) by (by apply mod_back).
    destruct (probe_spec (Z.to_nat n) h k buf c (start n c) d) as (d0 & Hd0 & Hb & Hstop & Hp);
      fold n; try lia; [by left; rewrite Eds|].
    fold n in Hb, Hstop, Hp. exists d0. split_and!; try lia; try done. rewrite Hp.
    assert (Hx : 0 <= (start n c + d0) mod n < n) by (apply Z.mod_pos_bound; lia).
    destruct (Z.eqb_spec (slot h ((start n c + d0) mod n)) HASH_UNUSED) as [|Hne]; [done|].
    exfalso. destruct Hstop as [?|Hstop]; [done|]. destruct (He _ Hx) as [?|Hr]; [done|].
    assert (repeated buf j = true) by (apply repeated_spec; eexists; by split). congruence.
Qed.

Lemma table_empty buf n : 0 <= n -> table_ok buf n (zrep n HASH_UNUSED) 0.
Proof.
  intros Hn. assert (Hs : forall x, 0 <= x < n -> slot (zrep n HASH_UNUSED) x = HASH_UNUSED).
  { intros x Hx. unfold slot, zrep. rewrite nth_lookup, lookup_replicate_2 by lia. done. }
  split.
  - unfold zlen, zrep. rewrite length_replicate. lia.
  - intros s Hx. left. auto.
  - intros s Hx Hne. by rewrite Hs in Hne.
  - intros i ?. lia.
  - unfold zrep. induction (Z.to_nat n) as [|m IH]; [done|]. exact IH.
Qed.

Lemma hash_loop_spec todo buf len k : forall h j same,
  let n := 2 ^ k in
  0 <= k < 32 -> 0 <= j -> j + Z.of_nat todo <= n -> j + Z.of_nat todo <= HASH_UNUSED ->
  0 <= same <= MAX_IDENTICAL -> table_ok buf n h j ->
  exists h', hash_loop todo h n buf len j same = Some (scan (Some MAX_IDENTICAL) todo buf len j same, h') /\
    zlen h' = n.
Proof.
  induction todo as [|todo IH]; intros h j same n Hk Hj Hn Hun Hsame Ht.
  { exists h. split; [done|]. apply Ht. }
  assert (Hn0 : 0 < n) by (unfold n; lia).
  destruct (probe_table buf k h j) as (d0 & Hd0 & Hb & Hstop & Hp); [done|fold n; lia|done|].
  fold n in Hd0, Hb, Hstop, Hp. cbn [hash_loop scan]. rewrite Hp. cbv zeta.
  assert (Ht' : table_ok buf n (<[Z.to_nat ((start n (block_at buf j) + d0) mod n) := wrap 16 j]> h) (j + 1))
    by (apply table_put; auto; lia).
  unfold MAX_IDENTICAL in *. destruct (repeated buf j).
  - rewrite (wrap_small 32 (same + 1)) by lia. destruct (Z.ltb_spec 32 (same + 1)); [exists h; split; [done|apply Ht]|].
    destruct (check_crc (block_at buf j) buf len); [exists h; split; [done|apply Ht]|].
    apply IH; try lia; done.
  - apply IH; try lia; done.
Qed.

(** ** Lemmas: the size of the table *)

(** The three sizes a table can have are enough for every packet accepted. *)
Lemma grow_spec n want :
  n = 4096 \/ n = 16384 \/ n = 65536 -> want <= 49152 ->
  exists l, grow 32 n want = Some l /\ n <= l /\ want <= l /\ (l = 4096 \/ l = 16384 \/ l = 65536).
Proof.
  intros Hn Hw. cbn [grow]. destruct Hn as [->|[->| ->]].
  - destruct (Z.ltb_spec 4096 want); [|exists 4096; split; [done|lia]]. change (u32 (Z.shiftl 4096 2)) with 16384.
    destruct (Z.ltb_spec 16384 want); [|exists 16384; split; [done|lia]]. change (u32 (Z.shiftl 16384 2)) with 65536.
    destruct (Z.ltb_spec 65536 want); [lia|exists 65536; split; [done|lia]].
  - destruct (Z.ltb_spec 16384 want); [|exists 16384; split; [done|lia]]. change (u32 (Z.shiftl 16384 2)) with 65536.
    destruct (Z.ltb_spec 65536 want); [lia|exists 65536; split; [done|lia]].
  - destruct (Z.ltb_spec 65536 want); [lia|exists 65536; split; [done|lia]].
Qed.

(** The table that [detect_attack] works on. *)
Lemma table_spec ctx l mem :
  ctx_ok ctx -> da_n ctx <= l -> l = 4096 \/ l = 16384 \/ l = 65536 ->
  forall h n,
  match da_h ctx with
  | None => match mem with Some _ => Some (zrep l 0, l) | None => None end
  | Some h =>
      if da_n ctx <? l then
        match mem with
        | Some junk => Some (h ++ (junk <$> seqZ (zlen h) (l - zlen h)), l)
        | None => None
        end
      else Some (h, da_n ctx)
  end = Some (h, n) -> zlen h = n /\ n = l.
Proof.
  intros [_ Hh] Hl Hls h n. unfold zlen in *. destruct (da_h ctx) as [h0|].
  - destruct (Z.ltb_spec (da_n ctx) l); [destruct mem; [|done]|]; intros [= <- <-]; [|lia].
    rewrite length_app, length_fmap, length_seqZ. lia.
  - destruct mem; [|done]. intros [= <- <-]. unfold zrep. rewrite length_replicate. lia.
Qed.

Lemma detect_attack_spec mem buf len ctx :
  ctx_ok ctx -> 0 <= len ->
  exists r ctx', detect_attack mem buf len ctx = Some (r, ctx') /\ ctx_ok ctx' /\
    (r = attack_verdict buf len \/ mem = None /\ r = DEATTACK_ERROR).
Proof.
  intros Hc Hlen. unfold detect_attack, attack_verdict, SSH_MAXBLOCKS.
  destruct (_ || _) eqn:Eg; [eexists _, _; split_and!; [done|done|by left]|].
  apply orb_false_iff in Eg as [Eg1 Eg2].
  apply Z.ltb_ge in Eg1. assert (Hb : 0 <= len / 8 <= 32768).
  { unfold SSH_BLOCKSIZE in *. split; [apply Z.div_pos; lia|]. apply Z.div_le_upper_bound; lia. }
  assert (Hf : HASH_FACTOR (len / 8) <= 49152 /\ len / 8 <= HASH_FACTOR (len / 8)).
  { unfold HASH_FACTOR. split; [apply Z.div_le_upper_bound|apply Z.div_le_lower_bound]; lia. }
  unfold SSH_BLOCKSIZE in *.
  destruct (grow_spec (da_n ctx) (HASH_FACTOR (len / 8))) as (l & -> & Hl1 & Hl2 & Hls); [apply Hc|lia|].
  cbv zeta. pose proof (table_spec ctx l mem Hc Hl1 Hls) as Ht. revert Ht.
  destruct (match da_h ctx with Some _ => _ | None => _ end) as [[h n]|] eqn:Et; intros Ht.
  - destruct (Ht h n eq_refl) as [Hh ->]. destruct (Z.leb_spec len HASH_MINBLOCKS).
    + eexists _, _. split; [done|]. split; [by split|]. left. by apply short_loop_spec.
    + assert (Hk : exists k, 0 <= k < 32 /\ l = 2 ^ k)
        by (destruct Hls as [->|[->| ->]]; [exists 12|exists 14|exists 16]; split; lia || done).
      destruct Hk as (k & Hk & ->).
      destruct (hash_loop_spec (Z.to_nat (len / 8)) buf len k (zrep (2 ^ k) HASH_UNUSED) 0 0)
        as (h' & -> & Hh'); unfold HASH_UNUSED, MAX_IDENTICAL in *; try lia;
        [apply table_empty; lia|].
      eexists _, _. split; [done|]. split; [by split|]. by left.
  - eexists _, _. split; [done|]. split; [split; [apply Hc|done]|]. right.
    split; [|done]. destruct mem; [|done]. by destruct (da_h ctx), (da_n ctx <? l).
Qed.

(** ** Theorems *)

(** The packets of a connection, each with what the allocator answers. *)
Fixpoint detect_all (packets : list (option (Z -> Z) * bytes)) (ctx : deattack_ctx) : option (list Z) :=
  match packets with
  | [] => Some []
  | (mem, buf) :: packets =>
      match detect_attack mem buf (zlen buf) ctx with
      | None => None
      | Some (r, ctx) => match detect_all packets ctx with None => None | Some rs => Some (r :: rs) end
      end
  end.

Lemma detect_all_spec packets : forall ctx,
  ctx_ok ctx ->
  exists rs, detect_all packets ctx = Some rs /\
    Forall2 (fun p r => r = attack_verdict p.2 (zlen p.2) \/ p.1 = None /\ r = DEATTACK_ERROR) packets rs.
Proof.
  induction packets as [|[mem buf] packets IH]; intros ctx Hc; cbn; [by exists []|].
  destruct (detect_attack_spec mem buf (zlen buf) ctx Hc) as (r & ctx' & -> & Hc' & Hr); [unfold zlen; lia|].
  destruct (IH ctx' Hc') as (rs & -> & Hrs). exists (r :: rs). split; [done|]. by constructor.
Qed.

Lemma deattack_init_ok : ctx_ok deattack_init.
Proof. split; [by left|done]. Qed.

(** C34. From [deattack_init] on, [detect_attack] returns for every sequence of
    packets and whatever the allocator does: the search for a free slot ends
    because the table, which grows with the packet and survives between packets,
    always has more slots than the packet has blocks. *)
Theorem detect_attack_terminates packets : exists rs,
  detect_all packets deattack_init = Some rs /\ List.length rs = List.length packets.
Proof.
  destruct (detect_all_spec packets _ deattack_init_ok) as (rs & E & H).
  exists rs. split; [done|]. symmetry. eapply Forall2_length, H.
Qed.

(** C35. The hash table loses and invents nothing: in any usable context, when
    memory does not run out, [detect_attack] answers what comparing every block
    with all the earlier ones answers, with the same count of repetitions. *)
Theorem detect_attack_exact junk buf len ctx :
  ctx_ok ctx -> 0 <= len ->
  exists ctx', detect_attack (Some junk) buf len ctx = Some (attack_verdict buf len, ctx') /\ ctx_ok ctx'.
Proof.
  intros Hc Hl. destruct (detect_attack_spec (Some junk) buf len ctx Hc Hl) as (r & ctx' & E & Hc' & Hr).
  exists ctx'. destruct Hr as [->|[? _]]; done.
Qed.

Lemma detect_attack_exact_witness :
  let buf := concat (replicate 8 (le_bytes 8 7)) in
  let buf' := concat (replicate 33 (le_bytes 8 7)) ++ le_bytes 8 9 in
  attack_verdict buf 64 = DEATTACK_OK /\ attack_verdict buf' 272 = DEATTACK_OK /\
  (exists ctx', detect_attack (Some (fun _ => 5)) buf 64 deattack_init = Some (attack_verdict buf 64, ctx') /\
    ctx_ok ctx').
Proof.
  split; [vm_compute; reflexivity|]. split; [vm_compute; reflexivity|].
  apply (detect_attack_exact (fun _ => 5) (concat (replicate 8 (le_bytes 8 7))) 64 deattack_init).
  - split; [by left|done].
  - lia.
Defined.

(** [ssh_crc32], with its table, is the bit-by-bit CRC-32 of the reflected
    polynomial 0xedb88320, without the customary inversions. *)
Theorem ssh_crc32_bits buf : Bytes buf -> ssh_crc32 buf = crc32_bits buf.
Proof. intros HB. by apply crc_loop_spec. Qed.

Lemma ssh_crc32_bits_witness : ssh_crc32 [0x61; 0x62] = crc32_bits [0x61; 0x62] /\ ssh_crc32 [0x61; 0x62] <> 0.
Proof. split; [|vm_compute; discriminate]. apply ssh_crc32_bits. repeat constructor; lia. Defined.
