(* ===== verification/Cipher.v ===== *)
(** The ciphers of cipher.c at work: [cipher_init], [cipher_crypt],
    [cipher_get_length] and [cipher_cleanup].

    The ciphers themselves are OpenSSL's EVP interface, a typeclass of
    operations with the documented behaviour in a second class, and, for
    chacha20-poly1305@openssh.com, the model of cipher-chachapoly.c.  What the
    packet layer relies on is proved here once for every cipher of the table:
    a context that encrypts and one that decrypts, set up with the same key,
    stay in step ([cipher_pair]). *)

From S2P Require Import Prelude Wire Sshbuf SshbufGetput Algs Chacha ChachaPoly Digest.

Definition CIPHER_ENCRYPT : Z := 1.
Definition CIPHER_DECRYPT : Z := 0.

(** ** OpenSSL's ciphers *)

(** The type of a cipher is its row of the table.  A [None] is a return value
    of 0; [EVP_Cipher] gives its return value, the bytes it writes and the
    context, [EVP_Cipher_aad] is the call with a NULL output and
    [EVP_Cipher_final] the one without data. *)
Class EvpCipher : Type := {
  evpc : Type;
  EVP_CIPHER_CTX_init : evpc;
  EVP_CipherInit : option sshcipher -> option bytes -> option bytes -> Z -> evpc -> option evpc;
  EVP_CTRL_GCM_SET_IV_FIXED : bytes -> evpc -> option evpc;
  EVP_CTRL_GCM_IV_GEN : evpc -> option evpc;
  EVP_CTRL_GCM_SET_TAG : bytes -> evpc -> option evpc;
  EVP_CTRL_GCM_GET_TAG : Z -> evpc -> option (bytes * evpc);
  EVP_CIPHER_CTX_key_length : evpc -> Z;
  EVP_CIPHER_CTX_set_key_length : Z -> evpc -> option evpc;
  EVP_Cipher : evpc -> bytes -> Z * bytes * evpc;
  EVP_Cipher_aad : evpc -> bytes -> Z * evpc;
  EVP_Cipher_final : evpc -> Z * evpc;
  EVP_CIPHER_CTX_cleanup : evpc -> bool
}.

Definition is_chachapoly (c : sshcipher) : bool := negb (Z.land (c_flags c) CFLAG_CHACHAPOLY =? 0).

Section cipher.
Context `{EvpCipher}.

Record sshcipher_ctx : Type := mk_cc {
  cc_plaintext : bool;
  cc_encrypt : Z;
  cc_evp : evpc;
  cc_cp : chachapoly_ctx;
  cc_cipher : option sshcipher
}.

Definition set_evp (v : evpc) (cc : sshcipher_ctx) : sshcipher_ctx :=
  mk_cc (cc_plaintext cc) (cc_encrypt cc) v (cc_cp cc) (cc_cipher cc).
Definition set_cp (v : chachapoly_ctx) (cc : sshcipher_ctx) : sshcipher_ctx :=
  mk_cc (cc_plaintext cc) (cc_encrypt cc) (cc_evp cc) v (cc_cipher cc).

Definition cipher_warning_message (cc : sshcipher_ctx) : bool :=
  match cc_cipher cc with
  | None => false
  | Some c => c_number c =? SSH_CIPHER_DES
  end.

(** The calls of [cipher_init] that set up the context of OpenSSL. *)
Definition evp_setup (c : sshcipher) (key : bytes) (keylen : Z) (iv : option bytes) (do_encrypt : Z)
    : result evpc :=
  match EVP_CipherInit (Some c) None iv (b2z (do_encrypt =? CIPHER_ENCRYPT)) EVP_CIPHER_CTX_init with
  | None => Err SSH_ERR_LIBCRYPTO_ERROR
  | Some e =>
      match (if negb (cipher_authlen c =? 0) then EVP_CTRL_GCM_SET_IV_FIXED (default [] iv) e
             else Some e) with
      | None => Err SSH_ERR_LIBCRYPTO_ERROR
      | Some e =>
          let klen := EVP_CIPHER_CTX_key_length e in
          match (if (0 <? klen) && negb (keylen =? klen) then EVP_CIPHER_CTX_set_key_length keylen e
                 else Some e) with
          | None => Err SSH_ERR_LIBCRYPTO_ERROR
          | Some e =>
              match EVP_CipherInit None (Some (ztake keylen key)) None (-1) e with
              | None => Err SSH_ERR_LIBCRYPTO_ERROR
              | Some e => Ok e
              end
          end
      end
  end.

(** [iv] is NULL or the bytes of the initialisation vector; the allocator
    provides the unspecified bytes that are encrypted and thrown away. *)
Definition cipher_init (A : allocator) (c : sshcipher) (key : bytes) (keylen : Z) (iv : option bytes)
    (ivlen do_encrypt : Z) : M sshcipher_ctx unit := fun cc =>
  let keylen := if c_number c =? SSH_CIPHER_DES then (if 8 <? keylen then 8 else keylen) else keylen in
  let cc := mk_cc (c_number c =? SSH_CIPHER_NONE) do_encrypt (cc_evp cc) (cc_cp cc) (cc_cipher cc) in
  if (keylen <? c_key_len c) || (negb (bool_decide (iv = None)) && (ivlen <? cipher_ivlen c))
  then (Err SSH_ERR_INVALID_ARGUMENT, cc)
  else
    let cc := mk_cc (cc_plaintext cc) (cc_encrypt cc) (cc_evp cc) (cc_cp cc) (Some c) in
    if is_chachapoly c then
      let '(r, cp) := chachapoly_init (cc_cp cc) key keylen in (r, set_cp cp cc)
    else
      match evp_setup c key keylen iv do_encrypt with
      | Err r => (Err r, cc)
      | Ok e =>
          let cc := set_evp e cc in
          if 0 <? c_discard_len c then
            match A (c_discard_len c), A (c_discard_len c) with
            | Some (_, junk), Some _ =>
                let '(r, _, e) := EVP_Cipher e ((fun i => u8 (junk i)) <$> seqZ 0 (c_discard_len c)) in
                (if r =? 1 then Ok tt else Err SSH_ERR_LIBCRYPTO_ERROR, set_evp e cc)
            | _, _ => (Err SSH_ERR_ALLOC_FAIL, cc)
            end
          else (Ok tt, cc)
      end.

Definition cipher_cleanup (cc : sshcipher_ctx) : result unit :=
  match cc_cipher cc with
  | None => Ok tt
  | Some c =>
      if is_chachapoly c then Ok tt
      else if EVP_CIPHER_CTX_cleanup (cc_evp cc) then Ok tt else Err SSH_ERR_LIBCRYPTO_ERROR
  end.

(** *** [cipher_crypt] *)

(** The context and the object [dest] points to. *)
Definition Crypt (A : Type) : Type := M (sshcipher_ctx * bytes) A.

Definition store_dest (off : Z) (v : bytes) : Crypt unit := fun '(cc, dest) =>
  (Ok tt, (cc, write_at off v dest)).
(** [if (!EVP_CIPHER_CTX_ctrl(...)) return SSH_ERR_LIBCRYPTO_ERROR]. *)
Definition ctrl (f : evpc -> option evpc) : Crypt unit := fun '(cc, dest) =>
  match f (cc_evp cc) with
  | None => (Err SSH_ERR_LIBCRYPTO_ERROR, (cc, dest))
  | Some e => (Ok tt, (set_evp e cc, dest))
  end.
(** [if (EVP_Cipher(...) < 0) return e]. *)
Definition evp_call (f : evpc -> Z * evpc) (e : Z) : Crypt unit := fun '(cc, dest) =>
  let '(r, x) := f (cc_evp cc) in
  (if r <? 0 then Err e else Ok tt, (set_evp x cc, dest)).

Section crypt.
(** What the temporary buffer of chacha.c holds. *)
Context (tmp : bytes).

Definition cipher_crypt (seqnr : Z) (src : bytes) (len aadlen authlen : Z) : Crypt unit :=
  let! (cc, _) := get_state in
  match cc_cipher cc with
  | None => fail SSH_ERR_INVALID_ARGUMENT
  | Some c =>
      if is_chachapoly c then fun '(cc, dest) =>
        let '(r, (cp, dest)) :=
          chachapoly_crypt tmp seqnr src len aadlen (negb (cc_encrypt cc =? 0)) (cc_cp cc, dest) in
        (r, (set_cp cp cc, dest))
      else
        (if negb (authlen =? 0) then
           if negb (authlen =? cipher_authlen c) then fail SSH_ERR_INVALID_ARGUMENT
           else
             ctrl EVP_CTRL_GCM_IV_GEN ;;;
             if cc_encrypt cc =? 0 then
               ctrl (EVP_CTRL_GCM_SET_TAG (ztake authlen (zdrop (aadlen + len) src)))
             else ret tt
         else ret tt) ;;;
        (if negb (aadlen =? 0) then
           (if negb (authlen =? 0) then
              evp_call (fun e => EVP_Cipher_aad e (ztake aadlen src)) SSH_ERR_LIBCRYPTO_ERROR
            else ret tt) ;;;
           store_dest 0 (ztake aadlen src)
         else ret tt) ;;;
        if negb (len mod c_block_size c =? 0) then fail SSH_ERR_INVALID_ARGUMENT
        else
          (fun '(cc, dest) =>
             let '(r, out, e) := EVP_Cipher (cc_evp cc) (ztake len (zdrop aadlen src)) in
             (if r <? 0 then Err SSH_ERR_LIBCRYPTO_ERROR else Ok tt,
              (set_evp e cc, write_at aadlen out dest))) ;;;
          if negb (authlen =? 0) then
            evp_call EVP_Cipher_final
              (if negb (cc_encrypt cc =? 0) then SSH_ERR_LIBCRYPTO_ERROR else SSH_ERR_MAC_INVALID) ;;;
            if negb (cc_encrypt cc =? 0) then fun '(cc, dest) =>
              match EVP_CTRL_GCM_GET_TAG authlen (cc_evp cc) with
              | None => (Err SSH_ERR_LIBCRYPTO_ERROR, (cc, dest))
              | Some (tag, e) => (Ok tt, (set_evp e cc, write_at (aadlen + len) tag dest))
              end
            else ret tt
          else ret tt
  end.

Definition cipher_get_length (seqnr : Z) (cp : bytes) (len : Z) : M sshcipher_ctx Z := fun cc =>
  match cc_cipher cc with
  | None => (Err SSH_ERR_INVALID_ARGUMENT, cc)
  | Some c =>
      if is_chachapoly c then
        let '(r, x) := chachapoly_get_length tmp seqnr cp len (cc_cp cc) in (r, set_cp x cc)
      else if len <? 4 then (Err SSH_ERR_MESSAGE_INCOMPLETE, cc)
      else (Ok (PEEK_U32 cp), cc)
  end.
End crypt.
End cipher.

(** [cipher_set_key_string]: the key is the MD5 digest of the passphrase. *)
Definition cipher_set_key_string `{EvpCipher, Evp} (A : allocator) (c : sshcipher) (passphrase : bytes)
    (do_encrypt : Z) : M sshcipher_ctx unit :=
  let! digest := lift (ssh_digest_memory SSH_DIGEST_MD5 passphrase 16) in
  cipher_init A c digest 16 None 0 do_encrypt.

(** ** The documented behaviour *)

(** [evp_pair c e d]: [e] encrypts and [d] decrypts with the same key, and
    both have processed the same packets. *)
Class EvpCipherSpec (E : EvpCipher) : Type := {
  evp_pair : sshcipher -> evpc -> evpc -> Prop;
  evp_setup_pair : forall c key iv, In c ciphers -> is_chachapoly c = false ->
    c_key_len c <= zlen key -> cipher_ivlen c <= zlen iv ->
    exists e d, evp_setup c key (c_key_len c) (Some iv) CIPHER_ENCRYPT = Ok e /\
      evp_setup c key (c_key_len c) (Some iv) CIPHER_DECRYPT = Ok d /\ evp_pair c e d;
  evp_discard : forall c e d j j', In c ciphers -> 0 < c_discard_len c -> evp_pair c e d ->
    zlen j = zlen j' ->
    exists o e' o' d', EVP_Cipher e j = (1, o, e') /\ EVP_Cipher d j' = (1, o', d') /\ evp_pair c e' d';
  evp_stream : forall c e d m, In c ciphers -> is_chachapoly c = false -> c_auth_len c = 0 ->
    evp_pair c e d -> Bytes m -> zlen m mod c_block_size c = 0 ->
    exists r out e', EVP_Cipher e m = (r, out, e') /\ 0 <= r /\ zlen out = zlen m /\ Bytes out /\
      forall d, evp_pair c e d ->
        exists r' d', EVP_Cipher d out = (r', m, d') /\ 0 <= r' /\ evp_pair c e' d';
  evp_split : forall c e d a b r o d2, In c ciphers -> is_chachapoly c = false -> c_auth_len c = 0 ->
    evp_pair c e d -> zlen a mod c_block_size c = 0 -> EVP_Cipher d (a ++ b) = (r, o, d2) -> 0 <= r ->
    exists r1 o1 d1 r2 o2, EVP_Cipher d a = (r1, o1, d1) /\ EVP_Cipher d1 b = (r2, o2, d2) /\
      0 <= r1 /\ 0 <= r2 /\ o = o1 ++ o2 /\ zlen o1 = zlen a;
  evp_gcm : forall c e a m, In c ciphers -> is_chachapoly c = false -> c_auth_len c <> 0 ->
    (exists d, evp_pair c e d) -> Bytes a -> Bytes m -> zlen m mod c_block_size c = 0 ->
    exists e1 r2 e2 r3 out e3 r4 e4 tag e5,
      EVP_CTRL_GCM_IV_GEN e = Some e1 /\ EVP_Cipher_aad e1 a = (r2, e2) /\ 0 <= r2 /\
      EVP_Cipher e2 m = (r3, out, e3) /\ 0 <= r3 /\ EVP_Cipher_final e3 = (r4, e4) /\ 0 <= r4 /\
      EVP_CTRL_GCM_GET_TAG (c_auth_len c) e4 = Some (tag, e5) /\
      zlen out = zlen m /\ Bytes out /\ zlen tag = c_auth_len c /\ Bytes tag /\
      forall d, evp_pair c e d ->
        exists d1 d2 s3 d3 s4 d4 s5 d5,
          EVP_CTRL_GCM_IV_GEN d = Some d1 /\ EVP_CTRL_GCM_SET_TAG tag d1 = Some d2 /\
          EVP_Cipher_aad d2 a = (s3, d3) /\ 0 <= s3 /\ EVP_Cipher d3 out = (s4, m, d4) /\ 0 <= s4 /\
          EVP_Cipher_final d4 = (s5, d5) /\ 0 <= s5 /\ evp_pair c e5 d5
}.

(** ** Contexts in step *)

Section pair.
Context {EC : EvpCipher} {ECS : EvpCipherSpec EC}.

Definition cipher_pair (c : sshcipher) (e d : sshcipher_ctx) : Prop :=
  In c ciphers /\ cc_cipher e = Some c /\ cc_cipher d = Some c /\
  cc_encrypt e = CIPHER_ENCRYPT /\ cc_encrypt d = CIPHER_DECRYPT /\
  if is_chachapoly c then keys_ok (cc_cp e) /\ keys_ok (cc_cp d) /\ same_keys (cc_cp d) (cc_cp e)
  else evp_pair c (cc_evp e) (cc_evp d).

(** What the table says of a cipher. *)
Record cipher_row (c : sshcipher) : Prop := {
  row_block : c_block_size c = 8 \/ c_block_size c = 16;
  row_auth : c_auth_len c = 0 \/ c_auth_len c = 16;
  row_chacha : is_chachapoly c = true -> c_auth_len c = 16
}.

Lemma ciphers_rows c : In c ciphers -> cipher_row c.
Proof.
  intros Hc. assert (Forall cipher_row ciphers) as HF.
  { repeat (apply Forall_cons; split; [split; vm_compute; auto; discriminate|]). done. }
  by rewrite Forall_forall in HF; apply HF, list_elem_of_In.
Qed.

Lemma same_keys_trans a b c : same_keys a b -> same_keys b c -> same_keys a c.
Proof. intros [H1 H2] [H3 H4]. split; intros iv n; [rewrite H1|rewrite H2]; auto. Qed.
Lemma same_keys_sym a b : same_keys a b -> same_keys b a.
Proof. intros [H1 H2]. split; intros iv n; [by rewrite H1|by rewrite H2]. Qed.

Lemma write_at_end (a v l : bytes) n :
  zlen a = n -> zlen v <= zlen l -> write_at n v (a ++ l) = a ++ v ++ zdrop (zlen v) l.
Proof. intros <- Hl. rewrite write_after by done. by rewrite (app_assoc a). Qed.

(** [wire] opens, in a context in step with [e] before the packet, to [src], and
    leaves it in step with [e'] after it. *)
Definition opens (tmp : bytes) (c : sshcipher) (seqnr aadlen : Z) (e e' : sshcipher_ctx) (wire src : bytes) : Prop :=
  forall d s dest, cipher_pair c e d -> Bytes s -> ztake (zlen wire) s = wire -> zlen src <= zlen dest ->
  exists d', cipher_pair c e' d' /\
    cipher_crypt tmp seqnr s (zlen src - aadlen) aadlen (c_auth_len c) (d, dest) =
      (Ok tt, (d', src ++ zdrop (zlen src) dest)).

(** The length field can be read as soon as its four bytes are there, and
    reading it leaves the context in step. *)
Definition tells (tmp : bytes) (c : sshcipher) (seqnr : Z) (e : sshcipher_ctx) (wire src : bytes) : Prop :=
  forall d s len, cipher_pair c e d -> Bytes s -> 4 <= len <= zlen s -> ztake 4 s = ztake 4 wire ->
  exists d1, cipher_get_length tmp seqnr s len d = (Ok (PEEK_U32 src), d1) /\ cipher_pair c e d1.

(** Without a tag, the first [n] bytes can be opened before the rest is there. *)
Definition opens_split (tmp : bytes) (c : sshcipher) (e e' : sshcipher_ctx) (wire src : bytes) : Prop :=
  forall d n seqnr s dest, cipher_pair c e d -> 0 <= n <= zlen src -> n mod c_block_size c = 0 ->
    ztake n s = ztake n wire -> n <= zlen dest ->
  exists d1,
    cipher_crypt tmp seqnr s n 0 0 (d, dest) = (Ok tt, (d1, ztake n src ++ zdrop n dest)) /\
    forall seqnr s dest, ztake (zlen src - n) s = zdrop n wire -> zlen src - n <= zlen dest ->
    exists d', cipher_pair c e' d' /\
      cipher_crypt tmp seqnr s (zlen src - n) 0 0 (d1, dest) =
        (Ok tt, (d', zdrop n src ++ zdrop (zlen src - n) dest)).

(** What [cipher_crypt] writes when it encrypts [src]. *)
Definition seals (tmp tmp' : bytes) (c : sshcipher) (seqnr aadlen : Z) (e : sshcipher_ctx) (src dest : bytes) : Prop :=
  exists wire e', zlen wire = zlen src + c_auth_len c /\ Bytes wire /\
    (aadlen = 4 -> 4 <= zlen src -> tells tmp' c seqnr e wire src) /\
    cipher_crypt tmp seqnr src (zlen src - aadlen) aadlen (c_auth_len c) (e, dest) =
      (Ok tt, (e', wire ++ zdrop (zlen wire) dest)) /\
    cc_cipher e' = Some c /\ opens tmp' c seqnr aadlen e e' wire src /\
    (c_auth_len c = 0 -> aadlen = 0 -> opens_split tmp' c e e' wire src).

Lemma prefix_app (w s : bytes) : ztake (zlen w) s = w -> exists r, s = w ++ r.
Proof. intros E. exists (zdrop (zlen w) s). rewrite <- E at 1. by rewrite ztake_zdrop. Qed.

Lemma tells_plain tmp c seqnr e wire src :
  is_chachapoly c = false -> Bytes src -> 4 <= zlen src -> ztake 4 wire = ztake 4 src ->
  tells tmp c seqnr e wire src.
Proof.
  intros Hn HB Hl Hw d s len Hp HsB Hs E. exists d. split; [|done]. destruct Hp as (_ & _ & Hd & _).
  unfold cipher_get_length. rewrite Hd, Hn. destruct (Z.ltb_spec len 4); [lia|].
  rewrite (PEEK_U32_be s) by (done || lia). by rewrite E, Hw, <- PEEK_U32_be.
Qed.

Lemma xor_packet_header ctx seqnr src :
  keys_ok ctx -> Bytes src -> 4 <= zlen src ->
  ztake 4 (xor_packet ctx seqnr 4 src) =
  Chacha.xor_bytes (ztake 4 src) (packet_stream (header_ctx ctx) seqnr None (ztake 4 src)).
Proof.
  intros Hk HB Hl. unfold xor_packet. apply ztake_app.
  destruct (xor_stream_facts (header_ctx ctx) seqnr None (ztake 4 src)) as [-> _];
    [apply Hk|by left|by apply Forall_ztake|]. by rewrite zlen_ztake by lia.
Qed.

Lemma tells_chachapoly tmp c seqnr e tag src :
  Bytes tmp -> 64 <= zlen tmp -> is_chachapoly c = true -> keys_ok (cc_cp e) -> Bytes src -> 4 <= zlen src ->
  tells tmp c seqnr e (xor_packet (cc_cp e) seqnr 4 src ++ tag) src.
Proof.
  intros Ht Htl Hc Hke HB Hl d s len (Hin & He & Hd & Ee & Ed & Hk) HsB Hs E. rewrite Hc in Hk.
  destruct Hk as (_ & Hkd & Hsame).
  destruct (xor_packet_facts (cc_cp e) seqnr 4 src) as [Hx _]; [done|done|lia|].
  rewrite ztake_app_le, xor_packet_header in E by (done || lia).
  destruct (iv_stream tmp (header_ctx (cc_cp d)) seqnr None (ztake 4 s)) as (h & Eh & Hh & Kh);
    [apply Hkd|by left|by apply Forall_ztake|done|done|].
  exists (set_cp (mk_ctx (main_ctx (cc_cp d)) h) d). split.
  - unfold cipher_get_length, chachapoly_get_length. rewrite Hd, Hc. destruct (Z.ltb_spec len 4); [lia|].
    cbv zeta. rewrite Eh, E, xor_stream_twice; [|apply Hke|apply Hsame|by left|by apply Forall_ztake].
    rewrite (PEEK_U32_be (ztake 4 src)), (PEEK_U32_be src); [|done|lia|by apply Forall_ztake|by rewrite zlen_ztake by lia].
    by rewrite ztake_ztake.
  - split_and!; try done. rewrite Hc. split_and!; [done|split; [apply Hkd|done]|].
    destruct Hsame as [Hm Hh']. split; [done|]. intros iv n. exact (eq_trans (Kh iv n) (Hh' iv n)).
Qed.

Lemma seals_chachapoly tmp tmp' c seqnr aadlen e d src dest :
  Bytes tmp -> 64 <= zlen tmp -> Bytes tmp' -> 64 <= zlen tmp' ->
  cipher_pair c e d -> is_chachapoly c = true -> Bytes src -> 0 <= aadlen <= zlen src ->
  zlen src < 2 ^ 32 -> zlen src + c_auth_len c <= zlen dest ->
  seals tmp tmp' c seqnr aadlen e src dest.
Proof.
  intros Ht Htl Ht' Htl' Hp Hcc HB Ha Hlen Hd.
  destruct Hp as (Hin & He & _ & Ee & _ & Hk). rewrite Hcc in Hk. destruct Hk as (Hke & _ & _).
  assert (Hau : c_auth_len c = 16) by (by apply row_chacha; [apply ciphers_rows|]). rewrite Hau in *.
  destruct (chachapoly_encrypt_spec tmp Ht Htl (cc_cp e) seqnr src dest (zlen src - aadlen) aadlen)
    as (cp & E & Hk1 & Hs1); try lia; try done.
  replace (aadlen + (zlen src - aadlen)) with (zlen src) in E by lia.
  rewrite (ztake_ge (zlen src) src) in E by lia.
  set (x := xor_packet (cc_cp e) seqnr aadlen src) in *.
  destruct (xor_packet_facts (cc_cp e) seqnr aadlen src Hke HB Ha) as [Hx HxB]. fold x in Hx, HxB.
  destruct (packet_tag_facts (cc_cp e) seqnr x) as [HtB Htg].
  exists (x ++ packet_tag (cc_cp e) seqnr x), (set_cp cp e).
  assert (Hw : zlen (x ++ packet_tag (cc_cp e) seqnr x) = zlen src + 16) by (rewrite zlen_app; lia).
  split_and!; [by rewrite Hw, Hau|by apply Forall_app|intros ->; intros; by apply tells_chachapoly| |done| |congruence].
  - unfold cipher_crypt. rewrite Hau. unfold bind, get_state. rewrite He, Hcc, Ee.
    change (negb (CIPHER_ENCRYPT =? 0)) with true. by rewrite E, Hw, <- app_assoc.
  - intros d0 s dest0 (_ & _ & Hd0 & _ & Ed0 & Hk0) HsB Hs Hdl. rewrite Hcc in Hk0.
    destruct Hk0 as (_ & Hk0 & Hsame). destruct (prefix_app _ _ Hs) as (rest & ->).
    destruct (chachapoly_decrypt_spec tmp' Ht' Htl' (cc_cp d0) seqnr
      ((x ++ packet_tag (cc_cp e) seqnr x) ++ rest) dest0 (zlen src - aadlen) aadlen)
      as (cp' & E' & Hk2 & Hs2); try lia; try done.
    { rewrite !zlen_app. pose proof (zlen_nonneg rest). lia. }
    replace (aadlen + (zlen src - aadlen)) with (zlen src) in E' by lia.
    rewrite <- app_assoc in E'. rewrite ztake_app in E' by lia. rewrite zdrop_app in E' by lia.
    rewrite ztake_app in E' by lia.
    destruct (same_keys_facts _ _ seqnr Hsame) as (_ & _ & Htag). rewrite Htag in E'.
    rewrite decide_True in E' by done.
    assert (Hx2 : xor_packet (cc_cp d0) seqnr aadlen x = src) by (by apply xor_packet_twice).
    rewrite Hx2 in E'.
    exists (set_cp cp' d0). split.
    { split_and!; try done. rewrite Hcc. split_and!; try done. cbn.
      apply same_keys_trans with (cc_cp d0); [done|]. apply same_keys_trans with (cc_cp e); [done|].
      by apply same_keys_sym. }
    unfold cipher_crypt, bind, get_state. rewrite Hd0, Hcc, Ed0. rewrite <- app_assoc.
    change (negb (CIPHER_DECRYPT =? 0)) with false. by rewrite E'.
Qed.

(** A call without a tag. *)
Lemma crypt_stream tmp seqnr cc c s len aadlen dest r out x :
  cc_cipher cc = Some c -> is_chachapoly c = false -> len mod c_block_size c = 0 ->
  0 <= aadlen -> 0 <= len -> aadlen + len <= zlen s -> aadlen + len <= zlen dest ->
  EVP_Cipher (cc_evp cc) (ztake len (zdrop aadlen s)) = (r, out, x) -> 0 <= r -> zlen out = len ->
  cipher_crypt tmp seqnr s len aadlen 0 (cc, dest) =
    (Ok tt, (set_evp x cc, ztake aadlen s ++ out ++ zdrop (aadlen + len) dest)).
Proof.
  intros Hc Hn Hm Ha Hl Hs Hd E Hr Ho. unfold cipher_crypt, bind, get_state, ret, store_dest.
  rewrite Hc, Hn, Hm. change (negb (0 =? 0)) with false. cbv iota.
  assert (Hz : zlen (ztake aadlen s) = aadlen) by (apply zlen_ztake; lia).
  destruct (Z.eqb_spec aadlen 0) as [->|Hne]; cbn [negb]; rewrite E; destruct (Z.ltb_spec r 0); try lia.
  - rewrite ztake_0, write_prefix by lia. rewrite Ho. simpl. done.
  - rewrite write_prefix by (rewrite Hz; lia). rewrite write_at_end; [|done|rewrite zlen_zdrop; lia].
    rewrite Hz, zdrop_zdrop, Ho by lia. done.
Qed.

Lemma ztake_prefix (w s : bytes) n :
  ztake (zlen w) s = w -> n <= zlen w -> ztake n s = ztake n w.
Proof. intros Hs Hn. rewrite <- Hs, ztake_ztake. by rewrite Z.min_l by lia. Qed.

Lemma slice_prefix (w s : bytes) n m :
  ztake (zlen w) s = w -> 0 <= n -> 0 <= m -> n + m <= zlen w -> ztake m (zdrop n s) = ztake m (zdrop n w).
Proof.
  intros Hs Hn Hm Hl. destruct (prefix_app _ _ Hs) as (r & ->).
  rewrite zdrop_app_le by lia. apply ztake_app_le. rewrite zlen_zdrop by lia. lia.
Qed.

Lemma mod_sub_0 a b n : 0 < n -> a mod n = 0 -> b mod n = 0 -> (a - b) mod n = 0.
Proof. intros Hn Ha Hb. rewrite Zminus_mod, Ha, Hb. apply Z.mod_0_l. lia. Qed.

Lemma split_stream tmp c r e x d src out :
  cipher_pair c e d -> is_chachapoly c = false -> c_auth_len c = 0 ->
  EVP_Cipher (cc_evp e) src = (r, out, x) -> zlen out = zlen src -> zlen src mod c_block_size c = 0 ->
  (forall d, evp_pair c (cc_evp e) d ->
     exists r' d', EVP_Cipher d out = (r', src, d') /\ 0 <= r' /\ evp_pair c x d') ->
  opens_split tmp c e (set_evp x e) out src.
Proof.
  intros (Hin & He & _ & Ee & _ & _) Hn Hau E Ho Hm Hdec d0 n seqnr s dest (_ & _ & Hd0 & _ & Ed0 & Hk) Hr Hnm Hs Hdl.
  rewrite Hn in Hk. destruct (Hdec _ Hk) as (r' & x' & E' & Hr' & Hk').
  assert (Hb : 0 < c_block_size c) by (destruct (row_block _ (ciphers_rows c Hin)); lia).
  assert (Hl1 : zlen (ztake n out) = n) by (apply zlen_ztake; lia).
  destruct (evp_split c (cc_evp e) (cc_evp d0) (ztake n out) (zdrop n out) r' src x')
    as (r1 & o1 & x1 & r2 & o2 & E1 & E2 & Hr1 & Hr2 & Hsrc & Ho1); try done;
    [by rewrite Hl1|by rewrite ztake_zdrop|].
  assert (Hls : n <= zlen s) by (rewrite <- Hl1, <- Hs; apply zlen_ztake_le).
  exists (set_evp x1 d0). split.
  { rewrite (crypt_stream tmp seqnr d0 c s n 0 dest r1 o1 x1); try done; try lia; [|by rewrite zdrop_0, Hs].
    rewrite ztake_0. simpl. rewrite Hsrc, ztake_app by lia. done. }
  intros seqnr' s' dest' Hs' Hdl'. exists (set_evp x' d0).
  assert (Hl2 : zlen (zdrop n out) = zlen src - n) by (rewrite zlen_zdrop; lia).
  assert (Hls' : zlen src - n <= zlen s') by (rewrite <- Hl2, <- Hs'; apply zlen_ztake_le).
  split; [split_and!; try done; by rewrite Hn|].
  assert (Ho2 : zlen o2 = zlen src - n) by (pose proof (zlen_app o1 o2); rewrite <- Hsrc in *; lia).
  rewrite (crypt_stream tmp seqnr' (set_evp x1 d0) c s' (zlen src - n) 0 dest' r2 o2 x'); try done; try lia.
  - rewrite ztake_0. simpl. do 3 f_equal. rewrite Hsrc at 1. by rewrite zdrop_app by lia.
  - by apply mod_sub_0.
  - by rewrite zdrop_0, Hs'.
Qed.

Lemma seals_stream tmp tmp' c seqnr aadlen e d src dest :
  cipher_pair c e d -> is_chachapoly c = false -> c_auth_len c = 0 -> Bytes src -> 0 <= aadlen <= zlen src ->
  (zlen src - aadlen) mod c_block_size c = 0 -> zlen src <= zlen dest ->
  seals tmp tmp' c seqnr aadlen e src dest.
Proof.
  intros Hp Hn Hau HB Ha Hm Hd. pose proof Hp as Hp0. destruct Hp as (Hin & He & _ & Ee & _ & Hk). rewrite Hn in Hk.
  assert (Hpl : zlen (zdrop aadlen src) = zlen src - aadlen) by (by apply zlen_zdrop).
  assert (Hal : zlen (ztake aadlen src) = aadlen) by (by apply zlen_ztake).
  destruct (evp_stream c (cc_evp e) (cc_evp d) (zdrop aadlen src)) as (r & out & x & E & Hr & Ho & HoB & Hdec);
    try done; [by apply Forall_zdrop|by rewrite Hpl|].
  exists (ztake aadlen src ++ out), (set_evp x e). rewrite Hau.
  assert (Hw : zlen (ztake aadlen src ++ out) = zlen src) by (rewrite zlen_app; lia).
  split_and!; [lia|apply Forall_app; split; [by apply Forall_ztake|done]| | |done| |].
  - intros -> Hs4. apply tells_plain; [done|done|done|by rewrite ztake_app].
  - rewrite (crypt_stream tmp seqnr e c src _ aadlen dest r out x); try done; try lia.
    + rewrite Hw, <- app_assoc. by replace (aadlen + (zlen src - aadlen)) with (zlen src) by lia.
    + rewrite <- Hpl, ztake_ge by lia. done.
  - intros d0 s dest0 (_ & _ & Hd0 & _ & Ed0 & Hk0) HsB Hs Hdl. rewrite Hn in Hk0.
    destruct (Hdec _ Hk0) as (r' & x' & E' & Hr' & Hk').
    exists (set_evp x' d0). split; [split_and!; try done; by rewrite Hn|]. rewrite Hau.
    assert (Hsl : zlen src <= zlen s) by (rewrite <- Hw, <- Hs; apply zlen_ztake_le).
    rewrite (crypt_stream tmp' seqnr d0 c s _ aadlen dest0 r' (zdrop aadlen src) x'); try done; try lia.
    + rewrite (ztake_prefix _ _ aadlen Hs), ztake_app by lia.
      rewrite app_assoc, ztake_zdrop.
      by replace (aadlen + (zlen src - aadlen)) with (zlen src) by lia.
    + rewrite (slice_prefix _ _ aadlen _ Hs) by lia. rewrite zdrop_app, ztake_ge by lia. done.
  - intros _ ->. rewrite zdrop_0 in *. rewrite Z.sub_0_r in Hm. rewrite ztake_0. simpl.
    by apply (split_stream tmp' c r e x d src out).
Qed.

Lemma seals_gcm tmp tmp' c seqnr aadlen e d src dest :
  cipher_pair c e d -> is_chachapoly c = false -> c_auth_len c <> 0 -> Bytes src -> 0 < aadlen <= zlen src ->
  (zlen src - aadlen) mod c_block_size c = 0 -> zlen src + c_auth_len c <= zlen dest ->
  seals tmp tmp' c seqnr aadlen e src dest.
Proof.
  intros Hp Hn Hau HB Ha Hm Hd. destruct Hp as (Hin & He & _ & Ee & _ & Hk). rewrite Hn in Hk.
  assert (Hnn : 0 <= c_auth_len c) by (destruct (row_auth _ (ciphers_rows c Hin)) as [-> | ->]; lia).
  assert (Hpl : zlen (zdrop aadlen src) = zlen src - aadlen) by (apply zlen_zdrop; lia).
  assert (Hal : zlen (ztake aadlen src) = aadlen) by (apply zlen_ztake; lia).
  destruct (evp_gcm c (cc_evp e) (ztake aadlen src) (zdrop aadlen src)) as (e1 & r2 & e2 & r3 & out & e3 & r4 &
    e4 & tag & e5 & E1 & E2 & Hr2 & E3 & Hr3 & E4 & Hr4 & E5 & Ho & HoB & Htg & HtB & Hdec);
    try done; [by eexists|by apply Forall_ztake|by apply Forall_zdrop|by rewrite Hpl|].
  assert (Htl : ztake (zlen src - aadlen) (zdrop aadlen src) = zdrop aadlen src) by (apply ztake_ge; lia).
  set (wire := ztake aadlen src ++ out ++ tag).
  assert (Hw : zlen wire = zlen src + c_auth_len c) by (unfold wire; rewrite !zlen_app; lia).
  assert (Hne : (c_auth_len c =? 0) = false) by lia. assert (Hna : (aadlen =? 0) = false) by lia.
  exists wire, (set_evp e5 (set_evp e4 (set_evp e3 (set_evp e2 (set_evp e1 e))))).
  split_and!; [done|by repeat (apply Forall_app; split); [apply Forall_ztake| |]| | |done| |done].
  - intros -> Hs4. apply tells_plain; [done|done|done|unfold wire; by rewrite ztake_app].
  - unfold cipher_crypt, bind, get_state, ret, ctrl, evp_call, store_dest, cipher_authlen.
    rewrite He, Hn, Hne, Z.eqb_refl, Ee, Hna, Hm. cbn [negb]. rewrite E1.
    change (CIPHER_ENCRYPT =? 0) with false. cbn [set_evp cc_evp negb]. rewrite E2.
    destruct (Z.ltb_spec r2 0); [lia|]. change (negb (0 =? 0)) with false. cbv beta iota. cbn [set_evp cc_evp].
    rewrite Htl, E3.
    destruct (Z.ltb_spec r3 0); [lia|]. cbn [set_evp cc_evp Z.eqb]. rewrite E4.
    destruct (Z.ltb_spec r4 0); [lia|]. cbn [set_evp cc_evp cc_encrypt]. rewrite E5.
    rewrite write_prefix by lia. rewrite Hal.
    rewrite write_at_end; [|done|rewrite zlen_zdrop; lia]. rewrite zdrop_zdrop, app_assoc by lia.
    rewrite (write_at_end (ztake aadlen src ++ out)); [|rewrite zlen_app; lia|rewrite zlen_zdrop; lia].
    rewrite zdrop_zdrop by lia. unfold wire. rewrite <- !app_assoc. do 5 f_equal. rewrite Htg. f_equal.
    rewrite Ho, Hpl. unfold wire in Hw. lia.
  - intros d0 s dest0 (_ & _ & Hd0 & _ & Ed0 & Hk0) HsB Hs Hdl. rewrite Hn in Hk0.
    destruct (Hdec _ Hk0) as (d1 & d2 & s3 & d3 & s4 & d4 & s5 & d5 & D1 & D2 & D3 & Hs3 & D4 & Hs4 & D5 & Hs5 & Hk').
    assert (Hsa : ztake aadlen s = ztake aadlen src)
      by (rewrite (ztake_prefix _ _ aadlen Hs) by lia; unfold wire; by rewrite ztake_app).
    assert (Hso : ztake (zlen src - aadlen) (zdrop aadlen s) = out).
    { rewrite (slice_prefix _ _ aadlen _ Hs) by lia. unfold wire. rewrite zdrop_app by done.
      apply ztake_app. lia. }
    assert (Hst : ztake (c_auth_len c) (zdrop (zlen src) s) = tag).
    { rewrite (slice_prefix _ _ (zlen src) _ Hs) by lia. unfold wire. rewrite app_assoc.
      rewrite zdrop_app by (rewrite zlen_app; lia). apply ztake_ge. lia. }
    exists (set_evp d5 (set_evp d4 (set_evp d3 (set_evp d2 (set_evp d1 d0))))).
    split; [split_and!; try done; by rewrite Hn|].
    unfold cipher_crypt, bind, get_state, ret, ctrl, evp_call, store_dest, cipher_authlen.
    rewrite Hd0, Hn, Hne, Z.eqb_refl, Ed0, Hna, Hm. cbn [negb]. rewrite D1.
    change (CIPHER_DECRYPT =? 0) with true. cbn [set_evp cc_evp negb].
    replace (aadlen + (zlen src - aadlen)) with (zlen src) by lia. rewrite Hst, D2, Hsa. cbn [set_evp cc_evp].
    rewrite D3. destruct (Z.ltb_spec s3 0); [lia|]. change (negb (0 =? 0)) with false. cbv beta iota.
    cbn [set_evp cc_evp]. rewrite Hso, D4.
    destruct (Z.ltb_spec s4 0); [lia|]. cbn [set_evp cc_evp]. rewrite D5.
    destruct (Z.ltb_spec s5 0); [lia|]. rewrite write_prefix by lia. rewrite Hal.
    rewrite write_at_end; [|done|rewrite !zlen_zdrop by lia; lia].
    rewrite zdrop_zdrop by lia. rewrite app_assoc, ztake_zdrop.
    by replace (aadlen + zlen (zdrop aadlen src)) with (zlen src) by lia.
Qed.

(** ** What the packet layer relies on *)

(** Every cipher of the table: encrypting seals, whatever the destination. *)
Lemma cipher_seals tmp tmp' c seqnr aadlen e d src dest :
  Bytes tmp -> 64 <= zlen tmp -> Bytes tmp' -> 64 <= zlen tmp' ->
  cipher_pair c e d -> Bytes src -> 0 <= aadlen <= zlen src -> (c_auth_len c <> 0 -> 0 < aadlen) ->
  (zlen src - aadlen) mod c_block_size c = 0 -> zlen src < 2 ^ 32 -> zlen src + c_auth_len c <= zlen dest ->
  seals tmp tmp' c seqnr aadlen e src dest.
Proof.
  intros. destruct (is_chachapoly c) eqn:Hc; [by eapply seals_chachapoly|].
  destruct (Z.eq_dec (c_auth_len c) 0).
  - eapply seals_stream; eauto; lia.
  - eapply seals_gcm; eauto; lia.
Qed.


(** Only the bytes of the packet are read when it is encrypted. *)
Lemma cipher_crypt_prefix tmp seqnr s len aadlen authlen cc dest :
  cc_encrypt cc = CIPHER_ENCRYPT -> 0 <= aadlen -> 0 <= len ->
  cipher_crypt tmp seqnr s len aadlen authlen (cc, dest) =
  cipher_crypt tmp seqnr (ztake (aadlen + len) s) len aadlen authlen (cc, dest).
Proof.
  intros He Ha Hl.
  assert (H1 : ztake aadlen (ztake (aadlen + len) s) = ztake aadlen s)
    by (rewrite ztake_ztake; by rewrite Z.min_l by lia).
  assert (H2 : ztake len (zdrop aadlen (ztake (aadlen + len) s)) = ztake len (zdrop aadlen s)).
  { rewrite zdrop_ztake, ztake_ztake by lia. f_equal. lia. }
  unfold cipher_crypt, bind at 1, get_state at 1. symmetry. unfold bind at 1, get_state at 1. rewrite He.
  destruct (cc_cipher cc) as [c|]; [|done]. destruct (is_chachapoly c).
  - unfold chachapoly_crypt. change (negb (CIPHER_ENCRYPT =? 0)) with true. cbn [negb].
    destruct (chacha_encrypt_bytes tmp (chacha_ivsetup (main_ctx (cc_cp cc)) (POKE_U64 seqnr) None)
      (zrep POLY1305_KEYLEN 0)) as [k m]. rewrite He.
    change (negb (CIPHER_ENCRYPT =? 0)) with true. cbv beta iota zeta. cbn [negb].

    rewrite H1, H2. done.
  - change (CIPHER_ENCRYPT =? 0) with false. cbv iota. rewrite H1, H2. done.
Qed.

(** Three bytes are not enough to tell the length. *)
Lemma cipher_get_length_short tmp seqnr s len cc :
  len < 4 -> exists r, cipher_get_length tmp seqnr s len cc = (Err r, cc).
Proof.
  intros Hl. unfold cipher_get_length, chachapoly_get_length.
  destruct (cc_cipher cc) as [c|] eqn:Ec; [|by eexists]. destruct (Z.ltb_spec len 4); [|lia].
  destruct (is_chachapoly c); eexists; [|done]. destruct cc; cbn in *. by rewrite Ec.
Qed.

(** *** Setting up the contexts *)

Lemma forallb_bytes l : forallb (fun b => (0 <=? b) && (b <? 256)) l = true -> Bytes l.
Proof.
  rewrite forallb_forall, Forall_forall. intros Hl b Hb. apply list_elem_of_In, Hl in Hb.
  unfold in_range. lia.
Qed.

(** Four little-endian words. *)
Definition le_words (k : bytes) : list Z := (fun i => U8TO32_LE (zdrop i k)) <$> [0; 4; 8; 12].

Lemma le_words_range k : Bytes k -> 16 <= zlen k -> Forall (in_range 32) (le_words k).
Proof.
  intros HB Hl. apply Forall_fmap, Forall_forall. intros i Hi.
  assert (0 <= i <= 12) by (rewrite !elem_of_cons, elem_of_nil in Hi; lia).
  apply U8TO32_LE_range; [by apply Forall_zdrop|rewrite zlen_zdrop; lia].
Qed.

Lemma keysetup_words x k :
  length x = 16%nat ->
  chacha_keysetup x k 256 = le_words sigma ++ le_words k ++ le_words (zdrop 16 k) ++ drop 12 x.
Proof.
  unfold chacha_keysetup, set_words. change (256 =? 256) with true. cbv iota. cbn [fold_left]. intros Hl.
  do 16 (destruct x as [|? x]; [done|]). by destruct x.
Qed.

Lemma keysetup_ok x k :
  ctx_ok x -> Bytes k -> 32 <= zlen k -> ctx_ok (chacha_keysetup x k 256).
Proof.
  intros [Hl HF] HB Hk. rewrite keysetup_words by done. split.
  - rewrite !length_app, length_drop. unfold le_words. rewrite !length_fmap. simpl. lia.
  - rewrite !Forall_app. split_and!; [| | |by apply Forall_drop].
    + apply le_words_range; [apply forallb_bytes; by vm_compute|by vm_compute].
    + apply le_words_range; [done|lia].
    + apply le_words_range; [by apply Forall_zdrop|rewrite zlen_zdrop; lia].
Qed.

Lemma keysetup_same x y k :
  length x = 16%nat -> length y = 16%nat -> same_key (chacha_keysetup x k 256) (chacha_keysetup y k 256).
Proof.
  intros Hx Hy. rewrite !keysetup_words by done.
  apply same_key_take; try (rewrite !length_app, length_drop; unfold le_words; rewrite !length_fmap; simpl; lia).
  rewrite !app_assoc, !take_app_length'; done.
Qed.

(** A context of either end, set up with the same key and initialisation
    vector for encryption and for decryption. *)
Lemma cipher_init_pair A A' c key iv cc cd :
  In c ciphers -> c_number c <> SSH_CIPHER_DES -> alloc_ok A -> alloc_ok A' ->
  Bytes key -> c_key_len c <= zlen key -> cipher_ivlen c <= zlen iv ->
  keys_ok (cc_cp cc) -> keys_ok (cc_cp cd) ->
  exists e d,
    cipher_init A c key (c_key_len c) (Some iv) (zlen iv) CIPHER_ENCRYPT cc = (Ok tt, e) /\
    cipher_init A' c key (c_key_len c) (Some iv) (zlen iv) CIPHER_DECRYPT cd = (Ok tt, d) /\
    cipher_pair c e d /\ keys_ok (cc_cp e) /\ keys_ok (cc_cp d) /\
    cc_plaintext e = (c_number c =? SSH_CIPHER_NONE) /\ cc_plaintext d = (c_number c =? SSH_CIPHER_NONE).
Proof.
  intros Hin Hdes HA HA' HB Hk Hiv Hcc Hcd. unfold cipher_init.
  rewrite (proj2 (Z.eqb_neq _ _) Hdes), Z.ltb_irrefl. rewrite (proj2 (Z.ltb_ge _ _) Hiv), andb_false_r. cbn [orb].
  destruct (is_chachapoly c) eqn:Hn.
  - assert (Hlen : c_key_len c = 64).
    { repeat destruct Hin as [<-|Hin]; try done. }
    unfold chachapoly_init. rewrite Hlen. change (negb (64 =? 32 + 32)) with false. cbv iota.
    destruct Hcc as [H1 H2], Hcd as [H3 H4]. rewrite Hlen in Hk.
    eexists _, _. split; [done|]. split; [done|].
    assert (HBd : Bytes (zdrop 32 key)) by (by apply Forall_zdrop).
    assert (Hld : zlen (zdrop 32 key) = zlen key - 32) by (apply zlen_zdrop; lia).
    unfold cipher_pair. rewrite Hn. cbn [set_cp cc_cp cc_cipher cc_encrypt cc_plaintext].
    split_and!; try done; try (split; apply keysetup_ok; done || lia).
    split; apply keysetup_same; [apply H3|apply H1|apply H4|apply H2].
  - destruct (evp_setup_pair c key iv Hin Hn Hk Hiv) as (e & d & -> & -> & Hp).
    destruct (Z.ltb_spec 0 (c_discard_len c)).
    + assert (HA1 := HA (c_discard_len c)). assert (HA1' := HA' (c_discard_len c)).
      destruct (A (c_discard_len c)) as [[p junk]|]; [|done].
      destruct (A' (c_discard_len c)) as [[p' junk']|]; [|done]. cbn.
      destruct (evp_discard c e d ((fun i => u8 (junk i)) <$> seqZ 0 (c_discard_len c))
        ((fun i => u8 (junk' i)) <$> seqZ 0 (c_discard_len c))) as (o & e' & o' & d' & -> & -> & Hp');
        try done; [by rewrite !zlen_fmap|].
      eexists _, _. split; [done|]. split; [done|]. unfold cipher_pair. rewrite Hn.
      cbn [set_evp cc_cp cc_cipher cc_encrypt cc_plaintext cc_evp]. split_and!; done.
    + eexists _, _. split; [done|]. split; [done|]. unfold cipher_pair. rewrite Hn.
      cbn [set_evp cc_cp cc_cipher cc_encrypt cc_plaintext cc_evp]. split_and!; done.
Qed.
End pair.

(** ** An instance *)

(** A stream cipher whose tag is a sum: it shows that the laws can hold. *)
Record toy_evpc : Type := mk_toy { ty_enc : bool; ty_k : Z; ty_n : Z; ty_acc : Z; ty_tag : bytes }.
Definition bsum (l : bytes) : Z := fold_right Z.add 0 l.
Definition toy_xor (k n : Z) (m : bytes) : bytes :=
  zip_with Z.lxor m ((fun i => u8 (k + i)) <$> seqZ n (zlen m)).
Definition toy_cipher (x : toy_evpc) (m : bytes) : Z * bytes * toy_evpc :=
  let out := toy_xor (ty_k x) (ty_n x) m in
  (1, out, mk_toy (ty_enc x) (ty_k x) (ty_n x + zlen m)
             (ty_acc x + bsum (if ty_enc x then out else m)) (ty_tag x)).

#[export] Instance toy_evp_cipher : EvpCipher := {
  evpc := toy_evpc;
  EVP_CIPHER_CTX_init := mk_toy true 0 0 0 [];
  EVP_CipherInit type key iv enc x := Some (mk_toy (if enc =? -1 then ty_enc x else enc =? 1)
    (ty_k x + bsum (default [] key) + bsum (default [] iv)) (ty_n x) 0 []);
  EVP_CTRL_GCM_SET_IV_FIXED iv x := Some x;
  EVP_CTRL_GCM_IV_GEN x := Some (mk_toy (ty_enc x) (ty_k x) (ty_n x + 1) 0 []);
  EVP_CTRL_GCM_SET_TAG tag x := Some (mk_toy (ty_enc x) (ty_k x) (ty_n x) (ty_acc x) tag);
  EVP_CTRL_GCM_GET_TAG n x := Some (zrep n (u8 (ty_acc x)), x);
  EVP_CIPHER_CTX_key_length x := 0;
  EVP_CIPHER_CTX_set_key_length n x := Some x;
  EVP_Cipher := toy_cipher;
  EVP_Cipher_aad x a := (1, mk_toy (ty_enc x) (ty_k x) (ty_n x) (ty_acc x + bsum a) (ty_tag x));
  EVP_Cipher_final x :=
    ((if ty_enc x then 1 else if bool_decide (ty_tag x = zrep (zlen (ty_tag x)) (u8 (ty_acc x))) then 0 else -1), x);
  EVP_CIPHER_CTX_cleanup x := true
}.

Lemma toy_xor_facts k n m : Bytes m -> zlen (toy_xor k n m) = zlen m /\ Bytes (toy_xor k n m).
Proof.
  intros HB. unfold toy_xor. split.
  - unfold zlen. rewrite length_zip_with, length_fmap, length_seqZ. lia.
  - revert n. induction HB as [|b m Hb HB IH]; intros n; [constructor|].
    rewrite seqZ_cons by (rewrite zlen_cons; pose proof (zlen_nonneg m); lia). rewrite zlen_cons.
    replace (Z.pred (1 + zlen m)) with (zlen m) by lia. cbn. constructor; [|apply IH].
    apply lxor_range; [lia|done|apply wrap_range; lia].
Qed.

Lemma toy_xor_twice k n m : Bytes m -> toy_xor k n (toy_xor k n m) = m.
Proof.
  intros HB. assert (Hl := proj1 (toy_xor_facts k n m HB)). unfold toy_xor at 1. rewrite Hl. clear Hl.
  unfold toy_xor. revert n. induction HB as [|b m Hb HB IH]; intros n; [done|].
  rewrite seqZ_cons by (rewrite zlen_cons; pose proof (zlen_nonneg m); lia). rewrite zlen_cons.
  replace (Z.pred (1 + zlen m)) with (zlen m) by lia. cbn. f_equal; [|apply IH].
  by rewrite Z.lxor_assoc, Z.lxor_nilpotent, Z.lxor_0_r.
Qed.

Lemma toy_xor_app k n a b : toy_xor k n (a ++ b) = toy_xor k n a ++ toy_xor k (n + zlen a) b.
Proof.
  unfold toy_xor. rewrite zlen_app, seqZ_app, fmap_app by apply zlen_nonneg.
  apply zip_with_app. unfold zlen. rewrite length_fmap, length_seqZ. lia.
Qed.

Lemma bsum_app a b : bsum (a ++ b) = bsum a + bsum b.
Proof. unfold bsum. induction a as [|x a IH]; simpl; lia. Qed.

#[export] Instance toy_evp_cipher_spec : EvpCipherSpec toy_evp_cipher.
Proof.
  refine {| evp_pair := fun _ (e d : @evpc toy_evp_cipher) => ty_enc e = true /\ ty_enc d = false /\
    ty_k e = ty_k d /\ ty_n e = ty_n d |}.
  - intros c key iv _ _ _ _. unfold evp_setup. cbn. destruct (negb _); eauto 10.
  - intros c e d j j' _ _ (He & Hd & Hk & Hn) Hl. cbn. unfold toy_cipher.
    eexists _, _, _, _. split_and!; try done. cbn. lia.
  - intros c e d m _ _ _ _ HB _. destruct (toy_xor_facts (ty_k e) (ty_n e) m HB) as [Hl HB'].
    eexists _, _, _. split; [done|]. split_and!; try done. intros d' (He & Hd & Hk & Hn).
    eexists _, _. split; [|split; [|split_and!]].
    + cbn. unfold toy_cipher. rewrite <- Hk, <- Hn, toy_xor_twice by done. done.
    + lia.
    + done.
    + done.
    + done.
    + cbn. rewrite Hl. lia.
  - intros c e d a b r o d2 _ _ _ (He & Hd & Hk & Hn) _ [= <- <- <-] _.
    eexists _, _, _, _, _. split; [done|]. split; [|split_and!].
    + cbn. unfold toy_cipher. cbn. rewrite Hd, zlen_app, bsum_app, !Z.add_assoc. done.
    + lia.
    + lia.
    + apply toy_xor_app.
    + unfold toy_xor, zlen. rewrite length_zip_with, length_fmap, length_seqZ. lia.
  - intros c e a m Hin _ _ [d0 (He0 & _)] Ha HB _.
    destruct (toy_xor_facts (ty_k e) (ty_n e + 1) m HB) as [Hl HB'].
    assert (Hau : 0 <= c_auth_len c) by (destruct (row_auth _ (ciphers_rows c Hin)); lia).
    eexists _, _, _, _, _, _, _, _, _, _. split; [done|]. split; [done|]. split; [lia|]. split; [done|].
    split; [lia|]. split; [done|]. split; [cbn; rewrite He0; lia|]. split; [done|]. cbn. rewrite He0.
    split; [done|]. split; [done|]. split; [by apply zlen_zrep|].
    split; [apply Bytes_zrep, wrap_range; lia|]. intros d (He & Hd & Hk & Hn).
    eexists _, _, _, _, _, _, _, _. split; [done|]. split; [done|]. split; [done|]. split; [lia|].
    cbn. split; [|split; [|split; [done|]]].
    + unfold toy_cipher. cbn. rewrite <- Hk, <- Hn, toy_xor_twice by done. done.
    + lia.
    + cbn. rewrite Hd, zlen_zrep, bool_decide_eq_true_2 by done. cbn. rewrite Hl. split; [lia|]. by split_and!.
Defined.
