(* ===== verification/Mac.v ===== *)
(** The MACs of mac.c at work: [mac_init], [mac_compute] and [mac_clear], over
    the HMAC of Digest.v and UMAC.

    umac.c is an interface here: a typeclass of operations and, in a second
    one, what mac.c relies on, namely that a context hashes the bytes it is
    given until [umac_final], which starts it afresh. *)

From S2P Require Import Prelude Wire Sshbuf SshbufGetput Algs Digest.


(** [true] selects the 128-bit variant. *)
Class Umac : Type := {
  umac_ctx : Type;
  umac_new : bool -> bytes -> option umac_ctx;
  umac_update : bool -> umac_ctx -> bytes -> umac_ctx;
  umac_final : bool -> umac_ctx -> bytes -> bytes * umac_ctx
}.

Definition umac_bytes (wide : bool) : Z := if wide then 16 else 8.

Class UmacSpec (U : Umac) : Type := {
  umac : bool -> bytes -> bytes -> bytes -> bytes;
  umac_rep : bool -> umac_ctx -> bytes -> bytes -> Prop;
  umac_zlen : forall w key m n, zlen (umac w key m n) = umac_bytes w;
  umac_Bytes : forall w key m n, Bytes (umac w key m n);
  umac_new_rep : forall w key, exists c, umac_new w key = Some c /\ umac_rep w c key [];
  umac_update_rep : forall w c key m v, umac_rep w c key m -> umac_rep w (umac_update w c v) key (m ++ v);
  umac_final_rep : forall w c key m n, umac_rep w c key m ->
    fst (umac_final w c n) = umac w key m n /\ umac_rep w (snd (umac_final w c n)) key []
}.

Section mac.
Context {EV : Evp} {UM : Umac}.

(** [struct sshmac] with its contexts; [None] is NULL. *)
Record macx : Type := mk_macx {
  mx : sshmac;
  mx_hmac : option ssh_hmac_ctx;
  mx_umac : option umac_ctx
}.

Definition on_hmac {A} (m : M ssh_hmac_ctx A) (e : Z) : M macx A := fun x =>
  match mx_hmac x with
  | None => (Err e, x)
  | Some h =>
      let '(r, h) := m h in
      (match r with Ok a => Ok a | Err _ => Err e end, mk_macx (mx x) (Some h) (mx_umac x))
  end.

Definition mac_init : M macx unit := fun x =>
  match mac_key (mx x) with
  | None => (Err SSH_ERR_INVALID_ARGUMENT, x)
  | Some key =>
      let new (wide : bool) :=
        match umac_new wide key with
        | None => (Err SSH_ERR_ALLOC_FAIL, mk_macx (mx x) (mx_hmac x) None)
        | Some c => (Ok tt, mk_macx (mx x) (mx_hmac x) (Some c))
        end in
      if mac_type (mx x) =? SSH_DIGEST then
        on_hmac (ssh_hmac_init (Some (ztake (mac_key_len (mx x)) key))) SSH_ERR_INVALID_ARGUMENT x
      else if mac_type (mx x) =? SSH_UMAC then new false
      else if mac_type (mx x) =? SSH_UMAC128 then new true
      else (Err SSH_ERR_INVALID_ARGUMENT, x)
  end.

(** [um] is what the static buffer [u.m] holds before; [digest] is whether the
    result is wanted.  After [mac_init] the context is not NULL: without one
    the C code would follow a NULL pointer. *)
Definition mac_compute (um : bytes) (seqno : Z) (data : bytes) (dlen : Z) : M macx bytes :=
  let! x := get_state in
  if SSH_DIGEST_MAX_LENGTH <? mac_mac_len (mx x) then fail SSH_ERR_INTERNAL_ERROR
  else
    let! u :=
      if mac_type (mx x) =? SSH_DIGEST then
        let! d := on_hmac (ssh_hmac_init None ;;; ssh_hmac_update (be_bytes 4 seqno) ;;;
                           ssh_hmac_update data ;;; ssh_hmac_final SSH_DIGEST_MAX_LENGTH)
                    SSH_ERR_LIBCRYPTO_ERROR in
        ret (write_at 0 d um)
      else
        let sum (wide : bool) : M macx bytes := fun x =>
          match mx_umac x with
          | None => (Err SSH_ERR_LIBCRYPTO_ERROR, x)
          | Some c =>
              let '(tag, c) := umac_final wide (umac_update wide c data) (POKE_U64 seqno) in
              (Ok (write_at 0 tag um), mk_macx (mx x) (mx_hmac x) (Some c))
          end in
        if mac_type (mx x) =? SSH_UMAC then sum false
        else if mac_type (mx x) =? SSH_UMAC128 then sum true
        else fail SSH_ERR_INVALID_ARGUMENT in
    ret (ztake (if mac_mac_len (mx x) <? dlen then mac_mac_len (mx x) else dlen) u).

Definition mac_clear : M macx unit := fun x => (Ok tt, mk_macx (mx x) None None).

(** ** Specification *)

Context {EVS : EvpSpec EV} {UMS : UmacSpec UM}.

(** The MAC of a packet. *)
Definition mac_value (x : macx) (key : bytes) (seqno : Z) (data : bytes) : bytes :=
  let m := mx x in
  ztake (mac_mac_len m)
    (if mac_type m =? SSH_DIGEST then
       match mx_hmac x with
       | Some h => HMAC (h_alg h) key (be_bytes 4 seqno ++ data)
       | None => []
       end
     else umac (mac_type m =? SSH_UMAC128) key data (be_bytes 8 seqno)).

(** A MAC that has been given [key]. *)
Definition mac_ready (x : macx) (key : bytes) : Prop :=
  let m := mx x in
  0 <= mac_mac_len m /\
  ((mac_type m = SSH_DIGEST /\ exists h, mx_hmac x = Some h /\ keyed (h_alg h) key h /\
      ssh_digest_by_alg (h_alg h) <> None /\ mac_mac_len m <= ssh_digest_bytes (h_alg h)) \/
   (exists (w : bool) c, mac_type m = (if w then SSH_UMAC128 else SSH_UMAC) /\ mx_umac x = Some c /\
      umac_rep w c key [] /\ mac_mac_len m <= umac_bytes w)).

Lemma digest_bytes_max alg : ssh_digest_by_alg alg <> None -> 0 <= ssh_digest_bytes alg <= 64.
Proof. intros Hk. destruct (known_digests alg Hk) as [->|[->|[->|[->|[->| ->]]]]]; vm_compute; split; congruence. Qed.

Lemma HMAC_facts alg key m :
  ssh_digest_by_alg alg <> None -> zlen (HMAC alg key m) = ssh_digest_bytes alg /\ Bytes (HMAC alg key m).
Proof. intros Hk. unfold HMAC. split; [by apply hash_zlen|apply hash_Bytes]. Qed.

Lemma mac_value_facts x key seqno data :
  mac_ready x key -> zlen (mac_value x key seqno data) = mac_mac_len (mx x) /\ Bytes (mac_value x key seqno data).
Proof.
  intros (H0 & [(Ht & h & Eh & _ & Hk & Hl)|(w & c & Ht & _ & _ & Hl)]); unfold mac_value; rewrite Ht.
  - rewrite Z.eqb_refl, Eh. destruct (HMAC_facts (h_alg h) key (be_bytes 4 seqno ++ data) Hk) as [Hz HB].
    split; [apply zlen_ztake; lia|by apply Forall_ztake].
  - assert (((if w then SSH_UMAC128 else SSH_UMAC) =? SSH_DIGEST) = false) as -> by (by destruct w).
    split; [apply zlen_ztake; rewrite umac_zlen; destruct w; cbn in *; lia|apply Forall_ztake, umac_Bytes].
Qed.

Lemma hmac_message_keyed alg key m1 m2 h :
  ssh_digest_by_alg alg <> None -> keyed alg key h ->
  exists h', (ssh_hmac_init None ;;; ssh_hmac_update m1 ;;; ssh_hmac_update m2 ;;;
              ssh_hmac_final SSH_DIGEST_MAX_LENGTH) h = (Ok (HMAC alg key (m1 ++ m2)), h') /\ keyed alg key h'.
Proof.
  intros Hk K. pose proof (digest_bytes_max alg Hk) as Hb.
  destruct (ssh_hmac_init_null _ _ _ K) as (h1 & E1 & H1).
  destruct (ssh_hmac_update_hashing _ _ _ m1 _ H1) as (h2 & E2 & H2).
  destruct (ssh_hmac_update_hashing _ _ _ m2 _ H2) as (h3 & E3 & H3).
  destruct (ssh_hmac_final_hashing alg key (m1 ++ m2) h3 SSH_DIGEST_MAX_LENGTH Hk) as (h4 & E4 & K4);
    [unfold SSH_DIGEST_MAX_LENGTH, UINT_MAX; lia|done|].
  exists h4. split; [|done]. unfold bind. by rewrite E1, E2, E3, E4.
Qed.

(** Every call computes the MAC of its packet, and leaves the context ready. *)
Lemma mac_compute_spec um x key seqno data dlen :
  mac_ready x key -> in_range 32 seqno -> zlen um = SSH_DIGEST_MAX_LENGTH -> mac_mac_len (mx x) <= dlen ->
  exists x', mac_compute um seqno data dlen x = (Ok (mac_value x key seqno data), x') /\
    mac_ready x' key /\ mx x' = mx x /\ (forall s d, mac_value x' key s d = mac_value x key s d).
Proof.
  intros (H0 & Hr) Hs Hum Hd. unfold SSH_DIGEST_MAX_LENGTH in Hum.
  assert (Hw : forall t, zlen t <= 64 -> mac_mac_len (mx x) <= zlen t ->
    ztake (if mac_mac_len (mx x) <? dlen then mac_mac_len (mx x) else dlen) (write_at 0 t um) =
    ztake (mac_mac_len (mx x)) t).
  { intros t Ht Hl. unfold write_at. rewrite ztake_0. cbn [app].
    replace (if mac_mac_len (mx x) <? dlen then mac_mac_len (mx x) else dlen) with (mac_mac_len (mx x))
      by (destruct (Z.ltb_spec (mac_mac_len (mx x)) dlen); lia).
    apply ztake_app_le. lia. }
  unfold mac_compute, bind, get_state, ret.
  destruct Hr as [(Ht & h & Eh & K & Hk & Hl)|(w & c & Ht & Ec & R & Hl)].
  - pose proof (digest_bytes_max _ Hk) as Hb. unfold SSH_DIGEST_MAX_LENGTH at 1.
    destruct (Z.ltb_spec 64 (mac_mac_len (mx x))); [lia|]. rewrite Ht, Z.eqb_refl. unfold on_hmac. rewrite Eh.
    destruct (hmac_message_keyed _ _ (be_bytes 4 seqno) data h Hk K) as (h' & E & K'). unfold bind in E.
    rewrite E. exists (mk_macx (mx x) (Some h') (mx_umac x)). split; [|split; [|split; [done|]]].
    + destruct (HMAC_facts (h_alg h) key (be_bytes 4 seqno ++ data) Hk) as [Hz _].
      rewrite Hw by lia. unfold mac_value. by rewrite Ht, Z.eqb_refl, Eh.
    + split; [done|]. left. split; [done|]. exists h'. assert (Ha := keyed_alg _ _ _ K').
      split_and!; [done|by rewrite Ha|by rewrite Ha|cbn; by rewrite Ha].
    + intros s d. unfold mac_value. cbn. rewrite Ht, Z.eqb_refl, Eh. by rewrite (keyed_alg _ _ _ K').
  - assert (Hb : umac_bytes w <= 16) by (by destruct w).
    unfold SSH_DIGEST_MAX_LENGTH. destruct (Z.ltb_spec 64 (mac_mac_len (mx x))); [lia|]. rewrite Ht.
    assert (Hnd : ((if w then SSH_UMAC128 else SSH_UMAC) =? SSH_DIGEST) = false) by (by destruct w). rewrite Hnd.
    destruct (umac_final_rep w _ key _ (POKE_U64 seqno) (umac_update_rep w c key [] data R)) as [Ef Rf].
    assert (Hpk : POKE_U64 seqno = be_bytes 8 seqno)
      by (rewrite POKE_U64_be, wrap_small by (unfold in_range in Hs; lia); done).
    rewrite Hpk in Ef.
    exists (mk_macx (mx x) (mx_hmac x) (Some (snd (umac_final w (umac_update w c data) (POKE_U64 seqno))))).
    split; [|split; [|split; [done|]]].
    + assert (E : forall w', w' = w ->
        (match mx_umac x with
          | None => (Err SSH_ERR_LIBCRYPTO_ERROR, x)
          | Some c =>
              let '(tag, c) := umac_final w' (umac_update w' c data) (POKE_U64 seqno) in
              (Ok (write_at 0 tag um), mk_macx (mx x) (mx_hmac x) (Some c))
          end) = (Ok (write_at 0 (umac w key data (be_bytes 8 seqno)) um),
                  mk_macx (mx x) (mx_hmac x) (Some (snd (umac_final w (umac_update w c data) (POKE_U64 seqno)))))).
      { intros w' ->. rewrite Ec, Hpk. cbn [app] in Ef. rewrite <- Ef.
        by destruct (umac_final w (umac_update w c data) (be_bytes 8 seqno)). }
      destruct w;
        [change (SSH_UMAC128 =? SSH_UMAC) with false; change (SSH_UMAC128 =? SSH_UMAC128) with true
        |change (SSH_UMAC =? SSH_UMAC) with true]; cbv beta zeta iota; (rewrite E by done);
        (rewrite Hw; [|rewrite umac_zlen; cbn in *; lia|rewrite umac_zlen; cbn in *; lia]);
        unfold mac_value; rewrite Ht; done.
    + split; [done|]. right. by eexists w, _.
    + intros s d. unfold mac_value. cbn. by rewrite Ht, Hnd.
Qed.

(** A MAC as [mac_setup] leaves it, with a key. *)
Definition mac_fresh (x : macx) : Prop :=
  let m := mx x in
  0 <= mac_mac_len m /\
  ((mac_type m = SSH_DIGEST /\ exists h, mx_hmac x = Some h /\ ssh_digest_by_alg (h_alg h) <> None /\
      ssh_hmac_start true (h_alg h) = Some h /\ mac_mac_len m <= ssh_digest_bytes (h_alg h)) \/
   (exists w : bool, mac_type m = (if w then SSH_UMAC128 else SSH_UMAC) /\ mac_mac_len m <= umac_bytes w)).

(** The key that is used: an HMAC takes [key_len] bytes of it. *)
Definition mac_used_key (m : sshmac) (key : bytes) : bytes :=
  if mac_type m =? SSH_DIGEST then ztake (mac_key_len m) key else key.

Lemma mac_init_spec x key :
  mac_fresh x -> mac_key (mx x) = Some key ->
  exists x', mac_init x = (Ok tt, x') /\ mac_ready x' (mac_used_key (mx x) key) /\ mx x' = mx x.
Proof.
  intros (H0 & Hr) Hkey. unfold mac_init, mac_used_key. rewrite Hkey.
  destruct Hr as [(Ht & h & Eh & Hk & Hst & Hl)|(w & Ht & Hl)].
  - rewrite Ht, Z.eqb_refl. unfold on_hmac. rewrite Eh.
    destruct (ssh_hmac_start_fresh (h_alg h) Hk) as (h0 & E0 & Ha & Hi & Ho & Hd & Hb & Hbl).
    rewrite Hst in E0. injection E0 as <-.
    destruct (ssh_hmac_init_key (h_alg h) (ztake (mac_key_len (mx x)) key) h) as (h' & E & K); try done; [apply Hd|].
    rewrite E. eexists. split; [done|]. split; [|done]. split; [done|]. left. split; [done|]. exists h'.
    assert (Ha' := keyed_alg _ _ _ K). split_and!; [done|by rewrite Ha'|by rewrite Ha'|cbn; by rewrite Ha'].
  - destruct (umac_new_rep w key) as (c & E & R). rewrite Ht.
    exists (mk_macx (mx x) (mx_hmac x) (Some c)). split; [|split; [|done]].
    + destruct w;
        [change (SSH_UMAC128 =? SSH_DIGEST) with false; change (SSH_UMAC128 =? SSH_UMAC) with false;
         change (SSH_UMAC128 =? SSH_UMAC128) with true
        |change (SSH_UMAC =? SSH_DIGEST) with false; change (SSH_UMAC =? SSH_UMAC) with true];
        cbv beta zeta iota; by rewrite E.
    + split; [done|]. right. exists w, c. split_and!; try done. by destruct w.
Qed.
End mac.

(** ** An instance *)

#[export] Instance toy_umac : Umac := {
  umac_ctx := bytes * bytes;
  umac_new w key := Some (key, []);
  umac_update w c v := (fst c, snd c ++ v);
  umac_final w c n := (zrep (umac_bytes w) (u8 (fold_right Z.add 0 (fst c ++ snd c ++ n))), (fst c, []))
}.

#[export] Instance toy_umac_spec : UmacSpec toy_umac.
Proof.
  refine {| umac := fun w key m n => zrep (umac_bytes w) (u8 (fold_right Z.add 0 (key ++ m ++ n)));
            umac_rep := fun w (c : @umac_ctx toy_umac) key m => c = (key, m) |}.
  - intros w *. rewrite zlen_zrep; [done|]. by destruct w.
  - intros. by apply Bytes_zrep, wrap_range.
  - intros. by eexists.
  - by intros w c key m v ->.
  - by intros w c key m n ->.
Defined.
