(* ===== verification/Packet.v ===== *)
(** The packet layer: the binary packet protocol of SSH 2 in packet.c.

    A packet is built in [outgoing_packet], sealed into [output] by
    [ssh_packet_send2] and opened from [input] into [incoming_packet] by
    [ssh_packet_read_poll2].  The fields that packet.c has once per direction
    are a record [dir], so that [newkeys[mode]], [p_send]/[p_read] and the like
    are the fields of [s_out] and [s_in].  Of [struct kex] the layer uses the
    fields of [pkex].

    The parameters are the environment [env] (allocator, random numbers, clock,
    the unspecified contents of static and local buffers), zlib, OpenSSL and
    UMAC through their interfaces, and [write_wait], which writes [output] to
    the socket.  Logging is not modelled. *)

From S2P Require Import Prelude Wire Sshbuf SshbufGetput SshbufSpec CString Algs Chacha ChachaPoly.
From S2P Require Import Ssh2 Digest Kex Cipher Mac.

(** ** Constants *)

Definition PACKET_MAX_SIZE : Z := 256 * 1024.
Definition MAX_PACKETS : Z := 2 ^ 31.
Definition SSH_BUG_NOREKEY : Z := 0x8000.

Definition SSH_ERR_NEED_REKEY : Z := -39.
Definition SSH_ERR_CONN_CORRUPT : Z := -54.
Definition SSH_ERR_PROTOCOL_ERROR : Z := -55.

(** ** zlib *)

Definition Z_OK : Z := 0.
Definition Z_DATA_ERROR : Z := -3.
Definition Z_MEM_ERROR : Z := -4.
Definition Z_BUF_ERROR : Z := -5.

(** A step takes the input that is left and the room for output, and gives the
    status, the output, the input that is left then and the stream. *)
Class Zlib : Type := {
  zstream : Type;
  deflateInit : zstream -> Z -> Z * zstream;
  inflateInit : zstream -> Z * zstream;
  deflate : zstream -> bytes -> Z -> Z * bytes * bytes * zstream;
  inflate : zstream -> bytes -> Z -> Z * bytes * bytes * zstream
}.

Record packet_state : Type := mk_ps { ps_seqnr : Z; ps_packets : Z; ps_blocks : Z; ps_bytes : Z }.

Record env : Type := mk_env {
  e_alloc : allocator;
  e_tmp : bytes;
  e_um : bytes;
  e_random : Z -> Z;
  e_now : Z
}.

(** An operation on a part of the state. *)
Definition focus {T S A} (get : T -> S) (set : S -> T -> T) (m : M S A) : M T A := fun x =>
  let '(r, s) := m (get x) in (r, set s x).
Definition update {T} (f : T -> T) : M T unit := fun x => (Ok tt, f x).
Definition when (b : bool) {S} (m : M S unit) : M S unit := if b then m else ret tt.

Section packet.
Context {EV : Evp} {UM : Umac} {EC : EvpCipher} {ZL : Zlib}.

(** ** State *)

(** [struct newkeys]. *)
Record keys : Type := mk_keys { ky_enc : sshenc; ky_mac : macx; ky_comp : sshcomp }.

Record dir : Type := mk_dir {
  d_cc : sshcipher_ctx;
  d_newkeys : option keys;
  d_ps : packet_state;
  d_max_blocks : Z;
  d_raw : sshbuf;
  d_pkt : sshbuf;
  d_zs : zstream;
  d_zstarted : Z;
  d_zfail : Z
}.
Definition set_d_cc (v : sshcipher_ctx) (x : dir) : dir :=
  mk_dir v (d_newkeys x) (d_ps x) (d_max_blocks x) (d_raw x) (d_pkt x) (d_zs x) (d_zstarted x) (d_zfail x).
Definition set_d_newkeys (v : option keys) (x : dir) : dir :=
  mk_dir (d_cc x) v (d_ps x) (d_max_blocks x) (d_raw x) (d_pkt x) (d_zs x) (d_zstarted x) (d_zfail x).
Definition set_d_ps (v : packet_state) (x : dir) : dir :=
  mk_dir (d_cc x) (d_newkeys x) v (d_max_blocks x) (d_raw x) (d_pkt x) (d_zs x) (d_zstarted x) (d_zfail x).
Definition set_d_max_blocks (v : Z) (x : dir) : dir :=
  mk_dir (d_cc x) (d_newkeys x) (d_ps x) v (d_raw x) (d_pkt x) (d_zs x) (d_zstarted x) (d_zfail x).
Definition set_d_raw (v : sshbuf) (x : dir) : dir :=
  mk_dir (d_cc x) (d_newkeys x) (d_ps x) (d_max_blocks x) v (d_pkt x) (d_zs x) (d_zstarted x) (d_zfail x).
Definition set_d_pkt (v : sshbuf) (x : dir) : dir :=
  mk_dir (d_cc x) (d_newkeys x) (d_ps x) (d_max_blocks x) (d_raw x) v (d_zs x) (d_zstarted x) (d_zfail x).
Definition set_d_zs (v : zstream) (x : dir) : dir :=
  mk_dir (d_cc x) (d_newkeys x) (d_ps x) (d_max_blocks x) (d_raw x) (d_pkt x) v (d_zstarted x) (d_zfail x).
Definition set_d_zstarted (v : Z) (x : dir) : dir :=
  mk_dir (d_cc x) (d_newkeys x) (d_ps x) (d_max_blocks x) (d_raw x) (d_pkt x) (d_zs x) v (d_zfail x).
Definition set_d_zfail (v : Z) (x : dir) : dir :=
  mk_dir (d_cc x) (d_newkeys x) (d_ps x) (d_max_blocks x) (d_raw x) (d_pkt x) (d_zs x) (d_zstarted x) v.

(** What packet.c uses of [struct kex]. *)
Record pkex : Type := mk_pkex {
  x_in : option keys;
  x_out : option keys;
  x_done : Z;
  x_flags : Z;
  x_my : sshbuf
}.
Definition set_x_in (v : option keys) (x : pkex) : pkex :=
  mk_pkex v (x_out x) (x_done x) (x_flags x) (x_my x).
Definition set_x_out (v : option keys) (x : pkex) : pkex :=
  mk_pkex (x_in x) v (x_done x) (x_flags x) (x_my x).
Definition set_x_done (v : Z) (x : pkex) : pkex :=
  mk_pkex (x_in x) (x_out x) v (x_flags x) (x_my x).
Definition set_x_flags (v : Z) (x : pkex) : pkex :=
  mk_pkex (x_in x) (x_out x) (x_done x) v (x_my x).
Definition set_x_my (v : sshbuf) (x : pkex) : pkex :=
  mk_pkex (x_in x) (x_out x) (x_done x) (x_flags x) v.

(** [struct session_state], with [kex] and [compat] of [struct ssh]. *)
Record session_state : Type := mk_state {
  s_out : dir;
  s_in : dir;
  s_comp_buf : option sshbuf;
  s_after_authentication : bool;
  s_server_side : bool;
  s_rekeying : bool;
  s_rekey_limit : Z;
  s_rekey_interval : Z;
  s_rekey_time : Z;
  s_extra_pad : Z;
  s_packlen : Z;
  s_discard : Z;
  s_discard_mac : bool;
  s_queue : list (Z * sshbuf);
  s_keep_alive : Z;
  s_maxsize : Z;
  s_maxsize_called : bool;
  s_kex : option pkex;
  s_compat : Z
}.
Definition set_s_out (v : dir) (x : session_state) : session_state :=
  mk_state v (s_in x) (s_comp_buf x) (s_after_authentication x) (s_server_side x) (s_rekeying x)
    (s_rekey_limit x) (s_rekey_interval x) (s_rekey_time x) (s_extra_pad x) (s_packlen x) (s_discard x)
    (s_discard_mac x) (s_queue x) (s_keep_alive x) (s_maxsize x) (s_maxsize_called x) (s_kex x)
    (s_compat x).
Definition set_s_in (v : dir) (x : session_state) : session_state :=
  mk_state (s_out x) v (s_comp_buf x) (s_after_authentication x) (s_server_side x) (s_rekeying x)
    (s_rekey_limit x) (s_rekey_interval x) (s_rekey_time x) (s_extra_pad x) (s_packlen x) (s_discard x)
    (s_discard_mac x) (s_queue x) (s_keep_alive x) (s_maxsize x) (s_maxsize_called x) (s_kex x)
    (s_compat x).
Definition set_s_comp_buf (v : option sshbuf) (x : session_state) : session_state :=
  mk_state (s_out x) (s_in x) v (s_after_authentication x) (s_server_side x) (s_rekeying x)
    (s_rekey_limit x) (s_rekey_interval x) (s_rekey_time x) (s_extra_pad x) (s_packlen x) (s_discard x)
    (s_discard_mac x) (s_queue x) (s_keep_alive x) (s_maxsize x) (s_maxsize_called x) (s_kex x)
    (s_compat x).
Definition set_s_after_authentication (v : bool) (x : session_state) : session_state :=
  mk_state (s_out x) (s_in x) (s_comp_buf x) v (s_server_side x) (s_rekeying x) (s_rekey_limit x)
    (s_rekey_interval x) (s_rekey_time x) (s_extra_pad x) (s_packlen x) (s_discard x) (s_discard_mac x)
    (s_queue x) (s_keep_alive x) (s_maxsize x) (s_maxsize_called x) (s_kex x) (s_compat x).
Definition set_s_server_side (v : bool) (x : session_state) : session_state :=
  mk_state (s_out x) (s_in x) (s_comp_buf x) (s_after_authentication x) v (s_rekeying x) (s_rekey_limit x)
    (s_rekey_interval x) (s_rekey_time x) (s_extra_pad x) (s_packlen x) (s_discard x) (s_discard_mac x)
    (s_queue x) (s_keep_alive x) (s_maxsize x) (s_maxsize_called x) (s_kex x) (s_compat x).
Definition set_s_rekeying (v : bool) (x : session_state) : session_state :=
  mk_state (s_out x) (s_in x) (s_comp_buf x) (s_after_authentication x) (s_server_side x) v
    (s_rekey_limit x) (s_rekey_interval x) (s_rekey_time x) (s_extra_pad x) (s_packlen x) (s_discard x)
    (s_discard_mac x) (s_queue x) (s_keep_alive x) (s_maxsize x) (s_maxsize_called x) (s_kex x)
    (s_compat x).
Definition set_s_rekey_limit (v : Z) (x : session_state) : session_state :=
  mk_state (s_out x) (s_in x) (s_comp_buf x) (s_after_authentication x) (s_server_side x) (s_rekeying x) v
    (s_rekey_interval x) (s_rekey_time x) (s_extra_pad x) (s_packlen x) (s_discard x) (s_discard_mac x)
    (s_queue x) (s_keep_alive x) (s_maxsize x) (s_maxsize_called x) (s_kex x) (s_compat x).
Definition set_s_rekey_interval (v : Z) (x : session_state) : session_state :=
  mk_state (s_out x) (s_in x) (s_comp_buf x) (s_after_authentication x) (s_server_side x) (s_rekeying x)
    (s_rekey_limit x) v (s_rekey_time x) (s_extra_pad x) (s_packlen x) (s_discard x) (s_discard_mac x)
    (s_queue x) (s_keep_alive x) (s_maxsize x) (s_maxsize_called x) (s_kex x) (s_compat x).
Definition set_s_rekey_time (v : Z) (x : session_state) : session_state :=
  mk_state (s_out x) (s_in x) (s_comp_buf x) (s_after_authentication x) (s_server_side x) (s_rekeying x)
    (s_rekey_limit x) (s_rekey_interval x) v (s_extra_pad x) (s_packlen x) (s_discard x) (s_discard_mac x)
    (s_queue x) (s_keep_alive x) (s_maxsize x) (s_maxsize_called x) (s_kex x) (s_compat x).
Definition set_s_extra_pad (v : Z) (x : session_state) : session_state :=
  mk_state (s_out x) (s_in x) (s_comp_buf x) (s_after_authentication x) (s_server_side x) (s_rekeying x)
    (s_rekey_limit x) (s_rekey_interval x) (s_rekey_time x) v (s_packlen x) (s_discard x)
    (s_discard_mac x) (s_queue x) (s_keep_alive x) (s_maxsize x) (s_maxsize_called x) (s_kex x)
    (s_compat x).
Definition set_s_packlen (v : Z) (x : session_state) : session_state :=
  mk_state (s_out x) (s_in x) (s_comp_buf x) (s_after_authentication x) (s_server_side x) (s_rekeying x)
    (s_rekey_limit x) (s_rekey_interval x) (s_rekey_time x) (s_extra_pad x) v (s_discard x)
    (s_discard_mac x) (s_queue x) (s_keep_alive x) (s_maxsize x) (s_maxsize_called x) (s_kex x)
    (s_compat x).
Definition set_s_discard (v : Z) (x : session_state) : session_state :=
  mk_state (s_out x) (s_in x) (s_comp_buf x) (s_after_authentication x) (s_server_side x) (s_rekeying x)
    (s_rekey_limit x) (s_rekey_interval x) (s_rekey_time x) (s_extra_pad x) (s_packlen x) v
    (s_discard_mac x) (s_queue x) (s_keep_alive x) (s_maxsize x) (s_maxsize_called x) (s_kex x)
    (s_compat x).
Definition set_s_discard_mac (v : bool) (x : session_state) : session_state :=
  mk_state (s_out x) (s_in x) (s_comp_buf x) (s_after_authentication x) (s_server_side x) (s_rekeying x)
    (s_rekey_limit x) (s_rekey_interval x) (s_rekey_time x) (s_extra_pad x) (s_packlen x) (s_discard x) v
    (s_queue x) (s_keep_alive x) (s_maxsize x) (s_maxsize_called x) (s_kex x) (s_compat x).
Definition set_s_queue (v : list (Z * sshbuf)) (x : session_state) : session_state :=
  mk_state (s_out x) (s_in x) (s_comp_buf x) (s_after_authentication x) (s_server_side x) (s_rekeying x)
    (s_rekey_limit x) (s_rekey_interval x) (s_rekey_time x) (s_extra_pad x) (s_packlen x) (s_discard x)
    (s_discard_mac x) v (s_keep_alive x) (s_maxsize x) (s_maxsize_called x) (s_kex x) (s_compat x).
Definition set_s_keep_alive (v : Z) (x : session_state) : session_state :=
  mk_state (s_out x) (s_in x) (s_comp_buf x) (s_after_authentication x) (s_server_side x) (s_rekeying x)
    (s_rekey_limit x) (s_rekey_interval x) (s_rekey_time x) (s_extra_pad x) (s_packlen x) (s_discard x)
    (s_discard_mac x) (s_queue x) v (s_maxsize x) (s_maxsize_called x) (s_kex x) (s_compat x).
Definition set_s_maxsize (v : Z) (x : session_state) : session_state :=
  mk_state (s_out x) (s_in x) (s_comp_buf x) (s_after_authentication x) (s_server_side x) (s_rekeying x)
    (s_rekey_limit x) (s_rekey_interval x) (s_rekey_time x) (s_extra_pad x) (s_packlen x) (s_discard x)
    (s_discard_mac x) (s_queue x) (s_keep_alive x) v (s_maxsize_called x) (s_kex x) (s_compat x).
Definition set_s_maxsize_called (v : bool) (x : session_state) : session_state :=
  mk_state (s_out x) (s_in x) (s_comp_buf x) (s_after_authentication x) (s_server_side x) (s_rekeying x)
    (s_rekey_limit x) (s_rekey_interval x) (s_rekey_time x) (s_extra_pad x) (s_packlen x) (s_discard x)
    (s_discard_mac x) (s_queue x) (s_keep_alive x) (s_maxsize x) v (s_kex x) (s_compat x).
Definition set_s_kex (v : option pkex) (x : session_state) : session_state :=
  mk_state (s_out x) (s_in x) (s_comp_buf x) (s_after_authentication x) (s_server_side x) (s_rekeying x)
    (s_rekey_limit x) (s_rekey_interval x) (s_rekey_time x) (s_extra_pad x) (s_packlen x) (s_discard x)
    (s_discard_mac x) (s_queue x) (s_keep_alive x) (s_maxsize x) (s_maxsize_called x) v (s_compat x).
Definition set_s_compat (v : Z) (x : session_state) : session_state :=
  mk_state (s_out x) (s_in x) (s_comp_buf x) (s_after_authentication x) (s_server_side x) (s_rekeying x)
    (s_rekey_limit x) (s_rekey_interval x) (s_rekey_time x) (s_extra_pad x) (s_packlen x) (s_discard x)
    (s_discard_mac x) (s_queue x) (s_keep_alive x) (s_maxsize x) (s_maxsize_called x) (s_kex x) v.
Definition on_cc {A} (m : M sshcipher_ctx A) : M dir A := focus d_cc set_d_cc m.
Definition on_raw {A} (m : M sshbuf A) : M dir A := focus d_raw set_d_raw m.
Definition on_pkt {A} (m : M sshbuf A) : M dir A := focus d_pkt set_d_pkt m.
Definition on_ps (f : packet_state -> packet_state) : M dir unit := update (fun d => set_d_ps (f (d_ps d)) d).
Definition on_keys {A} (m : M keys A) : M dir A := fun d =>
  match d_newkeys d with
  | None => (Err SSH_ERR_INTERNAL_ERROR, d)
  | Some k => let '(r, k) := m k in (r, set_d_newkeys (Some k) d)
  end.
Definition on_mac {A} (m : M macx A) : M keys A := fun k =>
  let '(r, x) := m (ky_mac k) in (r, mk_keys (ky_enc k) x (ky_comp k)).

(** [true] is MODE_OUT. *)
Definition get_dir (out : bool) (s : session_state) : dir := if out then s_out s else s_in s.
Definition set_dir (out : bool) (d : dir) (s : session_state) : session_state :=
  if out then set_s_out d s else set_s_in d s.
Definition on_dir {A} (out : bool) (m : M dir A) : M session_state A := focus (get_dir out) (set_dir out) m.
Definition on_out {A} (m : M dir A) : M session_state A := on_dir true m.
Definition on_in {A} (m : M dir A) : M session_state A := on_dir false m.

(** The settings both directions read from [newkeys[mode]]. *)
Definition authlen_of (k : option keys) : Z :=
  match k with
  | Some k => match enc_cipher (ky_enc k) with Some c => cipher_authlen c | None => 0 end
  | None => 0
  end.
(** [mac && mac->enabled], and also [mac->etm]: there is no MAC with
    authenticated encryption. *)
Definition mac_on (k : option keys) : bool :=
  match k with
  | Some k' => (authlen_of k =? 0) && negb (mac_enabled (mx (ky_mac k')) =? 0)
  | None => false
  end.
Definition etm_on (k : option keys) : bool :=
  mac_on k && match k with Some k => negb (mac_etm (mx (ky_mac k)) =? 0) | None => false end.
Definition mac_len_of (k : option keys) : Z :=
  match k with Some k => mac_mac_len (mx (ky_mac k)) | None => 0 end.
Definition block_of (k : option keys) : Z :=
  match k with Some k => enc_block_size (ky_enc k) | None => 8 end.
Definition comp_on (k : option keys) : bool :=
  match k with Some k => negb (comp_enabled (ky_comp k) =? 0) | None => false end.
Definition aadlen_of (k : option keys) : Z :=
  if etm_on k || negb (authlen_of k =? 0) then 4 else 0.

Section operations.
Context (E : env) (write_wait : M session_state unit).

Definition A : allocator := e_alloc E.
Definition arc4random_bytes (n : Z) : bytes := (fun i => u8 (e_random E i)) <$> seqZ 0 n.

(** ** Compression *)

Definition ssh_packet_init_compression : M session_state unit := fun s =>
  match s_comp_buf s with
  | Some _ => (Ok tt, s)
  | None => match sshbuf_new A with
            | None => (Err SSH_ERR_ALLOC_FAIL, s)
            | Some b => (Ok tt, set_s_comp_buf (Some b) s)
            end
  end.

(** What is done with the answer of [deflateInit] and [inflateInit]. *)
Definition start_stream (answer : Z * zstream) (d : dir) : result unit * dir :=
  let '(status, z) := answer in
  let d := set_d_zs z d in
  if status =? Z_OK then (Ok tt, set_d_zstarted 1 d)
  else (Err (if status =? Z_MEM_ERROR then SSH_ERR_ALLOC_FAIL else SSH_ERR_INTERNAL_ERROR), d).
Definition start_compression_out (level : Z) : M session_state unit :=
  if (level <? 1) || (9 <? level) then fail SSH_ERR_INVALID_ARGUMENT
  else on_out (fun d => start_stream (deflateInit (d_zs d) level) d).
Definition start_compression_in : M session_state unit :=
  on_in (fun d => start_stream (inflateInit (d_zs d)) d).

(** The buffers are of 4096 bytes.  Every round but the last fills one, which
    [out] has no room for more than SSHBUF_SIZE_MAX / 4096 times. *)
Fixpoint deflate_loop (fuel : nat) (next_in : bytes) : M (dir * sshbuf) unit := fun '(d, out) =>
  match fuel with
  | O => (Err SSH_ERR_INTERNAL_ERROR, (d, out))
  | S fuel =>
      let '(status, buf, next_in, z) := deflate (d_zs d) next_in 4096 in
      let d := set_d_zs z d in
      if status =? Z_MEM_ERROR then (Err SSH_ERR_ALLOC_FAIL, (d, out))
      else if status =? Z_OK then
        match sshbuf_put A buf (zlen buf) out with
        | (Err r, out) => (Err r, (d, out))
        | (Ok _, out) => if zlen buf =? 4096 then deflate_loop fuel next_in (d, out) else (Ok tt, (d, out))
        end
      else (Err SSH_ERR_INVALID_FORMAT, (set_d_zfail (d_zfail d + 1) d, out))
  end.
Definition compress_buffer (inb : sshbuf) : M (dir * sshbuf) unit := fun '(d, out) =>
  if negb (d_zstarted d =? 1) then (Err SSH_ERR_INTERNAL_ERROR, (d, out))
  else if sshbuf_len inb =? 0 then (Ok tt, (d, out))
  else match sshbuf_mutable_ptr inb with
       | None => (Err SSH_ERR_INTERNAL_ERROR, (d, out))
       | Some _ => deflate_loop (Z.to_nat (SSHBUF_SIZE_MAX / 4096 + 2)) (ztake (sshbuf_len inb) (ptr_of inb)) (d, out)
       end.

(** [inflate] returns Z_BUF_ERROR when it can make no progress, so each round
    but the last consumes input or fills [out]. *)
Fixpoint inflate_loop (fuel : nat) (next_in : bytes) : M (dir * sshbuf) unit := fun '(d, out) =>
  match fuel with
  | O => (Err SSH_ERR_INTERNAL_ERROR, (d, out))
  | S fuel =>
      let '(status, buf, next_in, z) := inflate (d_zs d) next_in 4096 in
      let d := set_d_zs z d in
      if status =? Z_OK then
        match sshbuf_put A buf (zlen buf) out with
        | (Err r, out) => (Err r, (d, out))
        | (Ok _, out) => inflate_loop fuel next_in (d, out)
        end
      else if status =? Z_BUF_ERROR then (Ok tt, (d, out))
      else if status =? Z_DATA_ERROR then (Err SSH_ERR_INVALID_FORMAT, (d, out))
      else if status =? Z_MEM_ERROR then (Err SSH_ERR_ALLOC_FAIL, (d, out))
      else (Err SSH_ERR_INTERNAL_ERROR, (set_d_zfail (d_zfail d + 1) d, out))
  end.
Definition uncompress_buffer (inb : sshbuf) : M (dir * sshbuf) unit := fun '(d, out) =>
  if negb (d_zstarted d =? 1) then (Err SSH_ERR_INTERNAL_ERROR, (d, out))
  else match sshbuf_mutable_ptr inb with
       | None => (Err SSH_ERR_INTERNAL_ERROR, (d, out))
       | Some _ =>
           inflate_loop (Z.to_nat (SSHBUF_SIZE_MAX + sshbuf_len inb + 2)) (ztake (sshbuf_len inb) (ptr_of inb))
             (d, out)
       end.

(** The packet of a direction through the compression buffer, which is reset
    first; [prefix] writes what is put in front of the result. *)
Definition through_comp_buf (out : bool) (f : sshbuf -> M (dir * sshbuf) unit) (prefix : M sshbuf unit)
    : M session_state unit := fun s =>
  match s_comp_buf s with
  | None => (Err SSH_ERR_INTERNAL_ERROR, s)
  | Some cb =>
      let d := get_dir out s in
      let '(r, (d, cb)) := f (d_pkt d) (d, sshbuf_reset A cb) in
      let s := set_s_comp_buf (Some cb) (set_dir out d s) in
      match r with
      | Err r => (Err r, s)
      | Ok _ =>
          on_dir out (on_pkt (update (sshbuf_reset A) ;;; prefix ;;; sshbuf_putb A cb)) s
      end
  end.

(** ** Keys *)

Definition set_packets_blocks (ps : packet_state) : packet_state := mk_ps (ps_seqnr ps) 0 0 (ps_bytes ps).

Definition enable_compression (out : bool) : M session_state unit :=
  ssh_packet_init_compression ;;;
  (if out then start_compression_out 6 else start_compression_in) ;;;
  on_dir out (on_keys (update (fun k =>
    mk_keys (ky_enc k) (ky_mac k) (mk_comp (comp_type (ky_comp k)) 1 (comp_name (ky_comp k)))))).

Definition enable_mac (x : macx) : macx :=
  let m := mx x in
  mk_macx (mk_mac (mac_name m) 1 (mac_mac_len m) (mac_key m) (mac_key_len m) (mac_type m) (mac_etm m))
    (mx_hmac x) (mx_umac x).

(** The old keys are wiped and freed. *)
Definition ssh_set_newkeys (out : bool) : M session_state unit :=
  on_dir out (on_ps set_packets_blocks) ;;;
  let! s := get_state in
  (match d_newkeys (get_dir out s) with
   | Some _ => lift (cipher_cleanup (d_cc (get_dir out s)))
   | None => ret tt
   end) ;;;
  match s_kex s with
  | None => fail SSH_ERR_INTERNAL_ERROR
  | Some k =>
      let nk := if out then x_out k else x_in k in
      on_dir out (update (set_d_newkeys nk)) ;;;
      match nk with
      | None => fail SSH_ERR_INTERNAL_ERROR
      | Some nk =>
          update (set_s_kex (Some (if out then set_x_out None k else set_x_in None k))) ;;;
          when (authlen_of (Some nk) =? 0) (on_dir out (on_keys (on_mac mac_init))) ;;;
          on_dir out (on_keys (on_mac (update enable_mac))) ;;;
          let enc := ky_enc nk in
          (match enc_cipher enc with
           | None => fail SSH_ERR_INTERNAL_ERROR
           | Some c =>
               on_dir out (on_cc (cipher_init A c (default [] (enc_key enc)) (enc_key_len enc) (enc_iv enc)
                                    (enc_iv_len enc) (if out then CIPHER_ENCRYPT else CIPHER_DECRYPT)))
           end) ;;;
          let comp := ky_comp nk in
          when (((comp_type comp =? COMP_ZLIB) ||
                 ((comp_type comp =? COMP_DELAYED) && s_after_authentication s)) && (comp_enabled comp =? 0))
            (enable_compression out) ;;;
          let max := if 16 <=? enc_block_size enc then u64 (Z.shiftl 1 (enc_block_size enc * 2))
                     else 2 ^ 30 / enc_block_size enc in
          let limit := s_rekey_limit s / enc_block_size enc in
          on_dir out (update (set_d_max_blocks
            (if negb (s_rekey_limit s =? 0) then (if max <? limit then max else limit) else max)))
      end
  end.

Definition ssh_packet_is_rekeying (s : session_state) : bool :=
  s_rekeying s || match s_kex s with Some k => x_done k =? 0 | None => false end.

(** [roundup] at the width of a [u_int]. *)
Definition roundup32 (x y : Z) : Z := u32 (u32 (x + (y - 1)) / y * y).

Definition ssh_packet_need_rekeying (s : session_state) (outbound_packet_len : Z) : bool :=
  match s_kex s with
  | None => false
  | Some _ =>
      let o := s_out s in
      let i := s_in s in
      if negb (s_after_authentication s) then false
      else if ssh_packet_is_rekeying s then false
      else if negb (Z.land (s_compat s) SSH_BUG_NOREKEY =? 0) then false
      else if (ps_packets (d_ps o) =? 0) && (ps_packets (d_ps i) =? 0) then false
      else if negb (s_rekey_interval s =? 0) && (s_rekey_time s + s_rekey_interval s <=? e_now E) then true
      else if (MAX_PACKETS <? ps_packets (d_ps o)) || (MAX_PACKETS <? ps_packets (d_ps i)) then true
      else
        let out_blocks := roundup32 outbound_packet_len (block_of (d_newkeys o)) in
        (negb (d_max_blocks o =? 0) && (d_max_blocks o <? u64 (ps_blocks (d_ps o) + out_blocks))) ||
        (negb (d_max_blocks i =? 0) && (d_max_blocks i <? ps_blocks (d_ps i)))
  end.

Definition enable_delayed (out : bool) : M session_state unit := fun s =>
  match d_newkeys (get_dir out s) with
  | None => (Ok tt, s)
  | Some k =>
      when ((comp_enabled (ky_comp k) =? 0) && (comp_type (ky_comp k) =? COMP_DELAYED))
        (enable_compression out) s
  end.
Definition ssh_packet_enable_delayed_compress : M session_state unit :=
  update (set_s_after_authentication true) ;;; enable_delayed false ;;; enable_delayed true.

(** ** Sending *)

Definition ssh_packet_type_is_kex (type : Z) : bool :=
  (SSH2_MSG_TRANSPORT_MIN <=? type) && (type <=? SSH2_MSG_TRANSPORT_MAX) &&
  negb (type =? SSH2_MSG_SERVICE_REQUEST) && negb (type =? SSH2_MSG_SERVICE_ACCEPT) &&
  negb (type =? SSH2_MSG_EXT_INFO).

(** The padding of a packet of which [len] bytes are to be encrypted, and the
    new [extra_pad]. *)
Definition padlen_of (len block_size extra_pad : Z) : Z :=
  let padlen := u8 (block_size - len mod block_size) in
  let padlen := if padlen <? 4 then u8 (padlen + block_size) else padlen in
  if negb (extra_pad =? 0) then
    let extra_pad := u8 (roundup32 extra_pad block_size) in
    let pad := u8 (extra_pad - u32 (len + padlen) mod extra_pad) in
    u8 (padlen + pad)
  else padlen.

(** The length fields and the padding, which [pad] writes. *)
Definition finish_plaintext (padlen : Z) (pad : bytes) : M sshbuf unit :=
  let! p := sshbuf_reserve A padlen in
  store p pad ;;;
  let! b := get_state in
  match sshbuf_mutable_ptr b with
  | None => fail SSH_ERR_INTERNAL_ERROR
  | Some cp =>
      store cp (POKE_U32 (u32 (sshbuf_len b - 4))) ;;;
      store (cp + 4) [padlen]
  end.

(** [cipher_crypt] from the packet into [output], [cp] being where room has been
    reserved; what is written there is the result. *)
Definition encrypt_packet (cp len aadlen authlen : Z) : M dir bytes := fun d =>
  let b := d_raw d in
  let '(r, (cc, dest)) :=
    cipher_crypt (e_tmp E) (ps_seqnr (d_ps d)) (ptr_of (d_pkt d)) (u32 (len - aadlen)) aadlen authlen
      (d_cc d, zdrop cp (b_mem b)) in
  let d := set_d_cc cc (set_d_raw (set_mem (write_at cp dest (b_mem b)) b) d) in
  match r with Ok _ => (Ok dest, d) | Err e => (Err e, d) end.

Definition compute_mac (seqnr : Z) (data : bytes) : M dir bytes :=
  on_keys (on_mac (mac_compute (e_um E) seqnr data SSH_DIGEST_MAX_LENGTH)).

Definition count_packet (len block_size : Z) (ps : packet_state) : packet_state :=
  mk_ps (ps_seqnr ps) (ps_packets ps) (u64 (ps_blocks ps + len / block_size)) (u64 (ps_bytes ps + len)).
Definition next_packet (ps : packet_state) : packet_state :=
  mk_ps (u32 (ps_seqnr ps + 1)) (u32 (ps_packets ps + 1)) (ps_blocks ps) (ps_bytes ps).

(** From the padding to the counters: what [ssh_packet_send2_wrapped] does to
    the sending direction. *)
Definition seal_packet (norekey : bool) (extra_pad : Z) : M dir unit :=
  let! d := get_state in
  let k := d_newkeys d in
  let authlen := authlen_of k in
  let aadlen := aadlen_of k in
  let block_size := block_of k in
  let len := u32 (u32 (sshbuf_len (d_pkt d)) - aadlen) in
  let padlen := padlen_of len block_size extra_pad in
  let pad := if negb (bool_decide (k = None)) && negb (cc_plaintext (d_cc d)) then arc4random_bytes padlen
             else zrep padlen 0 in
  on_pkt (finish_plaintext padlen pad) ;;;
  let! d := get_state in
  let len := u32 (sshbuf_len (d_pkt d)) in
  let! macbuf :=
    if mac_on k && negb (etm_on k) then compute_mac (ps_seqnr (d_ps d)) (ztake len (ptr_of (d_pkt d)))
    else ret [] in
  let! cp := on_raw (sshbuf_reserve A (u64 (sshbuf_len (d_pkt d) + authlen))) in
  let! dest := encrypt_packet cp len aadlen authlen in
  when (mac_on k)
    (let! macbuf := if etm_on k then compute_mac (ps_seqnr (d_ps d)) (ztake len dest) else ret macbuf in
     on_raw (sshbuf_put A macbuf (mac_len_of k))) ;;;
  on_ps next_packet ;;;
  let! d := get_state in
  if (ps_packets (d_ps d) =? 0) && negb norekey then fail SSH_ERR_NEED_REKEY
  else on_ps (count_packet len block_size) ;;; on_pkt (update (sshbuf_reset A)).

Definition norekey_of (s : session_state) : bool := negb (Z.land (s_compat s) SSH_BUG_NOREKEY =? 0).

Definition ssh_packet_send2_wrapped : M session_state unit :=
  let! s := get_state in
  let type := byte_at (ptr_of (d_pkt (s_out s))) 5 in
  when (comp_on (d_newkeys (s_out s)))
    (on_out (on_pkt (sshbuf_consume 5)) ;;;
     through_comp_buf true compress_buffer (sshbuf_put A (zrep 5 0) 5)) ;;;
  update (set_s_extra_pad 0) ;;;
  on_out (seal_packet (norekey_of s) (s_extra_pad s)) ;;;
  if type =? SSH2_MSG_NEWKEYS then ssh_set_newkeys true
  else if (type =? SSH2_MSG_USERAUTH_SUCCESS) && s_server_side s then ssh_packet_enable_delayed_compress
  else ret tt.

(** The packets that were held back, after NEWKEYS. *)
Fixpoint send_queue (rekex : M session_state unit) (todo : nat) : M session_state unit :=
  match todo with
  | O => ret tt
  | S todo => fun s =>
      match s_queue s with
      | [] => (Ok tt, s)
      | (_, payload) :: queue =>
          if ssh_packet_need_rekeying s (sshbuf_len payload) then rekex s
          else
            (ssh_packet_send2_wrapped ;;; send_queue rekex todo)
              (set_s_queue queue (set_dir true (set_d_pkt payload (s_out s)) s))
      end
  end.

(** [rekex] is [kex_start_rekex]. *)
Definition send2_with (rekex : M session_state unit) : M session_state unit :=
  let! s := get_state in
  let pkt := d_pkt (s_out s) in
  if sshbuf_len pkt <? 6 then fail SSH_ERR_INTERNAL_ERROR
  else
    let type := byte_at (ptr_of pkt) 5 in
    let is_kex := ssh_packet_type_is_kex type in
    let need_rekey := negb is_kex && ssh_packet_need_rekeying s (u32 (sshbuf_len pkt)) in
    if (need_rekey || s_rekeying s) && negb is_kex then
      match A 32 with
      | None => fail SSH_ERR_ALLOC_FAIL
      | Some _ =>
          update (set_s_queue (s_queue s ++ [(type, pkt)])) ;;;
          match sshbuf_new A with
          | None => fail SSH_ERR_ALLOC_FAIL
          | Some b =>
              on_out (update (set_d_pkt b)) ;;;
              if need_rekey then rekex else ret tt
          end
      end
    else
      when (type =? SSH2_MSG_KEXINIT) (update (set_s_rekeying true)) ;;;
      ssh_packet_send2_wrapped ;;;
      if type =? SSH2_MSG_NEWKEYS then
        update (set_s_rekeying false) ;;;
        update (set_s_rekey_time (e_now E)) ;;;
        let! s := get_state in
        send_queue rekex (S (length (s_queue s)))
      else ret tt.

Definition sshpkt_start (type : Z) : M session_state unit :=
  on_out (on_pkt (update (sshbuf_reset A) ;;; sshbuf_put A [0; 0; 0; 0; 0; type] 6)).

(** The key exchange that a packet triggers: its KEXINIT goes through
    [ssh_packet_send2] again, and there triggers nothing more. *)
Definition kex_send_kexinit_with (send : M session_state unit) : M session_state unit :=
  let! s := get_state in
  match s_kex s with
  | None => fail SSH_ERR_INTERNAL_ERROR
  | Some k =>
      if negb (Z.land (x_flags k) KEX_INIT_SENT =? 0) then ret tt
      else
        let k := set_x_done 0 k in
        update (set_s_kex (Some k)) ;;;
        if sshbuf_len (x_my k) <? KEX_COOKIE_LEN then fail SSH_ERR_INVALID_FORMAT
        else match sshbuf_mutable_ptr (x_my k) with
             | None => fail SSH_ERR_INTERNAL_ERROR
             | Some p =>
                 let my := set_mem (write_at p (arc4random_bytes KEX_COOKIE_LEN) (b_mem (x_my k))) (x_my k) in
                 update (set_s_kex (Some (set_x_my my k))) ;;;
                 sshpkt_start SSH2_MSG_KEXINIT ;;;
                 on_out (on_pkt (sshbuf_putb A my)) ;;;
                 send ;;;
                 update (fun s => set_s_kex (match s_kex s with
                                             | Some k => Some (set_x_flags (Z.lor (x_flags k) KEX_INIT_SENT) k)
                                             | None => None
                                             end) s)
             end
  end.
Definition kex_start_rekex_with (send : M session_state unit) : M session_state unit :=
  let! s := get_state in
  match s_kex s with
  | None => fail SSH_ERR_INTERNAL_ERROR
  | Some k =>
      if x_done k =? 0 then fail SSH_ERR_INTERNAL_ERROR
      else update (set_s_kex (Some (set_x_done 0 k))) ;;; kex_send_kexinit_with send
  end.

Fixpoint send2_fuel (fuel : nat) : M session_state unit :=
  match fuel with
  | O => fail SSH_ERR_INTERNAL_ERROR
  | S fuel => send2_with (kex_start_rekex_with (send2_fuel fuel))
  end.
Definition ssh_packet_send2 : M session_state unit := send2_fuel 2.
Definition sshpkt_send : M session_state unit := ssh_packet_send2.
Definition kex_send_kexinit : M session_state unit := kex_send_kexinit_with ssh_packet_send2.
Definition kex_start_rekex : M session_state unit := kex_start_rekex_with ssh_packet_send2.

Definition sshpkt_put (v : bytes) (len : Z) : M session_state unit := on_out (on_pkt (sshbuf_put A v len)).
Definition sshpkt_putb (b : sshbuf) : M session_state unit := on_out (on_pkt (sshbuf_putb A b)).
Definition sshpkt_put_u8 (v : Z) : M session_state unit := on_out (on_pkt (sshbuf_put_u8 A v)).
Definition sshpkt_put_u32 (v : Z) : M session_state unit := on_out (on_pkt (sshbuf_put_u32 A v)).
Definition sshpkt_put_u64 (v : Z) : M session_state unit := on_out (on_pkt (sshbuf_put_u64 A v)).
Definition sshpkt_put_string (v : bytes) (len : Z) : M session_state unit :=
  on_out (on_pkt (sshbuf_put_string A v len)).
Definition sshpkt_put_cstring (v : option bytes) : M session_state unit :=
  on_out (on_pkt (sshbuf_put_cstring A v)).
Definition sshpkt_put_stringb (b : sshbuf) : M session_state unit :=
  on_out (on_pkt (sshbuf_put_stringb A b)).
Definition sshpkt_add_padding (pad : Z) : M session_state unit := update (set_s_extra_pad pad).

(** [msg] is the formatted message. *)
Definition sshpkt_disconnect (msg : bytes) : M session_state unit :=
  sshpkt_start SSH2_MSG_DISCONNECT ;;;
  sshpkt_put_u32 SSH2_DISCONNECT_PROTOCOL_ERROR ;;;
  sshpkt_put_cstring (Some msg) ;;;
  sshpkt_put_cstring (Some []) ;;;
  sshpkt_send.

(** ** Receiving *)

Definition sshpkt_get (len : Z) : M session_state bytes := on_in (on_pkt (sshbuf_get len)).
Definition sshpkt_get_u8 : M session_state Z := on_in (on_pkt sshbuf_get_u8).
Definition sshpkt_get_u32 : M session_state Z := on_in (on_pkt sshbuf_get_u32).
Definition sshpkt_get_u64 : M session_state Z := on_in (on_pkt sshbuf_get_u64).
Definition sshpkt_get_string (valp : bool) : M session_state (option bytes * Z) :=
  on_in (on_pkt (sshbuf_get_string A valp)).
Definition sshpkt_get_string_direct : M session_state (bytes * Z) := on_in (on_pkt sshbuf_get_string_direct).
Definition sshpkt_get_cstring (valp : bool) : M session_state (option bytes * Z) :=
  on_in (on_pkt (sshbuf_get_cstring A valp)).
Definition sshpkt_get_end : M session_state unit :=
  let! s := get_state in
  if 0 <? sshbuf_len (d_pkt (s_in s)) then fail SSH_ERR_UNEXPECTED_TRAILING_DATA else ret tt.

(** *** Discarding a corrupt packet *)

Fixpoint fill_packet (fuel : nat) : M sshbuf unit :=
  match fuel with
  | O => fail SSH_ERR_INTERNAL_ERROR
  | S fuel => fun b =>
      if sshbuf_len b <? PACKET_MAX_SIZE then (sshbuf_put A (zrep 1024 97) 1024 ;;; fill_packet fuel) b
      else (Ok tt, b)
  end.
(** The outcome of [mac_compute] is ignored. *)
Definition ssh_packet_stop_discard : M session_state unit :=
  let! s := get_state in
  when (s_discard_mac s)
    (on_in (on_pkt (fill_packet (Z.to_nat (PACKET_MAX_SIZE / 1024 + 1))) ;;;
            fun d => (Ok tt, snd (compute_mac (ps_seqnr (d_ps d)) (ztake PACKET_MAX_SIZE (ptr_of (d_pkt d))) d)))) ;;;
  fail SSH_ERR_MAC_INVALID.

Definition ssh_packet_start_discard (k : option keys) (packet_length discard : Z) : M session_state unit :=
  let cbc := match k with
             | Some k => match enc_cipher (ky_enc k) with Some c => cipher_is_cbc c | None => false end
             | None => false
             end in
  if negb cbc || ((authlen_of k =? 0) && match k with
                                         | Some k => negb (mac_etm (mx (ky_mac k)) =? 0)
                                         | None => false
                                         end)
  then sshpkt_disconnect (cstr "Packet corrupt") ;;; fail SSH_ERR_MAC_INVALID
  else
    when (negb (packet_length =? PACKET_MAX_SIZE) && mac_on k) (update (set_s_discard_mac true)) ;;;
    let! s := get_state in
    when (discard <=? sshbuf_len (d_raw (s_in s))) ssh_packet_stop_discard ;;;
    update (set_s_discard (u32 (discard - sshbuf_len (d_raw (s_in s))))).

(** [len] is the length of [buf]. *)
Definition ssh_packet_process_incoming (buf : bytes) (len : Z) : M session_state unit :=
  let! s := get_state in
  if negb (s_discard s =? 0) then
    update (set_s_keep_alive 0) ;;;
    when (s_discard s <=? len) ssh_packet_stop_discard ;;;
    update (fun s => set_s_discard (u32 (s_discard s - len)) s)
  else on_in (on_raw (sshbuf_put A buf len)).

(** *** Reading a packet *)

Definition set_packlen (v : Z) : M session_state unit := update (set_s_packlen v).
(** [cipher_crypt] from [input] into [incoming_packet], [cp] being where room has
    been reserved. *)
Definition decrypt_packet (cp seqnr len aadlen authlen : Z) : M dir unit := fun d =>
  let b := d_pkt d in
  let '(r, (cc, dest)) :=
    cipher_crypt (e_tmp E) seqnr (ptr_of (d_raw d)) len aadlen authlen (d_cc d, zdrop cp (b_mem b)) in
  (r, set_d_cc cc (set_d_pkt (set_mem (write_at cp dest (b_mem b)) b) d)).

Definition bad_packlen (n : Z) : bool := (n <? 1 + 4) || (PACKET_MAX_SIZE <? n).

(** The length of the packet: whether to go on, or to return 0 without a
    packet. *)
Definition read_length : M session_state bool :=
  let! s := get_state in
  let i := s_in s in
  let k := d_newkeys i in
  let block_size := block_of k in
  if negb (s_packlen s =? 0) then ret true
  else if negb (aadlen_of k =? 0) then fun s =>
    let '(r, cc) := cipher_get_length (e_tmp E) (ps_seqnr (d_ps i)) (ptr_of (d_raw i)) (u32 (sshbuf_len (d_raw i)))
                      (d_cc i) in
    let s := set_s_in (set_d_cc cc i) s in
    match r with
    | Err _ => (Ok false, s)
    | Ok plen =>
        (set_packlen plen ;;;
         (if bad_packlen plen then
            sshpkt_disconnect (cstr "Packet corrupt") ;;; fail SSH_ERR_CONN_CORRUPT
          else on_in (on_pkt (update (sshbuf_reset A))) ;;; ret true)) s
    end
  else if sshbuf_len (d_raw i) <? block_size then ret false
  else
    on_in (on_pkt (update (sshbuf_reset A))) ;;;
    let! cp := on_in (on_pkt (sshbuf_reserve A block_size)) in
    on_in (decrypt_packet cp (ps_seqnr (d_ps (s_out s))) block_size 0 0) ;;;
    let! s := get_state in
    let plen := PEEK_U32 (ptr_of (d_pkt (s_in s))) in
    set_packlen plen ;;;
    if bad_packlen plen then ssh_packet_start_discard k plen PACKET_MAX_SIZE ;;; ret false
    else on_in (on_raw (sshbuf_consume block_size)) ;;; ret true.

(** [if (timingsafe_bcmp(...)) return ...]: the MAC on the wire is compared and
    consumed; the result is whether to go on. *)
Definition check_mac (k : option keys) (macbuf : bytes) (need packlen : Z) : M session_state bool :=
  let! s := get_state in
  if negb (timingsafe_bcmp macbuf (ptr_of (d_raw (s_in s))) (mac_len_of k) =? 0) then
    if PACKET_MAX_SIZE <? need then fail SSH_ERR_INTERNAL_ERROR
    else ssh_packet_start_discard k packlen (PACKET_MAX_SIZE - need) ;;; ret false
  else on_in (on_raw (sshbuf_consume (mac_len_of k))) ;;; ret true.

(** After the MAC: padding, compression and the type. *)
Definition open_payload (k : option keys) : M session_state Z :=
  let! s := get_state in
  let padlen := byte_at (ptr_of (d_pkt (s_in s))) 4 in
  if padlen <? 4 then
    sshpkt_disconnect (cstr "Corrupted padlen on input.") ;;; write_wait ;;; fail SSH_ERR_CONN_CORRUPT
  else
    on_in (on_pkt (sshbuf_consume (4 + 1))) ;;;
    on_in (on_pkt (sshbuf_consume_end padlen)) ;;;
    when (comp_on k) (through_comp_buf false uncompress_buffer (ret tt)) ;;;
    let! type := sshpkt_get_u8 in
    if (type <? SSH2_MSG_MIN) || (SSH2_MSG_LOCAL_MIN <=? type) then
      sshpkt_disconnect (cstr "Invalid ssh2 packet type") ;;; write_wait ;;; fail SSH_ERR_PROTOCOL_ERROR
    else ret type.

(** What the type of a packet brings about.  An error of [ssh_set_newkeys] or
    [ssh_packet_enable_delayed_compress] is the result, unless the key exchange
    started afterwards replaces it. *)
Definition after_packet (type : Z) : M session_state unit := fun s =>
  let '(r, s) :=
    (if type =? SSH2_MSG_NEWKEYS then ssh_set_newkeys false
     else if (type =? SSH2_MSG_USERAUTH_SUCCESS) && negb (s_server_side s)
     then ssh_packet_enable_delayed_compress
     else ret tt) s in
  let s := set_s_packlen 0 s in
  if ssh_packet_need_rekeying s 0 then kex_start_rekex s else (r, s).

(** The packet whose length is known.  The result is the type and the sequence
    number; the type SSH_MSG_NONE is that there is no packet yet. *)
Definition read_packet : M session_state (Z * Z) :=
  let! s := get_state in
  let i := s_in s in
  let k := d_newkeys i in
  let authlen := authlen_of k in
  let maclen := if mac_on k then mac_len_of k else 0 in
  let block_size := block_of k in
  let aadlen := aadlen_of k in
  let packlen := s_packlen s in
  let need := if negb (aadlen =? 0) then packlen else u32 (4 + packlen - block_size) in
  if negb (need mod block_size =? 0) then
    ssh_packet_start_discard k packlen (PACKET_MAX_SIZE - block_size) ;;; ret (SSH_MSG_NONE, 0)
  else if sshbuf_len (d_raw i) <? u32 (aadlen + need + authlen + maclen) then ret (SSH_MSG_NONE, 0)
  else
    let seqnr := ps_seqnr (d_ps i) in
    let! macbuf :=
      if etm_on k then on_in (compute_mac seqnr (ztake (aadlen + need) (ptr_of (d_raw i)))) else ret [] in
    let! cp := on_in (on_pkt (sshbuf_reserve A (u32 (aadlen + need)))) in
    on_in (decrypt_packet cp seqnr need aadlen authlen) ;;;
    on_in (on_raw (sshbuf_consume (u32 (aadlen + need + authlen)))) ;;;
    let! go :=
      if mac_on k then
        let! s := get_state in
        let b := d_pkt (s_in s) in
        let! macbuf :=
          if etm_on k then ret macbuf else on_in (compute_mac seqnr (ztake (sshbuf_len b) (ptr_of b))) in
        check_mac k macbuf need packlen
      else ret true in
    if negb go then ret (SSH_MSG_NONE, 0)
    else
      on_in (on_ps next_packet) ;;;
      let! s := get_state in
      if (ps_packets (d_ps (s_in s)) =? 0) && negb (norekey_of s) then fail SSH_ERR_NEED_REKEY
      else
        on_in (on_ps (fun ps => mk_ps (ps_seqnr ps) (ps_packets ps)
          (u64 (ps_blocks ps + u32 (packlen + 4) / block_size)) (u64 (ps_bytes ps + u32 (packlen + 4))))) ;;;
        let! type := open_payload k in
        after_packet type ;;;
        ret (type, seqnr).

Definition ssh_packet_read_poll2 : M session_state (Z * Z) :=
  let! s := get_state in
  if negb (s_discard s =? 0) then ret (SSH_MSG_NONE, 0)
  else
    let! go := read_length in
    if go then read_packet else ret (SSH_MSG_NONE, 0).

(** *** Messages of the transport itself *)

(** Every round but the last takes a packet out of [input]. *)
Fixpoint poll_loop (fuel : nat) : M session_state (Z * Z) :=
  match fuel with
  | O => fail SSH_ERR_INTERNAL_ERROR
  | S fuel =>
      let! (type, seqnr) := ssh_packet_read_poll2 in
      when (negb (type =? 0)) (update (set_s_keep_alive 0)) ;;;
      if type =? SSH2_MSG_IGNORE then poll_loop fuel
      else if type =? SSH2_MSG_DEBUG then
        let! _ := sshpkt_get_u8 in
        let! _ := sshpkt_get_string true in
        let! _ := sshpkt_get_string false in
        poll_loop fuel
      else if type =? SSH2_MSG_DISCONNECT then
        let! _ := sshpkt_get_u32 in
        let! _ := sshpkt_get_string true in
        fail SSH_ERR_DISCONNECTED
      else if type =? SSH2_MSG_UNIMPLEMENTED then
        let! _ := sshpkt_get_u32 in
        poll_loop fuel
      else ret (type, seqnr)
  end.
Definition ssh_packet_read_poll_seqnr : M session_state (Z * Z) := fun s =>
  poll_loop (S (Z.to_nat (sshbuf_len (d_raw (s_in s)) + 1))) s.

Definition ssh_packet_set_maxsize (n : Z) : M session_state unit :=
  let! s := get_state in
  if s_maxsize_called s then fail (-1)
  else if (n <? 4 * 1024) || (1024 * 1024 <? n) then fail (-1)
  else update (set_s_maxsize_called true) ;;; update (set_s_maxsize n).

Definition ssh_packet_set_rekey_limits (bytes seconds : Z) : M session_state unit :=
  update (set_s_rekey_limit bytes) ;;; update (set_s_rekey_interval (u32 seconds)).
End operations.
End packet.
