(* ===== verification/PacketSpec.v ===== *)
(** What the packet layer promises: the packets one end sends arrive at the
    other, in order, however the bytes are cut up on the way. *)

From S2P Require Import Prelude Wire Sshbuf SshbufGetput SshbufSpec CString Algs Chacha ChachaPoly.
From S2P Require Import Ssh2 Digest Kex Cipher Mac Packet.

(** ** Lemmas: buffers *)

(** Room reserved at [i] behind what is in the buffer already. *)
Definition reserved (b0 b : sshbuf) (i n : Z) : Prop :=
  full b /\ b_size b = i + n /\ 0 <= b_off b <= i /\ 0 <= n /\
  ztake (i - b_off b) (zdrop (b_off b) (b_mem b)) = contents b0 /\ i - b_off b = zlen (contents b0).

Lemma full_reserve Al n b :
  alloc_ok Al -> full b -> 0 <= n -> zlen (contents b) + n <= SSHBUF_SIZE_MAX ->
  exists i b', sshbuf_reserve Al n b = (Ok i, b') /\ reserved b b' i n.
Proof.
  intros HA Hb Hn Hl. pose proof Hb as (Hwf & Hw & Hm).
  pose proof (sshbuf_reserve_spec Al n b Hwf Hn) as H. pose proof (sshbuf_check_reserve_spec n b Hwf Hn) as Hc.
  rewrite Hw, Hm in Hc. destruct (Z.ltb_spec SSHBUF_SIZE_MAX (zlen (contents b) + n)); [lia|]. cbn [negb] in Hc.
  destruct (sshbuf_reserve Al n b) as [r b']. destruct H as (Hwf' & Hf & H). destruct r as [i|e].
  - exists i, b'. destruct H as (_ & Hs & Ho & Ht). split; [done|].
    split; [by eapply same_frame_full|]. split_and!; try done; try lia.
    rewrite <- Ht. destruct (wf_ranges b' Hwf') as (R1 & R2 & R3 & R4).
    rewrite zlen_ztake; [done|]. rewrite zlen_zdrop by lia. lia.
  - destruct H as (_ & [H|(_ & m & H)]); [congruence|by destruct (HA m)].
Qed.

(** The object from [i] on, and storing into the room. *)
Lemma reserved_room b0 b i n : reserved b0 b i n -> n <= zlen (zdrop i (b_mem b)) /\ 0 <= i /\ i + n <= zlen (b_mem b).
Proof.
  intros ((Hwf & _) & Hs & Ho & Hn & _). destruct (wf_ranges b Hwf) as (? & ? & ? & ?).
  rewrite zlen_zdrop by lia. lia.
Qed.

Lemma reserved_fill b0 b i n v :
  reserved b0 b i n -> Bytes v -> zlen v = n ->
  full (set_mem (write_at i v (b_mem b)) b) /\
  contents (set_mem (write_at i v (b_mem b)) b) = contents b0 ++ v.
Proof.
  intros (Hb & Hs & Ho & Hn & Ht & Hi) HB Hv. pose proof Hb as (Hwf & _ & _).
  destruct (write_reserved b0 b i v) as (Hwf' & Hf & Hc); try done; [lia|].
  split; [by eapply same_frame_full|done].
Qed.

Lemma write_at_tail i (w m : bytes) :
  0 <= i -> i + zlen w <= zlen m -> write_at i (w ++ zdrop (zlen w) (zdrop i m)) m = write_at i w m.
Proof.
  intros Hi Hl. unfold write_at. rewrite zdrop_zdrop by (pose proof (zlen_nonneg w); lia).
  rewrite zlen_app, zlen_zdrop by (pose proof (zlen_nonneg w); lia).
  rewrite (zdrop_ge (i + (zlen w + (zlen m - (i + zlen w)))) m) by lia. by rewrite app_nil_r.
Qed.

Lemma ptr_of_prefix b : full b -> ztake (zlen (contents b)) (ptr_of b) = contents b /\ Bytes (ptr_of b).
Proof.
  intros (Hwf & _). split; [by apply ptr_of_take|]. unfold ptr_of, sshbuf_ptr.
  rewrite (wf_sane b Hwf). cbn. apply Forall_zdrop, wf_bytes, Hwf.
Qed.

(** ** Computations step by step *)

Lemma focus_ok {T S X} get set (m : M S X) (x : T) a s' :
  m (get x) = (Ok a, s') -> focus get set m x = (Ok a, set s' x).
Proof. unfold focus. by intros ->. Qed.

(** ** Padding *)

(** The smallest multiple of [y] from [x] on. *)
Lemma roundup32_spec x y :
  0 < y <= 256 -> 0 <= x < 2 ^ 31 ->
  x <= roundup32 x y < x + y /\ roundup32 x y mod y = 0.
Proof.
  intros Hy Hx. unfold roundup32. rewrite (wrap_small 32 (x + (y - 1))) by lia.
  pose proof (Z.div_mod (x + (y - 1)) y ltac:(lia)). pose proof (Z.mod_pos_bound (x + (y - 1)) y ltac:(lia)).
  set (q := (x + (y - 1)) / y) in *. assert (0 <= q) by (apply Z.div_pos; lia).
  rewrite wrap_small by nia. split; [lia|]. apply Z.mod_mul. lia.
Qed.

(** There are always between 4 and 255 bytes of padding, and they fill the last
    block; with [sshpkt_add_padding] the length is a multiple of that, too. *)
Lemma padlen_of_spec len bs extra :
  bs = 8 \/ bs = 16 -> 0 <= len < 2 ^ 30 -> 0 <= extra <= 224 ->
  4 <= padlen_of len bs extra <= 255 /\ (len + padlen_of len bs extra) mod bs = 0 /\
  (extra <> 0 -> (len + padlen_of len bs extra) mod roundup32 extra bs = 0).
Proof.
  intros Hbs Hlen Hex. unfold padlen_of.
  assert (Hm : 0 <= len mod bs < bs) by (apply Z.mod_pos_bound; lia).
  rewrite (wrap_small 8 (bs - len mod bs)) by lia.
  set (p := if bs - len mod bs <? 4 then u8 (bs - len mod bs + bs) else bs - len mod bs).
  assert (Hp : 4 <= p <= 19 /\ (len + p) mod bs = 0).
  { unfold p. assert (Hd := Z.div_mod len bs ltac:(lia)). destruct (Z.ltb_spec (bs - len mod bs) 4).
    - rewrite wrap_small by lia. split; [lia|].
      replace (len + (bs - len mod bs + bs)) with ((len / bs + 2) * bs) by lia. apply Z.mod_mul. lia.
    - split; [lia|]. replace (len + (bs - len mod bs)) with ((len / bs + 1) * bs) by lia. apply Z.mod_mul. lia. }
  clearbody p. destruct (Z.eqb_spec extra 0) as [->|Hne]; cbn [negb]; [split; [lia|]; split; [lia|done]|].
  destruct (roundup32_spec extra bs) as [Hr Hrm]; [lia|lia|].
  set (x := roundup32 extra bs) in *.
  assert (Hx : x <= 224).
  { assert (x = bs * (x / bs)) by (pose proof (Z.div_mod x bs ltac:(lia)); lia).
    destruct Hbs as [-> | ->]; nia. }
  rewrite (wrap_small 8 x) by lia. rewrite (wrap_small 32 (len + p)) by lia.
  assert (Hmx : 0 <= (len + p) mod x < x) by (apply Z.mod_pos_bound; lia).
  rewrite (wrap_small 8 (x - _)) by lia. rewrite wrap_small by lia. split; [lia|].
  assert (Hd := Z.div_mod (len + p) x ltac:(lia)).
  assert (Hq : (len + (p + (x - (len + p) mod x))) = ((len + p) / x + 1) * x) by lia.
  split; [|intros _; rewrite Hq; apply Z.mod_mul; lia].
  rewrite Hq. assert (x = bs * (x / bs)) by (pose proof (Z.div_mod x bs ltac:(lia)); lia).
  replace (((len + p) / x + 1) * x) with ((((len + p) / x + 1) * (x / bs)) * bs) by nia. apply Z.mod_mul. lia.
Qed.

(** ** Directions in step *)

Section link.
Context {EV : Evp} {EVS : EvpSpec EV} {UM : Umac} {UMS : UmacSpec UM}.
Context {EC : EvpCipher} {ECS : EvpCipherSpec EC} {ZL : Zlib}.

Definition env_ok (E : env) : Prop :=
  alloc_ok (e_alloc E) /\ Bytes (e_tmp E) /\ 64 <= zlen (e_tmp E) /\ zlen (e_um E) = SSH_DIGEST_MAX_LENGTH.

(** The keys of a direction belong to the cipher [c] and there is no
    compression; without keys the cipher is "none". *)
Definition row_ok (c : sshcipher) (k : option keys) : Prop :=
  match k with
  | Some k => enc_cipher (ky_enc k) = Some c /\ enc_block_size (ky_enc k) = c_block_size c /\
              comp_enabled (ky_comp k) = 0
  | None => c_block_size c = 8 /\ c_auth_len c = 0
  end.

Lemma row_ok_facts c k :
  row_ok c k -> authlen_of k = c_auth_len c /\ block_of k = c_block_size c /\ comp_on k = false.
Proof.
  destruct k as [k|]; cbn; [|by intros [-> ->]]. intros (-> & -> & ->). done.
Qed.

(** The parts of a direction's keys that do not change with a packet. *)
Definition keys_kept (k k' : option keys) : Prop :=
  match k, k' with
  | Some k, Some k' => ky_enc k' = ky_enc k /\ ky_comp k' = ky_comp k /\ mx (ky_mac k') = mx (ky_mac k)
  | None, None => True
  | _, _ => False
  end.

Lemma keys_kept_refl k : keys_kept k k.
Proof. by destruct k. Qed.

Lemma keys_kept_facts k k' :
  keys_kept k k' -> authlen_of k' = authlen_of k /\ mac_on k' = mac_on k /\ etm_on k' = etm_on k /\
  mac_len_of k' = mac_len_of k /\ block_of k' = block_of k /\ (forall c, row_ok c k -> row_ok c k').
Proof.
  destruct k as [k|], k' as [k'|]; try done. intros (He & Hc & Hm).
  assert (Ha : authlen_of (Some k') = authlen_of (Some k)) by (cbn; by rewrite He).
  unfold etm_on, mac_on. rewrite Ha, Hm. split_and!; try done; cbn; rewrite ?He, ?Hc, ?Hm; done.
Qed.

(** The MAC of a direction, when there is one. *)
Definition mac_key_ok (k : option keys) (key : bytes) : Prop :=
  match k with Some k => mac_ready (ky_mac k) key | None => False end.
Definition packet_mac (k : option keys) (key : bytes) (seqnr : Z) (data : bytes) : bytes :=
  match k with Some k => mac_value (ky_mac k) key seqnr data | None => [] end.

Lemma mac_len_max k key : mac_key_ok k key -> mac_len_of k <= 64.
Proof.
  destruct k as [k|]; [|done]. intros (_ & [(_ & h & _ & _ & Hd & Hl)|(w & x & _ & _ & _ & Hl)]).
  - pose proof (digest_bytes_max _ Hd). cbn. lia.
  - destruct w; cbn in *; lia.
Qed.

Lemma compute_mac_spec E seqnr data d key :
  env_ok E -> mac_key_ok (d_newkeys d) key -> in_range 32 seqnr ->
  exists k', compute_mac E seqnr data d = (Ok (packet_mac (d_newkeys d) key seqnr data), set_d_newkeys k' d) /\
    keys_kept (d_newkeys d) k' /\ mac_key_ok k' key /\
    (forall s m, packet_mac k' key s m = packet_mac (d_newkeys d) key s m).
Proof.
  intros (_ & _ & _ & Hum) Hk Hs. destruct (d_newkeys d) as [k|] eqn:Ek; [|done].
  pose proof (mac_len_max (Some k) key Hk) as Hl. cbn in Hl.
  destruct (mac_compute_spec (e_um E) (ky_mac k) key seqnr data SSH_DIGEST_MAX_LENGTH Hk Hs Hum Hl)
    as (x' & Ex & Hr & Hm & Hv).
  exists (Some (mk_keys (ky_enc k) x' (ky_comp k))). unfold compute_mac, on_keys, on_mac. rewrite Ek, Ex.
  by split_and!.
Qed.

(** *** Sealing *)

Lemma finish_plaintext_spec E padlen pad payload h b :
  alloc_ok (e_alloc E) -> full b -> contents b = h ++ payload -> zlen h = 5 -> zlen pad = padlen -> Bytes pad ->
  0 <= padlen < 256 -> zlen payload <= 2 ^ 20 ->
  exists b', finish_plaintext E padlen pad b = (Ok tt, b') /\ full b' /\
    contents b' = be_bytes 4 (1 + zlen payload + padlen) ++ padlen :: payload ++ pad.
Proof.
  intros HA Hb Hc Hh Hp HB Hpl Hpay. pose proof (zlen_nonneg payload).
  assert (Hzc : zlen (contents b) = 5 + zlen payload) by (rewrite Hc, zlen_app; lia).
  destruct (full_reserve (A E) padlen b) as (i & b1 & E1 & Hr); [done|done|lia|unfold SSHBUF_SIZE_MAX; lia|].
  destruct (reserved_fill b b1 i padlen pad Hr HB Hp) as [Hb2 Hc2].
  set (b2 := set_mem (write_at i pad (b_mem b1)) b1) in *.
  assert (Hz2 : zlen (contents b2) = 5 + zlen payload + padlen) by (rewrite Hc2, zlen_app; lia).
  pose proof Hb2 as (Hwf2 & Hw2 & _). set (n := 1 + zlen payload + padlen).
  destruct (full_store b2 0 (be_bytes 4 n)) as [Hb3 Hc3]; [done|apply be_bytes_Bytes|lia|rewrite be_bytes_zlen; lia|].
  set (b3 := set_mem (write_at (b_off b2 + 0) (be_bytes 4 n) (b_mem b2)) b2) in *.
  assert (Hz3 : zlen (contents b3) = zlen (contents b2))
    by (rewrite Hc3; apply zlen_write_at; [lia|rewrite be_bytes_zlen; lia]).
  destruct (full_store b3 4 [padlen]) as [Hb4 Hc4]; [done|by apply Forall_singleton|lia|
    change (zlen [padlen]) with 1; lia|].
  exists (set_mem (write_at (b_off b3 + 4) [padlen] (b_mem b3)) b3). split; [|split; [done|]].
  - unfold finish_plaintext. rewrite (bind_ok _ _ _ _ _ E1). unfold store. unfold bind at 1. fold b2.
    unfold bind, get_state. unfold sshbuf_mutable_ptr. rewrite (wf_sane b2 Hwf2). cbn [is_ok negb orb].
    rewrite writable_test, Hw2. cbn [negb].
    rewrite (sshbuf_len_contents b2 Hwf2), Hz2.
    replace (u32 (5 + zlen payload + padlen - 4)) with n by (unfold n; rewrite wrap_small; lia).
    rewrite POKE_U32_be, wrap_small by (unfold n; lia).
    unfold b3. rewrite Z.add_0_r. done.
  - rewrite Hc4, Hc3, Hc2, Hc. unfold write_at. rewrite !ztake_0, be_bytes_zlen. cbn [app].
    change (0 + Z.of_nat 4) with 4. change (4 + zlen [padlen]) with 5.
    rewrite <- !app_assoc. rewrite ztake_app by (rewrite be_bytes_zlen; done). f_equal.
    rewrite zdrop_app_ge by (rewrite be_bytes_zlen; lia). rewrite be_bytes_zlen.
    rewrite zdrop_zdrop by lia. change (4 + (5 - Z.of_nat 4)) with 5. by rewrite zdrop_app.
Qed.

(** What is on its way: [wire] is what the cipher makes of [plain] between [e]
    and [e'], and the receiver, with what [tmp] holds there, can open it. *)
Definition travels (tmp : bytes) (c : sshcipher) (seqnr aadlen : Z) (e e' : sshcipher_ctx) (wire plain : bytes)
    : Prop :=
  zlen wire = zlen plain + c_auth_len c /\ Bytes wire /\ Bytes plain /\
  (aadlen = 4 -> tells tmp c seqnr e wire plain) /\
  opens tmp c seqnr aadlen e e' wire plain /\
  (aadlen = 0 -> opens_split tmp c e e' wire plain).

Lemma encrypt_packet_spec E tmp' c d rx plain cp b0 aadlen :
  env_ok E -> Bytes tmp' -> 64 <= zlen tmp' -> cipher_pair c (d_cc d) rx ->
  full (d_pkt d) -> contents (d_pkt d) = plain -> reserved b0 (d_raw d) cp (zlen plain + c_auth_len c) ->
  aadlen = 4 \/ aadlen = 0 /\ c_auth_len c = 0 -> 4 <= zlen plain < 2 ^ 31 ->
  (zlen plain - aadlen) mod c_block_size c = 0 ->
  exists wire e' raw', encrypt_packet E cp (zlen plain) aadlen (c_auth_len c) d =
      (Ok (wire ++ zdrop (zlen wire) (zdrop cp (b_mem (d_raw d)))), set_d_cc e' (set_d_raw raw' d)) /\
    full raw' /\ contents raw' = contents b0 ++ wire /\
    travels tmp' c (ps_seqnr (d_ps d)) aadlen (d_cc d) e' wire plain.
Proof.
  intros (_ & HtB & Htl & _) HtB' Htl' Hp Hf Hc Hr Ha Hl Hm.
  pose proof Hp as (Hin & _ & _ & He & _). pose proof (ciphers_rows c Hin) as [_ Hau _].
  destruct (reserved_room _ _ _ _ Hr) as (R1 & R2 & R3).
  assert (HpB : Bytes plain) by (rewrite <- Hc; apply contents_Bytes, Hf).
  destruct (ptr_of_prefix _ Hf) as [Ht _]. rewrite Hc in Ht.
  destruct (cipher_seals (e_tmp E) tmp' c (ps_seqnr (d_ps d)) aadlen (d_cc d) rx plain
    (zdrop cp (b_mem (d_raw d)))) as (wire & e' & Hz & HB & Htell & Ec & _ & Ho & Hs); try done; try lia.
  destruct (reserved_fill b0 (d_raw d) cp _ wire Hr HB Hz) as [Hf' Hc'].
  exists wire, e', (set_mem (write_at cp wire (b_mem (d_raw d))) (d_raw d)). split; [|split; [done|split; [done|]]].
  - unfold encrypt_packet. rewrite (wrap_small 32 (zlen plain - aadlen)) by lia.
    rewrite cipher_crypt_prefix by (done || lia).
    replace (aadlen + (zlen plain - aadlen)) with (zlen plain) by lia. rewrite Ht, Ec.
    rewrite write_at_tail by lia. done.
  - split; [done|]. split; [done|]. split; [done|]. split; [intros; apply Htell; [done|lia]|].
    split; [done|]. intros; apply Hs; lia.
Qed.

(** The keys after a packet: the MAC context is ready for the next. *)
Definition keys_stay (key : bytes) (k k' : option keys) : Prop :=
  keys_kept k k' /\
  (mac_on k = true -> mac_key_ok k' key /\ forall s m, packet_mac k' key s m = packet_mac k key s m).

Lemma keys_stay_refl key k : (mac_on k = true -> mac_key_ok k key) -> keys_stay key k k.
Proof. intros Hk. split; [apply keys_kept_refl|]. intros; split; [by apply Hk|done]. Qed.

Lemma keys_stay_key key k k' : keys_stay key k k' -> mac_on k' = true -> mac_key_ok k' key.
Proof.
  intros [Hk Hs] Hm. destruct (keys_kept_facts k k' Hk) as (_ & E & _). rewrite E in Hm. by apply Hs.
Qed.

Lemma keys_stay_trans key k1 k2 k3 : keys_stay key k1 k2 -> keys_stay key k2 k3 -> keys_stay key k1 k3.
Proof.
  intros [K1 S1] [K2 S2]. destruct (keys_kept_facts k1 k2 K1) as (_ & Em & _). split.
  - destruct k1, k2, k3; try done. destruct K1 as (? & ? & ?), K2 as (? & ? & ?).
    split_and!; congruence.
  - intros Hm. destruct (S1 Hm) as [_ V1]. rewrite Em in S2. destruct (S2 Hm) as [R2 V2]. split; [done|].
    intros. by rewrite V2, V1.
Qed.

(** Two ends that hold the same MAC key. *)
Definition mac_pair (key : bytes) (kt kr : option keys) : Prop :=
  mac_on kr = mac_on kt /\ etm_on kr = etm_on kt /\
  (mac_on kt = true -> mac_key_ok kt key /\ mac_key_ok kr key /\ mac_len_of kr = mac_len_of kt /\
     forall s m, packet_mac kr key s m = packet_mac kt key s m).

Lemma mac_pair_stay key kt kr kt' kr' :
  mac_pair key kt kr -> keys_stay key kt kt' -> keys_stay key kr kr' -> mac_pair key kt' kr'.
Proof.
  intros (Hm & He & Hk) [Kt St] [Kr Sr]. rewrite Hm in Sr.
  destruct (keys_kept_facts _ _ Kt) as (_ & Mt & Et & Lt & _), (keys_kept_facts _ _ Kr) as (_ & Mr & Er & Lr & _).
  rewrite <- Mt in *. split; [congruence|]. split; [congruence|]. intros Hon.
  destruct (Hk Hon) as (_ & _ & Hl & Hv), (St Hon) as [Rt Vt], (Sr Hon) as [Rr Vr].
  split_and!; [done|done|congruence|]. intros. by rewrite Vr, Hv, Vt.
Qed.

(** [tx] sends what [rx] is to receive next: the ciphers apart ... *)
Record peers (c : sshcipher) (key : bytes) (tx rx : dir) : Prop := {
  l_row_tx : row_ok c (d_newkeys tx);
  l_row_rx : row_ok c (d_newkeys rx);
  l_mac : mac_pair key (d_newkeys tx) (d_newkeys rx);
  l_seqnr : ps_seqnr (d_ps rx) = ps_seqnr (d_ps tx);
  l_range : in_range 32 (ps_seqnr (d_ps tx))
}.
(** ... and with them. *)
Definition linked (c : sshcipher) (key : bytes) (tx rx : dir) : Prop :=
  cipher_pair c (d_cc tx) (d_cc rx) /\ peers c key tx rx.

Lemma peers_aadlen c key tx rx : peers c key tx rx -> aadlen_of (d_newkeys rx) = aadlen_of (d_newkeys tx).
Proof.
  intros [Ht Hr (_ & He & _) _ _]. unfold aadlen_of. rewrite He.
  by rewrite (proj1 (row_ok_facts _ _ Ht)), (proj1 (row_ok_facts _ _ Hr)).
Qed.

Lemma maybe_mac_spec E (b : bool) seqnr data d key :
  env_ok E -> (mac_on (d_newkeys d) = true -> mac_key_ok (d_newkeys d) key) -> in_range 32 seqnr ->
  (b = true -> mac_on (d_newkeys d) = true) ->
  exists k', (if b then compute_mac E seqnr data else ret []) d =
      (Ok (if b then packet_mac (d_newkeys d) key seqnr data else []), set_d_newkeys k' d) /\
    keys_stay key (d_newkeys d) k'.
Proof.
  intros HE Hk Hs Hb. destruct b.
  - destruct (compute_mac_spec E seqnr data d key HE (Hk (Hb eq_refl)) Hs) as (k' & Ek & Hkept & Hr & Hv).
    exists k'. split; [done|]. split; [done|]. done.
  - exists (d_newkeys d). split; [by destruct d|]. by apply keys_stay_refl.
Qed.

(** What is behind the encrypted packet. *)
Definition macbuf_of (k : option keys) (key : bytes) (seqnr : Z) (wire plain : bytes) : bytes :=
  if mac_on k then packet_mac k key seqnr (if etm_on k then ztake (zlen plain) wire else plain) else [].

(** The packet in the clear. *)
Definition framed (payload plain : bytes) : Prop :=
  exists padlen pad, zlen pad = padlen /\ 4 <= padlen <= 255 /\
    plain = be_bytes 4 (1 + zlen payload + padlen) ++ padlen :: payload ++ pad.

Lemma framed_zlen payload plain :
  framed payload plain -> exists padlen, 4 <= padlen <= 255 /\ zlen plain = 5 + zlen payload + padlen.
Proof.
  intros (padlen & pad & Hp & Hr & ->). exists padlen. split; [done|].
  rewrite zlen_app, zlen_cons, zlen_app, be_bytes_zlen. lia.
Qed.

Lemma arc4random_bytes_facts E n : 0 <= n -> zlen (arc4random_bytes E n) = n /\ Bytes (arc4random_bytes E n).
Proof.
  intros Hn. unfold arc4random_bytes. split; [rewrite zlen_fmap, zlen_seqZ; lia|].
  apply Forall_fmap, Forall_forall. intros i _. by apply wrap_range.
Qed.

Lemma aadlen_of_cases c k :
  row_ok c k -> (aadlen_of k = 4 \/ aadlen_of k = 0 /\ c_auth_len c = 0) /\
  (aadlen_of k = 0 -> etm_on k = false) /\ (mac_on k = true -> c_auth_len c = 0).
Proof.
  intros Hr. destruct (row_ok_facts c k Hr) as (Ha & _). unfold aadlen_of. rewrite Ha. split; [|split].
  - destruct (etm_on k); [by left|]. destruct (Z.eqb_spec (c_auth_len c) 0); [by right|by left].
  - by destruct (etm_on k).
  - intros Hm. destruct k as [k|]; [|done]. unfold mac_on in Hm. rewrite Ha in Hm.
    apply andb_true_iff in Hm as [Hm _]. by apply Z.eqb_eq in Hm.
Qed.

(** What sealing makes of the sending direction: [wire] and [mac] are appended
    to the output. *)
Record sealed (tmp' : bytes) (c : sshcipher) (key payload plain wire mac : bytes) (d d' : dir) : Prop := {
  sl_framed : framed payload plain;
  sl_aligned : (zlen plain - aadlen_of (d_newkeys d)) mod c_block_size c = 0;
  sl_travels : travels tmp' c (ps_seqnr (d_ps d)) (aadlen_of (d_newkeys d)) (d_cc d) (d_cc d') wire plain;
  sl_mac : mac = macbuf_of (d_newkeys d) key (ps_seqnr (d_ps d)) wire plain;
  sl_keys : keys_stay key (d_newkeys d) (d_newkeys d');
  sl_seqnr : ps_seqnr (d_ps d') = u32 (ps_seqnr (d_ps d) + 1);
  sl_packets : ps_packets (d_ps d') = u32 (ps_packets (d_ps d) + 1)
}.

Lemma packet_mac_facts k key s m :
  mac_key_ok k key -> zlen (packet_mac k key s m) = mac_len_of k /\ Bytes (packet_mac k key s m).
Proof. destruct k as [k|]; [|done]. apply mac_value_facts. Qed.

Lemma append_mac_spec E seqnr data macbuf key k d :
  env_ok E -> keys_stay key k (d_newkeys d) -> in_range 32 seqnr ->
  (mac_on k = true -> mac_key_ok k key) ->
  (mac_on k = true -> etm_on k = false -> macbuf = packet_mac k key seqnr data) ->
  full (d_raw d) -> zlen (contents (d_raw d)) + 64 <= SSHBUF_SIZE_MAX ->
  (mac_on k = true -> mac_len_of k <= 64) ->
  exists k' raw',
    when (mac_on k) (let! macbuf := if etm_on k then compute_mac E seqnr data else ret macbuf in
                     on_raw (sshbuf_put (A E) macbuf (mac_len_of k))) d =
      (Ok tt, set_d_raw raw' (set_d_newkeys k' d)) /\
    keys_stay key k k' /\ full raw' /\
    contents raw' = contents (d_raw d) ++ (if mac_on k then packet_mac k key seqnr data else []).
Proof.
  intros HE Hst Hs Hkey Hbuf Hf Hroom Hlen. unfold when. destruct (mac_on k) eqn:Hm.
  - assert (Hm' : mac_on (d_newkeys d) = true)
      by (destruct (keys_kept_facts _ _ (proj1 Hst)) as (_ & -> & _); done).
    destruct (maybe_mac_spec E (etm_on k) seqnr data d key) as (k' & Ek & Hst'); try done.
    { intros _. by apply (keys_stay_key _ _ _ Hst). }
    destruct (packet_mac_facts k key seqnr data (Hkey eq_refl)) as [Hz HB].
    assert (Hv : packet_mac (d_newkeys d) key seqnr data = packet_mac k key seqnr data) by (by apply Hst).
    destruct (full_put (A E) (packet_mac k key seqnr data) (d_raw d)) as (raw' & Er & Hr & Hc); try done; [apply HE| |].
    { specialize (Hlen eq_refl). lia. }
    rewrite Hz in Er. destruct (etm_on k) eqn:He.
    + exists k', raw'. split; [|split; [by eapply keys_stay_trans|done]].
      rewrite (bind_ok _ _ _ _ _ Ek), Hv. exact (focus_ok d_raw set_d_raw _ (set_d_newkeys k' d) _ _ Er).
    + exists (d_newkeys d), raw'. split; [|done].
      rewrite Hbuf by done. transitivity (focus d_raw set_d_raw (sshbuf_put (A E) (packet_mac k key seqnr data) (mac_len_of k)) d); [done|].
      rewrite (focus_ok _ _ _ _ _ _ Er). by destruct d.
  - exists (d_newkeys d), (d_raw d). split; [by destruct d|]. rewrite app_nil_r. done.
Qed.

Lemma seal_packet_spec E tmp' c key rx norekey extra payload h d :
  env_ok E -> Bytes tmp' -> 64 <= zlen tmp' ->
  cipher_pair c (d_cc d) rx -> row_ok c (d_newkeys d) ->
  (mac_on (d_newkeys d) = true -> mac_key_ok (d_newkeys d) key) -> in_range 32 (ps_seqnr (d_ps d)) ->
  full (d_pkt d) -> contents (d_pkt d) = h ++ payload -> zlen h = 5 -> zlen payload <= 2 ^ 20 ->
  full (d_raw d) -> zlen (contents (d_raw d)) + zlen payload + 500 <= SSHBUF_SIZE_MAX ->
  0 <= extra <= 224 -> u32 (ps_packets (d_ps d) + 1) <> 0 \/ norekey = true ->
  exists plain wire mac d', seal_packet E norekey extra d = (Ok tt, d') /\
    sealed tmp' c key payload plain wire mac d d' /\
    full (d_pkt d') /\ contents (d_pkt d') = [] /\
    full (d_raw d') /\ contents (d_raw d') = contents (d_raw d) ++ wire ++ mac.
Proof.
  intros HE HtB Htl Hp Hrow Hkey Hseq Hf Hc Hh Hpay Hraw Hroom Hex Hnr. pose proof HE as (HA & _ & _ & _).
  pose proof Hp as (Hin & _). pose proof (ciphers_rows c Hin) as [Hbs Hau _].
  pose proof (zlen_nonneg payload).
  destruct (row_ok_facts _ _ Hrow) as (Eau & Ebl & _). destruct (aadlen_of_cases _ _ Hrow) as (Haad & Hetm & Hmac0).
  set (k := d_newkeys d) in *. set (aad := aadlen_of k) in *. set (bs := c_block_size c) in *.
  set (len := 5 + zlen payload - aad). set (padlen := padlen_of len bs extra).
  destruct (padlen_of_spec len bs extra) as (Hpl & Hal & _); [done|lia|done|]. fold padlen in Hpl, Hal.
  assert (Hzc : sshbuf_len (d_pkt d) = 5 + zlen payload)
    by (rewrite (proj1 (full_len _ Hf)), Hc, zlen_app; lia).
  set (pad := if negb (bool_decide (k = None)) && negb (cc_plaintext (d_cc d)) then arc4random_bytes E padlen
              else zrep padlen 0).
  assert (Hpad : zlen pad = padlen /\ Bytes pad).
  { unfold pad. destruct (_ && _); [apply arc4random_bytes_facts; lia|].
    split; [apply zlen_zrep; lia|by apply Bytes_zrep]. }
  destruct (finish_plaintext_spec E padlen pad payload h (d_pkt d)) as (b1 & E1 & Hf1 & Hc1); try done; try lia; [apply Hpad..|].
  set (plain := be_bytes 4 (1 + zlen payload + padlen) ++ padlen :: payload ++ pad) in *.
  assert (Hfr : framed payload plain) by (by exists padlen, pad; split; [apply Hpad|]).
  assert (Hzp : zlen plain = 5 + zlen payload + padlen)
    by (unfold plain; rewrite zlen_app, zlen_cons, zlen_app, be_bytes_zlen, (proj1 Hpad); lia).
  assert (Hml : mac_on k = true -> mac_len_of k <= 64) by (intros Hm; by eapply mac_len_max, Hkey).
  pose proof (proj1 (full_len _ Hf1)) as Hzb1. rewrite Hc1, Hzp in Hzb1.
  destruct (maybe_mac_spec E (mac_on k && negb (etm_on k)) (ps_seqnr (d_ps d)) plain (set_d_pkt b1 d) key)
    as (k1 & E2 & Hst1); try done; [by intros [? _]%andb_true_iff|].
  destruct (full_reserve (A E) (zlen plain + c_auth_len c) (d_raw d)) as (cp & raw1 & E3 & Hr1); try done; try lia.
  set (d2 := set_d_raw raw1 (set_d_newkeys k1 (set_d_pkt b1 d))).
  destruct (encrypt_packet_spec E tmp' c d2 rx plain cp (d_raw d) aad) as (wire & e' & raw2 & E4 & Hr2 & Hc2 & Htr);
    try done; try lia.
  { by replace (zlen plain - aad) with (len + padlen) by (unfold len; lia). }
  destruct Htr as (Hzw & HBw & Htr').
  set (d3 := set_d_cc e' (set_d_raw raw2 d2)).
  destruct (append_mac_spec E (ps_seqnr (d_ps d)) (if etm_on k then ztake (zlen plain) wire else plain)
    (if mac_on k && negb (etm_on k) then packet_mac k key (ps_seqnr (d_ps d)) plain else []) key k d3)
    as (k2 & raw3 & E5 & Hst2 & Hr3 & Hc3); try done.
  { by intros -> ->. }
  { change (d_raw d3) with raw2. rewrite Hc2, zlen_app. lia. }
  set (d4 := set_d_raw raw3 (set_d_newkeys k2 d3)) in *.
  destruct (full_reset (A E) (d_pkt d4)) as [Hf5 Hc5]; [done|].
  set (d5 := set_d_pkt (sshbuf_reset (A E) (d_pkt d4))
               (set_d_ps (count_packet (zlen plain) (block_of k) (next_packet (d_ps d))) d4)).
  exists plain, wire, (macbuf_of k key (ps_seqnr (d_ps d)) wire plain), d5.
  split; [|split; [|split; [done|split; [done|split; [done|]]]]].
  - unfold seal_packet. unfold bind at 1, get_state at 1. cbv zeta. fold k aad pad. rewrite Hzc, Ebl, Eau.
    assert (Hlen : u32 (u32 (5 + zlen payload) - aad) = len) by (unfold len; rewrite (wrap_small 32 (5 + zlen payload)) by lia; apply wrap_small; lia).
    rewrite Hlen. fold bs padlen. fold pad.
    rewrite (bind_ok _ _ _ _ _ (focus_ok d_pkt set_d_pkt _ d _ _ E1)).
    unfold bind at 1, get_state at 1. change (d_pkt (set_d_pkt b1 d)) with b1. rewrite Hzb1.
    rewrite <- Hzp. rewrite (wrap_small 32 (zlen plain)), (wrap_small 64 (zlen plain + c_auth_len c)) by lia.
    destruct (ptr_of_prefix _ Hf1) as [Ht1 _]. rewrite Hc1 in Ht1. rewrite Ht1.
    change (d_ps (set_d_pkt b1 d)) with (d_ps d). change (d_newkeys (set_d_pkt b1 d)) with k in E2.
    rewrite (bind_ok _ _ _ _ _ E2).
    rewrite (bind_ok _ _ _ _ _ (focus_ok d_raw set_d_raw _ (set_d_newkeys k1 (set_d_pkt b1 d)) _ _ E3)).
    change (set_d_raw raw1 (set_d_newkeys k1 (set_d_pkt b1 d))) with d2. rewrite (bind_ok _ _ _ _ _ E4).
    change (set_d_cc e' (set_d_raw raw2 d2)) with d3.
    rewrite (ztake_app_le (zlen plain) wire) by lia.
    assert (E5' : when (mac_on k)
      (let! macbuf := if etm_on k then compute_mac E (ps_seqnr (d_ps d)) (ztake (zlen plain) wire)
                      else ret (if mac_on k && negb (etm_on k) then packet_mac k key (ps_seqnr (d_ps d)) plain else []) in
       on_raw (sshbuf_put (A E) macbuf (mac_len_of k))) d3 = (Ok tt, d4)).
    { rewrite <- E5. by destruct (etm_on k). }
    rewrite (bind_ok _ _ _ _ _ E5').
    transitivity ((let! d := get_state in
       if (ps_packets (d_ps d) =? 0) && negb norekey then fail SSH_ERR_NEED_REKEY
       else on_ps (count_packet (zlen plain) bs) ;;; on_pkt (update (sshbuf_reset (A E))))
      (set_d_ps (next_packet (d_ps d)) d4)); [done|].
    unfold bind at 1, get_state at 1. cbn [d_ps set_d_ps next_packet ps_packets].
    assert (((u32 (ps_packets (d_ps d) + 1) =? 0) && negb norekey) = false) as ->.
    { destruct Hnr as [Hnr| ->]; [|by rewrite andb_false_r]. by apply Z.eqb_neq in Hnr as ->. }
    unfold d5. rewrite Ebl. done.
  - split; try done.
    fold k aad bs. by replace (zlen plain - aad) with (len + padlen) by (unfold len; lia).
  - change (d_raw d5) with raw3. rewrite Hc3. change (d_raw d3) with raw2. rewrite Hc2, <- app_assoc.
    unfold macbuf_of. done.
Qed.

(** *** When nothing more than the packet itself is at stake *)

(** No key exchange is started whatever has been sent: before authentication,
    with a peer that cannot, or because one is under way. *)
Definition settled (s : session_state) : Prop :=
  s_kex s = None \/ s_after_authentication s = false \/ ssh_packet_is_rekeying s = true \/ norekey_of s = true.

Lemma settled_need E s n : settled s -> ssh_packet_need_rekeying E s n = false.
Proof.
  unfold settled, norekey_of, ssh_packet_need_rekeying. destruct (s_kex s); [|done].
  intros [?|[->|[->|Hn]]]; [done|done|by destruct (negb (s_after_authentication s))|].
  rewrite Hn. by destruct (negb (s_after_authentication s)), (ssh_packet_is_rekeying s).
Qed.


(** The next packet can be sent over what has been sent. *)
Lemma travels_pair tmp c sq aadlen e e' wire plain d :
  travels tmp c sq aadlen e e' wire plain -> cipher_pair c e d -> exists d', cipher_pair c e' d'.
Proof.
  intros (Hz & HB & _ & _ & Ho & _) Hp.
  destruct (Ho d wire (zrep (zlen plain) 0) Hp HB) as (d' & Hp' & _).
  - apply ztake_ge. lia.
  - rewrite zlen_zrep by apply zlen_nonneg. lia.
  - by exists d'.
Qed.

(** A sending direction that can go on. *)
Record sender (c : sshcipher) (key : bytes) (tx : dir) : Prop := {
  sn_pair : exists rx, cipher_pair c (d_cc tx) rx;
  sn_row : row_ok c (d_newkeys tx);
  sn_key : mac_on (d_newkeys tx) = true -> mac_key_ok (d_newkeys tx) key;
  sn_range : in_range 32 (ps_seqnr (d_ps tx))
}.

Lemma linked_sender c key tx rx : linked c key tx rx -> sender c key tx.
Proof. intros (Hp & [Ht _ (_ & _ & Hk) _ Hr]). split; [by eexists|done| |done]. intros Hm. by apply Hk. Qed.

Lemma sealed_sender tmp c key payload plain wire mac tx tx' :
  sealed tmp c key payload plain wire mac tx tx' -> sender c key tx -> sender c key tx'.
Proof.
  intros [_ _ Ht _ Hs Hq _] [[rx Hp] Hr Hk Hg]. split.
  - by eapply travels_pair.
  - by apply (keys_kept_facts _ _ (proj1 Hs)).
  - by apply (keys_stay_key key (d_newkeys tx)).
  - rewrite Hq. by apply wrap_range.
Qed.

(** The types of messages that change no keys and no compression. *)
Definition sendable (server : bool) (t : Z) : Prop :=
  0 <= t < 256 /\ t <> SSH2_MSG_KEXINIT /\ t <> SSH2_MSG_NEWKEYS /\ (t = SSH2_MSG_USERAUTH_SUCCESS -> server = false).

(** [ssh_packet_send2] when nothing holds the packet back: it is sealed. *)
Lemma wrapped_ordinary E s d' :
  sendable (s_server_side s) (byte_at (ptr_of (d_pkt (s_out s))) 5) -> comp_on (d_newkeys (s_out s)) = false ->
  seal_packet E (norekey_of s) (s_extra_pad s) (s_out s) = (Ok tt, d') ->
  ssh_packet_send2_wrapped E s = (Ok tt, set_s_extra_pad 0 (set_s_out d' s)).
Proof.
  set (t := byte_at _ 5). intros (Ht & Hk & Hn & Hu) Hcomp Hseal. apply Z.eqb_neq in Hn.
  unfold ssh_packet_send2_wrapped. unfold bind at 1, get_state at 1. cbv zeta. fold t. rewrite Hcomp. unfold when.
  rewrite (bind_ok (ret tt) _ s tt s) by done.
  rewrite (bind_ok (update (set_s_extra_pad 0)) _ s tt (set_s_extra_pad 0 s)) by done.
  assert (Es : on_out (seal_packet E (norekey_of s) (s_extra_pad s)) (set_s_extra_pad 0 s) =
               (Ok tt, set_s_extra_pad 0 (set_s_out d' s))).
  { unfold on_out, on_dir, focus. change (get_dir true (set_s_extra_pad 0 s)) with (s_out s). by rewrite Hseal. }
  rewrite (bind_ok _ _ _ _ _ Es), Hn.
  destruct (Z.eqb_spec t SSH2_MSG_USERAUTH_SUCCESS) as [Et|]; [|done]. by rewrite (Hu Et).
Qed.

Lemma send2_ordinary E s d' :
  sendable (s_server_side s) (byte_at (ptr_of (d_pkt (s_out s))) 5) -> settled s -> s_rekeying s = false ->
  6 <= sshbuf_len (d_pkt (s_out s)) -> comp_on (d_newkeys (s_out s)) = false ->
  seal_packet E (norekey_of s) (s_extra_pad s) (s_out s) = (Ok tt, d') ->
  ssh_packet_send2 E s = (Ok tt, set_s_extra_pad 0 (set_s_out d' s)).
Proof.
  set (t := byte_at _ 5). intros Hs Hset Hrk Hlen Hcomp Hseal.
  assert (Ew := wrapped_ordinary E s d' Hs Hcomp Hseal). destruct Hs as (Ht & Hk & Hn & Hu). apply Z.eqb_neq in Hn.
  unfold ssh_packet_send2, send2_fuel, send2_with. unfold bind at 1, get_state at 1. cbv zeta. fold t.
  destruct (Z.ltb_spec (sshbuf_len (d_pkt (s_out s))) 6); [lia|].
  rewrite (settled_need E s), Hrk, andb_false_r by done.
  change ((false || false) && negb (ssh_packet_type_is_kex t)) with false. cbv iota.
  apply Z.eqb_neq in Hk as ->. unfold when.
  rewrite (bind_ok (ret tt) _ s tt s) by done. rewrite (bind_ok _ _ _ _ _ Ew), Hn. done.
Qed.

(** The call of [ssh_packet_send2] for a packet of the key exchange starts no
    other: [send2_fuel 2] is enough, since the inner call is for KEXINIT. *)
Lemma send2_with_kex E rekex rekex' s :
  let t := byte_at (ptr_of (d_pkt (s_out s))) 5 in
  ssh_packet_type_is_kex t = true -> t <> SSH2_MSG_NEWKEYS -> send2_with E rekex s = send2_with E rekex' s.
Proof.
  intros t Hk Hn. unfold send2_with. unfold bind at 1, get_state at 1. symmetry. unfold bind at 1, get_state at 1.
  cbv zeta. fold t. rewrite Hk.
  apply Z.eqb_neq in Hn as ->. by rewrite andb_false_r.
Qed.

(** What the callers of the layer do to send a message. *)
Definition send_message (E : env) (m : bytes) : M session_state unit :=
  sshpkt_start E (byte_at m 0) ;;; sshpkt_put E (zdrop 1 m) (zlen (zdrop 1 m)) ;;; sshpkt_send E.

(** A packet as [sshpkt_start] and what follows it leave it. *)
Definition is_packet (t : Z) (body : bytes) (b : sshbuf) : Prop :=
  0 <= t < 256 /\ Bytes body /\ zlen body < 261000 /\ full b /\ contents b = [0; 0; 0; 0; 0; t] ++ body.

Lemma is_packet_facts t body b :
  is_packet t body b -> sshbuf_len b = 6 + zlen body /\ byte_at (ptr_of b) 5 = t.
Proof.
  intros (_ & _ & _ & Hf & Hc). split; [by rewrite (proj1 (full_len _ Hf)), Hc, zlen_app|].
  destruct (ptr_of_prefix _ Hf) as [Eb _]. rewrite Hc in Eb. pose proof (zlen_nonneg body).
  unfold byte_at. rewrite <- (nth_ztake 5 (zlen ([0; 0; 0; 0; 0; t] ++ body))), Eb; [done|].
  rewrite zlen_app. change (zlen [0; 0; 0; 0; 0; t]) with 6. lia.
Qed.

Lemma build_message E t body s :
  env_ok E -> 0 <= t < 256 -> Bytes body -> zlen body < 261000 -> full (d_pkt (s_out s)) ->
  exists b, is_packet t body b /\
    send_message E (t :: body) s = ssh_packet_send2 E (set_s_out (set_d_pkt b (s_out s)) s).
Proof.
  intros HE Ht HB Hzb Hf. set (o := s_out s) in *. pose proof (zlen_nonneg body).
  destruct (full_reset (A E) (d_pkt o) Hf) as [Hf0 Hc0].
  destruct (full_put (A E) [0; 0; 0; 0; 0; t] (sshbuf_reset (A E) (d_pkt o))) as (b1 & E1 & Hf1 & Hc1);
    [apply HE|done|repeat (apply Forall_cons; split; [unfold in_range; lia|]); apply Forall_nil; done
    |rewrite Hc0; done|].
  rewrite Hc0 in Hc1. cbn [app] in Hc1. change (zlen [0; 0; 0; 0; 0; t]) with 6 in E1.
  destruct (full_put (A E) body b1) as (b2 & E2 & Hf2 & Hc2);
    [apply HE|done|done|rewrite Hc1; change (zlen _) with 6 at 1; unfold SSHBUF_SIZE_MAX; lia|].
  rewrite Hc1 in Hc2. exists b2. split; [by split_and!; try lia|].
  unfold send_message. change (byte_at (t :: body) 0) with t. change (zdrop 1 (t :: body)) with body.
  assert (Es : sshpkt_start E t s = (Ok tt, set_s_out (set_d_pkt b1 o) s)).
  { unfold sshpkt_start, on_out, on_dir, on_pkt, focus. unfold bind, update.
    change (d_pkt (get_dir true s)) with (d_pkt o). by rewrite E1. }
  assert (Ep : sshpkt_put E body (zlen body) (set_s_out (set_d_pkt b1 o) s) = (Ok tt, set_s_out (set_d_pkt b2 o) s)).
  { unfold sshpkt_put, on_out, on_dir, on_pkt, focus.
    change (d_pkt (get_dir true (set_s_out (set_d_pkt b1 o) s))) with b1. by rewrite E2. }
  by rewrite (bind_ok _ _ _ _ _ Es), (bind_ok _ _ _ _ _ Ep).
Qed.

Lemma seal_is_packet E tmp' c key norekey extra t body d :
  env_ok E -> Bytes tmp' -> 64 <= zlen tmp' -> sender c key d -> is_packet t body (d_pkt d) ->
  full (d_raw d) -> zlen (contents (d_raw d)) + zlen body + 501 <= SSHBUF_SIZE_MAX ->
  0 <= extra <= 224 -> u32 (ps_packets (d_ps d) + 1) <> 0 \/ norekey = true ->
  exists plain wire mac d', seal_packet E norekey extra d = (Ok tt, d') /\
    sealed tmp' c key (t :: body) plain wire mac d d' /\
    full (d_pkt d') /\ full (d_raw d') /\ contents (d_raw d') = contents (d_raw d) ++ wire ++ mac.
Proof.
  intros HE HB' Hl' [[rx Hp] Hrow Hkey Hrange] (Ht & HB & Hzb & Hf & Hc) Hraw Hroom Hex Hnr.
  destruct (seal_packet_spec E tmp' c key rx norekey extra (t :: body) [0; 0; 0; 0; 0] d)
    as (plain & wire & mac & d' & E3 & Hsl & Hpk & _ & Hrw & Hrc); try done.
  - rewrite zlen_cons. lia.
  - rewrite zlen_cons. lia.
  - by exists plain, wire, mac, d'.
Qed.

Lemma send_message_spec E tmp' c key t body s :
  env_ok E -> Bytes tmp' -> 64 <= zlen tmp' -> sender c key (s_out s) ->
  sendable (s_server_side s) t -> settled s -> s_rekeying s = false -> 0 <= s_extra_pad s <= 224 ->
  Bytes body -> zlen body < 261000 ->
  full (d_pkt (s_out s)) -> full (d_raw (s_out s)) ->
  zlen (contents (d_raw (s_out s))) + zlen body + 501 <= SSHBUF_SIZE_MAX ->
  u32 (ps_packets (d_ps (s_out s)) + 1) <> 0 \/ norekey_of s = true ->
  exists plain wire mac d', send_message E (t :: body) s = (Ok tt, set_s_extra_pad 0 (set_s_out d' s)) /\
    sealed tmp' c key (t :: body) plain wire mac (s_out s) d' /\
    full (d_pkt d') /\ full (d_raw d') /\ contents (d_raw d') = contents (d_raw (s_out s)) ++ wire ++ mac.
Proof.
  intros HE HB' Hl' Hse Hsend Hset Hrk Hex HB Hzb Hf Hraw Hroom Hnr.
  destruct (build_message E t body s) as (b & Hb & ->); try done; [apply Hsend|].
  destruct (is_packet_facts t body b Hb) as [Elen Et]. set (o2 := set_d_pkt b (s_out s)). pose proof (zlen_nonneg body).
  assert (Hse2 : sender c key o2) by (by destruct Hse).
  destruct (seal_is_packet E tmp' c key (norekey_of s) (s_extra_pad s) t body o2)
    as (plain & wire & mac & d' & E3 & Hsl & Hpk & Hrw & Hrc); try done.
  exists plain, wire, mac, d'. split; [|split; [by destruct Hsl|done]].
  apply (send2_ordinary E (set_s_out o2 s)); try done.
  - change (d_pkt (s_out (set_s_out o2 s))) with b. by rewrite Et.
  - change (d_pkt (s_out (set_s_out o2 s))) with b. lia.
  - eapply row_ok_facts, (sn_row _ _ _ Hse2).
Qed.


End link.
