(* ===== verification/PacketStream.v ===== *)
(** The receiving side of the packet layer, and both ends together: however the
    bytes of the connection are cut up, the packets that were sent are received,
    each once and in order. *)

From S2P Require Import Prelude Wire Sshbuf SshbufGetput SshbufSpec CString Algs Chacha ChachaPoly.
From S2P Require Import Ssh2 Digest Kex Cipher Mac Packet PacketSpec.

(** Two ways to cut the same bytes. *)
Lemma cut_short (a x b w : bytes) :
  a ++ x = b ++ w -> zlen a < zlen b -> exists x1, x1 <> [] /\ b = a ++ x1 /\ x = x1 ++ w.
Proof.
  intros He Hl. destruct (app_eq_inv _ _ _ _ He) as [(k & -> & _)|(k & -> & ->)]; [zl|].
  exists k. split; [|done]. intros ->. rewrite app_nil_r in Hl. lia.
Qed.
Lemma cut_long (a x b w : bytes) :
  a ++ x = b ++ w -> zlen b <= zlen a -> exists y, a = b ++ y /\ w = y ++ x.
Proof.
  intros He Hl. destruct (app_eq_inv _ _ _ _ He) as [(k & -> & ->)|(k & -> & ->)]; [by exists k|].
  rewrite zlen_app in Hl. assert (k = []) as -> by (apply zlen_0_nil; zl).
  exists []. by rewrite !app_nil_r.
Qed.

(** Runs the first computation of a sequence, whose outcome [H] gives. *)
Ltac run H := etransitivity; [eapply bind_ok; exact H|].

Section stream.
Context {EV : Evp} {EVS : EvpSpec EV} {UM : Umac} {UMS : UmacSpec UM}.
Context {EC : EvpCipher} {ECS : EvpCipherSpec EC} {ZL : Zlib}.
Context (E : env) (HE : env_ok E) (write_wait : M session_state unit).

(** ** A direction and the state around it *)

Lemma on_in_ok {X} (m : M dir X) s r d :
  m (s_in s) = (r, d) -> on_in m s = (r, set_s_in d s).
Proof. unfold on_in, on_dir, focus. cbn. by intros ->. Qed.

Lemma set_s_in_id s : set_s_in (s_in s) s = s.
Proof. by destruct s. Qed.

Lemma set_s_packlen_same s d v : s_packlen s = v -> set_s_in d s = set_s_packlen v (set_s_in d s).
Proof. intros <-. by destruct s. Qed.

(** The bytes of the object a buffer points to, as far as they are contents. *)
Lemma ptr_prefix b (x w y : bytes) n :
  full b -> contents b ++ x = w ++ y -> 0 <= n <= zlen w -> n <= zlen (contents b) ->
  ztake n (ptr_of b) = ztake n w.
Proof.
  intros Hb He Hn Hl. destruct (ptr_of_prefix b Hb) as [Ht _].
  transitivity (ztake n (contents b)).
  - rewrite <- Ht, ztake_ztake, Z.min_l by lia. done.
  - rewrite <- (ztake_app_le n (contents b) x), He by lia. apply ztake_app_le. lia.
Qed.
Lemma full_ptr_zlen b : full b -> zlen (contents b) <= zlen (ptr_of b).
Proof.
  intros Hb. destruct (ptr_of_prefix b Hb) as [Ht _].
  destruct (Z.le_gt_cases (zlen (contents b)) (zlen (ptr_of b))) as [|Hg]; [done|].
  rewrite ztake_ge in Ht by lia. rewrite <- Ht in Hg. lia.
Qed.

Lemma on_raw_ok {X} (m : M sshbuf X) d r b : m (d_raw d) = (r, b) -> on_raw m d = (r, set_d_raw b d).
Proof. unfold on_raw, focus. by intros ->. Qed.
Lemma on_pkt_ok {X} (m : M sshbuf X) d r b : m (d_pkt d) = (r, b) -> on_pkt m d = (r, set_d_pkt b d).
Proof. unfold on_pkt, focus. by intros ->. Qed.

Lemma decrypt_packet_spec b0 cp n sq len aadlen authlen d v cc :
  reserved b0 (d_pkt d) cp n -> zlen v = n -> Bytes v ->
  (let dest := zdrop cp (b_mem (d_pkt d)) in
   cipher_crypt (e_tmp E) sq (ptr_of (d_raw d)) len aadlen authlen (d_cc d, dest) =
     (Ok tt, (cc, v ++ zdrop n dest))) ->
  exists b, decrypt_packet E cp sq len aadlen authlen d = (Ok tt, set_d_cc cc (set_d_pkt b d)) /\
    full b /\ contents b = contents b0 ++ v.
Proof.
  intros Hr Hv HB Hc. destruct (reserved_room _ _ _ _ Hr) as (R1 & R2 & R3).
  destruct (reserved_fill b0 (d_pkt d) cp n v Hr HB Hv) as [Hf Hcon].
  eexists. split; [|done]. unfold decrypt_packet. cbv zeta in Hc. rewrite Hc.
  rewrite <- Hv, write_at_tail by lia. done.
Qed.

(** ** The length of a framed packet *)

Lemma framed_length payload plain :
  framed payload plain -> zlen payload <= 2 ^ 20 -> Bytes plain ->
  PEEK_U32 plain = zlen plain - 4 /\ 4 <= byte_at plain 4 <= 255 /\
  zlen plain = 5 + zlen payload + byte_at plain 4.
Proof.
  intros (padlen & pad & Hp & Hr & ->) Hl HB. pose proof (zlen_nonneg payload).
  set (h := be_bytes 4 (1 + zlen payload + padlen)) in *.
  assert (Hh : zlen h = 4) by apply be_bytes_zlen.
  assert (Hb : byte_at (h ++ padlen :: payload ++ pad) 4 = padlen).
  { unfold byte_at. rewrite app_nth2 by (unfold zlen in Hh; lia).
    replace (Z.to_nat 4 - length h)%nat with 0%nat by (unfold zlen in Hh; lia). done. }
  rewrite Hb, PEEK_U32_be, ztake_app by (done || rewrite ?zlen_app; zl).
  rewrite zlen_app, zlen_cons, zlen_app. unfold h at 1. rewrite be_value_be_bytes by lia. lia.
Qed.

(** The types of packets that change no keys and no compression. *)
Definition receivable (server : bool) (t : Z) : Prop :=
  SSH2_MSG_MIN <= t < SSH2_MSG_LOCAL_MIN /\ t <> SSH2_MSG_NEWKEYS /\ (t = SSH2_MSG_USERAUTH_SUCCESS -> server = true).

Lemma after_packet_spec s t :
  receivable (s_server_side s) t -> settled s -> after_packet E t s = (Ok tt, set_s_packlen 0 s).
Proof.
  intros (_ & Hn & Hu) Hs. unfold after_packet. apply Z.eqb_neq in Hn as ->.
  assert (((t =? SSH2_MSG_USERAUTH_SUCCESS) && negb (s_server_side s)) = false) as ->.
  { destruct (Z.eqb_spec t SSH2_MSG_USERAUTH_SUCCESS) as [Ht|]; [by rewrite Hu|done]. }
  unfold ret. rewrite settled_need; done.
Qed.

(** ** One packet *)

Section packet.
Context (c : sshcipher) (key payload plain wire mac : bytes) (tx tx1 : dir).
Context (Hsl : sealed (e_tmp E) c key payload plain wire mac tx tx1).
Context (Hpay : 1 <= zlen payload <= 261000).

Abbreviation aad := (aadlen_of (d_newkeys tx)).
Abbreviation bs := (c_block_size c).
Abbreviation seqnr := (ps_seqnr (d_ps tx)).

(** The first [m] bytes have been opened, none of them when the length field is
    not encrypted; what is needed for the rest is there. *)
Definition head_len : Z := if aad =? 0 then bs else 0.

Record opening (i : dir) : Prop := {
  op_cipher : In c ciphers;
  op_peers : peers c key tx i;
  op_full : full (d_pkt i);
  op_contents : contents (d_pkt i) = ztake head_len plain;
  op_open : forall s dest, Bytes s -> ztake (zlen wire - head_len) s = zdrop head_len wire ->
    zlen plain - head_len <= zlen dest ->
    exists d', cipher_pair c (d_cc tx1) d' /\
      cipher_crypt (e_tmp E) seqnr s (zlen plain - head_len - aad) aad (c_auth_len c) (d_cc i, dest) =
        (Ok tt, (d', zdrop head_len plain ++ zdrop (zlen plain - head_len) dest))
}.

(** The receiver between packets, or with the length of the packet known and
    [ate] taken from the input. *)
Definition waiting (i : dir) (packlen : Z) (ate : bytes) : Prop :=
  full (d_raw i) /\
  ((packlen = 0 /\ ate = [] /\ linked c key tx i /\ full (d_pkt i)) \/
   (packlen = zlen plain - 4 /\ ate = ztake head_len wire /\ opening i)).

Lemma row_facts : In c ciphers -> (bs = 8 \/ bs = 16) /\ (c_auth_len c = 0 \/ c_auth_len c = 16).
Proof. intros Hin. destruct (ciphers_rows c Hin) as [Hb Ha _]. done. Qed.

Lemma plain_facts : In c ciphers -> row_ok c (d_newkeys tx) ->
  PEEK_U32 plain = zlen plain - 4 /\ 4 <= byte_at plain 4 <= 255 /\ Bytes plain /\ Bytes wire /\
  zlen plain = 5 + zlen payload + byte_at plain 4 /\ zlen wire = zlen plain + c_auth_len c /\
  (aad = 4 \/ aad = 0 /\ c_auth_len c = 0) /\ bs <= zlen plain /\ head_len <= zlen plain /\
  (zlen plain - head_len - aad) mod bs = 0.
Proof.
  intros Hin Hrow. destruct (row_facts Hin) as [Hb _]. destruct Hsl as [Hf Hal (Hz & HwB & HpB & _) _ _ _ _].
  destruct (framed_length payload plain Hf) as (H1 & H2 & H3); [lia|done|].
  destruct (aadlen_of_cases _ _ Hrow) as (Ha & _).
  assert (Hbs : bs <= zlen plain).
  { destruct (Z.le_gt_cases bs (zlen plain)) as [|Hlt]; [done|]. destruct Ha as [Ha|[Ha _]]; rewrite Ha in Hal.
    - rewrite Z.mod_small in Hal by lia. lia.
    - rewrite Z.mod_small in Hal by lia. lia. }
  split_and!; try done; try lia.
  - unfold head_len. destruct (aad =? 0); lia.
  - unfold head_len. destruct (Z.eqb_spec aad 0) as [E0|]; [|by rewrite Z.sub_0_r].
    rewrite E0 in *. replace (zlen plain - bs - 0) with (zlen plain - 0 + (-1) * bs) by lia.
    rewrite Z.mod_add by lia. done.
Qed.

Lemma waiting_start i ate :
  waiting i 0 ate -> full (d_raw i) /\ linked c key tx i /\ full (d_pkt i).
Proof.
  intros (Hraw & [(_ & _ & Hl & Hf)|(Hpl & _ & Ho)]); [done|].
  destruct (plain_facts (op_cipher _ Ho) (l_row_tx _ _ _ _ (op_peers _ Ho))) as (_ & ? & _ & _ & ? & _). lia.
Qed.

(** The length field in the clear, or encrypted with a key of its own. *)
Lemma read_length_aad s x y :
  waiting (s_in s) 0 [] -> s_packlen s = 0 -> aad = 4 ->
  contents (d_raw (s_in s)) ++ x = wire ++ mac ++ y -> (x = [] \/ y = @nil Z) ->
  exists (go : bool) i', read_length E s = (Ok go, set_s_packlen (if go then zlen plain - 4 else 0) (set_s_in i' s)) /\
    waiting i' (if go then zlen plain - 4 else 0) [] /\ d_raw i' = d_raw (s_in s) /\ d_ps i' = d_ps (s_in s) /\
    (go = false -> x <> @nil Z).
Proof.
  intros Hw Hp0 Haad Happ Hxy. destruct (waiting_start _ _ Hw) as (Hraw & (Hp & Hpe) & Hf).
  set (i := s_in s) in *. pose proof Hp as (Hin & _).
  destruct (plain_facts Hin (l_row_tx _ _ _ _ Hpe)) as (H1 & H2 & HpB & HwB & H3 & H4 & Ha & Hb & Hh & Hm).
  destruct (row_facts Hin) as [Hbs Hau].
  assert (Ea : aadlen_of (d_newkeys i) = 4) by (rewrite (peers_aadlen _ _ _ _ Hpe); done).
  pose proof (full_len _ Hraw) as [Elen Hlen]. destruct (ptr_of_prefix _ Hraw) as [Ept HptB].
  unfold read_length. unfold bind at 1, get_state at 1. rewrite Hp0. change (negb (0 =? 0)) with false. cbv iota zeta.
  fold i. rewrite Ea. change (negb (4 =? 0)) with true. cbv iota.
  assert (Hu : u32 (sshbuf_len (d_raw i)) = zlen (contents (d_raw i)))
    by (rewrite Elen; apply wrap_small; unfold SSHBUF_SIZE_MAX in *; zl). rewrite Hu.
  destruct (Z.lt_ge_cases (zlen (contents (d_raw i))) 4) as [Hlt|Hge].
  - destruct (cipher_get_length_short (e_tmp E) (ps_seqnr (d_ps i)) (ptr_of (d_raw i)) _ (d_cc i) Hlt) as (r & ->).
    exists false, i. split; [|split; [exact Hw|split; [done|split; [done|]]]].
    + replace (set_d_cc (d_cc i) i) with i by (by destruct i). by rewrite (set_s_packlen_same s i 0).
    + intros _ ->. assert (Hz := f_equal zlen Happ). rewrite !zlen_app in Hz. rewrite (@zlen_nil Z) in Hz.
      zl.
  - destruct Hsl as [_ _ (_ & _ & _ & Htell & Hopen & _) _ _ _ _].
    destruct (Htell Haad (d_cc i) (ptr_of (d_raw i)) (zlen (contents (d_raw i)))) as (d1 & E1 & Hp1); try done.
    { split; [done|by apply full_ptr_zlen]. }
    { eapply ptr_prefix; [done|exact Happ|lia|done]. }
    rewrite (l_seqnr _ _ _ _ Hpe), E1, H1.
    destruct (full_reset (A E) (d_pkt i) Hf) as [Hf' Hc'].
    exists true, (set_d_pkt (sshbuf_reset (A E) (d_pkt i)) (set_d_cc d1 i)).
    split; [|split; [|split; [done|split; [done|done]]]].
    + unfold bad_packlen, PACKET_MAX_SIZE. unfold bind, set_packlen, update.
      destruct (Z.ltb_spec (zlen plain - 4) (1 + 4)); [lia|].
      destruct (Z.ltb_spec (256 * 1024) (zlen plain - 4)); [lia|]. done.
    + split; [done|]. right. split; [done|]. assert (Hh0 : head_len = 0) by (unfold head_len; by rewrite Haad).
      rewrite Hh0, ztake_0. split; [done|]. destruct Hpe. split; try done; rewrite Hh0.
      * done.
      * intros s' dest HB Hs Hd. rewrite zdrop_0, Z.sub_0_r in *.
        apply (Hopen d1 s' dest Hp1 HB Hs). lia.
Qed.

(** The length field at the start of the first block. *)
Lemma read_length_block s x y :
  waiting (s_in s) 0 [] -> s_packlen s = 0 -> aad = 0 ->
  contents (d_raw (s_in s)) ++ x = wire ++ mac ++ y -> (x = [] \/ y = @nil Z) ->
  exists (go : bool) i', read_length E s = (Ok go, set_s_packlen (if go then zlen plain - 4 else 0) (set_s_in i' s)) /\
    waiting i' (if go then zlen plain - 4 else 0) (if go then ztake bs wire else []) /\
    (if go then ztake bs wire else []) ++ contents (d_raw i') = contents (d_raw (s_in s)) /\ d_ps i' = d_ps (s_in s) /\
    (go = false -> x <> @nil Z).
Proof.
  intros Hw Hp0 Haad Happ Hxy. destruct (waiting_start _ _ Hw) as (Hraw & (Hp & Hpe) & Hf).
  set (i := s_in s) in *. pose proof Hp as (Hin & _).
  destruct (plain_facts Hin (l_row_tx _ _ _ _ Hpe)) as (H1 & H2 & HpB & HwB & H3 & H4 & Ha & Hb & Hh & Hm).
  destruct (row_facts Hin) as [Hbs Hau].
  assert (Ea : aadlen_of (d_newkeys i) = 0) by (rewrite (peers_aadlen _ _ _ _ Hpe); done).
  pose proof (full_len _ Hraw) as [Elen Hlen]. destruct (ptr_of_prefix _ Hraw) as [Ept HptB].
  destruct (row_ok_facts _ _ (l_row_rx _ _ _ _ Hpe)) as (_ & Ebl & _).
  unfold read_length. unfold bind at 1, get_state at 1. rewrite Hp0. change (negb (0 =? 0)) with false. cbv iota zeta.
  fold i. rewrite Ea, Ebl, Elen. change (negb (0 =? 0)) with false. cbv iota.
  destruct (Z.ltb_spec (zlen (contents (d_raw i))) bs) as [Hlt|Hge].
  - exists false, i. split; [|split; [exact Hw|split; [done|split; [done|]]]].
    + rewrite <- (set_s_packlen_same s i 0) by done. unfold i. by rewrite set_s_in_id.
    + intros _ ->. assert (Hz := f_equal zlen Happ). rewrite !zlen_app in Hz. rewrite (@zlen_nil Z) in Hz. zl.
  - destruct Hsl as [_ _ (_ & _ & _ & _ & _ & Hsplit) _ _ _ _].
    assert (Hpre : ztake bs (ptr_of (d_raw i)) = ztake bs wire) by (eapply ptr_prefix; [done|exact Happ|lia|done]).
    destruct (full_reset (A E) (d_pkt i) Hf) as [Hf' Hc']. set (b0 := sshbuf_reset (A E) (d_pkt i)) in *.
    destruct (full_reserve (A E) bs b0) as (cp & b1 & E1 & Hr); [apply HE|done|lia|rewrite Hc', (@zlen_nil Z); unfold SSHBUF_SIZE_MAX; lia|].
    destruct (reserved_room _ _ _ _ Hr) as (R1 & R2 & R3).
    destruct (Hsplit Haad (d_cc i) bs (ps_seqnr (d_ps (s_out s))) (ptr_of (d_raw i)) (zdrop cp (b_mem b1)))
      as (d1 & E2 & Hrest); try done; [lia|apply Z.mod_same; lia|].
    set (i1 := set_d_pkt b1 i).
    destruct (decrypt_packet_spec b0 cp bs (ps_seqnr (d_ps (s_out s))) bs 0 0 i1 (ztake bs plain) d1)
      as (b2 & E3 & Hf2 & Hc2); [done|apply zlen_ztake; lia|by apply Forall_ztake|exact E2|].
    rewrite Hc' in Hc2. cbn [app] in Hc2.
    destruct (full_consume bs (d_raw i) Hraw) as (raw' & E4 & Hraw' & Hcr); [lia|].
    exists true, (set_d_raw raw' (set_d_cc d1 (set_d_pkt b2 i))).
    assert (Hpk : PEEK_U32 (ptr_of b2) = zlen plain - 4).
    { rewrite <- H1. destruct (ptr_of_prefix b2 Hf2) as [Ht2 HB2].
      assert (zlen (contents b2) = bs) by (rewrite Hc2; apply zlen_ztake; lia).
      rewrite !PEEK_U32_be; [|done|lia|done|pose proof (full_ptr_zlen b2 Hf2); lia].
      f_equal. transitivity (ztake 4 (contents b2)); [|rewrite Hc2, ztake_ztake; f_equal; lia].
      rewrite <- Ht2, ztake_ztake. f_equal. lia. }
    split; [|split; [|split; [|split; [done|done]]]].
    + run (eq_refl (Ok tt, set_s_in (set_d_pkt b0 i) s)).
      run (on_in_ok _ (set_s_in (set_d_pkt b0 i) s) _ _ (on_pkt_ok _ (set_d_pkt b0 i) _ _ E1)).
      run (on_in_ok _ (set_s_in i1 s) _ _ E3).
      unfold bind at 1, get_state at 1. cbn [s_in set_s_in d_pkt set_d_cc set_d_pkt]. rewrite Hpk.
      unfold bad_packlen, PACKET_MAX_SIZE.
      destruct (Z.ltb_spec (zlen plain - 4) (1 + 4)); [lia|].
      destruct (Z.ltb_spec (256 * 1024) (zlen plain - 4)); [lia|]. cbn [orb].
      run (eq_refl (@Ok unit tt, set_s_packlen (zlen plain - 4) (set_s_in (set_d_cc d1 (set_d_pkt b2 i)) s))).
      run (on_in_ok _ (set_s_packlen (zlen plain - 4) (set_s_in (set_d_cc d1 (set_d_pkt b2 i)) s)) _ _
        (on_raw_ok _ (set_d_cc d1 (set_d_pkt b2 i)) _ _ E4)). done.
    + split; [done|]. right. split; [done|]. assert (Hh0 : head_len = bs) by (unfold head_len; by rewrite Haad).
      rewrite Hh0. split; [done|]. destruct Hpe. split; try done; rewrite Hh0; [done|].
      destruct Ha as [Ha|[_ Ha]]; [lia|]. intros s' dest HB Hs Hd. rewrite Haad, Ha, Z.sub_0_r in *.
      apply Hrest; [|done]. rewrite H4, Z.add_0_r in Hs. done.
    + change (ztake bs wire ++ contents raw' = contents (d_raw i)). rewrite Hcr, <- Hpre.
      rewrite <- (ztake_zdrop bs (contents (d_raw i))) at 2. f_equal.
      rewrite <- Ept, ztake_ztake, Z.min_l by lia. done.
Qed.

Lemma read_length_spec s ate x y :
  waiting (s_in s) (s_packlen s) ate ->
  ate ++ contents (d_raw (s_in s)) ++ x = wire ++ mac ++ y -> (x = [] \/ y = @nil Z) ->
  exists (go : bool) i' pl' ate', read_length E s = (Ok go, set_s_packlen pl' (set_s_in i' s)) /\
    waiting i' pl' ate' /\ ate' ++ contents (d_raw i') = ate ++ contents (d_raw (s_in s)) /\
    d_ps i' = d_ps (s_in s) /\ (if go then pl' = zlen plain - 4 else x <> @nil Z).
Proof.
  intros Hw Happ Hxy. destruct (Z.eqb_spec (s_packlen s) 0) as [E0|Hne].
  - rewrite E0 in Hw. destruct (waiting_start _ _ Hw) as (_ & (Hp & Hpe) & _).
    assert (ate = []) as ->.
    { destruct Hw as (_ & [(_ & -> & _)|(Hpl & _ & Ho)]); [done|].
      destruct (plain_facts (op_cipher _ Ho) (l_row_tx _ _ _ _ (op_peers _ Ho))) as (_ & ? & _ & _ & ? & _). lia. }
    destruct (plain_facts (proj1 Hp) (l_row_tx _ _ _ _ Hpe)) as (_ & _ & _ & _ & _ & _ & [Ha|[Ha _]] & _).
    + destruct (read_length_aad s x y Hw E0 Ha Happ Hxy) as (go & i' & Er & Hw' & Hr & Hps & Hgo).
      exists go, i', (if go then zlen plain - 4 else 0), []. rewrite Hr.
      split_and!; try done. destruct go; [done|by apply Hgo].
    + destruct (read_length_block s x y Hw E0 Ha Happ Hxy) as (go & i' & Er & Hw' & Hr & Hps & Hgo).
      exists go, i', (if go then zlen plain - 4 else 0), (if go then ztake bs wire else []).
      split_and!; try done. destruct go; [done|by apply Hgo].
  - exists true, (s_in s), (s_packlen s), ate. split; [|split_and!; try done].
    + unfold read_length, bind, get_state. apply Z.eqb_neq in Hne as ->. destruct s; done.
    + destruct Hw as (_ & [(? & _)|(? & _)]); done.
Qed.

(** *** The rest of the packet *)

Lemma mac_facts i : peers c key tx i ->
  zlen mac = (if mac_on (d_newkeys i) then mac_len_of (d_newkeys i) else 0) /\ Bytes mac /\ zlen mac <= 64.
Proof.
  intros [_ _ (Hm & He & Hk) _ _]. rewrite (sl_mac _ _ _ _ _ _ _ _ _ Hsl). unfold macbuf_of.
  rewrite Hm. destruct (mac_on (d_newkeys tx)); [|by rewrite (@zlen_nil Z)].
  destruct (Hk eq_refl) as (Kt & Kr & Hl & _). rewrite Hl.
  destruct (packet_mac_facts _ key seqnr (if etm_on (d_newkeys tx) then ztake (zlen plain) wire else plain) Kt) as [-> HB].
  split; [done|]. split; [done|]. by eapply mac_len_max.
Qed.

(** How much is needed and what [read_packet] makes of it. *)
Lemma need_facts i : opening i ->
  (if negb (aadlen_of (d_newkeys i) =? 0) then zlen plain - 4
   else u32 (4 + (zlen plain - 4) - block_of (d_newkeys i))) = zlen plain - head_len - aad /\
  0 <= zlen plain - head_len - aad.
Proof.
  intros Ho. destruct (plain_facts (op_cipher _ Ho) (l_row_tx _ _ _ _ (op_peers _ Ho)))
    as (H1 & H2 & HpB & HwB & H3 & H4 & Ha & Hb & Hh & Hm).
  destruct (row_facts (op_cipher _ Ho)) as [Hbs _].
  destruct (row_ok_facts _ _ (l_row_rx _ _ _ _ (op_peers _ Ho))) as (_ & Ebl & _).
  rewrite (peers_aadlen _ _ _ _ (op_peers _ Ho)), Ebl. unfold head_len.
  destruct Ha as [->|[-> _]]; cbn [Z.eqb negb]; [lia|]. rewrite wrap_small by lia. lia.
Qed.

Lemma mac_step k i0 s macbuf need packlen y :
  peers c key tx i0 -> d_newkeys i0 = k -> keys_stay key k (d_newkeys (s_in s)) ->
  full (d_pkt (s_in s)) -> contents (d_pkt (s_in s)) = plain ->
  full (d_raw (s_in s)) -> contents (d_raw (s_in s)) = mac ++ y ->
  (etm_on k = true -> macbuf = packet_mac k key seqnr (ztake (zlen plain) wire)) ->
  exists raw' k',
    (if mac_on k then
       let! s := get_state in
       let b := d_pkt (s_in s) in
       let! macbuf :=
         if etm_on k then ret macbuf
         else on_in (compute_mac E seqnr (ztake (sshbuf_len b) (ptr_of b))) in
       check_mac E k macbuf need packlen
     else ret true) s = (Ok true, set_s_in (set_d_raw raw' (set_d_newkeys k' (s_in s))) s) /\
    keys_stay key k k' /\ full raw' /\ contents raw' = y.
Proof.
  intros Hpe Ek Hst Hf Hc Hraw Hcr Hetm. pose proof (mac_facts i0 Hpe) as (Hzm & HmB & Hm64). rewrite Ek in Hzm.
  set (i := s_in s) in *. destruct (mac_on k) eqn:Hm.
  2: { exists (d_raw i), (d_newkeys i). split; [|split_and!; try done].
       - unfold ret. f_equal. unfold i. by destruct s as [? []].
       - rewrite Hcr. apply zlen_0_nil in Hzm as ->. done. }
  destruct (l_mac _ _ _ _ Hpe) as (Em & Ee & Hk). rewrite Ek in Em, Ee, Hk. rewrite Hm in Em.
  destruct (Hk (eq_sym Em)) as (Kt & Kr & Hlk & Hv).
  assert (Hmac : packet_mac k key seqnr (if etm_on k then ztake (zlen plain) wire else plain) = mac).
  { rewrite (sl_mac _ _ _ _ _ _ _ _ _ Hsl). unfold macbuf_of. by rewrite <- Em, Ee, Hv. }
  pose proof (full_len _ Hf) as [Elen _]. destruct (ptr_of_prefix _ Hf) as [Ept _].
  rewrite Hc in Elen, Ept. pose proof (full_len _ Hraw) as [Erl _].
  assert (Emac : exists k1, (if etm_on k then ret macbuf
      else on_in (compute_mac E seqnr (ztake (sshbuf_len (d_pkt i)) (ptr_of (d_pkt i))))) s =
      (Ok mac, set_s_in (set_d_newkeys k1 i) s) /\ keys_stay key k k1).
  { rewrite Elen, Ept. destruct (etm_on k).
    - exists (d_newkeys i). split; [|done]. unfold ret. rewrite Hetm, Hmac by done. unfold i. by destruct s as [? []].
    - assert (Hon : mac_on (d_newkeys i) = true)
        by (destruct (keys_kept_facts _ _ (proj1 Hst)) as (_ & -> & _); done).
      destruct (maybe_mac_spec E true seqnr plain i key HE (keys_stay_key _ _ _ Hst) (l_range _ _ _ _ Hpe) (fun _ => Hon))
        as (k1 & E1 & Hst1).
      exists k1. split; [|by eapply keys_stay_trans]. rewrite <- Hmac, <- (proj2 (proj2 Hst Hm)).
      exact (on_in_ok _ s _ _ E1). }
  destruct Emac as (k1 & E1 & Hst1).
  destruct (full_consume (mac_len_of k) (d_raw i) Hraw) as (raw' & E2 & Hr' & Hc'); [rewrite Hcr; zl|].
  exists raw', k1. split; [|split; [done|split; [done|rewrite Hc', Hcr; by apply zdrop_app]]].
  unfold bind at 1, get_state at 1. cbv zeta. run E1. unfold check_mac. unfold bind at 1, get_state at 1.
  change (d_raw (s_in (set_s_in (set_d_newkeys k1 i) s))) with (d_raw i).
  assert (timingsafe_bcmp mac (ptr_of (d_raw i)) (mac_len_of k) = 0) as ->.
  { apply timingsafe_bcmp_zero; [done|by apply ptr_of_prefix|zl| |].
    - pose proof (full_ptr_zlen _ Hraw). rewrite Hcr, zlen_app in *. zl.
    - symmetry. eapply (ptr_prefix _ [] mac y); [done|by rewrite app_nil_r|zl|rewrite Hcr; zl]. }
  cbn [negb Z.eqb]. run (on_in_ok _ (set_s_in (set_d_newkeys k1 i) s) _ _ (on_raw_ok _ (set_d_newkeys k1 i) _ _ E2)).
  done.
Qed.

(** *** The payload and what follows it *)

Lemma open_payload_spec k s t body :
  payload = t :: body -> SSH2_MSG_MIN <= t < SSH2_MSG_LOCAL_MIN -> comp_on k = false -> Bytes plain ->
  full (d_pkt (s_in s)) -> contents (d_pkt (s_in s)) = plain ->
  exists b, open_payload E write_wait k s = (Ok t, set_s_in (set_d_pkt b (s_in s)) s) /\
    full b /\ contents b = body.
Proof.
  intros Ep Ht Hcomp HpB Hf Hc. set (i := s_in s) in *.
  destruct (framed_length payload plain (sl_framed _ _ _ _ _ _ _ _ _ Hsl)) as (_ & Hpl & Hzp); [lia|done|].
  assert (Hpad : byte_at (ptr_of (d_pkt i)) 4 = byte_at plain 4).
  { destruct (ptr_of_prefix _ Hf) as [Ept _]. rewrite Hc in Ept. rewrite <- Ept at 1.
    unfold byte_at. rewrite nth_ztake by lia. done. }
  destruct (full_consume (4 + 1) (d_pkt i) Hf) as (b1 & E1 & Hf1 & Hc1); [rewrite Hc; lia|].
  rewrite Hc in Hc1.
  assert (Hz1 : zlen (contents b1) = zlen payload + byte_at plain 4) by (rewrite Hc1, zlen_zdrop; lia).
  destruct (full_consume_end (byte_at plain 4) b1 Hf1) as (b2 & E2 & Hf2 & Hc2); [lia|].
  rewrite Hz1, Hc1 in Hc2.
  assert (Hc2' : contents b2 = t :: body).
  { rewrite Hc2, <- Ep. destruct (sl_framed _ _ _ _ _ _ _ _ _ Hsl) as (padlen & pad & _ & _ & ->).
    replace (4 + 1) with (zlen (be_bytes 4 (1 + zlen payload + padlen) ++ [padlen]))
      by (rewrite zlen_app, be_bytes_zlen; done).
    rewrite (cons_middle padlen), (app_assoc (be_bytes _ _)), zdrop_app by done.
    apply ztake_app. lia. }
  destruct (full_get_u8 b2 t body Hf2 Hc2') as (b3 & E3 & Hf3 & Hc3).
  exists b3. split; [|done]. unfold open_payload. unfold bind at 1, get_state at 1. cbv zeta. fold i. rewrite Hpad.
  destruct (Z.ltb_spec (byte_at plain 4) 4); [lia|]. rewrite Hcomp. unfold when.
  run (on_in_ok _ s _ _ (on_pkt_ok _ i _ _ E1)).
  run (on_in_ok _ (set_s_in (set_d_pkt b1 i) s) _ _ (on_pkt_ok _ (set_d_pkt b1 i) _ _ E2)).
  run (eq_refl (@Ok unit tt, set_s_in (set_d_pkt b2 i) s)).
  run (on_in_ok _ (set_s_in (set_d_pkt b2 i) s) _ _ (on_pkt_ok _ (set_d_pkt b2 i) _ _ E3)).
  destruct (Z.ltb_spec t SSH2_MSG_MIN); [lia|]. destruct (Z.leb_spec SSH2_MSG_LOCAL_MIN t); [lia|]. done.
Qed.

Lemma strip_ate r x y :
  In c ciphers -> row_ok c (d_newkeys tx) ->
  ztake head_len wire ++ r ++ x = wire ++ mac ++ y -> r ++ x = zdrop head_len wire ++ mac ++ y.
Proof.
  intros Hin Hrow Happ. rewrite <- (ztake_zdrop head_len wire) in Happ at 2. rewrite <- app_assoc in Happ.
  by apply app_inv_head in Happ.
Qed.

Lemma whole_zlen i : opening i ->
  zlen (zdrop head_len wire ++ mac) = zlen plain - head_len + c_auth_len c +
    (if mac_on (d_newkeys i) then mac_len_of (d_newkeys i) else 0) /\ 0 <= head_len.
Proof.
  intros Ho. destruct (plain_facts (op_cipher _ Ho) (l_row_tx _ _ _ _ (op_peers _ Ho)))
    as (H1 & H2 & HpB & HwB & H3 & H4 & Ha & Hb & Hh & Hm).
  destruct (row_facts (op_cipher _ Ho)) as [Hbs Hau]. destruct (mac_facts i (op_peers _ Ho)) as (Hzm & _).
  assert (0 <= head_len) by (unfold head_len; destruct (aad =? 0); lia).
  rewrite zlen_app, zlen_zdrop, Hzm by lia. lia.
Qed.

(** Not everything is there yet: nothing happens. *)
Lemma read_packet_wait s x y :
  opening (s_in s) -> full (d_raw (s_in s)) -> s_packlen s = zlen plain - 4 ->
  contents (d_raw (s_in s)) ++ x = zdrop head_len wire ++ mac ++ y -> (x = [] \/ y = @nil Z) -> x <> [] ->
  read_packet E write_wait s = (Ok (SSH_MSG_NONE, 0), s).
Proof.
  intros Ho Hraw Hpl Happ Hxy Hx. destruct Hxy as [->| ->]; [done|].
  destruct (plain_facts (op_cipher _ Ho) (l_row_tx _ _ _ _ (op_peers _ Ho)))
    as (H1 & H2 & HpB & HwB & H3 & H4 & Ha & Hb & Hh & Hm).
  destruct (row_facts (op_cipher _ Ho)) as [Hbs Hau]. destruct (need_facts _ Ho) as [En Hn0].
  destruct (row_ok_facts _ _ (l_row_rx _ _ _ _ (op_peers _ Ho))) as (Eau & Ebl & _).
  destruct (mac_facts _ (op_peers _ Ho)) as (Hzm & _ & Hm64). destruct (whole_zlen _ Ho) as [Hzw Hh0].
  pose proof (full_len _ Hraw) as [Elen _].
  unfold read_packet. unfold bind at 1, get_state at 1. cbv zeta. rewrite Hpl, En, Ebl, Eau, Hm.
  rewrite (peers_aadlen _ _ _ _ (op_peers _ Ho)). change (negb (0 =? 0)) with false. cbv iota.
  rewrite wrap_small by (rewrite <- Hzm; zl).
  assert (Hz := f_equal zlen Happ). rewrite app_nil_r, zlen_app, Hzw, <- Hzm in Hz.
  assert (0 < zlen x) by (destruct x; [done|rewrite zlen_cons; zl]).
  rewrite Elen, <- Hzm. destruct (Z.ltb_spec (zlen (contents (d_raw (s_in s))))
    (aad + (zlen plain - head_len - aad) + c_auth_len c + zlen mac)); [done|lia].
Qed.

(** The wire is opened: from the MAC over the ciphertext to the plaintext. *)
Lemma read_packet_decrypt s y :
  opening (s_in s) -> full (d_raw (s_in s)) ->
  contents (d_raw (s_in s)) = zdrop head_len wire ++ mac ++ y ->
  let i := s_in s in
  let k := d_newkeys i in
  let need := zlen plain - head_len - aad in
  exists macbuf k1 cc raw pkt,
    (forall X (f : bytes -> M session_state X),
      (let! macbuf := if etm_on k then on_in (compute_mac E seqnr (ztake (aad + need) (ptr_of (d_raw i)))) else ret [] in
       let! cp := on_in (on_pkt (sshbuf_reserve (A E) (u32 (aad + need)))) in
       on_in (decrypt_packet E cp seqnr need aad (c_auth_len c)) ;;;
       on_in (on_raw (sshbuf_consume (u32 (aad + need + c_auth_len c)))) ;;; f macbuf) s =
      f macbuf (set_s_in (mk_dir cc k1 (d_ps i) (d_max_blocks i) raw pkt (d_zs i) (d_zstarted i) (d_zfail i)) s)) /\
    (etm_on k = true -> macbuf = packet_mac k key seqnr (ztake (zlen plain) wire)) /\
    keys_stay key k k1 /\ cipher_pair c (d_cc tx1) cc /\
    full pkt /\ contents pkt = plain /\ full raw /\ contents raw = mac ++ y.
Proof.
  intros Ho Hraw Hcr i k need. fold i in Ho, Hraw, Hcr.
  destruct (plain_facts (op_cipher _ Ho) (l_row_tx _ _ _ _ (op_peers _ Ho)))
    as (H1 & H2 & HpB & HwB & H3 & H4 & Ha & Hb & Hh & Hm).
  destruct (row_facts (op_cipher _ Ho)) as [Hbs Hau]. destruct (need_facts _ Ho) as [_ Hn0].
  destruct (whole_zlen _ Ho) as [Hzw Hh0]. destruct (ptr_of_prefix _ Hraw) as [_ HptB].
  pose proof (op_peers _ Ho) as Hpe. destruct (l_mac _ _ _ _ Hpe) as (Em & Ee & Hk). fold i k in Em, Ee, Hk.
  assert (Hw : forall n, 0 <= n <= zlen (zdrop head_len wire) ->
    ztake n (ptr_of (d_raw i)) = ztake n (zdrop head_len wire)).
  { intros n Hn. eapply (ptr_prefix _ [] _ (mac ++ y)); [done|by rewrite app_nil_r|done|rewrite Hcr; zl]. }
  assert (Hzd : zlen (zdrop head_len wire) = zlen plain - head_len + c_auth_len c) by (rewrite zlen_zdrop; lia).
  destruct (maybe_mac_spec E (etm_on k) seqnr (ztake (aad + need) (ptr_of (d_raw i))) i key HE) as (k1 & E1 & Hst).
  { intros Hon. apply Hk. by rewrite <- Em. }
  { apply Hpe. }
  { unfold etm_on. intros [He _]%andb_true_iff. done. }
  destruct (full_reserve (A E) (aad + need) (d_pkt i)) as (cp & b1 & E2 & Hr);
    [apply HE|apply Ho|lia|rewrite (op_contents _ Ho); unfold SSHBUF_SIZE_MAX, need; rewrite zlen_ztake; lia|].
  destruct (reserved_room _ _ _ _ Hr) as (R1 & R2 & R3).
  destruct (op_open _ Ho (ptr_of (d_raw i)) (zdrop cp (b_mem b1))) as (cc & Hcc & E3).
  { done. }
  { rewrite H4. replace (zlen plain + c_auth_len c - head_len) with (zlen (zdrop head_len wire)) by lia.
    rewrite Hw by zl. by rewrite ztake_ge by lia. }
  { unfold need in R1. lia. }
  set (i1 := set_d_newkeys k1 i). set (i2 := set_d_pkt b1 i1).
  destruct (decrypt_packet_spec (d_pkt i) cp (aad + need) seqnr need aad (c_auth_len c) i2 (zdrop head_len plain) cc)
    as (b2 & E4 & Hf2 & Hc2).
  { done. }
  { rewrite zlen_zdrop; unfold need; lia. }
  { by apply Forall_zdrop. }
  { cbv zeta. replace (aad + need) with (zlen plain - head_len) by (unfold need; lia). exact E3. }
  rewrite (op_contents _ Ho), ztake_zdrop in Hc2.
  destruct (full_consume (aad + need + c_auth_len c) (d_raw i) Hraw) as (raw & E5 & Hraw' & Hcr').
  { rewrite Hcr. unfold need. zl. }
  exists (if etm_on k then packet_mac k key seqnr (ztake (aad + need) (ptr_of (d_raw i))) else []), k1, cc, raw, b2.
  split; [|split; [|split; [exact Hst|split; [done|split; [done|split; [done|split; [done|]]]]]]].
  - intros X f. rewrite (wrap_small 32 (aad + need)), (wrap_small 32 (aad + need + c_auth_len c)) by (unfold need; lia).
    assert (E1' : (if etm_on k then on_in (compute_mac E seqnr (ztake (aad + need) (ptr_of (d_raw i)))) else ret []) s =
      (Ok (if etm_on k then packet_mac k key seqnr (ztake (aad + need) (ptr_of (d_raw i))) else []),
       set_s_in i1 s)).
    { etransitivity; [|exact (on_in_ok _ s _ _ E1)]. destruct (etm_on k); [done|]. unfold on_in, on_dir, focus, ret. cbn.
      by rewrite set_s_in_id. }
    run E1'. run (on_in_ok _ (set_s_in i1 s) _ _ (on_pkt_ok _ i1 _ _ E2)).
    run (on_in_ok _ (set_s_in i2 s) _ _ E4).
    run (on_in_ok _ (set_s_in (set_d_cc cc (set_d_pkt b2 i2)) s) _ _ (on_raw_ok _ (set_d_cc cc (set_d_pkt b2 i2)) _ _ E5)).
    done.
  - intros He. rewrite He. f_equal. assert (aad = 4).
    { destruct Ha as [|[Ha _]]; [done|]. unfold aadlen_of in Ha. rewrite <- Ee, He in Ha. done. }
    assert (Hh0' : head_len = 0) by (unfold head_len; by replace (aad) with 4).
    replace (aad + need) with (zlen plain) by (unfold need; lia).
    rewrite Hw, Hh0', zdrop_0; [done|]. lia.
  - rewrite Hcr', Hcr. apply zdrop_app. unfold need. lia.
Qed.

(** The receiving end after the packet. *)
Lemma linked_next i k' cc d' :
  opening i -> keys_stay key (d_newkeys i) k' -> cipher_pair c (d_cc tx1) cc ->
  d_cc d' = cc -> d_newkeys d' = k' -> ps_seqnr (d_ps d') = u32 (ps_seqnr (d_ps i) + 1) ->
  linked c key tx1 d'.
Proof.
  intros Ho Hs Hcc Ec Ek Es. pose proof (op_peers _ Ho) as [Rt Rr Hm Eq Hr].
  destruct Hsl as [_ _ _ _ Hst Hsq _]. rewrite <- Ek in Hs.
  split; [by rewrite Ec|]. split.
  - by apply (keys_kept_facts _ _ (proj1 Hst)).
  - by apply (keys_kept_facts _ _ (proj1 Hs)).
  - by eapply mac_pair_stay.
  - by rewrite Es, Hsq, Eq.
  - rewrite Hsq. by apply wrap_range.
Qed.

Lemma read_packet_open s t body y :
  payload = t :: body -> receivable (s_server_side s) t -> settled s ->
  opening (s_in s) -> full (d_raw (s_in s)) -> s_packlen s = zlen plain - 4 ->
  contents (d_raw (s_in s)) = zdrop head_len wire ++ mac ++ y ->
  u32 (ps_packets (d_ps (s_in s)) + 1) <> 0 \/ norekey_of s = true ->
  exists i', read_packet E write_wait s = (Ok (t, seqnr), set_s_packlen 0 (set_s_in i' s)) /\
    linked c key tx1 i' /\ full (d_raw i') /\ contents (d_raw i') = y /\
    full (d_pkt i') /\ contents (d_pkt i') = body /\
    ps_packets (d_ps i') = u32 (ps_packets (d_ps (s_in s)) + 1).
Proof.
  intros Ep Hrcv Hset Ho Hraw Hpl Hcr Hnr. set (i := s_in s) in *. set (k := d_newkeys i) in *.
  destruct (plain_facts (op_cipher _ Ho) (l_row_tx _ _ _ _ (op_peers _ Ho)))
    as (H1 & H2 & HpB & HwB & H3 & H4 & Ha & Hb & Hh & Hm).
  destruct (row_facts (op_cipher _ Ho)) as [Hbs Hau]. destruct (need_facts _ Ho) as [En Hn0]. fold k in En.
  destruct (row_ok_facts _ _ (l_row_rx _ _ _ _ (op_peers _ Ho))) as (Eau & Ebl & Eco). fold k in Eau, Ebl, Eco.
  destruct (mac_facts _ (op_peers _ Ho)) as (Hzm & _ & Hm64). destruct (whole_zlen _ Ho) as [Hzw Hh0]. fold k in Hzm, Hzw.
  assert (Eaad : aadlen_of k = aad) by (apply (peers_aadlen _ _ _ _ (op_peers _ Ho))).
  pose proof (full_len _ Hraw) as [Elen _].
  destruct (read_packet_decrypt s y Ho Hraw Hcr)
    as (macbuf & k1 & cc & raw & pkt & Edec & Hetm & Hst & Hcc & Hpk & Hpc & Hrw & Hrc).
  fold i k in Edec, Hetm, Hst.
  set (i1 := mk_dir cc k1 (d_ps i) (d_max_blocks i) raw pkt (d_zs i) (d_zstarted i) (d_zfail i)) in *.
  destruct (mac_step k i (set_s_in i1 s) macbuf (zlen plain - head_len - aad) (zlen plain - 4) y (op_peers _ Ho) eq_refl)
    as (raw' & k' & Emac & Hst' & Hrw' & Hrc'); try done.
  set (i2 := set_d_raw raw' (set_d_newkeys k' i1)).
  set (i3 := set_d_ps (next_packet (d_ps i)) i2).
  set (i4 := set_d_ps (mk_ps (u32 (ps_seqnr (d_ps i) + 1)) (u32 (ps_packets (d_ps i) + 1))
    (u64 (ps_blocks (d_ps i) + u32 (zlen plain - 4 + 4) / bs)) (u64 (ps_bytes (d_ps i) + u32 (zlen plain - 4 + 4)))) i2).
  destruct (open_payload_spec k (set_s_in i4 s) t body Ep) as (b & Epay & Hfb & Hcb); try done; [apply Hrcv|].
  exists (set_d_pkt b i4). split; [|split; [by eapply linked_next|done]].
  unfold read_packet. unfold bind at 1, get_state at 1. cbv zeta. fold i k.
  rewrite Hpl, En, Ebl, Eau, Hm, Eaad, <- Hzm, (l_seqnr _ _ _ _ (op_peers _ Ho)).
  change (negb (0 =? 0)) with false. cbv iota.
  rewrite (wrap_small 32 (_ + zlen mac)) by zl. rewrite Elen.
  destruct (Z.ltb_spec (zlen (contents (d_raw i)))
    (aad + (zlen plain - head_len - aad) + c_auth_len c + zlen mac)) as [Hlt|_].
  { rewrite Hcr, app_assoc, zlen_app, Hzw, <- Hzm in Hlt. zl. }
  etransitivity; [apply Edec|]. fold i1. run Emac. cbn [negb].
  run (eq_refl (@Ok unit tt, set_s_in i3 s)). unfold bind at 1, get_state at 1.
  change (ps_packets (d_ps (s_in (set_s_in i3 s)))) with (u32 (ps_packets (d_ps i) + 1)).
  change (norekey_of (set_s_in i3 s)) with (norekey_of s).
  assert (((u32 (ps_packets (d_ps i) + 1) =? 0) && negb (norekey_of s)) = false) as ->.
  { destruct Hnr as [Hnr| ->]; [|by rewrite andb_false_r]. by apply Z.eqb_neq in Hnr as ->. }
  run (eq_refl (@Ok unit tt, set_s_in i4 s)). run Epay.
  run (after_packet_spec (set_s_in (set_d_pkt b i4) s) t Hrcv Hset). done.
Qed.

(** [ssh_packet_read_poll2] as long as a part [x] of the packet is missing ... *)
Lemma read_poll2_wait s ate x y :
  s_discard s = 0 -> waiting (s_in s) (s_packlen s) ate ->
  ate ++ contents (d_raw (s_in s)) ++ x = wire ++ mac ++ y -> (x = [] \/ y = @nil Z) -> x <> [] ->
  exists i' pl' ate', ssh_packet_read_poll2 E write_wait s = (Ok (SSH_MSG_NONE, 0), set_s_packlen pl' (set_s_in i' s)) /\
    waiting i' pl' ate' /\ ate' ++ contents (d_raw i') = ate ++ contents (d_raw (s_in s)) /\
    d_ps i' = d_ps (s_in s).
Proof.
  intros Hd Hw Happ Hxy Hx. destruct (read_length_spec s ate x y Hw Happ Hxy) as (go & i' & pl' & ate' & Er & Hw' & Hc & Hps & Hgo).
  exists i', pl', ate'. split; [|done]. unfold ssh_packet_read_poll2. unfold bind at 1, get_state at 1. rewrite Hd.
  change (negb (0 =? 0)) with false. cbv iota. run Er. destruct go; [|done].
  destruct Hw' as (Hraw' & [(Hpl & _)|(_ & Ha & Ho)]).
  { destruct Hw as (_ & [(_ & _ & (Hp & Hpe) & _)|(_ & _ & Ho)]).
    - destruct (plain_facts (proj1 Hp) (l_row_tx _ _ _ _ Hpe)) as (_ & ? & _ & _ & ? & _). lia.
    - destruct (plain_facts (op_cipher _ Ho) (l_row_tx _ _ _ _ (op_peers _ Ho))) as (_ & ? & _ & _ & ? & _). lia. }
  apply (read_packet_wait (set_s_packlen pl' (set_s_in i' s)) x y); try done.
  apply (strip_ate _ x y (op_cipher _ Ho) (l_row_tx _ _ _ _ (op_peers _ Ho))).
  change (s_in (set_s_packlen pl' (set_s_in i' s))) with i'. by rewrite app_assoc, <- Ha, Hc, <- app_assoc.
Qed.

(** ... and when it is complete, whatever [y] comes after it. *)
Lemma read_poll2_packet s ate t body y :
  payload = t :: body -> receivable (s_server_side s) t -> settled s ->
  u32 (ps_packets (d_ps (s_in s)) + 1) <> 0 \/ norekey_of s = true ->
  s_discard s = 0 -> waiting (s_in s) (s_packlen s) ate ->
  ate ++ contents (d_raw (s_in s)) = wire ++ mac ++ y ->
  exists i', ssh_packet_read_poll2 E write_wait s = (Ok (t, seqnr), set_s_packlen 0 (set_s_in i' s)) /\
    linked c key tx1 i' /\ full (d_raw i') /\ contents (d_raw i') = y /\
    full (d_pkt i') /\ contents (d_pkt i') = body /\
    ps_packets (d_ps i') = u32 (ps_packets (d_ps (s_in s)) + 1).
Proof.
  intros Ep Hrcv Hset Hnr Hd Hw Happ.
  destruct (read_length_spec s ate [] y Hw) as (go & i1 & pl' & ate' & Er & Hw' & Hc & Hps & Hgo);
    [by rewrite app_nil_r|by left|]. destruct go; [|done]. subst pl'.
  destruct Hw' as (Hraw' & [(Hpl & _ & (Hp & Hpe) & _)|(_ & Ha & Ho)]).
  { destruct (plain_facts (proj1 Hp) (l_row_tx _ _ _ _ Hpe)) as (_ & ? & _ & _ & ? & _). lia. }
  set (s1 := set_s_packlen (zlen plain - 4) (set_s_in i1 s)) in *.
  destruct (read_packet_open s1 t body y Ep) as (i' & Ei & Hl & Hr & Hrc & Hpk & Hpc & Hpp); try done.
  - rewrite <- (app_nil_r (contents _)).
    apply (strip_ate _ [] y (op_cipher _ Ho) (l_row_tx _ _ _ _ (op_peers _ Ho))).
    rewrite app_nil_r. change (d_raw (s_in s1)) with (d_raw i1). by rewrite <- Ha, Hc.
  - change (d_ps (s_in s1)) with (d_ps i1). by rewrite Hps.
  - exists i'. split; [|split_and!; try done; rewrite Hpp; change (d_ps (s_in s1)) with (d_ps i1); by rewrite Hps].
    unfold ssh_packet_read_poll2. unfold bind at 1, get_state at 1. rewrite Hd.
    change (negb (0 =? 0)) with false. cbv iota. run Er. exact Ei.
Qed.
End packet.

(** With no input at all there is no packet. *)
Lemma read_poll2_idle c key tx s :
  s_discard s = 0 -> s_packlen s = 0 -> linked c key tx (s_in s) -> full (d_raw (s_in s)) ->
  contents (d_raw (s_in s)) = [] -> ssh_packet_read_poll2 E write_wait s = (Ok (SSH_MSG_NONE, 0), s).
Proof.
  intros Hd Hpl (Hp & Hpe) Hraw Hc. unfold ssh_packet_read_poll2. unfold bind at 1, get_state at 1. rewrite Hd.
  change (negb (0 =? 0)) with false. cbv iota.
  enough (Er : read_length E s = (Ok false, s)) by (by run Er).
  unfold read_length. unfold bind at 1, get_state at 1. rewrite Hpl. change (negb (0 =? 0)) with false. cbv iota zeta.
  destruct (row_ok_facts _ _ (l_row_rx _ _ _ _ Hpe)) as (_ & Ebl & _). destruct (ciphers_rows c (proj1 Hp)) as [Hbs _ _].
  pose proof (full_len _ Hraw) as [Elen _]. rewrite Hc in Elen. rewrite Elen, Ebl. destruct (negb (aadlen_of _ =? 0)).
  - destruct (cipher_get_length_short (e_tmp E) (ps_seqnr (d_ps (s_in s))) (ptr_of (d_raw (s_in s))) (u32 (zlen (@nil Z)))
      (d_cc (s_in s))) as (r & ->); [done|]. by destruct s as [? []].
  - destruct (Z.ltb_spec (zlen (@nil Z)) (c_block_size c)) as [|Hge]; [done|]. rewrite (@zlen_nil Z) in Hge. lia.
Qed.

(** ** A stream of packets *)

(** [W] is what the packets with the payloads [ps] are on the wire. *)
Inductive flow (c : sshcipher) (key : bytes) : dir -> list bytes -> bytes -> dir -> Prop :=
| flow_nil d : flow c key d [] [] d
| flow_cons d d1 d2 p ps plain wire mac W :
    sealed (e_tmp E) c key p plain wire mac d d1 -> 1 <= zlen p <= 261000 -> flow c key d1 ps W d2 ->
    flow c key d (p :: ps) (wire ++ mac ++ W) d2.

(** The packets that are received for them, from the sequence number [seq] on. *)
Fixpoint numbered (seq : Z) (ps : list bytes) : list (Z * Z * bytes) :=
  match ps with
  | [] => []
  | p :: ps => (byte_at p 0, seq, zdrop 1 p) :: numbered (u32 (seq + 1)) ps
  end.

(** The packets that have been received completely, with what is left of their
    payload. *)
Fixpoint drain (fuel : nat) : M session_state (list (Z * Z * bytes)) :=
  match fuel with
  | O => fail SSH_ERR_INTERNAL_ERROR
  | S fuel =>
      let! (type, seqnr) := ssh_packet_read_poll2 E write_wait in
      if type =? SSH_MSG_NONE then ret []
      else
        let! s := get_state in
        let! rest := drain fuel in
        ret ((type, seqnr, contents (d_pkt (s_in s))) :: rest)
  end.

(** Input that arrives in pieces. *)
Fixpoint receive (fuel : nat) (chunks : list bytes) : M session_state (list (Z * Z * bytes)) :=
  match chunks with
  | [] => ret []
  | chunk :: chunks =>
      ssh_packet_process_incoming E chunk (zlen chunk) ;;;
      let! l := drain fuel in
      let! rest := receive fuel chunks in
      ret (l ++ rest)
  end.

(** Some packets are still to come: [ps], of which [ate] and the input are the
    first bytes and [x] the others. *)
Definition pending (c : sshcipher) (key : bytes) (txn : dir) (s : session_state) (tx : dir) (ps : list bytes)
    (x : bytes) : Prop :=
  full (d_raw (s_in s)) /\
  match ps with
  | [] => tx = txn /\ linked c key tx (s_in s) /\ full (d_pkt (s_in s)) /\ s_packlen s = 0 /\ contents (d_raw (s_in s)) = [] /\ x = []
  | p :: ps' => exists plain wire mac tx1 W ate,
      sealed (e_tmp E) c key p plain wire mac tx tx1 /\ 1 <= zlen p <= 261000 /\ flow c key tx1 ps' W txn /\
      waiting c key plain wire tx tx1 (s_in s) (s_packlen s) ate /\
      ate ++ contents (d_raw (s_in s)) ++ x = wire ++ mac ++ W
  end.

Lemma pending_start c key s tx ps W tx2 r x :
  linked c key tx (s_in s) -> full (d_pkt (s_in s)) -> full (d_raw (s_in s)) -> s_packlen s = 0 ->
  contents (d_raw (s_in s)) = r -> flow c key tx ps W tx2 -> r ++ x = W -> pending c key tx2 s tx ps x.
Proof.
  intros Hl Hpk Hraw Hpl Hr Hf HW. split; [done|]. destruct Hf as [d|d d1 d2 p ps plain wire mac W Hsl Hp Hf].
  - apply app_eq_nil in HW as [-> ->]. done.
  - exists plain, wire, mac, d1, W, []. split_and!; try done; try lia; [|by rewrite Hr].
    split; [done|]. by left.
Qed.

Lemma waiting_peers c key plain wire tx tx1 i pl ate :
  waiting c key plain wire tx tx1 i pl ate -> In c ciphers /\ peers c key tx i.
Proof.
  intros (_ & [(_ & _ & (Hp & Hpe) & _)|(_ & _ & Ho)]).
  - by split; [apply Hp|].
  - split; [apply (op_cipher _ _ _ _ _ _ _ Ho)|apply (op_peers _ _ _ _ _ _ _ Ho)].
Qed.

Lemma packet_size c key p plain wire mac tx tx1 i :
  sealed (e_tmp E) c key p plain wire mac tx tx1 -> 1 <= zlen p <= 261000 -> In c ciphers -> peers c key tx i ->
  0 < zlen wire + zlen mac <= 261400.
Proof.
  intros Hsl Hp Hin Hpe. destruct (plain_facts c key p plain wire mac tx tx1 Hsl Hp Hin (l_row_tx _ _ _ _ Hpe))
    as (_ & ? & _ & _ & ? & ? & _).
  destruct (row_facts c Hin) as [_ ?]. destruct (mac_facts c key p plain wire mac tx tx1 Hsl i Hpe) as (_ & _ & ?). zl.
Qed.

(** A message of a type that the receiver passes on. *)
Definition message_ok (server : bool) (p : bytes) : Prop := exists t body, p = t :: body /\ receivable server t.

Definition counter_ok (s : session_state) (n : nat) : Prop :=
  norekey_of s = true \/ 0 <= ps_packets (d_ps (s_in s)) /\ ps_packets (d_ps (s_in s)) + Z.of_nat n < 2 ^ 32.

Lemma drain_spec c key txn x : forall ps fuel s tx,
  (length ps < fuel)%nat -> s_discard s = 0 -> settled s -> Forall (message_ok (s_server_side s)) ps ->
  counter_ok s (length ps) -> pending c key txn s tx ps x ->
  exists l ps' tx' pl' i', let s' := set_s_packlen pl' (set_s_in i' s) in
    drain fuel s = (Ok l, s') /\
    numbered (ps_seqnr (d_ps tx)) ps = l ++ numbered (ps_seqnr (d_ps tx')) ps' /\
    pending c key txn s' tx' ps' x /\ counter_ok s' (length ps') /\ (length ps' <= length ps)%nat /\
    Forall (message_ok (s_server_side s)) ps' /\
    zlen (contents (d_raw i')) <= 261400 /\ (x = [] -> ps' = []).
Proof.
  induction ps as [|p ps IH]; intros fuel s tx Hfuel Hd Hset HF Hcnt Hpend; (destruct fuel as [|fuel]; [lia|]).
  - destruct Hpend as (Hraw & Htx & Hl & Hpk & Hpl & Hc & Hx).
    exists [], [], tx, 0, (s_in s). assert (Es : set_s_packlen 0 (set_s_in (s_in s) s) = s)
      by (rewrite <- (set_s_packlen_same s _ 0) by done; apply set_s_in_id).
    cbv zeta. rewrite Es. split; [|split_and!; try done; rewrite Hc; done].
    cbn [drain]. run (read_poll2_idle c key tx s Hd Hpl Hl Hraw Hc). done.
  - destruct Hpend as (Hraw & plain & wire & mac & tx1 & W & ate & Hsl & Hp & Hfl & Hw & Happ).
    destruct (waiting_peers _ _ _ _ _ _ _ _ _ Hw) as [Hin Hpe].
    pose proof (packet_size _ _ _ _ _ _ _ _ _ Hsl Hp Hin Hpe) as Hsz.
    apply Forall_cons in HF as [(t & body & Ep & Hrcv) HF].
    assert (Happ' : (ate ++ contents (d_raw (s_in s))) ++ x = (wire ++ mac) ++ W) by (by rewrite <- !app_assoc).
    clear Happ. rename Happ' into Happ.
    destruct (Z.lt_ge_cases (zlen (ate ++ contents (d_raw (s_in s)))) (zlen (wire ++ mac))) as [Hlt|Hge].
    + destruct (cut_short _ _ _ _ Happ Hlt) as (x1 & Hx1 & Hwm & Hx).
      destruct (read_poll2_wait c key p plain wire mac tx tx1 Hsl Hp s ate x1 []) as (i' & pl' & ate' & Er & Hw' & Hc' & Hps);
        try done; [by rewrite app_nil_r, app_assoc|by right|].
      exists [], (p :: ps), tx, pl', i'. cbv zeta. split; [|split_and!; try done].
      * cbn [drain]. by run Er.
      * split; [apply Hw'|]. exists plain, wire, mac, tx1, W, ate'. split_and!; try done; try lia.
        change (d_raw (s_in (set_s_packlen pl' (set_s_in i' s)))) with (d_raw i').
        by rewrite app_assoc, Hc', Happ, <- app_assoc.
      * unfold counter_ok in *. change (d_ps (s_in (set_s_packlen pl' (set_s_in i' s)))) with (d_ps i'). by rewrite Hps.
      * apply Forall_cons. split; [by exists t, body|done].
      * rewrite <- Hc', !zlen_app in Hlt. zl.
      * intros ->. destruct x1; done.
    + destruct (cut_long _ _ _ _ Happ Hge) as (y & Hr & HW).
      destruct (read_poll2_packet c key p plain wire mac tx tx1 Hsl Hp s ate t body y)
        as (i' & Er & Hl' & Hraw' & Hrc' & Hpk' & Hpc' & Hpp); try done.
      { destruct Hcnt as [|[H0 H1]]; [by right|left]. cbn in H1. rewrite wrap_small; lia. }
      { by rewrite Hr, <- app_assoc. }
      set (s1 := set_s_packlen 0 (set_s_in i' s)) in *.
      destruct (IH fuel s1 tx1) as (l & ps' & tx' & pl' & i2 & Ed & En & Hpd & Hct & Hlen & HF' & Hz & Hx); try done.
      { cbn in Hfuel. lia. }
      { destruct Hcnt as [|[H0 H1]]; [by left|right]. change (d_ps (s_in s1)) with (d_ps i').
        cbn in H1. rewrite Hpp, wrap_small; lia. }
      { by eapply pending_start. }
      exists ((t, ps_seqnr (d_ps tx), body) :: l), ps', tx', pl', i2. cbv zeta.
      split; [|split_and!; try done].
      * cbn [drain]. run Er. cbv beta iota. assert ((t =? SSH_MSG_NONE) = false) as ->.
        { destruct Hrcv as [? _]. unfold SSH2_MSG_MIN, SSH_MSG_NONE in *. apply Z.eqb_neq. lia. }
        unfold bind at 1, get_state at 1. run Ed. change (s_in s1) with i'. rewrite Hpc'. done.
      * cbn [numbered app]. rewrite <- (sl_seqnr _ _ _ _ _ _ _ _ _ Hsl), En, Ep. done.
      * cbn. lia.
Qed.

(** More input does not disturb what the receiver knows. *)
Lemma pending_append c key txn s tx ps chunk x raw :
  full raw -> contents raw = contents (d_raw (s_in s)) ++ chunk ->
  pending c key txn s tx ps (chunk ++ x) -> pending c key txn (set_s_in (set_d_raw raw (s_in s)) s) tx ps x.
Proof.
  intros Hraw Hc (Hraw0 & Hps). split; [done|]. change (s_in (set_s_in ?d s)) with d.
  change (contents (d_raw (set_d_raw raw (s_in s)))) with (contents raw). rewrite Hc. destruct ps as [|p ps].
  - destruct Hps as (-> & (Hp & []) & Hpk & Hpl & Hc0 & [-> ->]%app_eq_nil). rewrite Hc0.
    by split_and!.
  - destruct Hps as (plain & wire & mac & tx1 & W & ate & Hsl & Hp & Hf & (_ & Hw) & Happ).
    exists plain, wire, mac, tx1, W, ate. split_and!; try done; try lia; [|by rewrite <- Happ, <- app_assoc].
    split; [done|]. destruct Hw as [(? & ? & (? & []) & ?)|(? & ? & [? [] ? ? ?])]; [by left|right].
    split; [done|]. split; [done|]. by split.
Qed.

Lemma receive_spec c key txn : forall chunks fuel s tx ps,
  (length ps < fuel)%nat -> s_discard s = 0 -> settled s -> Forall (message_ok (s_server_side s)) ps ->
  counter_ok s (length ps) -> pending c key txn s tx ps (concat chunks) ->
  Forall (fun chunk => Bytes chunk /\ zlen chunk <= 2 ^ 20) chunks -> zlen (contents (d_raw (s_in s))) <= 261400 ->
  (concat chunks = [] -> ps = []) ->
  exists s', receive fuel chunks s = (Ok (numbered (ps_seqnr (d_ps tx)) ps), s') /\ linked c key txn (s_in s').
Proof.
  induction chunks as [|chunk chunks IH]; intros fuel s tx ps Hfuel Hd Hset HF Hcnt Hpend HB Hz Hend.
  - rewrite Hend in * by done. exists s. split; [done|]. destruct Hpend as (_ & -> & Hl & _). done.
  - apply Forall_cons in HB as [[HcB Hcz] HB]. cbn [concat] in Hpend.
    pose proof Hpend as (Hraw & _).
    destruct (full_put (A E) chunk (d_raw (s_in s))) as (raw & Eput & Hraw' & Hc); [apply HE|done|done|unfold SSHBUF_SIZE_MAX; lia|].
    set (s1 := set_s_in (set_d_raw raw (s_in s)) s).
    destruct (drain_spec c key txn (concat chunks) ps fuel s1 tx)
      as (l & ps' & tx' & pl' & i' & Ed & En & Hpd & Hct & Hlen & HF' & Hz' & Hx); try done.
    { by eapply pending_append. }
    destruct (IH fuel (set_s_packlen pl' (set_s_in i' s1)) tx' ps') as (s' & Er & Hl'); try done; [lia|].
    exists s'. split; [|done]. cbn [receive].
    assert (Ei : ssh_packet_process_incoming E chunk (zlen chunk) s = (Ok tt, s1)).
    { unfold ssh_packet_process_incoming. unfold bind at 1, get_state at 1. rewrite Hd.
      change (negb (0 =? 0)) with false. cbv iota. exact (on_in_ok _ s _ _ (on_raw_ok _ (s_in s) _ _ Eput)). }
    run Ei. run Ed. run Er. by rewrite En.
Qed.

(** ** Authenticity *)

Lemma on_in_inv {X} (m : M dir X) s a s' :
  on_in m s = (Ok a, s') -> exists d, m (s_in s) = (Ok a, d) /\ s' = set_s_in d s.
Proof.
  unfold on_in, on_dir, focus. change (get_dir false s) with (s_in s).
  destruct (m (s_in s)) as [r d]. intros [= -> <-]. by exists d.
Qed.

(** The parts of the receiving direction that the MAC depends on, and the
    input. *)
Definition same_input (i i' : dir) : Prop :=
  d_newkeys i' = d_newkeys i /\ d_ps i' = d_ps i /\ d_raw i' = d_raw i.

Lemma read_length_etm s s1 :
  etm_on (d_newkeys (s_in s)) = true -> 0 <= s_packlen s <= PACKET_MAX_SIZE -> read_length E s = (Ok true, s1) ->
  same_input (s_in s) (s_in s1) /\ 0 <= s_packlen s1 <= PACKET_MAX_SIZE.
Proof.
  intros He Hpl. unfold read_length. unfold bind at 1, get_state at 1. cbv zeta.
  destruct (negb (s_packlen s =? 0)); [by intros [= <-]|].
  unfold aadlen_of. rewrite He. change (negb (4 =? 0)) with true. cbv iota.
  destruct (cipher_get_length _ _ _ _ _) as [[plen|e] cc]; [|done]. intros H.
  apply bind_Ok in H as (a & s2 & [= <- <-] & H). destruct (bad_packlen plen) eqn:Hb.
  - apply bind_Ok in H as (? & ? & _ & H). done.
  - apply bind_Ok in H as (a2 & s3 & H2 & [= <-]). apply on_in_inv in H2 as (d & H2 & ->).
    unfold on_pkt, focus, update in H2. injection H2 as <- <-. split; [done|].
    unfold bad_packlen in Hb. cbn. lia.
Qed.

Lemma decrypt_packet_input cp sq len aadlen authlen d a d' :
  decrypt_packet E cp sq len aadlen authlen d = (Ok a, d') -> same_input d d'.
Proof.
  unfold decrypt_packet. destruct (cipher_crypt _ _ _ _ _ _ _) as [r [cc dest]]. by intros [= _ <-].
Qed.
Lemma reserve_input n d a d' : on_pkt (sshbuf_reserve (A E) n) d = (Ok a, d') -> same_input d d'.
Proof. unfold on_pkt, focus. destruct (sshbuf_reserve _ _ _). by intros [= _ <-]. Qed.

Lemma read_packet_etm s key t q s' :
  let i := s_in s in
  let k := d_newkeys i in
  etm_on k = true -> mac_key_ok k key -> in_range 32 (ps_seqnr (d_ps i)) -> full (d_raw i) ->
  0 <= s_packlen s <= PACKET_MAX_SIZE ->
  read_packet E write_wait s = (Ok (t, q), s') -> t <> SSH_MSG_NONE ->
  q = ps_seqnr (d_ps i) /\
  exists ct rest, contents (d_raw i) = ct ++ packet_mac k key q ct ++ rest /\ zlen ct = 4 + s_packlen s.
Proof.
  intros i k He Hk Hseq Hraw Hpl H Ht. unfold PACKET_MAX_SIZE in Hpl. unfold read_packet in H. unfold bind at 1, get_state at 1 in H. cbv zeta in H.
  fold i k in H. assert (Hon : mac_on k = true) by (unfold etm_on in He; by apply andb_true_iff in He as [? _]).
  assert (Ha : authlen_of k = 0).
  { destruct k as [k'|]; [|done]. unfold mac_on in Hon. apply andb_true_iff in Hon as [Hz _]. by apply Z.eqb_eq. }
  assert (Haad : aadlen_of k = 4) by (unfold aadlen_of; by rewrite He).
  rewrite Ha, Haad, He, Hon in H. change (negb (4 =? 0)) with true in H. cbv iota in H. set (n := s_packlen s) in *.
  destruct (packet_mac_facts k key (ps_seqnr (d_ps i)) [] Hk) as [Hz _]. pose proof (mac_len_max k key Hk) as Hml.
  assert (Hml0 : 0 <= mac_len_of k) by (rewrite <- Hz; apply zlen_nonneg). clear Hz.
  destruct (negb (n mod block_of k =? 0)). { apply bind_Ok in H as (? & ? & _ & [= <- _]). done. }
  rewrite (wrap_small 32 (4 + n + 0 + mac_len_of k)) in H by lia.
  pose proof (full_len _ Hraw) as [Elen _]. rewrite Elen in H.
  destruct (Z.ltb_spec (zlen (contents (d_raw i))) (4 + n + 0 + mac_len_of k)) as [|Hge]; [by injection H as <-|].
  destruct (ptr_of_prefix _ Hraw) as [Ept HptB].
  assert (Hpt : ztake (4 + n) (ptr_of (d_raw i)) = ztake (4 + n) (contents (d_raw i))).
  { rewrite <- Ept at 1. rewrite ztake_ztake, Z.min_l by lia. done. }
  rewrite Hpt in H. set (ct := ztake (4 + n) (contents (d_raw i))) in *.
  apply bind_Ok in H as (macbuf & s1 & H1 & H). apply on_in_inv in H1 as (d1 & H1 & ->).
  destruct (compute_mac_spec E (ps_seqnr (d_ps i)) ct i key HE Hk Hseq) as (k1 & E1 & _). fold k i in E1, H1.
  rewrite E1 in H1. injection H1 as <- <-.
  apply bind_Ok in H as (cp & s2 & H2 & H). apply on_in_inv in H2 as (d2 & H2 & ->).
  apply reserve_input in H2 as (_ & _ & Hr2).
  apply bind_Ok in H as (? & s3 & H3 & H). apply on_in_inv in H3 as (d3 & H3 & ->).
  apply decrypt_packet_input in H3 as (_ & _ & Hr3).
  apply bind_Ok in H as (? & s4 & H4 & H). apply on_in_inv in H4 as (d4 & H4 & ->).
  destruct (full_consume (4 + n) (d_raw i) Hraw) as (raw & E4 & Hraw4 & Hc4); [lia|].
  assert (Hd : d_raw (s_in (set_s_in d3 (set_s_in d2 (set_s_in (set_d_newkeys k1 i) s)))) = d_raw i)
    by (change (d_raw d3 = d_raw i); rewrite Hr3; change (d_raw d2 = d_raw i); by rewrite Hr2).
  assert (Hd4 : d_raw d4 = raw).
  { unfold on_raw, focus in H4. rewrite Hd, Z.add_0_r, (wrap_small 32 (4 + n)), E4 in H4 by lia. by injection H4 as _ <-. }
  apply bind_Ok in H as (go & s5 & H5 & H). destruct go; [|by injection H as <-].
  unfold bind at 1, get_state at 1 in H5. cbv zeta in H5. unfold ret at 1, bind at 1 in H5. unfold check_mac in H5.
  unfold bind at 1, get_state at 1 in H5.
  destruct (Z.eqb_spec (timingsafe_bcmp (packet_mac k key (ps_seqnr (d_ps i)) ct)
    (ptr_of (d_raw (s_in (set_s_in d4 (set_s_in d3 (set_s_in d2 (set_s_in (set_d_newkeys k1 i) s))))))) (mac_len_of k)) 0)
    as [Hcmp|_]; cbn [negb] in H5.
  2: { destruct (PACKET_MAX_SIZE <? n); [done|]. by apply bind_Ok in H5 as (? & ? & _ & [=]). }
  assert (q = ps_seqnr (d_ps i)) as ->.
  { apply bind_Ok in H as (? & s6 & _ & H). unfold bind at 1, get_state at 1 in H.
    destruct (_ && _); [done|]. apply bind_Ok in H as (? & s7 & _ & H). apply bind_Ok in H as (ty & s8 & _ & H).
    apply bind_Ok in H as (? & s9 & _ & H). by injection H as _ <-. }
  split; [done|]. change (d_raw (s_in (set_s_in d4 ?x))) with (d_raw d4) in Hcmp. rewrite Hd4 in Hcmp.
  destruct (packet_mac_facts k key (ps_seqnr (d_ps i)) ct Hk) as [Hzt HtB].
  destruct (ptr_of_prefix _ Hraw4) as [Ept4 HptB4]. pose proof (full_ptr_zlen _ Hraw4) as Hl4.
  assert (Hz4 : zlen (contents raw) = zlen (contents (d_raw i)) - (4 + n)) by (rewrite Hc4, zlen_zdrop; lia).
  apply timingsafe_bcmp_zero in Hcmp; [|done|done|lia|lia]. rewrite (ztake_ge _ (packet_mac _ _ _ _)) in Hcmp by lia.
  exists ct, (zdrop (mac_len_of k) (contents raw)). split; [|apply zlen_ztake; lia].
  rewrite <- (ztake_zdrop (4 + n) (contents (d_raw i))) at 1. fold ct. f_equal. rewrite <- Hc4.
  rewrite <- (ztake_zdrop (mac_len_of k) (contents raw)) at 1. f_equal.
  rewrite Hcmp, <- Ept4, ztake_ztake, Z.min_l by lia. done.
Qed.

(** C7. With a MAC in encrypt-then-mac mode, [ssh_packet_read_poll2] returns a
    packet only when the input begins with bytes that are followed by their MAC
    under the key and the sequence number of the packet: nothing that has been
    changed, left out, repeated or moved on the way is decrypted and passed
    on. *)
Theorem packet_authenticated s key t q s' :
  let i := s_in s in
  let k := d_newkeys i in
  etm_on k = true -> mac_key_ok k key -> in_range 32 (ps_seqnr (d_ps i)) -> full (d_raw i) ->
  0 <= s_packlen s <= PACKET_MAX_SIZE ->
  ssh_packet_read_poll2 E write_wait s = (Ok (t, q), s') -> t <> SSH_MSG_NONE ->
  q = ps_seqnr (d_ps i) /\
  exists ct rest, contents (d_raw i) = ct ++ packet_mac k key q ct ++ rest /\ 4 <= zlen ct.
Proof.
  intros i k He Hk Hseq Hraw Hpl H Ht. unfold ssh_packet_read_poll2 in H. unfold bind at 1, get_state at 1 in H.
  destruct (negb (s_discard s =? 0)); [by injection H as <-|].
  apply bind_Ok in H as (go & s1 & H1 & H). destruct go; [|by injection H as <-].
  destruct (read_length_etm s s1 He Hpl H1) as [(Ek & Eps & Eraw) Hpl1]. fold i in Ek, Eps, Eraw. fold k in Ek.
  destruct (read_packet_etm s1 key t q s') as (Hq & ct & rest & Hc & Hz); rewrite ?Ek, ?Eps, ?Eraw; try done.
  rewrite ?Ek, ?Eps, ?Eraw in *. split; [done|]. exists ct, rest. split; [done|lia].
Qed.
End stream.

(** ** Both ends *)

Section ends.
Context {EV : Evp} {EVS : EvpSpec EV} {UM : Umac} {UMS : UmacSpec UM}.
Context {EC : EvpCipher} {ECS : EvpCipherSpec EC} {ZL : Zlib}.
Context (Es Er : env) (HEs : env_ok Es) (HEr : env_ok Er).

Fixpoint send_all (ms : list bytes) : M session_state unit :=
  match ms with
  | [] => ret tt
  | m :: ms => send_message Es m ;;; send_all ms
  end.

(** A message that can be sent by one end and received by the other. *)
Definition sent_ok (tx_server rx_server : bool) (m : bytes) : Prop :=
  exists t body, m = t :: body /\ Bytes body /\ zlen body < 261000 /\ sendable tx_server t /\ receivable rx_server t.

(** What the messages take at most in the output buffer. *)
Fixpoint room (ms : list bytes) : Z := match ms with [] => 0 | m :: ms => zlen m + 500 + room ms end.

Lemma room_nonneg ms : 0 <= room ms.
Proof. induction ms as [|m ms IH]; cbn; [lia|]. zl. Qed.

Record can_send (c : sshcipher) (key : bytes) (s : session_state) : Prop := {
  cs_sender : sender c key (s_out s);
  cs_settled : settled s;
  cs_rekeying : s_rekeying s = false;
  cs_pad : 0 <= s_extra_pad s <= 224;
  cs_pkt : full (d_pkt (s_out s));
  cs_raw : full (d_raw (s_out s))
}.

Lemma sealed_size c key p plain wire mac tx tx' :
  sealed (e_tmp Er) c key p plain wire mac tx tx' -> sender c key tx -> zlen wire + zlen mac <= zlen p + 500.
Proof.
  intros [Hf _ (Hz & _) Hm _ _ _] [[rx Hp] _ Hk _]. destruct (framed_zlen _ _ Hf) as (padlen & Hpl & Hzp).
  destruct (ciphers_rows c (proj1 Hp)) as [_ Hau _].
  assert (zlen mac <= 64); [|lia]. rewrite Hm. unfold macbuf_of.
  destruct (mac_on (d_newkeys tx)); [|by rewrite (@zlen_nil Z)]. specialize (Hk eq_refl).
  rewrite (proj1 (packet_mac_facts _ _ _ _ Hk)). by eapply mac_len_max.
Qed.

Lemma send_all_spec c key rxs : forall ms s,
  can_send c key s -> Forall (sent_ok (s_server_side s) rxs) ms ->
  norekey_of s = true \/ 0 <= ps_packets (d_ps (s_out s)) /\
    ps_packets (d_ps (s_out s)) + Z.of_nat (length ms) < 2 ^ 32 ->
  zlen (contents (d_raw (s_out s))) + room ms <= SSHBUF_SIZE_MAX ->
  exists W s', send_all ms s = (Ok tt, s') /\ flow Er c key (s_out s) ms W (s_out s') /\
    contents (d_raw (s_out s')) = contents (d_raw (s_out s)) ++ W /\ can_send c key s'.
Proof.
  induction ms as [|m ms IH]; intros s Hcs HF Hcnt Hroom.
  - exists [], s. split_and!; try done; [apply flow_nil|by rewrite app_nil_r].
  - apply Forall_cons in HF as [(t & body & -> & HB & Hzb & Hsnd & _) HF]. cbn [room] in Hroom.
    rewrite zlen_cons in Hroom. pose proof (room_nonneg ms). pose proof Hcs as [Hse Hset Hrk Hpad Hpk Hraw].
    destruct (send_message_spec Es (e_tmp Er) c key t body s) as (plain & wire & mac & d' & E1 & Hsl & Hpk' & Hraw' & Hc');
      try done; [apply HEr..|lia|destruct Hcnt as [|[H0 H1]]; [by right|left; cbn in H1; rewrite wrap_small; lia]|].
    set (s1 := set_s_extra_pad 0 (set_s_out d' s)).
    assert (Hcs1 : can_send c key s1) by (split; try done; by eapply sealed_sender).
    destruct (IH s1) as (W & s' & E2 & Hfl & Hc2 & Hcs2); try done.
    { destruct Hcnt as [|[H0 H1]]; [by left|right]. cbn in H1. change (d_ps (s_out s1)) with (d_ps d').
      rewrite (sl_packets _ _ _ _ _ _ _ _ _ Hsl), wrap_small; lia. }
    { change (d_raw (s_out s1)) with (d_raw d'). pose proof (sealed_size _ _ _ _ _ _ _ _ Hsl Hse) as Hsz.
      rewrite zlen_cons in Hsz. rewrite Hc', !zlen_app. lia. }
    exists (wire ++ mac ++ W), s'. split; [|split; [|split; [|done]]].
    + cbn [send_all]. run E1. exact E2.
    + eapply flow_cons; [exact Hsl|rewrite zlen_cons; zl|exact Hfl].
    + rewrite Hc2. change (d_raw (s_out s1)) with (d_raw d'). by rewrite Hc', <- !app_assoc.
Qed.


(** *** Messages during a key exchange *)

Definition queued (e : Z * sshbuf) (m : bytes) : Prop :=
  exists body, m = fst e :: body /\ is_packet (fst e) body (snd e).

(** A message that has to wait for the end of the key exchange. *)
Definition held_ok (server : bool) (m : bytes) : Prop :=
  exists t body, m = t :: body /\ Bytes body /\ zlen body < 261000 /\ sendable server t /\
    ssh_packet_type_is_kex t = false.

Lemma send_held t body s :
  s_rekeying s = true -> full (d_pkt (s_out s)) -> 0 <= t < 256 -> Bytes body -> zlen body < 261000 ->
  ssh_packet_type_is_kex t = false ->
  exists b b0, send_message Es (t :: body) s =
      (Ok tt, set_s_out (set_d_pkt b0 (s_out s)) (set_s_queue (s_queue s ++ [(t, b)]) s)) /\
    is_packet t body b /\ full b0.
Proof.
  intros Hrk Hf Ht HB Hzb Hk. destruct (build_message Es t body s) as (b & Hb & ->); try done.
  destruct (is_packet_facts t body b Hb) as [Elen Et]. pose proof (zlen_nonneg body).
  destruct (sshbuf_new (A Es)) as [b0|] eqn:En.
  2: { unfold sshbuf_new in En. pose proof (proj1 HEs SIZEOF_SSHBUF). pose proof (proj1 HEs SSHBUF_SIZE_INIT).
       unfold A in En. destruct (e_alloc Es SIZEOF_SSHBUF); [|done].
       destruct (e_alloc Es SSHBUF_SIZE_INIT) as [[? ?]|]; done. }
  exists b, b0. split; [|split; [done|by eapply full_new]].
  set (s1 := set_s_out (set_d_pkt b (s_out s)) s).
  unfold ssh_packet_send2, send2_fuel, send2_with. unfold bind at 1, get_state at 1. cbv zeta.
  change (d_pkt (s_out s1)) with b. rewrite Elen, Et, Hk. destruct (Z.ltb_spec (6 + zlen body) 6); [lia|].
  rewrite settled_need by (right; right; left; unfold ssh_packet_is_rekeying;
    change (s_rekeying s1) with (s_rekeying s); by rewrite Hrk).
  change (s_rekeying s1) with (s_rekeying s). rewrite Hrk. cbn [negb andb orb].
  pose proof (proj1 HEs 32) as H32. unfold A at 1. destruct (e_alloc Es 32); [|done].
  run (eq_refl (@Ok unit tt, set_s_queue (s_queue s1 ++ [(t, b)]) s1)). rewrite En. done.
Qed.

Lemma send_all_held : forall ms s,
  s_rekeying s = true -> full (d_pkt (s_out s)) -> Forall (held_ok (s_server_side s)) ms ->
  exists s' q, send_all ms s = (Ok tt, s') /\ s_queue s' = s_queue s ++ q /\ Forall2 queued q ms /\
    d_raw (s_out s') = d_raw (s_out s).
Proof.
  induction ms as [|m ms IH]; intros s Hrk Hf HF.
  - exists s, []. split_and!; try done. by rewrite app_nil_r.
  - apply Forall_cons in HF as [(t & body & -> & HB & Hzb & (Ht & _) & Hk) HF].
    destruct (send_held t body s Hrk Hf Ht HB Hzb Hk) as (b & b0 & E1 & Hb & Hb0).
    set (s1 := set_s_out (set_d_pkt b0 (s_out s)) (set_s_queue (s_queue s ++ [(t, b)]) s)) in *.
    destruct (IH s1) as (s' & q & E2 & Hq & HF2 & Hr); try done.
    exists s', ((t, b) :: q). split_and!; try done.
    + cbn [send_all]. run E1. exact E2.
    + rewrite Hq. change (s_queue s1) with (s_queue s ++ [(t, b)]). by rewrite <- app_assoc.
    + constructor; [by exists body|done].
Qed.

Lemma send_queue_spec c key rekex : forall ms todo s,
  (length ms < todo)%nat -> can_send c key s -> Forall2 queued (s_queue s) ms ->
  Forall (held_ok (s_server_side s)) ms ->
  norekey_of s = true \/ 0 <= ps_packets (d_ps (s_out s)) /\
    ps_packets (d_ps (s_out s)) + Z.of_nat (length ms) < 2 ^ 32 ->
  zlen (contents (d_raw (s_out s))) + room ms <= SSHBUF_SIZE_MAX ->
  exists W s', send_queue Es rekex todo s = (Ok tt, s') /\ flow Er c key (s_out s) ms W (s_out s') /\
    contents (d_raw (s_out s')) = contents (d_raw (s_out s)) ++ W /\ s_queue s' = [] /\ can_send c key s'.
Proof.
  induction ms as [|m ms IH]; intros todo s Htodo Hcs HQ HF Hcnt Hroom; (destruct todo as [|todo]; [lia|]).
  - apply Forall2_nil_inv_r in HQ. exists [], s. cbn [send_queue]. rewrite HQ.
    split_and!; try done; [apply flow_nil|by rewrite app_nil_r].
  - apply Forall2_cons_inv_r in HQ as ([t b] & queue & (body & -> & Hb) & HQ & EQ). cbn [fst snd] in *.
    apply Forall_cons in HF as [(t' & body' & [= <- <-] & HB & Hzb & Hsnd & Hk) HF]. cbn [room] in Hroom.
    rewrite zlen_cons in Hroom. pose proof (room_nonneg ms). pose proof Hcs as [Hse Hset Hrk Hpad Hpk Hraw].
    set (o1 := set_d_pkt b (s_out s)). set (s1 := set_s_queue queue (set_dir true o1 s)).
    destruct (is_packet_facts t body b Hb) as [Elen Et].
    assert (Hse1 : sender c key o1) by (by destruct Hse).
    destruct (seal_is_packet Es (e_tmp Er) c key (norekey_of s1) (s_extra_pad s1) t body o1)
      as (plain & wire & mac & d' & E3 & Hsl & Hpk' & Hraw' & Hc'); try done; [apply HEr..|change (d_raw o1) with (d_raw (s_out s)); lia| |].
    { destruct Hcnt as [|[H0 H1]]; [by right|left; cbn in H1; change (d_ps o1) with (d_ps (s_out s)); rewrite wrap_small; lia]. }
    assert (Ew := wrapped_ordinary Es s1 d'). change (d_pkt (s_out s1)) with b in Ew. rewrite Et in Ew.
    specialize (Ew Hsnd ltac:(eapply row_ok_facts, (sn_row _ _ _ Hse1)) E3).
    set (s2 := set_s_extra_pad 0 (set_s_out d' s1)) in *.
    assert (Hcs2 : can_send c key s2) by (split; try done; by eapply sealed_sender).
    destruct (IH todo s2) as (W & s' & E4 & Hfl & Hc2 & Hq2 & Hcs3); try done; [cbn in Htodo; lia| | |].
    { destruct Hcnt as [|[H0 H1]]; [by left|right]. cbn in H1. change (d_ps (s_out s2)) with (d_ps d').
      rewrite (sl_packets _ _ _ _ _ _ _ _ _ Hsl). change (d_ps o1) with (d_ps (s_out s)). rewrite wrap_small; lia. }
    { change (d_raw (s_out s2)) with (d_raw d'). pose proof (sealed_size _ _ _ _ _ _ _ _ Hsl Hse1) as Hsz.
      rewrite zlen_cons in Hsz. rewrite Hc', !zlen_app. change (d_raw o1) with (d_raw (s_out s)). lia. }
    exists (wire ++ mac ++ W), s'. split; [|split; [|split; [|done]]].
    + cbn [send_queue]. rewrite EQ, settled_need by done. run Ew. exact E4.
    + eapply flow_cons; [by destruct Hsl; split|rewrite zlen_cons; zl|exact Hfl].
    + rewrite Hc2. change (d_raw (s_out s2)) with (d_raw d'). by rewrite Hc', <- !app_assoc.
Qed.

End ends.

(** ** A connection *)

#[local] Instance no_zlib : Zlib := {
  zstream := unit;
  deflateInit z _ := (Z_OK, z);
  inflateInit z := (Z_OK, z);
  deflate z m _ := (Z_OK, m, [], z);
  inflate z m _ := (Z_BUF_ERROR, [], m, z)
}.

Definition test_env : env := mk_env test_alloc (zrep 64 0) (zrep SSH_DIGEST_MAX_LENGTH 0) (fun i => i) 0.
Definition test_cipher : sshcipher := mk_cipher (cstr "aes128-ctr") SSH_CIPHER_SSH2 16 16 0 0 0 0.
Definition test_key : bytes := zrep 16 5.
Definition test_keys : keys :=
  mk_keys (mk_enc (Some (c_name test_cipher)) (Some test_cipher) 1 16 16 16 (Some test_key) None)
    (mk_macx (mk_mac None 1 16 (Some test_key) 16 SSH_UMAC128 1) None (Some (test_key, []))) (mk_comp 0 0 None).
Definition test_dir (encrypt : bool) (b : sshbuf) : dir :=
  mk_dir (mk_cc false (b2z encrypt) (mk_toy encrypt 7 0 0 []) test_ctx (Some test_cipher)) (Some test_keys)
    (mk_ps 3 3 0 0) 0 b b tt 0 0.
Definition test_state (server : bool) (b : sshbuf) : session_state :=
  mk_state (test_dir true b) (test_dir false b) None true server false 0 0 0 0 0 0 false [] 0 0 false None 0.

Lemma test_linked b : linked test_cipher test_key (test_dir true b) (test_dir false b).
Proof.
  split.
  - split_and!; try done. by vm_compute; tauto.
  - split; try done. split; [done|]. split; [done|]. intros _.
    assert (mac_ready (ky_mac test_keys) test_key); [|done]. split; [done|]. right. by exists true, (test_key, []).
Qed.

Lemma test_env_ok : env_ok test_env.
Proof. split; [apply test_alloc_ok|]. split; [by apply Bytes_zrep|]. by split. Qed.

Lemma concat_bytewise (l : bytes) : concat ((fun x => [x]) <$> l) = l.
Proof. induction l as [|x l IH]; [done|]. change (x :: concat ((fun x => [x]) <$> l) = x :: l). by rewrite IH. Qed.


Definition test_buf0 : sshbuf := default (small_buf 300) (sshbuf_new test_alloc).
Definition test_wire : bytes :=
  contents (d_raw (s_out (snd (send_message test_env [94; 0; 0; 0; 7; 104; 105] (test_state true test_buf0))))).
Definition test_receiver : session_state :=
  let s := test_state false test_buf0 in
  set_s_in (set_d_raw (snd (sshbuf_put test_alloc test_wire (zlen test_wire) test_buf0)) (s_in s)) s.

Lemma test_mac_key : mac_key_ok (Some test_keys) test_key.
Proof. split; [done|]. right. by exists true, (test_key, []). Qed.

Lemma packet_authenticated_witness :
  fst (ssh_packet_read_poll2 test_env (ret tt) test_receiver) = Ok (94, 3) /\
  exists ct rest, contents (d_raw (s_in test_receiver)) =
    ct ++ packet_mac (Some test_keys) test_key 3 ct ++ rest /\ 4 <= zlen ct.
Proof.
  assert (Hr : fst (ssh_packet_read_poll2 test_env (ret tt) test_receiver) = Ok (94, 3)) by (by vm_compute).
  split; [exact Hr|].
  assert (Hf : full (d_raw (s_in test_receiver))).
  { destruct (full_new test_alloc test_buf0) as [Hf Hc]; [done|].
    destruct (full_put test_alloc test_wire test_buf0) as (b & Eb & Hb & _);
      [apply test_alloc_ok|done|apply forallb_bytes; by vm_compute|by vm_compute|].
    unfold test_receiver. rewrite Eb. exact Hb. }
  assert (Hk : d_newkeys (s_in test_receiver) = Some test_keys) by reflexivity.
  assert (Hq : d_ps (s_in test_receiver) = mk_ps 3 3 0 0) by reflexivity.
  pose proof (fun s' => packet_authenticated test_env test_env_ok (ret tt) test_receiver test_key 94 3 s') as H.
  cbv zeta in H. rewrite Hk, Hq in H.
  destruct (ssh_packet_read_poll2 test_env (ret tt) test_receiver) as [r s']. cbn in Hr. rewrite Hr in H.
  apply (H s'); [reflexivity|exact test_mac_key|split; vm_compute; congruence|exact Hf| |reflexivity|intros [=]].
  split; vm_compute; congruence.
Defined.

