(* ===== verification/Dispatch.v ===== *)
(** dispatch.c: the table of message handlers and the loop that reads packets and
    calls them.

    The loop is written against an interface, [DispatchHost]: the state that holds
    the table and what the handlers and the packet layer do to it. *)

From S2P Require Import Prelude Ssh2.

Definition DISPATCH_MAX : Z := 255.

(** The array [dispatch] of [struct ssh]; [None] is a NULL handler. *)
Abbreviation dispatch_table F := (list (option F)).

Section table.
Context {F : Type}.

Fixpoint fill (n : nat) (from : Z) (fn : option F) (t : dispatch_table F) : dispatch_table F :=
  match n with
  | O => t
  | S n => fill n (from + 1) fn (<[Z.to_nat from := fn]> t)
  end.

Definition ssh_dispatch_init (dflt : option F) (t : dispatch_table F) : dispatch_table F :=
  fill (Z.to_nat DISPATCH_MAX) 0 dflt t.

(** From [from] to [to], but not beyond the table. *)
Definition ssh_dispatch_range (from to : Z) (fn : option F) (t : dispatch_table F) : dispatch_table F :=
  fill (Z.to_nat (Z.min to (DISPATCH_MAX - 1) + 1 - from)) from fn t.

Definition ssh_dispatch_set (type : Z) (fn : option F) (t : dispatch_table F) : dispatch_table F :=
  <[Z.to_nat type := fn]> t.

(** [ssh->dispatch[type]] *)
Definition handler_of (type : Z) (t : dispatch_table F) : option F := default None (t !! Z.to_nat type).
End table.

(** What the loop uses of the connection: the table, the number of packets to be
    skipped, the packet layer, and what a handler does. *)
Class DispatchHost (S F : Type) := {
  host_table : S -> dispatch_table F;
  host_skip : S -> Z;
  host_set_skip : Z -> M S unit;
  host_receive : bytes -> M S unit;
  host_call : F -> Z -> Z -> M S unit;
  host_disconnect : Z -> M S unit;
  host_done : S -> bool
}.

(** A packet that is read: its type, sequence number and payload; or the error of
    [ssh_packet_read_seqnr]. *)
Abbreviation packet := (Z * Z * bytes)%type.

(** How a run ends: it returns 0 with packets left, or waits for more. *)
Inductive run_end : Type :=
| Returned (left : list (result packet))
| Waiting.

Section run.
Context {S F : Type} `{DispatchHost S F}.

(** One packet.  [false]: the loop goes on without a look at [*done]. *)
Definition dispatch_packet (type seqnr : Z) : M S bool :=
  let! s := get_state in
  match (if (0 <? type) && (type <? DISPATCH_MAX) then handler_of type (host_table s) else None) with
  | Some fn =>
      if negb (host_skip s =? 0) then host_set_skip (host_skip s - 1) ;;; ret false
      else host_call fn type seqnr ;;; ret true
  | None => host_disconnect type ;;; fail SSH_ERR_DISCONNECTED
  end.

(** [block]: the mode is DISPATCH_BLOCK. *)
Fixpoint ssh_dispatch_run (block : bool) (packets : list (result packet)) : M S run_end :=
  match packets with
  | [] => ret (if block then Waiting else Returned [])
  | Err r :: _ => fail r
  | Ok (type, seqnr, payload) :: packets =>
      host_receive payload ;;;
      if negb block && (type =? SSH_MSG_NONE) then ret (Returned packets)
      else
        let! called := dispatch_packet type seqnr in
        let! s := get_state in
        if called && host_done s then ret (Returned packets)
        else ssh_dispatch_run block packets
  end.
End run.

(** ** Lemmas *)

Section lemmas.
Context {F : Type}.
Implicit Types t : dispatch_table F.

Lemma fill_length n : forall from fn t, length (fill n from fn t) = length t.
Proof. induction n as [|n IH]; intros; simpl; [done|]. by rewrite IH, length_insert. Qed.

Lemma fill_lookup n : forall from fn t i,
  0 <= from -> (i < length t)%nat ->
  fill n from fn t !! i =
  if bool_decide (from <= Z.of_nat i < from + Z.of_nat n) then Some fn else t !! i.
Proof.
  induction n as [|n IH]; intros from fn t i Hf Hi; simpl.
  - by rewrite bool_decide_false by lia.
  - rewrite IH by (rewrite ?length_insert; lia).
    destruct (decide (Z.to_nat from = i)) as [<-|Hne].
    + rewrite list_lookup_insert_eq by done. rewrite (bool_decide_true (from <= _ < _)) by lia.
      by destruct (bool_decide _).
    + rewrite list_lookup_insert_ne by done.
      destruct (decide (from + 1 <= Z.of_nat i < from + 1 + Z.of_nat n)).
      * by rewrite !bool_decide_true by lia.
      * by rewrite !bool_decide_false by lia.
Qed.

Lemma set_handler type fn t :
  0 <= type < zlen t -> handler_of type (ssh_dispatch_set type fn t) = fn.
Proof.
  unfold zlen. intros. unfold handler_of, ssh_dispatch_set. by rewrite list_lookup_insert_eq by lia.
Qed.

Lemma set_handler_ne type type' fn t :
  0 <= type -> 0 <= type' -> type <> type' ->
  handler_of type (ssh_dispatch_set type' fn t) = handler_of type t.
Proof.
  intros. unfold handler_of, ssh_dispatch_set. by rewrite list_lookup_insert_ne by lia.
Qed.

Lemma set_length type fn t : zlen (ssh_dispatch_set type fn t) = zlen t.
Proof. unfold zlen, ssh_dispatch_set. by rewrite length_insert. Qed.

Lemma init_handler type dflt t :
  zlen t = DISPATCH_MAX -> 0 <= type < DISPATCH_MAX -> handler_of type (ssh_dispatch_init dflt t) = dflt.
Proof.
  unfold zlen, DISPATCH_MAX. intros Ht Hty. unfold handler_of, ssh_dispatch_init, DISPATCH_MAX.
  rewrite fill_lookup by lia. by rewrite bool_decide_true by lia.
Qed.

Lemma init_length dflt t : zlen (ssh_dispatch_init dflt t) = zlen t.
Proof. unfold zlen, ssh_dispatch_init. by rewrite fill_length. Qed.

(** A range covers exactly the types between its ends that the table has. *)
Lemma range_handler from to fn t type :
  zlen t = DISPATCH_MAX -> 0 <= from -> 0 <= type < DISPATCH_MAX ->
  handler_of type (ssh_dispatch_range from to fn t) =
  if bool_decide (from <= type <= to) then fn else handler_of type t.
Proof.
  unfold zlen, DISPATCH_MAX. intros Ht Hf Hty. unfold handler_of, ssh_dispatch_range, DISPATCH_MAX.
  rewrite fill_lookup by lia.
  destruct (decide (from <= type <= to)).
  - by rewrite !bool_decide_true by lia.
  - by rewrite !bool_decide_false by lia.
Qed.
End lemmas.
