(* ===== verification/AuthMethods.v ===== *)
(** auth2.c: the lists of authentication methods that the configuration can
    require ([AuthenticationMethods]), as C strings.

    A list names methods, separated by commas, each with an optional submethod
    after a colon; an authentication succeeds when all methods of one list have
    succeeded in their order. *)

From S2P Require Import Prelude CString.

(** The [Authmethod] objects, in the order of [authmethods], without those of
    GSSAPI, which depend on the build. *)
Inductive Authmethod : Type :=
| method_none | method_pubkey | method_passwd | method_kbdint | method_hostbased.

#[global] Instance Authmethod_eq_dec : EqDecision Authmethod.
Proof. solve_decision. Defined.

Definition authmethods : list Authmethod :=
  [method_none; method_pubkey; method_passwd; method_kbdint; method_hostbased].

Definition method_name (m : Authmethod) : bytes :=
  match m with
  | method_none => cstr "none"
  | method_pubkey => cstr "publickey"
  | method_passwd => cstr "password"
  | method_kbdint => cstr "keyboard-interactive"
  | method_hostbased => cstr "hostbased"
  end.

Definition MATCH_NONE : Z := 0.
Definition MATCH_METHOD : Z := 1.
Definition MATCH_BOTH : Z := 2.
Definition MATCH_PARTIAL : Z := 3.

(** [strncmp(a, b, strlen(b)) == 0] *)
Definition starts_with (a b : bytes) : bool := bool_decide (ztake (zlen b) a = b).

(** [*p] *)
Definition char_at (p : bytes) : Z := default 0 (head p).

Definition list_starts_with (methods method : bytes) (submethod : option bytes) : Z :=
  if negb (starts_with methods method) then MATCH_NONE
  else
    let p := zdrop (zlen method) methods in
    let ends (p : bytes) match_ :=
      if negb (char_at p =? ch ",") && negb (char_at p =? 0) then MATCH_NONE else match_ in
    if char_at p =? ch ":" then
      match submethod with
      | None => MATCH_PARTIAL
      | Some sub =>
          let p := tail p in
          if negb (starts_with p sub) then MATCH_NONE
          else ends (zdrop (zlen sub) p) MATCH_BOTH
      end
    else ends p MATCH_METHOD.

(** [Some] the new list when the method was removed. *)
Definition remove_method (methods method : bytes) (submethod : option bytes) : option bytes :=
  let match_ := list_starts_with methods method submethod in
  if negb (match_ =? MATCH_METHOD) && negb (match_ =? MATCH_BOTH) then None
  else
    let p := zdrop (zlen method) methods in
    let p :=
      match submethod with
      | Some sub => if match_ =? MATCH_BOTH then zdrop (1 + zlen sub) p else p
      | None => p
      end in
    Some (if char_at p =? ch "," then tail p else p).

(** The loop of [auth2_update_methods_lists] from the list [lists] on: whether a
    list is complete, whether the method was found, and the lists. *)
Fixpoint update_lists (lists : list bytes) (method : bytes) (submethod : option bytes)
    : bool * bool * list bytes :=
  match lists with
  | [] => (false, false, [])
  | l :: lists =>
      match remove_method l method submethod with
      | None =>
          let '(complete, found, rest) := update_lists lists method submethod in
          (complete, found, l :: rest)
      | Some l' =>
          if bool_decide (l' = []) then (true, true, l' :: lists)
          else
            let '(complete, _, rest) := update_lists lists method submethod in
            (complete, true, l' :: rest)
      end
  end.

Section enabled.
Context (enabled : Authmethod -> bool).

(** The loop over [authmethods] for one element of the list; [None] is [goto out]
    at a disabled method. *)
Fixpoint find_method (ms : list Authmethod) (need_enable : bool) (method : bytes) : option bool :=
  match ms with
  | [] => Some false
  | m :: ms =>
      if negb (strcmp_eq (before method (ch ":")) (method_name m)) then find_method ms need_enable method
      else if need_enable && negb (enabled m) then None
      else Some true
  end.

Fixpoint valid_methods (fuel : nat) (need_enable : bool) (methods : option bytes) : Z :=
  match fuel with
  | O => -1
  | S fuel =>
      match strsep methods (ch ",") with
      | (None, _) => 0
      | (Some method, methods) =>
          match find_method authmethods need_enable method with
          | Some true => valid_methods fuel need_enable methods
          | _ => -1
          end
      end
  end.

Definition auth2_methods_valid (methods : bytes) (need_enable : bool) : Z :=
  if bool_decide (methods = []) then -1
  else valid_methods (length methods + 2) need_enable (Some methods).

(** The lists of the configuration that are kept. *)
Definition kept_lists (lists : list bytes) : list bytes :=
  List.filter (fun l => auth2_methods_valid l true =? 0) lists.
End enabled.

(** ** What a list means *)

(** The elements of a list. *)
Abbreviation elements l := (split_on (ch ",") l).

(** A method with an optional submethod carries out an element. *)
Definition carries_out (method : bytes) (submethod : option bytes) (e : bytes) : Prop :=
  e = method \/ exists sub, submethod = Some sub /\ e = method ++ ch ":" :: sub.

(** Names and submethods that can be told apart in a list. *)
Definition plain (w : bytes) : Prop := Forall (fun c => c <> 0 /\ c <> ch ",") w.
Definition plain_name (w : bytes) : Prop := plain w /\ ~ In (ch ":") w.

Lemma method_name_plain m : plain_name (method_name m).
Proof.
  split.
  - assert (forallb (fun c => negb (c =? 0) && negb (c =? ch ",")) (method_name m) = true) as Hf
      by (destruct m; reflexivity).
    apply Forall_forall. intros c Hc. rewrite forallb_forall in Hf. apply list_elem_of_In, Hf in Hc. lia.
  - assert (forallb (fun c => negb (c =? ch ":")) (method_name m) = true) as Hf
      by (destruct m; reflexivity).
    rewrite forallb_forall in Hf. intros Hc%Hf. lia.
Qed.

Lemma method_name_inj m m' : method_name m = method_name m' -> m = m'.
Proof. by destruct m, m'. Qed.

Lemma starts_with_iff a b : starts_with a b = true <-> exists t, a = b ++ t.
Proof.
  unfold starts_with. rewrite bool_decide_eq_true. split.
  - intros E. exists (zdrop (zlen b) a). by rewrite <- E at 1; rewrite ztake_zdrop.
  - intros [t ->]. by apply ztake_app.
Qed.

(** What is left of [p] after the element before it. *)
Inductive remainder : bytes -> bytes -> Prop :=
| remainder_end : remainder [] []
| remainder_comma l : remainder (ch "," :: l) l.

Lemma remainder_char p : Forall (fun c => c <> 0) p ->
  ((negb (char_at p =? ch ",") && negb (char_at p =? 0)) = false <-> exists l, remainder p l) /\
  (forall l, remainder p l -> (if char_at p =? ch "," then tail p else p) = l).
Proof.
  intros Hp. unfold char_at. destruct p as [|c p].
  - split; [split; [by exists []; constructor|done]|]. intros l Hl. by inversion Hl.
  - apply Forall_cons in Hp as [Hc _]. split.
    + split.
      * change (default 0 (head (c :: p))) with c. destruct (Z.eqb_spec c (ch ",")) as [->|];
          [by exists p; constructor|]. by destruct (Z.eqb_spec c 0).
      * intros [l Hl]. inversion Hl; subst. simpl head. by rewrite Z.eqb_refl.
    + intros l Hl. inversion Hl; subst. simpl head. by rewrite Z.eqb_refl.
Qed.

(** [remove_method] takes away a first element that the method carries out, and
    fails on a list without one. *)
Lemma remove_method_iff l name sub l' : Forall (fun c => c <> 0) l ->
  remove_method l name sub = Some l' <->
  exists e p, carries_out name sub e /\ l = e ++ p /\ remainder p l'.
Proof.
  intros Hl. unfold remove_method, list_starts_with.
  destruct (starts_with l name) eqn:Es; cbn [negb].
  2: { change (MATCH_NONE =? MATCH_METHOD) with false. change (MATCH_NONE =? MATCH_BOTH) with false.
       cbn [negb andb]. split; [done|]. intros (e&p&[->|(s&_&->)]&->&_).
       - assert (starts_with (name ++ p) name = true) by (apply starts_with_iff; eauto). congruence.
       - assert (starts_with ((name ++ ch ":" :: s) ++ p) name = true); [|congruence].
         apply starts_with_iff. rewrite <- (assoc_L (++)). eauto. }
  apply starts_with_iff in Es as [p ->]. rewrite !zdrop_app by done.
  apply Forall_app in Hl as [_ Hp]. cbv zeta.
  destruct (Z.eqb_spec (char_at p) (ch ":")) as [Hcolon|Hcolon].
  - destruct p as [|c q]; [done|]. change (char_at (c :: q)) with c in Hcolon. subst c. apply Forall_cons in Hp as [_ Hq]. cbn [tail].
    destruct sub as [s|].
    2: { change (MATCH_PARTIAL =? MATCH_METHOD) with false. change (MATCH_PARTIAL =? MATCH_BOTH) with false.
         cbn [negb andb]. split; [done|]. intros (e&p&[->|(s&?&_)]&E&Hr); [|done].
         apply app_inv_head in E as <-. inversion Hr. }
    destruct (starts_with q s) eqn:Es; cbn [negb].
    2: { change (MATCH_NONE =? MATCH_METHOD) with false. change (MATCH_NONE =? MATCH_BOTH) with false.
         cbn [negb andb]. split; [done|]. intros (e&p&[->|(s'&[= <-]&->)]&E&Hr).
         - apply app_inv_head in E as <-. inversion Hr.
         - rewrite <- (assoc_L (++)) in E. apply app_inv_head in E. injection E as ->.
           assert (starts_with (s ++ p) s = true) by (apply starts_with_iff; eauto). congruence. }
    apply starts_with_iff in Es as [r ->]. rewrite zdrop_app by done.
    apply Forall_app in Hq as [_ Hr]. destruct (remainder_char r Hr) as [H1 H2].
    replace (zdrop (1 + zlen s) (ch ":" :: s ++ r)) with r
      by (change (ch ":" :: s ++ r) with ((ch ":" :: s) ++ r); by rewrite zdrop_app by (by rewrite zlen_cons)).
    destruct (negb (char_at r =? ch ",") && negb (char_at r =? 0)) eqn:Hc.
    + change (MATCH_NONE =? MATCH_METHOD) with false. change (MATCH_NONE =? MATCH_BOTH) with false.
      cbn [negb andb]. split; [done|]. intros (e&p&[->|(s'&[= <-]&->)]&E&Hrm).
      * apply app_inv_head in E as <-. inversion Hrm.
      * rewrite <- (assoc_L (++)) in E. apply app_inv_head in E. injection E as E.
        apply app_inv_head in E as ->. assert (true = false) by (apply H1; eauto). done.
    + change (MATCH_BOTH =? MATCH_METHOD) with false. change (MATCH_BOTH =? MATCH_BOTH) with true.
      cbn [negb andb]. destruct (proj1 H1 eq_refl) as [l Hrm]. rewrite (H2 l Hrm). split.
      * intros [= <-]. exists (name ++ ch ":" :: s), r. split_and!; [right; eauto| |done].
        by rewrite <- (assoc_L (++)).
      * intros (e&p&[->|(s'&[= <-]&->)]&E&Hrm').
        -- apply app_inv_head in E as <-. inversion Hrm'.
        -- rewrite <- (assoc_L (++)) in E. apply app_inv_head in E. injection E as E.
           apply app_inv_head in E as ->. f_equal. rewrite <- (H2 l Hrm). by apply H2.
  - destruct (remainder_char p Hp) as [H1 H2].
    assert (forall e q l', carries_out name sub e -> name ++ p = e ++ q -> remainder q l' ->
      e = name /\ p = q) as Hone.
    { intros e q l0 [->|(s&_&->)] E Hr; [by apply app_inv_head in E as <-|].
      rewrite <- (assoc_L (++)) in E. apply app_inv_head in E as ->. by destruct Hcolon. }
    destruct (negb (char_at p =? ch ",") && negb (char_at p =? 0)) eqn:Hc.
    + change (MATCH_NONE =? MATCH_METHOD) with false. change (MATCH_NONE =? MATCH_BOTH) with false.
      cbn [negb andb]. split; [done|]. intros (e&q&He&E&Hr). destruct (Hone _ _ _ He E Hr) as [_ ->].
      assert (true = false) by (apply H1; eauto). done.
    + change (MATCH_METHOD =? MATCH_METHOD) with true. cbn [negb andb].
      change (MATCH_METHOD =? MATCH_BOTH) with false. cbv iota.
      replace (match sub with Some _ | _ => p end) with p by (by destruct sub).
      destruct (proj1 H1 eq_refl) as [l Hrm]. rewrite (H2 l Hrm). split.
      * intros [= <-]. exists name, p. split_and!; [by left|done|done].
      * intros (e&q&He&E&Hr). destruct (Hone _ _ _ He E Hr) as [_ ->]. f_equal.
        rewrite <- (H2 l Hrm). by apply H2.
Qed.

(** The elements still to be carried out. *)
Definition todo (l : bytes) : list bytes := if bool_decide (l = []) then [] else elements l.

Lemma split_on_Forall (P : Z -> Prop) d l : Forall P l -> Forall (Forall P) (split_on d l).
Proof.
  induction l as [|x l IH]; simpl; intros Hl; [by repeat constructor|].
  apply Forall_cons in Hl as [Hx Hl]. specialize (IH Hl). destruct (x =? d); [by constructor|].
  destruct (split_on d l) as [|t ts]; [by repeat constructor|]. apply Forall_cons in IH as [Ht Hts].
  constructor; [by constructor|done].
Qed.

Lemma plain_no_comma w : plain w -> ~ In (ch ",") w.
Proof. unfold plain. rewrite Forall_forall. intros Hw Hc%list_elem_of_In. by destruct (Hw _ Hc). Qed.

Lemma carries_out_no_comma name sub e :
  plain name -> (forall s, sub = Some s -> plain s) -> carries_out name sub e -> ~ In (ch ",") e.
Proof.
  intros Hn Hs [->|(s&E&->)]; [by apply plain_no_comma|]. rewrite in_app_iff. intros [Hc|[Hc|Hc]].
  - by apply plain_no_comma in Hc.
  - by vm_compute in Hc.
  - by apply plain_no_comma in Hc; [|apply Hs].
Qed.

Lemma remove_todo l name sub l' :
  Forall (fun c => c <> 0) l -> plain name -> name <> [] -> (forall s, sub = Some s -> plain s) ->
  Forall (fun e => e <> []) (elements l) -> remove_method l name sub = Some l' ->
  exists e, carries_out name sub e /\ todo l = e :: todo l' /\
    Forall (fun c => c <> 0) l' /\ (l' = [] \/ Forall (fun e => e <> []) (elements l')).
Proof.
  intros Hl Hn Hne Hs He E. apply remove_method_iff in E as (e&p&Hc&->&Hr); [|done].
  assert (e <> []) as He0 by (by destruct Hc as [->|(?&_&->)]; destruct name).
  pose proof (carries_out_no_comma name sub e Hn Hs Hc) as Hnc.
  apply Forall_app in Hl as [_ Hl]. exists e.
  unfold todo. rewrite (bool_decide_false (e ++ p = [])) by (by destruct e).
  destruct Hr as [|l'].
  - rewrite app_nil_r in *. rewrite split_on_single by done. split_and!; [done|done|done|by left].
  - rewrite split_on_cut in * by done. apply Forall_cons in He as [_ He]. apply Forall_cons in Hl as [_ Hl].
    rewrite (bool_decide_false (l' = [])).
    + split_and!; [done|done|done|by right].
    + intros ->. simpl in He. by apply Forall_cons in He as [? _].
Qed.

(** ** Validity *)

Section valid.
Context (enabled : Authmethod -> bool).

(** An element is the name of a method, then nothing or a colon and anything. *)
Definition names_method (need_enable : bool) (e : bytes) : Prop :=
  exists m, before e (ch ":") = method_name m /\ (need_enable = true -> enabled m = true).

Lemma find_method_spec need ms e :
  match find_method enabled ms need e with
  | Some true => exists m, In m ms /\ before e (ch ":") = method_name m /\ (need = true -> enabled m = true)
  | _ => ~ exists m, In m ms /\ before e (ch ":") = method_name m /\ (need = true -> enabled m = true)
  end.
Proof.
  induction ms as [|m ms IH]; simpl; [by intros (?&[]&_)|].
  unfold strcmp_eq. destruct (decide (before e (ch ":") = method_name m)) as [Em|Em].
  - rewrite bool_decide_true by done. cbn [negb].
    destruct need, (enabled m) eqn:Hm; cbn [negb andb]; [by exists m; eauto| |by exists m; eauto..].
    intros (m'&_&E'&He). rewrite E' in Em. apply method_name_inj in Em as ->. rewrite Hm in He. by discriminate He.
  - rewrite bool_decide_false by done. cbn [negb].
    destruct (find_method enabled ms need e) as [[]|].
    + destruct IH as (m'&?&?). eauto.
    + intros (m'&[<-|Hin]&?&?); [done|eauto].
    + intros (m'&[<-|Hin]&?&?); [done|eauto].
Qed.

Lemma find_method_iff need e : find_method enabled authmethods need e = Some true <-> names_method need e.
Proof.
  pose proof (find_method_spec need authmethods e) as P. unfold names_method.
  destruct (find_method _ _ _ _) as [[]|].
  - split; [|done]. intros _. destruct P as (m&_&?). eauto.
  - split; [done|]. intros (m&Hm). destruct P. exists m. split; [by destruct m; simpl; tauto|done].
  - split; [done|]. intros (m&Hm). destruct P. exists m. split; [by destruct m; simpl; tauto|done].
Qed.

Lemma valid_methods_spec need fuel : forall l, (length l + 2 <= fuel)%nat ->
  valid_methods enabled fuel need (Some l) = 0 <-> Forall (names_method need) (elements l).
Proof.
  induction fuel as [|fuel IH]; intros l Hf; [lia|]. cbn [valid_methods strsep].
  rewrite split_on_unfold, Forall_cons, <- find_method_iff.
  destruct (find_method enabled authmethods need (before l (ch ","))) as [[]|] eqn:Ef.
  - destruct (strchr l (ch ",")) as [r|] eqn:Er.
    + apply strchr_length in Er as [Hr Hne]. rewrite IH; [by intuition|].
      destruct r; [done|]. simpl in *. lia.
    + destruct fuel; [lia|]. simpl. by intuition.
  - split; [done|by intros [[=] _]].
  - split; [done|by intros [[=] _]].
Qed.

Lemma methods_valid_iff l need :
  auth2_methods_valid enabled l need = 0 <-> l <> [] /\ Forall (names_method need) (elements l).
Proof.
  unfold auth2_methods_valid. destruct (decide (l = [])) as [->|Hl].
  - rewrite bool_decide_true by done. by intuition.
  - rewrite bool_decide_false by done. rewrite valid_methods_spec by lia. by intuition.
Qed.

Lemma names_method_nonempty need e : names_method need e -> e <> [].
Proof. by intros (m&Hm&_) ->; destruct m. Qed.

Lemma kept_lists_valid lists l :
  In l (kept_lists enabled lists) <-> In l lists /\ l <> [] /\ Forall (names_method true) (elements l).
Proof. unfold kept_lists. rewrite filter_In, Z.eqb_eq. by rewrite methods_valid_iff. Qed.
End valid.
