(* ===== verification/Auth2.v ===== *)
(** auth2.c, with auth2-none.c, auth2-passwd.c, auth2-pubkey.c, auth2-hostbased.c,
    auth2-kbdint.c and auth2-chall.c: user authentication of protocol 2 on the
    side of the server.

    A message handler is a computation over the state of the connection,
    [sshd].  What the handlers ask of the rest of the system - the password file,
    PAM, keys and their files, the devices of keyboard-interactive, the network -
    goes through the interface [World] and is recorded in a trace of [event]s.
    [fatal] and [packet_disconnect] end the process with status 255, here the
    error [EXIT]; [PRIVSEP (f)] is [f], which the monitor runs for this process.
    The build is the one with PAM and without GSSAPI, audit, Kerberos and
    protocol 1. *)

From stdpp Require Import pretty.
From S2P Require Import Prelude CString Sshbuf SshbufGetput Algs Glob Ssh2 Dispatch AuthMethods.

(** ** Constants *)


Definition SSH_BUG_PKSERVICE : Z := 0x2.
Definition SSH_OLD_SESSIONID : Z := 0x10.
Definition SSH_BUG_PKAUTH : Z := 0x20.
Definition SSH_BUG_BANNER : Z := 0x80.
Definition SSH_BUG_RSASIGMD5 : Z := 0x2000.
Definition SSH_BUG_HBSERVICE : Z := 0x10000.

Definition PERMIT_FORCED_ONLY : Z := 1.
Definition PERMIT_NO_PASSWD : Z := 2.
Definition PERMIT_YES : Z := 3.

Definition MAX_PASSWORD_LEN : Z := 1024.

(** The exit status of [fatal] and [packet_disconnect]. *)
Definition EXIT : Z := 255.

(** ** Data *)

Record passwd : Type := mk_passwd { pw_name : bytes; pw_uid : Z }.

(** The options of servconf.h that authentication reads. *)
Record ServerOptions : Type := mk_options {
  o_max_authtries : Z;
  o_permit_root_login : Z;
  o_pubkey_authentication : bool;
  o_password_authentication : bool;
  o_kbd_interactive_authentication : bool;
  o_hostbased_authentication : bool;
  o_challenge_response_authentication : bool;
  o_permit_empty_passwd : bool;
  o_use_pam : bool;
  o_banner : option bytes;
  o_pubkey_key_types : bytes;
  o_hostbased_key_types : bytes;
  o_auth_methods : list bytes
}.

(** A question of a device: name, instruction, prompts with the echo flag. *)
Abbreviation query := (bytes * bytes * list (bytes * Z))%type.

(** A device is its name. *)
Record KbdintAuthctxt : Type := mk_kbdint {
  kb_devices : option bytes;
  kb_ctxt : bool;
  kb_device : option bytes;
  kb_nreq : Z;
  kb_devices_done : Z
}.

Record Authctxt (sshkey : Type) : Type := mk_authctxt {
  a_success : bool;
  a_postponed : bool;
  a_valid : bool;
  a_attempt : Z;
  a_failures : Z;
  a_server_caused_failure : bool;
  a_user : option bytes;
  a_service : option bytes;
  a_pw : option passwd;
  a_style : option bytes;
  a_role : option bytes;
  a_kbdintctxt : option KbdintAuthctxt;
  a_auth_methods : list bytes;
  a_prev_userkeys : list sshkey
}.
#[global] Arguments mk_authctxt {_} _ _ _ _ _ _ _ _ _ _ _ _ _ _.
#[global] Arguments a_success {_} _.
#[global] Arguments a_postponed {_} _.
#[global] Arguments a_valid {_} _.
#[global] Arguments a_attempt {_} _.
#[global] Arguments a_failures {_} _.
#[global] Arguments a_server_caused_failure {_} _.
#[global] Arguments a_user {_} _.
#[global] Arguments a_service {_} _.
#[global] Arguments a_pw {_} _.
#[global] Arguments a_style {_} _.
#[global] Arguments a_role {_} _.
#[global] Arguments a_kbdintctxt {_} _.
#[global] Arguments a_auth_methods {_} _.
#[global] Arguments a_prev_userkeys {_} _.

(** What the process asks of its surroundings, with the answers. *)
Inductive event (sshkey : Type) : Type :=
| ESend (pkt : bytes) (ok : bool)
| EGetpwnamallow (user : bytes) (pw : option passwd)
| EStartPam
| EInformAuthserv (service : bytes) (style role : option bytes)
| EReadBanner (banner : option bytes)
| EPassword (user password : bytes) (r : bool)
| EUserKeyAllowed (pw : option passwd) (key : sshkey) (attempt : bool) (r : bool)
| EHostKeyAllowed (pw : option passwd) (cuser chost : bytes) (key : sshkey) (r : bool)
| EKeyVerify (key : sshkey) (sig data : bytes) (r : result unit)
| EPamAccount (r : bool)
| EInitCtx (device : bytes) (r : bool)
| EQuery (device : bytes) (r : option query)
| ERespond (device : bytes) (responses : list bytes) (r : Z).
#[global] Arguments ESend {_} _ _.
#[global] Arguments EGetpwnamallow {_} _ _.
#[global] Arguments EStartPam {_}.
#[global] Arguments EInformAuthserv {_} _ _ _.
#[global] Arguments EReadBanner {_} _.
#[global] Arguments EPassword {_} _ _ _.
#[global] Arguments EUserKeyAllowed {_} _ _ _ _.
#[global] Arguments EHostKeyAllowed {_} _ _ _ _ _.
#[global] Arguments EKeyVerify {_} _ _ _ _.
#[global] Arguments EPamAccount {_} _.
#[global] Arguments EInitCtx {_} _ _.
#[global] Arguments EQuery {_} _ _.
#[global] Arguments ERespond {_} _ _ _.

(** The answers may depend on everything that happened before.  [w_password] is
    [sys_auth_passwd] or [sshpam_auth_passwd]; [getpwnamallow] also reads the
    Match blocks of the configuration, so that it gives the options too;
    [w_forced_command] is the variable that [user_key_allowed] sets. *)
Class World (sshkey : Type) := {
  w_send : list (event sshkey) -> bytes -> bool;
  w_getpwnamallow : list (event sshkey) -> bytes -> option passwd * ServerOptions;
  w_read_banner : list (event sshkey) -> option bytes;
  w_password : list (event sshkey) -> bytes -> bytes -> bool;
  w_user_key_allowed : list (event sshkey) -> option passwd -> sshkey -> bool -> bool;
  w_hostbased_key_allowed : list (event sshkey) -> option passwd -> bytes -> bytes -> sshkey -> bool;
  w_key_verify : list (event sshkey) -> sshkey -> bytes -> bytes -> result unit;
  w_forced_command : list (event sshkey) -> bool;
  w_pam_account : list (event sshkey) -> bool;
  w_loginmsg : list (event sshkey) -> bytes;
  w_init_ctx : list (event sshkey) -> bytes -> bool;
  w_query : list (event sshkey) -> bytes -> option query;
  w_respond : list (event sshkey) -> bytes -> list bytes -> Z
}.

(** What the methods use of a key (sshkey.c). *)
Class UserKey (sshkey : Type) := {
  key_type : sshkey -> Z;
  key_ecdsa_nid : sshkey -> Z;
  blob_key : bytes -> result sshkey;
  sshkey_equal_public : sshkey -> sshkey -> bool
}.

(** The handlers that are put into the table. *)
Inductive dispatch_fn : Type :=
| dispatch_protocol_error | dispatch_protocol_ignore
| input_service_request | input_userauth_request | input_userauth_info_response.

Record sshd (sshkey : Type) : Type := mk_sshd {
  d_auth : Authctxt sshkey;
  d_options : ServerOptions;
  d_none_enabled : bool;
  d_kbdint_devices : list bytes;
  d_dispatch : dispatch_table dispatch_fn;
  d_skip_packets : Z;
  d_incoming : sshbuf;
  d_outgoing : sshbuf;
  d_trace : list (event sshkey)
}.
#[global] Arguments mk_sshd {_} _ _ _ _ _ _ _ _ _.
#[global] Arguments d_auth {_} _.
#[global] Arguments d_options {_} _.
#[global] Arguments d_none_enabled {_} _.
#[global] Arguments d_kbdint_devices {_} _.
#[global] Arguments d_dispatch {_} _.
#[global] Arguments d_skip_packets {_} _.
#[global] Arguments d_incoming {_} _.
#[global] Arguments d_outgoing {_} _.
#[global] Arguments d_trace {_} _.

Section auth2.
Context {sshkey : Type}.

(** ** Assignments *)

Definition set_success (v : bool) (a : Authctxt sshkey) : Authctxt sshkey :=
  mk_authctxt v (a_postponed a) (a_valid a) (a_attempt a) (a_failures a)
    (a_server_caused_failure a) (a_user a) (a_service a) (a_pw a) (a_style a) (a_role a)
    (a_kbdintctxt a) (a_auth_methods a) (a_prev_userkeys a).
Definition set_postponed (v : bool) (a : Authctxt sshkey) : Authctxt sshkey :=
  mk_authctxt (a_success a) v (a_valid a) (a_attempt a) (a_failures a) (a_server_caused_failure
    a) (a_user a) (a_service a) (a_pw a) (a_style a) (a_role a) (a_kbdintctxt a) (a_auth_methods
    a) (a_prev_userkeys a).
Definition set_attempt (v : Z) (a : Authctxt sshkey) : Authctxt sshkey :=
  mk_authctxt (a_success a) (a_postponed a) (a_valid a) v (a_failures a)
    (a_server_caused_failure a) (a_user a) (a_service a) (a_pw a) (a_style a) (a_role a)
    (a_kbdintctxt a) (a_auth_methods a) (a_prev_userkeys a).
Definition set_failures (v : Z) (a : Authctxt sshkey) : Authctxt sshkey :=
  mk_authctxt (a_success a) (a_postponed a) (a_valid a) (a_attempt a) v (a_server_caused_failure
    a) (a_user a) (a_service a) (a_pw a) (a_style a) (a_role a) (a_kbdintctxt a) (a_auth_methods
    a) (a_prev_userkeys a).
Definition set_server_caused_failure (v : bool) (a : Authctxt sshkey) : Authctxt sshkey :=
  mk_authctxt (a_success a) (a_postponed a) (a_valid a) (a_attempt a) (a_failures a) v (a_user
    a) (a_service a) (a_pw a) (a_style a) (a_role a) (a_kbdintctxt a) (a_auth_methods a)
    (a_prev_userkeys a).
Definition set_kbdintctxt (v : option KbdintAuthctxt) (a : Authctxt sshkey) : Authctxt sshkey :=
  mk_authctxt (a_success a) (a_postponed a) (a_valid a) (a_attempt a) (a_failures a)
    (a_server_caused_failure a) (a_user a) (a_service a) (a_pw a) (a_style a) (a_role a) v
    (a_auth_methods a) (a_prev_userkeys a).
Definition set_auth_methods (v : list bytes) (a : Authctxt sshkey) : Authctxt sshkey :=
  mk_authctxt (a_success a) (a_postponed a) (a_valid a) (a_attempt a) (a_failures a)
    (a_server_caused_failure a) (a_user a) (a_service a) (a_pw a) (a_style a) (a_role a)
    (a_kbdintctxt a) v (a_prev_userkeys a).
Definition set_prev_userkeys (v : list sshkey) (a : Authctxt sshkey) : Authctxt sshkey :=
  mk_authctxt (a_success a) (a_postponed a) (a_valid a) (a_attempt a) (a_failures a)
    (a_server_caused_failure a) (a_user a) (a_service a) (a_pw a) (a_style a) (a_role a)
    (a_kbdintctxt a) (a_auth_methods a) v.
Definition set_authctxt (v : Authctxt sshkey) (s : sshd sshkey) : sshd sshkey :=
  mk_sshd v (d_options s) (d_none_enabled s) (d_kbdint_devices s) (d_dispatch s) (d_skip_packets
    s) (d_incoming s) (d_outgoing s) (d_trace s).
Definition set_options (v : ServerOptions) (s : sshd sshkey) : sshd sshkey :=
  mk_sshd (d_auth s) v (d_none_enabled s) (d_kbdint_devices s) (d_dispatch s) (d_skip_packets s)
    (d_incoming s) (d_outgoing s) (d_trace s).
Definition set_none_enabled (v : bool) (s : sshd sshkey) : sshd sshkey :=
  mk_sshd (d_auth s) (d_options s) v (d_kbdint_devices s) (d_dispatch s) (d_skip_packets s)
    (d_incoming s) (d_outgoing s) (d_trace s).
Definition set_kbdint_devices (v : list bytes) (s : sshd sshkey) : sshd sshkey :=
  mk_sshd (d_auth s) (d_options s) (d_none_enabled s) v (d_dispatch s) (d_skip_packets s)
    (d_incoming s) (d_outgoing s) (d_trace s).
Definition set_dispatch (v : dispatch_table dispatch_fn) (s : sshd sshkey) : sshd sshkey :=
  mk_sshd (d_auth s) (d_options s) (d_none_enabled s) (d_kbdint_devices s) v (d_skip_packets s)
    (d_incoming s) (d_outgoing s) (d_trace s).
Definition set_skip_packets (v : Z) (s : sshd sshkey) : sshd sshkey :=
  mk_sshd (d_auth s) (d_options s) (d_none_enabled s) (d_kbdint_devices s) (d_dispatch s) v
    (d_incoming s) (d_outgoing s) (d_trace s).
Definition set_incoming (v : sshbuf) (s : sshd sshkey) : sshd sshkey :=
  mk_sshd (d_auth s) (d_options s) (d_none_enabled s) (d_kbdint_devices s) (d_dispatch s)
    (d_skip_packets s) v (d_outgoing s) (d_trace s).
Definition set_outgoing (v : sshbuf) (s : sshd sshkey) : sshd sshkey :=
  mk_sshd (d_auth s) (d_options s) (d_none_enabled s) (d_kbdint_devices s) (d_dispatch s)
    (d_skip_packets s) (d_incoming s) v (d_trace s).
Definition set_trace (v : list (event sshkey)) (s : sshd sshkey) : sshd sshkey :=
  mk_sshd (d_auth s) (d_options s) (d_none_enabled s) (d_kbdint_devices s) (d_dispatch s)
    (d_skip_packets s) (d_incoming s) (d_outgoing s) v.

Abbreviation proc X := (M (sshd sshkey) X).

Definition update (f : sshd sshkey -> sshd sshkey) : proc unit := fun s => (Ok tt, f s).
Definition update_auth (f : Authctxt sshkey -> Authctxt sshkey) : proc unit :=
  update (fun s => set_authctxt (f (d_auth s)) s).

Definition dispatch_set (type : Z) (fn : option dispatch_fn) : proc unit :=
  update (fun s => set_dispatch (ssh_dispatch_set type fn (d_dispatch s)) s).

Definition fatal {X} : proc X := fail EXIT.

(** opacket.c: an error of the new packet API is fatal. *)
Definition or_fatal {X} (r : result X) : proc X :=
  match r with Ok x => ret x | Err _ => fatal end.

Definition on_incoming {X} (m : M sshbuf X) : proc X := fun s =>
  let '(r, b) := m (d_incoming s) in or_fatal r (set_incoming b s).
Definition on_outgoing {X} (m : M sshbuf X) : proc X := fun s =>
  let '(r, b) := m (d_outgoing s) in or_fatal r (set_outgoing b s).

(** Asking the surroundings. *)
Definition ask {R} (f : list (event sshkey) -> R) (e : R -> event sshkey) : proc R := fun s =>
  let r := f (d_trace s) in (Ok r, set_trace (d_trace s ++ [e r]) s).

Context (A : allocator) `{World sshkey} `{UserKey sshkey}.
Context (session_id2 : bytes) (datafellows : Z) (use_privsep : bool) (privsep_uid : Z).

Definition bug (flag : Z) : bool := negb (Z.land datafellows flag =? 0).

(** ** Packets *)

(** The string a pointer to the bytes [v] and a NUL stands for. *)
Definition c_str_of (v : bytes) : bytes := before v 0.

Definition packet_get_char : proc Z := on_incoming sshbuf_get_u8.
Definition packet_get_int : proc Z := on_incoming sshbuf_get_u32.
Definition packet_get_string : proc bytes :=
  let! (v, len) := on_incoming (sshbuf_get_string A true) in ret (ztake len (default [] v)).
Definition packet_get_cstring : proc bytes :=
  let! (v, _) := on_incoming (sshbuf_get_cstring A true) in ret (c_str_of (default [] v)).

Definition packet_start (type : Z) : proc unit :=
  on_outgoing (fun b => (Ok tt, sshbuf_reset A b)) ;;;
  on_outgoing (sshbuf_put A [0; 0; 0; 0; 0; type] 6).
Definition packet_put_char (value : Z) : proc unit := on_outgoing (sshbuf_put_u8 A (u8 value)).
Definition packet_put_int (value : Z) : proc unit := on_outgoing (sshbuf_put_u32 A value).
Definition packet_put_string (v : bytes) (len : Z) : proc unit := on_outgoing (sshbuf_put_string A v len).
Definition packet_put_cstring (v : bytes) : proc unit := on_outgoing (sshbuf_put_cstring A (Some v)).

(** With [packet_write_wait]: the packet is sent or the process ends. *)
Definition packet_send : proc unit :=
  let! s := get_state in
  let pkt := zdrop 5 (buf_bytes (d_outgoing s)) in
  let! ok := ask (fun h => w_send h pkt) (ESend pkt) in
  if ok then ret tt else fatal.

Definition sshpkt_disconnect (msg : bytes) : proc unit :=
  packet_start SSH2_MSG_DISCONNECT ;;;
  packet_put_int SSH2_DISCONNECT_PROTOCOL_ERROR ;;;
  packet_put_cstring (ztake 1023 msg) ;;;
  packet_put_cstring [] ;;;
  packet_send.
Definition packet_disconnect {X} (msg : bytes) : proc X := sshpkt_disconnect msg ;;; fatal.

Definition packet_check_eom : proc unit :=
  let! s := get_state in
  if 0 <? sshbuf_len (d_incoming s) then packet_disconnect (cstr "Packet integrity error.") else ret tt.

(** A [Buffer] of buffer.c, whose functions are fatal on errors, filled by [m]. *)
Definition with_buffer (m : M sshbuf unit) : proc bytes :=
  match sshbuf_new A with
  | None => fatal
  | Some b => match m b with (Ok _, b) => ret (buf_bytes b) | (Err _, _) => fatal end
  end.

(** ** Methods and their lists *)

Definition method_enabled (s : sshd sshkey) (m : Authmethod) : bool :=
  match m with
  | method_none => d_none_enabled s
  | method_pubkey => o_pubkey_authentication (d_options s)
  | method_passwd => o_password_authentication (d_options s)
  | method_kbdint => o_kbd_interactive_authentication (d_options s)
  | method_hostbased => o_hostbased_authentication (d_options s)
  end.

Definition auth2_method_allowed (s : sshd sshkey) (method : bytes) (submethod : option bytes) : bool :=
  bool_decide (o_auth_methods (d_options s) = []) ||
  existsb (fun l => negb (list_starts_with l method submethod =? MATCH_NONE)) (a_auth_methods (d_auth s)).

(** The methods the client can go on with. *)
Definition authmethods_get (s : sshd sshkey) : bytes :=
  join_with (ch ",") (method_name <$> List.filter (fun m =>
    negb (strcmp_eq (method_name m) (cstr "none")) && method_enabled s m &&
    auth2_method_allowed s (method_name m) None) authmethods).

Definition authmethod_lookup (s : sshd sshkey) (name : bytes) : option Authmethod :=
  find (fun m => method_enabled s m && strcmp_eq name (method_name m) &&
                 auth2_method_allowed s (method_name m) None) authmethods.

Definition auth2_setup_methods_lists : proc Z :=
  let! s := get_state in
  if bool_decide (o_auth_methods (d_options s) = []) then ret 0
  else
    let lists := kept_lists (method_enabled s) (o_auth_methods (d_options s)) in
    update_auth (set_auth_methods lists) ;;;
    ret (if bool_decide (lists = []) then -1 else 0).

Definition auth2_update_methods_lists (method : bytes) (submethod : option bytes) : proc bool :=
  let! s := get_state in
  let '(complete, found, lists) := update_lists (a_auth_methods (d_auth s)) method submethod in
  update_auth (set_auth_methods lists) ;;;
  if complete then ret true
  else if found then ret false
  else fatal.

Definition auth_root_allowed (s : sshd sshkey) (method : bytes) : bool :=
  let p := o_permit_root_login (d_options s) in
  if p =? PERMIT_YES then true
  else if p =? PERMIT_NO_PASSWD then
    strcmp_eq method (cstr "publickey") || strcmp_eq method (cstr "hostbased") ||
    strcmp_eq method (cstr "gssapi-with-mic") || strcmp_eq method (cstr "gssapi-keyex")
  else if p =? PERMIT_FORCED_ONLY then w_forced_command (d_trace s)
  else false.

Definition auth_maxtries_exceeded {X} : proc X :=
  packet_disconnect (cstr "Too many authentication failures").

Definition userauth_send_banner (msg : bytes) : proc unit :=
  if bug SSH_BUG_BANNER then ret tt
  else
    packet_start SSH2_MSG_USERAUTH_BANNER ;;;
    packet_put_cstring msg ;;;
    packet_put_cstring [] ;;;
    packet_send.

Definition userauth_banner : proc unit :=
  let! s := get_state in
  match o_banner (d_options s) with
  | None => ret tt
  | Some _ =>
      if bug SSH_BUG_BANNER then ret tt
      else
        let! banner := ask w_read_banner EReadBanner in
        match banner with
        | None => ret tt
        | Some b => userauth_send_banner (c_str_of b)
        end
  end.

(** ** The end of a request *)

(** [authctxt->pw] is set at the first request. *)
Definition user_is_root (s : sshd sshkey) : bool :=
  match a_pw (d_auth s) with Some pw => pw_uid pw =? 0 | None => false end.

Definition send_failure (partial : bool) : proc unit :=
  let! s := get_state in
  let methods := authmethods_get s in
  packet_start SSH2_MSG_USERAUTH_FAILURE ;;;
  packet_put_cstring methods ;;;
  packet_put_char (b2z partial) ;;;
  packet_send.

Definition check_pam_account : proc unit :=
  let! account := ask w_pam_account EPamAccount in
  if account then ret tt
  else
    let! s := get_state in
    (let msg := w_loginmsg (d_trace s) in
     if 0 <? zlen msg then userauth_send_banner (c_str_of msg) else ret tt) ;;;
    fatal.

(** The reply, once it is known whether the request succeeded. *)
Definition userauth_reply (authenticated partial : bool) (method : bytes) : proc unit :=
  if authenticated then
    dispatch_set SSH2_MSG_USERAUTH_REQUEST (Some dispatch_protocol_ignore) ;;;
    packet_start SSH2_MSG_USERAUTH_SUCCESS ;;;
    packet_send ;;;
    update_auth (set_success true)
  else
    let! s := get_state in
    let a := d_auth s in
    (if negb partial && negb (a_server_caused_failure a) &&
        ((1 <? a_attempt a) || negb (strcmp_eq method (cstr "none")))
     then update_auth (set_failures (a_failures a + 1)) else ret tt) ;;;
    let! s := get_state in
    (if o_max_authtries (d_options s) <=? a_failures (d_auth s) then auth_maxtries_exceeded else ret tt) ;;;
    send_failure partial.

(** The result of the checks of [userauth_finish]: authenticated, partial. *)
Definition userauth_checks (authenticated : bool) (method : bytes) (submethod : option bytes)
    : proc (bool * bool) :=
  let! s := get_state in
  if authenticated && user_is_root s && negb (auth_root_allowed s method) then ret (false, false)
  else if authenticated && negb (bool_decide (o_auth_methods (d_options s) = [])) then
    let! complete := auth2_update_methods_lists method submethod in
    ret (if complete then (true, false) else (false, true))
  else ret (authenticated, false).

Definition userauth_finish (authenticated : bool) (method : bytes) (submethod : option bytes) : proc unit :=
  let! s := get_state in
  let a := d_auth s in
  if negb (a_valid a) && authenticated then fatal
  else if authenticated && a_postponed a then fatal
  else
    let! (authenticated, partial) := userauth_checks authenticated method submethod in
    if a_postponed a then ret tt
    else
      (if o_use_pam (d_options s) && authenticated then check_pam_account else ret tt) ;;;
      userauth_reply authenticated partial method.

(** ** Keyboard-interactive (auth2-chall.c) *)

(** [remove_kbdint_device] *)
Definition remove_kbdint_device (devname : bytes) (devices : list bytes) : list bytes :=
  List.filter (fun d => negb (strcmp_eq d devname)) devices.

Definition kbdint_alloc (devs : bytes) : proc KbdintAuthctxt :=
  let! s := get_state in
  (if negb (o_use_pam (d_options s))
   then update (set_kbdint_devices (remove_kbdint_device (cstr "pam") (d_kbdint_devices s)))
   else ret tt) ;;;
  let! s := get_state in
  ret (mk_kbdint (Some (if bool_decide (devs = []) then join_with (ch ",") (d_kbdint_devices s) else devs))
         false None 0 0).

Definition kbdint_reset_device (k : KbdintAuthctxt) : KbdintAuthctxt :=
  mk_kbdint (kb_devices k) false None (kb_nreq k) (kb_devices_done k).

(** The inner loop of [kbdint_next_device], from the device number [i] on. *)
Fixpoint find_device (s : sshd sshkey) (i : Z) (devices : list bytes) (name : bytes) (len : Z)
    (device : option bytes) (done : Z) : option bytes * Z :=
  match devices with
  | [] => (device, done)
  | d :: devices =>
      if negb (Z.land done (Z.shiftl 1 i) =? 0) ||
         negb (auth2_method_allowed s (cstr "keyboard-interactive") (Some d))
      then find_device s (i + 1) devices name len device done
      else if bool_decide (ztake len name = ztake len d)
      then find_device s (i + 1) devices name len (Some d) (Z.lor done (Z.shiftl 1 i))
      else find_device s (i + 1) devices name len device done
  end.

(** The do loop; every round takes a name from [kb_devices]. *)
Fixpoint next_device_loop (fuel : nat) (s : sshd sshkey) (k : KbdintAuthctxt) : KbdintAuthctxt :=
  match fuel with
  | O => k
  | S fuel =>
      let devs := default [] (kb_devices k) in
      let len := strcspn devs [ch ","] in
      if len =? 0 then k
      else
        let '(device, done) :=
          find_device s 0 (d_kbdint_devices s) devs len (kb_device k) (kb_devices_done k) in
        let rest := zdrop len devs in
        let devices := match rest with [] => None | _ :: r => Some r end in
        let k := mk_kbdint devices (kb_ctxt k) device (kb_nreq k) done in
        match devices, device with
        | Some _, None => next_device_loop fuel s k
        | _, _ => k
        end
  end.

Definition kbdint_next_device (s : sshd sshkey) (k : KbdintAuthctxt) : KbdintAuthctxt * bool :=
  let k := match kb_device k with Some _ => kbdint_reset_device k | None => k end in
  let k := next_device_loop (S (length (default [] (kb_devices k)))) s k in
  (k, match kb_device k with Some _ => true | None => false end).

Definition auth2_challenge_stop : proc unit :=
  dispatch_set SSH2_MSG_USERAUTH_INFO_RESPONSE None ;;;
  update_auth (set_kbdintctxt None).

Fixpoint put_prompts (prompts : list (bytes * Z)) : proc unit :=
  match prompts with
  | [] => ret tt
  | (p, echo) :: prompts => packet_put_cstring p ;;; packet_put_char echo ;;; put_prompts prompts
  end.

(** [k] is [authctxt->kbdintctxt], whose device has a context. *)
Definition send_userauth_info_request (k : KbdintAuthctxt) (device : bytes) : proc bool :=
  let! q := ask (fun h => w_query h device) (EQuery device) in
  match q with
  | None => ret false
  | Some (name, instr, prompts) =>
      update_auth (set_kbdintctxt
        (Some (mk_kbdint (kb_devices k) (kb_ctxt k) (kb_device k) (zlen prompts) (kb_devices_done k)))) ;;;
      packet_start SSH2_MSG_USERAUTH_INFO_REQUEST ;;;
      packet_put_cstring name ;;;
      packet_put_cstring instr ;;;
      packet_put_cstring [] ;;;
      packet_put_int (zlen prompts) ;;;
      put_prompts prompts ;;;
      packet_send ;;;
      ret true
  end.

Definition auth2_challenge_start (k : KbdintAuthctxt) : proc unit :=
  let! s := get_state in
  let '(k, found) := kbdint_next_device s k in
  update_auth (set_kbdintctxt (Some k)) ;;;
  match kb_device k with
  | None => auth2_challenge_stop
  | Some device =>
      let! ctxt := ask (fun h => w_init_ctx h device) (EInitCtx device) in
      let k := mk_kbdint (kb_devices k) ctxt (kb_device k) (kb_nreq k) (kb_devices_done k) in
      update_auth (set_kbdintctxt (Some k)) ;;;
      if negb ctxt then auth2_challenge_stop
      else
        let! sent := send_userauth_info_request k device in
        if negb sent then auth2_challenge_stop
        else
          dispatch_set SSH2_MSG_USERAUTH_INFO_RESPONSE (Some input_userauth_info_response) ;;;
          update_auth (set_postponed true)
  end.

Definition auth2_challenge (devs : bytes) : proc unit :=
  let! s := get_state in
  match a_user (d_auth s) with
  | None => ret tt
  | Some _ =>
      let! k := match a_kbdintctxt (d_auth s) with Some k => ret k | None => kbdint_alloc devs end in
      update_auth (set_kbdintctxt (Some k)) ;;;
      auth2_challenge_start k
  end.

Fixpoint get_strings (n : nat) : proc (list bytes) :=
  match n with
  | O => ret []
  | S n => let! v := packet_get_string in let! vs := get_strings n in ret (c_str_of v :: vs)
  end.

Definition do_info_response : proc unit :=
  let! s := get_state in
  match a_kbdintctxt (d_auth s) with
  | None => fatal
  | Some k =>
      if negb (kb_ctxt k) then fatal
      else
        match kb_device k with
        | None => fatal
        | Some device =>
            update_auth (set_postponed false) ;;;
            let! nresp := packet_get_int in
            if negb (nresp =? kb_nreq k) then fatal
            else if 100 <? nresp then fatal
            else
              let! response := get_strings (Z.to_nat nresp) in
              packet_check_eom ;;;
              let! res := ask (fun h => w_respond h device response) (ERespond device response) in
              (if res =? 1 then
                 let! sent := send_userauth_info_request k device in
                 if sent then update_auth (set_postponed true) else ret tt
               else ret tt) ;;;
              let! s := get_state in
              let authenticated := (res =? 0) && a_valid (d_auth s) in
              (if a_postponed (d_auth s) then ret tt
               else if authenticated then auth2_challenge_stop
               else
                 match a_kbdintctxt (d_auth s) with
                 | Some k => auth2_challenge_start k
                 | None => ret tt
                 end) ;;;
              userauth_finish authenticated (cstr "keyboard-interactive") (Some device)
        end
  end.

(** ** The methods *)

(** [auth_password] of auth-passwd.c. *)
Definition auth_password (password : bytes) : proc bool :=
  let! s := get_state in
  let a := d_auth s in
  let ok := a_valid a &&
            negb (user_is_root s && negb (o_permit_root_login (d_options s) =? PERMIT_YES)) in
  if MAX_PASSWORD_LEN <? zlen password then ret false
  else if bool_decide (password = []) && negb (o_permit_empty_passwd (d_options s)) then ret false
  else
    let user := default [] (a_user a) in
    let! result := ask (fun h => w_password h user password) (EPassword user password) in
    ret (result && ok).

Definition userauth_none : proc bool :=
  update (set_none_enabled false) ;;;
  packet_check_eom ;;;
  let! s := get_state in
  if o_permit_empty_passwd (d_options s) && o_password_authentication (d_options s)
  then auth_password [] else ret false.

Definition userauth_passwd : proc bool :=
  let! change := packet_get_char in
  let! password := packet_get_string in
  (if negb (change =? 0) then let! _ := packet_get_string in ret tt else ret tt) ;;;
  packet_check_eom ;;;
  if negb (change =? 0) then ret false else auth_password (c_str_of password).

(** [key_from_blob] of key.c: a NULL key is [None]. *)
Definition key_from_blob (blob : bytes) : proc (option sshkey) :=
  match blob_key blob with
  | Ok k => ret (Some k)
  | Err r => if (r =? SSH_ERR_INTERNAL_ERROR) || (r =? SSH_ERR_ALLOC_FAIL) then fatal else ret None
  end.

(** [key_verify (..) == 1] *)
Definition key_verify (key : sshkey) (sig data : bytes) : proc bool :=
  let! r := ask (fun h => w_key_verify h key sig data) (EKeyVerify key sig data) in
  match r with
  | Ok _ => ret true
  | Err r => if (r =? SSH_ERR_INTERNAL_ERROR) || (r =? SSH_ERR_ALLOC_FAIL) then fatal else ret false
  end.

Definition auth2_userkey_already_used (s : sshd sshkey) (key : sshkey) : bool :=
  existsb (fun k => sshkey_equal_public key k) (a_prev_userkeys (d_auth s)).

(** The key of a request, if its type and name are accepted; [used]: it is refused
    because it was used before. *)
Definition request_key (used : sshkey -> bool) (pkalg pkblob types : bytes) : proc (option sshkey) :=
  let pktype := sshkey_type_from_name (c_str_of pkalg) in
  if pktype =? KEY_UNSPEC then ret None
  else
    let! key := key_from_blob pkblob in
    match key with
    | None => ret None
    | Some key =>
        if negb (key_type key =? pktype) then ret None
        else if (sshkey_type_plain (key_type key) =? KEY_RSA) && bug SSH_BUG_RSASIGMD5 then ret None
        else if used key then ret None
        else if negb (match_pattern_list
                        (default [] (sshkey_ssh_name (key_type key) (key_ecdsa_nid key))) types false =? 1)
             then ret None
        else ret (Some key)
    end.

Definition userstyle (a : Authctxt sshkey) : bytes :=
  default [] (a_user a) ++ match a_style a with Some st => ch ":" :: st | None => [] end.

(** What is signed. *)
Definition pubkey_data (a : Authctxt sshkey) (have_sig : Z) (pkalg pkblob : bytes) : M sshbuf unit :=
  (if bug SSH_OLD_SESSIONID then sshbuf_put A session_id2 (zlen session_id2)
   else sshbuf_put_string A session_id2 (zlen session_id2)) ;;;
  sshbuf_put_u8 A SSH2_MSG_USERAUTH_REQUEST ;;;
  sshbuf_put_cstring A (Some (userstyle a)) ;;;
  sshbuf_put_cstring A (if bug SSH_BUG_PKSERVICE then Some (cstr "ssh-userauth") else a_service a) ;;;
  (if bug SSH_BUG_PKAUTH then sshbuf_put_u8 A have_sig
   else
     sshbuf_put_cstring A (Some (cstr "publickey")) ;;;
     sshbuf_put_u8 A have_sig ;;;
     sshbuf_put_cstring A (Some (c_str_of pkalg))) ;;;
  sshbuf_put_string A pkblob (zlen pkblob).

(** The algorithm inside a key: its first string. *)
Definition blob_alg (pkblob : bytes) : proc bytes :=
  match sshbuf_new A with
  | None => fatal
  | Some b =>
      match (sshbuf_put A pkblob (zlen pkblob) ;;; sshbuf_get_string A true) b with
      | (Ok (v, len), _) => ret (ztake len (default [] v))
      | (Err _, _) => fatal
      end
  end.

Definition pubkey_signed (key : sshkey) (have_sig : Z) (pkalg pkblob : bytes) : proc bool :=
  let! sig := packet_get_string in
  packet_check_eom ;;;
  let! s := get_state in
  let! data := with_buffer (pubkey_data (d_auth s) have_sig pkalg pkblob) in
  let pw := a_pw (d_auth s) in
  let! allowed := ask (fun h => w_user_key_allowed h pw key true) (EUserKeyAllowed pw key true) in
  if negb allowed then ret false
  else
    let! verified := key_verify key sig data in
    if verified then
      update_auth (fun a => set_prev_userkeys (a_prev_userkeys a ++ [key]) a) ;;; ret true
    else ret false.

Definition pubkey_probe (key : sshkey) (pkalg pkblob : bytes) : proc bool :=
  packet_check_eom ;;;
  let! s := get_state in
  let pw := a_pw (d_auth s) in
  let! allowed := ask (fun h => w_user_key_allowed h pw key false) (EUserKeyAllowed pw key false) in
  (if allowed then
     packet_start SSH2_MSG_USERAUTH_PK_OK ;;;
     packet_put_string pkalg (zlen pkalg) ;;;
     packet_put_string pkblob (zlen pkblob) ;;;
     packet_send ;;;
     update_auth (set_postponed true)
   else ret tt) ;;;
  ret false.

Definition userauth_pubkey : proc bool :=
  let! s := get_state in
  if negb (a_valid (d_auth s)) then ret false
  else
    let! have_sig := packet_get_char in
    let! (pkalg, pkblob) :=
      if bug SSH_BUG_PKAUTH then
        let! pkblob := packet_get_string in
        let! pkalg := blob_alg pkblob in ret (pkalg, pkblob)
      else
        let! pkalg := packet_get_string in
        let! pkblob := packet_get_string in ret (pkalg, pkblob) in
    let! key := request_key (auth2_userkey_already_used s) pkalg pkblob (o_pubkey_key_types (d_options s)) in
    match key with
    | None => ret false
    | Some key =>
        if negb (have_sig =? 0) then pubkey_signed key have_sig pkalg pkblob
        else pubkey_probe key pkalg pkblob
    end.

Definition hostbased_data (a : Authctxt sshkey) (pkalg pkblob chost cuser : bytes) : M sshbuf unit :=
  sshbuf_put_string A session_id2 (zlen session_id2) ;;;
  sshbuf_put_u8 A SSH2_MSG_USERAUTH_REQUEST ;;;
  sshbuf_put_cstring A (a_user a) ;;;
  sshbuf_put_cstring A (if bug SSH_BUG_HBSERVICE then Some (cstr "ssh-userauth") else a_service a) ;;;
  sshbuf_put_cstring A (Some (cstr "hostbased")) ;;;
  sshbuf_put_string A pkalg (zlen pkalg) ;;;
  sshbuf_put_string A pkblob (zlen pkblob) ;;;
  sshbuf_put_cstring A (Some chost) ;;;
  sshbuf_put_cstring A (Some cuser).

Definition userauth_hostbased : proc bool :=
  let! s := get_state in
  if negb (a_valid (d_auth s)) then ret false
  else
    let! pkalg := packet_get_string in
    let! pkblob := packet_get_string in
    let! chost := packet_get_string in
    let! cuser := packet_get_string in
    let! sig := packet_get_string in
    let chost := c_str_of chost in
    let cuser := c_str_of cuser in
    let! key := request_key (fun _ => false) pkalg pkblob (o_hostbased_key_types (d_options s)) in
    match key with
    | None => ret false
    | Some key =>
        let! data := with_buffer (hostbased_data (d_auth s) pkalg pkblob chost cuser) in
        let pw := a_pw (d_auth s) in
        let! allowed := ask (fun h => w_hostbased_key_allowed h pw cuser chost key)
                            (EHostKeyAllowed pw cuser chost key) in
        if negb allowed then ret false else key_verify key sig data
    end.

Definition userauth_kbdint : proc bool :=
  let! _ := packet_get_string in
  let! devs := packet_get_string in
  packet_check_eom ;;;
  let! s := get_state in
  (if o_challenge_response_authentication (d_options s)
   then auth2_challenge (c_str_of devs) else ret tt) ;;;
  ret false.

Definition userauth (m : Authmethod) : proc bool :=
  match m with
  | method_none => userauth_none
  | method_pubkey => userauth_pubkey
  | method_passwd => userauth_passwd
  | method_kbdint => userauth_kbdint
  | method_hostbased => userauth_hostbased
  end.

(** ** Requests *)

(** The user name of a request without the role and the style after it. *)
Definition split_user (user : bytes) : bytes * option bytes * option bytes :=
  let '(user, role) :=
    match strchr user (ch "/") with
    | Some r => (before user (ch "/"), Some (tail r))
    | None => (user, None)
    end in
  match strchr user (ch ":") with
  | Some r => (before user (ch ":"), Some (tail r), role)
  | None =>
      match role with
      | Some ro =>
          match strchr ro (ch ":") with
          | Some r => (user, Some (tail r), Some (before ro (ch ":")))
          | None => (user, None, role)
          end
      | None => (user, None, role)
      end
  end.

Definition fakepw : passwd := mk_passwd (cstr "NOUSER") privsep_uid.

(** The first request sets up the context. *)
Definition setup_authctxt (user service : bytes) (style role : option bytes) : proc unit :=
  let! s := get_state in
  let '(pw, options) := w_getpwnamallow (d_trace s) user in
  update (set_options options) ;;;
  let! _ := ask (fun _ => pw) (EGetpwnamallow user) in
  let valid := match pw with Some _ => strcmp_eq service (cstr "ssh-connection") | None => false end in
  update_auth (fun a =>
    mk_authctxt (a_success a) (a_postponed a) (if valid then true else a_valid a) (a_attempt a) (a_failures a)
      (a_server_caused_failure a) (Some user) (Some service) (if valid then pw else Some fakepw) style role
      (a_kbdintctxt a) (a_auth_methods a) (a_prev_userkeys a)) ;;;
  (if o_use_pam options then ask (fun _ => tt) (fun _ => EStartPam) else ret tt) ;;;
  (if use_privsep then ask (fun _ => tt) (fun _ => EInformAuthserv service style role) else ret tt) ;;;
  userauth_banner ;;;
  let! r := auth2_setup_methods_lists in
  if negb (r =? 0) then packet_disconnect (cstr "no authentication methods enabled") else ret tt.

Definition change_of_user (a : Authctxt sshkey) (user service : bytes) : bytes :=
  cstr "Change of username or service not allowed: (" ++ default [] (a_user a) ++ ch "," ::
  default [] (a_service a) ++ cstr ") -> (" ++ user ++ ch "," :: service ++ cstr ")".

Definition do_userauth_request : proc unit :=
  let! user := packet_get_cstring in
  let! service := packet_get_cstring in
  let! method := packet_get_cstring in
  let '(user, style, role) := split_user user in
  let! s := get_state in
  let first := a_attempt (d_auth s) =? 0 in
  update_auth (set_attempt (a_attempt (d_auth s) + 1)) ;;;
  (if first then setup_authctxt user service style role
   else if negb (strcmp_eq user (default [] (a_user (d_auth s)))) ||
           negb (strcmp_eq service (default [] (a_service (d_auth s))))
   then packet_disconnect (change_of_user (d_auth s) user service)
   else ret tt) ;;;
  auth2_challenge_stop ;;;
  update_auth (fun a => set_server_caused_failure false (set_postponed false a)) ;;;
  let! s := get_state in
  let! authenticated :=
    match authmethod_lookup s method with
    | Some m =>
        if a_failures (d_auth s) <? o_max_authtries (d_options s) then userauth m else ret false
    | None => ret false
    end in
  userauth_finish authenticated method None.

Definition do_service_request : proc unit :=
  let! service := packet_get_cstring in
  packet_check_eom ;;;
  let! s := get_state in
  if strcmp_eq service (cstr "ssh-userauth") && negb (a_success (d_auth s)) then
    dispatch_set SSH2_MSG_USERAUTH_REQUEST (Some input_userauth_request) ;;;
    packet_start SSH2_MSG_SERVICE_ACCEPT ;;;
    packet_put_cstring service ;;;
    packet_send
  else packet_disconnect (cstr "bad service request " ++ service).

(** [dispatch_protocol_error] of dispatch.c *)
Definition do_protocol_error (seq : Z) : proc unit :=
  packet_start SSH2_MSG_UNIMPLEMENTED ;;;
  packet_put_int seq ;;;
  packet_send.

(** ** The connection *)

Definition call_handler (fn : dispatch_fn) (type seq : Z) : proc unit :=
  match fn with
  | dispatch_protocol_error => do_protocol_error seq
  | dispatch_protocol_ignore => ret tt
  | input_service_request => do_service_request
  | input_userauth_request => do_userauth_request
  | input_userauth_info_response => do_info_response
  end.

#[export] Instance sshd_host : DispatchHost (sshd sshkey) dispatch_fn := {
  host_table := d_dispatch;
  host_skip := d_skip_packets;
  host_set_skip n := update (set_skip_packets n);
  host_receive payload := on_incoming (fun b =>
    (sshbuf_put A payload (zlen payload)) (sshbuf_reset A b));
  host_call := call_handler;
  host_disconnect type := sshpkt_disconnect (cstr "protocol error: rcvd type " ++ cstr (pretty type));
  host_done s := a_success (d_auth s)
}.

(** [ssh_dispatch_run_fatal], in blocking mode. *)
Definition dispatch_run (packets : list (result packet)) : proc run_end := fun s =>
  match ssh_dispatch_run true packets s with
  | (Err _, s) => (Err EXIT, s)
  | ok => ok
  end.

Definition do_authentication2 (packets : list (result packet)) : proc run_end :=
  update (fun s => set_dispatch (ssh_dispatch_init (Some dispatch_protocol_error) (d_dispatch s)) s) ;;;
  dispatch_set SSH2_MSG_SERVICE_REQUEST (Some input_service_request) ;;;
  dispatch_run packets.
End auth2.
