(* ===== verification/AuthFrame.v ===== *)
(** What the parts of Auth2.v leave alone.

    A request runs through many small computations, most of which only read and
    write packets and ask questions.  [frame] says what such a computation keeps,
    whatever its outcome, and [Framed] is proved for each by composition. *)

From stdpp Require Import pretty.
From S2P Require Import Prelude CString Sshbuf SshbufGetput Algs Glob Ssh2 Dispatch AuthMethods Auth2.

Section frame.
Context {sshkey : Type}.
Implicit Types (s : sshd sshkey) (tr ext : list (event sshkey)) (e : event sshkey).
Abbreviation proc X := (M (sshd sshkey) X).

(** A guess of a secret that was wrong. *)
Definition wrong_guess e : bool :=
  match e with
  | EPassword _ _ r => negb r
  | ERespond _ _ r => negb (r =? 0) && negb (r =? 1)
  | _ => false
  end.
Definition guesses tr : Z := zlen (List.filter wrong_guess tr).

(** Neither a guess nor an answer that lets somebody in. *)
Definition quiet e : Prop :=
  match e with EPassword _ _ _ | ERespond _ _ _ => False | _ => True end.

(** [strict]: the dialogue of keyboard-interactive stays as it is too. *)
Record frame (strict : bool) s s' : Prop := {
  fr_options : d_options s' = d_options s;
  fr_success : a_success (d_auth s') = a_success (d_auth s);
  fr_valid : a_valid (d_auth s') = a_valid (d_auth s);
  fr_attempt : a_attempt (d_auth s') = a_attempt (d_auth s);
  fr_failures : a_failures (d_auth s') = a_failures (d_auth s);
  fr_scf : a_server_caused_failure (d_auth s') = a_server_caused_failure (d_auth s);
  fr_user : a_user (d_auth s') = a_user (d_auth s);
  fr_service : a_service (d_auth s') = a_service (d_auth s);
  fr_pw : a_pw (d_auth s') = a_pw (d_auth s);
  fr_style : a_style (d_auth s') = a_style (d_auth s);
  fr_methods : a_auth_methods (d_auth s') = a_auth_methods (d_auth s);
  fr_devices : sublist (d_kbdint_devices s') (d_kbdint_devices s);
  fr_trace : exists ext, d_trace s' = d_trace s ++ ext /\ Forall quiet ext;
  fr_table : zlen (d_dispatch s') = zlen (d_dispatch s);
  fr_strict : strict = true ->
    a_postponed (d_auth s') = a_postponed (d_auth s) /\
    a_kbdintctxt (d_auth s') = a_kbdintctxt (d_auth s) /\
    d_dispatch s' = d_dispatch s
}.

Lemma no_events tr : exists ext, tr = tr ++ ext /\ Forall quiet ext.
Proof. exists []. by rewrite app_nil_r. Qed.

#[export] Instance frame_refl b : Reflexive (frame b).
Proof. intros s. constructor; try done. apply no_events. Qed.

#[export] Instance frame_trans b : Transitive (frame b).
Proof.
  intros s1 s2 s3 [] []. constructor; try congruence.
  - by etransitivity.
  - destruct fr_trace0 as (x&E1&Q1), fr_trace1 as (y&E2&Q2). exists (x ++ y).
    rewrite E2, E1, (assoc_L (++)). split; [done|]. by apply Forall_app.
  - intros Hb. destruct (fr_strict0 Hb) as (?&?&?), (fr_strict1 Hb) as (?&?&?). split_and!; congruence.
Qed.

Lemma frame_weaken b s s' : frame true s s' -> frame b s s'.
Proof. intros []. constructor; try done. intros _. by apply fr_strict0. Qed.

Lemma guesses_app tr ext : guesses (tr ++ ext) = guesses tr + guesses ext.
Proof. unfold guesses. by rewrite List.filter_app, zlen_app. Qed.
Lemma guesses_quiet ext : Forall quiet ext -> guesses ext = 0.
Proof.
  induction 1 as [|e ext He _ IH]; [done|]. unfold guesses in *. simpl. by destruct e.
Qed.
Lemma guesses_nonneg tr : 0 <= guesses tr.
Proof. apply zlen_nonneg. Qed.
Lemma frame_guesses b s s' : frame b s s' -> guesses (d_trace s') = guesses (d_trace s).
Proof. intros [????????????(ext&->&Hq)]. rewrite guesses_app, (guesses_quiet ext) by done. lia. Qed.

(** ** Framed computations *)

Class Framed (b : bool) {X} (m : proc X) : Prop := framed s : frame b s (snd (m s)).

Lemma framed_bind b {X Y} (m : proc X) (k : X -> proc Y) :
  Framed b m -> (forall x, Framed b (k x)) -> Framed b (bind m k).
Proof.
  intros Hm Hk s. unfold bind. specialize (Hm s). destruct (m s) as [[x|c] s1]; [|done].
  by etransitivity; [exact Hm|apply Hk].
Qed.
Lemma framed_if b {X} (c : bool) (m1 m2 : proc X) : Framed b m1 -> Framed b m2 -> Framed b (if c then m1 else m2).
Proof. by destruct c. Qed.
#[export] Instance framed_ret b {X} (x : X) : Framed b (ret x).
Proof. by intros s. Qed.
#[export] Instance framed_fail b {X} c : Framed b (fail (A := X) c).
Proof. by intros s. Qed.
#[export] Instance framed_get b : Framed b get_state.
Proof. by intros s. Qed.
#[export] Instance framed_fatal b {X} : Framed b (fatal (X := X)).
Proof. apply _. Qed.
#[export] Instance framed_or_fatal b {X} (r : result X) : Framed b (or_fatal r).
Proof. destruct r; apply _. Qed.
Lemma framed_update b f : (forall s, frame b s (f s)) -> Framed b (update f).
Proof. by intros Hf s. Qed.
Lemma framed_ask b {R} (f : list (event sshkey) -> R) (e : R -> event sshkey) : (forall r, quiet (e r)) -> Framed b (ask f e).
Proof. intros He s. constructor; try done. exists [e (f (d_trace s))]. split; [done|]. by constructor. Qed.
#[export] Instance framed_incoming b {X} (m : M sshbuf X) : Framed b (on_incoming m).
Proof. intros s. unfold on_incoming. destruct (m (d_incoming s)) as [[x|c] b1]; constructor; try done; apply no_events. Qed.
#[export] Instance framed_outgoing b {X} (m : M sshbuf X) : Framed b (on_outgoing m).
Proof. intros s. unfold on_outgoing. destruct (m (d_outgoing s)) as [[x|c] b1]; constructor; try done; apply no_events. Qed.
Lemma ok_framed b {X} (m : proc X) s x s1 : Framed b m -> m s = (Ok x, s1) -> frame b s s1.
Proof. intros Hm E. specialize (Hm s). by rewrite E in Hm. Qed.
End frame.

(** Composes [Framed]: over [bind], conditionals and case distinctions. *)
Ltac framed :=
  repeat first
    [ progress cbv zeta
    | apply _
    | apply framed_bind; [|intros ?]
    | apply framed_if
    | apply framed_ask; [by intros ?]
    | match goal with
      | |- Framed _ (match ?x with _ => _ end) => destruct x
      | |- Framed _ (let '(_, _) := ?x in _) => destruct x
      end ].

Section parts.
Context {sshkey : Type} (A : allocator) {HW : World sshkey} {HU : UserKey sshkey}.
Context (session_id2 : bytes) (datafellows : Z).
Abbreviation proc X := (M (sshd sshkey) X).

#[export] Instance framed_get_char b : Framed (sshkey := sshkey) b packet_get_char.
Proof. apply _. Qed.
#[export] Instance framed_get_int b : Framed (sshkey := sshkey) b packet_get_int.
Proof. apply _. Qed.
#[export] Instance framed_get_string b : Framed (sshkey := sshkey) b (packet_get_string A).
Proof. unfold packet_get_string. framed. Qed.
#[export] Instance framed_get_cstring b : Framed (sshkey := sshkey) b (packet_get_cstring A).
Proof. unfold packet_get_cstring. framed. Qed.
#[export] Instance framed_start b t : Framed (sshkey := sshkey) b (packet_start A t).
Proof. unfold packet_start. framed. Qed.
#[export] Instance framed_put_char b v : Framed (sshkey := sshkey) b (packet_put_char A v).
Proof. apply _. Qed.
#[export] Instance framed_put_int b v : Framed (sshkey := sshkey) b (packet_put_int A v).
Proof. apply _. Qed.
#[export] Instance framed_put_string b v n : Framed (sshkey := sshkey) b (packet_put_string A v n).
Proof. apply _. Qed.
#[export] Instance framed_put_cstring b v : Framed (sshkey := sshkey) b (packet_put_cstring A v).
Proof. apply _. Qed.
#[export] Instance framed_send b : Framed b packet_send.
Proof. unfold packet_send. framed. Qed.
#[export] Instance framed_pkt_disconnect b msg : Framed b (sshpkt_disconnect A msg).
Proof. unfold sshpkt_disconnect. framed. Qed.
#[export] Instance framed_disconnect b {X} msg : Framed b (packet_disconnect A (X := X) msg).
Proof. unfold packet_disconnect. framed. Qed.
#[export] Instance framed_eom b : Framed b (packet_check_eom A).
Proof. unfold packet_check_eom. framed. Qed.
#[export] Instance framed_with_buffer b m : Framed (sshkey := sshkey) b (with_buffer A m).
Proof. unfold with_buffer. framed. Qed.
#[export] Instance framed_maxtries b {X} : Framed b (auth_maxtries_exceeded A (X := X)).
Proof. unfold auth_maxtries_exceeded. apply _. Qed.
#[export] Instance framed_send_banner b msg : Framed b (userauth_send_banner A datafellows msg).
Proof. unfold userauth_send_banner. framed. Qed.
#[export] Instance framed_banner b : Framed b (userauth_banner A datafellows).
Proof. unfold userauth_banner. framed. Qed.
#[export] Instance framed_send_failure b p : Framed b (send_failure A p).
Proof. unfold send_failure. framed. Qed.
#[export] Instance framed_pam b : Framed b (check_pam_account A datafellows).
Proof. unfold check_pam_account. framed. Qed.
#[export] Instance framed_protocol_error b n : Framed b (do_protocol_error A n).
Proof. unfold do_protocol_error. framed. Qed.

#[export] Instance framed_dispatch_set t fn : Framed (sshkey := sshkey) false (dispatch_set t fn).
Proof. apply framed_update. intros s. constructor; try done; [apply no_events|apply set_length]. Qed.
#[export] Instance framed_set_kbdintctxt k : Framed (sshkey := sshkey) false (update_auth (set_kbdintctxt k)).
Proof. apply framed_update. intros s. constructor; try done. apply no_events. Qed.
#[export] Instance framed_set_postponed p : Framed (sshkey := sshkey) false (update_auth (set_postponed p)).
Proof. apply framed_update. intros s. constructor; try done. apply no_events. Qed.
#[export] Instance framed_set_none b v : Framed (sshkey := sshkey) b (update (set_none_enabled v)).
Proof. apply framed_update. intros s. constructor; try done. apply no_events. Qed.
#[export] Instance framed_userkeys b k :
  Framed (sshkey := sshkey) b (update_auth (fun a => set_prev_userkeys (a_prev_userkeys a ++ [k]) a)).
Proof. apply framed_update. intros s. constructor; try done. apply no_events. Qed.
Lemma filter_sublist {T} (f : T -> bool) l : sublist (List.filter f l) l.
Proof. induction l as [|x l IH]; simpl; [constructor|]. destruct (f x); by constructor. Qed.

#[export] Instance framed_alloc devs : Framed (sshkey := sshkey) true (kbdint_alloc devs).
Proof.
  intros s. unfold kbdint_alloc, bind at 1, get_state at 1. cbv beta iota.
  assert (forall s', frame true s s' ->
    frame true s (snd ((let! s := get_state in
      ret (mk_kbdint (Some (if bool_decide (devs = []) then join_with (ch ",") (d_kbdint_devices s) else devs))
             false None 0 0)) s'))) as Hk by done.
  destruct (o_use_pam _); [by apply Hk|]. apply Hk. constructor; try done; [|apply no_events].
  simpl. apply filter_sublist.
Qed.
#[export] Instance framed_put_prompts b l : Framed (sshkey := sshkey) b (put_prompts A l).
Proof. induction l as [|[p e] l IH]; simpl; framed. Qed.
#[export] Instance framed_info_request k d : Framed false (send_userauth_info_request A k d).
Proof. unfold send_userauth_info_request. framed. Qed.
#[export] Instance framed_stop : Framed (sshkey := sshkey) false auth2_challenge_stop.
Proof. unfold auth2_challenge_stop. framed. Qed.
#[export] Instance framed_challenge_start k : Framed false (auth2_challenge_start A k).
Proof. unfold auth2_challenge_start. framed. Qed.
#[export] Instance framed_alloc_weak devs : Framed (sshkey := sshkey) false (kbdint_alloc devs).
Proof. intros s. apply frame_weaken, framed_alloc. Qed.
#[export] Instance framed_challenge devs : Framed false (auth2_challenge A devs).
Proof. unfold auth2_challenge. framed. Qed.
#[export] Instance framed_get_strings b n : Framed (sshkey := sshkey) b (get_strings A n).
Proof. induction n; simpl; framed. Qed.
#[export] Instance framed_kbdint : Framed false (userauth_kbdint A).
Proof. unfold userauth_kbdint. framed. Qed.
#[export] Instance framed_key_from_blob b v : Framed b (key_from_blob v).
Proof. unfold key_from_blob. framed. Qed.
#[export] Instance framed_key_verify b k s d : Framed b (key_verify k s d).
Proof. unfold key_verify. framed. Qed.
#[export] Instance framed_request_key b used alg v types : Framed b (request_key datafellows used alg v types).
Proof. unfold request_key. framed. Qed.
#[export] Instance framed_blob_alg b v : Framed (sshkey := sshkey) b (blob_alg A v).
Proof. unfold blob_alg. framed. Qed.
#[export] Instance framed_signed b k n alg v :
  Framed b (pubkey_signed A session_id2 datafellows k n alg v).
Proof. unfold pubkey_signed. framed. Qed.
#[export] Instance framed_probe k alg v : Framed false (pubkey_probe A k alg v).
Proof. unfold pubkey_probe. framed. Qed.
#[export] Instance framed_pubkey : Framed false (userauth_pubkey A session_id2 datafellows).
Proof. unfold userauth_pubkey. framed. Qed.
#[export] Instance framed_hostbased b : Framed b (userauth_hostbased A session_id2 datafellows).
Proof. unfold userauth_hostbased. framed. Qed.
#[export] Instance framed_service : Framed false (do_service_request A).
Proof. unfold do_service_request. framed. Qed.
End parts.

(** ** The dialogue of keyboard-interactive

    A property [Q] of its context that follows from a property [D] of the devices
    and that picking the next device keeps. *)

Class Dialogue {sshkey : Type} (D : list bytes -> Prop) (Q : KbdintAuthctxt -> Prop) : Prop := {
  dialogue_sub l l' : sublist l' l -> D l -> D l';
  dialogue_new devs : Q (mk_kbdint devs false None 0 0);
  dialogue_next (s : sshd sshkey) k : D (d_kbdint_devices s) -> Q k -> Q (fst (kbdint_next_device s k));
  dialogue_same k ctxt nreq : Q k ->
    Q (mk_kbdint (kb_devices k) ctxt (kb_device k) nreq (kb_devices_done k))
}.

Section dialogue.
Context {sshkey : Type} (A : allocator) {HW : World sshkey} {HU : UserKey sshkey}.
Context (session_id2 : bytes) (datafellows : Z).
Context (D : list bytes -> Prop) (Q : KbdintAuthctxt -> Prop) {HD : Dialogue (sshkey := sshkey) D Q}.
Implicit Types s : sshd sshkey.
Abbreviation proc X := (M (sshd sshkey) X).

Definition dialogue_ok s : Prop :=
  D (d_kbdint_devices s) /\ forall k, a_kbdintctxt (d_auth s) = Some k -> Q k.
Definition Keeps {X} (m : proc X) : Prop := forall s, dialogue_ok s -> dialogue_ok (snd (m s)).

Lemma strict_dialogue s s' : frame true s s' -> dialogue_ok s -> dialogue_ok s'.
Proof.
  intros F [Hd Hk]. destruct (fr_strict _ _ _ F eq_refl) as (_&Ek&_).
  split; [|by rewrite Ek]. eapply dialogue_sub; [apply F|done].
Qed.
Lemma keeps_framed {X} (m : proc X) : Framed true m -> Keeps m.
Proof. intros Hm s. by apply strict_dialogue. Qed.
Lemma keeps_bind {X Y} (m : proc X) (k : X -> proc Y) : Keeps m -> (forall x, Keeps (k x)) -> Keeps (bind m k).
Proof.
  intros Hm Hk s Hs. unfold bind. specialize (Hm s Hs). destruct (m s) as [[x|c] s1]; [by apply Hk|done].
Qed.
Lemma keeps_get {Y} (k : sshd sshkey -> proc Y) :
  (forall s, dialogue_ok s -> dialogue_ok (snd (k s s))) -> Keeps (bind get_state k).
Proof. intros Hk s Hs. by apply Hk. Qed.
Lemma keeps_bind_at {X Y} (m : proc X) (k : X -> proc Y) s :
  dialogue_ok (snd (m s)) -> (forall x s1, m s = (Ok x, s1) -> dialogue_ok s1 -> dialogue_ok (snd (k x s1))) ->
  dialogue_ok (snd (bind m k s)).
Proof. intros Hm Hk. unfold bind. destruct (m s) as [[x|c] s1] eqn:E; [by apply Hk|done]. Qed.
Lemma keeps_ok {X} (m : proc X) s x s' : m s = (Ok x, s') -> Keeps m -> dialogue_ok s -> dialogue_ok s'.
Proof. intros E Hm Hs. specialize (Hm s Hs). by rewrite E in Hm. Qed.

Lemma keeps_ret {X} (x : X) : Keeps (ret x).
Proof. by intros s. Qed.
Lemma keeps_dispatch_set t fn : Keeps (dispatch_set t fn).
Proof. by intros s Hs. Qed.
Lemma keeps_postponed b : Keeps (update_auth (set_postponed b)).
Proof. by intros s Hs. Qed.
Lemma keeps_set_kbdintctxt k : (forall k', k = Some k' -> Q k') -> Keeps (update_auth (set_kbdintctxt k)).
Proof. intros Hk s [Hd _]. by split. Qed.
Lemma keeps_set_some k : Q k -> Keeps (update_auth (set_kbdintctxt (Some k))).
Proof. intros Hk. apply keeps_set_kbdintctxt. by intros k' [= <-]. Qed.
Lemma keeps_stop : Keeps auth2_challenge_stop.
Proof. apply keeps_bind; [apply keeps_dispatch_set|]. intros _. by apply keeps_set_kbdintctxt. Qed.

Lemma keeps_info_request k device : Q k -> Keeps (send_userauth_info_request A k device).
Proof.
  intros Hk. apply keeps_bind; [apply keeps_framed; framed|]. intros [[[name instr] prompts]|]; [|apply keeps_ret].
  apply keeps_bind; [by apply keeps_set_some, dialogue_same|]. intros _. apply keeps_framed; framed.
Qed.

Lemma keeps_challenge_start k : Q k -> Keeps (auth2_challenge_start A k).
Proof.
  intros Hk. apply keeps_get. intros s Hs. pose proof (dialogue_next s k (proj1 Hs) Hk) as Hk'.
  destruct (kbdint_next_device s k) as [k' found]. cbn [fst] in Hk'.
  match goal with |- dialogue_ok (snd (?m s)) => cut (Keeps m); [intros Hm; by apply Hm|] end.
  apply keeps_bind; [by apply keeps_set_some|]. intros _.
  destruct (kb_device k') as [device|] eqn:Ed; [|apply keeps_stop].
  apply keeps_bind; [apply keeps_framed; framed|]. intros ctxt. rewrite <- Ed. cbv zeta.
  apply keeps_bind; [by apply keeps_set_some, dialogue_same|]. intros _.
  destruct (negb ctxt); [apply keeps_stop|].
  apply keeps_bind; [by apply keeps_info_request, dialogue_same|]. intros sent.
  destruct (negb sent); [apply keeps_stop|].
  apply keeps_bind; [apply keeps_dispatch_set|]. intros _. apply keeps_postponed.
Qed.

Lemma keeps_challenge devs : Keeps (auth2_challenge A devs).
Proof.
  apply keeps_get. intros s Hs. destruct (a_user (d_auth s)); [|done].
  apply keeps_bind_at.
  - destruct (a_kbdintctxt (d_auth s)); [done|]. by apply (keeps_framed (kbdint_alloc devs)); [apply _|].
  - intros k s1 E Hs1.
    assert (Q k) as Hk.
    { destruct (a_kbdintctxt (d_auth s)) as [k0|] eqn:Ek.
      - injection E as <- _. by apply Hs.
      - unfold kbdint_alloc in E. apply bind_Ok in E as (x&s2&_&E). apply bind_Ok in E as (y&s3&_&E).
        apply bind_Ok in E as (z&s4&_&E). injection E as <- _. apply dialogue_new. }
    assert (Keeps (update_auth (set_kbdintctxt (Some k)) ;;; auth2_challenge_start A k)) as H.
    { apply keeps_bind; [by apply keeps_set_some|]. intros _. by apply keeps_challenge_start. }
    by apply H.
Qed.

(** The state after one more event. *)
Definition after_event s e : sshd sshkey := set_trace (d_trace s ++ [e]) s.

Lemma ask_run {R} (f : list (event sshkey) -> R) (ev : R -> event sshkey) s :
  ask f ev s = (Ok (f (d_trace s)), after_event s (ev (f (d_trace s)))).
Proof. done. Qed.

(** A question about a password comes last. *)
Lemma auth_password_cases password s :
  auth_password password s = (Ok false, s) \/
  exists r, auth_password password s =
    (Ok (r && (a_valid (d_auth s) && negb (user_is_root s && negb (o_permit_root_login (d_options s) =? PERMIT_YES)))),
     after_event s (EPassword (default [] (a_user (d_auth s))) password r)).
Proof.
  remember (auth_password password s) as m eqn:E. unfold auth_password, bind at 1, get_state in E.
  cbv beta iota zeta in E. destruct (MAX_PASSWORD_LEN <? zlen password); [by left|].
  destruct (bool_decide _ && negb (o_permit_empty_passwd _)); [by left|]. right. subst m. eexists. reflexivity.
Qed.

Lemma keeps_userauth m : Keeps (userauth A session_id2 datafellows m).
Proof.
  assert (forall password, Keeps (auth_password password)) as Hpw.
  { intros password s Hs. by destruct (auth_password_cases password s) as [->|[r ->]]. }
  destruct m; simpl.
  - do 2 (apply keeps_bind; [apply keeps_framed, _|intros _]). apply keeps_get. intros s Hs.
    destruct (_ && _); [by apply Hpw|done].
  - apply keeps_get. intros s Hs. destruct (negb _); [done|].
    match goal with |- dialogue_ok (snd (?m s)) => cut (Keeps m); [intros Hm; by apply Hm|] end.
    apply keeps_bind; [apply keeps_framed, _|intros have_sig].
    apply keeps_bind; [apply keeps_framed; framed|intros [pkalg pkblob]].
    apply keeps_bind; [apply keeps_framed, _|intros [key|]]; [|by intros ? ?].
    destruct (negb _); [apply keeps_framed, _|].
    apply keeps_bind; [apply keeps_framed, _|intros _]. apply keeps_bind; [by intros ? ?|intros s1].
    apply keeps_bind; [apply keeps_framed; framed|intros allowed].
    apply keeps_bind; [|by intros _ ? ?]. destruct allowed; [|by intros ? ?].
    do 4 (apply keeps_bind; [apply keeps_framed, _|intros _]). apply keeps_postponed.
  - do 3 (apply keeps_bind; [apply keeps_framed; framed|intros ?]). apply keeps_bind; [apply keeps_framed; framed|intros _].
    destruct (negb _); [by intros ? ?|apply Hpw].
  - do 3 (apply keeps_bind; [apply keeps_framed, _|intros ?]). apply keeps_get. intros s Hs.
    match goal with |- dialogue_ok (snd (?m s)) => cut (Keeps m); [intros Hm; by apply Hm|] end.
    apply keeps_bind; [|by intros _ ? ?]. destruct (o_challenge_response_authentication _);
      [apply keeps_challenge|by intros ? ?].
  - apply keeps_framed, _.
Qed.

Lemma keeps_service : Keeps (do_service_request A).
Proof.
  unfold do_service_request. do 2 (apply keeps_bind; [apply keeps_framed; framed|intros ?]).
  apply keeps_get. intros s Hs.
  match goal with |- dialogue_ok (snd (?m s)) => cut (Keeps m); [intros Hm; by apply Hm|] end.
  destruct (_ && _); [|apply keeps_framed, _].
  apply keeps_bind; [apply keeps_dispatch_set|intros _]. apply keeps_framed; framed.
Qed.
End dialogue.

Section ends.
Context {sshkey : Type} (A : allocator) {HW : World sshkey} {HU : UserKey sshkey}.
Context (session_id2 : bytes) (datafellows : Z).
Implicit Types s : sshd sshkey.
Abbreviation proc X := (M (sshd sshkey) X).

(** How a method can end: it has asked no question about a password, or that
    question was its last. *)
Definition method_ends m s (out : result bool * sshd sshkey) : Prop :=
  frame false s (snd out) /\ (m = method_passwd \/ m = method_none -> fst out <> Ok true) \/
  exists s1 password r, frame true s s1 /\
    (m = method_passwd \/ m = method_none /\ password = []) /\
    out =
    (Ok (r && (a_valid (d_auth s) && negb (user_is_root s1 && negb (o_permit_root_login (d_options s1) =? PERMIT_YES)))),
     after_event s1 (EPassword (default [] (a_user (d_auth s))) password r)).

Lemma ends_bind m s0 {X} (p : proc X) (k : X -> proc bool) s :
  Framed true p -> frame true s0 s -> (forall x s1, frame true s0 s1 -> method_ends m s0 (k x s1)) ->
  method_ends m s0 (bind p k s).
Proof.
  intros Hp F Hk. unfold bind. specialize (Hp s). destruct (p s) as [[x|c] s1].
  - apply Hk. by etransitivity.
  - left. split; [apply frame_weaken; by etransitivity|done].
Qed.

Lemma ends_password m s0 password s :
  frame true s0 s -> (m = method_passwd \/ m = method_none /\ password = []) ->
  method_ends m s0 (auth_password password s).
Proof.
  intros F Hm. destruct (auth_password_cases password s) as [->|[r ->]]; [left; split; [by apply frame_weaken|done]|right].
  exists s, password, r. rewrite (fr_valid _ _ _ F), (fr_user _ _ _ F). by split_and!.
Qed.

Lemma userauth_cases m s : method_ends m s (userauth A session_id2 datafellows m s).
Proof.
  assert (forall m' s', frame true s s' -> method_ends m' s (ret false s')) as Hret
    by (intros m' s' F; left; split; [by apply frame_weaken|done]).
  destruct m; simpl.
  - apply ends_bind; [apply _|done|]. intros _ s1 F1. apply ends_bind; [apply _|done|]. intros _ s2 F2.
    apply ends_bind; [apply _|done|]. intros x s3 F3. destruct (_ && _); [|by apply Hret].
    apply ends_password; [done|]. by right.
  - left. split; [apply framed_pubkey|by intros [|]].
  - do 4 (apply ends_bind; [framed|done|]; intros ? ? ?). destruct (negb _); [by apply Hret|].
    apply ends_password; [done|]. by left.
  - left. split; [apply framed_kbdint|by intros [|]].
  - left. split; [apply framed_hostbased|by intros [|]].
Qed.
End ends.
