(* ===== verification/AuthDemo.v ===== *)
(** A small world in which the theorems about authentication are instantiated: one
    kind of key, one password, and devices that ask for one answer. *)

From stdpp Require Import pretty.
From S2P Require Import Prelude Wire CString Sshbuf SshbufGetput SshbufSpec Algs Glob Ssh2 Dispatch AuthMethods Auth2.

Definition demo_options (lists : list string) : ServerOptions :=
  mk_options 6 PERMIT_NO_PASSWD true true true false true false true None
    (cstr "ssh-ed25519") (cstr "ssh-ed25519") (cstr <$> lists).

(** The user "u" with the password "pw", whose answer to every device is "yes". *)
#[export] Instance demo_userkey : UserKey unit := {
  key_type _ := KEY_ED25519;
  key_ecdsa_nid _ := 0;
  blob_key _ := Ok tt;
  sshkey_equal_public _ _ := true
}.
Definition demo_world (options : ServerOptions) : World unit := {|
  w_send _ _ := true;
  w_getpwnamallow _ user :=
    (if bool_decide (user = cstr "u") then Some (mk_passwd user 1000) else None, options);
  w_read_banner _ := None;
  w_password _ _ password := bool_decide (password = cstr "pw");
  w_user_key_allowed _ _ _ _ := true;
  w_hostbased_key_allowed _ _ _ _ _ := true;
  w_key_verify _ _ sig _ := if bool_decide (sig = cstr "sig") then Ok tt else Err (-21);
  w_forced_command _ := false;
  w_pam_account _ := true;
  w_loginmsg _ := [];
  w_init_ctx _ _ := true;
  w_query _ _ := Some (cstr "name", cstr "instruction", [(cstr "answer: ", 0)]);
  w_respond _ _ responses := if bool_decide (responses = [cstr "yes"]) then 0 else -1
|}.

(** The process before the first packet; its options are not read yet. *)
Definition demo_start (options : ServerOptions) (devices : list string) : sshd unit :=
  mk_sshd (mk_authctxt false false false 0 0 false None None None None None None [] [])
    options true (cstr <$> devices) (replicate (Z.to_nat DISPATCH_MAX) None) 0 (small_buf 1024) (small_buf 1024) [].

(** Packets of a client. *)
Definition str (v : string) : bytes := be_bytes 4 (zlen (cstr v)) ++ cstr v.
Definition demo_service : result packet := Ok (SSH2_MSG_SERVICE_REQUEST, 0, str "ssh-userauth").
Definition demo_request (method : string) (rest : bytes) : result packet :=
  Ok (SSH2_MSG_USERAUTH_REQUEST, 0, str "u" ++ str "ssh-connection" ++ str method ++ rest).
Definition demo_kbdint (devices : string) : result packet :=
  demo_request "keyboard-interactive" (str "" ++ str devices).
Definition demo_password (password : string) : result packet :=
  demo_request "password" (0 :: str password).
Definition demo_answer (answer : string) : result packet :=
  Ok (SSH2_MSG_USERAUTH_INFO_RESPONSE, 0, be_bytes 4 1 ++ str answer).

(** The run of the process on these packets. *)
Definition demo_run (lists devices : list string) (packets : list (result packet)) :
    result run_end * sshd unit :=
  do_authentication2 test_alloc (H := demo_world (demo_options lists)) (H0 := demo_userkey)
    (cstr "session") 0 false 0 packets (demo_start (demo_options lists) devices).

(** How a run ended, and the methods that were used up. *)
Definition demo_end (out : result run_end * sshd unit) : result run_end * bool * Z * list bytes :=
  (fst out, a_success (d_auth (snd out)), a_failures (d_auth (snd out)), a_auth_methods (d_auth (snd out))).

Example demo_right_password :
  demo_end (demo_run [] [] [demo_service; demo_password "pw"]) = (Ok (Returned []), true, 0, []).
Proof. vm_compute. reflexivity. Qed.

Example demo_wrong_password :
  demo_end (demo_run [] [] [demo_service; demo_password "pq"]) = (Ok Waiting, false, 1, []).
Proof. vm_compute. reflexivity. Qed.

(** After the password only the device "pam" is missing. *)
Example demo_partial :
  demo_end (demo_run ["password,keyboard-interactive:pam"] ["pam"] [demo_service; demo_password "pw"]) =
  (Ok Waiting, false, 0, [cstr "keyboard-interactive:pam"]).
Proof. vm_compute. reflexivity. Qed.

Example demo_both_steps :
  demo_end (demo_run ["password,keyboard-interactive:pam"] ["pam"]
    [demo_service; demo_password "pw"; demo_kbdint ""; demo_answer "yes"]) = (Ok (Returned []), true, 0, [[]]).
Proof. vm_compute. reflexivity. Qed.

(** The order matters. *)
Example demo_wrong_order :
  demo_end (demo_run ["password,keyboard-interactive:pam"] ["pam"]
    [demo_service; demo_kbdint ""; demo_answer "yes"]) = (Err EXIT, false, 1, [cstr "password,keyboard-interactive:pam"]).
Proof. vm_compute. reflexivity. Qed.

(** A list that the checks of the configuration accept although no method can
    carry out its element: the right password ends the process. *)
Lemma stray_submethod_fatal :
  auth2_methods_valid (fun _ => true) (cstr "password:x") true = 0 /\
  demo_end (demo_run ["password:x"] [] [demo_service; demo_password "pw"]) =
    (Err EXIT, false, 0, [cstr "password:x"]).
Proof. split; vm_compute; reflexivity. Qed.
