(* ===== verification/AuthSafe.v ===== *)
(** Who is let in: the trace of a connection that ends with success shows that
    all methods of a list that the configuration requires were carried out. *)

From stdpp Require Import pretty.
From S2P Require Import Prelude CString Sshbuf SshbufGetput SshbufSpec Algs Glob Ssh2 Dispatch AuthMethods Auth2 AuthFrame AuthDemo.

Section safe.
Context {sshkey : Type} (A : allocator) {HW : World sshkey} {HU : UserKey sshkey}.
Context (session_id2 : bytes) (datafellows : Z) (use_privsep : bool) (privsep_uid : Z).
Implicit Types (s : sshd sshkey) (a : Authctxt sshkey) (tr ext : list (event sshkey)) (e : event sshkey).
Abbreviation proc X := (M (sshd sshkey) X).

(** ** Evidence *)

(** The bytes that [m] writes to a new buffer. *)
Definition written (m : M sshbuf unit) (data : bytes) : Prop :=
  exists b b', sshbuf_new A = Some b /\ m b = (Ok tt, b') /\ data = buf_bytes b'.

(** After the trace [tr], the event [e] shows that the user of [a] has passed a
    method: the password was right; the key is one of the user's and the signature
    over the session and the request is good; the host key is accepted for the
    user and the signature good; the device was satisfied. *)
Inductive grants a : list (event sshkey) -> event sshkey -> bytes -> option bytes -> Prop :=
| by_password tr user password :
    a_user a = Some user -> grants a tr (EPassword user password true) (cstr "password") None
| by_none tr user :
    a_user a = Some user -> grants a tr (EPassword user [] true) (cstr "none") None
| by_key tr key sig data have_sig alg blob :
    blob_key blob = Ok key ->
    written (pubkey_data A session_id2 datafellows a have_sig alg blob) data ->
    grants a (tr ++ [EUserKeyAllowed (a_pw a) key true true]) (EKeyVerify key sig data (Ok tt))
      (cstr "publickey") None
| by_host tr key sig data alg blob chost cuser :
    blob_key blob = Ok key ->
    written (hostbased_data A session_id2 datafellows a alg blob chost cuser) data ->
    grants a (tr ++ [EHostKeyAllowed (a_pw a) cuser chost key true]) (EKeyVerify key sig data (Ok tt))
      (cstr "hostbased") None
| by_device tr device responses :
    grants a tr (ERespond device responses 0) (cstr "keyboard-interactive") (Some device).

(** The elements [es] were carried out in this order, each by an event of its own. *)
Inductive steps a : list (event sshkey) -> list bytes -> Prop :=
| steps_none : steps a [] []
| steps_skip tr e es : steps a tr es -> steps a (tr ++ [e]) es
| steps_grant tr e es method sub el :
    steps a tr es -> grants a tr e method sub -> carries_out method sub el ->
    steps a (tr ++ [e]) (es ++ [el]).

Lemma steps_app a tr ext es : steps a tr es -> steps a (tr ++ ext) es.
Proof.
  intros Hs. induction ext as [|e ext IH] using rev_ind; [by rewrite app_nil_r|].
  rewrite (assoc_L (++)). by constructor.
Qed.
Lemma steps_nil a tr : steps a tr [].
Proof. apply (steps_app a []). constructor. Qed.

(** The fields that say who is to be let in. *)
Definition same_user a a' : Prop :=
  a_user a' = a_user a /\ a_service a' = a_service a /\ a_pw a' = a_pw a /\ a_style a' = a_style a.

Lemma grants_same a a' tr e m sub : same_user a a' -> grants a tr e m sub -> grants a' tr e m sub.
Proof.
  intros (Hu&Hs&Hp&Hst). destruct 1.
  - constructor. congruence.
  - constructor. congruence.
  - rewrite <- Hp. econstructor; [done|]. unfold pubkey_data, userstyle. rewrite Hu, Hs, Hst. done.
  - rewrite <- Hp. econstructor; [done|]. unfold hostbased_data. rewrite Hu, Hs. done.
  - constructor.
Qed.
Lemma steps_same a a' tr es : same_user a a' -> steps a tr es -> steps a' tr es.
Proof.
  intros Hs. induction 1.
  - constructor.
  - by constructor.
  - eapply steps_grant; [done| |done]. by eapply grants_same.
Qed.

Lemma frame_same b s s' : frame b s s' -> same_user (d_auth s) (d_auth s').
Proof. by intros []. Qed.

(** ** The lists of a connection *)

(** The list [l] is what is left of a list of the configuration. *)
Definition list_ok a tr (configured : list bytes) (l : bytes) : Prop :=
  exists cfg past, In cfg configured /\ elements cfg = past ++ todo l /\ steps a tr past /\
    Forall (fun c => c <> 0) l /\ l <> [] /\ Forall (fun el => el <> []) (elements l).

Lemma list_ok_app a tr ext cfgs l : list_ok a tr cfgs l -> list_ok a (tr ++ ext) cfgs l.
Proof. intros (cfg&past&?&?&?&?). exists cfg, past. by eauto using steps_app. Qed.

Lemma update_lists_spec a tr e cfgs name sub lists :
  grants a tr e name sub -> plain name -> name <> [] -> (forall d, sub = Some d -> plain d) ->
  Forall (list_ok a tr cfgs) lists ->
  match update_lists lists name sub with
  | (true, _, _) => exists cfg, In cfg cfgs /\ steps a (tr ++ [e]) (elements cfg)
  | (false, _, lists') => Forall (list_ok a (tr ++ [e]) cfgs) lists'
  end.
Proof.
  intros He Hn Hne Hsub. induction 1 as [|l lists Hl _ IH]; [constructor|]. cbn [update_lists].
  destruct (remove_method l name sub) as [l'|] eqn:Er.
  - destruct Hl as (cfg&past&Hin&Hcfg&Hp&Hz&_&Hel).
    destruct (remove_todo l name sub l' Hz Hn Hne Hsub Hel Er) as (el&Hc&Ht&Hz'&Hl').
    rewrite Ht in Hcfg.
    assert (steps a (tr ++ [e]) (past ++ [el])) as Hst by (econstructor; eauto).
    destruct (decide (l' = [])) as [->|Hl0].
    + rewrite bool_decide_true by done. exists cfg. by rewrite Hcfg.
    + rewrite bool_decide_false by done. destruct (update_lists lists name sub) as [[[] f] ls]; [done|].
      constructor; [|done]. exists cfg, (past ++ [el]). rewrite Hcfg, <- (assoc_L (++)).
      destruct Hl' as [|]; [done|]. by split_and!.
  - destruct (update_lists lists name sub) as [[[] f] ls]; [done|]. constructor; [|done].
    by apply list_ok_app.
Qed.

(** ** Devices *)

(** Names of devices can stand in a list. *)
Definition device_ok (k : KbdintAuthctxt) : Prop := forall d, kb_device k = Some d -> plain d.

Lemma find_device_ok s devices : forall i name len device done device' done',
  find_device s i devices name len device done = (device', done') ->
  forall d, device' = Some d -> In d devices \/ device = Some d.
Proof.
  induction devices as [|d0 devices IH]; simpl; intros i name len device done device' done' E d Hd.
  - injection E as <- _. by right.
  - destruct (_ || _); [|destruct (bool_decide _)]; destruct (IH _ _ _ _ _ _ _ E d Hd) as [?|?]; eauto.
    injection H as ->. eauto.
Qed.

Lemma next_device_ok fuel s : forall k, Forall plain (d_kbdint_devices s) -> device_ok k ->
  device_ok (next_device_loop fuel s k).
Proof.
  induction fuel as [|fuel IH]; simpl; intros k Hs Hk; [done|]. destruct (_ =? 0); [done|].
  destruct (find_device s _ _ _ _ _ _) as [device done0] eqn:Ef.
  assert (forall d, device = Some d -> plain d) as Hd.
  { intros d ->. destruct (find_device_ok _ _ _ _ _ _ _ _ _ Ef d eq_refl) as [Hin|Hkd]; [|by apply Hk].
    rewrite Forall_forall in Hs. by apply Hs, list_elem_of_In. }
  destruct (match zdrop _ _ with [] => None | _ :: r => Some r end), device; try done. by apply IH.
Qed.

#[local] Instance plain_dialogue : Dialogue (sshkey := sshkey) (Forall plain) device_ok.
Proof.
  constructor.
  - intros l l' Hs Hl. apply Forall_forall. intros d Hin. rewrite Forall_forall in Hl. apply Hl.
    by eapply elem_of_sublist.
  - intros devs d. done.
  - intros s k Hs Hk. unfold kbdint_next_device. cbv zeta. cbn [fst].
    apply next_device_ok; [done|]. by destruct (kb_device k).
  - done.
Qed.
Abbreviation devices_ok := (dialogue_ok (Forall plain) device_ok).

(** ** The invariant *)

(** With the trace [tr] as the evidence. *)
Record auth_inv tr s : Prop := {
  ai_fresh : a_attempt (d_auth s) = 0 -> a_valid (d_auth s) = false /\ a_auth_methods (d_auth s) = [];
  ai_attempt : 0 <= a_attempt (d_auth s);
  ai_valid : a_valid (d_auth s) = true ->
    a_service (d_auth s) = Some (cstr "ssh-connection") /\
    exists user pw, a_user (d_auth s) = Some user /\ a_pw (d_auth s) = Some pw;
  ai_lists : o_auth_methods (d_options s) <> [] ->
    Forall (list_ok (d_auth s) tr (o_auth_methods (d_options s))) (a_auth_methods (d_auth s));
  ai_devices : devices_ok s
}.

(** What is true when the user is let in. *)
Definition let_in s : Prop :=
  a_valid (d_auth s) = true /\ a_service (d_auth s) = Some (cstr "ssh-connection") /\
  exists user pw, a_user (d_auth s) = Some user /\ a_pw (d_auth s) = Some pw /\
    (pw_uid pw = 0 -> o_permit_root_login (d_options s) <> 0) /\
    (o_auth_methods (d_options s) = [] -> exists el, steps (d_auth s) (d_trace s) [el]) /\
    (o_auth_methods (d_options s) <> [] ->
       exists l, In l (o_auth_methods (d_options s)) /\ steps (d_auth s) (d_trace s) (elements l)).

Lemma list_ok_same a a' tr cfgs l : same_user a a' -> list_ok a tr cfgs l -> list_ok a' tr cfgs l.
Proof. intros Hs (cfg&past&?&?&?&?). exists cfg, past. by eauto using steps_same. Qed.

Lemma inv_app tr ext s : auth_inv tr s -> auth_inv (tr ++ ext) s.
Proof.
  intros []. constructor; try done. intros Hne. eapply Forall_impl; [by apply ai_lists0|].
  intros l. apply list_ok_app.
Qed.

Lemma inv_same tr s s' :
  d_options s' = d_options s -> a_valid (d_auth s') = a_valid (d_auth s) ->
  a_attempt (d_auth s') = a_attempt (d_auth s) -> a_auth_methods (d_auth s') = a_auth_methods (d_auth s) ->
  same_user (d_auth s) (d_auth s') -> devices_ok s' -> auth_inv tr s -> auth_inv tr s'.
Proof.
  intros Ho Hv Ha Hm Hsame Hd []. pose proof Hsame as (Hu&Hs&Hp&_).
  constructor; rewrite ?Ho, ?Hv, ?Ha, ?Hm, ?Hu, ?Hs, ?Hp; try done.
  intros Hne. eapply Forall_impl; [by apply ai_lists0|]. intros l. by apply list_ok_same.
Qed.

Lemma inv_frame tr b s s' : frame b s s' -> devices_ok s' -> auth_inv tr s -> auth_inv tr s'.
Proof. intros F Hd. apply inv_same; try apply F; [by eapply frame_same|done]. Qed.

(** ** Methods *)

(** Somebody who passes a method leaves the evidence as the last event. *)
Definition passed s m s' : Prop :=
  exists tr e, d_trace s' = tr ++ [e] /\ (exists ext, tr = d_trace s ++ ext) /\
    grants (d_auth s) tr e (method_name m) None.

Lemma with_buffer_written (m : M sshbuf unit) s data s' :
  with_buffer A m s = (Ok data, s') -> written m data /\ s' = s.
Proof.
  unfold with_buffer, written. destruct (sshbuf_new A) as [b|]; [|done].
  destruct (m b) as [[[]|c] b'] eqn:Em; [|done]. intros [= <- <-]. eauto 10.
Qed.

Lemma key_verify_true key sig data s s' :
  key_verify key sig data s = (Ok true, s') -> s' = after_event s (EKeyVerify key sig data (Ok tt)).
Proof.
  unfold key_verify. intros E. apply bind_Ok in E as (r&s1&E1&E). rewrite ask_run in E1.
  injection E1 as <- <-. destruct (w_key_verify _ _ _ _) as [[]|c]; [by injection E as <-|].
  by destruct (_ || _).
Qed.

Lemma request_key_decoded used pkalg pkblob types s key s' :
  request_key datafellows used pkalg pkblob types s = (Ok (Some key), s') -> blob_key pkblob = Ok key.
Proof.
  unfold request_key. cbv zeta. destruct (_ =? KEY_UNSPEC); [done|]. intros E.
  apply bind_Ok in E as (k&s1&E1&E). unfold key_from_blob in E1.
  destruct (blob_key pkblob) as [k'|c]; [|by destruct (_ || _); [done|injection E1 as <- _; by injection E]].
  injection E1 as <- <-.
  repeat match type of E with (if ?c then _ else _) _ = _ => destruct c; [done|] end.
  by injection E as -> _.
Qed.

Lemma passed_step s s1 m s' :
  same_user (d_auth s) (d_auth s1) -> (exists ext, d_trace s1 = d_trace s ++ ext) -> passed s1 m s' -> passed s m s'.
Proof.
  intros (Hu&Hs&Hp&Hst) [x Hx] (tr&e&Htr&[y ->]&Hg). exists (d_trace s1 ++ y), e. split_and!; [done| |].
  - exists (x ++ y). by rewrite Hx, (assoc_L (++)).
  - eapply grants_same; [|done]. split_and!; done.
Qed.

Lemma frame_step b s s1 m s' : frame b s s1 -> passed s1 m s' -> passed s m s'.
Proof.
  intros F. apply passed_step; [by eapply frame_same|]. destruct (fr_trace _ _ _ F) as (ext&?&_). eauto.
Qed.

Lemma pubkey_passed s s' :
  userauth_pubkey A session_id2 datafellows s = (Ok true, s') -> passed s method_pubkey s'.
Proof.
  unfold userauth_pubkey. intros E. apply bind_Ok in E as (st&s1&E1&E). injection E1 as <- <-.
  destruct (negb _); [done|]. apply bind_Ok in E as (have_sig&s1&E1&E).
  apply ok_framed with (b := false) in E1; [|apply _]. eapply frame_step; [exact E1|].
  apply bind_Ok in E as ([pkalg pkblob]&s2&E2&E). apply ok_framed with (b := false) in E2; [|framed].
  eapply frame_step; [exact E2|]. apply bind_Ok in E as (key&s3&E3&E). destruct key as [key|]; [|done].
  pose proof (request_key_decoded _ _ _ _ _ _ _ E3) as Hkey.
  apply ok_framed with (b := false) in E3; [|apply _]. eapply frame_step; [exact E3|].
  destruct (negb (have_sig =? 0)).
  2: { unfold pubkey_probe in E. apply bind_Ok in E as (?&?&_&E). apply bind_Ok in E as (?&?&_&E).
       apply bind_Ok in E as (?&?&_&E). by apply bind_Ok in E as (?&?&_&[=]). }
  unfold pubkey_signed in E. apply bind_Ok in E as (sig&s4&E4&E). apply ok_framed with (b := false) in E4; [|apply _].
  eapply frame_step; [exact E4|]. apply bind_Ok in E as (?&s5&E5&E).
  apply ok_framed with (b := false) in E5; [|apply _]. eapply frame_step; [exact E5|].
  apply bind_Ok in E as (?&?&[= <- <-]&E). apply bind_Ok in E as (data&s6&E6&E).
  apply with_buffer_written in E6 as [Hw ->]. apply bind_Ok in E as (allowed&s7&E7&E). rewrite ask_run in E7.
  injection E7 as <- <-. destruct (w_user_key_allowed _ _ _ _); [|done]. cbn [negb] in E.
  apply bind_Ok in E as (ok&s8&E8&E). destruct ok; [|done]. apply key_verify_true in E8 as ->.
  apply bind_Ok in E as (?&s9&E9&E). injection E9 as <- <-. injection E as <-.
  eexists _, _. split_and!; [reflexivity|eexists; reflexivity|]. by eapply by_key.
Qed.

Lemma bind_framed b {X Y} (m : proc X) (k : X -> proc Y) s0 s y s' :
  Framed b m -> frame b s0 s -> bind m k s = (Ok y, s') ->
  exists x s1, m s = (Ok x, s1) /\ frame b s0 s1 /\ k x s1 = (Ok y, s').
Proof.
  intros Hm F E. apply bind_Ok in E as (x&s1&E1&E). exists x, s1. split_and!; [done| |done].
  etransitivity; [exact F|]. by eapply ok_framed.
Qed.

Lemma hostbased_passed s s' :
  userauth_hostbased A session_id2 datafellows s = (Ok true, s') -> passed s method_hostbased s'.
Proof.
  unfold userauth_hostbased. intros E. apply bind_Ok in E as (st&s1&E1&E). injection E1 as <- <-.
  destruct (negb _); [done|]. assert (frame false s s) as F by done.
  do 5 (apply (bind_framed false _ _ s) in E as (?&?&_&F'&E); [|apply _|done]; clear F; rename F' into F).
  cbv zeta in E. apply (bind_framed false _ _ s) in E as (key&s3&E3&F3&E); [|apply _|done].
  destruct key as [key|]; [|done]. pose proof (request_key_decoded _ _ _ _ _ _ _ E3) as Hkey.
  apply bind_Ok in E as (data&s6&E6&E). apply with_buffer_written in E6 as [Hw ->].
  apply bind_Ok in E as (allowed&s7&E7&E). rewrite ask_run in E7.
  injection E7 as <- <-. destruct (w_hostbased_key_allowed _ _ _ _ _); [|done]. cbn [negb] in E.
  apply key_verify_true in E as ->. destruct (fr_trace _ _ _ F3) as (ext&Htr&_).
  eexists _, _. split_and!; [reflexivity| |by eapply by_host].
  simpl. rewrite Htr, <- (assoc_L (++)). eauto.
Qed.

Lemma userauth_passed m s s' :
  a_valid (d_auth s) = true -> (exists user, a_user (d_auth s) = Some user) ->
  userauth A session_id2 datafellows m s = (Ok true, s') -> passed s m s'.
Proof.
  intros Hv [user Hu] E.
  assert (m = method_passwd \/ m = method_none -> passed s m s') as Hpw.
  { intros Hm. destruct (userauth_cases A session_id2 datafellows m s) as [[_ Hn]|(s1&password&r&F&Hmp&E1)].
    - destruct (Hn Hm). by rewrite E.
    - rewrite E in E1. injection E1 as Hr ->. symmetry in Hr. apply andb_true_iff in Hr as [-> _].
      destruct (fr_trace _ _ _ F) as (ext&Htr&_). rewrite Hu. eexists _, _. split_and!; [reflexivity| |].
      + rewrite Htr. eauto.
      + destruct Hmp as [->|[-> ->]]; by constructor. }
  destruct m.
  - apply Hpw. by right.
  - by apply pubkey_passed.
  - apply Hpw. by left.
  - simpl in E. unfold userauth_kbdint in E. do 5 (apply bind_Ok in E as (?&?&_&E)). done.
  - by apply hostbased_passed.
Qed.

(** ** The end of a request *)

Lemma checks_spec tr e authenticated name sub s r s' :
  (authenticated = true -> a_valid (d_auth s) = true /\ grants (d_auth s) tr e name sub /\
    plain name /\ name <> [] /\ (forall d, sub = Some d -> plain d)) ->
  auth_inv tr s -> d_trace s = tr ++ [e] ->
  userauth_checks authenticated name sub s = (Ok r, s') ->
  a_success (d_auth s') = a_success (d_auth s) /\ a_postponed (d_auth s') = a_postponed (d_auth s) /\
  d_trace s' = d_trace s /\ (if fst r then let_in s' else auth_inv (tr ++ [e]) s').
Proof.
  intros Ha Hinv Htr. unfold userauth_checks. intros E. apply bind_Ok in E as (st&s1&[= <- <-]&E).
  destruct (authenticated && user_is_root s && negb (auth_root_allowed s name)) eqn:Hroot.
  { injection E as <- <-. split_and!; [done..|]. by apply inv_app. }
  destruct authenticated; cbn [andb] in *.
  2: { injection E as <- <-. split_and!; [done..|]. by apply inv_app. }
  destruct (Ha eq_refl) as (Hv&Hg&Hn&Hne&Hsub). destruct (ai_valid _ _ Hinv Hv) as (Hsv&user&pw&Hu&Hp).
  assert (pw_uid pw = 0 -> o_permit_root_login (d_options s) <> 0) as Hperm.
  { intros Hpw Ho. unfold user_is_root in Hroot. rewrite Hp, Hpw in Hroot. simpl in Hroot.
    unfold auth_root_allowed in Hroot. by rewrite Ho in Hroot. }
  destruct (decide (o_auth_methods (d_options s) = [])) as [Ho|Ho].
  - rewrite bool_decide_true in E by done. injection E as <- <-.
    split_and!; [done..|]. split_and!; [done..|]. exists user, pw.
    split_and!; [done..| |by intros ?]. intros _. exists name. rewrite Htr. apply (steps_grant _ tr e []
      name sub name); [apply steps_nil|done|by left].
  - rewrite bool_decide_false in E by done. cbn [negb] in E.
    apply bind_Ok in E as (complete&s1&E1&E). unfold auth2_update_methods_lists in E1.
    apply bind_Ok in E1 as (?&?&[= <- <-]&E1).
    pose proof (update_lists_spec (d_auth s) tr e _ name sub _ Hg Hn Hne Hsub (ai_lists _ _ Hinv Ho)) as P.
    destruct (update_lists (a_auth_methods (d_auth s)) name sub) as [[comp found] lists].
    apply bind_Ok in E1 as ([]&s2&[= <-]&E1).
    set (s2 := set_authctxt (set_auth_methods lists (d_auth s)) s) in *.
    assert (same_user (d_auth s) (d_auth s2)) as Hsame by done.
    destruct comp.
    + injection E1 as <- <-. injection E as <- <-. split_and!; [done..|]. cbn [fst].
      split_and!; [done..|]. exists user, pw. split_and!; [done..|]. intros _.
      destruct P as (cfg&Hin&Hst). exists cfg. split; [done|].
      change (d_trace s2) with (d_trace s). rewrite Htr. by eapply steps_same.
    + destruct found; [|done]. injection E1 as <- <-. injection E as <- <-. split_and!; [done..|]. cbn [fst].
      destruct Hinv. constructor; try done.
      * intros H0. destruct (ai_fresh0 H0) as [Hf _]. congruence.
      * intros _. eapply Forall_impl; [exact P|]. intros l. by apply list_ok_same.
Qed.

Lemma let_in_success s : let_in s -> let_in (set_authctxt (set_success true (d_auth s)) s).
Proof.
  intros (Hv&Hs&user&pw&Hu&Hp&Hr&H1&H2). split_and!; [done..|]. exists user, pw. split_and!; [done..| |].
  - intros Ho. destruct (H1 Ho) as [el Hst]. exists el. by eapply (steps_same (d_auth s)).
  - intros Ho. destruct (H2 Ho) as (l&?&Hst). exists l. split; [done|]. by eapply (steps_same (d_auth s)).
Qed.

Lemma let_in_frame b s s' : frame b s s' -> let_in s -> let_in s'.
Proof.
  intros F (Hv&Hs&user&pw&Hu&Hp&Hr&H1&H2). pose proof (frame_same _ _ _ F) as Hsame.
  destruct (fr_trace _ _ _ F) as (ext&Htr&_). unfold let_in.
  rewrite (fr_valid _ _ _ F), (fr_service _ _ _ F), (fr_user _ _ _ F), (fr_pw _ _ _ F), (fr_options _ _ _ F), Htr.
  split_and!; [done..|]. exists user, pw. split_and!; [done..| |].
  - intros Ho. destruct (H1 Ho) as [el Hst]. exists el. eapply steps_same; [done|]. by apply steps_app.
  - intros Ho. destruct (H2 Ho) as (l&?&Hst). exists l. split; [done|]. eapply steps_same; [done|]. by apply steps_app.
Qed.

(** What is known after a handler: the user is let in, or the invariant holds. *)
Definition handled s : Prop :=
  if a_success (d_auth s) then let_in s else auth_inv (d_trace s) s.

Lemma inv_trace tr ext s : auth_inv tr s -> d_trace s = tr ++ ext -> auth_inv (d_trace s) s.
Proof. intros Hi ->. by apply inv_app. Qed.

Lemma strict_inv tr s s' : frame true s s' -> auth_inv tr s -> auth_inv tr s'.
Proof. intros F Hi. eapply inv_frame; [done| |done]. eapply (strict_dialogue (Forall plain) device_ok); [done|]. apply Hi. Qed.

(** The reply to a request. *)
Lemma reply_spec (authenticated partial : bool) method s s' :
  a_success (d_auth s) = false -> (if authenticated then let_in s else auth_inv (d_trace s) s) ->
  userauth_reply A authenticated partial method s = (Ok tt, s') -> handled s'.
Proof.
  intros Hsuc H E. unfold userauth_reply in E. destruct authenticated.
  - apply (bind_framed false _ _ s) in E as (?&s1&_&F1&E); [|apply _|done].
    apply (bind_framed false _ _ s) in E as (?&s2&_&F2&E); [|apply _|done].
    apply (bind_framed false _ _ s) in E as (?&s3&_&F3&E); [|apply _|done].
    injection E as <-. unfold handled. cbn [d_auth set_authctxt a_success set_success].
    apply let_in_success. by eapply let_in_frame.
  - apply bind_Ok in E as (st&s1&[= <- <-]&E).
    apply bind_Ok in E as ([]&s1&E1&E).
    assert (a_success (d_auth s1) = false /\ auth_inv (d_trace s1) s1) as [Hs1 Hi1].
    { match type of E1 with (if ?c then _ else _) _ = _ => destruct c end; injection E1 as <-; [|done].
      split; [done|]. eapply inv_same; [..|apply H|exact H]; done. }
    apply bind_Ok in E as (st&s2&[= <- <-]&E). apply bind_Ok in E as ([]&s2&E2&E).
    apply (ok_framed true) in E2; [|framed]. apply (ok_framed true) in E; [|apply _].
    assert (frame true s1 s') as F by by etransitivity. unfold handled.
    rewrite (fr_success _ _ _ F), Hs1. destruct (fr_trace _ _ _ F) as (ext&->&_).
    apply inv_app. by eapply strict_inv.
Qed.

(** [e] is the last event, and all before it is old evidence. *)
Lemma finish_spec tr e authenticated name sub s s' :
  (authenticated = true -> grants (d_auth s) tr e name sub /\
    plain name /\ name <> [] /\ (forall d, sub = Some d -> plain d)) ->
  a_success (d_auth s) = false -> auth_inv tr s -> d_trace s = tr ++ [e] ->
  userauth_finish A datafellows authenticated name sub s = (Ok tt, s') -> handled s'.
Proof.
  intros Ha Hsuc Hinv Htr E. unfold userauth_finish in E. apply bind_Ok in E as (st&s1&[= <- <-]&E).
  cbv zeta in E. destruct (negb (a_valid (d_auth s)) && authenticated) eqn:Hv; [done|].
  destruct (authenticated && a_postponed (d_auth s)) eqn:Hpp; [done|].
  apply bind_Ok in E as ([au pa]&s1&E1&E).
  assert (authenticated = true -> a_valid (d_auth s) = true /\ grants (d_auth s) tr e name sub /\
    plain name /\ name <> [] /\ (forall d, sub = Some d -> plain d)) as Ha'.
  { intros ->. split; [by destruct (a_valid (d_auth s))|by apply Ha]. }
  destruct (checks_spec tr e authenticated name sub s _ s1 Ha' Hinv Htr E1) as (Hs1&Hp1&Ht1&H1).
  cbn [fst] in H1. assert (if au then let_in s1 else auth_inv (d_trace s1) s1) as H1'
    by (by rewrite Ht1, Htr). clear H1.
  destruct (a_postponed (d_auth s)) eqn:Hpost.
  - injection E as <-. unfold handled. rewrite Hs1, Hsuc.
    destruct au; [|done]. exfalso. rewrite andb_true_r in Hpp. subst authenticated.
    unfold userauth_checks in E1. apply bind_Ok in E1 as (?&?&[= <- <-]&E1). simpl in E1. by injection E1.
  - apply (bind_framed true _ _ s1) in E as (?&s2&_&F2&E); [|framed|done].
    eapply reply_spec; [| |exact E].
    + rewrite (fr_success _ _ _ F2). by rewrite Hs1.
    + destruct au; [by eapply let_in_frame|]. destruct (fr_trace _ _ _ F2) as (ext&->&_).
      apply inv_app. by eapply strict_inv.
Qed.

(** Without evidence. *)
Lemma finish_failed name sub s s' :
  a_success (d_auth s) = false -> auth_inv (d_trace s) s ->
  userauth_finish A datafellows false name sub s = (Ok tt, s') -> handled s'.
Proof.
  intros Hsuc Hinv E. unfold userauth_finish in E. apply bind_Ok in E as (st&s1&[= <- <-]&E).
  cbv zeta in E. rewrite andb_false_r in E. cbn [andb] in E.
  apply bind_Ok in E as ([au pa]&s1&E1&E). unfold userauth_checks in E1.
  apply bind_Ok in E1 as (?&?&[= <- <-]&E1). cbn [andb] in E1. injection E1 as <- <- <-.
  destruct (a_postponed (d_auth s)).
  - injection E as <-. unfold handled. by rewrite Hsuc.
  - apply bind_Ok in E as (?&s2&E2&E). rewrite andb_false_r in E2. injection E2 as <- <-.
    by eapply reply_spec in E.
Qed.

(** ** Requests *)

(** The lists of the configuration are C strings. *)
Hypothesis Hoptions : forall h user,
  Forall (Forall (fun c => c <> 0)) (o_auth_methods (snd (w_getpwnamallow h user))).

Lemma kept_ok a tr enabled (cfgs : list bytes) :
  Forall (Forall (fun c => c <> 0)) cfgs -> Forall (list_ok a tr cfgs) (kept_lists enabled cfgs).
Proof.
  intros Hz. apply Forall_forall. intros l Hl%list_elem_of_In.
  apply kept_lists_valid in Hl as (Hin&Hne&Hel). exists l, []. split_and!; [done| |apply steps_nil| |done|].
  - unfold todo. by rewrite bool_decide_false.
  - rewrite Forall_forall in Hz. by apply Hz, list_elem_of_In.
  - eapply Forall_impl; [exact Hel|]. intros el. apply names_method_nonempty.
Qed.

Lemma setup_spec user service style role s s' :
  0 < a_attempt (d_auth s) -> a_valid (d_auth s) = false -> a_success (d_auth s) = false -> devices_ok s ->
  setup_authctxt A datafellows use_privsep privsep_uid user service style role s = (Ok tt, s') ->
  auth_inv (d_trace s') s' /\ a_success (d_auth s') = false.
Proof.
  intros Ha Hv Hsuc Hd E. unfold setup_authctxt in E. apply bind_Ok in E as (st&s1&[= <- <-]&E).
  pose proof (Hoptions (d_trace s) user) as Hz.
  destruct (w_getpwnamallow (d_trace s) user) as [pw options]. cbn [snd] in Hz.
  apply bind_Ok in E as ([]&s1&[= <-]&E). apply bind_Ok in E as (x&s2&E2&E). rewrite ask_run in E2.
  injection E2 as <- <-. cbv zeta in E. apply bind_Ok in E as ([]&s3&[= <-]&E).
  set (valid := match pw with Some _ => strcmp_eq service (cstr "ssh-connection") | None => false end) in E.
  match type of E with _ ?t = _ => set (s3 := t) in E end.
  apply (bind_framed true _ _ s3) in E as ([]&s4&_&F4&E); [|framed|done].
  apply (bind_framed true _ _ s3) in E as ([]&s5&_&F5&E); [|framed|exact F4].
  apply (bind_framed true _ _ s3) in E as ([]&s6&_&F6&E); [|framed|exact F5]. clear F4 F5 s4 s5.
  apply bind_Ok in E as (r&s7&E7&E). destruct (r =? 0) eqn:Hr; [|by apply bind_Ok in E as (?&?&_&[=])].
  injection E as <-. unfold auth2_setup_methods_lists in E7. apply bind_Ok in E7 as (?&?&[= <- <-]&E7).
  assert (devices_ok s6) as Hd6 by (eapply (strict_dialogue (Forall plain) device_ok); [exact F6|exact Hd]).
  assert (forall lists, (o_auth_methods options <> [] ->
      Forall (list_ok (d_auth s6) (d_trace s6) (o_auth_methods options)) lists) ->
    auth_inv (d_trace s6) (set_authctxt (set_auth_methods lists (d_auth s6)) s6)) as Hgoal.
  { intros lists Hl. constructor; cbn [d_auth set_authctxt a_attempt a_valid a_service a_user a_pw
      a_auth_methods set_auth_methods d_options d_kbdint_devices].
    - rewrite (fr_attempt _ _ _ F6). simpl. lia.
    - rewrite (fr_attempt _ _ _ F6). simpl. lia.
    - rewrite (fr_valid _ _ _ F6), (fr_service _ _ _ F6), (fr_user _ _ _ F6), (fr_pw _ _ _ F6). simpl.
      destruct valid eqn:Hval; [|by rewrite Hv]. intros _. subst valid. destruct pw as [pw|]; [|done].
      unfold strcmp_eq in Hval. apply bool_decide_eq_true in Hval as ->. eauto.
    - rewrite (fr_options _ _ _ F6). intros Hne. eapply Forall_impl; [by apply Hl|]. intros l. by apply list_ok_same.
    - exact Hd6. }
  pose proof (fr_success _ _ _ F6) as Hs6. change (a_success (d_auth s3)) with (a_success (d_auth s)) in Hs6.
  rewrite Hsuc in Hs6.
  rewrite (fr_options _ _ _ F6) in E7. change (d_options s3) with options in E7.
  destruct (decide (o_auth_methods options = [])) as [Ho|Ho].
  - rewrite bool_decide_true in E7 by done. injection E7 as <- <-. split; [|done].
    replace s6 with (set_authctxt (set_auth_methods (a_auth_methods (d_auth s6)) (d_auth s6)) s6) at 2
      by (by destruct s6 as [[]]).
    by apply Hgoal.
  - rewrite bool_decide_false in E7 by done. apply bind_Ok in E7 as ([]&s8&[= <-]&E7). injection E7 as _ <-.
    split; [|done]. apply Hgoal. intros _. by apply kept_ok.
Qed.

(** What a method leaves of the context. *)
Lemma userauth_keeps m s r s' :
  userauth A session_id2 datafellows m s = (r, s') ->
  (forall tr, devices_ok s -> auth_inv tr s -> auth_inv tr s') /\
  a_success (d_auth s') = a_success (d_auth s) /\ a_valid (d_auth s') = a_valid (d_auth s) /\
  same_user (d_auth s) (d_auth s') /\ exists ext, d_trace s' = d_trace s ++ ext.
Proof.
  intros E. pose proof (keeps_userauth A session_id2 datafellows (Forall plain) device_ok m s) as Hk. rewrite E in Hk. cbn [snd] in Hk.
  destruct (userauth_cases A session_id2 datafellows m s) as [[F _]|(s1&password&b&F&_&E1)].
  - rewrite E in F. cbn [snd] in F. split_and!.
    + intros tr Hd Hi. by eapply inv_frame; [exact F|apply Hk|].
    + apply F.
    + apply F.
    + by eapply frame_same.
    + destruct (fr_trace _ _ _ F) as (ext&?&_). eauto.
  - rewrite E in E1. injection E1 as -> ->. split_and!.
    + intros tr Hd Hi. apply (inv_same _ s1); [done..|by apply Hk|by eapply strict_inv].
    + apply F.
    + apply F.
    + by eapply frame_same in F.
    + destruct (fr_trace _ _ _ F) as (ext&Ht&_). simpl. rewrite Ht, <- (assoc_L (++)). eauto.
Qed.

Lemma inv_attempt tr s :
  auth_inv tr s -> 0 < a_attempt (d_auth s) -> auth_inv tr (set_authctxt (set_attempt (a_attempt (d_auth s) + 1) (d_auth s)) s).
Proof.
  intros [] Ha. constructor; simpl; try lia; try done. intros Hne. eapply Forall_impl; [by apply ai_lists0|].
  intros l. by apply list_ok_same.
Qed.

Lemma lookup_name s name m : authmethod_lookup s name = Some m -> name = method_name m.
Proof.
  unfold authmethod_lookup. intros E. apply find_some in E as [_ E].
  apply andb_true_iff in E as [E _]. apply andb_true_iff in E as [_ E]. by apply bool_decide_eq_true in E.
Qed.

(** The part of a request after the context is set up. *)
Lemma try_method_spec method s s' :
  a_success (d_auth s) = false -> auth_inv (d_trace s) s ->
  (let! authenticated :=
     match authmethod_lookup s method with
     | Some m => if a_failures (d_auth s) <? o_max_authtries (d_options s)
                 then userauth A session_id2 datafellows m else ret false
     | None => ret false
     end in
   userauth_finish A datafellows authenticated method None) s = (Ok tt, s') -> handled s'.
Proof.
  intros Hsuc Hi E. apply bind_Ok in E as (authenticated&s1&E1&E).
  assert (forall b s1, (ret b : proc bool) s = (Ok authenticated, s1) -> b = false ->
    userauth_finish A datafellows authenticated method None s1 = (Ok tt, s') -> handled s') as Hno.
  { intros b s2 [= <- <-] ->. by apply finish_failed. }
  destruct (authmethod_lookup s method) as [m|] eqn:Em; [|by eapply Hno].
  destruct (_ <? _); [|by eapply Hno]. clear Hno. apply lookup_name in Em as ->.
  destruct (userauth_keeps m s _ s1 E1) as (Hki&Hs1&Hv1&Hsame&[x Hx]).
  assert (auth_inv (d_trace s) s1) as Hi1 by (apply Hki; [apply Hi|done]).
  assert (auth_inv (d_trace s1) s1) as Hi1' by (rewrite Hx; by apply inv_app).
  rewrite <- Hs1 in Hsuc. destruct authenticated; [|by eapply finish_failed].
  destruct (a_valid (d_auth s)) eqn:Hv.
  2: { unfold userauth_finish in E. apply bind_Ok in E as (?&?&[= <- <-]&E). cbv zeta in E.
       by rewrite Hv1 in E. }
  destruct (ai_valid _ _ Hi Hv) as (_&user&_&Hu&_).
  destruct (userauth_passed m s s1 Hv (ex_intro _ user Hu) E1) as (tr&e&Htr&[y ->]&Hg).
  eapply (finish_spec (d_trace s ++ y) e true); [|exact Hsuc| |exact Htr|exact E].
  - intros _. split_and!; [by eapply grants_same| | |done].
    + apply method_name_plain.
    + by destruct m.
  - by apply inv_app.
Qed.

Lemma request_spec s s' :
  a_success (d_auth s) = false -> auth_inv (d_trace s) s ->
  do_userauth_request A session_id2 datafellows use_privsep privsep_uid s = (Ok tt, s') -> handled s'.
Proof.
  intros Hsuc Hi E. unfold do_userauth_request in E.
  apply (bind_framed true _ _ s) in E as (user0&s1&_&F1&E); [|apply _|done].
  apply (bind_framed true _ _ s) in E as (service&s2&_&F2&E); [|apply _|exact F1].
  apply (bind_framed true _ _ s) in E as (method&s3&_&F3&E); [|apply _|exact F2]. clear F1 F2 s1 s2.
  destruct (split_user user0) as [[user style] role]. apply bind_Ok in E as (?&?&[= <- <-]&E).
  assert (auth_inv (d_trace s3) s3) as Hi3.
  { destruct (fr_trace _ _ _ F3) as (ext&->&_). apply inv_app. by eapply strict_inv. }
  rewrite <- (fr_success _ _ _ F3) in Hsuc. clear Hi F3. cbv zeta in E.
  apply bind_Ok in E as ([]&s4&[= <-]&E). apply bind_Ok in E as ([]&s5&E5&E).
  assert (auth_inv (d_trace s5) s5 /\ a_success (d_auth s5) = false) as [Hi5 Hs5].
  { pose proof (ai_attempt _ _ Hi3) as Hge. destruct (Z.eqb_spec (a_attempt (d_auth s3)) 0) as [H0|H0].
    - destruct (ai_fresh _ _ Hi3 H0) as [Hv _]. eapply setup_spec; [..|exact E5]; simpl; try done; [lia|].
      apply Hi3.
    - match type of E5 with (if ?c then _ else _) _ = _ => destruct c end.
      + by apply bind_Ok in E5 as (?&?&_&[=]).
      + injection E5 as <-. split; [|done]. apply inv_attempt; [done|lia]. }
  clear E5 Hi3 Hsuc. apply bind_Ok in E as ([]&s6&E6&E). apply bind_Ok in E as ([]&s7&[= <-]&E).
  apply bind_Ok in E as (?&?&[= <- <-]&E). eapply try_method_spec; [| |exact E].
  - by injection E6 as <-.
  - injection E6 as <-. eapply inv_same; [..|exact Hi5]; try done. split; [apply Hi5|done].
Qed.

Lemma response_spec s s' :
  a_success (d_auth s) = false -> auth_inv (d_trace s) s ->
  do_info_response A datafellows s = (Ok tt, s') -> handled s'.
Proof.
  intros Hsuc Hi E. unfold do_info_response in E. apply bind_Ok in E as (?&?&[= <- <-]&E).
  destruct (a_kbdintctxt (d_auth s)) as [k|] eqn:Ek; [|done]. destruct (negb (kb_ctxt k)); [done|].
  destruct (kb_device k) as [device|] eqn:Ed; [|done].
  assert (plain device) as Hpl by (by eapply (proj2 (ai_devices _ _ Hi))).
  assert (device_ok k) as Hk by (intros d Hd; congruence).
  apply bind_Ok in E as ([]&s0&[= <-]&E).
  match type of E with _ ?t = _ => set (s0 := t) in E end.
  assert (auth_inv (d_trace s0) s0) as Hi0 by (eapply inv_same; [..|apply Hi|exact Hi]; done).
  assert (a_success (d_auth s0) = false) as Hs0 by done. clearbody s0. clear Hi Hsuc Ek.
  apply (bind_framed true _ _ s0) in E as (nresp&s1&_&F1&E); [|apply _|done].
  destruct (negb _); [done|]. destruct (100 <? nresp); [done|].
  apply (bind_framed true _ _ s0) in E as (response&s2&_&F2&E); [|apply _|exact F1].
  apply (bind_framed true _ _ s0) in E as ([]&s3&_&F3&E); [|apply _|exact F2]. clear F1 F2 s1 s2.
  assert (auth_inv (d_trace s3) s3) as Hi3.
  { destruct (fr_trace _ _ _ F3) as (ext&->&_). apply inv_app. by eapply strict_inv. }
  rewrite <- (fr_success _ _ _ F3) in Hs0. clear Hi0 F3.
  apply bind_Ok in E as (res&s4&E4&E). rewrite ask_run in E4. injection E4 as Hres <-.
  set (e := ERespond device response (w_respond (d_trace s3) device response)) in *.
  apply bind_Ok in E as ([]&s5&E5&E). apply bind_Ok in E as (?&?&[= <- <-]&E). cbv zeta in E.
  apply bind_Ok in E as ([]&s6&E6&E).
  assert (devices_ok (after_event s3 e)) as Hd4 by apply Hi3.
  assert (frame false (after_event s3 e) s5 /\ devices_ok s5) as [F5 Hd5].
  { split; [eapply ok_framed; [|exact E5]; framed|]. eapply keeps_ok; [exact E5| |done].
    destruct (res =? 1); [|by intros ? ?]. apply keeps_bind; [by apply (keeps_info_request A (Forall plain) device_ok)|].
    intros []; [apply keeps_postponed|by intros ? ?]. }
  assert (frame false s5 s6 /\ devices_ok s6) as [F6 Hd6].
  { split; [eapply ok_framed; [|exact E6]; framed|]. destruct (a_postponed (d_auth s5)); [by injection E6 as <-|].
    destruct (_ && _) in E6; [eapply keeps_ok; [exact E6|apply keeps_stop|done]|].
    destruct (a_kbdintctxt (d_auth s5)) as [k5|] eqn:E5k; [|by injection E6 as <-].
    eapply keeps_ok; [exact E6| |done]. apply (keeps_challenge_start A (Forall plain) device_ok). by apply Hd5. }
  assert (frame false (after_event s3 e) s6) as F by by etransitivity.
  assert (auth_inv (d_trace s3) s6) as Hi6.
  { eapply inv_frame; [exact F|done|]. eapply inv_same; [..|exact Hd4|exact Hi3]; done. }
  assert (a_success (d_auth s6) = false) as Hs6 by (rewrite (fr_success _ _ _ F); exact Hs0).
  destruct ((res =? 0) && a_valid (d_auth s5)) eqn:Hau.
  2: { eapply finish_failed; [exact Hs6| |exact E]. destruct (fr_trace _ _ _ F) as (ext&->&_).
       simpl. rewrite <- (assoc_L (++)). by apply inv_app. }
  pose proof Hau as [Hr0 _]%andb_true_iff. apply Z.eqb_eq in Hr0.
  rewrite Hr0 in E5. injection E5 as <-.
  assert (d_trace s6 = d_trace s3 ++ [e]) as Htr.
  { match type of E6 with (if ?c then _ else _) _ = _ => destruct c end;
      [by injection E6 as <-|]. by apply bind_Ok in E6 as ([]&?&[= <-]&[= <-]). }
  eapply (finish_spec (d_trace s3) e true); [|exact Hs6|exact Hi6|exact Htr|exact E]. intros _. split_and!.
  - unfold e. rewrite Hres, Hr0. constructor.
  - apply (method_name_plain method_kbdint).
  - done.
  - by intros d [= <-].
Qed.

Lemma handler_spec fn type seq s s' :
  a_success (d_auth s) = false -> auth_inv (d_trace s) s ->
  call_handler A session_id2 datafellows use_privsep privsep_uid fn type seq s = (Ok tt, s') -> handled s'.
Proof.
  intros Hsuc Hi E. destruct fn; simpl in E.
  - apply (ok_framed true) in E; [|apply _]. unfold handled. rewrite (fr_success _ _ _ E), Hsuc.
    destruct (fr_trace _ _ _ E) as (ext&->&_). apply inv_app. by eapply strict_inv.
  - injection E as <-. unfold handled. by rewrite Hsuc.
  - pose proof (ok_framed false _ _ _ _ (framed_service A) E) as F. unfold handled.
    rewrite (fr_success _ _ _ F), Hsuc.
    destruct (fr_trace _ _ _ F) as (ext&->&_). apply inv_app. eapply inv_frame; [exact F| |exact Hi].
    pose proof (keeps_service A (Forall plain) device_ok) as Hk.
    specialize (Hk s (ai_devices _ _ Hi)). by rewrite E in Hk.
  - by eapply request_spec.
  - by eapply response_spec.
Qed.

(** ** The connection *)

Abbreviation run := (ssh_dispatch_run (S := sshd sshkey) (F := dispatch_fn)
  (H := sshd_host A session_id2 datafellows use_privsep privsep_uid)).

Lemma run_spec packets : forall s fin s',
  a_success (d_auth s) = false -> auth_inv (d_trace s) s -> run true packets s = (Ok fin, s') ->
  handled s' /\ (forall left, fin = Returned left -> a_success (d_auth s') = true).
Proof.
  induction packets as [|[[[type seqnr] payload]|c] packets IH]; cbn [ssh_dispatch_run]; intros s fin s' Hsuc Hi E.
  - injection E as <- <-. unfold handled. by rewrite Hsuc.
  - apply bind_Ok in E as ([]&s1&E1&E). cbn [negb andb] in E.
    assert (frame true s s1) as F1 by (eapply (ok_framed true); [|exact E1]; apply framed_incoming).
    assert (a_success (d_auth s1) = false) as Hs1 by (rewrite (fr_success _ _ _ F1); exact Hsuc).
    assert (auth_inv (d_trace s1) s1) as Hi1.
    { destruct (fr_trace _ _ _ F1) as (ext&->&_). apply inv_app. by eapply strict_inv. }
    apply bind_Ok in E as (called&s2&E2&E). apply bind_Ok in E as (?&?&[= <- <-]&E).
    unfold dispatch_packet in E2. apply bind_Ok in E2 as (?&?&[= <- <-]&E2).
    assert (handled s2 /\ (called = false -> a_success (d_auth s2) = false)) as [Hh Hc].
    { match type of E2 with context [if ?c then handler_of _ _ else None] =>
        destruct (if c then handler_of type (host_table s1) else None) as [fn|] end.
      2: { apply bind_Ok in E2 as (?&?&_&[=]). }
      destruct (negb (host_skip s1 =? 0)).
      - apply bind_Ok in E2 as ([]&s3&[= <-]&[= <- <-]). split; [|done]. unfold handled. simpl. rewrite Hs1.
        eapply inv_same; [..|exact (ai_devices _ _ Hi1)|exact Hi1]; done.
      - apply bind_Ok in E2 as ([]&s3&E3&[= <- <-]). split; [|done]. by eapply handler_spec in E3. }
    destruct (called && host_done s2) eqn:Hd.
    + injection E as <- <-. split; [done|]. intros left _. by apply andb_true_iff in Hd as [_ Hd].
    + eapply IH; [| |exact E].
      * destruct called; [by destruct (host_done s2) eqn:Hdd|by apply Hc].
      * unfold handled in Hh. destruct (a_success (d_auth s2)) eqn:Hs2; [|done].
        exfalso. destruct called; [by unfold host_done in Hd; simpl in Hd; congruence|by specialize (Hc eq_refl)].
  - done.
Qed.

(** A connection on which nothing has happened. *)
Definition fresh s : Prop :=
  a_success (d_auth s) = false /\ a_attempt (d_auth s) = 0 /\ a_valid (d_auth s) = false /\
  a_auth_methods (d_auth s) = [] /\ a_kbdintctxt (d_auth s) = None /\ a_failures (d_auth s) = 0 /\
  Forall plain (d_kbdint_devices s) /\ d_trace s = [] /\ zlen (d_dispatch s) = DISPATCH_MAX.

(** C1. Whatever the client sends: when [do_authentication2] returns, the user
    exists and is allowed to log in, and the trace holds the evidence for it -
    right passwords, good signatures by keys of this user over this session and
    request, satisfied devices - for all the methods of one of the lists of
    AuthenticationMethods, in their order, or for one method if there are no
    lists; root only if PermitRootLogin is not "no". *)
Theorem auth_success_justified packets s0 left s :
  fresh s0 ->
  do_authentication2 A session_id2 datafellows use_privsep privsep_uid packets s0 = (Ok (Returned left), s) ->
  a_success (d_auth s) = true /\ a_valid (d_auth s) = true /\
  a_service (d_auth s) = Some (cstr "ssh-connection") /\
  exists user pw, a_user (d_auth s) = Some user /\ a_pw (d_auth s) = Some pw /\
    (pw_uid pw = 0 -> o_permit_root_login (d_options s) <> 0) /\
    (o_auth_methods (d_options s) = [] -> exists el, steps (d_auth s) (d_trace s) [el]) /\
    (o_auth_methods (d_options s) <> [] ->
       exists l, In l (o_auth_methods (d_options s)) /\ steps (d_auth s) (d_trace s) (elements l)).
Proof.
  intros (H1&H2&H3&H4&H5&_&H6&H7&_) E. unfold do_authentication2 in E.
  apply bind_Ok in E as ([]&s1&[= <-]&E). apply bind_Ok in E as ([]&s2&[= <-]&E). unfold dispatch_run in E.
  match type of E with context [run true packets ?t] => set (s2 := t) in E end.
  destruct (run true packets s2) as [[fin|c] s3] eqn:Er; [|done]. injection E as -> ->.
  assert (auth_inv (d_trace s2) s2) as Hi2.
  { constructor; simpl.
    - intros _. by rewrite H3, H4.
    - lia.
    - by rewrite H3.
    - by rewrite H4.
    - split; [done|]. simpl. by rewrite H5. }
  destruct (run_spec packets s2 _ s H1 Hi2 Er) as [Hh Hs]. specialize (Hs _ eq_refl).
  unfold handled in Hh. rewrite Hs in Hh. by split.
Qed.
End safe.

(** ** An instance *)

Definition two_steps : list (result packet) :=
  [demo_service; demo_password "pw"; demo_kbdint ""; demo_answer "yes"].
Definition two_lists : list string := ["password,keyboard-interactive:pam"].
Definition let_in_state : sshd unit := snd (demo_run two_lists ["pam"] two_steps).

Lemma two_steps_eq : demo_run two_lists ["pam"] two_steps = (Ok (Returned []), let_in_state).
Proof. vm_compute. reflexivity. Qed.

Lemma two_steps_lists : o_auth_methods (d_options let_in_state) = cstr <$> two_lists.
Proof. vm_compute. reflexivity. Qed.
Lemma two_steps_user : a_user (d_auth let_in_state) = Some (cstr "u").
Proof. vm_compute. reflexivity. Qed.

#[local] Opaque do_authentication2.
Lemma auth_success_justified_witness :
  exists s, demo_run two_lists ["pam"] two_steps = (Ok (Returned []), s) /\
    a_success (d_auth s) = true /\ a_user (d_auth s) = Some (cstr "u") /\
    steps test_alloc (cstr "session") 0 (d_auth s) (d_trace s)
      [cstr "password"; cstr "keyboard-interactive:pam"].
Proof.
  exists let_in_state. split; [exact two_steps_eq|].
  pose proof (auth_success_justified test_alloc (HW := demo_world (demo_options two_lists)) (cstr "session") 0 false 0)
    as P.
  destruct (P) with (packets := two_steps) (s0 := demo_start (demo_options two_lists) ["pam"]) (left := @nil (result packet))
    (s := let_in_state) as (Hs&_&_&user&pw&Hu&_&_&_&Hl).
  - intros tr user. apply Forall_cons. split; [|constructor].
    repeat (apply Forall_cons; split; [discriminate|]). constructor.
  - split_and!; try reflexivity. apply Forall_cons. split; [|constructor].
    repeat (apply Forall_cons; split; [split; discriminate|]). constructor.
  - pose proof two_steps_eq as E. unfold demo_run at 1 in E. exact E.
  - split; [exact Hs|]. split; [exact two_steps_user|].
    rewrite two_steps_lists in Hl. destruct Hl as (l&[<-|[]]&Hl); [discriminate|]. exact Hl.
Defined.
