(* ===== verification/AuthDialogue.v ===== *)
(** The dialogue of keyboard-interactive and the table of handlers fit together:
    an answer is only listened to while a device with a context waits for it. *)

From stdpp Require Import pretty.
From S2P Require Import Prelude Wire CString Sshbuf SshbufGetput SshbufSpec Algs Glob Ssh2 Dispatch AuthMethods Auth2 AuthFrame AuthDemo AuthSafe.

Section dialogue.
Context {sshkey : Type} (A : allocator) {HW : World sshkey} {HU : UserKey sshkey}.
Context (session_id2 : bytes) (datafellows : Z) (use_privsep : bool) (privsep_uid : Z).
Implicit Types s : sshd sshkey.
Abbreviation proc X := (M (sshd sshkey) X).

(** A device is in use and has a context. *)
Definition in_use (k : KbdintAuthctxt) : Prop := kb_ctxt k = true /\ kb_device k <> None.

Definition info_response_handler s : option dispatch_fn :=
  handler_of SSH2_MSG_USERAUTH_INFO_RESPONSE (d_dispatch s).

(** The table is whole, and the handler of answers is only there for a dialogue. *)
Record well_formed s : Prop := {
  wf_table : zlen (d_dispatch s) = DISPATCH_MAX;
  wf_answers : info_response_handler s = Some input_userauth_info_response ->
    exists k, a_kbdintctxt (d_auth s) = Some k /\ in_use k
}.

(** A computation that keeps the state well-formed if it succeeds. *)
Class Guarded {X} (m : proc X) : Prop :=
  guarded s x s' : well_formed s -> m s = (Ok x, s') -> well_formed s'.

Lemma guarded_strict s s' : frame true s s' -> well_formed s -> well_formed s'.
Proof.
  intros F [Ht Hr]. destruct (fr_strict _ _ _ F eq_refl) as (_&Hk&Hd).
  constructor; unfold info_response_handler; by rewrite Hd, ?Hk.
Qed.
Lemma guarded_framed {X} (m : proc X) : Framed true m -> Guarded m.
Proof. intros Hm s x s' Hs E. by eapply guarded_strict, Hs; eapply ok_framed. Qed.
Lemma guarded_bind {X Y} (m : proc X) (k : X -> proc Y) : Guarded m -> (forall x, Guarded (k x)) -> Guarded (bind m k).
Proof. intros Hm Hk s y s' Hs (x&s1&E1&E)%bind_Ok. eapply Hk; [|exact E]. by eapply Hm. Qed.
Lemma guarded_if {X} (c : bool) (m1 m2 : proc X) : Guarded m1 -> Guarded m2 -> Guarded (if c then m1 else m2).
Proof. by destruct c. Qed.

(** Handlers of other messages. *)
Lemma guarded_other t fn :
  0 <= t -> t <> SSH2_MSG_USERAUTH_INFO_RESPONSE -> Guarded (dispatch_set t fn).
Proof.
  intros Ht Hne s x s' [Hl Hr] [= <- <-]. constructor; unfold info_response_handler; cbn [d_dispatch set_dispatch].
  - by rewrite set_length.
  - by rewrite set_handler_ne.
Qed.

(** Without a handler of answers the dialogue does not matter. *)
Lemma stop_well_formed s x s' :
  zlen (d_dispatch s) = DISPATCH_MAX -> auth2_challenge_stop s = (Ok x, s') -> well_formed s'.
Proof.
  intros Hl [= _ <-]. constructor; [by apply eq_trans with (2 := Hl), set_length|].
  unfold info_response_handler. cbn [d_dispatch set_dispatch set_authctxt].
  rewrite set_handler; [done|]. rewrite Hl. done.
Qed.

Lemma info_request_dialogue k device s sent s' :
  a_kbdintctxt (d_auth s) = Some k -> send_userauth_info_request A k device s = (Ok sent, s') ->
  d_dispatch s' = d_dispatch s /\ exists nreq, a_kbdintctxt (d_auth s') =
    Some (mk_kbdint (kb_devices k) (kb_ctxt k) (kb_device k) nreq (kb_devices_done k)).
Proof.
  intros Hk E. unfold send_userauth_info_request in E. apply bind_Ok in E as (q&s1&[= Hq <-]&E).
  destruct q as [[[name instr] prompts]|]; [|injection E as _ <-; split; [done|]; exists (kb_nreq k); by destruct k].
  apply bind_Ok in E as ([]&s2&[= <-]&E). apply (ok_framed true) in E; [|framed].
  destruct (fr_strict _ _ _ E eq_refl) as (_&->&->). split; [done|]. by eexists.
Qed.

Lemma start_well_formed k s x s' :
  zlen (d_dispatch s) = DISPATCH_MAX -> auth2_challenge_start A k s = (Ok x, s') -> well_formed s'.
Proof.
  intros Hl E. unfold auth2_challenge_start in E. apply bind_Ok in E as (?&?&[= <- <-]&E).
  destruct (kbdint_next_device s k) as [k' found]. apply bind_Ok in E as ([]&s1&[= <-]&E).
  destruct (kb_device k') as [device|] eqn:Ed; [|by eapply stop_well_formed in E].
  apply bind_Ok in E as (ctxt&s2&E2&E). rewrite ask_run in E2. injection E2 as _ <-.
  cbv zeta in E. apply bind_Ok in E as ([]&s3&[= <-]&E). destruct ctxt; cbn [negb] in E; [|by eapply stop_well_formed in E].
  apply bind_Ok in E as (sent&s4&E4&E). eapply info_request_dialogue in E4 as [Hd4 [nreq Hk4]]; [|done].
  cbn [d_dispatch set_authctxt after_event set_trace] in Hd4.
  assert (zlen (d_dispatch s4) = DISPATCH_MAX) as Hl4 by by rewrite Hd4.
  destruct sent; cbn [negb] in E; [|by eapply stop_well_formed in E].
  apply bind_Ok in E as ([]&s5&[= <-]&[= _ <-]). constructor; cbn [d_dispatch set_dispatch set_authctxt].
  - by rewrite set_length.
  - intros _. eexists. split; [exact Hk4|]. by split.
Qed.

#[export] Instance guarded_stop : Guarded auth2_challenge_stop.
Proof. intros s x s' [Hl _]. by apply stop_well_formed. Qed.
#[export] Instance guarded_postponed b : Guarded (update_auth (set_postponed b)).
Proof. by intros s x s' [] [= <- <-]. Qed.

Lemma challenge_well_formed devs : Guarded (auth2_challenge A devs).
Proof.
  intros s x s' Hs E. unfold auth2_challenge in E. apply bind_Ok in E as (?&?&[= <- <-]&E).
  destruct (a_user (d_auth s)); [|by injection E as _ <-].
  apply bind_Ok in E as (k&s1&E1&E). apply bind_Ok in E as ([]&s2&[= <-]&E).
  eapply start_well_formed; [|exact E]. cbn [d_dispatch set_authctxt].
  destruct (a_kbdintctxt (d_auth s)); [injection E1 as _ <-; apply Hs|].
  apply (ok_framed true) in E1; [|apply _]. rewrite (fr_table _ _ _ E1). apply Hs.
Qed.

Lemma guarded_auth f : (forall a, a_kbdintctxt (f a) = a_kbdintctxt a) -> Guarded (update_auth f).
Proof.
  intros Hf s x s' [Hl Hr] [= <- <-]. constructor; [done|]. intros Hh. cbn. rewrite Hf. by apply Hr.
Qed.
#[export] Instance guarded_get : Guarded get_state.
Proof. by intros s x s' Hs [= <- <-]. Qed.
Lemma guarded_ask {R} (f : list (event sshkey) -> R) (e : R -> event sshkey) : Guarded (ask f e).
Proof. by intros s x s' [] [= <- <-]. Qed.
Lemma guarded_ret {X} (x : X) : Guarded (ret x).
Proof. apply guarded_framed, _. Qed.
End dialogue.

(** Composes [Guarded]; what keeps a strict [frame] is done by [framed]. *)
Ltac guarded :=
  repeat first
    [ progress cbv zeta
    | apply _
    | apply guarded_framed; solve [framed]
    | apply guarded_other; done
    | apply guarded_auth; done
    | apply challenge_well_formed
    | apply guarded_stop
    | apply guarded_postponed
    | apply guarded_bind; [|intros ?]
    | apply guarded_get
    | apply guarded_ask
    | apply guarded_if
    | match goal with
      | |- Guarded (match ?x with _ => _ end) => destruct x
      | |- Guarded (let '(_, _) := ?x in _) => destruct x
      end ].

Section handlers.
Context {sshkey : Type} (A : allocator) {HW : World sshkey} {HU : UserKey sshkey}.
Context (session_id2 : bytes) (datafellows : Z) (use_privsep : bool) (privsep_uid : Z).
Implicit Types s : sshd sshkey.
Abbreviation proc X := (M (sshd sshkey) X).

#[export] Instance guarded_service : Guarded (do_service_request A).
Proof. unfold do_service_request. guarded. Qed.
#[export] Instance guarded_userauth m : Guarded (userauth A session_id2 datafellows m).
Proof.
  destruct m; cbn [userauth].
  - unfold userauth_none. guarded.
  - unfold userauth_pubkey, pubkey_probe. guarded.
  - unfold userauth_passwd. guarded.
  - unfold userauth_kbdint. guarded.
  - guarded.
Qed.
#[export] Instance guarded_finish authenticated method sub :
  Guarded (userauth_finish A datafellows authenticated method sub).
Proof. unfold userauth_finish, userauth_checks, auth2_update_methods_lists, userauth_reply. guarded. Qed.

#[export] Instance guarded_setup user service style role :
  Guarded (setup_authctxt A datafellows use_privsep privsep_uid user service style role).
Proof.
  unfold setup_authctxt, auth2_setup_methods_lists. apply guarded_bind; [apply _|]. intros s1.
  destruct (w_getpwnamallow _ _) as [pw options]. apply guarded_bind; [|intros []; guarded].
  by intros s x s' [] [= <- <-].
Qed.
#[export] Instance guarded_request : Guarded (do_userauth_request A session_id2 datafellows use_privsep privsep_uid).
Proof. unfold do_userauth_request. guarded. Qed.

Lemma response_well_formed : Guarded (do_info_response A datafellows).
Proof.
  intros s x s' Hs E. unfold do_info_response in E. apply bind_Ok in E as (?&?&[= <- <-]&E).
  destruct (a_kbdintctxt (d_auth s)) as [k|] eqn:Ek; [|done]. destruct (negb (kb_ctxt k)); [done|].
  destruct (kb_device k) as [device|] eqn:Ed; [|done].
  apply bind_Ok in E as ([]&s0&[= <-]&E).
  set (s0 := set_authctxt (set_postponed false (d_auth s)) s) in E.
  assert (well_formed s0) as H0 by by destruct Hs.
  apply (bind_framed true _ _ s0) in E as (nresp&s1&_&F1&E); [|apply _|done].
  destruct (negb _); [done|]. destruct (100 <? nresp); [done|].
  apply (bind_framed true _ _ s0) in E as (response&s2&_&F2&E); [|apply _|exact F1].
  apply (bind_framed true _ _ s0) in E as ([]&s3&_&F&E); [|apply _|exact F2]. clear F1 F2 s1 s2.
  destruct (fr_strict _ _ _ F eq_refl) as (_&Hk3&_).
  apply bind_Ok in E as (res&s4&E4&E). rewrite ask_run in E4. injection E4 as _ <-.
  apply bind_Ok in E as ([]&s5&E5&E). apply bind_Ok in E as (?&?&[= <- <-]&E). cbv zeta in E.
  apply bind_Ok in E as ([]&s6&E6&E). eapply guarded_finish; [|exact E].
  assert (well_formed s3) as [Hl3 Hr3] by by eapply guarded_strict.
  assert (well_formed s5) as H5.
  { destruct (res =? 1); [|by injection E5 as <-]. apply bind_Ok in E5 as (sent&s7&E7&E5).
    eapply info_request_dialogue in E7 as [Hd7 [nreq Hk7]]; [|by cbn; rewrite Hk3].
    assert (well_formed s7) as H7.
    { constructor; unfold info_response_handler; rewrite Hd7; [done|]. intros Hh.
      destruct (Hr3 Hh) as (k3&Hk&Hu). rewrite Hk3 in Hk. cbn in Hk. rewrite Ek in Hk. injection Hk as <-.
      rewrite Hk7. by eexists. }
    destruct sent; [|by injection E5 as <-]. by eapply guarded_postponed. }
  destruct (a_postponed (d_auth s5)); [by injection E6 as <-|].
  destruct (_ && _) in E6; [by eapply guarded_stop|].
  destruct (a_kbdintctxt (d_auth s5)) as [k5|]; [|by injection E6 as <-].
  eapply start_well_formed; [|exact E6]. apply H5.
Qed.

#[export] Instance guarded_handler fn type seq :
  Guarded (call_handler A session_id2 datafellows use_privsep privsep_uid fn type seq).
Proof.
  destruct fn; cbn [call_handler]; [guarded|guarded|apply _|apply _|apply response_well_formed].
Qed.

(** ** The connection *)

Abbreviation run := (ssh_dispatch_run (S := sshd sshkey) (F := dispatch_fn)
  (H := sshd_host A session_id2 datafellows use_privsep privsep_uid)).

Lemma guarded_packet type seqnr : Guarded (dispatch_packet
  (H := sshd_host A session_id2 datafellows use_privsep privsep_uid) type seqnr).
Proof.
  unfold dispatch_packet. apply guarded_bind; [apply _|]. intros s1.
  match goal with |- Guarded (match ?h with _ => _ end) => destruct h as [fn|] end.
  - apply guarded_if; apply guarded_bind; [|intros []; apply guarded_ret|apply guarded_handler|intros []; apply guarded_ret].
    by intros s x s' [] [= <- <-].
  - apply guarded_framed. cbn [host_disconnect sshd_host]. framed.
Qed.

Lemma guarded_run packets : Guarded (run true packets).
Proof.
  induction packets as [|[[[type seqnr] payload]|c] packets IH]; cbn [ssh_dispatch_run].
  - apply guarded_ret.
  - apply guarded_bind; [apply guarded_framed, framed_incoming|]. intros []. cbn [negb andb].
    apply guarded_bind; [apply guarded_packet|]. intros called. apply guarded_bind; [apply _|]. intros s1.
    apply guarded_if; [apply guarded_ret|exact IH].
  - by intros s x s' _.
Qed.

(** C37. After any packets: if the handler of SSH2_MSG_USERAUTH_INFO_RESPONSE is in
    the table, then the context of keyboard-interactive exists, a device is in
    use and has a context of its own - what [input_userauth_info_response]
    would otherwise end the process over. *)
Theorem auth_answers_expected packets s0 fin s :
  zlen (d_dispatch s0) = DISPATCH_MAX ->
  do_authentication2 A session_id2 datafellows use_privsep privsep_uid packets s0 = (Ok fin, s) ->
  zlen (d_dispatch s) = DISPATCH_MAX /\
  (handler_of SSH2_MSG_USERAUTH_INFO_RESPONSE (d_dispatch s) = Some input_userauth_info_response ->
   exists k, a_kbdintctxt (d_auth s) = Some k /\ kb_ctxt k = true /\ kb_device k <> None).
Proof.
  intros Hl E. unfold do_authentication2 in E. apply bind_Ok in E as ([]&s1&[= <-]&E).
  apply bind_Ok in E as ([]&s2&[= <-]&E). unfold dispatch_run in E.
  match type of E with context [run true packets ?t] => set (s2 := t) in E end.
  destruct (run true packets s2) as [[fin'|c] s3] eqn:Er; [|done]. injection E as -> ->.
  eapply guarded_run in Er as []; [done|].
  constructor; unfold info_response_handler, s2; cbn [d_dispatch set_dispatch].
  - rewrite set_length, init_length. exact Hl.
  - rewrite set_handler_ne by done. by rewrite init_handler.
Qed.
End handlers.

(** ** An instance: the device waits for its answer *)

Definition asked : sshd unit := snd (demo_run [] ["pam"] [demo_service; demo_kbdint ""]).
Lemma asked_eq : demo_run [] ["pam"] [demo_service; demo_kbdint ""] = (Ok Waiting, asked).
Proof. vm_compute. reflexivity. Qed.
Lemma asked_handler :
  handler_of SSH2_MSG_USERAUTH_INFO_RESPONSE (d_dispatch asked) = Some input_userauth_info_response.
Proof. vm_compute. reflexivity. Qed.

#[local] Opaque do_authentication2.
Lemma auth_answers_expected_witness : exists s k,
  demo_run [] ["pam"] [demo_service; demo_kbdint ""] = (Ok Waiting, s) /\
  a_kbdintctxt (d_auth s) = Some k /\ kb_device k <> None.
Proof.
  pose proof (auth_answers_expected test_alloc (HW := demo_world (demo_options [])) (HU := demo_userkey)
    (cstr "session") 0 false 0 [demo_service; demo_kbdint ""] (demo_start (demo_options []) ["pam"]) Waiting asked) as P.
  destruct P as [_ P].
  - reflexivity.
  - pose proof asked_eq as E. unfold demo_run at 1 in E. exact E.
  - destruct (P asked_handler) as (k&Hk&_&Hd). exists asked, k. split; [exact asked_eq|]. split; [exact Hk|exact Hd].
Defined.
