(* ===== verification/AuthGuess.v ===== *)
(** How often a client can guess: with one device of keyboard-interactive the
    failures are counted, with two the count can be evaded. *)

From stdpp Require Import pretty.
From S2P Require Import Prelude Wire CString Sshbuf SshbufGetput SshbufSpec Algs Glob Ssh2 Dispatch AuthMethods Auth2 AuthFrame AuthDemo AuthSafe.

(** ** One device *)

Definition one_device (devices : list bytes) : Prop := (length devices <= 1)%nat.
(** The device that is in use is marked as done. *)
Definition device_marked (k : KbdintAuthctxt) : Prop :=
  kb_device k <> None -> Z.odd (kb_devices_done k) = true.

Section one.
Context {sshkey : Type}.
Implicit Types s : sshd sshkey.

Lemma marked_bit n : (Z.land n (Z.shiftl 1 0) =? 0) = negb (Z.odd n).
Proof.
  change (Z.shiftl 1 0) with (Z.ones 1). rewrite Z.land_ones, Zmod_odd by lia. by destruct (Z.odd n).
Qed.
Lemma mark_bit n : Z.odd (Z.lor n (Z.shiftl 1 0)) = true.
Proof. rewrite <- Z.bit0_odd, Z.lor_spec. apply orb_true_r. Qed.

(** A round over at most one device: it is picked and marked, or nothing changes. *)
Lemma find_one s devices name len device done : one_device devices ->
  exists device' done', find_device s 0 devices name len device done = (device', done') /\
    ((device', done') = (device, done) \/ Z.odd done = false /\ Z.odd done' = true).
Proof.
  intros H1. destruct devices as [|d [|d2 ds]]; [by eauto| |unfold one_device in H1; simpl in H1; lia].
  cbn [find_device]. rewrite marked_bit. destruct (Z.odd done) eqn:Ho; cbn [negb orb]; [by eauto|].
  destruct (negb _); [by eauto|]. destruct (bool_decide _); [|by eauto].
  eexists _, _. split; [reflexivity|]. right. split; [done|apply mark_bit].
Qed.

Lemma next_one fuel s : forall k, one_device (d_kbdint_devices s) ->
  (device_marked k -> device_marked (next_device_loop fuel s k)) /\
  (Z.odd (kb_devices_done k) = true -> kb_device k = None -> kb_device (next_device_loop fuel s k) = None).
Proof.
  induction fuel as [|fuel IH]; intros k H1; cbn [next_device_loop]; [done|].
  destruct (_ =? 0); [done|].
  destruct (find_one s (d_kbdint_devices s) (default [] (kb_devices k)) (strcspn (default [] (kb_devices k)) [ch ","])
    (kb_device k) (kb_devices_done k) H1) as (device&done0&->&Hf).
  generalize (match zdrop (strcspn (default [] (kb_devices k)) [ch ","]) (default [] (kb_devices k)) with
              | [] => None | _ :: r => Some r end) as rest. intros rest.
  destruct (IH (mk_kbdint rest (kb_ctxt k) device (kb_nreq k) done0) H1) as [Hm' Hn'].
  unfold device_marked in *. simpl in *.
  assert ((kb_device k <> None -> Z.odd (kb_devices_done k) = true) -> device <> None -> Z.odd done0 = true) as Hm.
  { destruct Hf as [[= -> ->]|[_ Ho]]; auto. }
  assert (Z.odd (kb_devices_done k) = true -> kb_device k = None -> Z.odd done0 = true /\ device = None) as Hn.
  { destruct Hf as [[= -> ->]|[Ho _]]; [auto|congruence]. }
  destruct rest as [r|]; [destruct device as [d|]|]; simpl; split; try (by auto);
    intros Ho Hd; destruct (Hn Ho Hd) as [Ho' Hd']; try done. by apply Hn'.
Qed.

#[export] Instance one_dialogue : Dialogue (sshkey := sshkey) one_device device_marked.
Proof.
  constructor.
  - unfold one_device. intros l l' Hs%sublist_length Hl. lia.
  - by intros devs H.
  - intros s k H1 Hk. unfold kbdint_next_device. cbv zeta. cbn [fst].
    apply next_one; [done|]. destruct (kb_device k); [by intros []|done].
  - done.
Qed.

Lemma next_none s k : one_device (d_kbdint_devices s) -> device_marked k -> kb_device k <> None ->
  kb_device (fst (kbdint_next_device s k)) = None.
Proof.
  intros H1 Hk Hd. unfold kbdint_next_device. cbv zeta. cbn [fst]. specialize (Hk Hd).
  destruct (kb_device k) as [d|]; [|done]. by apply next_one.
Qed.
End one.

(** ** The count of failures *)

Section guess.
Context {sshkey : Type} (A : allocator) {HW : World sshkey} {HU : UserKey sshkey}.
Context (session_id2 : bytes) (datafellows : Z) (use_privsep : bool) (privsep_uid : Z).
Implicit Types (s : sshd sshkey) (a : Authctxt sshkey) (tr ext : list (event sshkey)).
Abbreviation proc X := (M (sshd sshkey) X).
Abbreviation dialogue := (dialogue_ok (sshkey := sshkey) one_device device_marked).

Definition max_of s : Z := o_max_authtries (d_options s).
Definition bounded s : Prop := guesses (d_trace s) <= Z.max 0 (max_of s) + 1.

(** Between two packets. *)
Record counted s : Prop := {
  co_failures : 0 <= a_failures (d_auth s);
  co_dialogue : dialogue s;
  co_attempt : 0 <= a_attempt (d_auth s);
  co_fresh : a_attempt (d_auth s) = 0 ->
    guesses (d_trace s) = 0 /\ a_failures (d_auth s) = 0 /\ a_kbdintctxt (d_auth s) = None;
  co_live : 0 < a_attempt (d_auth s) ->
    a_server_caused_failure (d_auth s) = false /\ a_failures (d_auth s) < max_of s /\
    guesses (d_trace s) <= a_failures (d_auth s) + 1
}.

Lemma counted_bounded s : counted s -> bounded s.
Proof.
  intros []. unfold bounded. destruct (Z.eq_dec (a_attempt (d_auth s)) 0) as [H0|H0].
  - destruct (co_fresh0 H0) as (->&_). lia.
  - destruct (co_live0 ltac:(lia)) as (_&?&?). lia.
Qed.

Lemma bounded_frame b s s' : frame b s s' -> bounded s -> bounded s'.
Proof. intros F. unfold bounded, max_of. by rewrite (frame_guesses _ _ _ F), (fr_options _ _ _ F). Qed.

(** What is left to show of a handler: it lets the user in, or the count is kept;
    and if the process ends, there were not too many guesses. *)
Definition outcome {X} (out : result X * sshd sshkey) : Prop :=
  match out with
  | (Ok _, s) => a_success (d_auth s) = true /\ bounded s \/ counted s
  | (Err _, s) => bounded s
  end.

Lemma outcome_bind b {X Y} (m : proc X) (k : X -> proc Y) s0 s :
  Framed b m -> frame b s0 s -> bounded s0 -> (forall x s1, m s = (Ok x, s1) -> frame b s0 s1 -> outcome (k x s1)) ->
  outcome (bind m k s).
Proof.
  intros Hm F Hb Hk. unfold bind. specialize (Hm s). destruct (m s) as [[x|c] s1].
  - apply Hk; [done|]. by etransitivity.
  - simpl. eapply bounded_frame; [exact Hm|]. by eapply bounded_frame.
Qed.

Lemma outcome_last b (m : proc unit) s0 s :
  Framed b m -> frame b s0 s -> bounded s0 -> (forall s1, frame b s0 s1 -> counted s1) -> outcome (m s).
Proof.
  intros Hm F Hb Hk. specialize (Hm s). destruct (m s) as [[x|c] s1].
  - right. apply Hk. by etransitivity.
  - simpl. eapply bounded_frame; [exact Hm|]. by eapply bounded_frame.
Qed.

(** In a request that is about to be answered. *)
Record answering (authenticated : bool) (method : bytes) s : Prop := {
  an_failures : 0 <= a_failures (d_auth s);
  an_dialogue : dialogue s;
  an_attempt : 0 < a_attempt (d_auth s);
  an_scf : a_server_caused_failure (d_auth s) = false;
  an_bounded : bounded s;
  an_guesses : guesses (d_trace s) <= a_failures (d_auth s) + 1 \/
    authenticated = false /\ a_postponed (d_auth s) = false /\
    (1 <? a_attempt (d_auth s)) || negb (strcmp_eq method (cstr "none")) = true /\
    guesses (d_trace s) <= a_failures (d_auth s) + 2;
  an_postponed : a_postponed (d_auth s) = true -> a_failures (d_auth s) < max_of s
}.

Lemma maxtries_fails {X} s : exists c, fst (auth_maxtries_exceeded A (X := X) s) = Err c.
Proof.
  unfold auth_maxtries_exceeded, packet_disconnect, bind. destruct (sshpkt_disconnect _ _ s) as [[[]|c] s1]; by eexists.
Qed.

Lemma reply_outcome authenticated partial method s :
  answering authenticated method s ->
  (guesses (d_trace s) <= a_failures (d_auth s) + 1 \/
   partial = false /\ (1 <? a_attempt (d_auth s)) || negb (strcmp_eq method (cstr "none")) = true /\
   guesses (d_trace s) <= a_failures (d_auth s) + 2) ->
  outcome (userauth_reply A authenticated partial method s).
Proof.
  intros [Hf Hd Ha Hscf Hb _ _] Hg. unfold userauth_reply. destruct authenticated.
  - apply (outcome_bind false _ _ s); [apply _|done|done|]. intros [] s1 _ F1.
    apply (outcome_bind false _ _ s); [apply _|done|done|]. intros [] s2 _ F2.
    apply (outcome_bind false _ _ s); [apply _|done|done|]. intros [] s3 _ F3.
    left. split; [done|]. by apply (bounded_frame _ _ _ F3) in Hb.
  - unfold bind at 1, get_state at 1. rewrite Hscf. cbn [negb]. rewrite andb_true_r.
    set (penalty := negb partial && ((1 <? a_attempt (d_auth s)) || negb (strcmp_eq method (cstr "none")))).
    set (n := a_failures (d_auth s) + b2z penalty).
    assert (guesses (d_trace s) <= n + 1) as Hn.
    { unfold n, penalty. destruct Hg as [|(->&Ha1&?)]; [destruct (_ && _); simpl; lia|].
      rewrite Ha1. simpl. lia. }
    assert (exists s1, dialogue s1 /\ a_failures (d_auth s1) = n /\ a_attempt (d_auth s1) = a_attempt (d_auth s) /\
      a_server_caused_failure (d_auth s1) = false /\ d_trace s1 = d_trace s /\ d_options s1 = d_options s /\
      (if penalty then update_auth (set_failures (a_failures (d_auth s) + 1)) else ret tt) s = (Ok tt, s1))
      as (s1&Hd1&Hf1&Ha1&Hc1&Ht1&Ho1&E1).
    { unfold n. destruct penalty; simpl.
      - eexists. split_and!; [| | | | | |reflexivity]; done.
      - exists s. rewrite Z.add_0_r. by split_and!. }
    unfold bind at 1. rewrite E1. unfold bind at 1, get_state at 1.
    assert (bounded s1) as Hb1 by (unfold bounded, max_of; by rewrite Ht1, Ho1).
    destruct (Z.leb_spec (o_max_authtries (d_options s1)) (a_failures (d_auth s1))) as [Hm|Hm].
    + unfold bind. destruct (maxtries_fails (X := unit) s1) as [c Hc].
      pose proof (framed_maxtries A true (X := unit) s1) as F.
      destruct (auth_maxtries_exceeded A s1) as [r s2]. cbn [fst snd] in *. subst r.
      by eapply bounded_frame.
    + unfold bind at 1, ret at 1. eapply (outcome_last true _ s1); [apply _|done|done|]. intros s2 F.
      assert (0 <= b2z penalty) by (by destruct penalty).
      constructor.
      * rewrite (fr_failures _ _ _ F). lia.
      * by eapply (strict_dialogue one_device device_marked).
      * rewrite (fr_attempt _ _ _ F). lia.
      * rewrite (fr_attempt _ _ _ F). lia.
      * intros _. unfold max_of. rewrite (fr_scf _ _ _ F), (fr_failures _ _ _ F), (fr_options _ _ _ F), (frame_guesses _ _ _ F), Ht1.
        split_and!; [done|lia|lia].
Qed.

Lemma answering_frame b method s s' : frame true s s' -> answering b method s -> answering b method s'.
Proof.
  intros F []. destruct (fr_strict _ _ _ F eq_refl) as (Hp&_).
  constructor; rewrite ?(fr_failures _ _ _ F), ?(fr_attempt _ _ _ F), ?(fr_scf _ _ _ F), ?(frame_guesses _ _ _ F), ?Hp; try done.
  - by eapply (strict_dialogue one_device device_marked).
  - by eapply bounded_frame.
  - unfold max_of. by rewrite (fr_options _ _ _ F).
Qed.

Lemma answering_weaken b method s : answering true method s -> answering b method s.
Proof. intros []. constructor; try done. left. by destruct an_guesses0 as [|[[=] _]]. Qed.

(** After the checks of a success. *)
Lemma checked_outcome au partial method s :
  answering true method s ->
  outcome (((if o_use_pam (d_options s) && au then check_pam_account A datafellows else ret tt) ;;;
            userauth_reply A au partial method) s).
Proof.
  intros Han. apply (outcome_bind true _ _ s); [framed|done|apply Han|]. intros [] s1 _ F.
  apply reply_outcome; [apply answering_weaken; by eapply answering_frame|]. left.
  rewrite (frame_guesses _ _ _ F), (fr_failures _ _ _ F). by destruct (an_guesses _ _ _ Han) as [|[[=] _]].
Qed.

Lemma finish_outcome authenticated method sub s :
  answering authenticated method s -> outcome (userauth_finish A datafellows authenticated method sub s).
Proof.
  intros Han. pose proof Han as [Hf Hd Ha Hscf Hb Hg Hpost]. unfold userauth_finish, bind at 1, get_state at 1.
  cbv zeta. destruct (negb (a_valid (d_auth s)) && authenticated); [done|].
  destruct authenticated; cbn [andb].
  - destruct (a_postponed (d_auth s)) eqn:Hp; [done|].
    unfold bind at 1, userauth_checks, bind at 1, get_state at 1. cbn [andb].
    destruct (user_is_root s && _); [by apply checked_outcome|].
    destruct (negb (bool_decide _)); [|by apply checked_outcome].
    unfold bind at 1, auth2_update_methods_lists, bind at 1, get_state at 1.
    destruct (update_lists _ method sub) as [[complete found] lists].
    unfold bind at 1. cbn [update_auth update].
    set (s1 := set_authctxt (set_auth_methods lists (d_auth s)) s).
    assert (answering true method s1) as Han1 by by destruct Han.
    change (d_options s) with (d_options s1).
    destruct complete; [by apply checked_outcome|]. destruct found; [|done]. by apply checked_outcome.
  - unfold bind at 1, userauth_checks, bind at 1, get_state at 1. cbn [andb].
    unfold ret at 1. destruct (a_postponed (d_auth s)) eqn:Hp.
    + right. constructor; try done; try lia. intros _. split_and!; [done|by apply Hpost|].
      by destruct Hg as [|(_&[=]&_)].
    + rewrite andb_false_r. unfold bind at 1, ret at 1. apply reply_outcome; [done|].
      destruct Hg as [|(_&_&?&?)]; [by left|by right].
Qed.

(** ** A request *)

(** While a request is read. *)
Record reading s : Prop := {
  re_failures : 0 <= a_failures (d_auth s);
  re_dialogue : dialogue s;
  re_attempt : 0 < a_attempt (d_auth s);
  re_guesses : if a_attempt (d_auth s) =? 1 then guesses (d_trace s) = 0
               else guesses (d_trace s) <= a_failures (d_auth s) + 1 /\ a_failures (d_auth s) < max_of s
}.

Lemma reading_bounded s : reading s -> bounded s.
Proof.
  intros [Hf _ _ Hg]. unfold bounded. destruct (_ =? 1); lia.
Qed.

Lemma reading_frame s s' : frame true s s' -> reading s -> reading s'.
Proof.
  intros F []. constructor; rewrite ?(fr_failures _ _ _ F), ?(fr_attempt _ _ _ F), ?(frame_guesses _ _ _ F); try done.
  - by eapply (strict_dialogue one_device device_marked).
  - unfold max_of. by rewrite (fr_options _ _ _ F).
Qed.

(** The choice of the method. *)
Lemma try_outcome method s :
  reading s -> a_postponed (d_auth s) = false -> a_server_caused_failure (d_auth s) = false ->
  outcome ((let! authenticated :=
     match authmethod_lookup s method with
     | Some m => if a_failures (d_auth s) <? o_max_authtries (d_options s)
                 then userauth A session_id2 datafellows m else ret false
     | None => ret false
     end in
   userauth_finish A datafellows authenticated method None) s).
Proof.
  intros Hre Hp Hscf. pose proof (reading_bounded s Hre) as Hb. pose proof Hre as [Hf Hd Ha Hg].
  assert (guesses (d_trace s) <= a_failures (d_auth s) + 1 /\
    (a_attempt (d_auth s) = 1 -> guesses (d_trace s) = 0)) as [Hg1 Hg0].
  { destruct (Z.eqb_spec (a_attempt (d_auth s)) 1); [split; [lia|done]|]. by destruct Hg. }
  assert (outcome ((let! authenticated := ret false in userauth_finish A datafellows authenticated method None) s)) as Hno.
  { unfold bind, ret. apply finish_outcome. constructor; try done; [by left|congruence]. }
  destruct (authmethod_lookup s method) as [m|]; [|done].
  destruct (Z.ltb_spec (a_failures (d_auth s)) (o_max_authtries (d_options s))) as [Hm|]; [|done]. clear Hno.
  pose proof (keeps_userauth A session_id2 datafellows one_device device_marked m s Hd) as Hd'.
  destruct (userauth_cases A session_id2 datafellows m s) as [[F _]|(s1&password&r&F&_&E)].
  - unfold bind. destruct (userauth A session_id2 datafellows m s) as [[b|c] s1]; cbn [snd] in *.
    + apply finish_outcome. constructor; rewrite ?(fr_failures _ _ _ F), ?(fr_attempt _ _ _ F), ?(fr_scf _ _ _ F),
        ?(frame_guesses _ _ _ F); try done.
      * by eapply bounded_frame.
      * by left.
      * unfold max_of. rewrite (fr_options _ _ _ F). done.
    + simpl. by eapply bounded_frame.
  - unfold bind. rewrite E in *. cbn [snd] in *. destruct (fr_strict _ _ _ F eq_refl) as (Hp1&_).
    apply finish_outcome.
    assert (guesses (d_trace (after_event s1 (EPassword (default [] (a_user (d_auth s))) password r))) =
      guesses (d_trace s) + b2z (negb r)) as Hgs.
    { unfold after_event. simpl. rewrite guesses_app, (frame_guesses _ _ _ F). by destruct r. }
    constructor; rewrite ?Hgs; cbn [d_auth after_event set_trace]; rewrite ?(fr_failures _ _ _ F), ?(fr_attempt _ _ _ F),
      ?(fr_scf _ _ _ F), ?Hp1, ?Hp; try done.
    + unfold bounded, max_of in *. rewrite Hgs. simpl. rewrite (fr_options _ _ _ F).
      assert (b2z (negb r) <= 1) by (by destruct r). lia.
    + destruct r; simpl; [left; lia|]. destruct (Z.eq_dec (a_attempt (d_auth s)) 1) as [H1|H1].
      * left. rewrite Hg0 by done. lia.
      * right. split_and!; [done..| |lia]. by rewrite (proj2 (Z.ltb_lt _ _)) by lia.
Qed.

(** What setting up the context leaves alone. *)
Record set_up s s' : Prop := {
  su_attempt : a_attempt (d_auth s') = a_attempt (d_auth s);
  su_failures : a_failures (d_auth s') = a_failures (d_auth s);
  su_dialogue : dialogue s -> dialogue s';
  su_guesses : guesses (d_trace s') = guesses (d_trace s)
}.
Lemma set_up_trans s1 s2 s3 : set_up s1 s2 -> set_up s2 s3 -> set_up s1 s3.
Proof. intros [] []. constructor; try congruence. auto. Qed.
Lemma set_up_frame s s' : frame true s s' -> set_up s s'.
Proof.
  intros F. constructor; [apply F|apply F| |by eapply frame_guesses].
  by eapply (strict_dialogue one_device device_marked).
Qed.
Lemma set_up_bind {X Y} (m : proc X) (k : X -> proc Y) s :
  set_up s (snd (m s)) -> (forall x s1, m s = (Ok x, s1) -> set_up s1 (snd (k x s1))) -> set_up s (snd (bind m k s)).
Proof.
  intros Hm Hk. unfold bind. destruct (m s) as [[x|c] s1]; [|done]. cbn [snd] in Hm.
  eapply set_up_trans; [exact Hm|]. by apply Hk.
Qed.
Lemma set_up_framed {X} (m : proc X) s : Framed true m -> set_up s (snd (m s)).
Proof. intros Hm. apply set_up_frame, Hm. Qed.

Lemma setup_leaves user service style role s :
  set_up s (snd (setup_authctxt A datafellows use_privsep privsep_uid user service style role s)).
Proof.
  unfold setup_authctxt. apply set_up_bind; [done|]. intros ? ? [= <- <-].
  destruct (w_getpwnamallow (d_trace s) user) as [pw options].
  apply set_up_bind; [done|]. intros [] s1 [= <-].
  apply set_up_bind; [apply set_up_framed; framed|]. intros x s2 _. cbv zeta.
  apply set_up_bind; [done|]. intros [] s3 _.
  apply set_up_bind; [apply set_up_framed; framed|]. intros [] s4 _.
  apply set_up_bind; [apply set_up_framed; framed|]. intros [] s5 _.
  apply set_up_bind; [apply set_up_framed; framed|]. intros [] s6 _.
  apply set_up_bind; [|intros r s7 _; apply set_up_framed; framed].
  unfold auth2_setup_methods_lists. apply set_up_bind; [done|]. intros ? ? [= <- <-].
  by destruct (bool_decide _).
Qed.

Lemma request_outcome s :
  counted s -> outcome (do_userauth_request A session_id2 datafellows use_privsep privsep_uid s).
Proof.
  intros Hc. pose proof (counted_bounded s Hc) as Hb. unfold do_userauth_request.
  apply (outcome_bind true _ _ s); [apply _|done|done|]. intros user0 s1 _ F1.
  apply (outcome_bind true _ _ s); [apply _|done|done|]. intros service s2 _ F2.
  apply (outcome_bind true _ _ s); [apply _|done|done|]. intros method s3 _ F3. clear F1 F2 s1 s2.
  destruct (split_user user0) as [[user style] role]. unfold bind at 1, get_state at 1. cbv zeta.
  unfold bind at 1, update_auth at 1, update at 1.
  set (s4 := set_authctxt (set_attempt (a_attempt (d_auth s3) + 1) (d_auth s3)) s3).
  assert (reading s4) as Hr4.
  { destruct Hc. destruct (fr_strict _ _ _ F3 eq_refl) as (_&Hk&_). constructor; simpl.
    - rewrite (fr_failures _ _ _ F3). lia.
    - exact (strict_dialogue one_device device_marked _ _ F3 co_dialogue0).
    - rewrite (fr_attempt _ _ _ F3). lia.
    - rewrite (fr_attempt _ _ _ F3), (fr_failures _ _ _ F3), (frame_guesses _ _ _ F3). unfold max_of. simpl.
      rewrite (fr_options _ _ _ F3). destruct (Z.eqb_spec (a_attempt (d_auth s) + 1) 1).
      + apply co_fresh0. lia.
      + split; apply co_live0; lia. }
  assert (forall s5, reading s5 ->
    outcome ((auth2_challenge_stop ;;;
      update_auth (fun a => set_server_caused_failure false (set_postponed false a)) ;;;
      let! s := get_state in
      let! authenticated :=
        match authmethod_lookup s method with
        | Some m => if a_failures (d_auth s) <? o_max_authtries (d_options s)
                    then userauth A session_id2 datafellows m else ret false
        | None => ret false
        end in
      userauth_finish A datafellows authenticated method None) s5)) as Hrest.
  { intros s5 []. unfold bind at 1, auth2_challenge_stop, bind at 1, dispatch_set, update at 1, update_auth at 1, update at 1.
    unfold bind at 1, update_auth at 1, update at 1. unfold bind at 1, get_state at 1.
    apply try_outcome; [|done|done]. constructor; try done. split; [apply re_dialogue0|done]. }
  unfold bind at 1.
  match goal with |- outcome (match ?m s4 with _ => _ end) =>
    assert (match m s4 with (Ok _, s5) => reading s5 | (Err _, s5) => bounded s5 end) as Hm end.
  { change (a_attempt (d_auth s3)) with (a_attempt (d_auth s3)).
    destruct (Z.eqb_spec (a_attempt (d_auth s3)) 0) as [H0|H0].
    - pose proof (setup_leaves user service style role s4) as [Sa Sf Sd Sg].
      assert (guesses (d_trace s4) = 0) as Hg0.
      { pose proof (re_guesses _ Hr4) as Hg. simpl in Hg. rewrite H0 in Hg. exact Hg. }
      destruct (setup_authctxt _ _ _ _ _ _ _ _ s4) as [[[]|c] s5]; cbn [snd] in *.
      + constructor.
        * rewrite Sf. apply Hr4.
        * apply Sd, Hr4.
        * rewrite Sa. apply Hr4.
        * rewrite Sa. simpl. rewrite H0. simpl. by rewrite Sg.
      + unfold bounded. rewrite Sg, Hg0. lia.
    - match goal with |- context [if ?c then _ else ret tt] => destruct c end; [|done].
      pose proof (framed_disconnect A true (X := unit) (change_of_user (d_auth s3) user service) s4) as F.
      destruct (packet_disconnect A _ s4) as [[x|c] s5]; cbn [snd] in *.
      + by eapply reading_frame.
      + by eapply bounded_frame, reading_bounded. }
  match goal with |- outcome (match ?m s4 with _ => _ end) => destruct (m s4) as [[[]|c] s5] end; [by apply Hrest|done].
Qed.
(** ** An answer *)

(** With its device in use, the dialogue has no other device to go on with. *)
Lemma start_stops k s :
  one_device (d_kbdint_devices s) -> device_marked k -> kb_device k <> None ->
  exists s', auth2_challenge_start A k s = (Ok tt, s') /\ a_postponed (d_auth s') = a_postponed (d_auth s).
Proof.
  intros H1 Hm Hk. pose proof (next_none s k H1 Hm Hk) as Hn.
  unfold auth2_challenge_start, bind at 1, get_state at 1.
  destruct (kbdint_next_device s k) as [k' found]. cbn [fst] in Hn. rewrite Hn. by eexists.
Qed.

(** What comes between the device's answer and the end. *)
Definition after_answer (k : KbdintAuthctxt) (device : bytes) (res : Z) : proc unit :=
  (if res =? 1 then
     let! sent := send_userauth_info_request A k device in
     if sent then update_auth (set_postponed true) else ret tt
   else ret tt) ;;;
  let! s := get_state in
  let authenticated := (res =? 0) && a_valid (d_auth s) in
  (if a_postponed (d_auth s) then ret tt
   else if authenticated then auth2_challenge_stop
   else
     match a_kbdintctxt (d_auth s) with
     | Some k => auth2_challenge_start A k
     | None => ret tt
     end) ;;;
  userauth_finish A datafellows authenticated (cstr "keyboard-interactive") (Some device).

Lemma after_answer_outcome k device res s :
  a_kbdintctxt (d_auth s) = Some k -> kb_device k = Some device -> device_marked k -> dialogue s ->
  a_postponed (d_auth s) = false -> a_server_caused_failure (d_auth s) = false ->
  0 < a_attempt (d_auth s) -> 0 <= a_failures (d_auth s) < max_of s ->
  guesses (d_trace s) <= a_failures (d_auth s) + 1 + b2z (negb (res =? 0) && negb (res =? 1)) ->
  outcome (after_answer k device res s).
Proof.
  intros Hk Hkd Hkm Hd Hp Hscf Ha Hf Hg.
  assert (bounded s) as Hb by (unfold bounded; destruct (_ && _); simpl in Hg; lia).
  assert (forall b s', frame false s s' -> dialogue s' ->
    ((negb (res =? 0) && negb (res =? 1)) = true -> b = false /\ a_postponed (d_auth s') = false) ->
    answering b (cstr "keyboard-interactive") s') as Han.
  { intros b s' F Hd' Hw. constructor; rewrite ?(fr_failures _ _ _ F), ?(fr_attempt _ _ _ F), ?(fr_scf _ _ _ F),
      ?(frame_guesses _ _ _ F); try done; try lia.
    - by eapply bounded_frame.
    - destruct (_ && _); simpl in Hg; [right|left; lia]. destruct (Hw eq_refl). split_and!; [done..| |lia].
      apply orb_true_r.
    - unfold max_of. rewrite (fr_options _ _ _ F). intros _. apply Hf. }
  unfold after_answer. destruct (Z.eqb_spec res 1) as [->|Hr].
  - cbn [Z.eqb negb andb Pos.eqb].
    apply (outcome_bind false _ _ s); [framed|done|done|]. intros [] s1 E1 F1.
    assert (dialogue s1) as Hd1.
    { eapply keeps_ok; [exact E1| |done]. apply keeps_bind; [by apply (keeps_info_request A one_device device_marked)|].
      intros []; [apply keeps_postponed|by intros ? ?]. }
    unfold bind at 1, get_state at 1. cbv zeta.
    apply (outcome_bind false _ _ s); [framed|done|done|]. intros [] s2 E2 F2. apply finish_outcome, Han; try done.
    destruct (a_postponed (d_auth s1)); [by injection E2 as <-|].
    destruct (a_kbdintctxt (d_auth s1)) as [k1|] eqn:Ek1; [|by injection E2 as <-].
    eapply keeps_ok; [exact E2| |done]. apply (keeps_challenge_start A one_device device_marked). by apply Hd1.
  - unfold bind at 1, ret at 1. unfold bind at 1, get_state at 1. cbv zeta. rewrite Hp, Hk.
    destruct ((res =? 0) && a_valid (d_auth s)) eqn:Hau.
    + apply andb_true_iff in Hau as [->%Z.eqb_eq _].
      apply (outcome_bind false _ _ s); [framed|done|done|]. intros [] s2 E2 F2. apply finish_outcome, Han; try done.
      eapply keeps_ok; [exact E2|apply keeps_stop|done].
    + destruct (start_stops k s (proj1 Hd) Hkm) as (s2&E2&Hp2); [congruence|].
      assert (frame false s s2) as F2 by (eapply ok_framed; [|exact E2]; framed).
      unfold bind at 1. rewrite E2. apply finish_outcome, Han; [done| |by rewrite Hp2].
      eapply keeps_ok; [exact E2| |done]. by apply (keeps_challenge_start A one_device device_marked).
Qed.

Lemma response_outcome s : counted s -> outcome (do_info_response A datafellows s).
Proof.
  intros Hc. pose proof (counted_bounded s Hc) as Hb. unfold do_info_response.
  unfold bind at 1, get_state at 1. destruct (a_kbdintctxt (d_auth s)) as [k|] eqn:Ek; [|done].
  destruct (negb (kb_ctxt k)); [done|]. destruct (kb_device k) as [device|] eqn:Ed; [|done].
  destruct Hc as [Hf Hd Ha0 Hfr Hl].
  assert (0 < a_attempt (d_auth s)) as Ha.
  { destruct (Z.eq_dec (a_attempt (d_auth s)) 0) as [H0|H0]; [|lia]. destruct (Hfr H0) as (_&_&?). congruence. }
  destruct (Hl Ha) as (Hscf&Hm&Hg). clear Hl Hfr Ha0.
  unfold bind at 1, update_auth at 1, update at 1.
  set (s0 := set_authctxt (set_postponed false (d_auth s)) s).
  assert (dialogue s0) as Hd0 by exact Hd. assert (a_postponed (d_auth s0) = false) as Hp0 by done.
  apply (outcome_bind true _ _ s0); [apply _|done|done|]. intros nresp s1 _ F1.
  destruct (negb _); [by eapply bounded_frame|]. destruct (100 <? nresp); [by eapply bounded_frame|].
  apply (outcome_bind true _ _ s0); [apply _|done|done|]. intros response s2 _ F2.
  apply (outcome_bind true _ _ s0); [apply _|done|done|]. intros [] s3 _ F. clear F1 F2 s1 s2.
  unfold bind at 1. rewrite ask_run.
  destruct (fr_strict _ _ _ F eq_refl) as (Hp&Hk&_).
  apply (after_answer_outcome k device); try done; cbn [after_event set_trace d_auth d_trace d_options];
    rewrite ?Hp, ?Hk, ?(fr_failures _ _ _ F), ?(fr_attempt _ _ _ F), ?(fr_scf _ _ _ F); try done.
  - by apply (proj2 Hd).
  - apply (strict_dialogue one_device device_marked _ _ F Hd0).
  - unfold max_of. cbn [after_event set_trace d_options]. rewrite (fr_options _ _ _ F). by split.
  - rewrite guesses_app, (frame_guesses _ _ _ F). unfold guesses at 2. simpl.
    destruct (_ && _); unfold zlen; simpl; lia.
Qed.

(** ** The connection *)

Lemma counted_frame b s s' :
  frame b s s' -> dialogue s' -> a_kbdintctxt (d_auth s') = a_kbdintctxt (d_auth s) -> counted s -> counted s'.
Proof.
  intros F Hd' Hk []. constructor; rewrite ?(fr_failures _ _ _ F), ?(fr_attempt _ _ _ F), ?(fr_scf _ _ _ F),
    ?(frame_guesses _ _ _ F), ?Hk; try done. unfold max_of. by rewrite (fr_options _ _ _ F).
Qed.
Lemma counted_strict s s' : frame true s s' -> counted s -> counted s'.
Proof.
  intros F Hc. eapply counted_frame; [exact F| |by apply (fr_strict _ _ _ F)|done].
  apply (strict_dialogue one_device device_marked _ _ F), Hc.
Qed.
Lemma counted_step {Y} (m : proc Y) s : Framed true m -> counted s -> outcome (m s).
Proof.
  intros Hm Hc. specialize (Hm s). destruct (m s) as [[x|c] s1]; cbn [snd] in Hm.
  - right. by eapply counted_strict.
  - by eapply bounded_frame, counted_bounded.
Qed.

Lemma service_outcome s : counted s -> outcome (do_service_request A s).
Proof.
  intros Hc. pose proof (counted_bounded s Hc) as Hb. unfold do_service_request.
  apply (outcome_bind true _ _ s); [apply _|done|done|]. intros service s1 _ F1.
  apply (outcome_bind true _ _ s); [apply _|done|done|]. intros [] s2 _ F2. clear F1 s1.
  apply counted_strict in F2; [|done]. unfold bind at 1, get_state at 1. destruct (_ && _).
  - unfold bind at 1, dispatch_set, update at 1. apply counted_step; [framed|]. by destruct F2.
  - apply counted_step; [framed|done].
Qed.

Lemma handler_outcome fn type seq s :
  counted s -> outcome (call_handler A session_id2 datafellows use_privsep privsep_uid fn type seq s).
Proof.
  intros Hc. destruct fn; simpl.
  - by apply counted_step; [framed|].
  - by right.
  - by apply service_outcome.
  - by apply request_outcome.
  - by apply response_outcome.
Qed.

Abbreviation run := (ssh_dispatch_run (S := sshd sshkey) (F := dispatch_fn)
  (H := sshd_host A session_id2 datafellows use_privsep privsep_uid)).

Lemma run_bounded packets : forall s, counted s -> bounded (snd (run true packets s)).
Proof.
  induction packets as [|[[[type seqnr] payload]|c] packets IH]; cbn [ssh_dispatch_run]; intros s Hc;
    pose proof (counted_bounded s Hc) as Hb; [done| |done].
  assert (forall {X Y} (m : proc X) (k : X -> proc Y) s1, Framed true m -> counted s1 ->
    (forall x s2, counted s2 -> bounded (snd (k x s2))) -> bounded (snd (bind m k s1))) as Hstep.
  { intros X Y m k s1 Hm Hc1 Hk. unfold bind. specialize (Hm s1). destruct (m s1) as [[x|c] s2]; cbn [snd] in *.
    - by eapply Hk, counted_strict.
    - by eapply bounded_frame, counted_bounded. }
  apply Hstep; [apply framed_incoming|done|]. intros [] s1 Hc1. cbn [negb andb].
  unfold bind at 1, dispatch_packet, bind at 1, get_state at 1.
  match goal with |- context [if ?c then handler_of _ _ else None] =>
    destruct (if c then handler_of type (host_table s1) else None) as [fn|] end.
  2: { pose proof (framed_pkt_disconnect A true (cstr "protocol error: rcvd type " ++ cstr (pretty type)) s1) as F.
       cbn [host_disconnect sshd_host]. unfold bind at 1.
       destruct (sshpkt_disconnect _ _ s1) as [[x|c] s2]; by eapply bounded_frame, counted_bounded. }
  destruct (negb (host_skip s1 =? 0)).
  - unfold bind at 1, host_set_skip at 1. cbn. apply IH. by destruct Hc1.
  - unfold bind at 1. unfold host_call at 1. cbn [sshd_host].
    pose proof (handler_outcome fn type seqnr s1 Hc1) as Ho.
    destruct (call_handler _ _ _ _ _ fn type seqnr s1) as [[[]|c] s2]; [|done].
    cbn [outcome] in Ho. unfold bind, ret, get_state. cbn [andb].
    destruct (host_done s2) eqn:Hd; [destruct Ho as [[_ ?]|?]; [done|by apply counted_bounded]|].
    destruct Ho as [[Hs _]|Ho]; [|by apply IH]. unfold host_done in Hd. cbn in Hd. congruence.
Qed.

(** C5. With one device of keyboard-interactive a client gets to test at most
    MaxAuthTries passwords and answers that are wrong, and one more, in a
    connection - whatever it sends, and however the connection ends. *)
Theorem auth_guesses_bounded packets s0 r s :
  fresh s0 -> one_device (d_kbdint_devices s0) ->
  do_authentication2 A session_id2 datafellows use_privsep privsep_uid packets s0 = (r, s) ->
  guesses (d_trace s) <= Z.max 0 (o_max_authtries (d_options s)) + 1.
Proof.
  intros (H1&H2&H3&H4&H5&H6&_&H7&_) Hone E. unfold do_authentication2, dispatch_run in E.
  unfold bind at 1, update at 1 in E. unfold bind at 1, dispatch_set, update at 1 in E.
  match type of E with context [run true packets ?t] => set (s2 := t) in E end.
  assert (counted s2) as Hc.
  { constructor; simpl; rewrite ?H2, ?H5, ?H6, ?H7; try done. split; [done|]. simpl. by rewrite H5. }
  apply (run_bounded packets) in Hc. destruct (run true packets s2) as [[fin|c] s3]; by injection E as <- <-.
Qed.
End guess.

(** ** An instance: six wrong passwords and the connection is over *)

Definition six_guesses : list (result packet) := demo_service :: replicate 8 (demo_password "guess").
Definition thrown_out : sshd unit := snd (demo_run [] ["pam"] six_guesses).

Lemma six_guesses_eq : demo_run [] ["pam"] six_guesses = (Err EXIT, thrown_out).
Proof. vm_compute. reflexivity. Qed.
Lemma six_guesses_options : o_max_authtries (d_options thrown_out) = 6.
Proof. vm_compute. reflexivity. Qed.
Lemma six_guesses_counted : guesses (d_trace thrown_out) = 6.
Proof. vm_compute. reflexivity. Qed.

#[local] Opaque do_authentication2.
Lemma auth_guesses_bounded_witness : exists s,
  demo_run [] ["pam"] six_guesses = (Err EXIT, s) /\ guesses (d_trace s) = 6 /\ guesses (d_trace s) <= 7.
Proof.
  exists thrown_out. split; [exact six_guesses_eq|]. split; [exact six_guesses_counted|].
  pose proof (auth_guesses_bounded test_alloc (HW := demo_world (demo_options [])) (HU := demo_userkey)
    (cstr "session") 0 false 0 six_guesses (demo_start (demo_options []) ["pam"]) (Err EXIT) thrown_out) as P.
  rewrite six_guesses_options in P. apply P.
  - split_and!; try reflexivity. apply Forall_cons. split; [|constructor].
    repeat (apply Forall_cons; split; [split; discriminate|]). constructor.
  - unfold one_device. simpl. lia.
  - pose proof six_guesses_eq as E. unfold demo_run at 1 in E. exact E.
Defined.
#[local] Transparent do_authentication2.

(** ** Two devices

    After a wrong answer the second device is asked, the request stays postponed
    and no failure is counted; a new request starts with the first device again. *)

Definition evade : list (result packet) := [demo_kbdint ""; demo_answer "guess"].
Fixpoint evasions (n : nat) : list (result packet) :=
  match n with O => [] | S n => evade ++ evasions n end.

#[local] Instance demo_host : DispatchHost (sshd unit) dispatch_fn :=
  sshd_host test_alloc (H := demo_world (demo_options [])) (H0 := demo_userkey) (cstr "session") 0 false 0.

(** The state after the first round, with any trace and count of requests. *)
Definition round1 : sshd unit := snd (demo_run [] ["pam"; "skey"] (demo_service :: evade)).
Definition round_at (attempt : positive) (tr : list (event unit)) : sshd unit :=
  set_trace tr (set_authctxt (set_attempt (Z.pos attempt) (d_auth round1)) round1).

(** The process when it reads the first packet. *)
Definition demo_ready : sshd unit :=
  let s := demo_start (demo_options []) ["pam"; "skey"] in
  set_dispatch (ssh_dispatch_set SSH2_MSG_SERVICE_REQUEST (Some input_service_request)
    (ssh_dispatch_init (Some dispatch_protocol_error) (d_dispatch s))) s.

Lemma demo_ready_run packets s :
  ssh_dispatch_run true packets demo_ready = (Ok Waiting, s) ->
  demo_run [] ["pam"; "skey"] packets = (Ok Waiting, s).
Proof.
  intros E. unfold demo_run, do_authentication2, dispatch_run, bind, dispatch_set, update.
  change (set_dispatch _ _) with demo_ready. fold demo_host. by rewrite E.
Qed.
Lemma round1_eq :
  ssh_dispatch_run true (demo_service :: evade) demo_ready = (Ok Waiting, round_at 1 (d_trace round1)).
Proof. vm_compute. reflexivity. Qed.

(** What happens in a later round: each device is set up, asked and its question
    sent; in between the first one gets the answer. *)
Definition round_events : list (event unit) :=
  List.skipn (length (d_trace round1) - 7) (d_trace round1).

Lemma round_again attempt tr :
  ssh_dispatch_run true evade (round_at attempt tr) =
  (Ok Waiting, round_at (attempt + 1) (fold_left (fun t e => t ++ [e]) round_events tr)).
Proof. vm_compute. reflexivity. Qed.

Lemma snocs {T} (ext : list T) : forall l, fold_left (fun t e => t ++ [e]) ext l = l ++ ext.
Proof.
  induction ext as [|e ext IH]; intros l; simpl; [by rewrite app_nil_r|]. by rewrite IH, <- (assoc_L (++)).
Qed.
Lemma round_guess : guesses round_events = 1.
Proof. vm_compute. reflexivity. Qed.
Lemma round1_guess : guesses (d_trace round1) = 1.
Proof. vm_compute. reflexivity. Qed.
Lemma round_failures attempt tr :
  a_failures (d_auth (round_at attempt tr)) = 0 /\ o_max_authtries (d_options (round_at attempt tr)) = 6 /\
  d_trace (round_at attempt tr) = tr.
Proof. vm_compute. done. Qed.

(** Runs compose. *)
Lemma run_app {S F} `{DispatchHost S F} xs ys : forall (s s1 : S),
  ssh_dispatch_run true xs s = (Ok Waiting, s1) ->
  ssh_dispatch_run true (xs ++ ys) s = ssh_dispatch_run true ys s1.
Proof.
  induction xs as [|[[[type seqnr] payload]|c] xs IH]; cbn [ssh_dispatch_run app]; intros s s1 E; [by injection E as ->| |done].
  unfold bind at 1 in E. unfold bind at 1. destruct (host_receive payload s) as [[[]|c] s2]; [|done].
  cbn [negb andb] in *. unfold bind at 1 in E. unfold bind at 1.
  destruct (dispatch_packet type seqnr s2) as [[called|c] s3]; [|done].
  unfold bind, get_state in *. destruct (called && host_done s3); [done|]. by apply IH.
Qed.

Lemma evasions_run n : forall attempt tr, exists attempt' tr',
  ssh_dispatch_run true (evasions n) (round_at attempt tr) = (Ok Waiting, round_at attempt' tr') /\
  guesses tr' = guesses tr + Z.of_nat n.
Proof.
  induction n as [|n IH]; intros attempt tr; cbn [evasions].
  - exists attempt, tr. split; [done|]. lia.
  - rewrite (run_app _ _ _ _ (round_again attempt tr)), snocs.
    destruct (IH (attempt + 1)%positive (tr ++ round_events)) as (a'&tr'&->&Hg).
    exists a', tr'. split; [done|]. rewrite Hg, guesses_app, round_guess. lia.
Qed.

(** With the devices "pam" and "skey" a client tests as many wrong answers as it
    likes in one connection: MaxAuthTries is 6 and no failure is ever counted. *)
Theorem auth_guesses_unbounded n : exists packets s,
  demo_run [] ["pam"; "skey"] packets = (Ok Waiting, s) /\
  a_failures (d_auth s) = 0 /\ o_max_authtries (d_options s) = 6 /\
  guesses (d_trace s) = 1 + Z.of_nat n.
Proof.
  destruct (evasions_run n 1 (d_trace round1)) as (attempt&tr&En&Hg).
  exists ((demo_service :: evade) ++ evasions n), (round_at attempt tr).
  destruct (round_failures attempt tr) as (Hf&Ho&Ht). rewrite round1_guess in Hg. split.
  - apply demo_ready_run. by rewrite (run_app _ _ _ _ round1_eq).
  - rewrite Hf, Ho, Ht. by split_and!.
Qed.
