(* ===== verification/Curve25519.v ===== *)
(** smult_curve25519_ref.c: scalar multiplication on Curve25519, with numbers
    modulo 2^255 - 19 as 32 limbs of eight bits, the last one with some more.

    An array of 64 is two numbers, as in the source. *)

From S2P Require Import Prelude Wire.

(** The loop [u += ..; out[j] = u & 255; u >>= 8;] over what is added. *)
Fixpoint carry_loop (u : Z) (terms : list Z) : list Z * Z :=
  match terms with
  | [] => ([], u)
  | t :: terms =>
      let u := u32 (u + t) in
      let '(out, u') := carry_loop (Z.shiftr u 8) terms in (Z.land u 255 :: out, u')
  end.

(** [a[j]] *)
Definition limb (a : list Z) (j : nat) : Z := nth j a 0.

Definition add (a b : list Z) : list Z :=
  let '(out, u) := carry_loop 0 (zip_with (fun x y => u32 (x + y)) (take 31 a) (take 31 b)) in
  out ++ [u32 (u + u32 (limb a 31 + limb b 31))].

Definition sub (a b : list Z) : list Z :=
  let '(out, u) :=
    carry_loop 218 (zip_with (fun x y => u32 (u32 (x + 65280) - y)) (take 31 a) (take 31 b)) in
  out ++ [u32 (u + u32 (limb a 31 - limb b 31))].

(** The second half of [squeeze] and of [mult121665]: [u] is the sum that the last
    limb is made of, [a] the limbs before it. *)
Definition fold_top (a : list Z) (u : Z) : list Z :=
  let '(out, u') := carry_loop (u32 (19 * Z.shiftr u 7)) a in
  out ++ [u32 (u' + Z.land u 127)].

Definition squeeze (a : list Z) : list Z :=
  let '(out, u) := carry_loop 0 (take 31 a) in
  fold_top out (u32 (u + limb a 31)).

Definition minusp : list Z := 19 :: replicate 30 0 ++ [128].

Definition freeze (a : list Z) : list Z :=
  let aorig := a in
  let a := add a minusp in
  let negative := u32 (- Z.land (Z.shiftr (limb a 31) 7) 1) in
  zip_with (fun o x => Z.lxor x (Z.land negative (Z.lxor o x))) aorig a.

Definition mult_column (a b : list Z) (i : nat) : Z :=
  let u := fold_left (fun u j => u32 (u + u32 (limb a j * limb b (i - j)))) (seq 0 (S i)) 0 in
  fold_left (fun u j => u32 (u + u32 (u32 (38 * limb a j) * limb b (i + 32 - j)))) (seq (S i) (31 - i)) u.

Definition mult (a b : list Z) : list Z := squeeze (mult_column a b <$> seq 0 32).

Definition mult121665 (a : list Z) : list Z :=
  let '(out, u) := carry_loop 0 ((fun x => u32 (121665 * x)) <$> take 31 a) in
  fold_top out (u32 (u + u32 (121665 * limb a 31))).

(** [j < i - j] for the first (i + 1) / 2 values, [j < i + 32 - j] up to (i + 33) / 2. *)
Definition square_column (a : list Z) (i : nat) : Z :=
  let u := fold_left (fun u j => u32 (u + u32 (limb a j * limb a (i - j)))) (seq 0 ((i + 1) / 2)) 0 in
  let u := fold_left (fun u j => u32 (u + u32 (u32 (38 * limb a j) * limb a (i + 32 - j))))
             (seq (S i) ((i + 33) / 2 - S i)) u in
  let u := u32 (u * 2) in
  if Nat.even i then
    let u := u32 (u + u32 (limb a (i / 2) * limb a (i / 2))) in
    u32 (u + u32 (u32 (38 * limb a (i / 2 + 16)) * limb a (i / 2 + 16)))
  else u.

Definition square (a : list Z) : list Z := squeeze (square_column a <$> seq 0 32).

(** [p] and [q] *)
Definition select (r s : list Z) (b : Z) : list Z * list Z :=
  let bminus1 := u32 (b - 1) in
  let t := zip_with (fun x y => Z.land bminus1 (Z.lxor x y)) r s in
  (zip_with Z.lxor s t, zip_with Z.lxor r t).

Abbreviation lo a := (take 32 a).
Abbreviation hi a := (drop 32 a).

(** One round of [mainloop], for the bit [b]. *)
Definition round (work xzm xzm1 : list Z) (b : Z) : list Z * list Z :=
  let '(xzmb, xzm1b) := select xzm xzm1 b in
  let a0 := add (lo xzmb) (hi xzmb) ++ sub (lo xzmb) (hi xzmb) in
  let a1 := add (lo xzm1b) (hi xzm1b) ++ sub (lo xzm1b) (hi xzm1b) in
  let b0 := square (lo a0) ++ square (hi a0) in
  let b1 := mult (lo a1) (hi a0) ++ mult (hi a1) (lo a0) in
  let c1 := add (lo b1) (hi b1) ++ sub (lo b1) (hi b1) in
  let r := square (hi c1) in
  let s := sub (lo b0) (hi b0) in
  let t := mult121665 s in
  let u := add t (lo b0) in
  let xznb := mult (lo b0) (hi b0) ++ mult s u in
  let xzn1b := square (lo c1) ++ mult r work in
  select xznb xzn1b b.

(** Bit [pos] of [e]. *)
Definition scalar_bit (e : bytes) (pos : nat) : Z :=
  Z.land (Z.shiftr (nth (pos / 8) e 0) (Z.of_nat (pos mod 8))) 1.

(** The rounds for the bits below [pos]. *)
Fixpoint rounds (work : list Z) (e : bytes) (pos : nat) (xzm xzm1 : list Z) : list Z :=
  match pos with
  | O => xzm
  | S pos =>
      let '(xzm, xzm1) := round work xzm xzm1 (scalar_bit e pos) in rounds work e pos xzm xzm1
  end.

Definition mainloop (work : list Z) (e : bytes) : list Z :=
  rounds work e 255 (1 :: replicate 63 0) (work ++ 1 :: replicate 31 0).

(** [n] times two squares. *)
Fixpoint squares (n : nat) (t : list Z) : list Z :=
  match n with O => t | S n => squares n (square (square t)) end.

Definition recip (z : list Z) : list Z :=
  let z2 := square z in
  let t1 := square z2 in
  let t0 := square t1 in
  let z9 := mult t0 z in
  let z11 := mult z9 z2 in
  let t0 := square z11 in
  let z2_5_0 := mult t0 z9 in
  let t0 := square z2_5_0 in
  let t1 := square t0 in
  let t0 := square t1 in
  let t1 := square t0 in
  let t0 := square t1 in
  let z2_10_0 := mult t0 z2_5_0 in
  let t0 := square z2_10_0 in
  let t1 := square t0 in
  let t1 := squares 4 t1 in
  let z2_20_0 := mult t1 z2_10_0 in
  let t0 := square z2_20_0 in
  let t1 := square t0 in
  let t1 := squares 9 t1 in
  let t0 := mult t1 z2_20_0 in
  let t1 := square t0 in
  let t0 := square t1 in
  let t0 := squares 4 t0 in
  let z2_50_0 := mult t0 z2_10_0 in
  let t0 := square z2_50_0 in
  let t1 := square t0 in
  let t1 := squares 24 t1 in
  let z2_100_0 := mult t1 z2_50_0 in
  let t1 := square z2_100_0 in
  let t0 := square t1 in
  let t0 := squares 49 t0 in
  let t1 := mult t0 z2_100_0 in
  let t0 := square t1 in
  let t1 := square t0 in
  let t1 := squares 24 t1 in
  let t0 := mult t1 z2_50_0 in
  let t1 := square t0 in
  let t0 := square t1 in
  let t1 := square t0 in
  let t0 := square t1 in
  let t1 := square t0 in
  mult t1 z11.

(** The scalar with the bits that are always set or cleared. *)
Definition clamp (n : bytes) : bytes :=
  let e := <[0%nat := Z.land (nth 0 n 0) 248]> n in
  let e := <[31%nat := Z.land (nth 31 e 0) 127]> e in
  <[31%nat := Z.lor (nth 31 e 0) 64]> e.

Definition crypto_scalarmult_curve25519 (n p : bytes) : bytes :=
  let e := clamp (take 32 n) in
  let work := mainloop (take 32 p) e in
  let zinv := recip (hi work) in
  let out := freeze (mult (lo work) zinv) in
  (fun x => u8 x) <$> out.
