(* ===== verification/X25519.v ===== *)
(** X25519 of RFC 7748, and that smult_curve25519_ref.c computes it: every number
    the code handles is the residue it stands for, and nothing overflows. *)

From S2P Require Import Prelude Wire Curve25519.

(** ** X25519 of RFC 7748 *)

Definition p25519 : Z := 2 ^ 255 - 19.
Definition a24 : Z := 121665.

Definition f_add (x y : Z) : Z := (x + y) mod p25519.
Definition f_sub (x y : Z) : Z := (x - y) mod p25519.
Definition f_mul (x y : Z) : Z := (x * y) mod p25519.

Fixpoint f_pow_pos (x : Z) (n : positive) : Z :=
  match n with
  | xH => x mod p25519
  | xO n => let y := f_pow_pos x n in f_mul y y
  | xI n => let y := f_pow_pos x n in f_mul x (f_mul y y)
  end.
Definition f_inv (x : Z) : Z := match p25519 - 2 with Z.pos n => f_pow_pos x n | _ => 0 end.

(** The operations of one round, on (x_2, z_2, x_3, z_3). *)
Definition ladder_step (x1 : Z) (v : Z * Z * (Z * Z)) : Z * Z * (Z * Z) :=
  let '((x2, z2), (x3, z3)) := v in
  let a := f_add x2 z2 in
  let aa := f_mul a a in
  let b := f_sub x2 z2 in
  let bb := f_mul b b in
  let e := f_sub aa bb in
  let c := f_add x3 z3 in
  let d := f_sub x3 z3 in
  let da := f_mul d a in
  let cb := f_mul c b in
  let dacb := f_add da cb in
  let dmcb := f_sub da cb in
  ((f_mul aa bb, f_mul e (f_add aa (f_mul a24 e))), (f_mul dacb dacb, f_mul x1 (f_mul dmcb dmcb))).

Definition cswap {T} (swap : bool) (v : T * T) : T * T := if swap then (snd v, fst v) else v.

(** The loop, for the bits below [t] of the scalar [k]; the swap of a round is
    undone in the next one. *)
Fixpoint ladder (x1 k : Z) (t : nat) (v : Z * Z * (Z * Z)) (swap : bool) : Z * Z :=
  match t with
  | O => fst (cswap swap v)
  | S t =>
      let k_t := Z.testbit k (Z.of_nat t) in
      ladder x1 k t (ladder_step x1 (cswap (xorb swap k_t) v)) k_t
  end.

(** [decodeScalar25519] *)
Definition decode_scalar (k : bytes) : Z :=
  Z.lor (Z.land (le_value k) (2 ^ 254 - 8)) (2 ^ 254).

(** For the u-coordinate as a number, with no bit masked. *)
Definition X25519 (k u : Z) : Z :=
  let '(x2, z2) := ladder (u mod p25519) k 255 ((1, 0), (u mod p25519, 1)) false in
  f_mul x2 (f_inv z2).

(** ** Residues *)

Definition eqp (x y : Z) : Prop := x mod p25519 = y mod p25519.
#[local] Infix "≡" := eqp (at level 70).

#[export] Instance eqp_equiv : Equivalence eqp.
Proof. split; unfold eqp; [done|by intros ? ?|]. intros x y z -> ->. done. Qed.
#[export] Instance eqp_add : Proper (eqp ==> eqp ==> eqp) Z.add.
Proof. intros x y Hx z w Hz. unfold eqp in *. by rewrite Z.add_mod, Hx, Hz, <- Z.add_mod. Qed.
#[export] Instance eqp_sub : Proper (eqp ==> eqp ==> eqp) Z.sub.
Proof. intros x y Hx z w Hz. unfold eqp in *. by rewrite Zminus_mod, Hx, Hz, <- Zminus_mod. Qed.
#[export] Instance eqp_mul : Proper (eqp ==> eqp ==> eqp) Z.mul.
Proof. intros x y Hx z w Hz. unfold eqp in *. by rewrite Z.mul_mod, Hx, Hz, <- Z.mul_mod. Qed.
Lemma eqp_eq x y : x = y -> x ≡ y.
Proof. by intros ->. Qed.
Lemma eqp_mod x : x mod p25519 ≡ x.
Proof. unfold eqp. by rewrite Z.mod_mod. Qed.
Lemma eqp_multiple x k : x + k * p25519 ≡ x.
Proof. unfold eqp. apply Z_mod_plus_full. Qed.

(** ** The carry loop *)

Lemma carry_loop_spec terms : forall u, 0 <= u <= 2 ^ 31 -> Forall (fun t => 0 <= t < 2 ^ 31) terms ->
  let '(out, u') := carry_loop u terms in
  length out = length terms /\ Bytes out /\ 0 <= u' <= 2 ^ 31 /\
  le_value out + 256 ^ zlen terms * u' = u + le_value terms.
Proof.
  induction terms as [|t terms IH]; intros u Hu Ht; cbn [carry_loop].
  - split_and!; [done|constructor|lia|lia|]. cbn [le_value]. rewrite (@zlen_nil Z). lia.
  - apply Forall_cons in Ht as [Ht Hts]. rewrite wrap_small by lia. rewrite Z.shiftr_div_pow2 by lia.
    assert (0 <= (u + t) / 2 ^ 8 <= 2 ^ 31) as Hu'.
    { split; [apply Z.div_pos; lia|]. transitivity (2 ^ 32 / 2 ^ 8); [apply Z.div_le_mono; lia|done]. }
    specialize (IH _ Hu' Hts). destruct (carry_loop _ terms) as [out u']. destruct IH as (Hl&Hb&Hu2&Hv).
    rewrite land_255. split_and!; [simpl; lia| |lia|lia|].
    + constructor; [unfold in_range; apply Z.mod_pos_bound; lia|done].
    + cbn [le_value]. rewrite zlen_cons, Z.pow_add_r by (pose proof (zlen_nonneg terms); lia).
      change (2 ^ 8) with 256 in *. pose proof (Z.div_mod (u + t) 256 ltac:(lia)). lia.
Qed.

(** A number whose last limb is at most [B]. *)
Record ok (B : Z) (a : list Z) : Prop := {
  ok_length : length a = 32%nat;
  ok_bytes : Bytes (take 31 a);
  ok_top : 0 <= limb a 31 <= B
}.

Lemma split_limbs (a : list Z) : length a = 32%nat -> a = take 31 a ++ [limb a 31].
Proof. intros Hl. do 33 (destruct a as [|? a]; try done). Qed.
Lemma value_split a : length a = 32%nat -> le_value a = le_value (take 31 a) + 256 ^ 31 * limb a 31.
Proof.
  intros Hl. rewrite (split_limbs a Hl) at 1. rewrite le_value_app. unfold zlen. rewrite length_take, Hl.
  cbn [le_value]. change (Z.of_nat (31 `min` 32)) with 31. lia.
Qed.
Lemma ok_build B out top : length out = 31%nat -> Bytes out -> 0 <= top <= B -> ok B (out ++ [top]).
Proof.
  intros Hl Hb Ht. constructor.
  - rewrite length_app, Hl. done.
  - by rewrite take_app_length' by done.
  - unfold limb. by rewrite app_nth2, Hl by lia.
Qed.
Lemma value_build out top : length out = 31%nat -> le_value (out ++ [top]) = le_value out + 256 ^ 31 * top.
Proof. intros Hl. rewrite le_value_app. unfold zlen. rewrite Hl. cbn [le_value]. change (Z.of_nat 31) with 31. lia. Qed.
Lemma low_range B a : ok B a -> 0 <= le_value (take 31 a) < 256 ^ 31.
Proof.
  intros [Hl Hb _]. apply le_value_range in Hb. unfold zlen in Hb. by rewrite length_take, Hl in Hb.
Qed.
Lemma ok_weaken B B' a : ok B a -> B <= B' -> ok B' a.
Proof. intros [] ?. constructor; [done..|lia]. Qed.

(** The terms that [add] and [sub] hand to the loop. *)
Lemma add_terms a b : length a = length b -> Bytes a -> Bytes b ->
  let terms := zip_with (fun x y => u32 (x + y)) a b in
  Forall (fun t => 0 <= t < 2 ^ 31) terms /\ le_value terms = le_value a + le_value b.
Proof.
  intros Hl Ha. revert b Hl. induction Ha as [|x a Hx Ha IH]; intros [|y b] Hl Hb; try done.
  apply Forall_cons in Hb as [Hy Hb]. destruct (IH b ltac:(simpl in Hl; lia) Hb) as [Ht Hv].
  unfold in_range in *. cbn [zip_with le_value]. rewrite wrap_small by lia. rewrite Hv. split; [|lia].
  constructor; [lia|done].
Qed.
Lemma sub_terms a b : length a = length b -> Bytes a -> Bytes b ->
  let terms := zip_with (fun x y => u32 (u32 (x + 65280) - y)) a b in
  Forall (fun t => 0 <= t < 2 ^ 31) terms /\
  le_value terms = le_value a - le_value b + 256 * (256 ^ zlen a - 1).
Proof.
  intros Hl Ha. revert b Hl. induction Ha as [|x a Hx Ha IH]; intros [|y b] Hl Hb; try done.
  apply Forall_cons in Hb as [Hy Hb]. destruct (IH b ltac:(simpl in Hl; lia) Hb) as [Ht Hv].
  unfold in_range in *. cbn [zip_with le_value]. rewrite (wrap_small 32 (x + 65280)), wrap_small by lia.
  split; [constructor; [lia|done]|].
  rewrite Hv, zlen_cons, Z.pow_add_r by (pose proof (zlen_nonneg a); lia). lia.
Qed.

Lemma low_length B a : ok B a -> length (take 31 a) = 31%nat.
Proof. intros [Hl _ _]. by rewrite length_take, Hl. Qed.

Lemma add_ok A B a b : ok A a -> ok B b -> A <= 2 ^ 20 -> B <= 2 ^ 20 ->
  ok (A + B + 1) (add a b) /\ le_value (add a b) = le_value a + le_value b.
Proof.
  intros Ha Hb HA HB. pose proof (low_length A a Ha) as Hla. pose proof (low_length B b Hb) as Hlb.
  destruct (add_terms (take 31 a) (take 31 b)) as [Ht Hv]; [congruence|apply Ha|apply Hb|].
  unfold add. set (terms := zip_with _ _ _) in *.
  assert (zlen terms = 31) as Hz by (unfold zlen, terms; by rewrite length_zip_with, Hla, Hlb).
  pose proof (carry_loop_spec terms 0 ltac:(lia) Ht) as H. destruct (carry_loop 0 terms) as [out u].
  destruct H as (Hl&Hby&Hu&He). rewrite Hz in He. unfold zlen in Hz.
  assert (length out = 31%nat) as Hlo by lia.
  pose proof (low_range A a Ha). pose proof (low_range B b Hb). pose proof (le_value_range out Hby) as Ho.
  unfold zlen in Ho. rewrite Hlo in Ho. change (Z.of_nat 31) with 31 in Ho.
  assert (u <= 1) as Hu1 by nia. destruct Ha as [Hla' _ Hta], Hb as [Hlb' _ Htb].
  rewrite (wrap_small 32 (limb a 31 + limb b 31)), wrap_small by lia. split; [apply ok_build; [done..|lia]|].
  rewrite value_build, (value_split a), (value_split b) by done. lia.
Qed.

Lemma sub_ok A B a b : ok A a -> ok B b -> A <= 2 ^ 20 -> B <= 254 ->
  ok (A + 256) (sub a b) /\ le_value (sub a b) = le_value a - le_value b + 2 * p25519.
Proof.
  intros Ha Hb HA HB. pose proof (low_length A a Ha) as Hla. pose proof (low_length B b Hb) as Hlb.
  destruct (sub_terms (take 31 a) (take 31 b)) as [Ht Hv]; [congruence|apply Ha|apply Hb|].
  unfold sub. set (terms := zip_with _ _ _) in *.
  assert (zlen (take 31 a) = 31) as Hza by (unfold zlen; by rewrite Hla).
  assert (zlen terms = 31) as Hz by (unfold zlen, terms; by rewrite length_zip_with, Hla, Hlb).
  pose proof (carry_loop_spec terms 218 ltac:(lia) Ht) as H. destruct (carry_loop 218 terms) as [out u].
  destruct H as (Hl&Hby&Hu&He). rewrite Hz in He. rewrite Hza in Hv. unfold zlen in Hz.
  assert (length out = 31%nat) as Hlo by lia.
  pose proof (low_range A a Ha). pose proof (low_range B b Hb). pose proof (le_value_range out Hby) as Ho.
  unfold zlen in Ho. rewrite Hlo in Ho. change (Z.of_nat 31) with 31 in Ho.
  assert (254 <= u <= 256) as Hu1 by nia. destruct Ha as [Hla' _ Hta], Hb as [Hlb' _ Htb].
  assert (u32 (u + u32 (limb a 31 - limb b 31)) = u + (limb a 31 - limb b 31)) as ->.
  { unfold wrap. rewrite Zplus_mod_idemp_r. apply Z.mod_small. lia. }
  split; [apply ok_build; [done..|lia]|].
  rewrite value_build, (value_split a), (value_split b) by done. unfold p25519. change (2 ^ 255) with (128 * 256 ^ 31). lia.
Qed.

(** [fold_top] replaces 2^255 by 19. *)
Lemma fold_top_ok out u : length out = 31%nat -> Bytes out -> 0 <= u <= 2 ^ 31 ->
  ok 128 (fold_top out u) /\ le_value (fold_top out u) ≡ le_value out + 256 ^ 31 * u.
Proof.
  intros Hl Hb Hu. unfold fold_top. rewrite Z.shiftr_div_pow2 by lia. change (2 ^ 7) with 128.
  change 127 with (2 ^ 7 - 1). rewrite land_ones_mod by lia. change (2 ^ 7) with 128.
  pose proof (Z.div_mod u 128 ltac:(lia)) as Hdm. pose proof (Z.mod_pos_bound u 128 ltac:(lia)) as Hm.
  assert (0 <= u / 128 <= 2 ^ 24) as Hd by (split; [apply Z.div_pos; lia|apply Z.div_le_upper_bound; lia]).
  rewrite wrap_small by lia.
  pose proof (carry_loop_spec out (19 * (u / 128)) ltac:(lia)) as H.
  destruct (carry_loop _ out) as [out2 u2]. destruct H as (Hl2&Hb2&Hu2&He).
  { eapply Forall_impl; [exact Hb|]. unfold in_range. intros. lia. }
  pose proof (le_value_range out Hb) as Ho. pose proof (le_value_range out2 Hb2) as Ho2.
  unfold zlen in *. rewrite Hl2, Hl in *. change (Z.of_nat 31) with 31 in *.
  assert (u2 <= 1) as Hu21 by nia. rewrite wrap_small by lia.
  split; [apply ok_build; [done..|lia]|]. rewrite value_build by done.
  rewrite <- (eqp_multiple (le_value out2 + _) (u / 128)). unfold p25519.
  change (2 ^ 255) with (128 * 256 ^ 31). apply eqp_eq. lia.
Qed.

Lemma squeeze_ok a : length a = 32%nat -> Forall (fun x => 0 <= x < 2 ^ 30) a ->
  ok 128 (squeeze a) /\ le_value (squeeze a) ≡ le_value a.
Proof.
  intros Hl Ha. unfold squeeze. pose proof (carry_loop_spec (take 31 a) 0 ltac:(lia)) as H.
  destruct (carry_loop 0 (take 31 a)) as [out u]. destruct H as (Hlo&Hb&Hu&He).
  { apply Forall_take. eapply Forall_impl; [exact Ha|]. intros. cbv beta in *. lia. }
  assert (0 <= limb a 31 < 2 ^ 30) as Ht.
  { unfold limb. rewrite Forall_nth in Ha. apply Ha. lia. }
  assert (length out = 31%nat) as Hlo' by (rewrite Hlo, length_take, Hl; done).
  assert (0 <= le_value (take 31 a) < 2 ^ 30 * 256 ^ 31) as Hv.
  { clear -Hl Ha. assert (forall l, Forall (fun x => 0 <= x < 2 ^ 30) l ->
      0 <= le_value l <= (2 ^ 30 - 1) * (256 ^ zlen l - 1)) as H.
    { induction 1 as [|x l Hx Hxs IH]; [by simpl|]. cbn [le_value]. rewrite zlen_cons, Z.pow_add_r by (pose proof (zlen_nonneg l); lia).
      change (256 ^ 1) with 256. lia. }
    specialize (H (take 31 a) (Forall_take _ _ _ Ha)). unfold zlen in H. rewrite length_take, Hl in H.
    change (Z.of_nat (31 `min` 32)) with 31 in H. lia. }
  pose proof (le_value_range out Hb) as Ho. unfold zlen in *. rewrite Hlo' in Ho. rewrite length_take, Hl in He.
  change (Z.of_nat (31 `min` 32)) with 31 in He. change (Z.of_nat 31) with 31 in Ho.
  assert (u < 2 ^ 30) as Hu' by nia. rewrite wrap_small by lia.
  destruct (fold_top_ok out (u + limb a 31)) as [H1 H2]; [done|done|lia|]. split; [done|].
  rewrite H2, (value_split a) by done. apply eqp_eq. lia.
Qed.

Lemma mult121665_ok a : ok 511 a -> ok 128 (mult121665 a) /\ le_value (mult121665 a) ≡ a24 * le_value a.
Proof.
  intros Ha. pose proof (low_length _ a Ha) as Hla. destruct Ha as [Hl Hb Ht]. unfold mult121665.
  assert (forall l, Bytes l -> let terms := (fun x => u32 (121665 * x)) <$> l in
    Forall (fun t => 0 <= t < 2 ^ 31) terms /\ le_value terms = 121665 * le_value l) as Hterms.
  { induction 1 as [|x l Hx Hl' [IH1 IH2]]; [done|]. unfold in_range in Hx. cbv zeta.
    rewrite fmap_cons. cbn [le_value]. rewrite wrap_small by lia. split; [constructor; [lia|done]|]. lia. }
  destruct (Hterms _ Hb) as [Hr Hv]. pose proof (carry_loop_spec _ 0 ltac:(lia) Hr) as H.
  destruct (carry_loop _ _) as [out u]. destruct H as (Hlo&Hby&Hu&He).
  rewrite zlen_fmap, Hv in He. rewrite length_fmap in Hlo. unfold zlen in He. rewrite Hla in *.
  change (Z.of_nat 31) with 31 in He. pose proof (le_value_range _ Hb) as Hbv. unfold zlen in Hbv. rewrite Hla in Hbv.
  change (Z.of_nat 31) with 31 in Hbv. pose proof (le_value_range _ Hby) as Hov.
  assert (u <= 121665) as Hu' by nia. rewrite (wrap_small 32 (121665 * _)), wrap_small by lia.
  destruct (fold_top_ok out (u + 121665 * limb a 31)) as [H1 H2]; [done|done|lia|]. split; [done|].
  rewrite H2, (value_split a) by done. unfold a24. apply eqp_eq. lia.
Qed.

(** ** Products *)

Fixpoint zsum (f : nat -> Z) (n : nat) : Z :=
  match n with O => 0 | S n => zsum f n + f n end.

Lemma zsum_ext f g n : (forall i, (i < n)%nat -> f i = g i) -> zsum f n = zsum g n.
Proof. induction n as [|n IH]; intros H; simpl; [done|]. rewrite IH by (intros; apply H; lia). by rewrite H by lia. Qed.
Lemma zsum_app f n m : zsum f (n + m) = zsum f n + zsum (fun i => f (n + i)%nat) m.
Proof. induction m as [|m IH]; [rewrite Nat.add_0_r; simpl; lia|]. rewrite Nat.add_succ_r. simpl. rewrite IH. lia. Qed.
Lemma zsum_split f n m k : n = (m + k)%nat -> zsum f n = zsum f m + zsum (fun i => f (m + i)%nat) k.
Proof. intros ->. apply zsum_app. Qed.
Lemma zsum_add f g n : zsum (fun i => f i + g i) n = zsum f n + zsum g n.
Proof. induction n as [|n IH]; simpl; [done|]. rewrite IH. lia. Qed.
Lemma zsum_scale c f n : zsum (fun i => c * f i) n = c * zsum f n.
Proof. induction n as [|n IH]; simpl; [lia|]. rewrite IH. lia. Qed.
Lemma zsum_swap f n m : zsum (fun i => zsum (fun j => f i j) m) n = zsum (fun j => zsum (fun i => f i j) n) m.
Proof.
  induction n as [|n IH]; simpl.
  - induction m as [|m IHm]; simpl; lia.
  - by rewrite IH, zsum_add.
Qed.
Lemma zsum_eqp f g n : (forall i, (i < n)%nat -> f i ≡ g i) -> zsum f n ≡ zsum g n.
Proof. induction n as [|n IH]; intros H; simpl; [done|]. rewrite IH by (intros; apply H; lia). by rewrite H by lia. Qed.
Lemma zsum_bound f n M : (forall i, (i < n)%nat -> 0 <= f i <= M) -> 0 <= zsum f n <= Z.of_nat n * M.
Proof.
  induction n as [|n IH]; intros H; cbn [zsum]; [lia|]. specialize (IH ltac:(intros; apply H; lia)).
  pose proof (H n ltac:(lia)). lia.
Qed.

Lemma value_zsum a : le_value a = zsum (fun i => 256 ^ Z.of_nat i * limb a i) (length a).
Proof.
  induction a as [|x a IH]; [done|]. cbn [le_value length]. change (S (length a)) with (1 + length a)%nat.
  rewrite zsum_app, IH. cbn [zsum]. rewrite <- zsum_scale. change (256 ^ Z.of_nat 0) with 1. unfold limb at 2. cbn [nth].
  replace (0 + 1 * x) with x by lia. f_equal. apply zsum_ext. intros i _.
  rewrite Nat2Z.inj_add, Z.pow_add_r by lia. change (256 ^ Z.of_nat 1) with 256. unfold limb. cbn [nth Nat.add]. lia.
Qed.

(** The loops over a column, without the wrap-around. *)
Lemma fold_zsum g s n : forall u, in_range 32 u ->
  fold_left (fun u j => u32 (u + u32 (g j))) (seq s n) u = u32 (u + zsum (fun k => g (s + k)%nat) n).
Proof.
  revert s. induction n as [|n IH]; intros s u Hu.
  - simpl. rewrite Z.add_0_r. by rewrite wrap_small.
  - cbn [seq fold_left]. rewrite IH by (apply wrap_range; lia). change (S n) with (1 + n)%nat.
    rewrite zsum_app. cbn [zsum]. rewrite Nat.add_0_r.
    rewrite (zsum_ext (fun i => g (s + (1 + i))%nat) (fun i => g (S s + i)%nat)) by (intros; f_equal; lia).
    generalize (zsum (fun i => g (S s + i)%nat) n) as S. intros S. unfold wrap. rewrite Zplus_mod_idemp_l.
    replace (u + g s mod 2 ^ 32 + S) with (g s mod 2 ^ 32 + (u + S)) by lia.
    rewrite Zplus_mod_idemp_l. f_equal. lia.
Qed.

(** Column [i] of a product modulo 2^256 - 38. *)
Definition turned (b : list Z) (i j : nat) : Z :=
  if (j <=? i)%nat then limb b (i - j) else 38 * limb b (i + 32 - j).
Definition column (a b : list Z) (i : nat) : Z := zsum (fun j => limb a j * turned b i j) 32.

Lemma wrap_mul_l x y : u32 (u32 x * y) = u32 (x * y).
Proof. unfold wrap. apply Zmult_mod_idemp_l. Qed.
Lemma fold_left_ext {X} (f g : X -> nat -> X) l x : (forall x j, f x j = g x j) -> fold_left f l x = fold_left g l x.
Proof. intros H. revert x. induction l as [|j l IH]; intros x; simpl; [done|]. by rewrite H, IH. Qed.

Lemma wrap_fold g s n x :
  fold_left (fun u j => u32 (u + u32 (g j))) (seq s n) (u32 x) = u32 (x + zsum (fun k => g (s + k)%nat) n).
Proof. rewrite fold_zsum by (apply wrap_range; lia). unfold wrap. apply Zplus_mod_idemp_l. Qed.

Lemma wrap_fold0 g s n :
  fold_left (fun u j => u32 (u + u32 (g j))) (seq s n) 0 = u32 (zsum (fun k => g (s + k)%nat) n).
Proof. apply (wrap_fold g s n 0). Qed.

(** The loops that take the terms beyond the top. *)
Lemma wrap_fold38 a b i s n x :
  fold_left (fun u j => u32 (u + u32 (u32 (38 * limb a j) * limb b (i + 32 - j)))) (seq s n) (u32 x) =
  u32 (x + zsum (fun k => limb a (s + k) * (38 * limb b (i + 32 - (s + k)))) n).
Proof.
  rewrite (fold_left_ext _ (fun u j => u32 (u + u32 (limb a j * (38 * limb b (i + 32 - j)))))).
  - apply wrap_fold.
  - intros u j. rewrite wrap_mul_l. do 2 f_equal. f_equal. lia.
Qed.

Lemma mult_column_wrap a b i : (i < 32)%nat -> mult_column a b i = u32 (column a b i).
Proof.
  intros Hi. unfold mult_column. rewrite wrap_fold0, wrap_fold38. f_equal.
  unfold column. rewrite (zsum_split _ 32 (S i) (31 - i)) by lia. f_equal.
  - apply zsum_ext. intros j Hj. unfold turned. by rewrite (proj2 (Nat.leb_le _ _)) by lia.
  - apply zsum_ext. intros j Hj. unfold turned. by rewrite (proj2 (Nat.leb_gt _ _)) by lia.
Qed.

Lemma square_column_wrap a i : (i < 32)%nat -> square_column a i = u32 (column a a i).
Proof.
  intros Hi. unfold square_column. cbv zeta. rewrite wrap_fold0, wrap_fold38.
  assert (forall x d d', u32 (u32 (u32 (u32 x * 2) + u32 d) + u32 d') = u32 (2 * x + d + d')) as Hw.
  { intros x d d'. unfold wrap. rewrite Zmult_mod_idemp_l.
    rewrite <- (Zplus_mod (x * 2) d), <- (Zplus_mod (x * 2 + d) d'). f_equal. lia. }
  assert (forall x, u32 (u32 x * 2) = u32 (2 * x)) as Hw1.
  { intros x. unfold wrap. rewrite Zmult_mod_idemp_l. f_equal. lia. }
  rewrite (wrap_mul_l (38 * _)), Hw. rewrite Hw1. destruct (Nat.even i) eqn:He; f_equal;
  do 32 (destruct i as [|i]; [try done; unfold column, turned;
    cbn [zsum Nat.div Nat.divmod fst snd Nat.sub Nat.add Nat.leb Nat.mul]; ring|]); lia.
Qed.

(** Limbs that a product can take. *)
Definition small (a : list Z) : Prop := length a = 32%nat /\ Forall (fun x => 0 <= x <= 511) a.

Lemma small_limb a i : small a -> 0 <= limb a i <= 511.
Proof.
  intros [Hl Ha]. unfold limb. destruct (Nat.lt_ge_cases i (length a)) as [Hi|Hi].
  - rewrite Forall_nth in Ha. by apply Ha.
  - rewrite nth_overflow by done. lia.
Qed.
Lemma ok_small B a : ok B a -> B <= 511 -> small a.
Proof.
  intros [Hl Hb Ht] HB. split; [done|]. rewrite (split_limbs a Hl). apply Forall_app. split.
  - eapply Forall_impl; [exact Hb|]. unfold in_range. intros. lia.
  - constructor; [lia|done].
Qed.

Lemma column_bound a b i : small a -> small b -> 0 <= column a b i < 2 ^ 30.
Proof.
  intros Ha Hb. cut (0 <= column a b i <= 32 * (511 * (38 * 511))); [lia|].
  apply (zsum_bound (fun j => limb a j * turned b i j) 32). intros j _. pose proof (small_limb a j Ha).
  assert (0 <= turned b i j <= 38 * 511); [|nia].
  unfold turned. destruct (_ <=? _)%nat; pose proof (small_limb b (i - j) Hb); pose proof (small_limb b (i + 32 - j) Hb); lia.
Qed.

Lemma eqp_2_256 : 256 ^ 32 ≡ 38.
Proof. reflexivity. Qed.

(** To turn a number by [j] limbs is to multiply it by a power of 256. *)
Lemma turned_value b j : length b = 32%nat -> (j < 32)%nat ->
  zsum (fun i => 256 ^ Z.of_nat i * turned b i j) 32 ≡ 256 ^ Z.of_nat j * le_value b.
Proof.
  intros Hl Hj. rewrite (zsum_split _ 32 j (32 - j)) by lia.
  rewrite value_zsum, Hl, (zsum_split _ 32 (32 - j) j) by lia. rewrite Z.mul_add_distr_l, Z.add_comm.
  rewrite <- !zsum_scale. f_equiv.
  - apply eqp_eq, zsum_ext. intros i Hi. unfold turned. rewrite (proj2 (Nat.leb_le _ _)) by lia.
    rewrite Nat2Z.inj_add, Z.pow_add_r by lia. replace (j + i - j)%nat with i by lia. lia.
  - apply zsum_eqp. intros i Hi. unfold turned. rewrite (proj2 (Nat.leb_gt _ _)) by lia.
    replace (32 - j + i)%nat with (i + 32 - j)%nat by lia.
    transitivity (256 ^ Z.of_nat i * (256 ^ 32 * limb b (i + 32 - j))); [by rewrite eqp_2_256|].
    apply eqp_eq. rewrite Z.mul_assoc, <- Z.pow_add_r by lia. rewrite Z.mul_assoc, <- Z.pow_add_r by lia.
    do 2 f_equal. lia.
Qed.

Lemma columns_value a b : length a = 32%nat -> length b = 32%nat ->
  le_value (column a b <$> seq 0 32) ≡ le_value a * le_value b.
Proof.
  intros Ha Hb. rewrite value_zsum, length_fmap, length_seq.
  transitivity (zsum (fun j => limb a j * zsum (fun i => 256 ^ Z.of_nat i * turned b i j) 32) 32).
  - apply eqp_eq. transitivity (zsum (fun i => zsum (fun j => 256 ^ Z.of_nat i * (limb a j * turned b i j)) 32) 32).
    + apply zsum_ext. intros i Hi. rewrite zsum_scale. f_equal. unfold limb at 1.
      rewrite (nth_indep _ 0 (column a b 0)) by (by rewrite length_fmap, length_seq).
      unfold fmap. rewrite map_nth, seq_nth by done. done.
    + rewrite zsum_swap. apply zsum_ext. intros j _. rewrite <- zsum_scale. apply zsum_ext. intros i _. lia.
  - transitivity (zsum (fun j => limb a j * (256 ^ Z.of_nat j * le_value b)) 32).
    + apply zsum_eqp. intros j Hj. by rewrite turned_value.
    + apply eqp_eq. rewrite (value_zsum a), Ha, Z.mul_comm, <- zsum_scale. apply zsum_ext. intros j _. lia.
Qed.

Lemma columns_ok f a b : small a -> small b -> (forall i, (i < 32)%nat -> f i = u32 (column a b i)) ->
  ok 128 (squeeze (f <$> seq 0 32)) /\ le_value (squeeze (f <$> seq 0 32)) ≡ le_value a * le_value b.
Proof.
  intros Ha Hb Hf. assert (f <$> seq 0 32 = column a b <$> seq 0 32) as ->.
  { apply list_fmap_ext. intros i x Hx. apply lookup_seq in Hx as [-> Hi]. simpl. rewrite Hf by lia.
    apply wrap_small. pose proof (column_bound a b i Ha Hb). lia. }
  rewrite <- (columns_value a b) by (apply Ha || apply Hb). apply squeeze_ok; [by rewrite length_fmap, length_seq|].
  apply Forall_fmap, Forall_forall. intros i _. by apply column_bound.
Qed.
Lemma mult_ok a b : small a -> small b -> ok 128 (mult a b) /\ le_value (mult a b) ≡ le_value a * le_value b.
Proof. intros Ha Hb. apply columns_ok; [done..|]. apply mult_column_wrap. Qed.
Lemma square_ok a : small a -> ok 128 (square a) /\ le_value (square a) ≡ le_value a * le_value a.
Proof. intros Ha. apply columns_ok; [done..|]. apply square_column_wrap. Qed.

(** ** The end of the computation *)

Lemma minusp_ok : ok 128 minusp /\ le_value minusp = 2 ^ 255 + 19.
Proof.
  split; [constructor|reflexivity].
  - reflexivity.
  - repeat (apply Forall_cons; split; [unfold in_range; lia|]). constructor.
  - unfold limb. simpl. lia.
Qed.

Lemma ok_range B a : ok B a -> Forall (in_range 32) a \/ 2 ^ 32 <= B.
Proof.
  intros [Hl Hb Ht]. destruct (Z.le_gt_cases (2 ^ 32) B); [by right|left].
  rewrite (split_limbs a Hl). apply Forall_app. split.
  - eapply Forall_impl; [exact Hb|]. unfold in_range. intros. lia.
  - constructor; [unfold in_range; lia|done].
Qed.

(** The masks of [freeze] and [select]. *)
Lemma land_all x : in_range 32 x -> Z.land (2 ^ 32 - 1) x = x.
Proof. intros Hx. rewrite Z.land_comm, land_ones_mod by lia. by apply Z.mod_small. Qed.
Lemma lxor_back o x : Z.lxor x (Z.lxor o x) = o.
Proof. by rewrite Z.lxor_comm, Z.lxor_assoc, Z.lxor_nilpotent, Z.lxor_0_r. Qed.

Lemma freeze_pick (o x : list Z) (m : bool) : length o = length x -> Forall (in_range 32) o -> Forall (in_range 32) x ->
  zip_with (fun o x => Z.lxor x (Z.land (if m then 2 ^ 32 - 1 else 0) (Z.lxor o x))) o x = if m then o else x.
Proof.
  intros Hl Ho. revert x Hl. induction Ho as [|y o Hy Ho IH]; intros [|z x] Hl Hx; try done; [by destruct m|].
  apply Forall_cons in Hx as [Hz Hx]. cbn [zip_with]. rewrite IH by (done || (simpl in Hl; lia)). destruct m.
  - rewrite land_all by (by apply lxor_range). by rewrite lxor_back.
  - by rewrite Z.land_0_l, Z.lxor_0_r.
Qed.

Lemma top_value B a : ok B a -> limb a 31 = le_value a / 256 ^ 31.
Proof.
  intros Ha. pose proof (low_range B a Ha). rewrite (value_split a) by apply Ha.
  rewrite (Z.mul_comm (256 ^ 31)), Z.div_add by done. rewrite Z.div_small by done. lia.
Qed.

(** The bytes of a number whose last limb is less than 256. *)
Lemma bytes_value B a : ok B a -> (fun x => u8 x) <$> a = le_bytes 32 (le_value a mod 256 ^ 32).
Proof.
  intros [Hl Hb Ht]. set (l := (fun x => u8 x) <$> a).
  assert (l = take 31 a ++ [u8 (limb a 31)]) as El.
  { unfold l. rewrite (split_limbs a Hl) at 1. rewrite fmap_app. f_equal.
    rewrite <- (list_fmap_id (take 31 a)) at 2. apply list_fmap_ext. intros i x Hx. simpl.
    apply wrap_small. by eapply Forall_lookup_1 in Hb; [|exact Hx]. }
  assert (Bytes l) as Hbl.
  { rewrite El. apply Forall_app. split; [done|]. constructor; [apply wrap_range; lia|done]. }
  assert (length l = 32%nat) as Hll by (unfold l; by rewrite length_fmap).
  rewrite <- (le_bytes_value l Hbl), Hll. f_equal. rewrite El, value_build, (value_split a) by
    (done || (rewrite length_take, Hl; done)). pose proof (le_value_range _ Hb) as Hlow. unfold zlen in Hlow.
  rewrite length_take, Hl in Hlow. change (Z.of_nat (31 `min` 32)) with 31 in Hlow. unfold wrap.
  change (2 ^ 8) with 256. rewrite (Z.div_mod (limb a 31) 256) at 2 by lia.
  pose proof (Z.mod_pos_bound (limb a 31) 256 ltac:(lia)).
  replace (_ + 256 ^ 31 * (256 * _ + _)) with
    (le_value (take 31 a) + 256 ^ 31 * (limb a 31 mod 256) + (limb a 31 / 256) * 256 ^ 32) by lia.
  rewrite Z_mod_plus_full. symmetry. apply Z.mod_small. lia.
Qed.

Lemma freeze_ok a : ok 128 a -> (fun x => u8 x) <$> freeze a = le_bytes 32 (le_value a mod p25519).
Proof.
  intros Ha. destruct minusp_ok as [Hm Hmv]. destruct (add_ok 128 128 a minusp Ha Hm) as [Hs Hsv]; [lia..|].
  rewrite Hmv in Hsv. unfold freeze. set (x := add a minusp) in *.
  pose proof (low_range _ _ Ha) as Hlow. pose proof (value_split a (ok_length _ _ Ha)) as Hv. pose proof (ok_top _ _ Ha) as Ht.
  assert (0 <= le_value a < 129 * 256 ^ 31) as Hr by lia.
  destruct (ok_range _ _ Ha) as [Hra|?]; [|lia]. destruct (ok_range _ _ Hs) as [Hrx|?]; [|lia].
  assert (length a = length x) as Hlen by (by rewrite (ok_length _ _ Ha), (ok_length _ _ Hs)).
  pose proof (top_value _ _ Hs) as Htop. rewrite Hsv in Htop.
  destruct (Z.lt_ge_cases (le_value a) p25519) as [Hlt|Hge].
  - assert (128 <= limb x 31 < 256) as Hb.
    { rewrite Htop. split; [apply Z.div_le_lower_bound|apply Z.div_lt_upper_bound]; unfold p25519 in *; lia. }
    rewrite Z.shiftr_div_pow2 by lia. change (2 ^ 7) with 128.
    replace (limb x 31 / 128) with 1 by (apply Z.div_unique with (r := limb x 31 - 128); lia).
    change (u32 (- Z.land 1 1)) with (2 ^ 32 - 1). rewrite (freeze_pick a x true) by done.
    rewrite (bytes_value 128) by done. f_equal. rewrite !Z.mod_small by (unfold p25519 in *; lia). done.
  - assert (256 <= limb x 31 < 258) as Hb.
    { rewrite Htop. split; [apply Z.div_le_lower_bound|apply Z.div_lt_upper_bound]; unfold p25519 in *; lia. }
    rewrite Z.shiftr_div_pow2 by lia. change (2 ^ 7) with 128.
    replace (limb x 31 / 128) with 2 by (apply Z.div_unique with (r := limb x 31 - 256); lia).
    change (u32 (- Z.land 2 1)) with 0. rewrite (freeze_pick a x false) by done.
    rewrite (bytes_value _ x Hs), Hsv. f_equal.
    replace (le_value a + (2 ^ 255 + 19)) with (le_value a - p25519 + 1 * 256 ^ 32) by (unfold p25519; lia).
    rewrite Z_mod_plus_full, Z.mod_small by (unfold p25519 in *; lia).
    apply Z.mod_unique with (q := 1); unfold p25519 in *; lia.
Qed.

(** ** Inversion *)

Lemma f_pow_pos_value x n : f_pow_pos x n ≡ x ^ Z.pos n.
Proof.
  induction n as [n IH|n IH|]; cbn [f_pow_pos]; unfold f_mul; rewrite ?eqp_mod, ?IH.
  - apply eqp_eq. rewrite Pos2Z.inj_xI, Z.pow_add_r, Z.pow_mul_r, (Z.pow_2_r x) by lia.
    rewrite Z.pow_mul_l. change (x ^ 1) with (Z.pow x 1). lia.
  - apply eqp_eq. rewrite Pos2Z.inj_xO, Z.pow_mul_r, (Z.pow_2_r x), Z.pow_mul_l by lia. lia.
  - apply eqp_eq. lia.
Qed.
Lemma f_inv_value x : f_inv x ≡ x ^ (p25519 - 2).
Proof. unfold f_inv. destruct (p25519 - 2) as [|n|n] eqn:E; [done| |done]. apply f_pow_pos_value. Qed.

(** [a] is a power of [z]. *)
Definition is_power (z n : Z) (a : list Z) : Prop := 0 <= n /\ ok 128 a /\ le_value a ≡ z ^ n.

Lemma power_mult z n m a b : is_power z n a -> is_power z m b -> is_power z (n + m) (mult a b).
Proof.
  intros (Hn&Ha&Hav) (Hm&Hb&Hbv). destruct (mult_ok a b) as [Hok Hv]; [by eapply ok_small..|].
  split_and!; [lia|done|]. by rewrite Hv, Hav, Hbv, Z.pow_add_r.
Qed.
Lemma power_square z n a : is_power z n a -> is_power z (2 * n) (square a).
Proof.
  intros (Hn&Ha&Hav). destruct (square_ok a) as [Hok Hv]; [by eapply ok_small|].
  split_and!; [lia|done|]. rewrite Hv, Hav, <- Z.pow_add_r by done. apply eqp_eq. f_equal. lia.
Qed.
Lemma power_squares z k : forall n a, is_power z n a -> is_power z (4 ^ Z.of_nat k * n) (squares k a).
Proof.
  induction k as [|k IH]; intros n a Ha; cbn [squares].
  - change (4 ^ Z.of_nat 0) with 1. by rewrite Z.mul_1_l.
  - rewrite Nat2Z.inj_succ, Z.pow_succ_r by lia. replace (4 * 4 ^ Z.of_nat k * n) with (4 ^ Z.of_nat k * (2 * (2 * n))) by lia.
    by apply IH, power_square, power_square.
Qed.

Lemma power_let z n m a (k : list Z -> list Z) :
  is_power z n a -> (forall x, is_power z n x -> is_power z m (k x)) -> is_power z m (let x := a in k x).
Proof. intros Ha Hk. by apply Hk. Qed.
Lemma power_eq z n m a : n = m -> is_power z n a -> is_power z m a.
Proof. by intros ->. Qed.

(** Computes the exponents along the assignments of [recip]. *)
Ltac power_of :=
  match goal with
  | |- is_power _ _ (mult _ _) => eapply power_mult; eassumption
  | |- is_power _ _ (square _) => eapply power_square; eassumption
  | |- is_power _ _ (squares _ _) => eapply power_squares; eassumption
  end.
Ltac power_step :=
  match goal with
  | |- is_power ?z ?m (let x := ?a in @?k x) =>
      let H := fresh in
      eassert (is_power z _ a) as H by power_of;
      match type of H with
      | is_power _ ?n _ =>
          let n' := eval vm_compute in n in
          apply (power_let z n' m a k); [exact (power_eq z n n' a ltac:(vm_compute; reflexivity) H)|];
          clear H; intros ? ?; cbv beta
      end
  end.

Lemma recip_ok z a : ok 128 a -> le_value a ≡ z -> ok 128 (recip a) /\ le_value (recip a) ≡ f_inv z.
Proof.
  intros Ha Hv. assert (is_power z (p25519 - 2) (recip a)) as (_&Hok&Hr);
    [|split; [exact Hok|]; rewrite f_inv_value; exact Hr].
  assert (is_power z 1 a) as H1 by (split_and!; [lia|done|by rewrite Z.pow_1_r]). clear Ha Hv.
  cbv beta delta [recip]. repeat power_step. eapply power_eq; [|power_of]. vm_compute. reflexivity.
Qed.

(** ** A round *)

Lemma select_pick (r s : list Z) (b : bool) :
  length r = length s -> Forall (in_range 32) r -> Forall (in_range 32) s ->
  select r s (b2z b) = if b then (s, r) else (r, s).
Proof.
  intros Hl Hr. revert s Hl. unfold select. induction Hr as [|x r Hx Hr IH]; intros [|y s] Hl Hs; try done; [by destruct b|].
  apply Forall_cons in Hs as [Hy Hs]. specialize (IH s ltac:(simpl in Hl; lia) Hs). cbv zeta in *. cbn [zip_with].
  assert (u32 (b2z b - 1) = if b then 0 else 2 ^ 32 - 1) as E by by destruct b.
  rewrite E in *. destruct b.
  - rewrite Z.land_0_l, !Z.lxor_0_r. injection IH as -> ->. done.
  - rewrite land_all by (by apply lxor_range). injection IH as -> ->. rewrite lxor_back.
    by rewrite <- Z.lxor_assoc, Z.lxor_nilpotent, Z.lxor_0_l.
Qed.

(** The array [w] holds the two numbers [x] and [z]. *)
Definition holds (v : Z * Z) (w : list Z) : Prop :=
  exists a b, w = a ++ b /\ ok 255 a /\ ok 128 b /\ le_value a ≡ fst v /\ le_value b ≡ snd v.

Lemma holds_lo_hi v w : holds v w ->
  ok 255 (lo w) /\ ok 128 (hi w) /\ le_value (lo w) ≡ fst v /\ le_value (hi w) ≡ snd v /\ length w = 64%nat.
Proof.
  intros (a&b&->&Ha&Hb&Hav&Hbv). rewrite take_app_length', drop_app_length' by (symmetry; apply Ha).
  split_and!; try done. rewrite length_app. by rewrite (ok_length _ _ Ha), (ok_length _ _ Hb).
Qed.
Lemma holds_range v w : holds v w -> Forall (in_range 32) w.
Proof.
  intros (a&b&->&Ha&Hb&_). apply Forall_app.
  destruct (ok_range _ _ Ha) as [?|?]; [|lia]. destruct (ok_range _ _ Hb) as [?|?]; [done|lia].
Qed.
Lemma holds_select v v' w w' b : holds v w -> holds v' w' ->
  exists u u', select w w' (b2z b) = (u, u') /\
    holds (fst (cswap b (v, v'))) u /\ holds (snd (cswap b (v, v'))) u'.
Proof.
  intros Hw Hw'. rewrite select_pick.
  - destruct b; by eexists _, _.
  - destruct (holds_lo_hi _ _ Hw) as (_&_&_&_&->). by destruct (holds_lo_hi _ _ Hw') as (_&_&_&_&->).
  - by eapply holds_range.
  - by eapply holds_range.
Qed.

(** The code keeps sums and differences of two numbers in one array as well. *)
Lemma halves (a b : list Z) : length a = 32%nat -> lo (a ++ b) = a /\ hi (a ++ b) = b.
Proof. intros Hl. by rewrite take_app_length', drop_app_length' by done. Qed.

Lemma f_add_value x y : f_add x y ≡ x + y.
Proof. apply eqp_mod. Qed.
Lemma f_sub_value x y : f_sub x y ≡ x - y.
Proof. apply eqp_mod. Qed.
Lemma f_mul_value x y : f_mul x y ≡ x * y.
Proof. apply eqp_mod. Qed.

#[export] Instance f_add_proper : Proper (eqp ==> eqp ==> eqp) f_add.
Proof. intros x y Hx z w Hz. by rewrite !f_add_value, Hx, Hz. Qed.
#[export] Instance f_sub_proper : Proper (eqp ==> eqp ==> eqp) f_sub.
Proof. intros x y Hx z w Hz. by rewrite !f_sub_value, Hx, Hz. Qed.
#[export] Instance f_mul_proper : Proper (eqp ==> eqp ==> eqp) f_mul.
Proof. intros x y Hx z w Hz. by rewrite !f_mul_value, Hx, Hz. Qed.

(** Removes the reductions, and leaves an equation of polynomials. *)
Ltac f_values := repeat first [rewrite f_mul_value | rewrite f_add_value | rewrite f_sub_value]; apply eqp_eq; ring.

(** The sum and the difference of two numbers that are held. *)
Lemma add_sub_ok A a b x y : ok A a -> ok 128 b -> A <= 255 -> le_value a ≡ x -> le_value b ≡ y ->
  small (add a b) /\ small (sub a b) /\ length (add a b) = 32%nat /\
  ok 511 (sub a b) /\ le_value (add a b) ≡ x + y /\ le_value (sub a b) ≡ x - y.
Proof.
  intros Ha Hb HA Hx Hy. destruct (add_ok A 128 a b Ha Hb) as [Hs Hsv]; [lia..|].
  destruct (sub_ok A 128 a b Ha Hb) as [Hd Hdv]; [lia..|].
  split_and!; [eapply ok_small; [done|lia]..|apply Hs|eapply ok_weaken; [done|lia]| |].
  - by rewrite Hsv, Hx, Hy.
  - by rewrite Hdv, eqp_multiple, Hx, Hy.
Qed.

Lemma round_ok work x1 v2 v3 xzm xzm1 b :
  ok 255 work -> le_value work ≡ x1 -> holds v2 xzm -> holds v3 xzm1 ->
  exists u u', round work xzm xzm1 (b2z b) = (u, u') /\
    holds (fst (cswap b (ladder_step x1 (cswap b (v2, v3))))) u /\
    holds (snd (cswap b (ladder_step x1 (cswap b (v2, v3))))) u'.
Proof.
  intros Hw Hwv H2 H3. unfold round.
  destruct (holds_select v2 v3 xzm xzm1 b H2 H3) as (xzmb&xzm1b&->&Hb2&Hb3).
  destruct (cswap b (v2, v3)) as [[x2 z2] [x3 z3]]. cbn [fst snd] in Hb2, Hb3.
  destruct (holds_lo_hi _ _ Hb2) as (Hx2&Hz2&Ex2&Ez2&_). destruct (holds_lo_hi _ _ Hb3) as (Hx3&Hz3&Ex3&Ez3&_).
  cbn [fst snd] in *. clear Hb2 Hb3 H2 H3.
  destruct (add_sub_ok 255 _ _ _ _ Hx2 Hz2 ltac:(lia) Ex2 Ez2) as (SA&SB&LA&_&EA&EB).
  destruct (add_sub_ok 255 _ _ _ _ Hx3 Hz3 ltac:(lia) Ex3 Ez3) as (SC&SD&LC&_&EC&ED).
  destruct (halves (add (lo xzmb) (hi xzmb)) (sub (lo xzmb) (hi xzmb)) LA) as [-> ->].
  destruct (halves (add (lo xzm1b) (hi xzm1b)) (sub (lo xzm1b) (hi xzm1b)) LC) as [-> ->].
  set (a := add (lo xzmb) (hi xzmb)) in *. set (b' := sub (lo xzmb) (hi xzmb)) in *.
  set (c := add (lo xzm1b) (hi xzm1b)) in *. set (d := sub (lo xzm1b) (hi xzm1b)) in *.
  destruct (square_ok a SA) as [OAA EAA]. destruct (square_ok b' SB) as [OBB EBB].
  destruct (mult_ok c b' SC SB) as [OCB ECB]. destruct (mult_ok d a SD SA) as [ODA EDA].
  destruct (halves (square a) (square b') (ok_length _ _ OAA)) as [-> ->].
  destruct (halves (mult c b') (mult d a) (ok_length _ _ OCB)) as [-> ->].
  destruct (add_sub_ok 128 _ _ _ _ OCB ODA ltac:(lia) ECB EDA) as (SP&SM&LP&_&EP&EM).
  destruct (halves _ (sub (mult c b') (mult d a)) LP) as [-> ->].
  destruct (add_sub_ok 128 _ _ _ _ OAA OBB ltac:(lia) EAA EBB) as (_&SE&_&OE&_&EE).
  set (s := sub (square a) (square b')) in *. destruct (mult121665_ok s OE) as [OT ET].
  destruct (add_ok 128 128 _ _ OT OAA) as [OU EU]; [lia..|].
  destruct (square_ok _ SM) as [OR ER]. destruct (mult_ok _ _ (ok_small _ _ OAA ltac:(lia)) (ok_small _ _ OBB ltac:(lia))) as [OX2 EX2].
  destruct (mult_ok s _ SE (ok_small _ _ OU ltac:(lia))) as [OZ2 EZ2]. destruct (square_ok _ SP) as [OX3 EX3].
  destruct (mult_ok _ work (ok_small _ _ OR ltac:(lia)) (ok_small _ _ Hw ltac:(lia))) as [OZ3 EZ3].
  apply holds_select; cbn [ladder_step fst snd]; eexists _, _;
    (split_and!; [reflexivity|by eapply ok_weaken|done| |]; cbn [fst snd]).
  - rewrite EX2, EAA, EBB, EA, EB. f_values.
  - rewrite EZ2, EU, ET, EE, EAA, EA, EB. f_values.
  - rewrite EX3, EP, EC, EB, ED, EA. f_values.
  - rewrite EZ3, ER, EM, EC, EB, ED, EA, Hwv. f_values.
Qed.

(** ** The scalar *)

Lemma value_testbit e : Bytes e -> forall pos, Z.testbit (le_value e) (Z.of_nat pos) =
  Z.testbit (nth (pos / 8) e 0) (Z.of_nat (pos mod 8)).
Proof.
  induction 1 as [|x e Hx He IH]; intros pos; cbn [le_value].
  - rewrite Z.bits_0. by destruct (pos / 8)%nat; cbn [nth]; rewrite Z.bits_0.
  - change 256 with (2 ^ 8). rewrite (Z.mul_comm (2 ^ 8)), Z.add_comm.
    rewrite <- lor_shiftl_add, Z.lor_spec by (done || lia). rewrite Z.shiftl_spec by lia.
    destruct (Nat.lt_ge_cases pos 8) as [Hp|Hp].
    + rewrite Z.testbit_neg_r by lia. rewrite Nat.div_small, Nat.mod_small by lia. done.
    + rewrite (testbit_high x 8) by (done || lia). rewrite orb_false_r.
      replace (Z.of_nat pos - 8) with (Z.of_nat (pos - 8)) by lia. rewrite IH.
      replace pos with (pos - 8 + 1 * 8)%nat at 3 4 by lia. rewrite Nat.div_add, Nat.Div0.mod_add by lia.
      rewrite Nat.add_1_r. done.
Qed.

Lemma land_1 x : Z.land x 1 = b2z (Z.testbit x 0).
Proof. change 1 with (2 ^ 1 - 1). rewrite land_ones_mod, Z.bit0_mod by lia. by destruct (Z.testbit x 0). Qed.
Lemma scalar_bit_testbit e pos : scalar_bit e pos = b2z (Z.testbit (nth (pos / 8) e 0) (Z.of_nat (pos mod 8))).
Proof. unfold scalar_bit. rewrite land_1, Z.shiftr_spec by lia. by rewrite Z.add_0_l. Qed.

(** The bits of [clamp] are those of the scalar of the RFC. *)
Lemma clamp_bits n pos : length n = 32%nat -> Bytes n -> (pos < 255)%nat ->
  scalar_bit (clamp n) pos = b2z (Z.testbit (decode_scalar n) (Z.of_nat pos)).
Proof.
  intros Hl Hb Hp. rewrite scalar_bit_testbit. f_equal.
  unfold decode_scalar. rewrite Z.lor_spec, Z.land_spec, value_testbit by done.
  do 32 (destruct n as [|? n]; [done|]). destruct n; [|done]. clear Hl Hb. unfold clamp. cbn [nth insert list_insert].
  do 255 (destruct pos as [|pos]; [cbn -[Z.land Z.lor Z.testbit Z.sub Z.pow Z.of_nat];
    rewrite ?Z.lor_spec, ?Z.land_spec; cbn; rewrite ?andb_true_r, ?andb_false_r, ?orb_false_r, ?orb_true_r; reflexivity|]). lia.
Qed.

(** ** The whole function *)

Lemma cswap_twice {T} s b (v : T * T) : cswap b (cswap s v) = cswap (xorb s b) v.
Proof. by destruct v, s, b. Qed.

Lemma ladder_rounds_ok work x1 e k pos : forall xzm xzm1 v swap,
  ok 255 work -> le_value work ≡ x1 ->
  (forall i, (i < pos)%nat -> scalar_bit e i = b2z (Z.testbit k (Z.of_nat i))) ->
  holds (fst (cswap swap v)) xzm -> holds (snd (cswap swap v)) xzm1 ->
  holds (ladder x1 k pos v swap) (rounds work e pos xzm xzm1).
Proof.
  induction pos as [|pos IH]; intros xzm xzm1 v swap Hw Hx He H2 H3; cbn [rounds ladder]; [done|].
  rewrite He by lia. set (b := Z.testbit k (Z.of_nat pos)).
  destruct (round_ok work x1 _ _ xzm xzm1 b Hw Hx H2 H3) as (u&u'&->&Hu&Hu').
  rewrite <- surjective_pairing, cswap_twice in Hu, Hu'. apply IH; [done|done| |done|done]. intros i Hi. apply He. lia.
Qed.

Lemma bytes_ok (l : bytes) : length l = 32%nat -> Bytes l -> ok 255 l.
Proof.
  intros Hl Hb. constructor; [done|by apply Forall_take|]. rewrite (Forall_nth _ 0) in Hb. unfold limb.
  specialize (Hb 31%nat ltac:(lia)). unfold in_range in Hb. lia.
Qed.

Lemma f_mul_eqp x y x' y' : x ≡ x' -> y ≡ y' -> (x * y) mod p25519 = f_mul x' y'.
Proof. intros Hx Hy. unfold f_mul. change (x * y ≡ x' * y'). by rewrite Hx, Hy. Qed.

Lemma scalarmult_X25519 n p :
  length n = 32%nat -> length p = 32%nat -> Bytes n -> Bytes p ->
  crypto_scalarmult_curve25519 n p = le_bytes 32 (X25519 (decode_scalar n) (le_value p)).
Proof.
  intros Hln Hlp Hn Hp. unfold crypto_scalarmult_curve25519, mainloop.
  rewrite (take_ge n), (take_ge p) by lia. cbv zeta.
  pose proof (bytes_ok p Hlp Hp) as Hw. set (u := le_value p mod p25519).
  assert (holds (ladder u (decode_scalar n) 255 ((1, 0), (u, 1)) false)
    (rounds p (clamp n) 255 (1 :: replicate 63 0) (p ++ 1 :: replicate 31 0))) as H.
  { apply ladder_rounds_ok; [done|by unfold u; rewrite eqp_mod|intros i Hi; by apply clamp_bits| |].
    - exists (1 :: replicate 31 0), (replicate 32 0). split_and!; [done| | |done|done].
      + apply bytes_ok; [done|]. repeat (apply Forall_cons; split; [unfold in_range; lia|]). constructor.
      + constructor; [done| |unfold limb; simpl; lia].
        repeat (apply Forall_cons; split; [unfold in_range; lia|]). constructor.
    - exists p, (1 :: replicate 31 0). split_and!; [done|done| |by unfold u; cbn [cswap snd fst]; rewrite eqp_mod|done].
      constructor; [done| |unfold limb; simpl; lia].
      repeat (apply Forall_cons; split; [unfold in_range; lia|]). constructor. }
  unfold X25519. fold u. destruct (ladder u (decode_scalar n) 255 _ false) as [x2 z2].
  destruct (holds_lo_hi _ _ H) as (Hx&Hz&Ex&Ez&_). cbn [fst snd] in Ex, Ez.
  destruct (recip_ok z2 _ Hz Ez) as [Hr Er].
  destruct (mult_ok _ _ (ok_small _ _ Hx ltac:(lia)) (ok_small _ _ Hr ltac:(lia))) as [Hm Em].
  pose proof (f_mul_eqp _ _ _ _ Ex Er) as E. unfold eqp in Em. rewrite (freeze_ok _ Hm), Em, E. reflexivity.
Qed.

(** The function on the points that are zero: every multiple is zero. *)
Definition flat (v : Z * Z * (Z * Z)) : Prop := fst (fst v) * snd (fst v) = 0 /\ fst (snd v) * snd (snd v) = 0.

Lemma ladder_step_flat v : flat v -> snd (fst (ladder_step 0 v)) = 0 /\ snd (snd (ladder_step 0 v)) = 0.
Proof.
  destruct v as [[x2 z2] [x3 z3]]. intros [H _]. cbn in H. cbn -[Z.mul]. split; [|done].
  assert (f_sub (f_mul (f_add x2 z2) (f_add x2 z2)) (f_mul (f_sub x2 z2) (f_sub x2 z2)) = 0) as ->; [|done].
  change 0 with (0 mod p25519). unfold f_sub, f_mul, f_add.
  change (((x2 + z2) mod p25519 * ((x2 + z2) mod p25519)) mod p25519 -
    ((x2 - z2) mod p25519 * ((x2 - z2) mod p25519)) mod p25519 ≡ 0).
  rewrite !eqp_mod. apply eqp_eq. nia.
Qed.

Lemma ladder_zero k t : forall v swap, flat v -> snd (ladder 0 k (S t) v swap) = 0.
Proof.
  induction t as [|t IH]; intros v swap Hv; cbn [ladder]; set (b := Z.testbit _ _);
    destruct (ladder_step_flat (cswap (xorb swap b) v)) as [H2 H3];
    try (destruct v as [[? ?] [? ?]]; destruct Hv, (xorb swap b); done).
  - by destruct b.
  - apply IH. split; [by rewrite H2, Z.mul_0_r|by rewrite H3, Z.mul_0_r].
Qed.

Lemma X25519_zero k u : u mod p25519 = 0 -> X25519 k u = 0.
Proof.
  intros Hu. unfold X25519. rewrite Hu. pose proof (ladder_zero k 254 ((1, 0), (0, 1)) false ltac:(done)) as H.
  destruct (ladder 0 k 255 _ _) as [x2 z2]. cbn in H. subst z2.
  assert (f_inv 0 = 0) as ->; [by vm_compute|]. unfold f_mul. by rewrite Z.mul_0_r.
Qed.


