(* ===== verification/KexRun.v ===== *)
(** The dialogue of a key exchange: the handlers of kex.c and the method
    curve25519-sha256 of kexc25519.c, kexc25519c.c and kexc25519s.c.

    The state [kex_ssh] is what the handlers use of [struct ssh] and
    [struct kex]: the negotiation of Kex.v, the table of Dispatch.v, the packet that
    is read and the one that is written, and the packets sent so far.  The
    interface [KexWorld] has the random numbers and the packet layer, [HostKey] the
    keys of the host, [Curve] the multiplication of points, which Curve25519.v
    implements.  That the packet layer takes the new keys into use when NEWKEYS
    is sent and received is in Packet.v.  A NULL [session_id] is the empty string. *)

From stdpp Require Import pretty.
From S2P Require Import Prelude Wire CString Ssh2 Sshbuf SshbufGetput SshbufSpec Glob Algs ChachaPoly.
From S2P Require Import Digest Kex Dispatch Curve25519 X25519.

Definition CURVE25519_SIZE : Z := 32.
Definition KEX_MAX : Z := 9.

Definition SSH_ERR_KEY_TYPE_MISMATCH : Z := -13.
Definition SSH_ERR_KEY_INVALID_EC_VALUE : Z := -20.
Definition SSH_ERR_NO_HOSTKEY_LOADED : Z := -36.

(** ** The method's functions of bytes *)

(** What the method uses of the curve: the multiple of a point. *)
Class Curve : Type := { crypto_scalarmult : bytes -> bytes -> bytes }.
#[export] Instance curve25519 : Curve := {| crypto_scalarmult := crypto_scalarmult_curve25519 |}.

Definition basepoint : bytes := 9 :: replicate 31 0.

(** The result is what [out] holds afterwards. *)
Definition kexc25519_shared_key `{Curve} (A : allocator) (key pub : bytes) : M sshbuf unit :=
  if timingsafe_bcmp pub (zrep CURVE25519_SIZE 0) CURVE25519_SIZE =? 0
  then fail SSH_ERR_KEY_INVALID_EC_VALUE
  else
    (fun out => (Ok tt, sshbuf_reset A out)) ;;;
    sshbuf_put_bignum2_bytes A (crypto_scalarmult key pub) CURVE25519_SIZE.

Section hash.
Context `{Evp}.

Definition c25519_hash_input (A : allocator) (client_version server_version ckexinit skexinit blob
    client_dh_pub server_dh_pub shared_secret : bytes) : M sshbuf unit :=
  sshbuf_put_cstring A (Some client_version) ;;;
  sshbuf_put_cstring A (Some server_version) ;;;
  sshbuf_put_u32 A (u32 (zlen ckexinit + 1)) ;;;
  sshbuf_put_u8 A SSH2_MSG_KEXINIT ;;;
  sshbuf_put A ckexinit (zlen ckexinit) ;;;
  sshbuf_put_u32 A (u32 (zlen skexinit + 1)) ;;;
  sshbuf_put_u8 A SSH2_MSG_KEXINIT ;;;
  sshbuf_put A skexinit (zlen skexinit) ;;;
  sshbuf_put_string A blob (zlen blob) ;;;
  sshbuf_put_string A client_dh_pub CURVE25519_SIZE ;;;
  sshbuf_put_string A server_dh_pub CURVE25519_SIZE ;;;
  sshbuf_put A shared_secret (zlen shared_secret).

(** The first [*hashlen] bytes of [hash]. *)
Definition kex_c25519_hash (A : allocator) (hash_alg : Z) (client_version server_version ckexinit skexinit blob
    client_dh_pub server_dh_pub shared_secret : bytes) (hashlen : Z) : result bytes :=
  if hashlen <? ssh_digest_bytes hash_alg then Err SSH_ERR_INVALID_ARGUMENT
  else
    match sshbuf_new A with
    | None => Err SSH_ERR_ALLOC_FAIL
    | Some b =>
        match c25519_hash_input A client_version server_version ckexinit skexinit blob
                client_dh_pub server_dh_pub shared_secret b with
        | (Err r, _) => Err r
        | (Ok _, b) =>
            match ssh_digest_buffer hash_alg b hashlen with
            | Err _ => Err SSH_ERR_LIBCRYPTO_ERROR
            | Ok d => Ok (ztake (ssh_digest_bytes hash_alg) d)
            end
        end
    end.
End hash.

(** ** State *)

Inductive kex_fn : Type :=
| kex_protocol_error | kex_input_kexinit | kex_input_newkeys | kex_input_ext_info
| input_kex_c25519_reply | input_kex_c25519_init.

Record kex_ssh : Type := mk_kex_ssh {
  x_ssh : ssh;
  x_flags : Z;
  x_done : bool;
  x_rsa_sha2 : Z;
  x_client_version : bytes;
  x_server_version : bytes;
  x_client_key : bytes;
  x_client_pubkey : bytes;
  x_table : dispatch_table kex_fn;
  x_incoming : sshbuf;
  x_outgoing : sshbuf;
  x_sent : list bytes;
  x_random : Z
}.

Definition set_ssh (v : ssh) (x : kex_ssh) : kex_ssh :=
  mk_kex_ssh v (x_flags x) (x_done x) (x_rsa_sha2 x) (x_client_version x) (x_server_version x) (x_client_key x)
    (x_client_pubkey x) (x_table x) (x_incoming x) (x_outgoing x) (x_sent x) (x_random x).
Definition set_flags (v : Z) (x : kex_ssh) : kex_ssh :=
  mk_kex_ssh (x_ssh x) v (x_done x) (x_rsa_sha2 x) (x_client_version x) (x_server_version x) (x_client_key x)
    (x_client_pubkey x) (x_table x) (x_incoming x) (x_outgoing x) (x_sent x) (x_random x).
Definition set_done (v : bool) (x : kex_ssh) : kex_ssh :=
  mk_kex_ssh (x_ssh x) (x_flags x) v (x_rsa_sha2 x) (x_client_version x) (x_server_version x) (x_client_key x)
    (x_client_pubkey x) (x_table x) (x_incoming x) (x_outgoing x) (x_sent x) (x_random x).
Definition set_rsa_sha2 (v : Z) (x : kex_ssh) : kex_ssh :=
  mk_kex_ssh (x_ssh x) (x_flags x) (x_done x) v (x_client_version x) (x_server_version x) (x_client_key x)
    (x_client_pubkey x) (x_table x) (x_incoming x) (x_outgoing x) (x_sent x) (x_random x).
Definition set_versions (c s : bytes) (x : kex_ssh) : kex_ssh :=
  mk_kex_ssh (x_ssh x) (x_flags x) (x_done x) (x_rsa_sha2 x) c s (x_client_key x) (x_client_pubkey x) (x_table x)
    (x_incoming x) (x_outgoing x) (x_sent x) (x_random x).
Definition set_client_key (v : bytes) (x : kex_ssh) : kex_ssh :=
  mk_kex_ssh (x_ssh x) (x_flags x) (x_done x) (x_rsa_sha2 x) (x_client_version x) (x_server_version x) v
    (x_client_pubkey x) (x_table x) (x_incoming x) (x_outgoing x) (x_sent x) (x_random x).
Definition set_client_pubkey (v : bytes) (x : kex_ssh) : kex_ssh :=
  mk_kex_ssh (x_ssh x) (x_flags x) (x_done x) (x_rsa_sha2 x) (x_client_version x) (x_server_version x)
    (x_client_key x) v (x_table x) (x_incoming x) (x_outgoing x) (x_sent x) (x_random x).
Definition set_table (v : dispatch_table kex_fn) (x : kex_ssh) : kex_ssh :=
  mk_kex_ssh (x_ssh x) (x_flags x) (x_done x) (x_rsa_sha2 x) (x_client_version x) (x_server_version x)
    (x_client_key x) (x_client_pubkey x) v (x_incoming x) (x_outgoing x) (x_sent x) (x_random x).
Definition set_in (v : sshbuf) (x : kex_ssh) : kex_ssh :=
  mk_kex_ssh (x_ssh x) (x_flags x) (x_done x) (x_rsa_sha2 x) (x_client_version x) (x_server_version x)
    (x_client_key x) (x_client_pubkey x) (x_table x) v (x_outgoing x) (x_sent x) (x_random x).
Definition set_out (v : sshbuf) (x : kex_ssh) : kex_ssh :=
  mk_kex_ssh (x_ssh x) (x_flags x) (x_done x) (x_rsa_sha2 x) (x_client_version x) (x_server_version x)
    (x_client_key x) (x_client_pubkey x) (x_table x) (x_incoming x) v (x_sent x) (x_random x).
Definition set_sent (v : list bytes) (x : kex_ssh) : kex_ssh :=
  mk_kex_ssh (x_ssh x) (x_flags x) (x_done x) (x_rsa_sha2 x) (x_client_version x) (x_server_version x)
    (x_client_key x) (x_client_pubkey x) (x_table x) (x_incoming x) (x_outgoing x) v (x_random x).
Definition set_random (v : Z) (x : kex_ssh) : kex_ssh :=
  mk_kex_ssh (x_ssh x) (x_flags x) (x_done x) (x_rsa_sha2 x) (x_client_version x) (x_server_version x)
    (x_client_key x) (x_client_pubkey x) (x_table x) (x_incoming x) (x_outgoing x) (x_sent x) v.

(** [kw_random i n]: the bytes of the [i]th call of [arc4random_buf], for [n] bytes;
    [kw_send sent p]: what [sshpkt_send] returns for the packet [p] after [sent]. *)
Class KexWorld : Type := {
  kw_random : Z -> Z -> bytes;
  kw_send : list bytes -> bytes -> Z
}.

(** Host keys: decoding, encoding and signatures (sshkey.c), and the functions that
    the programs put into [struct kex]; a missing one is [None]. *)
Class HostKey (sshkey : Type) : Type := {
  hk_from_blob : bytes -> result sshkey;
  hk_to_blob : sshkey -> result bytes;
  hk_type : sshkey -> Z;
  hk_ecdsa_nid : sshkey -> Z;
  hk_verify : sshkey -> bytes -> bytes -> Z -> result unit;
  verify_host_key : option (sshkey -> Z);
  load_host_public_key : option (Z -> Z -> option sshkey);
  load_host_private_key : option (Z -> Z -> option sshkey);
  kex_sign : option sshkey -> sshkey -> bytes -> option bytes -> Z -> result bytes
}.

Section run.
Context {sshkey : Type} (A : allocator) (mem hmac : bool) `{Evp} `{Curve} `{W : KexWorld} `{HostKey sshkey}.
Abbreviation proc X := (M kex_ssh X).

Definition update (f : kex_ssh -> kex_ssh) : proc unit := fun x => (Ok tt, f x).
Definition on_ssh {X} (m : M ssh X) : proc X := fun x =>
  let '(r, s) := m (x_ssh x) in (r, set_ssh s x).
Definition the_kex (x : kex_ssh) : kex := ssh_kex (x_ssh x).

(** ** Packets *)

Definition on_incoming {X} (m : M sshbuf X) : proc X := fun x =>
  let '(r, b) := m (x_incoming x) in (r, set_in b x).
Definition on_outgoing {X} (m : M sshbuf X) : proc X := fun x =>
  let '(r, b) := m (x_outgoing x) in (r, set_out b x).

Definition sshpkt_start (type : Z) : proc unit :=
  on_outgoing (fun b => (Ok tt, sshbuf_reset A b)) ;;;
  on_outgoing (sshbuf_put A [0; 0; 0; 0; 0; type] 6).
Definition sshpkt_put_u32 (v : Z) : proc unit := on_outgoing (sshbuf_put_u32 A v).
Definition sshpkt_put_string (v : bytes) : proc unit := on_outgoing (sshbuf_put_string A v (zlen v)).
Definition sshpkt_put_cstring (v : bytes) : proc unit := on_outgoing (sshbuf_put_cstring A (Some v)).
Definition sshpkt_putb (v : sshbuf) : proc unit := on_outgoing (sshbuf_putb A v).

(** The packet without the place for the length and the padding. *)
Definition sshpkt_send : proc unit :=
  let! x := get_state in
  let pkt := zdrop 5 (buf_bytes (x_outgoing x)) in
  let r := kw_send (x_sent x) pkt in
  if negb (r =? 0) then fail r else update (set_sent (x_sent x ++ [pkt])).

Definition sshpkt_get_u8 : proc Z := on_incoming sshbuf_get_u8.
Definition sshpkt_get_u32 : proc Z := on_incoming sshbuf_get_u32.
Definition sshpkt_get_string (valp : bool) : proc bytes :=
  let! (v, len) := on_incoming (sshbuf_get_string A valp) in ret (ztake len (default [] v)).
Definition sshpkt_get_cstring : proc bytes :=
  let! (v, _) := on_incoming (sshbuf_get_cstring A true) in ret (before (default [] v) 0).
Definition sshpkt_get_end : proc unit :=
  let! x := get_state in
  if 0 <? sshbuf_len (x_incoming x) then fail SSH_ERR_UNEXPECTED_TRAILING_DATA else ret tt.

Definition arc4random_buf (n : Z) : proc bytes := fun x =>
  (Ok (kw_random (x_random x) n), set_random (x_random x + 1) x).

Definition dispatch_set (type : Z) (fn : option kex_fn) : proc unit :=
  update (fun x => set_table (ssh_dispatch_set type fn (x_table x)) x).

(** ** kex.c *)

(** [kex_protocol_error] *)
Definition do_kex_protocol_error (seq : Z) : proc unit :=
  sshpkt_start SSH2_MSG_UNIMPLEMENTED ;;;
  sshpkt_put_u32 seq ;;;
  sshpkt_send.

Definition kex_reset_dispatch : proc unit :=
  update (fun x => set_table (ssh_dispatch_range SSH2_MSG_TRANSPORT_MIN SSH2_MSG_TRANSPORT_MAX
    (Some kex_protocol_error) (x_table x)) x) ;;;
  dispatch_set SSH2_MSG_KEXINIT (Some kex_input_kexinit).

Definition kex_send_ext_info : proc unit :=
  sshpkt_start SSH2_MSG_EXT_INFO ;;;
  sshpkt_put_u32 1 ;;;
  sshpkt_put_cstring (cstr "server-sig-algs") ;;;
  sshpkt_put_cstring (cstr "rsa-sha2-256,rsa-sha2-512") ;;;
  sshpkt_send.

Definition kex_send_newkeys : proc unit :=
  kex_reset_dispatch ;;;
  sshpkt_start SSH2_MSG_NEWKEYS ;;;
  sshpkt_send ;;;
  dispatch_set SSH2_MSG_NEWKEYS (Some kex_input_newkeys) ;;;
  let! x := get_state in
  if negb (k_ext_info_c (the_kex x) =? 0) then kex_send_ext_info else ret tt.

(** The loop of [kex_input_ext_info] over the extensions. *)
Fixpoint ext_info_loop (n : nat) : proc unit :=
  match n with
  | O => ret tt
  | S n =>
      let! name := sshpkt_get_cstring in
      let! val := sshpkt_get_cstring in
      (if strcmp_eq name (cstr "server-sig-algs") then
         (match fst (match_list (cstr "rsa-sha2-256") val) with Some _ => update (set_rsa_sha2 256) | None => ret tt end) ;;;
         (match fst (match_list (cstr "rsa-sha2-512") val) with Some _ => update (set_rsa_sha2 512) | None => ret tt end)
       else ret tt) ;;;
      ext_info_loop n
  end.

Definition do_kex_input_ext_info : proc unit :=
  dispatch_set SSH2_MSG_EXT_INFO (Some kex_protocol_error) ;;;
  let! ninfo := sshpkt_get_u32 in
  ext_info_loop (Z.to_nat ninfo) ;;;
  sshpkt_get_end.

Definition set_peer (v : sshbuf) (k : kex) : kex :=
  let 'mk_kex si ni no we dh se na ha ht hn kt ei my _ al ec fc := k in
  mk_kex si ni no we dh se na ha ht hn kt ei my v al ec fc.
Definition set_my (v : sshbuf) (k : kex) : kex :=
  let 'mk_kex si ni no we dh se na ha ht hn kt ei _ pe al ec fc := k in
  mk_kex si ni no we dh se na ha ht hn kt ei v pe al ec fc.
Definition set_session_id (v : bytes) (k : kex) : kex :=
  let 'mk_kex _ ni no we dh se na ha ht hn kt ei my pe al ec fc := k in
  mk_kex v ni no we dh se na ha ht hn kt ei my pe al ec fc.
Definition set_server (v : bool) (k : kex) : kex :=
  let 'mk_kex si ni no we dh _ na ha ht hn kt ei my pe al ec fc := k in
  mk_kex si ni no we dh v na ha ht hn kt ei my pe al ec fc.
Definition update_kex (f : kex -> kex) : proc unit := on_ssh (on_kex (fun k => (Ok tt, f k))).

Definition do_kex_input_newkeys : proc unit :=
  dispatch_set SSH2_MSG_NEWKEYS (Some kex_protocol_error) ;;;
  sshpkt_get_end ;;;
  update (set_done true) ;;;
  update_kex (fun k => set_peer (sshbuf_reset A (k_peer k)) k) ;;;
  update (fun x => set_flags (Z.land (x_flags x) (Z.lnot KEX_INIT_SENT)) x) ;;;
  update_kex (set_name None).

Definition kex_send_kexinit : proc unit :=
  let! x := get_state in
  if negb (Z.land (x_flags x) KEX_INIT_SENT =? 0) then ret tt
  else
    update (set_done false) ;;;
    let my := k_my (the_kex x) in
    if sshbuf_len my <? KEX_COOKIE_LEN then fail SSH_ERR_INVALID_FORMAT
    else if negb (match sshbuf_mutable_ptr my with Some _ => true | None => false end)
    then fail SSH_ERR_INTERNAL_ERROR
    else
      let! cookie := arc4random_buf KEX_COOKIE_LEN in
      update_kex (fun k => set_my (set_mem (write_at (b_off my) cookie (b_mem my)) my) k) ;;;
      let! x := get_state in
      sshpkt_start SSH2_MSG_KEXINIT ;;;
      sshpkt_putb (k_my (the_kex x)) ;;;
      sshpkt_send ;;;
      update (fun x => set_flags (Z.lor (x_flags x) KEX_INIT_SENT) x).

(** The methods that the program has put into [kex->kex]. *)
Abbreviation kex_methods := (Z -> option (proc unit)).

Definition do_kex_input_kexinit (methods : kex_methods) : proc unit :=
  (fun x =>
     let '(r, peer) := sshbuf_put A (buf_bytes (x_incoming x)) (sshbuf_len (x_incoming x)) (k_peer (the_kex x)) in
     (r, snd (update_kex (set_peer peer) x))) ;;;
  repeat_m (Z.to_nat KEX_COOKIE_LEN) (let! _ := sshpkt_get_u8 in ret tt) ;;;
  repeat_m (Z.to_nat PROPOSAL_MAX) (let! _ := sshpkt_get_string false in ret tt) ;;;
  let! _ := sshpkt_get_u8 in
  let! _ := sshpkt_get_u32 in
  sshpkt_get_end ;;;
  let! x := get_state in
  (if Z.land (x_flags x) KEX_INIT_SENT =? 0 then kex_send_kexinit else ret tt) ;;;
  on_ssh (kex_choose_conf A hmac) ;;;
  let! x := get_state in
  match (if k_kex_type (the_kex x) <? KEX_MAX then methods (k_kex_type (the_kex x)) else None) with
  | Some method => method
  | None => fail SSH_ERR_INTERNAL_ERROR
  end.

(** ** kexc25519.c, kexc25519c.c, kexc25519s.c *)

(** The key and its public value. *)
Definition kexc25519_keygen : proc (bytes * bytes) :=
  let! key := arc4random_buf CURVE25519_SIZE in
  ret (key, crypto_scalarmult key basepoint).

Definition kexc25519_client : proc unit :=
  let! (key, pub) := kexc25519_keygen in
  update (set_client_key key) ;;;
  update (set_client_pubkey pub) ;;;
  sshpkt_start SSH2_MSG_KEX_ECDH_INIT ;;;
  sshpkt_put_string pub ;;;
  sshpkt_send ;;;
  dispatch_set SSH2_MSG_KEX_ECDH_REPLY (Some input_kex_c25519_reply).

(** "save session id" *)
Definition save_session_id (h : bytes) : proc unit :=
  let! x := get_state in
  if bool_decide (k_session_id (the_kex x) = [])
  then if mem then update_kex (set_session_id h) else fail SSH_ERR_ALLOC_FAIL
  else ret tt.

(** [sshbuf_new] and [kexc25519_shared_key]. *)
Definition shared_secret_of (key pub : bytes) : proc sshbuf :=
  match sshbuf_new A with
  | None => fail SSH_ERR_ALLOC_FAIL
  | Some b =>
      match kexc25519_shared_key A key pub b with
      | (Ok _, b) => ret b
      | (Err r, _) => fail r
      end
  end.

Definition derive_and_send_newkeys (h : bytes) (shared_secret : sshbuf) : proc unit :=
  on_ssh (on_kex (kex_derive_keys mem h shared_secret)) ;;;
  kex_send_newkeys.

Definition reply_body : proc unit :=
  match verify_host_key with
  | None => fail SSH_ERR_INVALID_ARGUMENT
  | Some verify =>
      let! server_host_key_blob := sshpkt_get_string true in
      let! server_host_key := lift (hk_from_blob server_host_key_blob) in
      let! x := get_state in
      let kex := the_kex x in
      if negb (hk_type server_host_key =? k_hostkey_type kex) ||
         ((k_hostkey_type kex =? KEY_ECDSA) && negb (hk_ecdsa_nid server_host_key =? k_hostkey_nid kex))
      then fail SSH_ERR_KEY_TYPE_MISMATCH
      else if verify server_host_key =? -1 then fail SSH_ERR_SIGNATURE_INVALID
      else
        let! server_pubkey := sshpkt_get_string true in
        let! signature := sshpkt_get_string true in
        sshpkt_get_end ;;;
        if negb (zlen server_pubkey =? CURVE25519_SIZE) then fail SSH_ERR_SIGNATURE_INVALID
        else
          let! shared_secret := shared_secret_of (x_client_key x) server_pubkey in
          let! h := lift (kex_c25519_hash A (k_hash_alg kex) (x_client_version x) (x_server_version x)
            (buf_bytes (k_my kex)) (buf_bytes (k_peer kex)) server_host_key_blob
            (x_client_pubkey x) server_pubkey (buf_bytes shared_secret) SSH_DIGEST_MAX_LENGTH) in
          lift (hk_verify server_host_key signature h (ssh_compat (x_ssh x))) ;;;
          save_session_id h ;;;
          derive_and_send_newkeys h shared_secret
  end.

(** [input_kex_c25519_reply] *)
Definition do_input_kex_c25519_reply : proc unit := fun x =>
  let '(r, x) := reply_body x in (r, set_client_key (zrep CURVE25519_SIZE 0) x).

Definition kexc25519_server : proc unit :=
  dispatch_set SSH2_MSG_KEX_ECDH_INIT (Some input_kex_c25519_init).

(** [input_kex_c25519_init] *)
Definition do_input_kex_c25519_init : proc unit :=
  let! (server_key, server_pubkey) := kexc25519_keygen in
  match load_host_public_key, load_host_private_key with
  | Some load_public, Some load_private =>
      let! x := get_state in
      let kex := the_kex x in
      let server_host_private := load_private (k_hostkey_type kex) (k_hostkey_nid kex) in
      match load_public (k_hostkey_type kex) (k_hostkey_nid kex) with
      | None => fail SSH_ERR_NO_HOSTKEY_LOADED
      | Some server_host_public =>
          let! client_pubkey := sshpkt_get_string true in
          sshpkt_get_end ;;;
          if negb (zlen client_pubkey =? CURVE25519_SIZE) then fail SSH_ERR_SIGNATURE_INVALID
          else
            let! shared_secret := shared_secret_of server_key client_pubkey in
            let! server_host_key_blob := lift (hk_to_blob server_host_public) in
            let! h := lift (kex_c25519_hash A (k_hash_alg kex) (x_client_version x) (x_server_version x)
              (buf_bytes (k_peer kex)) (buf_bytes (k_my kex)) server_host_key_blob
              client_pubkey server_pubkey (buf_bytes shared_secret) SSH_DIGEST_MAX_LENGTH) in
            save_session_id h ;;;
            let! signature := lift (kex_sign server_host_private server_host_public h (k_hostkey_alg kex)
              (ssh_compat (x_ssh x))) in
            sshpkt_start SSH2_MSG_KEX_ECDH_REPLY ;;;
            sshpkt_put_string server_host_key_blob ;;;
            sshpkt_put_string server_pubkey ;;;
            sshpkt_put_string signature ;;;
            sshpkt_send ;;;
            derive_and_send_newkeys h shared_secret
      end
  | _, _ => fail SSH_ERR_INVALID_ARGUMENT
  end.

(** ** The start *)

Definition kex_zero (my peer : sshbuf) : kex :=
  mk_kex [] None None 0 0 false None None 0 0 0 0 my peer 0 0 None.

(** When it fails there is no [kex] and the state is not used further. *)
Definition kex_new (proposal : list bytes) : proc unit :=
  match sshbuf_new A, sshbuf_new A with
  | Some peer, Some my =>
      match kex_prop2buf A proposal my with
      | (Ok _, my) =>
          update (fun x => set_flags 0 (set_done false (set_rsa_sha2 0 (set_client_key (zrep CURVE25519_SIZE 0)
            (set_client_pubkey (zrep CURVE25519_SIZE 0) x))))) ;;;
          kex_reset_dispatch ;;;
          update_kex (fun _ => kex_zero my peer)
      | (Err r, _) => fail r
      end
  | _, _ => fail SSH_ERR_ALLOC_FAIL
  end.

Definition kex_setup (proposal : list bytes) : proc unit :=
  kex_new proposal ;;;
  kex_send_kexinit.

Definition kex_start_rekex : proc unit :=
  let! x := get_state in
  if negb (x_done x) then fail SSH_ERR_INTERNAL_ERROR
  else
    update (set_done false) ;;;
    kex_send_kexinit.

(** What a handler of the table does. *)
Definition call_kex (methods : kex_methods) (fn : kex_fn) (seq : Z) : proc unit :=
  match fn with
  | kex_protocol_error => do_kex_protocol_error seq
  | kex_input_kexinit => do_kex_input_kexinit methods
  | kex_input_newkeys => do_kex_input_newkeys
  | kex_input_ext_info => do_kex_input_ext_info
  | input_kex_c25519_reply => do_input_kex_c25519_reply
  | input_kex_c25519_init => do_input_kex_c25519_init
  end.

Definition sshpkt_disconnect (msg : bytes) : proc unit :=
  sshpkt_start SSH2_MSG_DISCONNECT ;;;
  sshpkt_put_u32 SSH2_DISCONNECT_PROTOCOL_ERROR ;;;
  sshpkt_put_cstring (ztake 1023 msg) ;;;
  sshpkt_put_cstring [] ;;;
  sshpkt_send.

#[export] Instance kex_host (methods : kex_methods) : DispatchHost kex_ssh kex_fn := {
  host_table := x_table;
  host_skip x := ssh_dispatch_skip_packets (x_ssh x);
  host_set_skip n := on_ssh (fun s => (Ok tt, mk_ssh (ssh_kex s) (ssh_compat s) n));
  host_receive payload := on_incoming (fun b => (sshbuf_put A payload (zlen payload)) (sshbuf_reset A b));
  host_call fn _ seq := call_kex methods fn seq;
  host_disconnect type := sshpkt_disconnect (cstr "protocol error: rcvd type " ++ cstr (pretty type));
  host_done := x_done
}.

(** The methods of a program that offers this one only; which of the two it
    installs depends on its side. *)
Definition c25519_methods (server : bool) : kex_methods := fun type =>
  if type =? KEX_C25519_SHA256 then Some (if server then kexc25519_server else kexc25519_client) else None.

(** The key exchange of a program: [kex_setup], the fields of [kex] that the
    program sets, and the loop until [done]. *)
Definition run_kex (server : bool) (client_version server_version : bytes) (proposal : list bytes)
    (packets : list (result packet)) : proc run_end :=
  kex_setup proposal ;;;
  update_kex (set_server server) ;;;
  update (set_versions client_version server_version) ;;;
  ssh_dispatch_run (H := kex_host (c25519_methods server)) true packets.
End run.
