(* ===== verification/KexRunSpec.v ===== *)
(** The key exchange curve25519-sha256 of KexRun.v: what an accepted reply
    guarantees to the client, that two ends complete the exchange and agree, and
    two weaknesses of the code. *)

From Stdlib Require Import String.
From S2P Require Import Prelude Wire CString Ssh2 Sshbuf SshbufGetput SshbufSpec Glob Algs ChachaPoly.
From S2P Require Import Digest Kex Dispatch Curve25519 X25519 KexRun.

(** ** Specification *)

(** The exchange hash of RFC 5656, section 4: the versions, the two KEXINIT
    messages with their type, the host key, the public values, the secret. *)
Definition transcript (client_version server_version ckexinit skexinit blob cpub spub secret : bytes) : bytes :=
  wr_string client_version ++ wr_string server_version ++
  wr_string (SSH2_MSG_KEXINIT :: ckexinit) ++ wr_string (SSH2_MSG_KEXINIT :: skexinit) ++
  wr_string blob ++ wr_string cpub ++ wr_string spub ++ wr_bignum2 secret.

(** The version strings. *)
Definition is_version (v : bytes) : Prop := is_cstring v /\ zlen v <= 255.

(** The state after an exchange with the hash [h]: the first hash of a connection
    is its session identifier, and the keys are those of RFC 4253, section 7.2. *)
Record keys_installed `{EvpSpec} (h secret : bytes) (k k' : kex) : Prop := {
  ki_sid : k_session_id k' = if bool_decide (k_session_id k = []) then h else k_session_id k;
  ki_keys : let key := kdf_key (set_session_id (k_session_id k') k) h secret in
    let ctos := set_keys (key "A"%string) (key "C"%string) (key "E"%string) in
    let stoc := set_keys (key "B"%string) (key "D"%string) (key "F"%string) in
    k_newkeys_out k' = (if k_server k then stoc else ctos) <$> k_newkeys_out k /\
    k_newkeys_in k' = (if k_server k then ctos else stoc) <$> k_newkeys_in k
}.

(** What the method needs of the multiplication. *)
Class CurveSpec (C : Curve) : Prop := {
  mult_Bytes key pub : Bytes key -> Bytes pub -> zlen key = CURVE25519_SIZE -> zlen pub = CURVE25519_SIZE ->
    Bytes (crypto_scalarmult key pub);
  mult_zlen key pub : Bytes key -> Bytes pub -> zlen key = CURVE25519_SIZE -> zlen pub = CURVE25519_SIZE ->
    zlen (crypto_scalarmult key pub) = CURVE25519_SIZE
}.

(** ** Lemmas: the hash *)

Lemma kexinit_string (v : bytes) : be_bytes 4 (zlen v + 1) ++ [SSH2_MSG_KEXINIT] ++ v = wr_string (SSH2_MSG_KEXINIT :: v).
Proof. unfold wr_string. by rewrite zlen_cons, Z.add_comm. Qed.

(** What goes into the hash, for the bytes and sizes that buffers have. *)
Definition hashable (v : bytes) : Prop := Bytes v /\ zlen v < 2 ^ 32 - 1.

Lemma wr_string_Bytes v : Bytes v -> Bytes (wr_string v).
Proof. intros. apply Forall_app. split; [apply be_bytes_Bytes|done]. Qed.
Lemma wr_bignum2_Bytes v : Bytes v -> Bytes (wr_bignum2 v).
Proof. intros. by apply wr_string_Bytes, bignum2_body_Bytes. Qed.

Lemma wr_bignum2_zlen v : zlen (wr_bignum2 v) <= zlen v + 5.
Proof.
  unfold wr_bignum2, bignum2_body. rewrite wr_string_zlen. pose proof (trim_zeros_zlen v).
  destruct (_ && _); rewrite ?zlen_cons; lia.
Qed.

Lemma hash_input_appends A cv sv ckex skex blob cpub spub secret :
  Bytes cv -> Bytes sv -> hashable ckex -> hashable skex -> Bytes blob ->
  Bytes cpub -> zlen cpub = CURVE25519_SIZE -> Bytes spub -> zlen spub = CURVE25519_SIZE -> Bytes secret ->
  Appends A (c25519_hash_input A cv sv ckex skex blob cpub spub (wr_bignum2 secret))
    (transcript cv sv ckex skex blob cpub spub secret).
Proof.
  intros Hcv Hsv [Hc Lc] [Hs Ls] Hb Hcp Lcp Hsp Lsp Hk. pose proof (zlen_nonneg ckex). pose proof (zlen_nonneg skex).
  unfold c25519_hash_input, transcript. rewrite <- !kexinit_string, <- !(assoc_L (++)).
  rewrite !wrap_small by (unfold in_range; lia).
  repeat (apply appends_bind; [apply atomic_appends|]).
  all: try (apply sshbuf_put_cstring_atomic; done).
  all: try (apply sshbuf_put_string_atomic; done).
  all: try (rewrite <- Lcp; apply sshbuf_put_string_atomic; done).
  all: try (rewrite <- Lsp; apply sshbuf_put_string_atomic; done).
  all: try (apply sshbuf_put_atomic; done).
  all: try (apply sshbuf_put_u32_atomic; unfold in_range; lia).
  all: try (by apply sshbuf_put_u8_atomic).
  by apply sshbuf_put_appends, wr_bignum2_Bytes.
Qed.

Lemma buffer_hashable b : wf b -> hashable (contents b).
Proof.
  intros Hb. split; [auto with ssh|]. rewrite <- sshbuf_len_contents by done.
  pose proof (contents_zlen b Hb). wf_unpack Hb. pose proof (wf_max _ Hb). rewrite sshbuf_len_contents by done.
  unfold SSHBUF_SIZE_MAX in *. lia.
Qed.

Section hash.
Context `{EvpSpec}.

(** The hash of the transcript, or an error. *)
Lemma kex_c25519_hash_spec A alg cv sv ckex skex blob cpub spub secret :
  ssh_digest_by_alg alg <> None ->
  Bytes cv -> Bytes sv -> hashable ckex -> hashable skex -> Bytes blob ->
  Bytes cpub -> zlen cpub = CURVE25519_SIZE -> Bytes spub -> zlen spub = CURVE25519_SIZE -> Bytes secret ->
  let t := transcript cv sv ckex skex blob cpub spub secret in
  let r := kex_c25519_hash A alg cv sv ckex skex blob cpub spub (wr_bignum2 secret) SSH_DIGEST_MAX_LENGTH in
  (forall h, r = Ok h -> h = hash alg t) /\ (alloc_ok A -> zlen t <= SSHBUF_SIZE_MAX -> r = Ok (hash alg t)).
Proof.
  intros Hk Hcv Hsv Hc Hs Hb Hcp Lcp Hsp Lsp Hn. cbv zeta.
  pose proof (hash_input_appends A _ _ _ _ _ _ _ _ Hcv Hsv Hc Hs Hb Hcp Lcp Hsp Lsp Hn) as Ha.
  unfold kex_c25519_hash. set (t := transcript _ _ _ _ _ _ _ _) in *.
  pose proof (digest_bytes_pos alg Hk). unfold SSH_DIGEST_MAX_LENGTH.
  destruct (Z.ltb_spec 64 (ssh_digest_bytes alg)); [lia|].
  destruct (sshbuf_new A) as [b|] eqn:Eb.
  2: { split; [done|]. intros HA. destruct (sshbuf_new_some A HA). congruence. }
  destruct (full_new A b Eb) as (Hr & Cb). pose proof (proj1 Hr) as Hw.
  assert (forall b', wf b' -> contents b' = t ->
    match ssh_digest_buffer alg b' 64 with
    | Err _ => Err SSH_ERR_LIBCRYPTO_ERROR
    | Ok d => Ok (ztake (ssh_digest_bytes alg) d)
    end = Ok (hash alg t)) as Hd.
  { intros b' Hw' Cb'. unfold ssh_digest_buffer. rewrite sshbuf_len_contents, ptr_of_take, Cb' by done.
    rewrite ssh_digest_memory_eq by (done || unfold UINT_MAX; lia).
    f_equal. apply ztake_ge. by rewrite hash_zlen. }
  split.
  - intros h. destruct (c25519_hash_input _ _ _ _ _ _ _ _ _ b) as [[[]|e] b'] eqn:Ei; [|done].
    specialize (Ha b Hw). rewrite Ei in Ha. destruct Ha as (Hw' & _ & Cb'). rewrite Cb in Cb'.
    rewrite Hd by done. congruence.
  - intros HA Hl. destruct (full_appends A _ _ b HA Hr Ha) as (b' & Ei & Hr' & Cb').
    { rewrite Cb, (@zlen_nil Z). lia. }
    rewrite Ei. rewrite Cb in Cb'. apply Hd; [apply Hr'|done].
Qed.
End hash.

(** ** Lemmas: the secret *)

Section secret.
Context `{HC : CurveSpec}.

Lemma zero_point_Bytes : Bytes (zrep CURVE25519_SIZE 0).
Proof. by apply Forall_replicate. Qed.

Lemma zero_check pub :
  Bytes pub -> zlen pub = CURVE25519_SIZE ->
  timingsafe_bcmp pub (zrep CURVE25519_SIZE 0) CURVE25519_SIZE = 0 <-> pub = zrep CURVE25519_SIZE 0.
Proof.
  intros Hp Lp. rewrite timingsafe_bcmp_zero; [|done|apply zero_point_Bytes|rewrite Lp; by vm_compute|by vm_compute].
  rewrite (ztake_ge _ pub) by lia. done.
Qed.

Lemma shared_key_spec A key pub b :
  Bytes key -> zlen key = CURVE25519_SIZE -> Bytes pub -> zlen pub = CURVE25519_SIZE -> full b ->
  match kexc25519_shared_key A key pub b with
  | (Ok _, b') => full b' /\ pub <> zrep CURVE25519_SIZE 0 /\ contents b' = wr_bignum2 (crypto_scalarmult key pub)
  | (Err _, _) => alloc_ok A -> pub = zrep CURVE25519_SIZE 0
  end.
Proof.
  intros Hk Lk Hp Lp Hb. unfold kexc25519_shared_key.
  destruct (Z.eqb_spec (timingsafe_bcmp pub (zrep CURVE25519_SIZE 0) CURVE25519_SIZE) 0) as [Hz|Hz].
  { intros _. by apply zero_check. }
  rewrite zero_check in Hz by done. unfold bind.
  destruct (full_reset A b Hb) as [Hr Cr]. set (b1 := sshbuf_reset A b) in *.
  pose proof (mult_Bytes key pub Hk Hp Lk Lp) as Hm. pose proof (mult_zlen key pub Hk Hp Lk Lp) as Lm.
  assert (appends_atomic A (sshbuf_put_bignum2_bytes A (crypto_scalarmult key pub) CURVE25519_SIZE)
    (wr_bignum2 (crypto_scalarmult key pub))) as Ha.
  { rewrite <- Lm. apply sshbuf_put_bignum2_bytes_atomic; [done|]. rewrite Lm. by vm_compute. }
  pose proof (atomic_appends _ _ _ Ha) as Hap. destruct (sshbuf_put_bignum2_bytes _ _ _ b1) as [[[]|e] b2] eqn:E.
  - specialize (Hap b1 (proj1 Hr)). rewrite E in Hap. destruct Hap as (Hw & F & Cb). split; [by eapply same_frame_full|].
    split; [done|]. by rewrite Cb, Cr.
  - intros HA. destruct (full_appends A _ _ b1 HA Hr Hap) as (b' & E' & _); [|congruence].
    pose proof (wr_bignum2_zlen (crypto_scalarmult key pub)).
    rewrite Cr, (@zlen_nil Z). unfold CURVE25519_SIZE, SSHBUF_SIZE_MAX in *. lia.
Qed.
End secret.

(** The code's multiplication is one. *)
#[export] Instance curve25519_spec : CurveSpec curve25519.
Proof.
  split; intros key pub Bk Bp Lk Lp; change (crypto_scalarmult key pub) with (crypto_scalarmult_curve25519 key pub);
    unfold zlen, CURVE25519_SIZE in *; rewrite scalarmult_X25519 by (assumption || lia);
    [apply le_bytes_Bytes|by rewrite le_bytes_length].
Qed.

(** 32 bytes of a number that is zero in the field, but is not the number zero. *)
Definition zero_point : bytes := le_bytes 32 p25519.

Lemma scalarmult_zero_point key :
  Bytes key -> zlen key = CURVE25519_SIZE -> crypto_scalarmult (Curve := curve25519) key zero_point = zrep CURVE25519_SIZE 0.
Proof.
  intros Bk Lk. change (crypto_scalarmult key zero_point) with (crypto_scalarmult_curve25519 key zero_point).
  unfold zlen, CURVE25519_SIZE in Lk. rewrite scalarmult_X25519; [|lia|reflexivity|assumption|apply le_bytes_Bytes].
  rewrite X25519_zero; [reflexivity|]. by vm_compute.
Qed.

(** ** Lemmas: packets that are read *)

Lemma incoming_inv {X} (m : M sshbuf X) spec x v x' :
  Refines m spec -> wf (x_incoming x) -> on_incoming m x = (Ok v, x') ->
  exists b, x' = set_in b x /\ wf b /\ spec (contents (x_incoming x)) = Ok (v, contents b).
Proof.
  intros Hm Hw. specialize (Hm (x_incoming x) Hw). unfold on_incoming.
  destruct (spec (contents (x_incoming x))) as [[w rest]|e].
  - destruct Hm as (b & -> & Hb & _ & <-). intros [= <- <-]. by exists b.
  - destruct Hm as (b & -> & _). done.
Qed.

Lemma get_string_inv A x v x' :
  alloc_ok A -> wf (x_incoming x) -> sshpkt_get_string A true x = (Ok v, x') ->
  exists b, x' = set_in b x /\ wf b /\ contents (x_incoming x) = wr_string v ++ contents b /\ Bytes v.
Proof.
  intros HA Hw (r & x1 & E1 & E2)%bind_Ok.
  apply (incoming_inv _ _ _ _ _ (sshbuf_get_string_refines A true HA) Hw) in E1 as (b & -> & Hb & E1).
  revert E1. unfold rd_bind, rd_ret.
  pose proof (rd_string_reads (contents (x_incoming x)) ltac:(auto with ssh)) as P.
  destruct (rd_string _) as [[w rest]|e]; [|done]. intros [= <- ->].
  unfold string_copy in E2. simpl in E2. rewrite ztake_app_le, ztake_ge in E2 by lia. injection E2 as <- <-.
  exists b. split_and!; try done.
  assert (Bytes (wr_string w ++ contents b)) as HB by (rewrite <- P; auto with ssh).
  apply Forall_app in HB as [HB _]. by apply Forall_app in HB as [_ HB].
Qed.

Lemma get_end_inv x x' : wf (x_incoming x) -> sshpkt_get_end x = (Ok tt, x') -> x' = x /\ contents (x_incoming x) = [].
Proof.
  intros Hw. unfold sshpkt_get_end, bind, get_state. rewrite sshbuf_len_contents by done.
  destruct (Z.ltb_spec 0 (zlen (contents (x_incoming x)))); [done|]. intros [= <-]. split; [done|].
  apply zlen_0_nil. pose proof (zlen_nonneg (contents (x_incoming x))). lia.
Qed.

Lemma lift_inv {S X} (r : result X) (s : S) v s' : lift r s = (Ok v, s') -> r = Ok v /\ s' = s.
Proof. unfold lift. by intros [= -> ->]. Qed.

Lemma shared_secret_inv `{CurveSpec} A key pub x b x' :
  Bytes key -> zlen key = CURVE25519_SIZE -> Bytes pub -> zlen pub = CURVE25519_SIZE ->
  shared_secret_of A key pub x = (Ok b, x') ->
  x' = x /\ full b /\ pub <> zrep CURVE25519_SIZE 0 /\ contents b = wr_bignum2 (crypto_scalarmult key pub).
Proof.
  intros Hk Lk Hp Lp. unfold shared_secret_of. destruct (sshbuf_new A) as [b0|] eqn:Eb; [|done].
  pose proof (shared_key_spec A key pub b0 Hk Lk Hp Lp (proj1 (full_new A b0 Eb))) as Hs.
  destruct (kexc25519_shared_key A key pub b0) as [[[]|e] b1]; [|done]. by intros [= <- <-].
Qed.

(** ** Lemmas: the computations that leave the negotiated data alone *)

Section frame.
Context {sshkey : Type} (A : allocator) `{EvpSpec} `{KexWorld} `{HostKey sshkey}.

Definition same_kex (x x' : kex_ssh) : Prop := the_kex x' = the_kex x.
Class SameKex {X} (m : M kex_ssh X) : Prop := run_same_kex x : same_kex x (snd (m x)).

#[export] Instance same_kex_bind {X Y} (m : M kex_ssh X) (k : X -> M kex_ssh Y) :
  SameKex m -> (forall a, SameKex (k a)) -> SameKex (bind m k).
Proof.
  intros Hm Hk x. unfold bind. specialize (Hm x). destruct (m x) as [[a|e] x1]; [|done].
  specialize (Hk a x1). unfold same_kex in *. simpl in *. congruence.
Qed.
#[export] Instance same_kex_ret {X} (a : X) : SameKex (ret a).
Proof. by intros x. Qed.
#[export] Instance same_kex_get : SameKex get_state.
Proof. by intros x. Qed.
#[export] Instance same_kex_outgoing {X} (m : M sshbuf X) : SameKex (on_outgoing m).
Proof. intros x. unfold on_outgoing. by destruct (m (x_outgoing x)). Qed.
#[export] Instance same_kex_set type fn : SameKex (dispatch_set type fn).
Proof. by intros x. Qed.
#[export] Instance same_kex_send : SameKex sshpkt_send.
Proof. intros x. unfold sshpkt_send, bind, get_state. by destruct (negb _). Qed.
#[export] Instance same_kex_reset : SameKex kex_reset_dispatch.
Proof. by intros x. Qed.
#[export] Instance same_kex_ext_info : SameKex (kex_send_ext_info A).
Proof. apply _. Qed.
#[export] Instance same_kex_newkeys : SameKex (kex_send_newkeys A).
Proof. repeat (apply same_kex_bind; [apply _|intros ?]). destruct (negb _); apply _. Qed.

Lemma kex_derive_keys_frame mem h secret k :
  k_session_id (snd (kex_derive_keys mem h secret k)) = k_session_id k.
Proof. unfold kex_derive_keys. destruct (derive_keys_loop _ _ _ _ _); by destruct k. Qed.

Definition installs (h secret : bytes) (x x' : kex_ssh) : Prop :=
  keys_installed h secret (the_kex x) (the_kex x').

(** The end of both handlers. *)
Definition finish (h : bytes) (secret : sshbuf) : M kex_ssh unit :=
  save_session_id true h ;;;
  derive_and_send_newkeys A true h secret.

Lemma derive_installs h secret k :
  ssh_digest_by_alg (k_hash_alg k) <> None -> 0 < k_we_need k < 2 ^ 31 -> wf secret ->
  let k1 := if bool_decide (k_session_id k = []) then set_session_id h k else k in
  exists k', kex_derive_keys true h secret k1 = (Ok tt, k') /\ keys_installed h (contents secret) k k'.
Proof.
  intros Hd Hn Hw k1.
  assert (k_session_id k1 = if bool_decide (k_session_id k = []) then h else k_session_id k) as Es.
  { unfold k1. destruct (bool_decide _); [by destruct k|done]. }
  assert (k1 = set_session_id (k_session_id k1) k) as Ek.
  { unfold k1. destruct (bool_decide _); by destruct k. }
  destruct (kex_derive_keys_eq k1 h secret) as (k' & Er & Ho & Hi); [by rewrite Ek; destruct k|done|by rewrite Ek; destruct k|].
  pose proof (kex_derive_keys_frame true h secret k1) as Hf. rewrite Er in Hf. simpl in Hf.
  exists k'. split; [done|]. split; [by rewrite Hf|]. cbv zeta. rewrite Hf, <- Ek.
  rewrite Ho, Hi. rewrite Ek. by destruct k.
Qed.

Lemma save_session_run h x :
  save_session_id true h x = (Ok tt, set_ssh (mk_ssh
    (if bool_decide (k_session_id (the_kex x) = []) then set_session_id h (the_kex x) else the_kex x)
    (ssh_compat (x_ssh x)) (ssh_dispatch_skip_packets (x_ssh x))) x).
Proof. unfold save_session_id, bind, get_state. destruct (bool_decide _); [done|]. by destruct x as [[] ? ? ? ? ? ? ? ? ? ? ? ?]. Qed.

Lemma finish_inv h secret x x' :
  ssh_digest_by_alg (k_hash_alg (the_kex x)) <> None -> 0 < k_we_need (the_kex x) < 2 ^ 31 -> wf secret ->
  finish h secret x = (Ok tt, x') -> installs h (contents secret) x x'.
Proof.
  intros Hd Hn Hw. unfold finish, bind at 1. rewrite save_session_run.
  destruct (derive_installs h secret (the_kex x) Hd Hn Hw) as (k' & Er & Hk).
  unfold derive_and_send_newkeys, bind at 1, on_ssh, on_kex. cbn [x_ssh set_ssh ssh_kex]. rewrite Er. intros Hs.
  match type of Hs with _ ?y = _ => pose proof (run_same_kex y) as Hsame end.
  rewrite Hs in Hsame. unfold installs. change (the_kex x' = k') in Hsame. by rewrite Hsame.
Qed.
End frame.

(** ** Examples: a curve, a source of random numbers and host keys *)

(** Multiplication byte by byte. *)
Definition toy_curve : Curve := {| crypto_scalarmult key pub := zip_with (fun a b => (a * b) mod 256) key pub |}.
Lemma toy_curve_spec : CurveSpec toy_curve.
Proof.
  split; intros key pub _ _ Lk Lp; cbn.
  - generalize pub. clear. induction key as [|a key IH]; intros [|b pub]; cbn; constructor; [|apply IH].
    unfold in_range. pose proof (Z.mod_pos_bound (a * b) 256 ltac:(lia)). cbn. lia.
  - unfold zlen in *. rewrite length_zip_with. lia.
Qed.

Definition toy_world (seed : Z) : KexWorld :=
  {| kw_random i n := zrep n ((seed + i) mod 256); kw_send _ _ := 0 |}.

(** A key is its blob; a signature is the key and the hash. *)
Definition toy_key : bytes := cstr "toy host key".
Definition toy_host : HostKey bytes := {|
  hk_from_blob blob := Ok blob;
  hk_to_blob key := Ok key;
  hk_type _ := KEY_RSA;
  hk_ecdsa_nid _ := -1;
  hk_verify key sig h _ := if bool_decide (sig = key ++ h) then Ok tt else Err SSH_ERR_SIGNATURE_INVALID;
  verify_host_key := Some (fun key => if bool_decide (key = toy_key) then 0 else -1);
  load_host_public_key := Some (fun type _ => if type =? KEY_RSA then Some toy_key else None);
  load_host_private_key := Some (fun type _ => if type =? KEY_RSA then Some toy_key else None);
  kex_sign priv pub h _ _ := match priv with Some key => Ok (key ++ h) | None => Err SSH_ERR_NO_HOSTKEY_LOADED end
|}.

Definition kex_demo_buf (v : bytes) : sshbuf := snd (sshbuf_put test_alloc v (zlen v) (small_buf 4096)).
Lemma kex_demo_buf_wf v : Bytes v -> zlen v <= 4096 -> wf (kex_demo_buf v).
Proof.
  intros Hv Hl. unfold kex_demo_buf. pose proof (sshbuf_put_atomic test_alloc v Hv (small_buf 4096) (small_buf_wf 4096 ltac:(lia))) as H.
  destruct (sshbuf_put _ _ _ _) as [r b]. apply H.
Qed.

(** A client that waits for the reply, which is in [x_incoming]. *)
Definition demo_ckey : bytes := zrep CURVE25519_SIZE 5.
Definition demo_skey : bytes := zrep CURVE25519_SIZE 7.
Definition demo_pub (key : bytes) : bytes := crypto_scalarmult (Curve := toy_curve) key basepoint.
Definition demo_version : bytes := cstr "SSH-2.0-demo".
Definition demo_ckexinit : bytes := cstr "client".
Definition demo_skexinit : bytes := cstr "server".
Definition demo_hash : bytes := hash SSH_DIGEST_SHA256 (transcript demo_version demo_version demo_ckexinit demo_skexinit toy_key
  (demo_pub demo_ckey) (demo_pub demo_skey) (crypto_scalarmult (Curve := toy_curve) demo_ckey (demo_pub demo_skey))).
Definition demo_reply : bytes := wr_string toy_key ++ wr_string (demo_pub demo_skey) ++ wr_string (toy_key ++ demo_hash).
Definition demo_client : kex_ssh :=
  mk_kex_ssh (mk_ssh (mk_kex [] (Some newkeys_zero) (Some newkeys_zero) 32 32 false None (Some (cstr "ssh-rsa")) KEY_RSA (-1)
      KEX_C25519_SHA256 0 (kex_demo_buf demo_ckexinit) (kex_demo_buf demo_skexinit) SSH_DIGEST_SHA256 0 None) 0 0)
    KEX_INIT_SENT false 0 demo_version demo_version demo_ckey (demo_pub demo_ckey) (replicate 255 None)
    (kex_demo_buf demo_reply) (kex_demo_buf []) [] 2.
Abbreviation demo_accepted :=
  (do_input_kex_c25519_reply (H0 := toy_curve) (W := toy_world 0) (H1 := toy_host) test_alloc true demo_client).

Lemma demo_Bytes v : forallb (fun c => (0 <=? c) && (c <? 256)) v = true -> Bytes v.
Proof.
  intros Hs. apply List.Forall_forall. intros c Hc. rewrite forallb_forall in Hs. specialize (Hs c Hc).
  unfold in_range. lia.
Qed.

(** ** Properties *)

Lemma wr_string_app_inj v v' l l' :
  zlen v <= WIRE_STRING_MAX -> zlen v' <= WIRE_STRING_MAX -> wr_string v ++ l = wr_string v' ++ l' -> v = v' /\ l = l'.
Proof. intros Hv Hv' E. apply (f_equal rd_string) in E. rewrite !rd_string_app in E by done. by injection E. Qed.

(** Fields whose lengths fit. *)
Definition fits (cv sv ck sk blob cpub spub secret : bytes) : Prop :=
  Forall (fun v => zlen v < WIRE_STRING_MAX) [cv; sv; ck; sk; blob; cpub; spub; secret].



(** C3. A client accepts a reply only from the host it wants to talk to.  When
    [input_kex_c25519_reply] succeeds, the packet is a host key, a public value and a
    signature and nothing else; the host key is one that [verify_host_key] has not
    refused, of the type that was negotiated; the public value has 32 bytes that
    are not all zero; and the signature by that key is valid for the hash of the
    exchange as the client has seen it: both versions, both KEXINIT messages, the
    host key, the client's own public value, the server's, and the secret.  The
    session identifier is that hash if there was none, the keys are derived from the
    hash and the secret, and the client's key is erased. *)
Theorem c25519_client_authenticates {sshkey} A `{EvpSpec} `{CurveSpec} `{KexWorld} `{HostKey sshkey} x x' :
  alloc_ok A -> wf (x_incoming x) -> wf (k_my (the_kex x)) -> wf (k_peer (the_kex x)) ->
  is_version (x_client_version x) -> is_version (x_server_version x) ->
  Bytes (x_client_key x) -> zlen (x_client_key x) = CURVE25519_SIZE ->
  Bytes (x_client_pubkey x) -> zlen (x_client_pubkey x) = CURVE25519_SIZE ->
  ssh_digest_by_alg (k_hash_alg (the_kex x)) <> None -> 0 < k_we_need (the_kex x) < 2 ^ 31 ->
  do_input_kex_c25519_reply A true x = (Ok tt, x') ->
  let kex := the_kex x in
  exists verify key blob spub sig,
    contents (x_incoming x) = wr_string blob ++ wr_string spub ++ wr_string sig /\
    hk_from_blob blob = Ok key /\ hk_type key = k_hostkey_type kex /\
    (k_hostkey_type kex = KEY_ECDSA -> hk_ecdsa_nid key = k_hostkey_nid kex) /\
    verify_host_key = Some verify /\ verify key <> -1 /\
    zlen spub = CURVE25519_SIZE /\ spub <> zrep CURVE25519_SIZE 0 /\
    let secret := crypto_scalarmult (x_client_key x) spub in
    let h := hash (k_hash_alg kex) (transcript (x_client_version x) (x_server_version x)
      (contents (k_my kex)) (contents (k_peer kex)) blob (x_client_pubkey x) spub secret) in
    hk_verify key sig h (ssh_compat (x_ssh x)) = Ok tt /\
    keys_installed h (wr_bignum2 secret) kex (the_kex x') /\
    x_client_key x' = zrep CURVE25519_SIZE 0.
Proof.
  intros HA Hin Hmy Hpeer [Hcv _] [Hsv _] Hck Lck Hcp Lcp Hd Hneed Hrun kex.
  apply is_cstring_Bytes in Hcv, Hsv.
  unfold do_input_kex_c25519_reply in Hrun. destruct (reply_body A true x) as [r x1] eqn:Er.
  injection Hrun as -> <-. unfold reply_body in Er.
  destruct verify_host_key as [verify|]; [|done].
  apply bind_Ok in Er as (blob & y1 & E1 & Er). apply (get_string_inv A _ _ _ HA Hin) in E1 as (b1 & -> & W1 & C1 & HB1).
  apply bind_Ok in Er as (key & y2 & [Ekey ->]%lift_inv & Er).
  apply bind_Ok in Er as (y3 & y4 & [= <- <-] & Er). change (the_kex (set_in b1 x)) with kex in Er.
  destruct (negb (hk_type key =? _) || _) eqn:Ety; [done|]. apply orb_false_elim in Ety as [Ety Enid].
  apply negb_false_iff, Z.eqb_eq in Ety.
  destruct (Z.eqb_spec (verify key) (-1)); [done|].
  apply bind_Ok in Er as (spub & y5 & E2 & Er).
  apply (get_string_inv A (set_in b1 x) _ _ HA W1) in E2 as (b2 & -> & W2 & C2 & HB2).
  apply bind_Ok in Er as (sig & y6 & E3 & Er).
  apply (get_string_inv A (set_in b2 (set_in b1 x)) _ _ HA W2) in E3 as (b3 & -> & W3 & C3 & HB3).
  apply bind_Ok in Er as ([] & y7 & E4 & Er).
  apply (get_end_inv (set_in b3 (set_in b2 (set_in b1 x))) _ W3) in E4 as [-> C4].
  destruct (Z.eqb_spec (zlen spub) CURVE25519_SIZE) as [Ls|]; [|done]. cbn [negb] in Er.
  apply bind_Ok in Er as (secret & y8 & E5 & Er).
  apply shared_secret_inv in E5 as (-> & Hsec & Hnz & Csec); try done.
  apply bind_Ok in Er as (h & y9 & [Eh ->]%lift_inv & Er).
  apply bind_Ok in Er as ([] & y10 & [Ev ->]%lift_inv & Er).
  rewrite !buf_bytes_contents, Csec in Eh by (done || apply Hsec).
  apply kex_c25519_hash_spec in Eh; try done; try (by apply buffer_hashable); [|by apply mult_Bytes].
  apply (finish_inv A h secret (set_in b3 (set_in b2 (set_in b1 x)))) in Er; [|done|done|apply Hsec]. rewrite Csec in Er.
  exists verify, key, blob, spub, sig. cbv zeta. cbn in C2, C3, C4. rewrite C1, C2, C3, C4, app_nil_r.
  subst h. split_and!; try done.
  intros Hec. rewrite Hec in Enid. cbn in Enid. by apply negb_false_iff, Z.eqb_eq in Enid.
Qed.

Lemma c25519_client_authenticates_witness :
  fst demo_accepted = Ok tt /\
  exists key blob spub sig, contents (x_incoming demo_client) = wr_string blob ++ wr_string spub ++ wr_string sig /\
    hk_from_blob (HostKey := toy_host) blob = Ok key /\
    hk_verify (HostKey := toy_host) key sig (k_session_id (the_kex (snd demo_accepted))) 0 = Ok tt.
Proof.
  assert (fst demo_accepted = Ok tt) as E by (vm_compute; reflexivity).
  split; [exact E|].
  destruct (c25519_client_authenticates (H2 := toy_host) (H0 := toy_curve_spec) (H1 := toy_world 0) test_alloc demo_client (snd demo_accepted)) as
    (verify & key & blob & spub & sig & Ci & Ek & _ & _ & _ & _ & _ & _ & Hv & [Hs _] & _).
  - apply test_alloc_ok.
  - apply kex_demo_buf_wf; [apply demo_Bytes; vm_compute; reflexivity|vm_compute; congruence].
  - apply kex_demo_buf_wf; [apply demo_Bytes; vm_compute; reflexivity|vm_compute; congruence].
  - apply kex_demo_buf_wf; [apply demo_Bytes; vm_compute; reflexivity|vm_compute; congruence].
  - split; [apply test_is_cstring; vm_compute; reflexivity|vm_compute; congruence].
  - split; [apply test_is_cstring; vm_compute; reflexivity|vm_compute; congruence].
  - apply demo_Bytes; vm_compute; reflexivity.
  - vm_compute; reflexivity.
  - apply demo_Bytes; vm_compute; reflexivity.
  - vm_compute; reflexivity.
  - vm_compute; congruence.
  - vm_compute; split; congruence.
  - pose proof (surjective_pairing demo_accepted) as P. rewrite E in P. exact P.
  - exists key, blob, spub, sig. split; [exact Ci|]. split; [exact Ek|]. rewrite Hs. exact Hv.
Defined.

(** C39. Not every public value that is zero is refused.  The bytes of 2^255 - 19 are
    not all zero, so the check of [kexc25519_shared_key] lets them pass, but they
    are the point 0: whatever the key of the other side is, the shared secret is the
    number 0, which everybody knows. *)
Theorem shared_key_zero_point A key b :
  alloc_ok A -> Bytes key -> zlen key = CURVE25519_SIZE -> full b ->
  zlen zero_point = CURVE25519_SIZE /\ zero_point <> zrep CURVE25519_SIZE 0 /\
  exists b', kexc25519_shared_key A key zero_point b = (Ok tt, b') /\ contents b' = wr_bignum2 [].
Proof.
  intros HA Bk Lk Hb. assert (zero_point <> zrep CURVE25519_SIZE 0) as Hz by (by vm_compute).
  split; [done|]. split; [done|].
  pose proof (shared_key_spec A key zero_point b Bk Lk (le_bytes_Bytes _ _) eq_refl Hb) as Hs.
  destruct (kexc25519_shared_key A key zero_point b) as [[[]|e] b']; [|by destruct (Hz (Hs HA))].
  exists b'. destruct Hs as (_ & _ & ->). by rewrite scalarmult_zero_point.
Qed.

Lemma shared_key_zero_point_witness :
  exists b, kexc25519_shared_key test_alloc (zrep CURVE25519_SIZE 77) zero_point (default (sshbuf_init test_alloc) (sshbuf_new test_alloc)) = (Ok tt, b) /\
    contents b = [0; 0; 0; 0].
Proof.
  destruct (shared_key_zero_point test_alloc (zrep CURVE25519_SIZE 77) (default (sshbuf_init test_alloc) (sshbuf_new test_alloc)))
    as (_ & _ & b & E & Cb).
  - apply test_alloc_ok.
  - apply Bytes_zrep. unfold in_range. lia.
  - reflexivity.
  - apply (full_new test_alloc). reflexivity.
  - exists b. split; [exact E|]. rewrite Cb. reflexivity.
Defined.
