(* ===== verification/KexRunAgree.v ===== *)
(** Two ends that carry out the key exchange curve25519-sha256 with each other
    complete it and agree: the handlers of KexRun.v one after the other, and the
    loop of Dispatch.v over the packets of the other end. *)

From Stdlib Require Import String.
From S2P Require Import Prelude Wire CString Ssh2 Sshbuf SshbufGetput SshbufSpec Glob Algs ChachaPoly.
From S2P Require Import Digest Kex Dispatch Curve25519 X25519 KexRun KexRunSpec.

(** ** Lemmas: the negotiation keeps the two messages *)

Definition same_bufs (k k' : kex) : Prop := k_my k' = k_my k /\ k_peer k' = k_peer k.

#[export] Instance same_bufs_refl : Reflexive same_bufs.
Proof. by intros k. Qed.
#[export] Instance same_bufs_trans : Transitive same_bufs.
Proof. intros a b c [] []. split; congruence. Qed.

Class KeepsBufs {X} (m : M kex X) : Prop := keeps_bufs k : same_bufs k (snd (m k)).

#[export] Instance keeps_bufs_bind {X Y} (m : M kex X) (f : X -> M kex Y) :
  KeepsBufs m -> (forall a, KeepsBufs (f a)) -> KeepsBufs (bind m f).
Proof.
  intros Hm Hf k. unfold bind. specialize (Hm k). destruct (m k) as [[a|e] k1]; [|done].
  etransitivity; [exact Hm|apply Hf].
Qed.
#[export] Instance keeps_bufs_or m choice : KeepsBufs m -> KeepsBufs (or_failed m choice).
Proof.
  intros Hm k. unfold or_failed. specialize (Hm k). destruct (m k) as [[a|e] k1]; [done|].
  etransitivity; [exact Hm|]. by destruct k1.
Qed.
#[export] Instance keeps_bufs_get : KeepsBufs get_state.
Proof. by intros k. Qed.
#[export] Instance keeps_bufs_ret {X} (a : X) : KeepsBufs (ret a).
Proof. by intros k. Qed.
#[export] Instance keeps_bufs_newkeys out m : KeepsBufs (on_newkeys out m).
Proof. intros k. unfold on_newkeys. destruct (m _). by destruct out, k. Qed.
#[export] Instance keeps_bufs_kex c s : KeepsBufs (choose_kex c s).
Proof.
  intros k. unfold choose_kex. destruct (common c s) as [n|]; destruct k; cbn; [|done].
  by destruct (kex_alg_by_name n).
Qed.
#[export] Instance keeps_bufs_hostkey c s : KeepsBufs (choose_hostkeyalg c s).
Proof.
  intros k. unfold choose_hostkeyalg. destruct (common c s) as [n|]; destruct k; cbn -[sshkey_type_from_name]; [|done].
  by destruct (_ =? _).
Qed.
#[export] Instance keeps_bufs_choose_newkeys A hmac compat cprop sprop peer out :
  KeepsBufs (choose_newkeys A hmac compat cprop sprop peer out).
Proof.
  unfold choose_newkeys. destruct (A SIZEOF_NEWKEYS); [|by intros k].
  apply keeps_bufs_bind; [intros k; by destruct out, k|intros _].
  apply keeps_bufs_bind; [apply _|intros k0]. apply keeps_bufs_bind; [apply _|intros _].
  apply keeps_bufs_bind; [|intros _; apply _].
  apply keeps_bufs_bind; [apply _|intros k1]. destruct (_ =? _); apply _.
Qed.
#[export] Instance keeps_bufs_all A hmac compat cprop sprop peer :
  KeepsBufs (choose_all A hmac compat cprop sprop peer).
Proof.
  repeat (apply keeps_bufs_bind; [apply _|intros _]).
  intros k. cbv beta zeta. match goal with |- context [add_need ?a ?b] => destruct (add_need a b) as [need dh] end. by destruct k.
Qed.

Lemma kex_choose_conf_bufs A hmac s s' :
  kex_choose_conf A hmac s = (Ok tt, s') -> same_bufs (ssh_kex s) (ssh_kex s').
Proof.
  unfold kex_choose_conf. intros (s0 & s1 & [= <- <-] & E)%bind_Ok.
  apply bind_Ok in E as ([my f] & s1 & [_ ->]%lift_inv & E). apply bind_Ok in E as ([peer first] & s1 & [_ ->]%lift_inv & E).
  apply bind_Ok in E as ([] & s1 & E1 & E). apply bind_Ok in E as ([] & s2 & E2 & E).
  assert (same_bufs (ssh_kex s) (ssh_kex s1)) as H1.
  { revert E1. unfold note_ext_info, bind, get_state. destruct (k_server _); [|by intros [= <-]].
    destruct (common _ _); [|by intros [= <-]]. unfold on_kex. intros [= <-]. by destruct (ssh_kex s). }
  assert (same_bufs (ssh_kex s1) (ssh_kex s2)) as H2.
  { revert E2. unfold on_kex. pose proof (keeps_bufs (m := choose_all A hmac (ssh_compat s)
      (if k_server (ssh_kex s) then peer else my) (if k_server (ssh_kex s) then my else peer) peer) (ssh_kex s1)) as Hk.
    destruct (choose_all _ _ _ _ _ _ _) as [r k2]. by intros [= -> <-]. }
  transitivity (ssh_kex s1); [done|]. transitivity (ssh_kex s2); [done|].
  revert E. destruct (_ && _); by intros [= <-].
Qed.

(** ** Lemmas: packets that are written and read without errors *)

Section forward.
Context (A : allocator) (HA : alloc_ok A) `{W : KexWorld} (Hsend : forall sent p, kw_send sent p = 0).

Lemma start_run {X} type (k : M kex_ssh X) x :
  is_byte type -> full (x_outgoing x) ->
  exists b, full b /\ contents b = [0; 0; 0; 0; 0; type] /\ (sshpkt_start A type ;;; k) x = k (set_out b x).
Proof.
  intros Ht Ho. destruct (full_reset A _ Ho) as [Hr Cr].
  destruct (full_put A [0; 0; 0; 0; 0; type] (sshbuf_reset A (x_outgoing x)) HA Hr) as (b & E & Hb & Cb).
  - repeat (constructor; [unfold in_range in *; lia|]). constructor.
  - rewrite Cr. by vm_compute.
  - exists b. split; [done|]. split; [by rewrite Cb, Cr|].
    unfold sshpkt_start, bind, on_outgoing. cbn [x_outgoing set_out].
    change (zlen [0; 0; 0; 0; 0; type]) with 6 in E. rewrite E. done.
Qed.

Lemma put_run {X} put out (k : M kex_ssh X) x :
  Appends A put out -> full (x_outgoing x) -> zlen (contents (x_outgoing x)) + zlen out <= SSHBUF_SIZE_MAX ->
  exists b, full b /\ contents b = contents (x_outgoing x) ++ out /\ (on_outgoing put ;;; k) x = k (set_out b x).
Proof.
  intros Hp Ho Hl. destruct (full_appends A put out _ HA Ho Hp Hl) as (b & E & Hb & Cb).
  exists b. split; [done|]. split; [done|]. unfold bind, on_outgoing. by rewrite E.
Qed.

Lemma send_run x pkt :
  full (x_outgoing x) -> contents (x_outgoing x) = [0; 0; 0; 0; 0] ++ pkt ->
  sshpkt_send x = (Ok tt, set_sent (x_sent x ++ [pkt]) x).
Proof.
  intros Ho Hc. unfold sshpkt_send, bind, get_state. rewrite Hsend, buf_bytes_contents, Hc by apply Ho.
  done.
Qed.

(** A packet with one field, and with more. *)
Lemma send_packet_then {X} type put out (k : M kex_ssh X) x :
  is_byte type -> Appends A put out -> full (x_outgoing x) -> 6 + zlen out <= SSHBUF_SIZE_MAX ->
  exists b, full b /\ (sshpkt_start A type ;;; on_outgoing put ;;; sshpkt_send ;;; k) x =
    k (set_sent (x_sent x ++ [type :: out]) (set_out b x)).
Proof.
  intros Ht Hp Ho Hl. destruct (start_run type (on_outgoing put ;;; sshpkt_send ;;; k) x Ht Ho) as (b1 & F1 & C1 & ->).
  destruct (put_run put out (sshpkt_send ;;; k) (set_out b1 x) Hp F1) as (b2 & F2 & C2 & ->).
  { cbn. by rewrite C1. }
  exists b2. split; [done|]. unfold bind. rewrite (send_run _ (type :: out)); [done|done|]. cbn in *. by rewrite C2, C1.
Qed.

Lemma send_packet type put out x :
  is_byte type -> Appends A put out -> full (x_outgoing x) -> 6 + zlen out <= SSHBUF_SIZE_MAX ->
  exists b, full b /\ (sshpkt_start A type ;;; on_outgoing put ;;; sshpkt_send) x =
    (Ok tt, set_sent (x_sent x ++ [type :: out]) (set_out b x)).
Proof.
  intros Ht Hp Ho Hl. destruct (send_packet_then type put out (ret tt) x Ht Hp Ho Hl) as (b & Fb & E).
  exists b. split; [done|]. revert E. unfold bind.
  destruct (sshpkt_start A type x) as [[[]|e] x1]; [|done]. destruct (on_outgoing put x1) as [[[]|e] x2]; [|done].
  by destruct (sshpkt_send x2) as [[[]|e] x3].
Qed.

Lemma put_string_appends v : Bytes v -> Appends A (sshbuf_put_string A v (zlen v)) (wr_string v).
Proof. intros. by apply atomic_appends, sshbuf_put_string_atomic. Qed.

Lemma on_outgoing_bind (m1 m2 : M sshbuf unit) {X} (k : M kex_ssh X) x :
  (on_outgoing m1 ;;; on_outgoing m2 ;;; k) x = (on_outgoing (m1 ;;; m2) ;;; k) x.
Proof.
  unfold bind, on_outgoing. destruct (m1 (x_outgoing x)) as [[a|e] b]; [|done]. cbn [x_outgoing set_out].
  by destruct (m2 b) as [[[]|e] b'].
Qed.

Lemma incoming_run {X Y} (m : M sshbuf X) spec v rest (k : X -> M kex_ssh Y) x :
  Refines m spec -> full (x_incoming x) -> spec (contents (x_incoming x)) = Ok (v, rest) ->
  exists b, full b /\ contents b = rest /\ bind (on_incoming m) k x = k v (set_in b x).
Proof.
  intros Hm Hi Hs. destruct (full_refines m spec v rest _ Hm Hi Hs) as (b & E & Hb & Cb).
  exists b. split_and!; [done..|]. unfold bind, on_incoming. by rewrite E.
Qed.

Lemma get_string_run v rest x :
  full (x_incoming x) -> contents (x_incoming x) = wr_string v ++ rest -> zlen v <= WIRE_STRING_MAX ->
  exists b, full b /\ contents b = rest /\ sshpkt_get_string A true x = (Ok v, set_in b x).
Proof.
  intros Hi Hc Hl. 
  destruct (full_refines _ _ (string_copy true v) rest _ (sshbuf_get_string_refines A true HA) Hi) as (b & E & Hb & Cb).
  { rewrite Hc. unfold rd_bind, rd_ret. by rewrite rd_string_app. }
  exists b. split_and!; [done..|]. unfold sshpkt_get_string, bind, on_incoming, ret. rewrite E. simpl.
  by rewrite ztake_app_le, ztake_ge by lia.
Qed.

Lemma get_end_run {Y} (k : M kex_ssh Y) x :
  full (x_incoming x) -> contents (x_incoming x) = [] -> (sshpkt_get_end ;;; k) x = k x.
Proof.
  intros Hi Hc. unfold sshpkt_get_end, bind, get_state. rewrite sshbuf_len_contents, Hc by apply Hi. done.
Qed.

Lemma receive_run payload x :
  full (x_incoming x) -> Bytes payload -> zlen payload <= SSHBUF_SIZE_MAX ->
  exists b, full b /\ contents b = payload /\
    on_incoming (fun b => sshbuf_put A payload (zlen payload) (sshbuf_reset A b)) x = (Ok tt, set_in b x).
Proof.
  intros Hi Hp Hl. destruct (full_reset A _ Hi) as [Hr Cr].
  destruct (full_put A payload _ HA Hr Hp) as (b & E & Hb & Cb); [rewrite Cr, (@zlen_nil Z); lia|].
  exists b. split; [done|]. split; [by rewrite Cb, Cr|]. unfold on_incoming. by rewrite E.
Qed.

(** The world gives as many bytes as are asked for. *)
Context (Hrandom : forall i n, 0 <= n -> Bytes (kw_random i n) /\ zlen (kw_random i n) = n).

Definition with_kex (k : kex) (x : kex_ssh) : kex_ssh :=
  set_ssh (mk_ssh k (ssh_compat (x_ssh x)) (ssh_dispatch_skip_packets (x_ssh x))) x.

Lemma k_my_set v k : k_my (set_my v k) = v.
Proof. by destruct k. Qed.

Lemma update_kex_run f x : update_kex f x = (Ok tt, with_kex (f (the_kex x)) x).
Proof. done. Qed.

Lemma kex_send_kexinit_run x c0 p :
  Z.land (x_flags x) KEX_INIT_SENT = 0 -> full (x_outgoing x) -> full (k_my (the_kex x)) ->
  contents (k_my (the_kex x)) = kexinit_wire c0 p 0 0 -> zlen c0 = KEX_COOKIE_LEN ->
  zlen (kexinit_wire c0 p 0 0) + 6 <= SSHBUF_SIZE_MAX ->
  let cookie := kw_random (x_random x) KEX_COOKIE_LEN in
  exists my b, full my /\ contents my = kexinit_wire cookie p 0 0 /\ full b /\
    kex_send_kexinit A x = (Ok tt, set_flags (Z.lor (x_flags x) KEX_INIT_SENT)
      (set_sent (x_sent x ++ [SSH2_MSG_KEXINIT :: kexinit_wire cookie p 0 0])
        (set_out b (with_kex (set_my my (the_kex x)) (set_random (x_random x + 1) (set_done false x)))))).
Proof.
  intros Hf Ho Hm Cm Lc Hl cookie. destruct (Hrandom (x_random x) KEX_COOKIE_LEN ltac:(by vm_compute)) as [Bc Lk]. fold cookie in Bc, Lk.
  assert (KEX_COOKIE_LEN <= zlen (kexinit_wire c0 p 0 0)) as Hge.
  { unfold kexinit_wire. rewrite zlen_app. pose proof (zlen_nonneg (concat (wr_string <$> p) ++ [0] ++ be_bytes 4 0)). lia. }
  destruct (full_store (k_my (the_kex x)) 0 cookie Hm Bc) as [Fm Cm']; [lia|by rewrite Cm; lia|].
  rewrite Z.add_0_r in *. set (my := set_mem _ _) in *.
  assert (contents my = kexinit_wire cookie p 0 0) as Em.
  { rewrite Cm', Cm. unfold write_at. rewrite ztake_0. unfold kexinit_wire. 
    rewrite zdrop_app_ge by lia. rewrite Lk, Lc, Z.sub_diag. done. }
  set (x1 := with_kex (set_my my (the_kex x)) (set_random (x_random x + 1) (set_done false x))).
  destruct (send_packet_then SSH2_MSG_KEXINIT (sshbuf_putb A my) (contents my)
    (update (fun x => set_flags (Z.lor (x_flags x) KEX_INIT_SENT) x)) x1) as (b & Fb & E); try done.
  { apply atomic_appends, sshbuf_putb_atomic, Fm. }
  { rewrite Em. revert Hl. unfold kexinit_wire. rewrite !zlen_app. lia. }
  exists my, b. split_and!; try done.
  unfold kex_send_kexinit. unfold bind at 1, get_state at 1. rewrite Hf. cbn [negb Z.eqb].
  unfold bind at 1, update at 1. cbn iota.
  rewrite sshbuf_len_contents, Cm by apply Hm. destruct (Z.ltb_spec (zlen (kexinit_wire c0 p 0 0)) KEX_COOKIE_LEN); [lia|].
  unfold sshbuf_mutable_ptr. rewrite (wf_sane _ (proj1 Hm)). cbn [negb is_ok orb].
  rewrite writable_test, (proj1 (proj2 Hm)). cbn [negb].
  unfold bind at 1, arc4random_buf at 1. cbn iota. cbn [x_random set_done].
  unfold bind at 1. rewrite update_kex_run. unfold bind at 1, get_state at 1.
  change (the_kex (with_kex ?k _)) with k. rewrite k_my_set. fold cookie. fold my. fold x1.
  rewrite <- Em. exact E.
Qed.

Lemma kexinit_zlen cookie p : zlen cookie = KEX_COOKIE_LEN ->
  zlen (kexinit_wire cookie p 0 0) = zlen (kexinit_wire (zrep KEX_COOKIE_LEN 0) p 0 0).
Proof. intros Hc. unfold kexinit_wire. by rewrite !zlen_app, Hc. Qed.

Lemma kex_setup_run x p :
  is_proposal p -> full (x_outgoing x) ->
  zlen (kexinit_wire (zrep KEX_COOKIE_LEN 0) p 0 0) + 6 <= SSHBUF_SIZE_MAX ->
  let cookie := kw_random (x_random x) KEX_COOKIE_LEN in
  let table := ssh_dispatch_set SSH2_MSG_KEXINIT (Some kex_input_kexinit)
    (ssh_dispatch_range SSH2_MSG_TRANSPORT_MIN SSH2_MSG_TRANSPORT_MAX (Some kex_protocol_error) (x_table x)) in
  let zero := zrep CURVE25519_SIZE 0 in
  exists my peer b, full my /\ contents my = kexinit_wire cookie p 0 0 /\ full peer /\ contents peer = [] /\ full b /\
    kex_setup A p x = (Ok tt, mk_kex_ssh
      (mk_ssh (kex_zero my peer) (ssh_compat (x_ssh x)) (ssh_dispatch_skip_packets (x_ssh x))) KEX_INIT_SENT false 0
      (x_client_version x) (x_server_version x) zero zero table (x_incoming x) b
      (x_sent x ++ [SSH2_MSG_KEXINIT :: kexinit_wire cookie p 0 0]) (x_random x + 1)).
Proof.
  intros Hp Ho Hl cookie table zero.
  destruct (sshbuf_new_some A HA) as [b0 Eb]. destruct (full_new A b0 Eb) as [F0 C0].
  destruct (kex_prop2buf_spec A p b0 HA Hp (proj1 F0) (proj1 (proj2 F0))) as (my & Em & Wm & Cm & Sm);
    [rewrite (proj2 (proj2 F0)); by vm_compute|rewrite (proj2 (proj2 F0)); lia|].
  pose proof (same_frame_full _ _ F0 Wm Sm) as Fm.
  set (x1 := mk_kex_ssh (mk_ssh (kex_zero my b0) (ssh_compat (x_ssh x)) (ssh_dispatch_skip_packets (x_ssh x))) 0 false 0
      (x_client_version x) (x_server_version x) zero zero table (x_incoming x) (x_outgoing x) (x_sent x) (x_random x)).
  destruct (kex_send_kexinit_run x1 (zrep KEX_COOKIE_LEN 0) p eq_refl Ho Fm Cm eq_refl Hl) as (my' & b & Fm' & Cm' & Fb & Es).
  exists my', b0, b. split_and!; try done.
  unfold kex_setup. unfold bind at 1, kex_new. rewrite Eb, Em. exact Es.
Qed.

(** *** A KEXINIT message is read over *)

Lemma skip_u8s v : forall rest x,
  full (x_incoming x) -> contents (x_incoming x) = v ++ rest ->
  exists b, full b /\ contents b = rest /\
    repeat_m (length v) (let! _ := sshpkt_get_u8 in ret tt) x = (Ok tt, set_in b x).
Proof.
  induction v as [|c v IH]; intros rest x Hi Hc.
  - exists (x_incoming x). split_and!; [done..|]. by destruct x.
  - destruct (full_get_u8 (x_incoming x) c (v ++ rest) Hi Hc) as (b1 & E1 & F1 & C1).
    destruct (IH rest (set_in b1 x) F1 C1) as (b & Fb & Cb & E).
    exists b. split_and!; [done..|]. cbn [length repeat_m]. unfold bind, sshpkt_get_u8, on_incoming. rewrite E1. exact E.
Qed.

Lemma skip_strings p : forall rest x,
  full (x_incoming x) -> contents (x_incoming x) = concat (wr_string <$> p) ++ rest ->
  Forall (fun v => zlen v <= WIRE_STRING_MAX) p ->
  exists b, full b /\ contents b = rest /\
    repeat_m (length p) (let! _ := sshpkt_get_string A false in ret tt) x = (Ok tt, set_in b x).
Proof.
  induction p as [|v p IH]; intros rest x Hi Hc Hp.
  - exists (x_incoming x). split_and!; [done..|]. by destruct x.
  - apply Forall_cons in Hp as [Hv Hp].
    destruct (full_refines _ _ (string_copy false v) (concat (wr_string <$> p) ++ rest) _ (sshbuf_get_string_refines A false HA) Hi)
      as (b1 & E1 & F1 & C1).
    { rewrite Hc. cbn. unfold rd_bind, rd_ret. rewrite <- (assoc_L (++)). by rewrite rd_string_app. }
    destruct (IH rest (set_in b1 x) F1 C1 Hp) as (b & Fb & Cb & E).
    exists b. split_and!; [done..|]. cbn [length repeat_m]. unfold bind, sshpkt_get_string, on_incoming, bind. rewrite E1. exact E.
Qed.

Lemma kexinit_strings cookie p n :
  zlen (kexinit_wire cookie p 0 0) <= n -> Forall (fun v => zlen v <= n) p.
Proof.
  intros Hl. assert (zlen (concat (wr_string <$> p)) <= n) as Hc.
  { revert Hl. unfold kexinit_wire. rewrite !zlen_app. pose proof (zlen_nonneg cookie).
    pose proof (zlen_nonneg [0]). pose proof (zlen_nonneg (be_bytes 4 0)). lia. }
  clear Hl. revert Hc. induction p as [|v p IH]; intros Hc; [constructor|]. cbn in Hc. rewrite zlen_app, wr_string_zlen in Hc.
  pose proof (zlen_nonneg v). pose proof (zlen_nonneg (concat (wr_string <$> p))). constructor; [lia|]. apply IH. lia.
Qed.

(** The rest of the handler, after the message. *)
Definition choose_and_call hmac (methods : Z -> option (M kex_ssh unit)) : M kex_ssh unit :=
  on_ssh (kex_choose_conf A hmac) ;;;
  let! x := get_state in
  match (if k_kex_type (the_kex x) <? KEX_MAX then methods (k_kex_type (the_kex x)) else None) with
  | Some method => method
  | None => fail SSH_ERR_INTERNAL_ERROR
  end.

Lemma kex_input_kexinit_run hmac methods x cookie p :
  Z.land (x_flags x) KEX_INIT_SENT <> 0 ->
  full (x_incoming x) -> contents (x_incoming x) = kexinit_wire cookie p 0 0 ->
  zlen cookie = KEX_COOKIE_LEN -> is_proposal p -> zlen (kexinit_wire cookie p 0 0) <= WIRE_STRING_MAX ->
  full (k_peer (the_kex x)) ->
  zlen (contents (k_peer (the_kex x))) + zlen (kexinit_wire cookie p 0 0) <= SSHBUF_SIZE_MAX ->
  exists b peer, full b /\ full peer /\ contents peer = contents (k_peer (the_kex x)) ++ kexinit_wire cookie p 0 0 /\
    do_kex_input_kexinit A hmac methods x =
    choose_and_call hmac methods (set_in b (with_kex (set_peer peer (the_kex x)) x)).
Proof.
  intros Hf Hi Ci Lc [Lp Hp] Hl Fp Hroom.
  destruct (full_put A (contents (x_incoming x)) (k_peer (the_kex x)) HA Fp) as (peer & Ep & Fp' & Cp').
  { apply contents_Bytes, Hi. }
  { by rewrite Ci. }
  set (x1 := with_kex (set_peer peer (the_kex x)) x).
  set (tail := concat (wr_string <$> p) ++ [0] ++ be_bytes 4 0).
  destruct (skip_u8s cookie tail x1 Hi Ci) as (b1 & F1 & C1 & E1).
  destruct (skip_strings p ([0] ++ be_bytes 4 0) (set_in b1 x1) F1 C1 (kexinit_strings _ _ _ Hl)) as (b2 & F2 & C2 & E2).
  destruct (full_get_u8 b2 0 (be_bytes 4 0) F2 C2) as (b3 & E3 & F3 & C3).
  destruct (full_refines _ _ 0 [] b3 sshbuf_get_u32_refines F3) as (b4 & E4 & F4 & C4).
  { rewrite C3. by vm_compute. }
  exists b4, peer. split_and!; [done|done|by rewrite Cp', Ci|].
  unfold do_kex_input_kexinit. unfold bind at 1.
  rewrite buf_bytes_contents, sshbuf_len_contents, Ep by apply Hi. cbn iota. change (snd (update_kex _ x)) with x1.
  unfold bind at 1. replace (Z.to_nat KEX_COOKIE_LEN) with (length cookie) by (unfold zlen in Lc; lia). rewrite E1.
  unfold bind at 1. replace (Z.to_nat PROPOSAL_MAX) with (length p) by (unfold zlen in Lp; lia). rewrite E2.
  unfold bind at 1, sshpkt_get_u8, on_incoming. cbn [x_incoming set_in]. rewrite E3.
  unfold bind at 1, sshpkt_get_u32, on_incoming. cbn [x_incoming set_in]. rewrite E4.
  rewrite get_end_run by done. unfold bind at 1, get_state at 1.
  change (x_flags (set_in _ _)) with (x_flags x). apply Z.eqb_neq in Hf. by rewrite Hf.
Qed.

(** The two messages [my] and [peer] agree on [a], for the method of this file. *)
Lemma choose_and_call_run hmac methods method x cc cs pc ps a rest :
  let server := k_server (the_kex x) in
  let my := k_my (the_kex x) in let peer := k_peer (the_kex x) in
  full my -> full peer ->
  contents my = kexinit_wire (if server then cs else cc) (if server then ps else pc) 0 0 ->
  contents peer = kexinit_wire (if server then cc else cs) (if server then pc else ps) 0 0 ++ rest ->
  zlen cc = KEX_COOKIE_LEN -> zlen cs = KEX_COOKIE_LEN -> is_proposal pc -> is_proposal ps ->
  agree hmac (ssh_compat (x_ssh x)) pc ps = Some a -> ka_type (a_method a) = KEX_C25519_SHA256 ->
  methods KEX_C25519_SHA256 = Some method ->
  exists k, choose_and_call hmac methods x = method (with_kex k x) /\ configured a k /\ k_server k = server /\
    k_session_id k = k_session_id (the_kex x) /\ k_my k = my /\ k_peer k = peer.
Proof.
  intros server my peer Fm Fp Cm Cp Lc Ls Hpc Hps Ha Ht Hmeth.
  set (s := x_ssh x). assert (Hz : in_range 32 0) by (by vm_compute). assert (Hb : is_byte 0) by (by vm_compute).
  assert (Bm := kex_buf2prop_wire A my (if server then cs else cc) (if server then ps else pc) 0 0 [] HA (proj1 Fm)).
  rewrite app_nil_r in Bm. specialize (Bm Cm ltac:(by destruct server) ltac:(by destruct server) Hb Hz).
  assert (Bp := kex_buf2prop_wire A peer (if server then cc else cs) (if server then pc else ps) 0 0 rest HA (proj1 Fp)).
  specialize (Bp Cp ltac:(by destruct server) ltac:(by destruct server) Hb Hz).
  pose proof (kex_choose_conf_spec A hmac s _ _ 0 0 HA Bm Bp) as P. cbv zeta in P. change (k_server (ssh_kex s)) with server in P.
  pose proof (kex_choose_conf_bufs A hmac s) as Hbufs.
  destruct (kex_choose_conf A hmac s) as [r s'] eqn:Er.
  replace (agree hmac (ssh_compat s) _ _) with (Some a) in P by (symmetry; by destruct server).
  destruct P as (-> & C & Hs & Hsid & Hc & Hd). destruct (Hbufs s' eq_refl) as [Hm Hp].
  exists (ssh_kex s'). split_and!; try done.
  unfold choose_and_call, bind at 1, on_ssh. fold s. rewrite Er. unfold bind, get_state.
  change (the_kex (set_ssh s' x)) with (ssh_kex s'). rewrite (conf_type _ _ C), Ht, Hmeth.
  change (KEX_C25519_SHA256 <? KEX_MAX) with true. cbn iota. f_equal.
  unfold with_kex. f_equal. destruct s' as [k' c' d']. cbn in Hc, Hd. by rewrite Hc, Hd.
Qed.

(** *** The messages of the method *)

Lemma kexc25519_client_run `{Curve} x :
  full (x_outgoing x) ->
  let key := kw_random (x_random x) CURVE25519_SIZE in
  let pub := crypto_scalarmult key basepoint in
  Bytes pub -> zlen pub = CURVE25519_SIZE ->
  exists b, full b /\ kexc25519_client A x =
    (Ok tt, set_table (ssh_dispatch_set SSH2_MSG_KEX_ECDH_REPLY (Some input_kex_c25519_reply) (x_table x))
      (set_sent (x_sent x ++ [SSH2_MSG_KEX_ECDH_INIT :: wr_string pub])
        (set_out b (set_client_pubkey pub (set_client_key key (set_random (x_random x + 1) x)))))).
Proof.
  intros Ho key pub Bp Lp. set (x1 := set_client_pubkey pub (set_client_key key (set_random (x_random x + 1) x))).
  destruct (send_packet_then SSH2_MSG_KEX_ECDH_INIT _ _
    (dispatch_set SSH2_MSG_KEX_ECDH_REPLY (Some input_kex_c25519_reply)) x1 ltac:(by vm_compute)
    (put_string_appends pub Bp) Ho) as (b & Fb & E).
  { rewrite wr_string_zlen, Lp. by vm_compute. }
  exists b. split; [done|]. exact E.
Qed.

(** What [kex_send_newkeys] sends, and the table it leaves. *)
Definition ext_info_packet : bytes :=
  SSH2_MSG_EXT_INFO :: be_bytes 4 1 ++ wr_string (cstr "server-sig-algs") ++ wr_string (cstr "rsa-sha2-256,rsa-sha2-512").
Definition newkeys_packets (k : kex) : list bytes :=
  [SSH2_MSG_NEWKEYS] :: if k_ext_info_c k =? 0 then [] else [ext_info_packet].
Definition newkeys_table (t : dispatch_table kex_fn) : dispatch_table kex_fn :=
  ssh_dispatch_set SSH2_MSG_NEWKEYS (Some kex_input_newkeys)
    (ssh_dispatch_set SSH2_MSG_KEXINIT (Some kex_input_kexinit)
      (ssh_dispatch_range SSH2_MSG_TRANSPORT_MIN SSH2_MSG_TRANSPORT_MAX (Some kex_protocol_error) t)).

Lemma cstr_Bytes s : forallb (fun c => (0 <=? c) && (c <? 256)) (cstr s) = true -> Bytes (cstr s).
Proof.
  intros Hs. apply List.Forall_forall. intros c Hc. rewrite forallb_forall in Hs. specialize (Hs c Hc).
  unfold in_range. lia.
Qed.

Lemma kex_send_ext_info_run x :
  full (x_outgoing x) -> exists b, full b /\ kex_send_ext_info A x = (Ok tt, set_sent (x_sent x ++ [ext_info_packet]) (set_out b x)).
Proof.
  intros Ho.
  set (put := sshbuf_put_u32 A 1 ;;; sshbuf_put_cstring A (Some (cstr "server-sig-algs")) ;;;
    sshbuf_put_cstring A (Some (cstr "rsa-sha2-256,rsa-sha2-512"))).
  set (out := be_bytes 4 1 ++ wr_string (cstr "server-sig-algs") ++ wr_string (cstr "rsa-sha2-256,rsa-sha2-512")).
  assert (Appends A put out) as Hput.
  { unfold put. repeat apply appends_bind; apply atomic_appends;
      [by apply sshbuf_put_u32_atomic|apply sshbuf_put_cstring_atomic, cstr_Bytes; by vm_compute..]. }
  assert (6 + zlen out <= SSHBUF_SIZE_MAX) as Hl by (by vm_compute).
  destruct (send_packet SSH2_MSG_EXT_INFO put out x ltac:(by vm_compute) Hput Ho Hl) as (b & Fb & E).
  exists b. split; [done|]. change ext_info_packet with (SSH2_MSG_EXT_INFO :: out). rewrite <- E. unfold kex_send_ext_info, sshpkt_put_u32, sshpkt_put_cstring, put, bind.
  destruct (sshpkt_start A SSH2_MSG_EXT_INFO x) as [[[]|e] x1]; [|done].
  unfold on_outgoing. destruct (sshbuf_put_u32 A 1 (x_outgoing x1)) as [[[]|e] b1]; [|done].
  cbn [x_outgoing set_out]. destruct (sshbuf_put_cstring _ _ b1) as [[[]|e] b2]; [|done].
  cbn [x_outgoing set_out]. by destruct (sshbuf_put_cstring _ _ b2) as [[[]|e] b3].
Qed.

Lemma kex_send_newkeys_run x :
  full (x_outgoing x) -> exists b, full b /\ kex_send_newkeys A x =
    (Ok tt, set_table (newkeys_table (x_table x)) (set_sent (x_sent x ++ newkeys_packets (the_kex x)) (set_out b x))).
Proof.
  intros Ho. set (t := ssh_dispatch_set SSH2_MSG_KEXINIT (Some kex_input_kexinit)
      (ssh_dispatch_range SSH2_MSG_TRANSPORT_MIN SSH2_MSG_TRANSPORT_MAX (Some kex_protocol_error) (x_table x))).
  set (k := dispatch_set SSH2_MSG_NEWKEYS (Some kex_input_newkeys) ;;;
    let! x := get_state in if negb (k_ext_info_c (the_kex x) =? 0) then kex_send_ext_info A else ret tt).
  destruct (start_run SSH2_MSG_NEWKEYS (sshpkt_send ;;; k) (set_table t x) ltac:(by vm_compute) Ho) as (b & Fb & Cb & E).
  set (x1 := set_table (newkeys_table (x_table x)) (set_sent (x_sent x ++ [[SSH2_MSG_NEWKEYS]]) (set_out b x))).
  assert (kex_send_newkeys A x = (if negb (k_ext_info_c (the_kex x) =? 0) then kex_send_ext_info A else ret tt) x1) as ->.
  { unfold kex_send_newkeys. unfold bind at 1. change (kex_reset_dispatch x) with (@Ok unit tt, set_table t x).
    cbv beta iota. fold k. rewrite E. unfold bind. by rewrite (send_run _ [SSH2_MSG_NEWKEYS]). }
  unfold newkeys_packets. destruct (k_ext_info_c (the_kex x) =? 0); cbn [negb].
  - by exists b.
  - destruct (kex_send_ext_info_run x1 Fb) as (b2 & F2 & ->). exists b2. split; [done|].
    unfold x1. cbn. by rewrite <- (assoc_L (++)).
Qed.
End forward.

(** ** Lemmas: the handlers of an exchange without errors *)

Section exchange.
Context {sshkey : Type} (A : allocator) (HA : alloc_ok A) `{EvpSpec} `{CurveSpec} `{W : KexWorld} `{HK : HostKey sshkey}.
Context (Hsend : forall sent p, kw_send sent p = 0).
Context (Hrandom : forall i n, 0 <= n -> Bytes (kw_random i n) /\ zlen (kw_random i n) = n).

Lemma derive_and_send_run h secret k x :
  the_kex x = (if bool_decide (k_session_id k = []) then set_session_id h k else k) ->
  ssh_digest_by_alg (k_hash_alg k) <> None -> 0 < k_we_need k < 2 ^ 31 -> wf secret -> full (x_outgoing x) ->
  exists k' b, keys_installed h (contents secret) k k' /\ full b /\
    derive_and_send_newkeys A true h secret x =
    (Ok tt, set_table (newkeys_table (x_table x)) (set_sent (x_sent x ++ newkeys_packets k') (set_out b (with_kex k' x)))).
Proof.
  intros Ek Hd Hn Hw Ho. destruct (derive_installs h secret k Hd Hn Hw) as (k' & Er & Hk).
  destruct (kex_send_newkeys_run A HA Hsend (with_kex k' x) Ho) as (b & Fb & Es).
  exists k', b. split_and!; [done..|]. unfold derive_and_send_newkeys, bind at 1, on_ssh, on_kex.
  change (ssh_kex (x_ssh x)) with (the_kex x). rewrite Ek, Er. exact Es.
Qed.

(** [input_kex_c25519_init] *)
Lemma shared_secret_run key pub x :
  Bytes key -> zlen key = CURVE25519_SIZE -> Bytes pub -> zlen pub = CURVE25519_SIZE ->
  pub <> zrep CURVE25519_SIZE 0 ->
  exists b, full b /\ contents b = wr_bignum2 (crypto_scalarmult key pub) /\ shared_secret_of A key pub x = (Ok b, x).
Proof.
  intros Hk Lk Hp Lp Hz. unfold shared_secret_of. destruct (sshbuf_new_some A HA) as [b0 Eb]. rewrite Eb.
  pose proof (shared_key_spec A key pub b0 Hk Lk Hp Lp (proj1 (full_new A b0 Eb))) as Hs.
  destruct (kexc25519_shared_key A key pub b0) as [[[]|e] b1]; [|by destruct (Hz (Hs HA))].
  destruct Hs as (F & _ & Cb). by exists b1.
Qed.

(** An end that the negotiation has prepared. *)
Record prepared (cc cs : bytes) (pc ps : list bytes) (x : kex_ssh) : Prop := {
  pr_out : full (x_outgoing x);
  pr_digest : ssh_digest_by_alg (k_hash_alg (the_kex x)) <> None;
  pr_need : 0 < k_we_need (the_kex x) < 2 ^ 31;
  pr_my : full (k_my (the_kex x));
  pr_peer : full (k_peer (the_kex x));
  pr_my_wire : contents (k_my (the_kex x)) =
    if k_server (the_kex x) then kexinit_wire cs ps 0 0 else kexinit_wire cc pc 0 0;
  pr_peer_wire : contents (k_peer (the_kex x)) =
    if k_server (the_kex x) then kexinit_wire cc pc 0 0 else kexinit_wire cs ps 0 0
}.

Definition is_hash (h : bytes) : Prop := Bytes h /\ zlen h <= SSH_DIGEST_MAX_LENGTH.

(** Host keys: the server has them and signs with them, the client knows them. *)
Record honest_host (hktype nid : Z) (alg : option bytes) (compat_c compat_s : Z)
    (blob : bytes) (pub key : sshkey) (priv : option sshkey) (sig : bytes -> bytes) : Prop := {
  hh_blob : Bytes blob /\ zlen blob <= 2 ^ 20;
  hh_public : exists load, load_host_public_key = Some load /\ load hktype nid = Some pub;
  hh_private : exists load, load_host_private_key = Some load /\ load hktype nid = priv;
  hh_to_blob : hk_to_blob pub = Ok blob;
  hh_from_blob : hk_from_blob blob = Ok key;
  hh_type : hk_type key = hktype;
  hh_nid : hk_ecdsa_nid key = nid;
  hh_known : exists verify, verify_host_key = Some verify /\ verify key <> -1;
  hh_sig h : is_hash h -> Bytes (sig h) /\ zlen (sig h) <= 2 ^ 20;
  hh_sign h : is_hash h -> kex_sign priv pub h alg compat_s = Ok (sig h);
  hh_verify h : is_hash h -> hk_verify key (sig h) h compat_c = Ok tt
}.

Lemma transcript_zlen cv sv ck sk blob cpub spub secret :
  zlen cv <= 255 -> zlen sv <= 255 -> zlen ck <= 2 ^ 18 -> zlen sk <= 2 ^ 18 -> zlen blob <= 2 ^ 20 ->
  zlen cpub = CURVE25519_SIZE -> zlen spub = CURVE25519_SIZE -> zlen secret = CURVE25519_SIZE ->
  zlen (transcript cv sv ck sk blob cpub spub secret) <= SSHBUF_SIZE_MAX.
Proof.
  intros. pose proof (wr_bignum2_zlen secret). unfold transcript. rewrite !zlen_app, !wr_string_zlen, !zlen_cons.
  unfold CURVE25519_SIZE, SSHBUF_SIZE_MAX in *. lia.
Qed.

Lemma send_packet3 {X} type v1 v2 v3 (k : M kex_ssh X) x :
  is_byte type -> Bytes v1 -> Bytes v2 -> Bytes v3 -> full (x_outgoing x) ->
  zlen v1 + zlen v2 + zlen v3 + 18 <= SSHBUF_SIZE_MAX ->
  exists b, full b /\ (sshpkt_start A type ;;; sshpkt_put_string A v1 ;;; sshpkt_put_string A v2 ;;;
      sshpkt_put_string A v3 ;;; sshpkt_send ;;; k) x =
    k (set_sent (x_sent x ++ [type :: wr_string v1 ++ wr_string v2 ++ wr_string v3]) (set_out b x)).
Proof.
  intros Ht B1 B2 B3 Ho Hl. pose proof (zlen_nonneg v1). pose proof (zlen_nonneg v2). pose proof (zlen_nonneg v3).
  assert (zlen [0; 0; 0; 0; 0; type] = 6) as H6 by done.
  destruct (start_run A HA type (sshpkt_put_string A v1 ;;; sshpkt_put_string A v2 ;;; sshpkt_put_string A v3 ;;; sshpkt_send ;;; k)
    x Ht Ho) as (b0 & F0 & C0 & ->).
  destruct (put_run A HA _ _ (sshpkt_put_string A v2 ;;; sshpkt_put_string A v3 ;;; sshpkt_send ;;; k) (set_out b0 x)
    (put_string_appends A v1 B1) F0) as (b1 & F1 & C1 & E1); [cbn; rewrite C0, wr_string_zlen, H6; lia|].
  destruct (put_run A HA _ _ (sshpkt_put_string A v3 ;;; sshpkt_send ;;; k) (set_out b1 x)
    (put_string_appends A v2 B2) F1) as (b2 & F2 & C2 & E2); [cbn in *; rewrite C1, C0, zlen_app, !wr_string_zlen, H6; lia|].
  destruct (put_run A HA _ _ (sshpkt_send ;;; k) (set_out b2 x)
    (put_string_appends A v3 B3) F2) as (b3 & F3 & C3 & E3);
    [cbn in *; rewrite C2, C1, C0, !zlen_app, !wr_string_zlen, H6; lia|].
  exists b3. split; [done|]. unfold sshpkt_put_string in *. rewrite E1. change (set_out b1 (set_out b0 x)) with (set_out b1 x).
  rewrite E2. change (set_out b2 (set_out b1 x)) with (set_out b2 x). rewrite E3. unfold bind.
  rewrite (send_run Hsend _ (type :: wr_string v1 ++ wr_string v2 ++ wr_string v3)); [done|done|].
  cbn in *. by rewrite C3, C2, C1, C0, <- !(assoc_L (++)).
Qed.

(** The hash of an exchange. *)
Definition exchange_hash (alg : Z) (cv sv cc cs : bytes) (pc ps : list bytes) (blob cpub spub secret : bytes) : bytes :=
  hash alg (transcript cv sv (kexinit_wire cc pc 0 0) (kexinit_wire cs ps 0 0) blob cpub spub secret).

Lemma exchange_hash_ok alg cv sv cc cs pc ps blob cpub spub secret :
  ssh_digest_by_alg alg <> None -> is_hash (exchange_hash alg cv sv cc cs pc ps blob cpub spub secret).
Proof.
  intros Hd. split; [apply hash_Bytes|]. unfold exchange_hash. rewrite hash_zlen by done.
  pose proof (digest_bytes_pos alg Hd). unfold SSH_DIGEST_MAX_LENGTH. lia.
Qed.

Record sizes_ok (cv sv cc cs : bytes) (pc ps : list bytes) : Prop := {
  so_cv : is_version cv;
  so_sv : is_version sv;
  so_pc : zlen (kexinit_wire cc pc 0 0) <= 2 ^ 18;
  so_ps : zlen (kexinit_wire cs ps 0 0) <= 2 ^ 18
}.

Lemma exchange_hash_run alg cv sv cc cs pc ps blob cpub spub secret :
  sizes_ok cv sv cc cs pc ps -> ssh_digest_by_alg alg <> None -> Bytes blob -> zlen blob <= 2 ^ 20 ->
  Bytes (kexinit_wire cc pc 0 0) -> Bytes (kexinit_wire cs ps 0 0) ->
  Bytes cpub -> zlen cpub = CURVE25519_SIZE -> Bytes spub -> zlen spub = CURVE25519_SIZE ->
  Bytes secret -> zlen secret = CURVE25519_SIZE ->
  kex_c25519_hash A alg cv sv (kexinit_wire cc pc 0 0) (kexinit_wire cs ps 0 0) blob cpub spub (wr_bignum2 secret)
    SSH_DIGEST_MAX_LENGTH = Ok (exchange_hash alg cv sv cc cs pc ps blob cpub spub secret).
Proof.
  intros [[Hcv Lcv] [Hsv Lsv] Lc Ls] Hd Hb Lb Bc Bs Hcp Lcp Hsp Lsp Hk Lk. apply is_cstring_Bytes in Hcv, Hsv.
  apply (kex_c25519_hash_spec A alg); try done; try (by split; [|lia]). by apply transcript_zlen.
Qed.

Lemma input_kex_c25519_init_run cv sv cc cs pc ps x cpub blob pub key priv sig compat_c :
  prepared cc cs pc ps x -> k_server (the_kex x) = true -> sizes_ok cv sv cc cs pc ps ->
  x_client_version x = cv -> x_server_version x = sv ->
  honest_host (k_hostkey_type (the_kex x)) (k_hostkey_nid (the_kex x)) (k_hostkey_alg (the_kex x))
    compat_c (ssh_compat (x_ssh x)) blob pub key priv sig ->
  full (x_incoming x) -> contents (x_incoming x) = wr_string cpub ->
  Bytes cpub -> zlen cpub = CURVE25519_SIZE -> cpub <> zrep CURVE25519_SIZE 0 ->
  let skey := kw_random (x_random x) CURVE25519_SIZE in
  let spub := crypto_scalarmult skey basepoint in
  let secret := crypto_scalarmult skey cpub in
  Bytes spub -> zlen spub = CURVE25519_SIZE ->
  let h := exchange_hash (k_hash_alg (the_kex x)) cv sv cc cs pc ps blob cpub spub secret in
  exists k' b bi, keys_installed h (wr_bignum2 secret) (the_kex x) k' /\ full b /\ full bi /\
    do_input_kex_c25519_init A true x = (Ok tt, set_table (newkeys_table (x_table x))
      (set_sent ((x_sent x ++ [SSH2_MSG_KEX_ECDH_REPLY :: wr_string blob ++ wr_string spub ++ wr_string (sig h)]) ++
                 newkeys_packets k')
        (set_out b (with_kex k' (set_in bi (set_random (x_random x + 1) x)))))).
Proof.
  intros P Hs So Ecv Esv HH Hi Ci Bc Lc Hz skey spub secret Bs Ls h.
  destruct (Hrandom (x_random x) CURVE25519_SIZE ltac:(by vm_compute)) as [Bk Lk]. fold skey in Bk, Lk.
  assert (Bytes secret) as Bsec by (by apply mult_Bytes). assert (zlen secret = CURVE25519_SIZE) as Lsec by (by apply mult_zlen).
  destruct HH as [[Bb Lb] (lp & Elp & Ep) (lq & Elq & Eq) Eto _ _ _ _ Hsig Hsign _].
  destruct P as [Po Pd Pn Pm Pp Cm Cp]. rewrite Hs in Cm, Cp.
  set (x1 := set_random (x_random x + 1) x).
  destruct (get_string_run A HA cpub [] x1 Hi) as (bi & Fi & Ci' & Eg);
    [by rewrite app_nil_r|rewrite Lc; by vm_compute|].
  set (x2 := set_in bi x1).
  destruct (shared_secret_run skey cpub x2 Bk Lk Bc Lc Hz) as (bs & Fs & Cs & Esec).
  assert (kex_c25519_hash A (k_hash_alg (the_kex x)) cv sv (kexinit_wire cc pc 0 0) (kexinit_wire cs ps 0 0) blob cpub spub
    (wr_bignum2 secret) SSH_DIGEST_MAX_LENGTH = Ok h) as Eh.
  { apply exchange_hash_run; try done; [rewrite <- Cp|rewrite <- Cm]; apply contents_Bytes; [apply Pp|apply Pm]. }
  set (x3 := with_kex (if bool_decide (k_session_id (the_kex x) = []) then set_session_id h (the_kex x) else the_kex x) x2).
  assert (is_hash h) as Hh by (by apply exchange_hash_ok). destruct (Hsig h Hh) as [Bsig Lsig].
  destruct (send_packet3 SSH2_MSG_KEX_ECDH_REPLY blob spub (sig h) (derive_and_send_newkeys A true h bs) x3) as (b & Fb & Esend);
    [by vm_compute|done|done|done|done|unfold SSHBUF_SIZE_MAX, CURVE25519_SIZE in *; lia|].
  match type of Esend with _ = _ ?y => set (x4 := y) in * end.
  destruct (derive_and_send_run h bs (the_kex x) x4 eq_refl Pd Pn (proj1 Fs) Fb) as (k' & b' & Hk & Fb' & Ed).
  exists k', b', bi. rewrite Cs in Hk. split_and!; [done..|].
  unfold do_input_kex_c25519_init. unfold bind at 1, kexc25519_keygen, bind at 1, arc4random_buf, ret. fold skey spub. cbv beta iota.
  rewrite Elp, Elq. unfold bind at 1, get_state at 1. fold x1. change (the_kex x1) with (the_kex x). cbv zeta. rewrite Ep, Eq.
  unfold bind at 1. rewrite Eg. cbv beta iota. rewrite get_end_run, Lc by done. change (negb (CURVE25519_SIZE =? CURVE25519_SIZE)) with false.
  cbv beta iota. fold x2. unfold bind at 1. rewrite Esec. cbv beta iota. rewrite Eto.
  rewrite !buf_bytes_contents, Cs, Cm, Cp by (apply Fs || apply Pm || apply Pp).
  change (x_client_version x1) with (x_client_version x). change (x_server_version x1) with (x_server_version x). rewrite Ecv, Esv.
  unfold bind at 1, lift at 1. fold secret. rewrite Eh. unfold bind at 1, lift at 1. unfold bind at 1.
  rewrite save_session_run. cbv beta iota. match goal with |- _ ?y = _ => change y with x3 end.
  change (ssh_compat (x_ssh x1)) with (ssh_compat (x_ssh x)). rewrite Hsign by done. unfold bind at 1, lift at 1. cbv beta iota.
  rewrite Esend, Ed. done.
Qed.

Lemma input_kex_c25519_reply_run cv sv cc cs pc ps x spub blob pub key priv sig compat_s :
  prepared cc cs pc ps x -> k_server (the_kex x) = false -> sizes_ok cv sv cc cs pc ps ->
  x_client_version x = cv -> x_server_version x = sv ->
  honest_host (k_hostkey_type (the_kex x)) (k_hostkey_nid (the_kex x)) (k_hostkey_alg (the_kex x))
    (ssh_compat (x_ssh x)) compat_s blob pub key priv sig ->
  let ckey := x_client_key x in
  let cpub := x_client_pubkey x in
  let secret := crypto_scalarmult ckey spub in
  Bytes ckey -> zlen ckey = CURVE25519_SIZE -> Bytes cpub -> zlen cpub = CURVE25519_SIZE ->
  let h := exchange_hash (k_hash_alg (the_kex x)) cv sv cc cs pc ps blob cpub spub secret in
  full (x_incoming x) -> contents (x_incoming x) = wr_string blob ++ wr_string spub ++ wr_string (sig h) ->
  Bytes spub -> zlen spub = CURVE25519_SIZE -> spub <> zrep CURVE25519_SIZE 0 ->
  exists k' b bi, keys_installed h (wr_bignum2 secret) (the_kex x) k' /\ full b /\ full bi /\
    do_input_kex_c25519_reply A true x = (Ok tt, set_table (newkeys_table (x_table x))
      (set_sent (x_sent x ++ newkeys_packets k')
        (set_out b (with_kex k' (set_in bi (set_client_key (zrep CURVE25519_SIZE 0) x)))))).
Proof.
  intros P Hs So Ecv Esv HH ckey cpub secret Bk Lk Bc Lc h Hi Ci Bs Ls Hz.
  assert (Bytes secret) as Bsec by (by apply mult_Bytes). assert (zlen secret = CURVE25519_SIZE) as Lsec by (by apply mult_zlen).
  destruct HH as [[Bb Lb] _ _ _ Efrom Ety Enid (verify & Ev & Hv) Hsig _ Hver].
  destruct P as [Po Pd Pn Pm Pp Cm Cp]. rewrite Hs in Cm, Cp.
  assert (is_hash h) as Hh by (by apply exchange_hash_ok). destruct (Hsig h Hh) as [Bsig Lsig].
  destruct (get_string_run A HA blob (wr_string spub ++ wr_string (sig h)) x Hi Ci) as (b1 & F1 & C1 & E1); [unfold WIRE_STRING_MAX; lia|].
  destruct (get_string_run A HA spub (wr_string (sig h)) (set_in b1 x) F1 C1) as (b2 & F2 & C2 & E2);
    [rewrite Ls; by vm_compute|].
  destruct (get_string_run A HA (sig h) [] (set_in b2 (set_in b1 x)) F2) as (b3 & F3 & C3 & E3);
    [by rewrite app_nil_r|unfold WIRE_STRING_MAX; lia|].
  set (x3 := set_in b3 (set_in b2 (set_in b1 x))) in *.
  destruct (shared_secret_run ckey spub x3 Bk Lk Bs Ls Hz) as (bs & Fs & Cs & Esec).
  assert (kex_c25519_hash A (k_hash_alg (the_kex x)) cv sv (kexinit_wire cc pc 0 0) (kexinit_wire cs ps 0 0) blob cpub spub
    (wr_bignum2 secret) SSH_DIGEST_MAX_LENGTH = Ok h) as Eh.
  { apply exchange_hash_run; try done; [rewrite <- Cm|rewrite <- Cp]; apply contents_Bytes; [apply Pm|apply Pp]. }
  set (x4 := with_kex (if bool_decide (k_session_id (the_kex x) = []) then set_session_id h (the_kex x) else the_kex x) x3).
  destruct (derive_and_send_run h bs (the_kex x) x4 eq_refl Pd Pn (proj1 Fs) Po) as (k' & b' & Hk & Fb' & Ed).
  exists k', b', b3. rewrite Cs in Hk. split_and!; [done..|].
  unfold do_input_kex_c25519_reply, reply_body. rewrite Ev.
  unfold bind at 1. rewrite E1. cbv beta iota. unfold bind at 1. rewrite Efrom. unfold lift at 1. cbv beta iota.
  unfold bind at 1, get_state at 1. cbv beta iota zeta.
  change (the_kex (set_in b1 x)) with (the_kex x). rewrite Ety, Enid, !Z.eqb_refl, andb_false_r. cbn [negb orb].
  destruct (Z.eqb_spec (verify key) (-1)); [done|].
  unfold bind at 1. rewrite E2. cbv beta iota. unfold bind at 1. rewrite E3. cbv beta iota. fold x3.
  rewrite get_end_run, Ls by done. change (negb (CURVE25519_SIZE =? CURVE25519_SIZE)) with false. cbv beta iota.
  change (x_client_key (set_in b1 x)) with ckey. unfold bind at 1. rewrite Esec. cbv beta iota.
  rewrite !buf_bytes_contents, Cs, Cm, Cp by (apply Fs || apply Pm || apply Pp).
  change (x_client_version (set_in b1 x)) with (x_client_version x). change (x_server_version (set_in b1 x)) with (x_server_version x).
  change (x_client_pubkey (set_in b1 x)) with cpub. rewrite Ecv, Esv.
  unfold bind at 1, lift at 1. fold secret. rewrite Eh. cbv beta iota.
  change (ssh_compat (x_ssh (set_in b1 x))) with (ssh_compat (x_ssh x)). unfold bind at 1, lift at 1. rewrite Hver by done. cbv beta iota.
  unfold bind at 1. rewrite save_session_run. cbv beta iota. 
  match goal with |- context [derive_and_send_newkeys A true h bs ?y] => change y with x4 end.
  rewrite Ed. done.
Qed.

Lemma do_kex_input_newkeys_run x :
  full (x_incoming x) -> contents (x_incoming x) = [] ->
  do_kex_input_newkeys A x = (Ok tt,
    with_kex (set_name None (set_peer (sshbuf_reset A (k_peer (the_kex x))) (the_kex x)))
      (set_flags (Z.land (x_flags x) (Z.lnot KEX_INIT_SENT)) (set_done true
        (set_table (ssh_dispatch_set SSH2_MSG_NEWKEYS (Some kex_protocol_error) (x_table x)) x)))).
Proof.
  intros Hi Ci. unfold do_kex_input_newkeys. unfold bind at 1. unfold dispatch_set, update. cbv beta iota.
  rewrite get_end_run by done. done.
Qed.

(** One packet of the loop. *)
Lemma dispatch_step hmac methods fn type seq payload x :
  full (x_incoming x) -> Bytes payload -> zlen payload <= SSHBUF_SIZE_MAX ->
  0 < type < DISPATCH_MAX -> handler_of type (x_table x) = Some fn -> ssh_dispatch_skip_packets (x_ssh x) = 0 ->
  exists b, full b /\ contents b = payload /\ forall ps,
    ssh_dispatch_run (H := kex_host A true hmac methods) true (Ok (type, seq, payload) :: ps) x =
    match call_kex A true hmac methods fn seq (set_in b x) with
    | (Ok _, x') => if x_done x' then (Ok (Returned ps), x')
                    else ssh_dispatch_run (H := kex_host A true hmac methods) true ps x'
    | (Err e, x') => (Err e, x')
    end.
Proof.
  intros Hi Bp Lp Ht Hh Hs. destruct (receive_run A HA payload x Hi Bp Lp) as (b & Fb & Cb & Er).
  exists b. split_and!; [done..|]. intros ps. cbn [ssh_dispatch_run]. unfold bind at 1. cbn [host_receive kex_host]. rewrite Er.
  cbn [negb andb]. unfold bind at 1, dispatch_packet at 1, bind at 1, get_state at 1. cbn [host_table host_skip kex_host].
  change (x_table (set_in b x)) with (x_table x). rewrite (proj2 (Z.ltb_lt 0 type)), (proj2 (Z.ltb_lt type DISPATCH_MAX)) by lia.
  cbn [andb]. rewrite Hh. change (ssh_dispatch_skip_packets (x_ssh (set_in b x))) with (ssh_dispatch_skip_packets (x_ssh x)).
  rewrite Hs. cbn [negb Z.eqb]. unfold bind at 1. cbn [host_call kex_host].
  destruct (call_kex _ _ _ _ _ _ _) as [[[]|e] x']; [|done]. cbv beta iota. unfold ret at 1, bind at 1, get_state at 1.
  cbn [host_done kex_host andb]. by destruct (x_done x').
Qed.

(** *** One end, from the start to its method *)

Record fresh (x : kex_ssh) : Prop := {
  fr_out : full (x_outgoing x);
  fr_in : full (x_incoming x);
  fr_table : zlen (x_table x) = DISPATCH_MAX;
  fr_skip : ssh_dispatch_skip_packets (x_ssh x) = 0;
  fr_sent : x_sent x = [];
  fr_random : x_random x = 0
}.

(** The state in which the method is called. *)
Record at_method (server : bool) (cv sv cc cs : bytes) (pc ps : list bytes) (a : agreement) (compat : Z) (x : kex_ssh) : Prop := {
  am_prepared : prepared cc cs pc ps x;
  am_server : k_server (the_kex x) = server;
  am_configured : configured a (the_kex x);
  am_session : k_session_id (the_kex x) = [];
  am_cv : x_client_version x = cv;
  am_sv : x_server_version x = sv;
  am_in : full (x_incoming x);
  am_table : zlen (x_table x) = DISPATCH_MAX;
  am_compat : ssh_compat (x_ssh x) = compat;
  am_skip : ssh_dispatch_skip_packets (x_ssh x) = 0;
  am_done : x_done x = false;
  am_sent : x_sent x = [SSH2_MSG_KEXINIT :: if server then kexinit_wire cs ps 0 0 else kexinit_wire cc pc 0 0];
  am_random : x_random x = 1
}.

Definition c25519_method (server : bool) : M kex_ssh unit :=
  if server then kexc25519_server else kexc25519_client A.
Definition continue hmac (server : bool) (packets : list (result (Z * Z * bytes))) (r : result unit * kex_ssh)
    : result run_end * kex_ssh :=
  match r with
  | (Ok _, x) => if x_done x then (Ok (Returned packets), x)
                 else ssh_dispatch_run (H := kex_host A true hmac (c25519_methods A server)) true packets x
  | (Err e, x) => (Err e, x)
  end.

Lemma kexinit_Bytes cookie p : Bytes cookie -> is_proposal p -> Bytes (kexinit_wire cookie p 0 0).
Proof.
  intros Hc [_ Hp]. unfold kexinit_wire. apply Forall_app. split; [done|]. apply Forall_app. split.
  - induction Hp as [|v p Hv Hp IH]; [constructor|]. cbn. apply Forall_app. split; [|done].
    by apply wr_string_Bytes, is_cstring_Bytes.
  - apply Forall_app. split; [by repeat constructor|apply be_bytes_Bytes].
Qed.

Lemma run_kex_method hmac (server : bool) (cv sv : bytes) (pc ps : list bytes) (other : bytes) a seq x :
  let mine := kw_random 0 KEX_COOKIE_LEN in
  let cc := if server then other else mine in let cs := if server then mine else other in
  fresh x -> sizes_ok cv sv cc cs pc ps -> is_proposal pc -> is_proposal ps ->
  Bytes other -> zlen other = KEX_COOKIE_LEN ->
  agree hmac (ssh_compat (x_ssh x)) pc ps = Some a -> ka_type (a_method a) = KEX_C25519_SHA256 ->
  exists x', at_method server cv sv cc cs pc ps a (ssh_compat (x_ssh x)) x' /\ forall packets,
    run_kex A true hmac server cv sv (if server then ps else pc)
      (Ok (SSH2_MSG_KEXINIT, seq, if server then kexinit_wire cc pc 0 0 else kexinit_wire cs ps 0 0) :: packets) x =
    continue hmac server packets (c25519_method server x').
Proof.
  intros mine cc cs F So Hpc Hps Bo Lo Ha Ht. destruct F as [Fo Fi Ft Fs Fsent Fr].
  destruct (Hrandom 0 KEX_COOKIE_LEN ltac:(by vm_compute)) as [Bm Lm]. fold mine in Bm, Lm.
  set (pmy := if server then ps else pc). set (pother := if server then pc else ps).
  assert (is_proposal pmy /\ is_proposal pother) as [Hpm Hpo] by (by destruct server).
  assert (zlen (kexinit_wire mine pmy 0 0) <= 2 ^ 18 /\ zlen (kexinit_wire other pother 0 0) <= 2 ^ 18) as [Lmy Lot]
    by (destruct So; by destruct server).
  destruct (kex_setup_run A HA Hsend Hrandom x pmy Hpm Fo) as (my & peer & b & Fm & Cm & Fp & Cp & Fb & Es).
  { rewrite <- (kexinit_zlen mine) by done. unfold SSHBUF_SIZE_MAX. lia. }
  rewrite Fr in Cm, Es. fold mine in Cm, Es. rewrite Fsent in Es.
  match type of Es with _ = (_, ?y) => set (x1 := set_versions cv sv (with_kex (set_server server (the_kex y)) y)) in * end.
  assert (zlen (ssh_dispatch_range SSH2_MSG_TRANSPORT_MIN SSH2_MSG_TRANSPORT_MAX (Some kex_protocol_error) (x_table x)) = DISPATCH_MAX) as Lt.
  { unfold ssh_dispatch_range. unfold zlen in *. by rewrite fill_length. }
  destruct (dispatch_step hmac (c25519_methods A server) kex_input_kexinit SSH2_MSG_KEXINIT seq
    (kexinit_wire other pother 0 0) x1 Fi) as (bi & Fbi & Cbi & Ed).
  { by apply kexinit_Bytes. }
  { unfold SSHBUF_SIZE_MAX. lia. }
  { by vm_compute. }
  { apply set_handler. rewrite Lt. by vm_compute. }
  { exact Fs. }
  destruct (kex_input_kexinit_run A HA hmac (c25519_methods A server) (set_in bi x1) other pother) as (b2 & peer2 & Fb2 & Fp2 & Cp2 & Ek);
    try done; [unfold WIRE_STRING_MAX; lia| |].
  { change (contents (k_peer _)) with (contents peer). rewrite Cp, (@zlen_nil Z). unfold SSHBUF_SIZE_MAX. lia. }
  change (contents (k_peer (the_kex (set_in bi x1)))) with (contents peer) in Cp2. rewrite Cp, app_nil_l in Cp2.
  set (x2 := set_in b2 (with_kex (set_peer peer2 (the_kex (set_in bi x1))) (set_in bi x1))) in *.
  destruct (choose_and_call_run A HA hmac (c25519_methods A server) (c25519_method server) x2 cc cs pc ps a []) as (k & Ec & Hconf & Hs & Hsid & Hm & Hp);
    try done; try (by destruct server); try (by rewrite app_nil_r; destruct server).
  destruct (agree_small _ _ _ _ _ Ha) as (Sc & Ss & Hdig).
  destruct (configured_need a k Hconf Sc Ss) as (Hn & _). rewrite <- (conf_hash _ _ Hconf) in Hdig.
  exists (with_kex k x2). split.
  - split; try done.
    + split; change (the_kex (with_kex k x2)) with k; rewrite ?Hm, ?Hp, ?Hs; try done; [lia|by destruct server..].
    + change (zlen (ssh_dispatch_set SSH2_MSG_KEXINIT (Some kex_input_kexinit)
        (ssh_dispatch_range SSH2_MSG_TRANSPORT_MIN SSH2_MSG_TRANSPORT_MAX (Some kex_protocol_error) (x_table x))) = DISPATCH_MAX).
      by rewrite set_length.
    + by destruct server.
  - intros packets. replace (if server then kexinit_wire cc pc 0 0 else kexinit_wire cs ps 0 0) with (kexinit_wire other pother 0 0) by (by destruct server).
    unfold run_kex. unfold bind at 1. rewrite Es. cbv beta iota. unfold bind at 1. rewrite update_kex_run. cbv beta iota.
    unfold bind at 1, update at 1. cbv beta iota. fold x1. rewrite Ed. cbn [call_kex]. rewrite Ek, Ec. done.
Qed.

Lemma keys_installed_same h secret k k1 k2 :
  k_session_id k2 = k_session_id k1 -> k_newkeys_in k2 = k_newkeys_in k1 -> k_newkeys_out k2 = k_newkeys_out k1 ->
  keys_installed h secret k k1 -> keys_installed h secret k k2.
Proof. intros Es Ei Eo [Hs Hk]. split; [by rewrite Es|]. by rewrite Es, Ei, Eo. Qed.

Lemma newkeys_table_length t : zlen (newkeys_table t) = zlen t.
Proof. unfold newkeys_table. rewrite !set_length. unfold ssh_dispatch_range, zlen. by rewrite fill_length. Qed.

(** The last packet: NEWKEYS ends the loop. *)
Lemma newkeys_step hmac server seq k x :
  full (x_incoming x) -> zlen (x_table x) = DISPATCH_MAX -> ssh_dispatch_skip_packets (x_ssh x) = 0 -> the_kex x = k ->
  exists x', (forall packets, ssh_dispatch_run (H := kex_host A true hmac (c25519_methods A server)) true
      (Ok (SSH2_MSG_NEWKEYS, seq, []) :: packets) (set_table (newkeys_table (x_table x)) x) = (Ok (Returned packets), x')) /\
    x_done x' = true /\ x_sent x' = x_sent x /\ x_client_key x' = x_client_key x /\
    k_session_id (the_kex x') = k_session_id k /\ k_newkeys_in (the_kex x') = k_newkeys_in k /\
    k_newkeys_out (the_kex x') = k_newkeys_out k.
Proof.
  intros Fi Ft Fs Ek.
  destruct (dispatch_step hmac (c25519_methods A server) kex_input_newkeys SSH2_MSG_NEWKEYS seq []
    (set_table (newkeys_table (x_table x)) x) Fi) as (b & Fb & Cb & Ed);
    [by constructor|by vm_compute|by vm_compute| |done|].
  { apply set_handler. rewrite set_length. unfold zlen, ssh_dispatch_range in *. rewrite fill_length, Ft. by vm_compute. }
  eexists. split; [intros packets; rewrite Ed; cbn [call_kex]; by rewrite do_kex_input_newkeys_run by done|]. change (the_kex (set_in b _)) with (the_kex x). rewrite Ek. by destruct k.
Qed.

Lemma server_run hmac cv sv cc cs pc ps a compat compat_c x cpub blob pub key priv sig s1 s2 :
  at_method true cv sv cc cs pc ps a compat x -> sizes_ok cv sv cc cs pc ps ->
  honest_host (k_hostkey_type (the_kex x)) (k_hostkey_nid (the_kex x)) (k_hostkey_alg (the_kex x))
    compat_c compat blob pub key priv sig ->
  Bytes cpub -> zlen cpub = CURVE25519_SIZE -> cpub <> zrep CURVE25519_SIZE 0 ->
  let skey := kw_random (x_random x) CURVE25519_SIZE in
  let spub := crypto_scalarmult skey basepoint in
  let secret := crypto_scalarmult skey cpub in
  Bytes spub -> zlen spub = CURVE25519_SIZE ->
  let h := exchange_hash (k_hash_alg (the_kex x)) cv sv cc cs pc ps blob cpub spub secret in
  exists x' ext, (forall packets,
    continue hmac true (Ok (SSH2_MSG_KEX_ECDH_INIT, s1, wr_string cpub) :: Ok (SSH2_MSG_NEWKEYS, s2, []) :: packets)
      (c25519_method true x) = (Ok (Returned packets), x')) /\
    x_done x' = true /\ keys_installed h (wr_bignum2 secret) (the_kex x) (the_kex x') /\
    x_sent x' = [SSH2_MSG_KEXINIT :: kexinit_wire cs ps 0 0;
      SSH2_MSG_KEX_ECDH_REPLY :: wr_string blob ++ wr_string spub ++ wr_string (sig h); [SSH2_MSG_NEWKEYS]] ++ ext.
Proof.
  intros M So HH Bc Lc Hz skey spub secret Bs Ls h. destruct M as [P Ms Mc Msid Mcv Msv Mi Mt Mco Msk Md Msent Mr].
  unfold continue, c25519_method. set (x1 := set_table (ssh_dispatch_set SSH2_MSG_KEX_ECDH_INIT (Some input_kex_c25519_init) (x_table x)) x).
  change (kexc25519_server x) with (@Ok unit tt, x1). cbn iota. change (x_done x1) with (x_done x). rewrite Md.
  destruct (dispatch_step hmac (c25519_methods A true) input_kex_c25519_init SSH2_MSG_KEX_ECDH_INIT s1 (wr_string cpub)
    x1 Mi) as (b & Fb & Cb & Ed);
    [by apply wr_string_Bytes|rewrite wr_string_zlen, Lc; by vm_compute|by vm_compute|
     apply set_handler; rewrite Mt; by vm_compute|done|].
  destruct (input_kex_c25519_init_run cv sv cc cs pc ps (set_in b x1) cpub blob pub key priv sig compat_c) as
    (k' & b' & bi & Hk & Fb' & Fbi & Er); try done.
  { by destruct P. }
  { change (ssh_compat (x_ssh (set_in b x1))) with (ssh_compat (x_ssh x)). by rewrite Mco. }
  change (the_kex (set_in b x1)) with (the_kex x) in Hk. change (x_random (set_in b x1)) with (x_random x) in *.
  fold skey spub secret h in Hk, Er.
  match type of Er with _ = (_, set_table _ ?y) => set (x2 := y) in * end.
  change (newkeys_table (x_table (set_in b x1))) with (newkeys_table (x_table x2)) in Er.
  destruct (newkeys_step hmac true s2 k' x2) as (x' & En & Hd & Hse & _ & Hsi & Hni & Hno); try done.
  { change (zlen (ssh_dispatch_set SSH2_MSG_KEX_ECDH_INIT (Some input_kex_c25519_init) (x_table x)) = DISPATCH_MAX). by rewrite set_length. }
  exists x', (tail (newkeys_packets k')). split_and!; [intros packets; rewrite Ed; cbn [call_kex]; rewrite Er; change (x_done (set_table _ x2)) with (x_done x); rewrite Md; apply En|done|by eapply keys_installed_same|].
  rewrite Hse. change (x_sent x2) with ((x_sent x ++ [SSH2_MSG_KEX_ECDH_REPLY :: wr_string blob ++ wr_string spub ++ wr_string (sig h)]) ++
                 newkeys_packets k'). by rewrite Msent.
Qed.

Lemma basepoint_ok : Bytes basepoint /\ zlen basepoint = CURVE25519_SIZE.
Proof. split; [|done]. unfold basepoint. repeat constructor; unfold in_range; lia. Qed.

Lemma client_run hmac cv sv cc cs pc ps a compat compat_s x spub blob pub key priv sig s1 s2 :
  at_method false cv sv cc cs pc ps a compat x -> sizes_ok cv sv cc cs pc ps ->
  honest_host (k_hostkey_type (the_kex x)) (k_hostkey_nid (the_kex x)) (k_hostkey_alg (the_kex x))
    compat compat_s blob pub key priv sig ->
  Bytes spub -> zlen spub = CURVE25519_SIZE -> spub <> zrep CURVE25519_SIZE 0 ->
  let ckey := kw_random (x_random x) CURVE25519_SIZE in
  let cpub := crypto_scalarmult ckey basepoint in
  let secret := crypto_scalarmult ckey spub in
  let h := exchange_hash (k_hash_alg (the_kex x)) cv sv cc cs pc ps blob cpub spub secret in
  exists x' ext, (forall packets,
    continue hmac false (Ok (SSH2_MSG_KEX_ECDH_REPLY, s1, wr_string blob ++ wr_string spub ++ wr_string (sig h)) ::
        Ok (SSH2_MSG_NEWKEYS, s2, []) :: packets)
      (c25519_method false x) = (Ok (Returned packets), x')) /\
    x_done x' = true /\ keys_installed h (wr_bignum2 secret) (the_kex x) (the_kex x') /\
    x_client_key x' = zrep CURVE25519_SIZE 0 /\
    x_sent x' = [SSH2_MSG_KEXINIT :: kexinit_wire cc pc 0 0; SSH2_MSG_KEX_ECDH_INIT :: wr_string cpub; [SSH2_MSG_NEWKEYS]] ++ ext.
Proof.
  intros M So HH Bs Ls Hz ckey cpub secret h. destruct M as [P Ms Mc Msid Mcv Msv Mi Mt Mco Msk Md Msent Mr].
  destruct (Hrandom (x_random x) CURVE25519_SIZE ltac:(by vm_compute)) as [Bk Lk]. fold ckey in Bk, Lk.
  destruct basepoint_ok as [Bb Lb].
  assert (Bytes cpub) as Bc by (by apply mult_Bytes). assert (zlen cpub = CURVE25519_SIZE) as Lc by (by apply mult_zlen).
  destruct (kexc25519_client_run A HA Hsend x (pr_out _ _ _ _ _ P) Bc Lc) as (b0 & F0 & E0). fold ckey cpub in E0.
  match type of E0 with _ = (_, ?y) => set (x1 := y) in * end.
  destruct (hh_blob _ _ _ _ _ _ _ _ _ _ HH) as [Bblob Lblob]. 
  destruct (hh_sig _ _ _ _ _ _ _ _ _ _ HH h ltac:(apply exchange_hash_ok, P)) as [Bsig Lsig].
  unfold continue, c25519_method. rewrite E0. change (x_done x1) with (x_done x). rewrite Md.
  destruct (dispatch_step hmac (c25519_methods A false) input_kex_c25519_reply SSH2_MSG_KEX_ECDH_REPLY s1
    (wr_string blob ++ wr_string spub ++ wr_string (sig h)) x1 Mi) as (b & Fb & Cb & Ed);
    [apply Forall_app; split; [|apply Forall_app; split]; by apply wr_string_Bytes| |by vm_compute|
     apply set_handler; rewrite Mt; by vm_compute|done|].
  { rewrite !zlen_app, !wr_string_zlen, Ls. unfold CURVE25519_SIZE, SSHBUF_SIZE_MAX. lia. }
  destruct (input_kex_c25519_reply_run cv sv cc cs pc ps (set_in b x1) spub blob pub key priv sig compat_s) as
    (k' & b' & bi & Hk & Fb' & Fbi & Er); try done.
  { by destruct P. }
  { change (ssh_compat (x_ssh (set_in b x1))) with (ssh_compat (x_ssh x)). by rewrite Mco. }
  change (the_kex (set_in b x1)) with (the_kex x) in Hk. change (x_client_key (set_in b x1)) with ckey in *.
  change (x_client_pubkey (set_in b x1)) with cpub in *.
  fold secret h in Hk.
  match type of Er with _ = (_, set_table _ ?y) => set (x2 := y) in * end.
  change (newkeys_table (x_table (set_in b x1))) with (newkeys_table (x_table x2)) in Er.
  destruct (newkeys_step hmac false s2 k' x2) as (x' & En & Hd & Hse & Hck & Hsi & Hni & Hno); try done.
  { change (zlen (ssh_dispatch_set SSH2_MSG_KEX_ECDH_REPLY (Some input_kex_c25519_reply) (x_table x)) = DISPATCH_MAX). by rewrite set_length. }
  exists x', (tail (newkeys_packets k')). split_and!; [intros packets; rewrite Ed; cbn [call_kex]; rewrite Er; change (x_done (set_table _ x2)) with (x_done x); rewrite Md; apply En|done|by eapply keys_installed_same|done|].
  rewrite Hse. change (x_sent x2) with ((x_sent x ++ [SSH2_MSG_KEX_ECDH_INIT :: wr_string cpub]) ++ newkeys_packets k'). by rewrite Msent.
Qed.

(** The keys that the agreement [a] calls for. *)
Definition agreed_key (a : agreement) (h secret : bytes) (id : string) : bytes :=
  let alg := ka_hash_alg (a_method a) in
  kdf alg secret h (ch id) h (Z.to_nat (kdf_count (Z.max 0 (Z.max (key_need (a_ctos a)) (key_need (a_stoc a))))
    (ssh_digest_bytes alg))).

Lemma keys_installed_agreed a h secret k k' :
  configured a k -> k_session_id k = [] -> keys_installed h secret k k' ->
  let key := agreed_key a h secret in
  let ctos := Some (set_keys (key "A"%string) (key "C"%string) (key "E"%string) (a_ctos a)) in
  let stoc := Some (set_keys (key "B"%string) (key "D"%string) (key "F"%string) (a_stoc a)) in
  k_session_id k' = h /\ k_newkeys_out k' = (if k_server k then stoc else ctos) /\
  k_newkeys_in k' = (if k_server k then ctos else stoc).
Proof.
  intros Hc Hs [Hsid Hk]. rewrite Hs in Hsid. cbn in Hsid. cbv zeta in *.
  assert (forall id, kdf_key (set_session_id (k_session_id k') k) h secret id = agreed_key a h secret id) as Ekey.
  { intros id. unfold kdf_key, agreed_key. rewrite <- (conf_hash _ _ Hc), <- (conf_we_need _ _ Hc), Hsid. by destruct k. }
  rewrite !Ekey, (conf_out _ _ Hc), (conf_in _ _ Hc) in Hk. destruct Hk as [Ho Hi].
  split; [done|]. by rewrite Ho, Hi; destruct (k_server k).
Qed.

(** *** A client that repeats its KEXINIT *)

(** A server that has sent its KEXINIT and kept [n] of the client's. *)
Record flooded (cs : bytes) (ps : list bytes) (wire : bytes) (n : nat) (x : kex_ssh) : Prop := {
  fl_in : full (x_incoming x);
  fl_table : zlen (x_table x) = DISPATCH_MAX;
  fl_handler : handler_of SSH2_MSG_KEXINIT (x_table x) = Some kex_input_kexinit;
  fl_skip : ssh_dispatch_skip_packets (x_ssh x) = 0;
  fl_flags : Z.land (x_flags x) KEX_INIT_SENT <> 0;
  fl_done : x_done x = false;
  fl_server : k_server (the_kex x) = true;
  fl_my : full (k_my (the_kex x)) /\ contents (k_my (the_kex x)) = kexinit_wire cs ps 0 0;
  fl_peer : full (k_peer (the_kex x)) /\ contents (k_peer (the_kex x)) = concat (replicate n wire)
}.

Lemma concat_replicate_S {T} n (l : list T) : concat (replicate (S n) l) = concat (replicate n l) ++ l.
Proof. induction n as [|n IH]; cbn in *; [by rewrite app_nil_r|]. by rewrite IH at 1; rewrite <- (assoc_L (++)). Qed.
Lemma zlen_concat_replicate {T} n (l : list T) : zlen (concat (replicate n l)) = Z.of_nat n * zlen l.
Proof. induction n as [|n IH]; [done|]. cbn [replicate concat]. rewrite zlen_app, IH. lia. Qed.

Lemma flood_step hmac cc cs pc ps a compat n seq x :
  let wire := kexinit_wire cc pc 0 0 in
  is_proposal pc -> is_proposal ps -> Bytes cc -> zlen cc = KEX_COOKIE_LEN -> zlen cs = KEX_COOKIE_LEN ->
  zlen wire <= WIRE_STRING_MAX -> Z.of_nat (S n) * zlen wire <= SSHBUF_SIZE_MAX ->
  agree hmac compat pc ps = Some a -> ka_type (a_method a) = KEX_C25519_SHA256 ->
  ssh_compat (x_ssh x) = compat -> flooded cs ps wire n x ->
  exists x', flooded cs ps wire (S n) x' /\ ssh_compat (x_ssh x') = compat /\ x_sent x' = x_sent x /\ forall packets,
    ssh_dispatch_run (H := kex_host A true hmac (c25519_methods A true)) true (Ok (SSH2_MSG_KEXINIT, seq, wire) :: packets) x =
    ssh_dispatch_run (H := kex_host A true hmac (c25519_methods A true)) true packets x'.
Proof.
  intros wire Hpc Hps Bc Lc Ls Lw Ln Ha Ht Hco [Fi Ft Fh Fs Ff Fd Fse [Fm Cm] [Fp Cp]].
  destruct (dispatch_step hmac (c25519_methods A true) kex_input_kexinit SSH2_MSG_KEXINIT seq wire x Fi) as (b & Fb & Cb & Ed);
    [by apply kexinit_Bytes|unfold SSHBUF_SIZE_MAX, WIRE_STRING_MAX in *; lia|by vm_compute|done|done|].
  destruct (kex_input_kexinit_run A HA hmac (c25519_methods A true) (set_in b x) cc pc) as (b2 & peer & Fb2 & Fp2 & Cp2 & Ek); try done.
  { change (k_peer (the_kex (set_in b x))) with (k_peer (the_kex x)). rewrite Cp, zlen_concat_replicate. fold wire. lia. }
  change (k_peer (the_kex (set_in b x))) with (k_peer (the_kex x)) in Cp2. rewrite Cp in Cp2. fold wire in Cp2.
  set (x2 := set_in b2 (with_kex (set_peer peer (the_kex (set_in b x))) (set_in b x))) in *.
  assert (k_server (the_kex x2) = true /\ k_my (the_kex x2) = k_my (the_kex x) /\ k_peer (the_kex x2) = peer) as (E1 & E2 & E3).
  { change (the_kex x2) with (set_peer peer (the_kex x)). rewrite <- Fse. by destruct (the_kex x). }
  destruct (choose_and_call_run A HA hmac (c25519_methods A true) kexc25519_server x2 cc cs pc ps a (concat (replicate n wire)))
    as (k & Ec & _ & Hs & _ & Hm & Hp); rewrite ?E1, ?E2, ?E3; try done.
  { rewrite Cp2. fold wire. rewrite <- concat_replicate_S. done. }
  { change (ssh_compat (x_ssh x2)) with (ssh_compat (x_ssh x)). by rewrite Hco. }
  rewrite E1 in Hs. rewrite E2 in Hm. rewrite E3 in Hp.
  exists (set_table (ssh_dispatch_set SSH2_MSG_KEX_ECDH_INIT (Some input_kex_c25519_init) (x_table x2)) (with_kex k x2)).
  split; [|split; [|split]]; [|done|done|].
  - split; try done; change (the_kex (set_table _ (with_kex k x2))) with k; rewrite ?Hm, ?Hp, ?Hs; try done.
    + change (zlen (ssh_dispatch_set SSH2_MSG_KEX_ECDH_INIT (Some input_kex_c25519_init) (x_table x)) = DISPATCH_MAX). by rewrite set_length.
    + change (handler_of SSH2_MSG_KEXINIT (ssh_dispatch_set SSH2_MSG_KEX_ECDH_INIT (Some input_kex_c25519_init) (x_table x)) = Some kex_input_kexinit).
      by rewrite set_handler_ne by done.
    + by rewrite Cp2, <- concat_replicate_S.
  - intros packets. rewrite Ed. cbn [call_kex]. rewrite Ek, Ec. 
    change (kexc25519_server ?y) with (@Ok unit tt, set_table (ssh_dispatch_set SSH2_MSG_KEX_ECDH_INIT (Some input_kex_c25519_init) (x_table y)) y).
    cbn iota. change (x_done (set_table _ _)) with (x_done x). rewrite Fd. done.
Qed.
End exchange.

(** ** Both ends *)

(** The packets that a peer has sent, as they are received. *)
Definition packets_of (sent : list bytes) : list (result (Z * Z * bytes)) :=
  imap (fun i p => Ok (hd 0 p, Z.of_nat i, tl p)) sent.

Definition world_ok (W : KexWorld) : Prop :=
  (forall sent p, kw_send sent p = 0) /\
  (forall i n, 0 <= n -> Bytes (kw_random i n) /\ zlen (kw_random i n) = n).


(** C40. A client can make the server keep as many copies of its KEXINIT as it likes.
    [kex_input_kexinit] appends the message to [kex->peer] and leaves its own handler
    in the table, so a client that has sent its KEXINIT and sends it again, instead of
    its public value, is not stopped: the loop waits for the next packet, nothing is
    sent, and the buffer has grown by one message, up to the limit of a buffer, before
    any key or name has been exchanged. *)
Theorem kexinit_flood {sshkey} A `{EvpSpec} `{CurveSpec} `{KexWorld} `{HostKey sshkey} hmac cc cs pc ps a seqs x :
  let wire := kexinit_wire cc pc 0 0 in
  alloc_ok A -> is_proposal pc -> is_proposal ps -> Bytes cc -> zlen cc = KEX_COOKIE_LEN -> zlen cs = KEX_COOKIE_LEN ->
  zlen wire <= WIRE_STRING_MAX -> zlen seqs * zlen wire <= SSHBUF_SIZE_MAX ->
  agree hmac (ssh_compat (x_ssh x)) pc ps = Some a -> ka_type (a_method a) = KEX_C25519_SHA256 ->
  flooded cs ps wire 0 x ->
  exists x', ssh_dispatch_run (H := kex_host A true hmac (c25519_methods A true)) true
      ((fun seq => Ok (SSH2_MSG_KEXINIT, seq, wire)) <$> seqs) x = (Ok Waiting, x') /\
    contents (k_peer (the_kex x')) = concat (replicate (length seqs) wire) /\ x_sent x' = x_sent x.
Proof.
  intros wire HA Hpc Hps Bc Lc Ls Lw Ln Ha Ht Hx.
  assert (forall n y, Z.of_nat n * zlen wire + zlen seqs * zlen wire <= SSHBUF_SIZE_MAX -> ssh_compat (x_ssh y) = ssh_compat (x_ssh x) ->
    flooded cs ps wire n y -> exists x', ssh_dispatch_run (H := kex_host A true hmac (c25519_methods A true)) true
      ((fun seq => Ok (SSH2_MSG_KEXINIT, seq, wire)) <$> seqs) y = (Ok Waiting, x') /\
    contents (k_peer (the_kex x')) = concat (replicate (n + length seqs) wire) /\ x_sent x' = x_sent y) as Hgen.
  { clear Ln Hx. pose proof (zlen_nonneg wire). induction seqs as [|seq seqs IH]; intros n y Ln Hco Hy.
    - exists y. split; [done|]. split; [|done]. rewrite Nat.add_0_r. apply (fl_peer _ _ _ _ _ Hy).
    - rewrite zlen_cons in Ln. pose proof (zlen_nonneg seqs).
      destruct (flood_step A HA hmac cc cs pc ps a _ n seq y Hpc Hps Bc Lc Ls Lw ltac:(rewrite Nat2Z.inj_succ; fold wire; nia) Ha Ht Hco Hy) as (y1 & Hy1 & Hc1 & Hs1 & Er).
      destruct (IH (S n) y1 ltac:(rewrite Nat2Z.inj_succ; nia) Hc1 Hy1) as (x' & E' & C' & S').
      exists x'. rewrite fmap_cons, Er. split; [exact E'|]. split; [|congruence]. rewrite C'. f_equal. f_equal. cbn. lia. }
  by apply (Hgen 0%nat).
Qed.

Definition demo_new : sshbuf := default (sshbuf_init test_alloc) (sshbuf_new test_alloc).
Lemma demo_new_full : full demo_new.
Proof. apply (full_new test_alloc). reflexivity. Qed.

(** Two ends before the exchange. *)
Definition demo_start : kex_ssh :=
  mk_kex_ssh (mk_ssh (kex_zero demo_new demo_new) 0 0) 0 false 0 [] [] [] [] (replicate 255 None) demo_new demo_new [] 0.
Lemma demo_start_fresh : fresh demo_start.
Proof. split; try reflexivity; apply demo_new_full. Qed.

Definition demo_server_proposal : list bytes :=
  cstr "ecdh-sha2-nistp521,curve25519-sha256@libssh.org" :: tail server_proposal.
Definition demo_agreement : agreement :=
  match agree true 0 client_proposal demo_server_proposal with
  | Some a => a
  | None => mk_agreement [] (mk_kexalg [] 0 0 0) [] newkeys_zero newkeys_zero
  end.

Lemma toy_world_ok seed : world_ok (toy_world seed).
Proof.
  split; [done|]. intros i n Hn. split; [|by apply zlen_zrep]. apply Bytes_zrep. unfold in_range.
  pose proof (Z.mod_pos_bound (seed + i) 256 ltac:(lia)). cbn. lia.
Qed.

Lemma toy_host_honest : honest_host (HK := toy_host) KEY_RSA (-1) (Some (cstr "ssh-rsa")) 0 0
  toy_key toy_key toy_key (Some toy_key) (fun h => toy_key ++ h).
Proof.
  split; try done.
  - split; [apply demo_Bytes; reflexivity|vm_compute; congruence].
  - by eexists.
  - by eexists.
  - eexists. split; [reflexivity|]. vm_compute. discriminate.
  - intros h [Hb Hl]. split; [apply Forall_app; split; [apply demo_Bytes; reflexivity|done]|].
    rewrite zlen_app. change (zlen toy_key) with 12. unfold SSH_DIGEST_MAX_LENGTH in Hl. lia.
  - intros h _. cbn. by rewrite bool_decide_true.
Qed.


Definition demo_full (v : bytes) : sshbuf := snd (sshbuf_put test_alloc v (zlen v) demo_new).
Lemma demo_full_ok v : Bytes v -> zlen v <= SSHBUF_SIZE_MAX -> full (demo_full v) /\ contents (demo_full v) = v.
Proof.
  intros Hv Hl. unfold demo_full. destruct (full_put test_alloc v demo_new test_alloc_ok demo_new_full Hv) as (b & -> & Hb & Cb); [done|].
  by split.
Qed.

Definition demo_cookie : bytes := zrep KEX_COOKIE_LEN 1.
Definition demo_wire : bytes := kexinit_wire demo_cookie client_proposal 0 0.
Definition demo_flooded : kex_ssh :=
  mk_kex_ssh (mk_ssh (set_server true (kex_zero (demo_full (kexinit_wire demo_cookie demo_server_proposal 0 0)) demo_new)) 0 0)
    KEX_INIT_SENT false 0 [] [] [] [] (ssh_dispatch_set SSH2_MSG_KEXINIT (Some kex_input_kexinit) (replicate 255 None))
    demo_new demo_new [] 0.

Lemma demo_flooded_ok : flooded demo_cookie demo_server_proposal demo_wire 0 demo_flooded.
Proof.
  split; try reflexivity.
  - apply demo_new_full.
  - discriminate.
  - apply demo_full_ok; [|by vm_compute]. apply kexinit_Bytes; [by apply Bytes_zrep|].
    apply test_is_proposal. vm_compute. reflexivity.
  - split; [apply demo_new_full|reflexivity].
Qed.

Lemma kexinit_flood_witness :
  exists x', ssh_dispatch_run (H := kex_host (H0 := toy_curve) (W := toy_world 0) (H1 := toy_host) test_alloc true true (c25519_methods (W := toy_world 0) (H0 := toy_curve) test_alloc true)) true
      [Ok (SSH2_MSG_KEXINIT, 0, demo_wire); Ok (SSH2_MSG_KEXINIT, 1, demo_wire)] demo_flooded = (Ok Waiting, x') /\
    contents (k_peer (the_kex x')) = demo_wire ++ demo_wire.
Proof.
  destruct (kexinit_flood (H0 := toy_curve_spec) (H1 := toy_world 0) (H2 := toy_host) test_alloc true demo_cookie demo_cookie
    client_proposal demo_server_proposal demo_agreement [0; 1] demo_flooded) as (x' & E & Cp & _).
  - apply test_alloc_ok.
  - apply test_is_proposal. vm_compute. reflexivity.
  - apply test_is_proposal. vm_compute. reflexivity.
  - apply Bytes_zrep. unfold in_range. lia.
  - reflexivity.
  - reflexivity.
  - vm_compute. congruence.
  - vm_compute. congruence.
  - vm_compute. reflexivity.
  - vm_compute. reflexivity.
  - exact demo_flooded_ok.
  - exists x'. split; [exact E|]. rewrite Cp. cbn [length replicate concat]. by rewrite app_nil_r.
Defined.
